(* ===== verification/_CoqProject ===== *)
-Q . S2P
Prelude.v
Doubles.v
CxxStd.v
IpmbFrame.v
IpmbBridge.v
IpmbBridgeSpec.v
Transport.v
VitaDevice.v
VitaDeviceSpec.v
ChassisManager.v
ChassisManagerSpec.v
BootManager.v
BootManagerSpec.v
FanLoop.v
FanLoopSpec.v
SensorObjects.v
AdcSensors.v
AdcSensorsSpec.v
TempSensors.v
TempSensorsSpec.v
MandatorySensors.v
MandatorySensorsSpec.v
GpioMonitor.v
GpioMonitorSpec.v
SensorChain.v
RmcpMessage.v
RmcpCrypto.v
RmcpState.v
RmcpSession.v
RmcpParser.v
RmcpHandler.v
Sol.v
RmcpSetup.v
RmcpCommands.v
RmcpDaemon.v
RmcpSample.v
RmcpParserSpec.v
RmcpSessionSpec.v
RmcpSetupSpec.v
SolSpec.v
IpmiMessage.v
IpmiMessageSpec.v
IpmiDispatch.v
WhitelistFilter.v
IpmiDispatchSpec.v
PasswdMgr.v
PasswdMgrSpec.v
Json.v
UserMgmt.v
UserSync.v
UserMgmtSpec.v
UserSyncSpec.v
UserInvariant.v
ChannelMgmt.v
HostCommands.v
ChannelMgmtSpec.v
HostCommandsSpec.v
NetUsers.v
FruArea.v
FruAreaSpec.v
HostQueue.v
HostQueueSpec.v
Watchdog.v
WatchdogSpec.v
SystemInfo.v
SystemInfoSpec.v
CipherSuites.v
CipherSuitesSpec.v
