(* ===== verification/Prelude.v ===== *)
(** * The NGC chassis manager: a verification library

    The repository is the firmware of a VITA 46.11 chassis manager: an OpenBMC
    distribution with the project's own services and its changes to upstream
    ones.  This library models the services that carry the project's own
    logic, as executable definitions translated from the C++, and proves what
    makes them correct, or shows exactly where they are not.

    ** The program and its parts

    - the IPMB bridge daemon ([src/devtool-mods/ipmb_directory-mods/]) owns the
      I2C buses: it serialises requests and responses into IPMB frames, matches
      responses to outstanding requests, retries, and answers the D-Bus method
      [sendRequest] of its clients;
    - the chassis manager ([src/devtool-mods/vita4611/]) is a library of the
      IPMI host service: it enumerates the modules of the chassis through
      [sendRequest], reads their sensor records, polls and publishes their
      sensors, answers the VITA 46.11 commands and passes others through to
      the modules;
    - the boot manager ([lcr-MANAGER-app]) waits for the front panel switch,
      powers the chassis up, keeps the system log and reacts to alarms;
    - the fan controller ([lcr-fanloop-app]) drives the fans from the highest
      temperature, by a power law or by a PID controller;
    - the sensor services ([lcr-ADC-app], [lcr-temperature-app],
      [lcr-gpiomonitor-app], [lcr-mandatory-sensors-app]) publish voltages,
      temperatures and pins as D-Bus objects, with their alarms, which the
      boot manager, the fan controller and the mandatory sensors read;
    - the network IPMI daemon ([src/devtool-mods/phosphor-ipmi-net-mods/])
      speaks RMCP+ on UDP port 623: it sets up sessions by a key exchange,
      checks, decrypts and answers the packets of a session, passes commands
      to the IPMI host service, and carries the serial console of the host;
    - the IPMI host service ([src/devtool-mods/host-mods/]) takes commands from
      the network daemon, the host and the IPMB bridge over D-Bus, unpacks
      their arguments, checks privileges and filters, and runs the registered
      handlers; it keeps the users with their passwords, the channels, the
      cipher suites and the queue of commands to the host.

    (The boot manager, the fan controller and the sensor services are under
    [src/lcr-obmc/meta-lcr/recipes-app/].)

    ** Files

    - [Prelude]: machine integers, the monad [M] of computations with a state,
      C++ exceptions ([Throw]) and undefined behaviour ([Undef]), its rules,
      the framework [preserves] of relations every outcome of a computation
      keeps, and lemmas on bytes and lists.
    - [Doubles]: binary64 by [SpecFloat]; libm is the class [Libm].
    - [CxxStd]: [std::stoi], [std::to_string], strings as bytes.
    - [IpmbFrame]: [ipmbutils.cpp], the frame layout of [ipmbdefines.hpp] and
      [ipmbbridged.hpp], the serialisers and parsers of [ipmbbridged.cpp].
    - [IpmbBridge]: the daemon of [ipmbbridged.cpp] as a transition system.
      Each coroutine is cut at its suspension points; [step] runs one event (a
      D-Bus call, a readable bus, the end of a write or of a timer, a reply of
      the host).  The invariant [Inv] and the outcome of every event are
      proved here; [IpmbBridgeSpec] states the properties.
    - [Transport]: what the chassis manager calls.  The class [Environment]
      answers each call as a function of the calls so far; [BridgeContract] is
      what the manager relies on, and [bridge_environment], which runs the
      [IpmbBridge] model under any script of bus events, discharges it.
    - [VitaDevice], [VitaDeviceSpec]: the class [VITA4611Device] of
      [vita4611cm.cpp]: identification, discovery, the SDR reader, conversion
      and polling of sensors.
    - [ChassisManager], [ChassisManagerSpec]: [VITA4611_ChassisManager] of
      [vita4611cm.cpp] and the entry points of [vita4611.cpp].
    - [BootManager], [BootManagerSpec]: [MANAGER.cpp] and its [main].
    - [FanLoop], [FanLoopSpec]: [pid.cpp], [fan_manipulation.cpp] and [main].
    - [SensorObjects]: the published objects, the state of a publishing
      service ([Host]) and its surroundings ([SensorEnv]).
    - [AdcSensors], [TempSensors], [GpioMonitor], [MandatorySensors] with
      their [...Spec] files: [ADC_manipulation.cpp], [tmp_manipulation.cpp],
      [lcr_gpio_mon.cpp], [mandatorySensors.cpp], each with its [main].
    - [SensorChain]: the boot manager on top of the published objects.  The
      class [BusView] is what the manager relies on in the bus; [bus_env]
      discharges it for any set of objects.

    - [RmcpMessage], [RmcpCrypto], [RmcpParser]: [message.hpp],
      [auth_algo.cpp], [integrity_algo.cpp], [crypt_algo.cpp],
      [message_parsers.cpp].  OpenSSL is the class [Crypto]; [CryptoLaws] is
      what the code relies on (lengths, decryption undoes encryption),
      [CryptoTotal] that no call fails.
    - [RmcpState], [RmcpSession]: [session.hpp] and [sessions_manager.cpp].
      Sessions are shared by the table, handlers and serial contexts, so they
      live in a heap of objects.
    - [RmcpHandler], [RmcpSetup], [RmcpCommands], [Sol], [RmcpDaemon]:
      [message_handler.cpp]; the handlers of Open Session and RAKP 1 to 4
      ([open_session.cpp], [rakp12.cpp], [rakp34.cpp]); the session and channel
      commands; serial over LAN ([sol/], [sol_cmds.cpp], [payload_cmds.cpp]);
      the command table and the event loop.  [step] runs one event: a packet,
      a reply of the host service, a timer, console data, a change of the
      configuration; [reachable] is every state that follows from the start.
    - [RmcpSample]: executable surroundings and a run for the witnesses.
    - [RmcpParserSpec], [RmcpSessionSpec], [RmcpSetupSpec], [SolSpec]: their
      properties.

    - [IpmiMessage], [IpmiMessageSpec]: the payloads of [message.hpp],
      [message/pack.hpp] and [message/unpack.hpp].  The templates are functions
      of a description [ty] of the type.
    - [IpmiDispatch], [IpmiDispatchSpec]: [ipmid-new.cpp], [handler.hpp],
      [registration.hpp]: registration of handlers and filters, callbacks with
      their exceptions, the queue of commands ([executionEntry]).
      [WhitelistFilter]: [whitelist-filter.cpp].
    - [Json]: values of [nlohmann::json]; its accessors are the class
      [JsonLib], what the code relies on [JsonLaws].
    - [PasswdMgr], [PasswdMgrSpec]: the encrypted password file
      ([passwd_mgr.cpp]).
    - [UserMgmt], [UserSync], [UserInvariant] with [UserMgmtSpec] and
      [UserSyncSpec]: [user_mgmt.cpp] and [user_layer.cpp]: the table of users,
      its file, the signals of the user manager, the start.  The class
      [PasswordService] is what the users rely on in the passwords.
    - [ChannelMgmt], [ChannelMgmtSpec]: [channel_mgmt.cpp],
      [channel_layer.cpp].
    - [HostCommands], [HostCommandsSpec]: [usercommands.cpp] and
      [channelcommands.cpp] over the two.
    - [NetUsers]: the network daemon on top of the users and channels, which
      discharge its [UserLayer].
    - [FruArea], [HostQueue], [Watchdog], [SystemInfo], [CipherSuites] with
      their [...Spec] files: [ipmi_fru_info_area.cpp]; [host-cmd-manager.cpp],
      [host-interface.cpp] and the event buffer of [systemintfcmds.cpp];
      [app/watchdog.cpp] and [app/watchdog_service.cpp]; [sys_info_param.cpp]
      and its two commands in [apphandler.cpp]; [cipher_mgmt.cpp] and
      [app/channel.cpp].  The calendar of the C library, the watchdog daemon
      and the channel layer of the last are the classes [Calendar], [Daemon]
      and [Channels].

    Definitions keep the names of the source; a class member is a record
    field, a method a computation in [M] over the record.  A variable that may
    never have been assigned is an [option] that is read with [init_read]; an
    index, a pointer or a conversion C++ leaves unchecked is an [Undef].

    ** What the theorems show

    - Frames: requests and responses survive serialisation and parsing; the
      checksums detect every single-byte corruption in frames of up to 258
      bytes; frames too long for the 8-bit checksum lengths lose that
      protection.
    - Bridge, over every interleaving of events: which two events are
      undefined, and that no other is; at most one reply per request, and a
      successful reply carries a matching response that was received on the
      channel of the request and after it; an
      answer after at most 18 completions; distinct sequence numbers; the
      whole path of a request and its response; the leak of slots.
    - Devices: [getSDRVals] implements "read the record" for every length and
      ends whatever the bus answers; a scan keeps the sensors and their
      numbers; coefficients are decoded as two's complement; a poll publishes
      every reading in order; what failed requests and short records do.
    - Chassis manager: for every request in every well-formed state, a
      response and a well-formed state, except exactly the requests listed by
      [passthrough_crashes]; what the passthrough puts on the bus; what
      enumeration builds; round trips of the identifier and of the policy
      bits; the fan policy and its timer.
    - Boot manager, over every interleaving of its threads: the order of the
      power-up sequence, the lines ever driven; the bound of the system log
      after each [write_log_to_file], and the lines that are written without
      trimming; what an alarm does.
    - Fan controller: the duty cycle law of a completed round in both modes;
      what the loss of all sensors does.
    - Sensor services, from their start on: after every poll the objects show
      the readings, the limits and exactly the alarms they imply; the GPIO
      monitor, which publishes changes only, always shows its pins; what a
      sensor that cannot be read does; which alarms the FRU health counts.
    - Packets: what is sent protected is received as it was; how an accepted
      packet was protected; its sequence number does not matter; the checksum
      of responses is that of the IPMB bridge.
    - Sessions, in every reachable state: table, slots, handles and keys fit
      together; a session becomes active by proof of the user's key only; its
      packets are authentic and encrypted; the cleaner removes exactly what is
      stale, within proved bounds of the grace periods.
    - Key exchange, against a model of the console: both sides end with the
      same keys; a wrong proof ends the session; message 1 on an active
      session changes its user.
    - Serial over LAN: the retained packet is a prefix of the console buffer in
      every reachable state; an inbound packet acts as the stop-and-wait
      protocol says; what retries and duplicates do.
    - Message layer: for the lists of argument types that satisfy [layouts]
      packing writes exactly the bits of the values and unpacking gives the
      values back; whatever bytes arrive, a request is unpacked or refused,
      but for the types that [parsable] excludes and a string of an empty
      payload; the exceptions to both (nested tuples, vectors of partial
      bytes, vectors of optionals) are shown.
    - Dispatch: for any registrations, a command runs the handler that was
      registered last with the highest priority in the table its net function
      selects, after the filters and the check of its privilege, and on the
      arguments its caller packed; what it does and answers does not depend on
      the handlers above its privilege; once the mode of a host is known the
      whitelist refuses exactly what it says.
    - Users, passwords, channels: the names and the table stay well-formed under
      every sequence of calls, signals and restarts; a rename moves exactly one
      password; files read back what was written; the table after a start is
      the system's users; the user and channel commands change nothing that
      lasts for callers below the administrator.
    - FRU images: a reader finds exactly the sections of the inventory, with
      sound checksums, and its values less a hexadecimal prefix, cut to 63
      bytes, up to the first of one byte in an area.
    - Commands to the host: over every sequence of events each command is
      completed exactly once and in order; a waiting command has a timer, and
      is completed when it expires or when the host reads.
    - Watchdog: what is set is read back from the daemon, but for the
      pretimeout interval, which reads as zero; every command is
      answered however the calls of the daemon end, and errors are reported
      once between two successes.
    - System information: strings written in blocks in any order are read back.
    - Cipher suites: the levels refine a table with one row per channel that
      survives restarts; the pages of records decode to the suites of the file.
    - Composition: a poll of the boot manager cuts the power exactly when a
      voltage rail is outside its limits at the last poll of its service; a
      user the host service renames or removes logs in over the network under
      the new name only, or no more.

    ** Bounds and fuel

    - [getSDRVals] runs its loop with fuel 13: a length is a byte and each full
      section has 22 of them, so at most 12 requests are sent, which
      [getSDRVals_terminates] proves.
    - [isServiceActive] of the boot manager waits at most 10 times for D-Bus
      and asks at most 5 times, the constants of the source; the search for a
      sequence number visits the 64 slots once.
    - The draw of a session id repeats until the id is free; [id_fuel] of the
      class [Settings] bounds the draws, and [open_session_answers] says that
      it suffices when the random source makes more different ids within it
      than the session table has room for ([drawn_fresh]).
    - The bit loops of the message layer run with the number of bits left or
      asked for, one more than they can take; [lower_bound] with the length of
      the list; [clear_loop] with the length of the queue, from which each round
      removes a command; an access to the watchdog with two calls, since a
      failed call makes the name stale and a stale name is not tried again.
    - Every other loop is structural in the data it goes through.  Loops that
      never end ([main], the worker thread, the threads of the boot manager)
      are one definition per iteration.

    ** Not modelled

    - D-Bus, sysfs, GPIO, systemd, the JSON parser and the timers of asio are
      parameters: functions of the calls made so far, with no hypothesis
      unless a theorem states one.
    - Threads of the boot manager are interleaved per iteration of their
      loops; the data races of the unsynchronised members are not.  Log lines
      of debug files are left out: nothing reads them.
    - The network daemon: opening its socket, VLAN options, the registration of
      session objects on D-Bus and the log of failed logins.  What OpenSSL
      computes is not modelled, only the laws of [CryptoLaws] and
      [PaddedLaws].
    - The IPMI host service: the other handlers (the rest of the application
      commands, chassis, sensors, SEL, storage, transport, DCMI), which convert
      between D-Bus properties and response bytes and mostly do I/O; the
      conversation functions of PAM, the loading of the provider libraries,
      modes of files, and the subscription to signals.
    - Upstream services carried with few changes (the [dbus-sensors] daemons,
      entity manager, fan suite, web server), [ipmitool] (C), the command line
      tools over GPIO, I2C and memory, the build layers and the hardware
      projects. *)
From Stdlib Require Import ZArith Lia String.
From stdpp Require Import base list.
Local Open Scope Z_scope.

(** ** Machine integers

    A [uint8_t] is a [Z] in [0..255]; every store into one goes through
    [u8], every store into a [uint16_t] through [u16], and so on. *)
Definition u8 (z : Z) : Z := z mod 256.
Definition u16 (z : Z) : Z := z mod 65536.
Definition u32 (z : Z) : Z := z mod 4294967296.
Definition u64 (z : Z) : Z := z mod 18446744073709551616.
Definition is_byte (z : Z) : Prop := 0 <= z < 256.
Definition bytes (l : list Z) : Prop := Forall is_byte l.

(** Reading an unsigned value as two's complement of width [w]. *)
Definition sext (w z : Z) : Z :=
  let m := z mod 2 ^ w in if Z.testbit m (w - 1) then m - 2 ^ w else m.

#[export] Instance is_byte_dec z : Decision (is_byte z).
Proof. unfold is_byte. apply _. Defined.

(** ** Faults, exceptions and the monad of stateful C++ code

    [Undef] is behaviour the C++ standard leaves undefined (a null
    dereference, [operator[]] past the end, a read of an indeterminate
    value, ...); no handler catches it.  [OutOfFuel] marks a loop that has not
    ended within the fuel given to it.  [Throw] is a C++ exception: the
    state at the throw point survives, as the mutations made before it do. *)
Inductive fault :=
  | NullDeref | OutOfBounds | Uninitialised | BadConversion | SignedOverflow
  | OutOfFuel.

Inductive exn :=
  | BadOptionalAccess | DBusError | InvalidArgument | StdOutOfRange
  | RuntimeError (what : string).

Inductive outcome (S A : Type) :=
  | Ret (a : A) (s : S)
  | Throw (e : exn) (s : S)
  | Undef (f : fault).
Arguments Ret {S A} a s.
Arguments Throw {S A} e s.
Arguments Undef {S A} f.

Definition M (S A : Type) : Type := S -> outcome S A.

Definition ret {S A} (a : A) : M S A := fun s => Ret a s.
Definition throw {S A} (e : exn) : M S A := fun s => Throw e s.
Definition undef {S A} (f : fault) : M S A := fun _ => Undef f.
Definition bind {S A B} (m : M S A) (k : A -> M S B) : M S B := fun s =>
  match m s with
  | Ret a s' => k a s'
  | Throw e s' => Throw e s'
  | Undef f => Undef f
  end.
Definition get {S} : M S S := fun s => Ret s s.
Definition put {S} (s : S) : M S unit := fun _ => Ret tt s.
Definition modify {S} (f : S -> S) : M S unit := fun s => Ret tt (f s).

(** [try m h]: a C++ [try { m } catch (...) { h }]. *)
Definition try {S A} (m : M S A) (h : exn -> M S A) : M S A := fun s =>
  match m s with
  | Throw e s' => h e s'
  | o => o
  end.

Declare Scope lcr_scope.
Delimit Scope lcr_scope with lcr.
Notation "'let!' x ':=' m 'in' k" := (bind m (fun x => k))
  (at level 10, x pattern, m at level 100, k at level 200,
   format "'[v' 'let!'  x  ':='  m  'in' '/' k ']'") : lcr_scope.
Notation "m ';;;' k" := (bind m (fun _ => k))
  (at level 199, right associativity,
   format "'[v' m ';;;' '/' k ']'") : lcr_scope.
Open Scope lcr_scope.

(** Reads that C++ leaves unchecked. *)
Definition of_option {S A} (f : fault) (o : option A) : M S A :=
  match o with Some a => ret a | None => undef f end.
(** [v[i]] on a [std::vector] or [std::array]. *)
Definition idx {S} (v : list Z) (i : nat) : M S Z := of_option OutOfBounds (v !! i).
(** A range [p + off, p + off + n) of a buffer. *)
Definition read_range {S} (v : list Z) (off n : Z) : M S (list Z) :=
  if off + n <=? Z.of_nat (length v)
  then ret (take (Z.to_nat n) (drop (Z.to_nat off) v))
  else undef OutOfBounds.
(** [p->...] on a possibly null pointer. *)
Definition deref {S A} (p : option A) : M S A := of_option NullDeref p.
(** The value of a variable that may never have been assigned. *)
Definition init_read {S A} (v : option A) : M S A := of_option Uninitialised v.

(** Record update [r <| f := v |>].  A record type declares its fields once, by
    an instance of [Fields] that rebuilds a record from its projections; the
    setter of a field is found by abstracting that field's projection. *)
Class Fields (R : Type) := rebuild : R -> R.
Class Setter {R T : Type} (proj : R -> T) := update : (T -> T) -> R -> R.
Arguments update {R T} proj {_} f r.

Ltac build_setter proj :=
  match type of proj with
  | ?R -> ?T =>
      let h := constr:(@rebuild R _) in
      let h := eval cbv delta [rebuild] in h in
      let h := eval cbv beta in h in
      let h := match h with ?c _ => eval unfold c in h | ?c => eval unfold c in c end in
      let h := eval cbv beta in h in
      match eval pattern proj in h with
      | ?abstracted _ =>
          let s := constr:(fun (f : T -> T) (r : R) => abstracted (fun r0 => f (proj r0)) r) in
          let s := eval cbv beta in s in exact s
      end
  end.
#[export] Hint Extern 1 (Setter ?proj) => build_setter proj : typeclass_instances.

Notation "r '<|' proj ':=' v '|>'" := (update proj (fun _ => v) r)
  (at level 1, left associativity, proj at level 200, v at level 200) : lcr_scope.

(** A method of a sub-object runs on the part of the state it owns. *)
Definition zoom {S T A} (view : S -> T) (upd : T -> S -> S) (m : M T A) : M S A :=
  fun s => match m (view s) with
           | Ret a t => Ret a (upd t s)
           | Throw e t => Throw e (upd t s)
           | Undef f => Undef f
           end.

(** A range-[for] over a container. *)
Fixpoint mfor {S A} (l : list A) (body : A -> M S unit) : M S unit :=
  match l with
  | [] => ret tt
  | x :: l' => body x ;;; mfor l' body
  end.

(** A range-[for] that rewrites the elements in place. *)
Fixpoint mmap {S A B} (f : A -> M S B) (l : list A) : M S (list B) :=
  match l with
  | [] => ret []
  | x :: l' => let! y := f x in let! ys := mmap f l' in ret (y :: ys)
  end.

(** ** Running a computation *)
Definition runs_to {S A} (m : M S A) (s : S) (Q : A -> S -> Prop) : Prop :=
  match m s with Ret a s' => Q a s' | _ => False end.
Definition no_undef {S A} (m : M S A) (s : S) : Prop :=
  forall f, m s <> Undef f.

Section monad_lemmas.
  Context {S A B : Type}.
  Implicit Types (m : M S A) (k : A -> M S B).

Lemma bind_ret_l (a : A) k s : bind (ret a) k s = k a s.
Proof. reflexivity. Qed.

Lemma bind_Ret m k s a s' : m s = Ret a s' -> bind m k s = k a s'.
Proof. intros H. unfold bind. rewrite H. reflexivity. Qed.

Lemma bind_Undef m k s f : m s = Undef f -> bind m k s = Undef f.
Proof. intros H. unfold bind. rewrite H. reflexivity. Qed.

Lemma runs_to_bind m k s (Q : B -> S -> Prop) :
    runs_to m s (fun a s' => runs_to (k a) s' Q) -> runs_to (bind m k) s Q.
Proof. unfold runs_to, bind. destruct (m s); done. Qed.

Lemma runs_to_mono m s (Q Q' : A -> S -> Prop) :
    runs_to m s Q -> (forall a s', Q a s' -> Q' a s') -> runs_to m s Q'.
Proof. unfold runs_to. destruct (m s); auto. Qed.

Lemma runs_to_Ret m s (Q : A -> S -> Prop) :
    runs_to m s Q <-> exists a s', m s = Ret a s' /\ Q a s'.
Proof. unfold runs_to. split.
    - destruct (m s) as [a s'| |]; [|done..]. intros. by exists a, s'.
    - intros (a & s' & -> & HQ). exact HQ.
  Qed.

Lemma no_undef_bind m k s :
    no_undef m s -> (forall a s', m s = Ret a s' -> no_undef (k a) s') ->
    no_undef (bind m k) s.
Proof.
    unfold no_undef, bind. intros Hm Hk f. destruct (m s) eqn:E; try done.
    - by eapply Hk.
    - intros [= ->]. by eapply Hm.
  Qed.
End monad_lemmas.

Lemma bind_inv {S A B} (m : M S A) (k : A -> M S B) s b s' :
  bind m k s = Ret b s' -> exists a s1, m s = Ret a s1 /\ k a s1 = Ret b s'.
Proof. unfold bind. destruct (m s) as [a s1| |]; [|done..]. intros E. by exists a, s1. Qed.

(** ** Relations a computation keeps

    [preserves R m]: whether [m] returns or throws, the state it leaves is
    related to the one it started with. *)
Definition preserves {S A} (R : S -> S -> Prop) (m : M S A) : Prop :=
  forall s, match m s with
            | Ret _ s' | Throw _ s' => R s s'
            | Undef _ => True
            end.

Section preserves.
Context {S : Type} (R : S -> S -> Prop) `{!PreOrder R}.

Lemma preserves_pure {A} (m : M S A) :
  (forall s, match m s with Ret _ s' | Throw _ s' => s' = s | Undef _ => True end) ->
  preserves R m.
Proof. intros Hm s. specialize (Hm s). destruct (m s); [| |done]; by rewrite Hm. Qed.

Lemma preserves_bind {A B} (m : M S A) (k : A -> M S B) :
  preserves R m -> (forall a, preserves R (k a)) -> preserves R (bind m k).
Proof.
  intros Hm Hk s. specialize (Hm s). unfold bind. destruct (m s) as [a s1| |]; [|done..].
  specialize (Hk a s1). destruct (k a s1); [by etransitivity..|done].
Qed.

Lemma preserves_try {A} (m : M S A) h :
  preserves R m -> (forall e, preserves R (h e)) -> preserves R (try m h).
Proof.
  intros Hm Hh s. specialize (Hm s). unfold try. destruct (m s) as [|e s1|]; [done| |done].
  specialize (Hh e s1). destruct (h e s1); [by etransitivity..|done].
Qed.

Lemma preserves_ret {A} (a : A) : preserves R (ret a).
Proof. by apply preserves_pure. Qed.
Lemma preserves_throw {A} e : preserves R (throw e : M S A).
Proof. by apply preserves_pure. Qed.
Lemma preserves_undef {A} f : preserves R (undef f : M S A).
Proof. by apply preserves_pure. Qed.
Lemma preserves_get : preserves R get.
Proof. by apply preserves_pure. Qed.
Lemma preserves_of_option {A} f (o : option A) : preserves R (of_option f o).
Proof. destruct o; by apply preserves_pure. Qed.
Lemma preserves_read_range v o n : preserves R (read_range v o n).
Proof. unfold read_range. destruct (_ <=? _); by apply preserves_pure. Qed.
Lemma preserves_modify f : (forall s, R s (f s)) -> preserves R (modify f).
Proof. intros Hf s. apply Hf. Qed.

Lemma preserves_mfor {A} (l : list A) body :
  (forall a, preserves R (body a)) -> preserves R (mfor l body).
Proof.
  intros Hb. induction l as [|a l IH]; simpl; [apply preserves_ret|].
  by apply preserves_bind.
Qed.

Lemma preserves_mmap {A B} (f : A -> M S B) (l : list A) :
  (forall a, preserves R (f a)) -> preserves R (mmap f l).
Proof.
  intros Hf. induction l as [|a l IH]; simpl; [apply preserves_ret|].
  apply preserves_bind; [done|]. intros b. apply preserves_bind; [done|]. intros bs. apply preserves_ret.
Qed.
Lemma preserves_Ret {A} (m : M S A) a s s' : preserves R m -> m s = Ret a s' -> R s s'.
Proof. intros Hm E. specialize (Hm s). by rewrite E in Hm. Qed.
End preserves.

Lemma preserves_bind_val {S A B} (R : S -> S -> Prop) `{!PreOrder R} (Q : A -> Prop) (m : M S A) (k : A -> M S B) :
  (forall s a s', m s = Ret a s' -> Q a) -> preserves R m -> (forall a, Q a -> preserves R (k a)) ->
  preserves R (bind m k).
Proof.
  intros HQ Hm Hk s. specialize (Hm s). unfold bind. destruct (m s) as [a s1| |] eqn:E; [|done..].
  specialize (Hk a (HQ _ _ _ E) s1). destruct (k a s1); [by etransitivity..|done].
Qed.

Create HintDb preserves.
#[export] Hint Resolve preserves_ret preserves_throw preserves_undef preserves_get
  preserves_of_option preserves_read_range : preserves.

(** Reduce [preserves] of a body to its calls; [leaf] closes those. *)
Ltac preserve_with leaf :=
  repeat first
    [ match goal with |- preserves _ (bind _ _) => apply preserves_bind; [exact _| |intros ?] end
    | match goal with |- preserves _ (try _ _) => apply preserves_try; [exact _| |intros ?] end
    | solve [eauto with preserves typeclass_instances]
    | solve [unfold idx, init_read, deref; eauto with preserves typeclass_instances]
    | solve [leaf]
    | match goal with |- preserves _ (if ?b then _ else _) => destruct b end
    | match goal with |- preserves _ (match ?b with _ => _ end) => destruct b end ].

(** [stateless m]: the outcome of [m] does not depend on the state, and the
    state stays. *)
Definition stateless {S A} (m : M S A) : Prop := forall s t,
  match m s with
  | Ret a s' => s' = s /\ m t = Ret a t
  | Throw e s' => s' = s /\ m t = Throw e t
  | Undef f => m t = Undef f
  end.

Section stateless.
Context {S : Type}.

Lemma stateless_ret {A} (a : A) : stateless (ret a : M S A).
Proof. by intros s t. Qed.
Lemma stateless_throw {A} e : stateless (throw e : M S A).
Proof. by intros s t. Qed.
Lemma stateless_undef {A} f : stateless (undef f : M S A).
Proof. by intros s t. Qed.
Lemma stateless_of_option {A} f (o : option A) : stateless (of_option f o : M S A).
Proof. destruct o; [apply stateless_ret | apply stateless_undef]. Qed.
Lemma stateless_read_range v o n : stateless (read_range v o n : M S (list Z)).
Proof. unfold read_range. destruct (_ <=? _); [apply stateless_ret | apply stateless_undef]. Qed.

Lemma stateless_bind {A B} (m : M S A) (k : A -> M S B) :
  stateless m -> (forall a, stateless (k a)) -> stateless (bind m k).
Proof.
  intros Hm Hk s t. specialize (Hm s t). unfold bind. destruct (m s) as [a s1|e s1|f].
  - destruct Hm as [-> ->]. specialize (Hk a s t). by destruct (k a s).
  - by destruct Hm as [-> ->].
  - by rewrite Hm.
Qed.

Lemma stateless_Ret {A} (m : M S A) a s s' : stateless m -> m s = Ret a s' ->
  s' = s /\ forall t, m t = Ret a t.
Proof.
  intros Hm E. split; [|intros t]; [specialize (Hm s s)|specialize (Hm s t)];
    rewrite E in Hm; apply Hm.
Qed.
End stateless.

Create HintDb stateless.
#[export] Hint Resolve stateless_ret stateless_throw stateless_undef stateless_of_option
  stateless_read_range : stateless.

Ltac stateless_with leaf :=
  repeat first
    [ match goal with |- stateless (bind _ _) => apply stateless_bind; [|intros ?] end
    | solve [eauto with stateless]
    | solve [unfold idx, init_read, deref; eauto with stateless]
    | solve [leaf]
    | match goal with |- stateless (if ?b then _ else _) => destruct b end
    | match goal with |- stateless (match ?b with _ => _ end) => destruct b end ].

Lemma idx_Ret {S} (v : list Z) i (s : S) b : v !! i = Some b -> idx v i s = Ret b s.
Proof. intros H. unfold idx. rewrite H. reflexivity. Qed.

Lemma idx_OutOfBounds {S} (v : list Z) i (s : S) :
  (length v <= i)%nat -> idx v i s = Undef OutOfBounds.
Proof. intros H. unfold idx. rewrite lookup_ge_None_2 by done. reflexivity. Qed.

Lemma mmap_Ret {S A B} (f : A -> M S B) (g : A -> B) l s :
  (forall x, In x l -> f x s = Ret (g x) s) -> mmap f l s = Ret (map g l) s.
Proof.
  induction l as [|x l IH]; intros H; cbn [mmap map]; [done|].
  rewrite (bind_Ret _ _ _ _ _ (H x (or_introl eq_refl))), (bind_Ret _ _ _ (map g l) s); [done|].
  apply IH. intros y Hy. apply H. by right.
Qed.

Create HintDb lcr.
Create Rewrite HintDb lcr.
#[export] Hint Rewrite @bind_ret_l : lcr.
#[export] Hint Resolve runs_to_bind : lcr.

(** One step of symbolic execution of a monadic body. *)
Ltac mstep :=
  match goal with
  | |- context [bind (ret _) _ _] => rewrite bind_ret_l
  | H : ?m ?s = Ret _ _ |- context [bind ?m _ ?s] => rewrite (bind_Ret _ _ _ _ _ H)
  | H : ?m ?s = Undef _ |- context [bind ?m _ ?s] => rewrite (bind_Undef _ _ _ _ H)
  end.

(** ** Byte and bit lemmas shared by the components *)
Lemma u8_is_byte z : is_byte (u8 z).
Proof. unfold is_byte, u8. apply Z.mod_pos_bound. lia. Qed.

Lemma u8_small z : is_byte z -> u8 z = z.
Proof. apply Z.mod_small. Qed.

Lemma u8_add_l a b : u8 (u8 a + b) = u8 (a + b).
Proof. unfold u8. rewrite Zplus_mod_idemp_l. reflexivity. Qed.

Lemma u8_add_r a b : u8 (a + u8 b) = u8 (a + b).
Proof. unfold u8. rewrite Zplus_mod_idemp_r. reflexivity. Qed.

#[export] Hint Resolve u8_is_byte : lcr.
#[export] Hint Rewrite u8_add_l u8_add_r : lcr.

Lemma land_mask z n : 0 <= n -> Z.land z (2 ^ n - 1) = z mod 2 ^ n.
Proof. intros. rewrite <- Z.land_ones by done. f_equal. rewrite Z.ones_equiv. lia. Qed.

Lemma land_3 z : Z.land z 3 = z mod 4.
Proof. apply (land_mask z 2). lia. Qed.

Lemma land_1 z : Z.land z 1 = z mod 2.
Proof. apply (land_mask z 1). lia. Qed.

(** [(hi << n) | lo] with [lo] below [2^n]: concatenation of bit fields. *)
Lemma lor_shiftl_add hi lo n :
  0 <= n -> 0 <= lo < 2 ^ n -> Z.lor (Z.shiftl hi n) lo = hi * 2 ^ n + lo.
Proof.
  intros Hn Hlo. rewrite <- Z.shiftl_mul_pow2 by done.
  rewrite Z.add_nocarry_lxor, <- Z.lxor_lor; [reflexivity| |].
  all: apply Z.bits_inj'; intros k Hk; rewrite Z.land_spec, Z.bits_0.
  all: destruct (Z.ltb_spec k n).
  all: try (rewrite Z.shiftl_spec_low by lia; reflexivity).
  all: rewrite andb_comm; rewrite <- (Z.mod_small lo (2 ^ n)) by done.
  all: rewrite Z.mod_pow2_bits_high by lia; reflexivity.
Qed.

Lemma shiftr_div z n : 0 <= n -> Z.shiftr z n = z / 2 ^ n.
Proof. apply Z.shiftr_div_pow2. Qed.

Ltac byte_solve :=
  unfold is_byte, u8, u16, u32 in *; rewrite ?shiftr_div in * by lia;
  change (2 ^ 1) with 2 in *; change (2 ^ 2) with 4 in *;
  change (2 ^ 3) with 8 in *; change (2 ^ 4) with 16 in *;
  change (2 ^ 6) with 64 in *; change (2 ^ 7) with 128 in *;
  change (2 ^ 8) with 256 in *;
  try lia; try (Z.to_euclidean_division_equations; lia).

(** ** Lists of bytes *)
Fixpoint sum (l : list Z) : Z :=
  match l with [] => 0 | x :: l' => x + sum l' end.

Lemma sum_app l1 l2 : sum (l1 ++ l2) = sum l1 + sum l2.
Proof. induction l1 as [|x l1 IH]; simpl; lia. Qed.

Lemma bytes_app l1 l2 : bytes (l1 ++ l2) <-> bytes l1 /\ bytes l2.
Proof. apply Forall_app. Qed.

Lemma bytes_cons b l : bytes (b :: l) <-> is_byte b /\ bytes l.
Proof. apply Forall_cons. Qed.

(** [slice l i n]: the [n] elements of [l] from index [i] on. *)
Definition slice {A} (l : list A) (i n : nat) : list A := take n (drop i l).

Lemma slice_length {A} (l : list A) i n :
  (i + n <= length l)%nat -> length (slice l i n) = n.
Proof. intros. unfold slice. rewrite length_take, length_drop. lia. Qed.

Lemma slice_app_exact {A} (l1 l2 l3 : list A) :
  slice (l1 ++ l2 ++ l3) (length l1) (length l2) = l2.
Proof.
  unfold slice. rewrite drop_app_length, take_app_length. reflexivity.
Qed.

Lemma slice_slice_adjacent {A} (l : list A) i n m :
  slice l i n ++ slice l (i + n) m = slice l i (n + m).
Proof.
  unfold slice. rewrite <- (drop_drop l n i).
  apply take_take_drop.
Qed.

(** A function that keeps a list free of duplicates is injective on it. *)
Lemma NoDup_map_inj {A B} (f : A -> B) (l : list A) x y :
  NoDup (map f l) -> x ∈ l -> y ∈ l -> f x = f y -> x = y.
Proof.
  induction l as [|a l IH]; intros Hnd Hx Hy E; [by apply elem_of_nil in Hx|].
  apply NoDup_cons in Hnd as [Ha Hnd].
  apply elem_of_cons in Hx as [->|Hx]; apply elem_of_cons in Hy as [->|Hy]; [done|..|by apply IH].
  - destruct Ha. rewrite E. by apply (list_elem_of_fmap_2 f).
  - destruct Ha. rewrite <- E. by apply (list_elem_of_fmap_2 f).
Qed.

Lemma read_range_app {S} (pre mid post : list Z) (s : S) off n :
  off = Z.of_nat (length pre) -> n = Z.of_nat (length mid) -> read_range (pre ++ mid ++ post) off n s = Ret mid s.
Proof.
  intros -> ->. unfold read_range. rewrite !length_app.
  replace (_ <=? _) with true by (symmetry; apply Z.leb_le; lia).
  by rewrite !Nat2Z.id, drop_app_length, take_app_length.
Qed.
