(* ===== verification/Doubles.v ===== *)
(** * Doubles

    [double] is IEEE 754 binary64, given by the executable specification of
    the Standard Library ([SpecFloat], precision 53, maximal exponent 1024).
    The elementary functions of libm are not specified bit for bit, so they
    are a parameter: the class [Libm]. *)
From Stdlib Require Import ZArith Lia SpecFloat.
From stdpp Require Import base.
From S2P Require Import Prelude.
Local Open Scope Z_scope.

Definition double := spec_float.
Definition prec : Z := 53.
Definition emax : Z := 1024.

Definition dadd (x y : double) : double := SFadd prec emax x y.
Definition dsub (x y : double) : double := SFsub prec emax x y.
Definition dmul (x y : double) : double := SFmul prec emax x y.
Definition ddiv (x y : double) : double := SFdiv prec emax x y.
Definition dsqrt (x : double) : double := SFsqrt prec emax x.
Definition dopp (x : double) : double := SFopp x.
Definition dabs (x : double) : double := SFabs x.
Definition dltb (x y : double) : bool := SFltb x y.
Definition dleb (x y : double) : bool := SFleb x y.
Definition deqb (x y : double) : bool := SFeqb x y.

(** [static_cast<double>] of an integer: correctly rounded. *)
Definition dofZ (z : Z) : double := binary_normalize prec emax z 0 false.
(** The double nearest to [m * 2^e]. *)
Definition dbits (m e : Z) : double := binary_normalize prec emax m e false.

Definition dzero : double := S754_zero false.
Definition d_one : double := dofZ 1.

(** Truncation toward zero of a finite double. *)
Definition dtrunc (x : double) : option Z :=
  match x with
  | S754_zero _ => Some 0
  | S754_finite s m e =>
      let a := if 0 <=? e then Z.pos m * 2 ^ e else Z.pos m / 2 ^ (- e) in
      Some (if s then - a else a)
  | _ => None
  end.

(** A conversion to an integer type is undefined when the truncated value
    does not fit. *)
Definition double_to_int {S} (lo hi : Z) (x : double) : M S Z :=
  match dtrunc x with
  | Some z => if (lo <=? z) && (z <=? hi) then ret z else undef BadConversion
  | None => undef BadConversion
  end.

Class Libm := {
  lm_pow : double -> double -> double;
  lm_log : double -> double;
  lm_log10 : double -> double;
  lm_log2 : double -> double;
  lm_exp : double -> double;
  lm_cbrt : double -> double }.

(** Documented behaviour of C's [pow]: [pow(x, 0)] is 1 for every [x]. *)
Class LibmPow0 `{Libm} : Prop := pow_0 : forall x, lm_pow x (dofZ 0) = d_one.

(** A concrete instance for evaluation: [pow] of a base with a small integer
    exponent by repeated multiplication; the rest are not needed by the
    witnesses. *)
Fixpoint dpow_nat (x : double) (n : nat) : double :=
  match n with O => d_one | S n' => dmul x (dpow_nat x n') end.
Definition dpow_int (x y : double) : double :=
  match dtrunc y with
  | Some z => if 0 <=? z then dpow_nat x (Z.to_nat z)
              else ddiv d_one (dpow_nat x (Z.to_nat (- z)))
  | None => y
  end.
Definition libm_example : Libm :=
  {| lm_pow := dpow_int; lm_log := fun x => x; lm_log10 := fun x => x;
     lm_log2 := fun x => x; lm_exp := fun x => x; lm_cbrt := fun x => x |}.

Lemma libm_example_pow0 : @LibmPow0 libm_example.
Proof. intros x. reflexivity. Qed.
