(* ===== verification/CxxStd.v ===== *)
(** * The C++ standard library

    Strings as lists of bytes, [std::stoi] and [std::to_string].  They are
    the parts of the standard library the components parse and print with. *)
From Stdlib Require Import ZArith Lia String Ascii SpecFloat.
From stdpp Require Import base list strings pretty.
From S2P Require Import Prelude Doubles.
Local Open Scope Z_scope.

Fixpoint bytes_of_string (s : string) : list Z :=
  match s with
  | EmptyString => []
  | String c s' => Z.of_N (N_of_ascii c) :: bytes_of_string s'
  end.

Lemma bytes_of_string_app s1 s2 :
  bytes_of_string (s1 ++ s2) = bytes_of_string s1 ++ bytes_of_string s2.
Proof. induction s1 as [|c s1 IH]; simpl; [done|by rewrite IH]. Qed.

(** [std::stoi]: leading spaces, a sign, then decimal digits. *)
Fixpoint digits (l : list Z) (acc : Z) : Z :=
  match l with
  | d :: l' => if (48 <=? d) && (d <=? 57) then digits l' (acc * 10 + (d - 48)) else acc
  | [] => acc
  end.
Fixpoint skip_spaces (l : list Z) : list Z :=
  match l with
  | d :: l' => if (d =? 32) || ((9 <=? d) && (d <=? 13)) then skip_spaces l' else l
  | [] => []
  end.
Definition strip_sign (l : list Z) : bool * list Z :=
  match l with
  | d :: l' => if d =? 45 then (true, l') else if d =? 43 then (false, l') else (false, l)
  | [] => (false, [])
  end.
Definition stoi {St} (l : list Z) : M St Z :=
  let '(neg, l) := strip_sign (skip_spaces l) in
  match l with
  | d :: _ =>
      if (48 <=? d) && (d <=? 57) then
        let n := if neg then - digits l 0 else digits l 0 in
        if (- 2147483648 <=? n) && (n <=? 2147483647) then ret n else throw StdOutOfRange
      else throw InvalidArgument
  | [] => throw InvalidArgument
  end.

(** [stream >> n] of an [int]: like [stoi], but no digits store 0 and a value
    out of range the nearest limit. *)
Definition extract_int (l : list Z) : Z :=
  let '(neg, l) := strip_sign (skip_spaces l) in
  let n := if neg then - digits l 0 else digits l 0 in
  Z.max (- 2147483648) (Z.min 2147483647 n).

Example extract_int_reading : extract_int (bytes_of_string "  -23625
") = -23625.
Proof. reflexivity. Qed.

Lemma stoi_pure {S} l (s : S) :
  (exists n, stoi l s = Ret n s) \/ stoi l s = Throw InvalidArgument s \/
  stoi l s = Throw StdOutOfRange s.
Proof.
  unfold stoi. destruct (strip_sign _) as [neg [|d l']]; [by right; left|].
  destruct (_ && _); [|by right; left]. destruct (_ && _); [left; by eexists|by right; right].
Qed.

(** The value does not depend on the state. *)
Lemma stoi_any {S T} l n (s s' : S) (t : T) : stoi l s = Ret n s' -> stoi l t = Ret n t.
Proof.
  unfold stoi. destruct (strip_sign _) as [neg [|d l']]; [done|].
  destruct (_ && _); [|done]. generalize (if neg then - digits (d :: l') 0 else digits (d :: l') 0).
  intros m. destruct (_ && _); [|done]. by intros [= -> _].
Qed.

(** [std::to_string] of a [double]: [%f], six decimals, the exact value
    rounded half to even. *)
Definition div_half_even (n d : Z) : Z :=
  let q := n / d in
  let r := n mod d in
  if 2 * r <? d then q else if d <? 2 * r then q + 1 else if Z.even q then q else q + 1.

Definition pad6 (s : string) : string :=
  (String.concat "" (replicate (6 - String.length s) "0"%string) ++ s)%string.

Definition to_string_double (x : double) : string :=
  let fixed (s : bool) (millionths : Z) : string :=
    ((if s then "-" else "") ++ pretty (millionths / 1000000) ++ "."
       ++ pad6 (pretty (millionths mod 1000000)))%string in
  match x with
  | S754_nan => "nan"
  | S754_infinity s => if s then "-inf" else "inf"
  | S754_zero s => fixed s 0
  | S754_finite s m e =>
      fixed s (if 0 <=? e then Z.pos m * 2 ^ e * 1000000
               else div_half_even (Z.pos m * 1000000) (2 ^ (- e)))
  end.

Example to_string_double_third :
  to_string_double (ddiv (dofZ (-10)) (dofZ 3)) = "-3.333333"%string.
Proof. vm_compute. reflexivity. Qed.
