(* ===== verification/IpmbFrame.v ===== *)
(** * IPMB frames

    The wire format of the IPMB bridge: [ipmbdefines.hpp] (frame layout),
    [ipmbbridged.hpp] (constants, setters, getters), [ipmbutils.cpp]
    (checksums) and the two message classes of [ipmbbridged.cpp] with their
    serialisers [ipmbToi2cConstruct] and parsers [i2cToIpmbConstruct].

    A driver buffer is the length byte of [IPMB_PKT] followed by the frame;
    [hdr] below is the [IPMB_HEADER] pointer, the list of the bytes from the
    connection header on. *)
From Stdlib Require Import ZArith Lia.
From stdpp Require Import base list.
From S2P Require Import Prelude.
Local Open Scope Z_scope.

(** ** Constants of ipmbbridged.hpp *)
Definition ipmbMaxDataSize : Z := 256.
Definition ipmbConnectionHeaderLength : Z := 3.
Definition ipmbResponseDataHeaderLength : Z := 4.
Definition ipmbRequestDataHeaderLength : Z := 3.
Definition ipmbPktLenSize : Z := 1.
Definition ipmbChecksumSize : Z := 1.
Definition ipmbChecksum2StartOffset : Z := 3.
Definition ipmbMinFrameLength : Z := 7.
Definition ipmbMaxFrameLength : Z :=
  ipmbPktLenSize + ipmbConnectionHeaderLength + ipmbResponseDataHeaderLength +
  ipmbChecksumSize + ipmbMaxDataSize.
Definition ipmbNetFnResponseMask : Z := 1.
Definition ipmbLunMask : Z := 3.
Definition ipmbRsLun : Z := 0.

(** ** Setters and getters *)
Definition ipmbNetFnLunSet (netFn lun : Z) : Z :=
  u8 (Z.lor (Z.shiftl netFn 2) (Z.land lun ipmbLunMask)).
Definition ipmbSeqLunSet (seq lun : Z) : Z :=
  u8 (Z.lor (Z.shiftl seq 2) (Z.land lun ipmbLunMask)).
Definition ipmbAddressTo7BitSet (address : Z) : Z := Z.shiftr address 1.
Definition ipmbRespNetFn (netFn : Z) : Z := u8 (Z.lor netFn 1).
Definition ipmbReqNetFnFromRespNetFn (reqNetFn : Z) : Z :=
  u8 (Z.land reqNetFn (Z.lnot ipmbNetFnResponseMask)).
Definition ipmbNetFnGet (netFnLun : Z) : Z := Z.shiftr netFnLun 2.
Definition ipmbLunFromNetFnLunGet (netFnLun : Z) : Z := Z.land netFnLun ipmbLunMask.
Definition ipmbSeqGet (seqNumLun : Z) : Z := Z.shiftr seqNumLun 2.
Definition ipmbLunFromSeqLunGet (seqNumLun : Z) : Z := Z.land seqNumLun ipmbLunMask.

(** ** Checksums (ipmbutils.cpp) *)

(** The loop shared by validation and computation: [length] bytes from
    [data] on, accumulated in a [uint8_t]. *)
Fixpoint checksum_loop {S} (data : list Z) (length : nat) (checksum : Z)
    {struct length} : M S Z :=
  match length with
  | O => ret checksum
  | Datatypes.S n =>
      match data with
      | [] => undef OutOfBounds
      | b :: data' => checksum_loop data' n (u8 (checksum + b))
      end
  end.

Definition ipmbChecksumValidate {S} (data : list Z) (length : Z) : M S bool :=
  let! checksum := checksum_loop data (Z.to_nat length) 0 in
  ret (checksum =? 0).

Definition ipmbChecksumCompute {S} (data : list Z) (length : Z) : M S Z :=
  let! checksum := checksum_loop data (Z.to_nat length) 0 in
  ret (u8 (Z.lnot checksum + 1)).

Definition ipmbConnectionHeaderChecksumValidate {S} (hdr : list Z) : M S bool :=
  ipmbChecksumValidate hdr ipmbConnectionHeaderLength.

Definition ipmbDataChecksumValidate {S} (hdr : list Z) (length : Z) : M S bool :=
  ipmbChecksumValidate (drop (Z.to_nat ipmbConnectionHeaderLength) hdr)
    (u8 (length - ipmbConnectionHeaderLength)).

(** [length] is a [uint8_t]: the caller's frame length is truncated. *)
Definition isFrameValid {S} (hdr : list Z) (length : Z) : M S bool :=
  let length := u8 length in
  let! frameValid := ipmbConnectionHeaderChecksumValidate hdr in
  if frameValid then ipmbDataChecksumValidate hdr length else ret false.

(** [ipmbIsResponse]: the low bit of the network function. *)
Definition ipmbIsResponse {S} (hdr : list Z) : M S bool :=
  let! b := idx hdr 1 in
  ret (Z.land (ipmbNetFnGet b) ipmbNetFnResponseMask =? 1).

(** ** Messages *)
Inductive ipmbRequestState := invalid | valid | matched.

Record IpmbResponse := {
  p_address : Z; p_netFn : Z; p_rqLun : Z; p_rsSA : Z; p_seq : Z;
  p_rsLun : Z; p_cmd : Z; p_completionCode : Z; p_data : list Z }.

Record IpmbRequest := {
  q_address : Z; q_netFn : Z; q_rsLun : Z; q_rqSA : Z; q_seq : Z;
  q_rqLun : Z; q_cmd : Z; q_data : list Z;
  q_state : ipmbRequestState; q_matchedResponse : option IpmbResponse }.

(** The eight-argument constructor. *)
Definition mkIpmbRequest (address netFn rsLun rqSA seq rqLun cmd : Z)
    (inputData : list Z) : IpmbRequest :=
  {| q_address := address; q_netFn := netFn; q_rsLun := rsLun; q_rqSA := rqSA;
     q_seq := seq; q_rqLun := rqLun; q_cmd := cmd; q_data := inputData;
     q_state := invalid; q_matchedResponse := None |}.

Definition mkIpmbResponse (address netFn rqLun rsSA seq rsLun cmd cc : Z)
    (inputData : list Z) : IpmbResponse :=
  {| p_address := address; p_netFn := netFn; p_rqLun := rqLun; p_rsSA := rsSA;
     p_seq := seq; p_rsLun := rsLun; p_cmd := cmd; p_completionCode := cc;
     p_data := inputData |}.

(** ** Parsing: [i2cToIpmbConstruct]

    [bufferLength] is a [size_t], so the data length wraps modulo 2^64.  The
    parsers run on default-constructed objects whose [address] stays
    indeterminate; nothing reads it back, and the model stores 0. *)
Definition request_i2cToIpmbConstruct {S} (hdr : list Z) (bufferLength : Z)
  : M S IpmbRequest :=
  let! netFnLun := idx hdr 1 in
  let! rqSA := idx hdr 3 in
  let! seqLun := idx hdr 4 in
  let! cmd := idx hdr 5 in
  let dataLength := u64 (bufferLength -
    (ipmbConnectionHeaderLength + ipmbRequestDataHeaderLength + ipmbChecksumSize)) in
  let! data := (if 0 <? dataLength then read_range hdr 6 dataLength else ret []) in
  ret (mkIpmbRequest 0 (ipmbNetFnGet netFnLun) (ipmbLunFromNetFnLunGet netFnLun)
         rqSA (ipmbSeqGet seqLun) (ipmbLunFromSeqLunGet seqLun) cmd data).

Definition response_i2cToIpmbConstruct {S} (hdr : list Z) (bufferLength : Z)
  : M S IpmbResponse :=
  let! netFnLun := idx hdr 1 in
  let! rsSA := idx hdr 3 in
  let! seqLun := idx hdr 4 in
  let! cmd := idx hdr 5 in
  let! cc := idx hdr 6 in
  let dataLength := u64 (bufferLength -
    (ipmbConnectionHeaderLength + ipmbResponseDataHeaderLength + ipmbChecksumSize)) in
  let! data := (if 0 <? dataLength then read_range hdr 7 dataLength else ret []) in
  ret (mkIpmbResponse 0 (ipmbNetFnGet netFnLun) (ipmbLunFromNetFnLunGet netFnLun)
         rsSA (ipmbSeqGet seqLun) (ipmbLunFromSeqLunGet seqLun) cmd cc data).

(** ** Serialising: [ipmbToi2cConstruct]

    The length argument of [ipmbChecksumCompute] is a [uint8_t]: the number
    of body bytes is truncated modulo 256 at the call. *)
Definition frame_build {S} (address netFnLun : Z) (body : list Z)
    (bufferLength headerLength dataSize : Z) : M S (list Z) :=
  let! checksum1 := ipmbChecksumCompute [address; netFnLun]
    (u8 (ipmbConnectionHeaderLength - ipmbChecksumSize)) in
  let! checksum2 := ipmbChecksumCompute (body ++ [0]) (u8 (headerLength + dataSize)) in
  ret (u8 (bufferLength - 1) :: address :: netFnLun :: checksum1 :: body ++ [checksum2]).

(** [None]: the serialiser returns -1 and leaves the buffer empty. *)
Definition request_ipmbToi2cConstruct {S} (q : IpmbRequest) : M S (option (list Z)) :=
  let size := Z.of_nat (length (q_data q)) in
  let bufferLength := 1 + size + ipmbRequestDataHeaderLength +
    ipmbConnectionHeaderLength + ipmbChecksumSize in
  if ipmbMaxFrameLength <? bufferLength then ret None
  else
    let! frame := frame_build (q_address q) (ipmbNetFnLunSet (q_netFn q) (q_rsLun q))
      (q_rqSA q :: ipmbSeqLunSet (q_seq q) (q_rqLun q) :: q_cmd q :: q_data q)
      bufferLength ipmbRequestDataHeaderLength size in
    ret (Some frame).

(** [None]: the serialiser returns [nullptr]. *)
Definition response_ipmbToi2cConstruct {S} (p : IpmbResponse) : M S (option (list Z)) :=
  let size := Z.of_nat (length (p_data p)) in
  let bufferLength := 1 + size + ipmbResponseDataHeaderLength +
    ipmbConnectionHeaderLength + ipmbChecksumSize in
  if ipmbMaxFrameLength <? bufferLength then ret None
  else
    let! frame := frame_build (p_address p) (ipmbNetFnLunSet (p_netFn p) (p_rqLun p))
      (p_rsSA p :: ipmbSeqLunSet (p_seq p) (p_rsLun p) :: p_cmd p ::
         p_completionCode p :: p_data p)
      bufferLength ipmbResponseDataHeaderLength size in
    ret (Some frame).

(** ** The receive buffer of [processI2cEvent]

    [std::array<uint8_t, ipmbMaxFrameLength> buffer{}] is zeroed and [read]
    copies the driver's frame to its front; [ipmbFrame] points past the
    length byte. *)
Definition rx_header (frame : list Z) : list Z :=
  drop 1 (frame ++ replicate (Z.to_nat ipmbMaxFrameLength - length frame) 0).

(** ** Checksum lemmas *)
Lemma checksum_loop_sum {S} data n c (s : S) :
  (n <= length data)%nat ->
  checksum_loop data n (u8 c) s = Ret (u8 (c + sum (take n data))) s.
Proof.
  revert data c. induction n as [|n IH]; intros data c Hn; simpl.
  - rewrite Z.add_0_r. reflexivity.
  - destruct data as [|b data]; simpl in Hn; [lia|].
    rewrite u8_add_l, IH by lia. simpl. do 2 f_equal. lia.
Qed.

Lemma checksum_loop_short {S} data n c (s : S) :
  (length data < n)%nat -> checksum_loop data n c s = Undef OutOfBounds.
Proof.
  revert data c. induction n as [|n IH]; intros data c Hn; [lia|].
  destruct data as [|b data]; simpl in *; [reflexivity|]. apply IH. lia.
Qed.

Lemma ipmbChecksumCompute_sum {S} data n (s : S) :
  0 <= n <= Z.of_nat (length data) ->
  ipmbChecksumCompute data n s = Ret (u8 (- sum (take (Z.to_nat n) data))) s.
Proof.
  intros Hn. unfold ipmbChecksumCompute, bind.
  rewrite (checksum_loop_sum data _ 0) by lia. unfold ret. f_equal.
  unfold u8, Z.lnot. rewrite Z.add_0_l. set (x := sum _).
  replace (Z.pred (- (x mod 256)) + 1) with (- (x mod 256)) by lia.
  rewrite <- (Z.mod_add (- (x mod 256)) (- (x / 256)) 256) by lia.
  f_equal. pose proof (Z.div_mod x 256). lia.
Qed.

Lemma ipmbChecksumValidate_sum {S} data n (s : S) :
  0 <= n <= Z.of_nat (length data) ->
  ipmbChecksumValidate data n s = Ret (u8 (sum (take (Z.to_nat n) data)) =? 0) s.
Proof.
  intros Hn. unfold ipmbChecksumValidate, bind.
  rewrite (checksum_loop_sum data _ 0) by lia. reflexivity.
Qed.

(** The validator's verdict: both sums vanish modulo 256. *)
Definition sums_vanish (hdr : list Z) (n : Z) : bool :=
  (u8 (sum (take 3 hdr)) =? 0) &&
  (u8 (sum (take (Z.to_nat (u8 (n - 3))) (drop 3 hdr))) =? 0).

Lemma isFrameValid_sums {S} hdr n (s : S) :
  3 <= n <= Z.of_nat (length hdr) ->
  isFrameValid hdr n s = Ret (sums_vanish hdr n) s.
Proof.
  intros Hn. unfold isFrameValid, ipmbConnectionHeaderChecksumValidate,
    ipmbDataChecksumValidate, ipmbConnectionHeaderLength, bind, sums_vanish.
  rewrite ipmbChecksumValidate_sum by lia. change (Z.to_nat 3) with 3%nat.
  destruct (_ =? 0); [|reflexivity].
  replace (u8 (u8 n - 3)) with (u8 (n - 3)) by (symmetry; apply u8_add_l).
  rewrite ipmbChecksumValidate_sum; [reflexivity|].
  rewrite length_drop. unfold u8. split; [apply Z.mod_pos_bound; lia|].
  pose proof (Z.mod_le (n - 3) 256). lia.
Qed.

Lemma u8_sum_neg x : u8 (x + u8 (- x)) = 0.
Proof. rewrite u8_add_r. replace (x + - x) with 0 by lia. reflexivity. Qed.

(** What the serialisers put in a frame, for bodies short enough that the
    second checksum covers all of them ([n] is the truncated count). *)
Lemma frame_build_eq {S} address netFnLun body bufferLength headerLength dataSize (s : S) :
  let n := u8 (headerLength + dataSize) in
  n <= Z.of_nat (length body) ->
  frame_build address netFnLun body bufferLength headerLength dataSize s =
  Ret (u8 (bufferLength - 1) :: address :: netFnLun :: u8 (- (address + netFnLun)) ::
       body ++ [u8 (- sum (take (Z.to_nat n) body))]) s.
Proof.
  intros n Hn. unfold frame_build, bind.
  rewrite ipmbChecksumCompute_sum by (split; vm_compute; discriminate).
  assert (0 <= n < 256) by apply u8_is_byte.
  rewrite ipmbChecksumCompute_sum by (rewrite length_app; fold n; lia).
  unfold ret. fold n. rewrite take_app_le by lia.
  change (Z.to_nat (u8 (ipmbConnectionHeaderLength - ipmbChecksumSize))) with 2%nat.
  simpl. rewrite Z.add_0_r. reflexivity.
Qed.

(** ** The receive buffer *)
Lemma rx_header_cons len fr :
  rx_header (len :: fr) =
  fr ++ replicate (Z.to_nat ipmbMaxFrameLength - Datatypes.S (length fr)) 0.
Proof. reflexivity. Qed.

(** A header checksum and a body checksum make a frame the validator accepts,
    as long as the truncated counts agree with the true ones (or the
    validator's count wraps to zero). *)
Lemma built_frame_valid address netFnLun body pad n :
  n = Z.of_nat (length body) -> n <= 255 ->
  sums_vanish (address :: netFnLun :: u8 (- (address + netFnLun)) ::
       (body ++ [u8 (- sum body)]) ++ pad) (n + 4) = true.
Proof.
  intros En Hn. unfold sums_vanish. apply andb_true_iff. split; apply Z.eqb_eq.
  - cbn [take firstn sum]. rewrite Z.add_0_r, Z.add_assoc. apply u8_sum_neg.
  - cbn [drop skipn]. replace (n + 4 - 3) with (n + 1) by lia.
    destruct (decide (n = 255)) as [E|Hne]; [rewrite E; reflexivity|].
    rewrite (u8_small (n + 1)) by (unfold is_byte; lia).
    replace (Z.to_nat (n + 1)) with (length (body ++ [u8 (- sum body)]))
      by (rewrite length_app; simpl; lia).
    rewrite drop_0, take_app_length, sum_app. cbn [sum]. rewrite Z.add_0_r.
    apply u8_sum_neg.
Qed.

(** ** Fields *)
Lemma netFnLun_fields netFn lun :
  0 <= netFn < 64 -> 0 <= lun < 4 ->
  ipmbNetFnLunSet netFn lun = netFn * 4 + lun /\
  ipmbNetFnGet (ipmbNetFnLunSet netFn lun) = netFn /\
  ipmbLunFromNetFnLunGet (ipmbNetFnLunSet netFn lun) = lun.
Proof.
  intros Hn Hl. unfold ipmbNetFnGet, ipmbLunFromNetFnLunGet, ipmbNetFnLunSet, ipmbLunMask.
  rewrite !land_3, (lor_shiftl_add _ _ 2) by (byte_solve). byte_solve.
Qed.

Lemma seqLun_fields seq lun :
  0 <= seq < 64 -> 0 <= lun < 4 ->
  ipmbSeqGet (ipmbSeqLunSet seq lun) = seq /\
  ipmbLunFromSeqLunGet (ipmbSeqLunSet seq lun) = lun.
Proof. apply netFnLun_fields. Qed.

Definition wf_request (q : IpmbRequest) : Prop :=
  is_byte (q_address q) /\ 0 <= q_netFn q < 64 /\ 0 <= q_rsLun q < 4 /\
  is_byte (q_rqSA q) /\ 0 <= q_seq q < 64 /\ 0 <= q_rqLun q < 4 /\
  is_byte (q_cmd q) /\ bytes (q_data q).

Definition wf_response (p : IpmbResponse) : Prop :=
  is_byte (p_address p) /\ 0 <= p_netFn p < 64 /\ 0 <= p_rqLun p < 4 /\
  is_byte (p_rsSA p) /\ 0 <= p_seq p < 64 /\ 0 <= p_rsLun p < 4 /\
  is_byte (p_cmd p) /\ is_byte (p_completionCode p) /\ bytes (p_data p).

(** What a parser of the other end recovers: everything but the address,
    which the connection header names and the parsers do not read, and the
    sender's own bookkeeping. *)
Definition received (q : IpmbRequest) : IpmbRequest :=
  mkIpmbRequest 0 (q_netFn q) (q_rsLun q) (q_rqSA q) (q_seq q) (q_rqLun q)
    (q_cmd q) (q_data q).
Definition received_response (p : IpmbResponse) : IpmbResponse :=
  mkIpmbResponse 0 (p_netFn p) (p_rqLun p) (p_rsSA p) (p_seq p) (p_rsLun p)
    (p_cmd p) (p_completionCode p) (p_data p).

(** The frame a message with a short body becomes. *)
Definition wire (address netFnLun : Z) (body : list Z) : list Z :=
  address :: netFnLun :: u8 (- (address + netFnLun)) :: (body ++ [u8 (- sum body)]).

Lemma frame_build_short {S} address netFnLun body bufferLength headerLength dataSize (s : S) :
  headerLength + dataSize = Z.of_nat (length body) -> Z.of_nat (length body) <= 255 ->
  bufferLength = Z.of_nat (length body) + 5 ->
  frame_build address netFnLun body bufferLength headerLength dataSize s =
  Ret (u8 (bufferLength - 1) :: wire address netFnLun body) s.
Proof.
  intros E Hl Eb.
  assert (u8 (headerLength + dataSize) = Z.of_nat (length body)) as En
    by (rewrite E; apply u8_small; unfold is_byte; lia).
  rewrite frame_build_eq; rewrite En; [|lia]. unfold wire. rewrite Nat2Z.id, firstn_all. reflexivity.
Qed.

Lemma wire_valid {S} len address netFnLun body r (s : S) :
  Z.of_nat (length body) <= 255 -> r = Z.of_nat (length body) + 4 ->
  isFrameValid (rx_header (len :: wire address netFnLun body)) r s = Ret true s.
Proof.
  intros Hl ->. rewrite rx_header_cons. unfold wire.
  rewrite isFrameValid_sums.
  - rewrite <- !app_comm_cons, built_frame_valid by (reflexivity || lia). reflexivity.
  - rewrite !length_app. simpl. rewrite length_app. simpl. lia.
Qed.

(** Reading a run of bytes back out of the padded buffer. *)
Lemma read_range_slice {S} (l1 l2 l3 : list Z) off n (s : S) :
  off = Z.of_nat (length l1) -> n = Z.of_nat (length l2) ->
  read_range (l1 ++ l2 ++ l3) off n s = Ret l2 s.
Proof.
  intros -> ->. unfold read_range. rewrite !length_app.
  replace (_ <=? _) with true by (symmetry; apply Z.leb_le; lia).
  rewrite !Nat2Z.id, drop_app_length, take_app_length. reflexivity.
Qed.

Lemma read_data {S} (hd data rest : list Z) off d (s : S) :
  off = Z.of_nat (length hd) -> d = Z.of_nat (length data) ->
  (if 0 <? d then read_range (hd ++ data ++ rest) off d else ret []) s = Ret data s.
Proof.
  intros -> ->. destruct data as [|b data]; [reflexivity|].
  replace (0 <? _) with true by (symmetry; apply Z.ltb_lt; simpl; lia).
  apply read_range_slice; reflexivity.
Qed.

Lemma request_frame {S} (q : IpmbRequest) (s : S) :
  Z.of_nat (length (q_data q)) <= 252 ->
  request_ipmbToi2cConstruct q s =
  Ret (Some (u8 (Z.of_nat (length (q_data q)) + 7) ::
    wire (q_address q) (ipmbNetFnLunSet (q_netFn q) (q_rsLun q))
      (q_rqSA q :: ipmbSeqLunSet (q_seq q) (q_rqLun q) :: q_cmd q :: q_data q))) s.
Proof.
  intros Hl. unfold request_ipmbToi2cConstruct. set (n := Z.of_nat _) in *.
  change ipmbMaxFrameLength with 265. change ipmbRequestDataHeaderLength with 3.
  change ipmbConnectionHeaderLength with 3. change ipmbChecksumSize with 1.
  replace (265 <? _) with false by (symmetry; apply Z.ltb_ge; lia).
  unfold bind. rewrite frame_build_short by (simpl length; lia).
  unfold ret. do 4 f_equal. lia.
Qed.

Lemma response_frame {S} (p : IpmbResponse) (s : S) :
  Z.of_nat (length (p_data p)) <= 251 ->
  response_ipmbToi2cConstruct p s =
  Ret (Some (u8 (Z.of_nat (length (p_data p)) + 8) ::
    wire (p_address p) (ipmbNetFnLunSet (p_netFn p) (p_rqLun p))
      (p_rsSA p :: ipmbSeqLunSet (p_seq p) (p_rsLun p) :: p_cmd p ::
         p_completionCode p :: p_data p))) s.
Proof.
  intros Hl. unfold response_ipmbToi2cConstruct. set (n := Z.of_nat _) in *.
  change ipmbMaxFrameLength with 265. change ipmbResponseDataHeaderLength with 4.
  change ipmbConnectionHeaderLength with 3. change ipmbChecksumSize with 1.
  replace (265 <? _) with false by (symmetry; apply Z.ltb_ge; lia).
  unfold bind. rewrite frame_build_short by (simpl length; lia).
  unfold ret. do 4 f_equal. lia.
Qed.

(** The six bytes in front of the data, in a receive buffer. *)
Lemma request_parse {S} a nl ck rqSA sl cmd data rest r (s : S) :
  u64 (r - 7) = Z.of_nat (length data) ->
  request_i2cToIpmbConstruct (a :: nl :: ck :: rqSA :: sl :: cmd :: data ++ rest) r s =
  Ret (mkIpmbRequest 0 (ipmbNetFnGet nl) (ipmbLunFromNetFnLunGet nl) rqSA
         (ipmbSeqGet sl) (ipmbLunFromSeqLunGet sl) cmd data) s.
Proof.
  intros E. unfold request_i2cToIpmbConstruct, bind.
  change (ipmbConnectionHeaderLength + _ + _) with 7. cbv zeta. rewrite E.
  repeat (erewrite idx_Ret by reflexivity; cbv beta iota).
  pose proof (read_data [a; nl; ck; rqSA; sl; cmd] data rest 6 _ s eq_refl eq_refl) as R.
  cbn [app] in R. rewrite R. reflexivity.
Qed.

Lemma response_parse {S} a nl ck rsSA sl cmd cc data rest r (s : S) :
  u64 (r - 8) = Z.of_nat (length data) ->
  response_i2cToIpmbConstruct (a :: nl :: ck :: rsSA :: sl :: cmd :: cc :: data ++ rest) r s =
  Ret (mkIpmbResponse 0 (ipmbNetFnGet nl) (ipmbLunFromNetFnLunGet nl) rsSA
         (ipmbSeqGet sl) (ipmbLunFromSeqLunGet sl) cmd cc data) s.
Proof.
  intros E. unfold response_i2cToIpmbConstruct, bind.
  change (ipmbConnectionHeaderLength + _ + _) with 8. cbv zeta. rewrite E.
  repeat (erewrite idx_Ret by reflexivity; cbv beta iota).
  pose proof (read_data [a; nl; ck; rsSA; sl; cmd; cc] data rest 7 _ s eq_refl eq_refl) as R.
  cbn [app] in R. rewrite R. reflexivity.
Qed.

Lemma isResponse_netFn {S} a nl rest (s : S) netFn lun :
  0 <= netFn < 64 -> 0 <= lun < 4 -> nl = ipmbNetFnLunSet netFn lun ->
  ipmbIsResponse (a :: nl :: rest) s = Ret (netFn mod 2 =? 1) s.
Proof.
  intros Hn Hl ->. unfold ipmbIsResponse, bind. erewrite idx_Ret by reflexivity. unfold ret.
  destruct (netFnLun_fields netFn lun Hn Hl) as (_ & -> & _).
  unfold ipmbNetFnResponseMask. rewrite land_1. reflexivity.
Qed.

(** C6. Request round trip.  For a well-formed request of at most 252 data
    bytes the serialiser succeeds; the buffer starts with its own length and
    fits the driver; a bridge that reads it accepts both checksums,
    classifies it by the low bit of its network function, and parses every
    field and the data back unchanged. *)
Theorem request_roundtrip {S} (q : IpmbRequest) (s : S) :
  wf_request q -> Z.of_nat (length (q_data q)) <= 252 ->
  exists frame,
    request_ipmbToi2cConstruct q s = Ret (Some frame) s /\
    Z.of_nat (length frame) = Z.of_nat (length (q_data q)) + 8 /\
    head frame = Some (u8 (Z.of_nat (length frame) - 1)) /\
    let hdr := rx_header frame in
    let r := Z.of_nat (length frame) - 1 in
    isFrameValid hdr r s = Ret true s /\
    ipmbIsResponse hdr s = Ret (q_netFn q mod 2 =? 1) s /\
    request_i2cToIpmbConstruct hdr r s = Ret (received q) s.
Proof.
  intros (_ & Hnf & Hrl & _ & Hsq & Hql & _) Hl.
  eexists. split; [apply request_frame; lia|].
  set (nl := ipmbNetFnLunSet _ _). set (sl := ipmbSeqLunSet _ _).
  assert (forall x, Z.of_nat (length (x :: wire (q_address q) nl
    (q_rqSA q :: sl :: q_cmd q :: q_data q))) = Z.of_nat (length (q_data q)) + 8) as Hlen
    by (intros; unfold wire; simpl; rewrite length_app; simpl; lia).
  rewrite Hlen. repeat split.
  - simpl. do 2 f_equal. lia.
  - apply wire_valid; simpl length; lia.
  - rewrite rx_header_cons. unfold wire. rewrite <- !app_comm_cons.
    apply (isResponse_netFn _ _ _ _ (q_netFn q) (q_rsLun q)); done || reflexivity.
  - rewrite rx_header_cons. unfold wire. rewrite <- !app_comm_cons, <- app_assoc.
    rewrite request_parse by (unfold u64; rewrite Z.mod_small; lia).
    unfold received, nl, sl.
    destruct (netFnLun_fields (q_netFn q) (q_rsLun q)) as (_ & -> & ->); try done.
    destruct (seqLun_fields (q_seq q) (q_rqLun q)) as (-> & ->); done.
Qed.

Lemma request_roundtrip_witness :
  exists frame, request_ipmbToi2cConstruct
    (mkIpmbRequest 130 10 0 32 5 0 34 [1; 2; 255]) tt = Ret (Some frame) tt /\
    isFrameValid (rx_header frame) (Z.of_nat (length frame) - 1) tt = Ret true tt.
Proof.
  destruct (request_roundtrip (mkIpmbRequest 130 10 0 32 5 0 34 [1; 2; 255]) tt)
    as (f & E & _ & _ & H & _).
  - unfold wf_request, is_byte; simpl. repeat split; try lia.
    repeat constructor; unfold is_byte; lia.
  - simpl. lia.
  - exists f. split; assumption.
Defined.

Lemma response_roundtrip_lemma {S} (p : IpmbResponse) (s : S) :
  wf_response p -> Z.of_nat (length (p_data p)) <= 251 ->
  exists frame,
    response_ipmbToi2cConstruct p s = Ret (Some frame) s /\
    Z.of_nat (length frame) = Z.of_nat (length (p_data p)) + 9 /\
    head frame = Some (u8 (Z.of_nat (length frame) - 1)) /\
    let hdr := rx_header frame in
    let r := Z.of_nat (length frame) - 1 in
    isFrameValid hdr r s = Ret true s /\
    ipmbIsResponse hdr s = Ret (p_netFn p mod 2 =? 1) s /\
    response_i2cToIpmbConstruct hdr r s = Ret (received_response p) s.
Proof.
  intros (_ & Hnf & Hrl & _ & Hsq & Hql & _ & _) Hl.
  eexists. split; [apply response_frame; lia|].
  set (nl := ipmbNetFnLunSet _ _). set (sl := ipmbSeqLunSet _ _).
  assert (forall x, Z.of_nat (length (x :: wire (p_address p) nl
    (p_rsSA p :: sl :: p_cmd p :: p_completionCode p :: p_data p))) =
    Z.of_nat (length (p_data p)) + 9) as Hlen
    by (intros; unfold wire; simpl; rewrite length_app; simpl; lia).
  rewrite Hlen. repeat split.
  - simpl. do 2 f_equal. lia.
  - apply wire_valid; simpl length; lia.
  - rewrite rx_header_cons. unfold wire. rewrite <- !app_comm_cons.
    apply (isResponse_netFn _ _ _ _ (p_netFn p) (p_rqLun p)); done || reflexivity.
  - rewrite rx_header_cons. unfold wire. rewrite <- !app_comm_cons, <- app_assoc.
    rewrite response_parse by (unfold u64; rewrite Z.mod_small; lia).
    unfold received_response, nl, sl.
    destruct (netFnLun_fields (p_netFn p) (p_rqLun p)) as (_ & -> & ->); try done.
    destruct (seqLun_fields (p_seq p) (p_rsLun p)) as (-> & ->); done.
Qed.

(** Response round trip, completion code included: the same for
    responses of at most 251 data bytes. *)
Theorem response_roundtrip {S} (p : IpmbResponse) (s : S) :
  wf_response p -> Z.of_nat (length (p_data p)) <= 251 ->
  exists frame,
    response_ipmbToi2cConstruct p s = Ret (Some frame) s /\
    Z.of_nat (length frame) = Z.of_nat (length (p_data p)) + 9 /\
    head frame = Some (u8 (Z.of_nat (length frame) - 1)) /\
    let hdr := rx_header frame in
    let r := Z.of_nat (length frame) - 1 in
    isFrameValid hdr r s = Ret true s /\
    ipmbIsResponse hdr s = Ret (p_netFn p mod 2 =? 1) s /\
    response_i2cToIpmbConstruct hdr r s = Ret (received_response p) s.
Proof. apply response_roundtrip_lemma. Qed.

Lemma response_roundtrip_witness :
  exists frame, response_ipmbToi2cConstruct
    (mkIpmbResponse 32 11 0 130 5 0 34 0 [7; 8]) tt = Ret (Some frame) tt /\
    isFrameValid (rx_header frame) (Z.of_nat (length frame) - 1) tt = Ret true tt.
Proof.
  destruct (response_roundtrip (mkIpmbResponse 32 11 0 130 5 0 34 0 [7; 8]) tt)
    as (f & E & _ & _ & H & _).
  - unfold wf_response, is_byte; simpl. repeat split; try lia.
    repeat constructor; unfold is_byte; lia.
  - simpl. lia.
  - exists f. split; assumption.
Defined.

(** ** Error detection *)
Lemma sum_take_insert (l : list Z) i n b b' :
  l !! i = Some b ->
  sum (take n (<[i:=b']> l)) =
  sum (take n l) + (if decide (i < n)%nat then b' - b else 0).
Proof.
  revert i n. induction l as [|x l IH]; intros i n H; [discriminate|].
  destruct i as [|i], n as [|n]; simpl in *; try lia.
  - injection H as ->. lia.
  - rewrite (IH _ _ H).
    destruct (decide (i < n)%nat), (decide (Datatypes.S i < Datatypes.S n)%nat); lia.
Qed.

Lemma u8_differ x b b' :
  is_byte b -> is_byte b' -> b' <> b -> u8 x = 0 -> u8 (x + (b' - b)) <> 0.
Proof.
  unfold is_byte, u8. intros Hb Hb' Hne Hx. rewrite Z.add_mod, Hx by lia.
  rewrite Z.add_0_l, Z.mod_mod by lia. intros E.
  apply Z.mod_divide in E; [|lia]. destruct E as [k E]. nia.
Qed.

(** C14. In frames of 3 to 258 bytes the checksums detect every corruption of
    one byte: if such a frame passes the validator, the frame with any one
    byte of it changed to another value does not. (In a longer frame the
    second checksum covers a prefix of the frame only.) *)
Theorem corruption_detected {S} (hdr : list Z) n i b b' (s : S) :
  3 <= n <= 258 -> n <= Z.of_nat (length hdr) -> bytes hdr ->
  isFrameValid hdr n s = Ret true s ->
  Z.of_nat i < n -> hdr !! i = Some b -> is_byte b' -> b' <> b ->
  isFrameValid (<[i:=b']> hdr) n s = Ret false s.
Proof.
  intros Hn Hl Hb Hv Hi Hib Hb' Hne.
  assert (is_byte b) as Hbb by (eapply (Forall_lookup_1 _ _ _ _ Hb); eassumption).
  rewrite isFrameValid_sums in Hv |- * by (rewrite ?length_insert; lia).
  injection Hv as Hv. f_equal. unfold sums_vanish in Hv |- *.
  apply andb_true_iff in Hv as [H1 H2]. apply Z.eqb_eq in H1, H2.
  apply andb_false_iff. destruct (decide (i < 3)%nat) as [H3|H3].
  - left. apply Z.eqb_neq. rewrite (sum_take_insert _ _ _ _ _ Hib), decide_True by done.
    apply u8_differ; done.
  - right. apply Z.eqb_neq. rewrite (u8_small (n - 3)) in * by (unfold is_byte; lia).
    rewrite drop_insert_ge by lia.
    rewrite (sum_take_insert _ _ _ b) by (rewrite lookup_drop; rewrite <- Hib; f_equal; lia).
    rewrite decide_True by lia. apply u8_differ; done.
Qed.

Lemma corruption_detected_witness :
  isFrameValid (<[4%nat:=9]> [32; 28; 196; 130; 20; 1; 0; 105]) 8 tt = Ret false tt.
Proof.
  apply (corruption_detected _ 8 4 20 9 tt); try reflexivity; simpl; try lia.
  - repeat constructor; unfold is_byte; lia.
  - unfold is_byte. lia.
Defined.

Lemma long_wire_verdict {S} len address nl body ck2 r (s : S) :
  (256 <= length body <= 260)%nat -> r = Z.of_nat (length body) + 4 ->
  isFrameValid
    (rx_header (len :: address :: nl :: u8 (- (address + nl)) :: (body ++ [ck2]))) r s =
  Ret (u8 (sum (take (length body - 255) body)) =? 0) s.
Proof.
  intros Hl ->. rewrite rx_header_cons, isFrameValid_sums
    by (rewrite length_app; simpl; rewrite length_app; simpl; lia).
  f_equal. unfold sums_vanish. rewrite <- !app_comm_cons, <- app_assoc.
  cbn [take firstn drop skipn sum]. rewrite Z.add_0_r, Z.add_assoc, u8_sum_neg, drop_0.
  replace (Z.to_nat (u8 (Z.of_nat (length body) + 4 - 3))) with (length body - 255)%nat
    by (unfold u8; Z.to_euclidean_division_equations; lia).
  rewrite take_app_le by lia. reflexivity.
Qed.

(** Long requests.  From 253 data bytes on (the serialiser takes up to
    257) the byte counts given to the checksum functions wrap: the request is
    still sent, but the receiver's verdict depends only on the first few
    bytes of the body, [|data| - 252] of them, and not at all on the second
    checksum or on the rest of the data. *)
Theorem long_request_unprotected {S} (q : IpmbRequest) (s : S) :
  253 <= Z.of_nat (length (q_data q)) <= 257 ->
  let body := q_rqSA q :: ipmbSeqLunSet (q_seq q) (q_rqLun q) :: q_cmd q :: q_data q in
  exists frame,
    request_ipmbToi2cConstruct q s = Ret (Some frame) s /\
    Z.of_nat (length frame) = Z.of_nat (length (q_data q)) + 8 /\
    isFrameValid (rx_header frame) (Z.of_nat (length frame) - 1) s =
      Ret (u8 (sum (take (length (q_data q) - 252) body)) =? 0) s.
Proof.
  intros Hl body. unfold request_ipmbToi2cConstruct. set (n := Z.of_nat _) in *.
  change ipmbMaxFrameLength with 265. change ipmbRequestDataHeaderLength with 3.
  change ipmbConnectionHeaderLength with 3. change ipmbChecksumSize with 1.
  replace (265 <? _) with false by (symmetry; apply Z.ltb_ge; lia).
  assert (length body = length (q_data q) + 3)%nat as Hb by (unfold body; simpl; lia).
  unfold bind. rewrite frame_build_eq; fold body; clearbody body.
  - eexists. split; [reflexivity|]. split.
    + simpl. rewrite length_app, Hb. simpl. lia.
    + rewrite long_wire_verdict; [replace (length (q_data q) - 252)%nat with (length body - 255)%nat by lia; reflexivity|lia|].
      cbn [length]. rewrite length_app. simpl. lia.
  - rewrite Hb. unfold u8. Z.to_euclidean_division_equations. lia.
Qed.

Lemma long_request_unprotected_witness :
  exists frame, request_ipmbToi2cConstruct
      (mkIpmbRequest 130 10 0 32 5 0 34 (replicate 253 1)) tt = Ret (Some frame) tt /\
    isFrameValid (rx_header frame) (Z.of_nat (length frame) - 1) tt = Ret false tt.
Proof.
  destruct (long_request_unprotected
    (mkIpmbRequest 130 10 0 32 5 0 34 (replicate 253 1)) tt) as (f & E & _ & H).
  - vm_compute. split; discriminate.
  - exists f. split; [exact E|]. rewrite H. vm_compute. reflexivity.
Defined.

(** A response frame one byte short of a completion code: the data length
    wraps to [2^64 - 1] and the copy leaves the receive buffer. *)
Lemma short_response_overruns {S} hdr (s : S) :
  (7 <= length hdr <= 1000)%nat ->
  response_i2cToIpmbConstruct hdr 7 s = Undef OutOfBounds.
Proof.
  intros Hl. do 7 (destruct hdr as [|? hdr]; [simpl in Hl; lia|]).
  unfold response_i2cToIpmbConstruct, bind.
  repeat (erewrite idx_Ret by reflexivity; cbv beta iota).
  change (u64 _) with 18446744073709551615. cbv zeta. change (0 <? _) with true.
  cbv iota. unfold read_range.
  replace (_ <=? _) with false; [reflexivity|]. symmetry. apply Z.leb_gt. simpl in *. lia.
Qed.

(** ** Totality

    The serialisers never fault, the parsers only on the frame above; and
    they do not depend on the state they run in. *)
Definition request_frame_of (q : IpmbRequest) : option (list Z) :=
  match request_ipmbToi2cConstruct q tt with Ret o _ => o | _ => None end.
Definition response_frame_of (p : IpmbResponse) : option (list Z) :=
  match response_ipmbToi2cConstruct p tt with Ret o _ => o | _ => None end.

Lemma frame_build_total address netFnLun body bufferLength headerLength dataSize :
  headerLength + dataSize <= Z.of_nat (length body) -> 0 <= headerLength + dataSize ->
  exists f, forall S (s : S),
    frame_build address netFnLun body bufferLength headerLength dataSize s = Ret f s.
Proof.
  intros H H0. eexists. intros S s. apply frame_build_eq.
  unfold u8. pose proof (Z.mod_le (headerLength + dataSize) 256). lia.
Qed.

Lemma request_construct_eq {S} q (s : S) :
  request_ipmbToi2cConstruct q s = Ret (request_frame_of q) s.
Proof.
  unfold request_frame_of, request_ipmbToi2cConstruct. cbv zeta.
  destruct (ipmbMaxFrameLength <? _); [reflexivity|].
  unfold bind. match goal with |- context [frame_build ?a ?b ?c ?d ?e ?g] =>
    destruct (frame_build_total a b c d e g) as [f Hf] end.
  1, 2: change ipmbRequestDataHeaderLength with 3; simpl length; lia.
  rewrite !Hf. reflexivity.
Qed.

Lemma response_construct_eq {S} p (s : S) :
  response_ipmbToi2cConstruct p s = Ret (response_frame_of p) s.
Proof.
  unfold response_frame_of, response_ipmbToi2cConstruct. cbv zeta.
  destruct (ipmbMaxFrameLength <? _); [reflexivity|].
  unfold bind. match goal with |- context [frame_build ?a ?b ?c ?d ?e ?g] =>
    destruct (frame_build_total a b c d e g) as [f Hf] end.
  1, 2: change ipmbResponseDataHeaderLength with 4; simpl length; lia.
  rewrite !Hf. reflexivity.
Qed.

Lemma rx_header_length frame :
  (1 <= length frame <= 265)%nat -> length (rx_header frame) = 264%nat.
Proof.
  intros H. unfold rx_header. rewrite length_drop, length_app, length_replicate.
  change (Z.to_nat ipmbMaxFrameLength) with 265%nat. lia.
Qed.

Lemma rx_header_bytes frame : bytes frame -> bytes (rx_header frame).
Proof.
  intros H. apply Forall_drop, Forall_app. split; [done|]. apply Forall_replicate.
  unfold is_byte. lia.
Qed.

Lemma read_range_data {S} hdr off d (s : S) :
  off + d <= Z.of_nat (length hdr) ->
  (if 0 <? d then read_range hdr off d else ret []) s =
  Ret (if 0 <? d then take (Z.to_nat d) (drop (Z.to_nat off) hdr) else []) s.
Proof.
  intros H. destruct (0 <? d); [|reflexivity]. unfold read_range.
  replace (_ <=? _) with true by (symmetry; by apply Z.leb_le). reflexivity.
Qed.

Lemma idx_lt {S} hdr i (s : S) :
  (i < length hdr)%nat -> idx hdr i s = Ret (hdr !!! i) s.
Proof. intros H. apply idx_Ret, list_lookup_lookup_total_lt, H. Qed.

Lemma request_parse_total hdr r :
  7 <= r -> r <= Z.of_nat (length hdr) -> (8 <= length hdr <= 1000)%nat ->
  exists q, forall S (s : S), request_i2cToIpmbConstruct hdr r s = Ret q s.
Proof.
  intros Hr Hl Hh. eexists. intros S s. unfold request_i2cToIpmbConstruct, bind.
  rewrite !idx_lt by lia. cbv zeta. change (_ + _ + ipmbChecksumSize) with 7.
  replace (u64 (r - 7)) with (r - 7) by (unfold u64; rewrite Z.mod_small; lia).
  rewrite read_range_data by lia. reflexivity.
Qed.

Lemma response_parse_total hdr r :
  8 <= r -> r <= Z.of_nat (length hdr) -> (8 <= length hdr <= 1000)%nat -> bytes hdr ->
  exists p, (forall S (s : S), response_i2cToIpmbConstruct hdr r s = Ret p s) /\
    0 <= p_seq p < 64.
Proof.
  intros Hr Hl Hh Hb. eexists. split.
  - intros S s. unfold response_i2cToIpmbConstruct, bind.
    rewrite !idx_lt by lia. cbv zeta. change (_ + _ + ipmbChecksumSize) with 8.
    replace (u64 (r - 8)) with (r - 8) by (unfold u64; rewrite Z.mod_small; lia).
    rewrite read_range_data by lia. reflexivity.
  - simpl. unfold ipmbSeqGet. assert (is_byte (hdr !!! 4%nat)) as H.
    { eapply (Forall_lookup_1 _ _ 4); [exact Hb|]. apply list_lookup_lookup_total_lt. lia. }
    byte_solve.
Qed.

Lemma isResponse_total hdr :
  (2 <= length hdr)%nat -> exists b, forall S (s : S), ipmbIsResponse hdr s = Ret b s.
Proof.
  intros H. eexists. intros S s. unfold ipmbIsResponse, bind.
  rewrite idx_lt by lia. reflexivity.
Qed.

Lemma isFrameValid_total hdr n :
  3 <= n <= Z.of_nat (length hdr) ->
  exists b, forall S (s : S), isFrameValid hdr n s = Ret b s.
Proof. intros H. exists (sums_vanish hdr n). intros. by apply isFrameValid_sums. Qed.
