(* ===== verification/IpmbBridge.v ===== *)
(** * The IPMB bridge daemon

    [ipmbbridged.cpp]: channels, outstanding requests, the coroutine of
    [requestAdd], the I2C event handler and the D-Bus handlers.

    The daemon is one thread running a boost::asio loop: code runs without
    interruption from one suspension point to the next.  [step] takes one
    external event (a D-Bus call or signal, the completion of a write, of a
    timer or of a host call, a readable I2C device) and runs the code that
    event resumes; a history of the daemon is a list of events.  Objects
    behind a [shared_ptr<IpmbRequest>] live in [heap]; the slots of
    [outstandingRequests] and the suspended coroutines refer to them by
    identity, so that the match made by the event handler is the one the
    coroutine sees.  Effects on the outside are recorded in [out], newest
    first. *)
From Stdlib Require Import ZArith Lia String.
From stdpp Require Import base list gmap strings pretty.
From S2P Require Import Prelude CxxStd IpmbFrame.
Local Open Scope Z_scope.

Definition ipmbMaxOutstandingRequestsCount : Z := 64.
Definition ipmbNumberOfTries : nat := 6.
Definition ipmbI2cNumberOfRetries : nat := 2.
Definition broadcastAddress : Z := 0.
Definition ipmbIpmiInvalidCmd : Z := 0xC1.
Definition ipmbIpmiCmdRespNotProvided : Z := 0xCE.

Inductive ipmbResponseStatus := success | error | invalid_param | busy | timeout.
Definition status_int (s : ipmbResponseStatus) : Z :=
  match s with success => 0 | error => 1 | invalid_param => 2 | busy => 3 | timeout => 4 end.

(** The D-Bus reply of [sendRequest]: status, netFn, lun, cmd, cc, data. *)
Record Reply := { r_status : Z; r_netFn : Z; r_lun : Z; r_cmd : Z; r_cc : Z;
                  r_data : list Z }.

Definition returnStatus (status : ipmbResponseStatus) : Reply :=
  {| r_status := status_int status; r_netFn := 0; r_lun := 0; r_cmd := 0;
     r_cc := 0; r_data := [] |}.

Record IpmbChannel := {
  channelIdx : Z; ipmbBmcSlaveAddress : Z; ipmbRqSlaveAddress : Z;
  ipmbBusId : Z; ipmbi2cSlaveFd : Z; waiting : bool;
  outstandingRequests : list (option nat) }.

(** Where a suspended [requestAdd] stands: in the [k]-th write of try [i],
    or waiting for the timer of try [i]. *)
Inductive Suspension := InWrite (i k : nat) | InTimer (i : nat).
Record Coroutine := { co_chan : nat; co_buffer : list Z; co_at : Suspension }.
Record HostCall := { h_chan : nat; h_rqLun : Z; h_seq : Z; h_address : Z }.
Record Send := { s_chan : nat; s_buffer : list Z; s_retries : nat }.

Inductive Out :=
  | OWrite (chan : nat) (buffer : list Z)
  | OReply (call : nat) (r : Reply)
  | OBroadcast (netFn cmd : Z) (data : list Z)
  | OHost (call : nat) (netFn rsLun cmd : Z) (data : list Z) (rqSA hostId : Z)
  | OFile (path contents : string).

Record World := {
  seqNum : Z;                          (* static local of seqNumGet *)
  channels : list IpmbChannel;         (* ipmbChannels *)
  unhandledCommands : gset (Z * Z);    (* the shared IpmbCommandFilter *)
  heap : gmap nat IpmbRequest;
  coroutines : gmap nat Coroutine;
  hostcalls : gmap nat HostCall;
  sends : gmap nat Send;
  fresh : nat;
  out : list Out }.

Definition set_seqNum v (w : World) : World :=
  {| seqNum := v; channels := channels w; unhandledCommands := unhandledCommands w;
     heap := heap w; coroutines := coroutines w; hostcalls := hostcalls w;
     sends := sends w; fresh := fresh w; out := out w |}.
Definition set_channels v (w : World) : World :=
  {| seqNum := seqNum w; channels := v; unhandledCommands := unhandledCommands w;
     heap := heap w; coroutines := coroutines w; hostcalls := hostcalls w;
     sends := sends w; fresh := fresh w; out := out w |}.
Definition set_unhandled v (w : World) : World :=
  {| seqNum := seqNum w; channels := channels w; unhandledCommands := v;
     heap := heap w; coroutines := coroutines w; hostcalls := hostcalls w;
     sends := sends w; fresh := fresh w; out := out w |}.
Definition set_heap v (w : World) : World :=
  {| seqNum := seqNum w; channels := channels w; unhandledCommands := unhandledCommands w;
     heap := v; coroutines := coroutines w; hostcalls := hostcalls w;
     sends := sends w; fresh := fresh w; out := out w |}.
Definition set_coroutines v (w : World) : World :=
  {| seqNum := seqNum w; channels := channels w; unhandledCommands := unhandledCommands w;
     heap := heap w; coroutines := v; hostcalls := hostcalls w;
     sends := sends w; fresh := fresh w; out := out w |}.
Definition set_hostcalls v (w : World) : World :=
  {| seqNum := seqNum w; channels := channels w; unhandledCommands := unhandledCommands w;
     heap := heap w; coroutines := coroutines w; hostcalls := v;
     sends := sends w; fresh := fresh w; out := out w |}.
Definition set_sends v (w : World) : World :=
  {| seqNum := seqNum w; channels := channels w; unhandledCommands := unhandledCommands w;
     heap := heap w; coroutines := coroutines w; hostcalls := hostcalls w;
     sends := v; fresh := fresh w; out := out w |}.
Definition set_fresh v (w : World) : World :=
  {| seqNum := seqNum w; channels := channels w; unhandledCommands := unhandledCommands w;
     heap := heap w; coroutines := coroutines w; hostcalls := hostcalls w;
     sends := sends w; fresh := v; out := out w |}.
Definition set_out v (w : World) : World :=
  {| seqNum := seqNum w; channels := channels w; unhandledCommands := unhandledCommands w;
     heap := heap w; coroutines := coroutines w; hostcalls := hostcalls w;
     sends := sends w; fresh := fresh w; out := v |}.

Definition emit (o : Out) : M World unit := modify (fun w => set_out (o :: out w) w).
Definition new_id : M World nat := fun w => Ret (fresh w) (set_fresh (S (fresh w)) w).

(** ** Channels *)
Definition set_slots v (c : IpmbChannel) : IpmbChannel :=
  {| channelIdx := channelIdx c; ipmbBmcSlaveAddress := ipmbBmcSlaveAddress c;
     ipmbRqSlaveAddress := ipmbRqSlaveAddress c; ipmbBusId := ipmbBusId c;
     ipmbi2cSlaveFd := ipmbi2cSlaveFd c; waiting := waiting c; outstandingRequests := v |}.
Definition set_rqSlaveAddress v (c : IpmbChannel) : IpmbChannel :=
  {| channelIdx := channelIdx c; ipmbBmcSlaveAddress := ipmbBmcSlaveAddress c;
     ipmbRqSlaveAddress := v; ipmbBusId := ipmbBusId c;
     ipmbi2cSlaveFd := ipmbi2cSlaveFd c; waiting := waiting c;
     outstandingRequests := outstandingRequests c |}.
Definition set_bmcSlaveAddress v (c : IpmbChannel) : IpmbChannel :=
  {| channelIdx := channelIdx c; ipmbBmcSlaveAddress := v;
     ipmbRqSlaveAddress := ipmbRqSlaveAddress c; ipmbBusId := ipmbBusId c;
     ipmbi2cSlaveFd := ipmbi2cSlaveFd c; waiting := waiting c;
     outstandingRequests := outstandingRequests c |}.
Definition set_descriptor fd w (c : IpmbChannel) : IpmbChannel :=
  {| channelIdx := channelIdx c; ipmbBmcSlaveAddress := ipmbBmcSlaveAddress c;
     ipmbRqSlaveAddress := ipmbRqSlaveAddress c; ipmbBusId := ipmbBusId c;
     ipmbi2cSlaveFd := fd; waiting := w; outstandingRequests := outstandingRequests c |}.
Definition set_busId v (c : IpmbChannel) : IpmbChannel :=
  {| channelIdx := channelIdx c; ipmbBmcSlaveAddress := ipmbBmcSlaveAddress c;
     ipmbRqSlaveAddress := ipmbRqSlaveAddress c; ipmbBusId := v;
     ipmbi2cSlaveFd := ipmbi2cSlaveFd c; waiting := waiting c;
     outstandingRequests := outstandingRequests c |}.

(** [this]: the channel object a method runs on. *)
Definition this (c : nat) : M World IpmbChannel := fun w =>
  of_option NullDeref (channels w !! c) w.
Definition on_channel (c : nat) (f : IpmbChannel -> IpmbChannel) : M World unit :=
  modify (fun w => set_channels (alter f c (channels w)) w).

Definition getDevIndex (c : IpmbChannel) : Z := Z.shiftr (channelIdx c) 2.
(** [getChannelType() == ipmbChannelType::ipmb] *)
Definition is_ipmb (c : IpmbChannel) : bool := Z.land (channelIdx c) 3 =? 0.

Definition updateRqSlaveAddress (c : nat) (addr : Z) : M World unit :=
  on_channel c (set_rqSlaveAddress addr).

(** [nullptr] is [None]. *)
Definition getChannel (reqChannel : Z) : M World (option nat) := fun w =>
  Ret (fst <$> list_find (fun c => channelIdx c = reqChannel) (channels w)) w.

(** ** Command filter *)
Definition isBlocked (reqNetFn cmd : Z) : M World bool := fun w =>
  Ret (bool_decide ((reqNetFn, cmd) ∈ unhandledCommands w)) w.
Definition addFilter (reqNetFn cmd : Z) : M World unit :=
  modify (fun w => set_unhandled ({[(reqNetFn, cmd)]} ∪ unhandledCommands w) w).

(** ** The heap of requests *)
Definition request_at (id : nat) : M World IpmbRequest := fun w =>
  of_option NullDeref (heap w !! id) w.
Definition store_request (id : nat) (q : IpmbRequest) : M World unit :=
  modify (fun w => set_heap (<[id:=q]> (heap w)) w).
Definition with_state (st : ipmbRequestState) (q : IpmbRequest) : IpmbRequest :=
  {| q_address := q_address q; q_netFn := q_netFn q; q_rsLun := q_rsLun q;
     q_rqSA := q_rqSA q; q_seq := q_seq q; q_rqLun := q_rqLun q; q_cmd := q_cmd q;
     q_data := q_data q; q_state := st; q_matchedResponse := q_matchedResponse q |}.
Definition with_match (p : IpmbResponse) (q : IpmbRequest) : IpmbRequest :=
  {| q_address := q_address q; q_netFn := q_netFn q; q_rsLun := q_rsLun q;
     q_rqSA := q_rqSA q; q_seq := q_seq q; q_rqLun := q_rqLun q; q_cmd := q_cmd q;
     q_data := q_data q; q_state := matched; q_matchedResponse := Some p |}.

(** [outstandingRequests[seq]] of a [std::array] of 64 pointers. *)
Definition slot (c : nat) (seq : Z) : M World (option nat) :=
  let! ch := this c in
  of_option OutOfBounds (outstandingRequests ch !! Z.to_nat seq).
Definition set_slot (c : nat) (seq : Z) (v : option nat) : M World unit :=
  let! _ := slot c seq in
  on_channel c (fun ch => set_slots (<[Z.to_nat seq := v]> (outstandingRequests ch)) ch).

Definition makeRequestInvalid (c id : nat) : M World unit :=
  let! q := request_at id in
  store_request id (with_state invalid q) ;;;
  set_slot c (q_seq q) None.

Definition makeRequestValid (c id : nat) : M World unit :=
  let! q := request_at id in
  store_request id (with_state valid q) ;;;
  set_slot c (q_seq q) (Some id).

(** The [for] of [seqNumGet], [n] iterations to go. *)
Fixpoint seqNumGet_loop (c : nat) (n : nat) : M World (option Z) :=
  match n with
  | O => ret None
  | S n' =>
      modify (fun w => set_seqNum ((seqNum w + 1) mod ipmbMaxOutstandingRequestsCount) w) ;;;
      let! w := get in
      let! s := slot c (seqNum w) in
      match s with
      | None => ret (Some (seqNum w))
      | Some _ => seqNumGet_loop c n'
      end
  end.
Definition seqNumGet (c : nat) : M World (option Z) :=
  seqNumGet_loop c (Z.to_nat ipmbMaxOutstandingRequestsCount).

Definition response_matches (q : IpmbRequest) (p : IpmbResponse) : bool :=
  (ipmbRespNetFn (q_netFn q) =? p_netFn p) && (q_rqLun q =? p_rqLun p) &&
  (q_rsLun q =? p_rsLun p) && (q_cmd q =? p_cmd p).

(** [timer->cancel()] completes a pending wait with [operation_aborted]; the
    event that resumes the coroutine carries the error code. *)
Definition responseMatch (c : nat) (p : IpmbResponse) : M World unit :=
  let! request := slot c (p_seq p) in
  match request with
  | None => ret tt
  | Some id =>
      let! q := request_at id in
      if response_matches q p then store_request id (with_match p q) else ret tt
  end.

(** ** Sending *)

(** [async_write] on the channel's descriptor; its completion is an event. *)
Definition async_write (c : nat) (buffer : list Z) : M World unit := emit (OWrite c buffer).

Definition ipmbSendI2cFrame (c : nat) (buffer : list Z) (retriesAttempted : nat) : M World unit :=
  async_write c buffer ;;;
  let! sid := new_id in
  modify (fun w => set_sends
    (<[sid := {| s_chan := c; s_buffer := buffer; s_retries := retriesAttempted |}]> (sends w)) w).

(** The completion handler of that write. *)
Definition send_done (sid : nat) (ec : bool) : M World unit :=
  let! w := get in
  match sends w !! sid with
  | None => ret tt
  | Some s =>
      put (set_sends (delete sid (sends w)) w) ;;;
      if ec then
        if Nat.ltb ipmbI2cNumberOfRetries (s_retries s) then ret tt
        else ipmbSendI2cFrame (s_chan s) (s_buffer s) (S (s_retries s))
      else ret tt
  end.

(** ** [requestAdd], cut at its suspension points *)
Definition suspend (id : nat) (co : Coroutine) : M World unit :=
  modify (fun w => set_coroutines (<[id:=co]> (coroutines w)) w).
Definition reply (id : nat) (r : Reply) : M World unit :=
  modify (fun w => set_coroutines (delete id (coroutines w)) w) ;;;
  emit (OReply id r).

Definition returnMatchedResponse (q : IpmbRequest) : M World Reply :=
  let! p := deref (q_matchedResponse q) in
  ret {| r_status := status_int success; r_netFn := p_netFn p; r_lun := p_rsLun p;
         r_cmd := p_cmd p; r_cc := p_completionCode p; r_data := p_data p |}.

(** Start of write [k] of try [i]. *)
Definition start_write (id c : nat) (buffer : list Z) (i k : nat) : M World unit :=
  async_write c buffer ;;;
  suspend id {| co_chan := c; co_buffer := buffer; co_at := InWrite i k |}.

Definition requestAdd (id c : nat) : M World unit :=
  makeRequestValid c id ;;;
  let! q := request_at id in
  let! built := request_ipmbToi2cConstruct q in
  match built with
  | None => reply id (returnStatus error)
  | Some buffer => start_write id c buffer 0 0
  end.

(** The write of try [i] completed: retry it or start the timer. *)
Definition resume_write (id : nat) (co : Coroutine) (i k : nat) (ec : bool) : M World unit :=
  if ec && Nat.ltb (S k) ipmbI2cNumberOfRetries
  then start_write id (co_chan co) (co_buffer co) i (S k)
  else suspend id {| co_chan := co_chan co; co_buffer := co_buffer co; co_at := InTimer i |}.

(** How a timer wait ends. *)
Inductive TimerEnd := Expired | Aborted | WaitError.

Definition resume_timer (id : nat) (co : Coroutine) (i : nat) (ec : TimerEnd) : M World unit :=
  match ec with
  | WaitError =>
      makeRequestInvalid (co_chan co) id ;;; reply id (returnStatus error)
  | Expired | Aborted =>
      let! q := request_at id in
      match q_state q with
      | matched =>
          makeRequestInvalid (co_chan co) id ;;;
          let! q := request_at id in
          let! r := returnMatchedResponse q in
          reply id r
      | _ =>
          if Nat.ltb (S i) ipmbNumberOfTries
          then start_write id (co_chan co) (co_buffer co) (S i) 0
          else makeRequestInvalid (co_chan co) id ;;; reply id (returnStatus timeout)
      end
  end.

(** ** The D-Bus method [sendRequest] *)
Definition ipmbHandleRequest (reqChannel addr netfn lun cmd : Z) (dataReceived : list Z)
  : M World nat :=
  let! id := new_id in
  let! channel := getChannel reqChannel in
  let! c := deref channel in
  let! ch := this c in
  (if negb (ipmbRqSlaveAddress ch =? addr) && negb (addr =? 0x40)
   then updateRqSlaveAddress c addr else ret tt) ;;;
  let! seqValid := seqNumGet c in
  match seqValid with
  | None => reply id (returnStatus busy) ;;; ret id
  | Some seq =>
      let! ch := this c in
      store_request id (mkIpmbRequest (ipmbRqSlaveAddress ch) netfn ipmbRsLun
        (ipmbBmcSlaveAddress ch) seq lun cmd dataReceived) ;;;
      requestAdd id c ;;; ret id
  end.

(** ** The I2C event handler *)

(** [async_wait] for the next readable event. *)
Definition rearm (c : nat) : M World unit :=
  on_channel c (fun ch => set_descriptor (ipmbi2cSlaveFd ch) true ch).

(** The [receiveBroadcast] signal of an ipmb-type channel. *)
Definition signal_broadcast (ch : IpmbChannel) (ipmbFrame : list Z) (r : Z) : M World unit :=
  if is_ipmb ch then
    let! q := request_i2cToIpmbConstruct ipmbFrame r in
    emit (OBroadcast (q_netFn q) (q_cmd q) (q_data q))
  else ret tt.

(** A request: answered from the command filter, or passed to the host. *)
Definition handle_request_frame (c : nat) (ch : IpmbChannel) (ipmbFrame : list Z) (r : Z)
  : M World unit :=
  let! netFnLun := idx ipmbFrame 1 in
  let! rqSA := idx ipmbFrame 3 in
  let! seqLun := idx ipmbFrame 4 in
  let! cmd := idx ipmbFrame 5 in
  let netFn := ipmbNetFnGet netFnLun in
  let! blocked := isBlocked netFn cmd in
  if blocked then
    let! buffer := response_ipmbToi2cConstruct
      (mkIpmbResponse rqSA (ipmbRespNetFn netFn) (ipmbLunFromSeqLunGet seqLun)
         (ipmbBmcSlaveAddress ch) (ipmbSeqGet seqLun) ipmbRsLun cmd
         ipmbIpmiInvalidCmd []) in
    match buffer with Some b => ipmbSendI2cFrame c b 0 | None => ret tt end
  else
    let! q := request_i2cToIpmbConstruct ipmbFrame r in
    let! hid := new_id in
    modify (fun w => set_hostcalls
      (<[hid := {| h_chan := c; h_rqLun := q_rqLun q; h_seq := q_seq q;
                   h_address := q_rqSA q |}]> (hostcalls w)) w) ;;;
    emit (OHost hid (q_netFn q) (q_rsLun q) (q_cmd q) (q_data q)
      (ipmbAddressTo7BitSet (q_rqSA q)) (getDevIndex ch)).

(** A frame that passed validation; [r] is its length without the length byte. *)
Definition handle_frame (c : nat) (ipmbFrame : list Z) (r : Z) : M World unit :=
  let! ch := this c in
  signal_broadcast ch ipmbFrame r ;;;
  let! isResponse := ipmbIsResponse ipmbFrame in
  if isResponse then
    let! p := response_i2cToIpmbConstruct ipmbFrame r in
    responseMatch c p
  else handle_request_frame c ch ipmbFrame r.

(** [frame] is what the driver hands to [read]; [None] is a negative result. *)
Definition processI2cEvent (c : nat) (frame : option (list Z)) : M World unit :=
  match frame with
  | None => rearm c
  | Some frame =>
      let frame := take (Z.to_nat ipmbMaxFrameLength) frame in
      let ipmbFrame := rx_header frame in
      let r := Z.of_nat (length frame) - 1 in
      (if (r <? ipmbMinFrameLength) || (ipmbMaxFrameLength <? r) then ret tt
       else
         let! v := isFrameValid ipmbFrame r in
         if v then handle_frame c ipmbFrame r else ret tt) ;;;
      rearm c
  end.

(** The end of the wait of a channel: an error ([ec]) is logged and the
    channel is not armed again. *)
Definition i2c_readable (c : nat) (ec : bool) (frame : option (list Z)) : M World unit :=
  let! ch := this c in
  if waiting ch then
    on_channel c (fun ch => set_descriptor (ipmbi2cSlaveFd ch) false ch) ;;;
    if ec then ret tt else processI2cEvent c frame
  else ret tt.

(** The reply of the IPMI host service: netFn, lun, cmd, cc, payload. *)
Record HostReply := { hr_netfn : Z; hr_lun : Z; hr_cmd : Z; hr_cc : Z; hr_payload : list Z }.

Definition host_reply_handler (hc : HostCall) (response : option HostReply) : M World unit :=
  match response with
  | None => ret tt
  | Some r =>
      let! ch := this (h_chan hc) in
      if ipmbMaxDataSize <? Z.of_nat (length (hr_payload r)) then
        let! buffer := response_ipmbToi2cConstruct
          (mkIpmbResponse (h_address hc) (hr_netfn r) (h_rqLun hc) (ipmbBmcSlaveAddress ch)
             (h_seq hc) ipmbRsLun (hr_cmd r) ipmbIpmiCmdRespNotProvided []) in
        match buffer with Some b => ipmbSendI2cFrame (h_chan hc) b 0 | None => ret tt end
      else if Z.land (hr_netfn r) ipmbNetFnResponseMask =? 0 then ret tt
      else
        (if hr_cc r =? ipmbIpmiInvalidCmd
         then addFilter (ipmbReqNetFnFromRespNetFn (hr_netfn r)) (hr_cmd r) else ret tt) ;;;
        let! buffer := response_ipmbToi2cConstruct
          (mkIpmbResponse (h_address hc) (hr_netfn r) (h_rqLun hc) (ipmbBmcSlaveAddress ch)
             (h_seq hc) (hr_lun r) (hr_cmd r) (hr_cc r) (hr_payload r)) in
        match buffer with Some b => ipmbSendI2cFrame (h_chan hc) b 0 | None => ret tt end
  end.

Definition host_reply (hid : nat) (response : option HostReply) : M World unit :=
  let! w := get in
  match hostcalls w !! hid with
  | None => ret tt
  | Some hc =>
      put (set_hostcalls (delete hid (hostcalls w)) w) ;;;
      host_reply_handler hc response
  end.

(** ** The D-Bus signals *)

(** The file system's answers to one address update: may the two sysfs files
    be opened, and the descriptor of the new device. *)
Record UpdateIO := { delete_ok : bool; new_ok : bool; new_fd : Z }.

(** [std::hex] of the 16-bit driver address. *)
Definition hex_digit (z : Z) : string :=
  String (Ascii.ascii_of_N (Z.to_N (if z <? 10 then 48 + z else 87 + z))) EmptyString.
Fixpoint hex_loop (n : nat) (z : Z) : string :=
  match n with
  | O => EmptyString
  | S n' => if z <? 16 then hex_digit z
            else String.append (hex_loop n' (z / 16)) (hex_digit (z mod 16))
  end.
Definition to_hex16 (z : Z) : string := hex_loop 4 z.

Definition ipmbChannelUpdateSlaveAddress (c : nat) (newBmcSlaveAddr : Z) (io : UpdateIO)
  : M World Z :=
  let! ch := this c in
  (if 0 <? ipmbi2cSlaveFd ch then on_channel c (set_descriptor 0 false) else ret tt) ;;;
  let dir := String.append "/sys/bus/i2c/devices/i2c-" (pretty (ipmbBusId ch)) in
  if negb (delete_ok io) then ret (-1) else
  emit (OFile (String.append dir "/delete_device") "0x1010") ;;;
  let addr := u16 (0x1000 + Z.shiftr newBmcSlaveAddr 1) in
  if negb (new_ok io) then ret (-1) else
  emit (OFile (String.append dir "/new_device")
    (String.append "ipmb-dev 0x" (to_hex16 addr))) ;;;
  on_channel c (fun ch => set_descriptor (new_fd io) (waiting ch) ch) ;;;
  if new_fd io <? 0 then ret (-1) else
  on_channel c (set_descriptor (new_fd io) true) ;;;
  on_channel c (set_bmcSlaveAddress newBmcSlaveAddr) ;;;
  ret 0.

Definition updateSlaveAddrHandler (pathName : string) (reqChannel busId slaveAddr : Z)
    (io : UpdateIO) : M World unit :=
  if negb (String.eqb pathName "/xyz/openbmc_project/MultiNode/Status") then ret tt else
  let! channel := getChannel reqChannel in
  match channel with
  | None => ret tt
  | Some c =>
      let! ch := this c in
      if negb (is_ipmb ch) then ret tt
      else if negb (busId =? ipmbBusId ch) then ret tt
      else if ipmbBmcSlaveAddress ch =? slaveAddr then ret tt
      else let! _ := ipmbChannelUpdateSlaveAddress c slaveAddr io in ret tt
  end.

Definition sendBroadcastHandler (reqChannel netFn lun cmd : Z) (dataReceived : list Z)
  : M World unit :=
  let! channel := getChannel reqChannel in
  match channel with
  | None => ret tt
  | Some c =>
      let! ch := this c in
      let! built := request_ipmbToi2cConstruct
        (mkIpmbRequest broadcastAddress netFn ipmbRsLun (ipmbBmcSlaveAddress ch) 0 lun cmd
           dataReceived) in
      match built with
      | None => ret tt
      | Some buffer => ipmbSendI2cFrame c buffer 0
      end
  end.

(** ** Initialisation *)

(** [substr(find("-") + 1)]; [npos + 1] is 0. *)
Fixpoint after_hyphen (l : list Z) : option (list Z) :=
  match l with
  | [] => None
  | d :: l' => if d =? 45 then Some l' else after_hyphen l'
  end.

Record InitIO := { dev_exists : bool; new_device_ok : bool; slave_fd : Z }.
(** One entry of [channels]; the JSON library parses it. *)
Record ChannelConfig := {
  typeConfig : string; slavePath : list Z; bmcAddr : Z; reqAddr : Z;
  cfgDevIndex : option Z; cfg_io : InitIO }.

Definition ipmbChannelInit (c : nat) (ipmbI2cSlave : list Z) (io : InitIO) : M World Z :=
  let busStr := default ipmbI2cSlave (after_hyphen ipmbI2cSlave) in
  let! busId := try (let! n := stoi busStr in ret (Some n))
    (fun e => match e with InvalidArgument => ret None | _ => throw e end) in
  match busId with
  | None => ret (-1)
  | Some n =>
      on_channel c (set_busId (u8 n)) ;;;
      if negb (dev_exists io) && negb (new_device_ok io) then ret (-1) else
      on_channel c (fun ch => set_descriptor (slave_fd io) (waiting ch) ch) ;;;
      if slave_fd io <? 0 then ret (-1) else
      on_channel c (set_descriptor (slave_fd io) true) ;;;
      ret 0
  end.

(** [ipmbChannelTypeMap.at]; the enumeration's values are 0 and 1. *)
Definition channel_type (s : string) : option Z :=
  if String.eqb s "me" then Some 1 else if String.eqb s "ipmb" then Some 0 else None.

Definition emplace_channel (bmc req idx : Z) : M World nat := fun w =>
  Ret (length (channels w))
    (set_channels (channels w ++ [
      {| channelIdx := u8 idx; ipmbBmcSlaveAddress := bmc; ipmbRqSlaveAddress := req;
         ipmbBusId := 0; ipmbi2cSlaveFd := 0; waiting := false;
         outstandingRequests := replicate 64 None |}]) w).

Fixpoint initializeChannels_loop (cfgs : list (option ChannelConfig)) (devIndex : Z)
  : M World Z :=
  match cfgs with
  | [] => ret 0
  | None :: _ => ret (-1)
  | Some cfg :: cfgs' =>
      match channel_type (typeConfig cfg) with
      | None => ret (-1)
      | Some type =>
          let devIndex := default devIndex (cfgDevIndex cfg) in
          let! c := emplace_channel (bmcAddr cfg) (reqAddr cfg)
            (Z.lor (Z.shiftl devIndex 2) type) in
          let! rc := try (ipmbChannelInit c (slavePath cfg) (cfg_io cfg))
            (fun e => match e with StdOutOfRange => ret (-1) | _ => throw e end) in
          if rc <? 0 then ret (-1) else initializeChannels_loop cfgs' devIndex
      end
  end.

(** [config] is the parsed [channels] array, [None] when the file cannot be
    opened or parsed. *)
Definition initializeChannels (config : option (list (option ChannelConfig))) : M World Z :=
  match config with
  | None => ret (-1)
  | Some cfgs => initializeChannels_loop cfgs 0
  end.

Definition world0 : World :=
  {| seqNum := 0; channels := []; unhandledCommands := ∅; heap := ∅; coroutines := ∅;
     hostcalls := ∅; sends := ∅; fresh := 0; out := [] |}.

(** ** Events *)
Inductive Event :=
  | EvSendRequest (reqChannel addr netfn lun cmd : Z) (data : list Z)
  | EvWriteDone (id : nat) (ec : bool)
  | EvTimer (id : nat) (ec : TimerEnd)
  | EvReadable (chan : nat) (ec : bool) (frame : option (list Z))
  | EvHostReply (hid : nat) (response : option HostReply)
  | EvSendDone (sid : nat) (ec : bool)
  | EvUpdateSlaveAddr (path : string) (reqChannel busId slaveAddr : Z) (io : UpdateIO)
  | EvSendBroadcast (reqChannel netFn lun cmd : Z) (data : list Z).

Definition step (e : Event) : M World unit :=
  match e with
  | EvSendRequest rc addr netfn lun cmd data =>
      let! _ := ipmbHandleRequest rc addr netfn lun cmd data in ret tt
  | EvWriteDone id ec =>
      let! w := get in
      match coroutines w !! id with
      | Some co => match co_at co with
                   | InWrite i k => resume_write id co i k ec
                   | InTimer _ => ret tt
                   end
      | None => ret tt
      end
  | EvTimer id ec =>
      let! w := get in
      match coroutines w !! id with
      | Some co => match co_at co with
                   | InTimer i => resume_timer id co i ec
                   | InWrite _ _ => ret tt
                   end
      | None => ret tt
      end
  | EvReadable c ec frame => i2c_readable c ec frame
  | EvHostReply hid response => host_reply hid response
  | EvSendDone sid ec => send_done sid ec
  | EvUpdateSlaveAddr path rc busId sa io => updateSlaveAddrHandler path rc busId sa io
  | EvSendBroadcast rc netFn lun cmd data => sendBroadcastHandler rc netFn lun cmd data
  end.

Fixpoint run (es : list Event) : M World unit :=
  match es with
  | [] => ret tt
  | e :: es' => step e ;;; run es'
  end.

(** ** Reachable worlds

    A reachable world is one that [initializeChannels] and a history of
    events lead to. *)
Definition bytes_event (e : Event) : Prop :=
  match e with EvReadable _ _ (Some frame) => bytes frame | _ => True end.

Inductive reachable : list Event -> World -> Prop :=
  | reach_init config w :
      initializeChannels config world0 = Ret 0 w -> reachable [] w
  | reach_step es e w w' :
      reachable es w -> bytes_event e -> step e w = Ret tt w' -> reachable (es ++ [e]) w'.

(** The identity of the channel a request names. *)
Definition find_channel (w : World) (reqChannel : Z) : option nat :=
  fst <$> list_find (fun c => channelIdx c = reqChannel) (channels w).

(** ** The invariant of the daemon *)

(** The request a slot of a channel refers to. *)
Definition slots (w : World) : list (list (option nat)) := outstandingRequests <$> channels w.
Definition slot_of (w : World) (c k : nat) : option nat :=
  mjoin (slots w !! c ≫= fun l => l !! k).

(** A response that reached channel [c] in a validated frame. *)
Definition received_on (past : list Event) (c : nat) (p : IpmbResponse) : Prop :=
  exists frame, EvReadable c false (Some frame) ∈ past /\
    let frame := take (Z.to_nat ipmbMaxFrameLength) frame in
    let r := Z.of_nat (length frame) - 1 in
    isFrameValid (rx_header frame) r tt = Ret true tt /\
    response_i2cToIpmbConstruct (rx_header frame) r tt = Ret p tt.

(** Call [id] was made in the history [past]: it is the call that received
    this identity, for the channel at index [c], with the fields of [q];
    [later] is what happened after it. *)
Definition asked (past later : list Event) (id c : nat) (q : IpmbRequest) : Prop :=
  exists es w rc addr,
    past = es ++ EvSendRequest rc addr (q_netFn q) (q_rqLun q) (q_cmd q) (q_data q) :: later /\
    reachable es w /\ fresh w = id /\ find_channel w rc = Some c /\ q_rsLun q = ipmbRsLun.

(** [p] answers [q], the request of call [id] on channel [c]: it arrived on
    this channel after the call was made, with the sequence number, the LUNs
    and the command of the request and its network function made odd. *)
Definition answers (past : list Event) (id c : nat) (q : IpmbRequest) (p : IpmbResponse) : Prop :=
  exists later, asked past later id c q /\ received_on later c p /\
    p_seq p = q_seq q /\ p_netFn p = ipmbRespNetFn (q_netFn q) /\
    p_rqLun p = q_rqLun q /\ p_rsLun p = q_rsLun q /\ p_cmd p = q_cmd q.

Definition reply_of (p : IpmbResponse) : Reply :=
  {| r_status := 0; r_netFn := p_netFn p; r_lun := p_rsLun p; r_cmd := p_cmd p;
     r_cc := p_completionCode p; r_data := p_data p |}.

(** A reply that reports a failure carries nothing but its status. *)
Definition failure (r : Reply) : Prop := exists st, st <> success /\ r = returnStatus st.

Definition reply_ids (o : list Out) : list nat :=
  omap (fun o => match o with OReply id _ => Some id | _ => None end) o.

(** The loop counters of [requestAdd] at a suspension point. *)
Definition at_ok (s : Suspension) : Prop :=
  match s with
  | InWrite i k => (i < ipmbNumberOfTries)%nat /\ (k < ipmbI2cNumberOfRetries)%nat
  | InTimer i => (i < ipmbNumberOfTries)%nat
  end.

Record Inv (past : list Event) (w : World) : Prop := {
  inv_seq : 0 <= seqNum w < 64;
  inv_len : forall c l, slots w !! c = Some l -> length l = 64%nat;
  inv_slot : forall c k id, slot_of w c k = Some id ->
    exists q, heap w !! id = Some q /\ q_seq q = Z.of_nat k /\ (id < fresh w)%nat /\
      (exists later, asked past later id c q) /\
      (q_state q = valid \/
       q_state q = matched /\ exists p, q_matchedResponse q = Some p /\ answers past id c q p);
  inv_inj : forall c k c' k' id, slot_of w c k = Some id -> slot_of w c' k' = Some id -> c = c';
  inv_co : forall id co, coroutines w !! id = Some co ->
    exists q, heap w !! id = Some q /\
      slot_of w (co_chan co) (Z.to_nat (q_seq q)) = Some id /\
      request_ipmbToi2cConstruct q tt = Ret (Some (co_buffer co)) tt;
  inv_at : forall id co, coroutines w !! id = Some co -> at_ok (co_at co);
  inv_refs : (forall sid s, sends w !! sid = Some s -> (s_chan s < length (channels w))%nat) /\
    (forall hid h, hostcalls w !! hid = Some h -> (h_chan h < length (channels w))%nat);
  inv_once : NoDup (reply_ids (out w));
  inv_failed : forall id r, OReply id r ∈ out w -> r_status r <> 0 -> failure r;
  inv_replied : forall id r, OReply id r ∈ out w ->
    coroutines w !! id = None /\ (id < fresh w)%nat /\
    (r_status r = 0 -> exists c q p, heap w !! id = Some q /\ answers past id c q p /\
      r = reply_of p) }.

Lemma slot_of_lookup w c k id :
  slot_of w c k = Some id <->
  exists ch, channels w !! c = Some ch /\ outstandingRequests ch !! k = Some (Some id).
Proof.
  unfold slot_of, slots. rewrite list_lookup_fmap.
  destruct (channels w !! c) as [ch|] eqn:E; simpl.
  - destruct (outstandingRequests ch !! k) as [[x|]|] eqn:E2; simpl; split;
      try (intros [= ->]; eauto); try (intros (ch' & [= <-] & H); congruence).
  - split; [discriminate|]. intros (ch' & H & _). discriminate.
Qed.

Lemma slot_of_set w c k v ch c' k' :
  channels w !! c = Some ch -> (k < length (outstandingRequests ch))%nat ->
  slot_of (set_channels (alter
    (fun ch => set_slots (<[k:=v]> (outstandingRequests ch)) ch) c (channels w)) w) c' k' =
  if decide (c' = c /\ k' = k) then v else slot_of w c' k'.
Proof.
  intros Hc Hk. unfold slot_of, slots. simpl. rewrite !list_lookup_fmap.
  destruct (decide (c' = c)) as [->|Hne].
  - rewrite list_lookup_alter_eq, Hc. simpl. destruct (decide (k' = k)) as [->|Hk'].
    + rewrite decide_True by done. rewrite list_lookup_insert_eq by done. by destruct v.
    + rewrite decide_False by tauto. rewrite list_lookup_insert_ne by done. reflexivity.
  - rewrite decide_False by tauto. rewrite list_lookup_alter_ne by done. reflexivity.
Qed.

Lemma slots_alter_attr w c f :
  (forall ch, outstandingRequests (f ch) = outstandingRequests ch) ->
  slots (set_channels (alter f c (channels w)) w) = slots w.
Proof.
  intros Hf. unfold slots. simpl. apply list_eq. intros i. rewrite !list_lookup_fmap.
  destruct (decide (i = c)) as [->|Hne].
  - rewrite list_lookup_alter_eq. destruct (channels w !! c); simpl; [by rewrite Hf|done].
  - by rewrite list_lookup_alter_ne by done.
Qed.

Lemma past_grows (past : list Event) e : past `prefix_of` past ++ [e].
Proof. by exists [e]. Qed.
#[export] Hint Resolve past_grows : lcr.

Lemma asked_mono past past' later id c q :
  past `prefix_of` past' -> asked past later id c q ->
  exists more, past' = past ++ more /\ asked past' (later ++ more) id c q.
Proof.
  intros [more ->] (es & w & rc & addr & -> & H). exists more. split; [done|].
  exists es, w, rc, addr. split; [by rewrite <- app_assoc|done].
Qed.

Lemma received_on_app es es' c p :
  received_on es c p \/ received_on es' c p -> received_on (es ++ es') c p.
Proof.
  intros [(f & Hin & H)|(f & Hin & H)]; exists f;
    (split; [apply elem_of_app; auto|exact H]).
Qed.

Lemma answers_mono past past' id c q p :
  past `prefix_of` past' -> answers past id c q p -> answers past' id c q p.
Proof.
  intros Hs (later & Ha & Hr & H). destruct (asked_mono _ _ _ _ _ _ Hs Ha) as (more & _ & Ha').
  exists (later ++ more). split; [done|]. split; [apply received_on_app; by left|done].
Qed.

Lemma some_asked_mono past past' id c q :
  past `prefix_of` past' -> (exists later, asked past later id c q) ->
  exists later, asked past' later id c q.
Proof.
  intros Hs [later Ha]. destruct (asked_mono _ _ _ _ _ _ Hs Ha) as (more & _ & Ha'). eauto.
Qed.

(** Everything but slots, heap and coroutines may change freely. *)
Definition quiet (o : Out) : Prop := match o with OReply _ _ => False | _ => True end.

Lemma reply_ids_quiet os o : Forall quiet os -> reply_ids (os ++ o) = reply_ids o.
Proof.
  induction os as [|x os IH]; [done|]. intros [Hx Hos]%Forall_cons.
  destruct x; simpl in *; try done; by apply IH.
Qed.

Lemma Inv_frame past past' w w' os :
  Inv past w -> past `prefix_of` past' ->
  slots w' = slots w -> heap w' = heap w -> coroutines w' = coroutines w ->
  0 <= seqNum w' < 64 -> (fresh w <= fresh w')%nat ->
  out w' = os ++ out w -> Forall quiet os ->
  (forall sid s, sends w' !! sid = Some s -> (s_chan s < length (channels w'))%nat) ->
  (forall hid h, hostcalls w' !! hid = Some h -> (h_chan h < length (channels w'))%nat) ->
  Inv past' w'.
Proof.
  intros I Hp Hs Hh Hc Hq Hf Ho Hos Hr1 Hr2. destruct I.
  assert (forall c k, slot_of w' c k = slot_of w c k) as Hsl
    by (intros; unfold slot_of; by rewrite Hs).
  split; rewrite ?Hs, ?Hh, ?Hc; try done.
  - intros c k id H. rewrite Hsl in H.
    destruct (inv_slot0 _ _ _ H) as (q & H1 & H2 & H3 & Ha & H4).
    exists q. split; [done|]. split; [done|]. split; [lia|].
    split; [by eapply some_asked_mono|].
      destruct H4 as [H4|(H4 & p & H5 & H6)]; [by left|]. right. split; [done|].
    exists p. split; [done|]. by eapply answers_mono.
  - intros c k c' k' id H H'. rewrite Hsl in H, H'. by eapply inv_inj0.
  - intros id co H. destruct (inv_co0 _ _ H) as (q & H1 & H2 & H3).
    exists q. by rewrite Hsl.
  - by rewrite Ho, reply_ids_quiet.
  - intros id r H. rewrite Ho, elem_of_app in H. destruct H as [H|H]; [|by eapply inv_failed0].
    rewrite Forall_forall in Hos. by destruct (Hos _ H).
  - intros id r H. rewrite Ho, elem_of_app in H. destruct H as [H|H].
    + rewrite Forall_forall in Hos. by destruct (Hos _ H).
    + destruct (inv_replied0 _ _ H) as (H1 & H2 & H3). split; [done|]. split; [lia|].
      intros H0. destruct (H3 H0) as (c & q & p & ? & ? & ?). exists c, q, p.
      split; [done|]. split; [|done]. by eapply answers_mono.
Qed.

Definition same_len (w w' : World) : Prop :=
  forall c l, slots w' !! c = Some l -> exists l', slots w !! c = Some l' /\ length l = length l'.

Definition refs_ok (w : World) : Prop :=
  (forall sid s, sends w !! sid = Some s -> (s_chan s < length (channels w))%nat) /\
  (forall hid h, hostcalls w !! hid = Some h -> (h_chan h < length (channels w))%nat).

(** A new request [q] under the fresh identity [id] takes the free slot
    [(c, k)]; its coroutine is suspended ([Some co]), or the serialiser
    failed and the call is answered with an error. *)
Lemma Inv_alloc past past' w w' c k q os oco :
  Inv past w -> past `prefix_of` past' -> refs_ok w' -> same_len w w' ->
  let id := fresh w in
  slot_of w c k = None -> q_seq q = Z.of_nat k -> q_state q = valid ->
  (exists later, asked past' later id c q) ->
  (forall c' k', slot_of w' c' k' = if decide (c' = c /\ k' = k) then Some id else slot_of w c' k') ->
  heap w' = <[id:=q]> (heap w) -> (id < fresh w')%nat -> 0 <= seqNum w' < 64 ->
  match oco with
  | Some co => coroutines w' = <[id:=co]> (coroutines w) /\ co_chan co = c /\
      at_ok (co_at co) /\ request_ipmbToi2cConstruct q tt = Ret (Some (co_buffer co)) tt /\
      out w' = os ++ out w /\ Forall quiet os
  | None => coroutines w' = delete id (coroutines w) /\
      out w' = OReply id (returnStatus error) :: os ++ out w /\ Forall quiet os
  end ->
  Inv past' w'.
Proof.
  intros I Hp Hr Hl id Hnone Hk Hst Hask Hs Hh Hf Hq Hco. destruct I.
  assert (forall c' k' i, slot_of w c' k' = Some i -> i <> id) as Hne.
  { intros c' k' i H ->. destruct (inv_slot0 _ _ _ H) as (? & ? & ? & ? & _). unfold id in *. lia. }
  assert (coroutines w !! id = None) as Hcid.
  { destruct (coroutines w !! id) eqn:E; [|done].
    destruct (inv_co0 _ _ E) as (? & _ & H & _). by apply Hne in H. }
  assert (forall i r, OReply i r ∈ out w -> i <> id) as Hoid.
  { intros i r H ->. destruct (inv_replied0 _ _ H) as (_ & ? & _). unfold id in *. lia. }
  split; try done.
  - intros c' l H. destruct (Hl _ _ H) as (l' & H1 & ->). by eapply inv_len0.
  - intros c' k' i H. rewrite Hs in H. rewrite Hh. case_decide as Hd.
    + injection H as <-. destruct Hd as [-> ->]. exists q. rewrite lookup_insert_eq.
      do 3 (split; [done|]). split; [exact Hask|]. by left.
    + rewrite lookup_insert_ne by (by apply not_eq_sym; eapply Hne).
      destruct (inv_slot0 _ _ _ H) as (q' & H1 & H2 & H3 & Ha & H4). exists q'.
      split; [done|]. split; [done|]. split; [unfold id in *; lia|].
      split; [by eapply some_asked_mono|].
      destruct H4 as [H4|(H4 & p & H5 & H6)]; [by left|]. right. split; [done|].
      exists p. split; [done|]. by eapply answers_mono.
  - intros c1 k1 c2 k2 i H1 H2. rewrite Hs in H1, H2.
    repeat case_decide; destruct_and?; try congruence;
      try (exfalso; eapply Hne; [eassumption|congruence]).
    by eapply inv_inj0.
  - intros i co H.
    assert (forall co, coroutines w !! i = Some co -> i <> id /\ exists q, heap w' !! i = Some q /\
      slot_of w' (co_chan co) (Z.to_nat (q_seq q)) = Some i /\
      request_ipmbToi2cConstruct q tt = Ret (Some (co_buffer co)) tt) as Hold.
    { intros co' H'. destruct (inv_co0 _ _ H') as (q' & H1 & H2 & H3).
      assert (i <> id) by congruence. split; [done|]. exists q'.
      rewrite Hh, lookup_insert_ne by done. split; [done|]. split; [|done].
      rewrite Hs, decide_False; [done|]. intros [E1 E2]. congruence. }
    destruct oco as [co0|].
    + destruct Hco as (Hco & Hc & _ & Hb & _). rewrite Hco in H.
      destruct (decide (i = id)) as [->|Hn].
      * rewrite lookup_insert_eq in H. injection H as <-. exists q.
        rewrite Hh, lookup_insert_eq, Hs, Hk, Nat2Z.id, decide_True by done. auto.
      * rewrite lookup_insert_ne in H by done. by destruct (Hold _ H).
    + destruct Hco as (Hco & _). rewrite Hco in H. apply lookup_delete_Some in H.
      by destruct (Hold _ (proj2 H)).
  - intros i co H. destruct oco as [co0|].
    + destruct Hco as (Hco & _ & Hat & _). rewrite Hco in H.
      apply lookup_insert_Some in H as [[_ <-]|[_ H]]; [done|by eapply inv_at0].
    + destruct Hco as (Hco & _). rewrite Hco in H. apply lookup_delete_Some in H as [_ H].
      by eapply inv_at0.
  - assert (forall os, Forall quiet os -> id ∉ reply_ids (os ++ out w)) as Hn.
    { intros os' Hos'. rewrite reply_ids_quiet by done. intros H.
      apply list_elem_of_omap in H as (o & Ho & E). destruct o; simplify_eq. by eapply Hoid. }
    destruct oco as [co0|].
    + destruct Hco as (_ & _ & _ & _ & -> & Hos). by rewrite reply_ids_quiet.
    + destruct Hco as (_ & -> & Hos). simpl. apply NoDup_cons. split; [by apply Hn|].
      by rewrite reply_ids_quiet.
  - intros i r H Hr0.
    assert (OReply i r ∉ os) as Hno.
    { intros Hos. destruct oco as [co0|].
      - destruct Hco as (_ & _ & _ & _ & _ & Hq'). rewrite Forall_forall in Hq'. by destruct (Hq' _ Hos).
      - destruct Hco as (_ & _ & Hq'). rewrite Forall_forall in Hq'. by destruct (Hq' _ Hos). }
    destruct oco as [co0|].
    + destruct Hco as (_ & _ & _ & _ & Ho & _). rewrite Ho, elem_of_app in H.
      destruct H as [H|H]; [done|by eapply inv_failed0].
    + destruct Hco as (_ & Ho & _). rewrite Ho, elem_of_cons, elem_of_app in H.
      destruct H as [[= -> ->]|[H|H]]; [by exists error|done|by eapply inv_failed0].
  - intros i r H.
    assert (OReply i r ∈ out w -> coroutines w' !! i = None /\ (i < fresh w')%nat /\
      (r_status r = 0 -> exists c q p, heap w' !! i = Some q /\ answers past' i c q p /\
        r = reply_of p)) as Hold.
    { intros Ho. pose proof (Hoid _ _ Ho) as Hi.
      destruct (inv_replied0 _ _ Ho) as (H1 & H2 & H3). split_and!.
      - destruct oco; destruct Hco as (-> & _); [by rewrite lookup_insert_ne|].
        by rewrite lookup_delete_ne.
      - unfold id in *. lia.
      - intros H0. destruct (H3 H0) as (c' & q' & p & H4 & H5 & H6). exists c', q', p.
        rewrite Hh, lookup_insert_ne by done. split; [done|]. split; [|done].
        by eapply answers_mono. }
    destruct oco as [co0|].
    + destruct Hco as (_ & _ & _ & _ & Ho & Hos). rewrite Ho, elem_of_app in H.
      destruct H as [H|H]; [|by apply Hold].
      rewrite Forall_forall in Hos. by destruct (Hos _ H).
    + destruct Hco as (Hc & Ho & Hos). rewrite Ho, elem_of_cons, elem_of_app in H.
      destruct H as [[= -> ->]|[H|H]]; [|rewrite Forall_forall in Hos; by destruct (Hos _ H)|by apply Hold].
      rewrite Hc, lookup_delete_eq. split_and!; [done..|]. discriminate.
Qed.

(** Answering, serialising and replying look only at the fields a request is
    created with, so marking it changes none of them. *)
Lemma answers_with_match past id c q p p' :
  answers past id c (with_match p q) p' = answers past id c q p'.
Proof. reflexivity. Qed.
Lemma answers_with_state past id c q st p' :
  answers past id c (with_state st q) p' = answers past id c q p'.
Proof. reflexivity. Qed.
Lemma frame_with_match p q :
  request_ipmbToi2cConstruct (S:=unit) (with_match p q) = request_ipmbToi2cConstruct q.
Proof. reflexivity. Qed.

Lemma response_matches_spec q p :
  response_matches q p = true <->
  p_netFn p = ipmbRespNetFn (q_netFn q) /\ p_rqLun p = q_rqLun q /\
  p_rsLun p = q_rsLun q /\ p_cmd p = q_cmd q.
Proof.
  unfold response_matches. rewrite !andb_true_iff, !Z.eqb_eq. naive_solver.
Qed.

Lemma asked_then_received past later id c q p e :
  asked past later id c q -> received_on [e] c p -> p_seq p = q_seq q ->
  response_matches q p = true -> answers (past ++ [e]) id c q p.
Proof.
  intros Ha Hr Hs Hm. destruct (asked_mono _ _ _ _ _ _ (past_grows past e) Ha) as (more & E & Ha').
  apply app_inv_head in E as <-. exists (later ++ [e]). split; [done|].
  split; [apply received_on_app; by right|]. split; [done|]. by apply response_matches_spec.
Qed.

(** The owner of slot [(c, k)] is matched by [p]. *)
Lemma Inv_match past w c k id q p :
  Inv past w ->
  slot_of w c k = Some id -> heap w !! id = Some q -> answers past id c q p ->
  Inv past (set_heap (<[id:=with_match p q]> (heap w)) w).
Proof.
  intros I Hsl Hq Hp. destruct I. split; simpl; try done.
  - intros c' k' i H. change (slot_of w c' k' = Some i) in H.
    destruct (decide (i = id)) as [->|Hne].
    + destruct (inv_slot0 _ _ _ H) as (q0 & H1 & H2 & H3 & Ha & _).
      pose proof (inv_inj0 _ _ _ _ _ H Hsl) as ->. exists (with_match p q). rewrite lookup_insert_eq.
      assert (q0 = q) as -> by congruence.
      split; [done|]. split; [done|]. split; [done|]. split; [exact Ha|].
      right. split; [done|]. by exists p.
    + rewrite lookup_insert_ne by done. by apply inv_slot0.
  - intros i co H. destruct (inv_co0 _ _ H) as (q0 & H1 & H2 & H3).
    destruct (decide (i = id)) as [->|Hne].
    + exists (with_match p q). rewrite lookup_insert_eq. assert (q0 = q) as -> by congruence.
      done.
    + exists q0. rewrite lookup_insert_ne by done. done.
  - intros i r H. destruct (inv_replied0 _ _ H) as (H1 & H2 & H3).
    split; [done|]. split; [done|]. intros H0.
    destruct (H3 H0) as (c' & q0 & p0 & H4 & H5 & H6). exists c'.
    destruct (decide (i = id)) as [->|Hne].
    + exists (with_match p q), p0. assert (q0 = q) as -> by congruence.
      by rewrite lookup_insert_eq.
    + exists q0, p0. by rewrite lookup_insert_ne.
Qed.

(** A suspended coroutine moves on to its next suspension point. *)
Lemma Inv_suspend past past' w w' id co co' os :
  Inv past w -> past `prefix_of` past' -> coroutines w !! id = Some co ->
  co_chan co' = co_chan co -> co_buffer co' = co_buffer co -> at_ok (co_at co') ->
  Forall quiet os -> w' = set_coroutines (<[id:=co']> (coroutines w)) (set_out (os ++ out w) w) ->
  Inv past' w'.
Proof.
  intros I Hp Hco Hc Hb Hat Hos ->.
  assert (Inv past' (set_out (os ++ out w) w)) as I'
    by (eapply Inv_frame; try done; apply I).
  destruct I'. split; simpl in *; try done.
  - intros i co0 H. destruct (decide (i = id)) as [->|Hne].
    + rewrite lookup_insert_eq in H. injection H as <-. rewrite Hc, Hb. by apply inv_co0.
    + rewrite lookup_insert_ne in H by done. by apply inv_co0.
  - intros i co0 H. apply lookup_insert_Some in H as [[_ <-]|[_ H]]; [done|by eapply inv_at0].
  - intros i r H. destruct (inv_replied0 _ _ H) as (H1 & H2 & H3). split; [|done].
    rewrite lookup_insert_ne; [done|]. congruence.
Qed.

(** A coroutine leaves: its request is invalid, its slot free, its caller
    answered. *)
Lemma Inv_finish past past' w w' id co q r ch :
  Inv past w -> past `prefix_of` past' -> coroutines w !! id = Some co -> heap w !! id = Some q ->
  channels w !! co_chan co = Some ch ->
  (r_status r = 0 -> exists p, answers past id (co_chan co) q p /\ r = reply_of p) ->
  (r_status r <> 0 -> failure r) ->
  w' = set_out (OReply id r :: out w) (set_coroutines (delete id (coroutines w))
    (set_channels (alter (fun ch => set_slots
       (<[Z.to_nat (q_seq q) := None]> (outstandingRequests ch)) ch) (co_chan co) (channels w))
    (set_heap (<[id:=with_state invalid q]> (heap w)) w))) ->
  Inv past' w'.
Proof.
  intros I Hp Hco Hq Hch Hr Hrf ->. destruct I.
  destruct (inv_co0 _ _ Hco) as (q0 & Hq0 & Hsl & Hb).
  assert (q0 = q) as -> by congruence. clear Hq0.
  destruct (inv_slot0 _ _ _ Hsl) as (q0 & Hq0 & Hk & Hf & _).
  assert (q0 = q) as -> by congruence. clear Hq0.
  assert (length (outstandingRequests ch) = 64%nat) as Hlen
    by (eapply inv_len0; unfold slots; rewrite list_lookup_fmap, Hch; reflexivity).
  assert (Z.to_nat (q_seq q) < length (outstandingRequests ch))%nat as Hlt.
  { apply slot_of_lookup in Hsl as (ch' & E & H). rewrite Hch in E. injection E as <-.
    by eapply lookup_lt_Some. }
  match goal with |- Inv _ ?w' => set (w2 := w') end.
  assert (forall c' k', slot_of w2 c' k' =
    if decide (c' = co_chan co /\ k' = Z.to_nat (q_seq q)) then None else slot_of w c' k') as Hs
    by (intros; apply (slot_of_set w _ _ _ ch); done).
  assert (forall c' k' i, slot_of w2 c' k' = Some i -> i <> id /\ slot_of w c' k' = Some i) as Hne.
  { intros c' k' i H. rewrite Hs in H. case_decide as Hd; [done|]. split; [|done].
    intros ->. apply Hd. destruct (inv_slot0 _ _ _ H) as (q0 & E & Hk' & _).
    split; [by eapply inv_inj0|]. assert (q0 = q) as -> by congruence. lia. }
  split; try done.
  - intros c' l H. unfold slots in H. simpl in H. rewrite list_lookup_fmap in H.
    destruct (decide (c' = co_chan co)) as [->|Hc].
    + rewrite list_lookup_alter_eq, Hch in H. simpl in H. injection H as <-.
      by rewrite length_insert.
    + rewrite list_lookup_alter_ne in H by done. eapply inv_len0. unfold slots.
      rewrite list_lookup_fmap. exact H.
  - intros c' k' i H. apply Hne in H as [Hi H].
    destruct (inv_slot0 _ _ _ H) as (q0 & H1 & H2 & H3 & Ha & H4). exists q0. simpl.
    rewrite lookup_insert_ne by done. do 3 (split; [done|]).
    split; [by eapply some_asked_mono|].
    destruct H4 as [H4|(H4 & p & H5 & H6)]; [by left|]. right. split; [done|].
    exists p. split; [done|]. by eapply answers_mono.
  - intros c1 k1 c2 k2 i H1 H2. apply Hne in H1 as [_ H1], H2 as [_ H2]. by eapply inv_inj0.
  - intros i co0 H. simpl in H. apply lookup_delete_Some in H as [Hi H].
    destruct (inv_co0 _ _ H) as (q0 & H1 & H2 & H3). exists q0. simpl.
    rewrite lookup_insert_ne by done. split; [done|]. split; [|done].
    rewrite Hs. case_decide as Hd; [|done]. destruct Hd as [E1 E2]. congruence.
  - intros i co0 H. simpl in H. apply lookup_delete_Some in H as [_ H]. by eapply inv_at0.
  - simpl. rewrite length_alter. done.
  - simpl. apply NoDup_cons. split; [|done]. intros H.
    apply list_elem_of_omap in H as (o & Ho & E). destruct o; simplify_eq.
    destruct (inv_replied0 _ _ Ho) as (H1 & _). congruence.
  - intros i r' H. simpl in H. apply elem_of_cons in H as [[= -> ->]|H]; [done|by eapply inv_failed0].
  - intros i r' H. simpl in H. apply elem_of_cons in H as [[= -> ->]|H].
    + simpl. rewrite lookup_delete_eq. split; [done|]. split; [done|]. intros H0.
      destruct (Hr H0) as (p & Hp1 & ->). exists (co_chan co), (with_state invalid q), p.
      rewrite lookup_insert_eq. split; [done|]. split; [|done]. by eapply answers_mono.
    + destruct (inv_replied0 _ _ H) as (H1 & H2 & H3). assert (i <> id) as Hi by congruence.
      simpl. rewrite lookup_delete_ne by done. split; [done|]. split; [done|].
      intros H0. destruct (H3 H0) as (c' & q0 & p & H4 & H5 & H6). exists c', q0, p.
      rewrite lookup_insert_ne by done. split; [done|]. split; [|done].
      by eapply answers_mono.
Qed.

(** ** Operations on slots *)
Definition has_slots (w : World) (c : nat) : Prop :=
  exists ch, channels w !! c = Some ch /\ length (outstandingRequests ch) = 64%nat.

Lemma Inv_has_slots past w c :
  Inv past w -> (c < length (channels w))%nat -> has_slots w c.
Proof.
  intros I Hc. apply lookup_lt_is_Some in Hc as [ch Hch]. exists ch. split; [done|].
  eapply (inv_len _ _ I c). unfold slots. rewrite list_lookup_fmap, Hch. reflexivity.
Qed.

Lemma slot_Ret w c seq :
  has_slots w c -> 0 <= seq < 64 -> slot c seq w = Ret (slot_of w c (Z.to_nat seq)) w.
Proof.
  intros (ch & Hch & Hl) Hs. unfold slot, this, bind, slot_of, slots.
  rewrite list_lookup_fmap, Hch. simpl.
  destruct (lookup_lt_is_Some_2 (outstandingRequests ch) (Z.to_nat seq)) as [v Hv]; [lia|].
  rewrite Hv. simpl. by destruct v.
Qed.

Lemma set_slot_Ret w c seq v :
  has_slots w c -> 0 <= seq < 64 ->
  set_slot c seq v w = Ret tt (set_channels (alter
    (fun ch => set_slots (<[Z.to_nat seq:=v]> (outstandingRequests ch)) ch) c (channels w)) w).
Proof. intros H Hs. unfold set_slot, bind. rewrite slot_Ret by done. reflexivity. Qed.

(** The scan visits the slots after [seqNum] in cyclic order. *)
Definition visited (w : World) (j : nat) : nat := Z.to_nat ((seqNum w + Z.of_nat j) mod 64).

Lemma seqNumGet_loop_spec c n w :
  has_slots w c -> 0 <= seqNum w < 64 ->
  runs_to (seqNumGet_loop c n) w (fun o w' =>
    exists j, (j <= n)%nat /\ w' = set_seqNum ((seqNum w + Z.of_nat j) mod 64) w /\
      (forall i, (0 < i < j)%nat -> slot_of w c (visited w i) <> None) /\
      match o with
      | Some s => (0 < j)%nat /\ s = (seqNum w + Z.of_nat j) mod 64 /\
          slot_of w c (visited w j) = None
      | None => j = n /\ ((0 < n)%nat -> slot_of w c (visited w n) <> None)
      end).
Proof.
  revert w. induction n as [|n IH]; intros w Hs Hq.
  - exists 0%nat. rewrite Z.add_0_r, Z.mod_small by done.
    split; [done|]. split; [by destruct w|]. split; [lia|]. split; [done|]. lia.
  - cbn [seqNumGet_loop]. set (w1 := set_seqNum ((seqNum w + 1) mod 64) w).
    assert (0 <= seqNum w1 < 64) as Hq1 by (apply Z.mod_pos_bound; lia).
    unfold runs_to, bind, modify, get. change (modify _ w) with (Ret (S:=World) tt w1).
    change ipmbMaxOutstandingRequestsCount with 64. fold w1.
    rewrite (slot_Ret w1) by done. change (slot_of w1 c) with (slot_of w c).
    assert (forall i, visited w1 i = visited w (S i)) as Hv.
    { intros i. unfold visited, w1. simpl. rewrite Zplus_mod_idemp_l. do 2 f_equal. lia. }
    change (Z.to_nat (seqNum w1)) with (Z.to_nat ((seqNum w + Z.of_nat 1) mod 64)).
    fold (visited w 1). destruct (slot_of w c (visited w 1)) as [x|] eqn:E.
    + specialize (IH w1 Hs Hq1). unfold runs_to in IH.
      destruct (seqNumGet_loop c n w1) as [o w'| |]; [|done..].
      destruct IH as (j & Hj & -> & Hocc & Ho). exists (S j). split; [lia|]. split.
      { unfold w1. simpl. unfold set_seqNum. simpl. f_equal.
        rewrite Zplus_mod_idemp_l. f_equal. lia. }
      assert (forall i, (0 < i <= j)%nat -> (i = j -> slot_of w c (visited w (S i)) <> None) ->
        slot_of w c (visited w (S i)) <> None) as Hocc'.
      { intros i Hi Hl. destruct (decide (i = j)) as [->|Hn]; [by apply Hl|].
        rewrite <- Hv. apply (Hocc i). lia. }
      destruct o as [s|].
      * destruct Ho as (Hj0 & -> & Hn). split.
        { intros [|[|i]] Hi; [lia|congruence|]. rewrite <- Hv. apply (Hocc (S i)). lia. }
        split; [lia|]. rewrite <- Hv. split; [|done]. unfold w1. simpl.
        rewrite Zplus_mod_idemp_l. f_equal. lia.
      * destruct Ho as (-> & Hn). split.
        { intros [|[|i]] Hi; [lia|congruence|]. rewrite <- Hv. apply (Hocc (S i)). lia. }
        split; [done|]. intros _. destruct n as [|n]; [congruence|]. rewrite <- Hv.
        apply Hn. lia.
    + exists 1%nat. split; [lia|]. split; [done|]. split; [lia|]. split; [lia|]. done.
Qed.

(** A call turned away: nothing is stored under its identity. *)
Lemma Inv_reject past past' w w' r :
  Inv past w -> past `prefix_of` past' -> slots w' = slots w -> heap w' = heap w ->
  coroutines w' = delete (fresh w) (coroutines w) -> 0 <= seqNum w' < 64 ->
  (fresh w < fresh w')%nat -> out w' = OReply (fresh w) r :: out w -> r_status r <> 0 ->
  failure r -> refs_ok w' -> Inv past' w'.
Proof.
  intros I Hp Hs Hh Hc Hq Hf Ho Hr Hrf Hrefs.
  assert (coroutines w !! fresh w = None) as Hnone.
  { destruct (coroutines w !! fresh w) eqn:E; [|done].
    destruct (inv_co _ _ I _ _ E) as (? & _ & H & _).
    destruct (inv_slot _ _ I _ _ _ H) as (? & _ & _ & ? & _). lia. }
  rewrite delete_id in Hc by done.
  assert (Inv past' (set_out (out w) w')) as I'
    by (eapply (Inv_frame _ _ _ _ []); try done; simpl; try lia; try apply Hrefs; apply I).
  destruct I'. split; simpl in *; try done.
  - rewrite Ho. simpl. apply NoDup_cons. split; [|done]. intros H.
    apply list_elem_of_omap in H as (o & Ho' & E). destruct o; simplify_eq.
    destruct (inv_replied _ _ I _ _ Ho') as (_ & ? & _). lia.
  - intros i r' H. rewrite Ho in H.
    apply elem_of_cons in H as [[= -> ->]|H]; [done|by eapply inv_failed0].
  - intros i r' H. rewrite Ho in H. apply elem_of_cons in H as [[= -> ->]|H]; [|by apply inv_replied0].
    rewrite Hc, Hnone. split; [done|]. split; [lia|]. done.
Qed.

Lemma find_channel_lt w rc c : find_channel w rc = Some c -> (c < length (channels w))%nat.
Proof.
  unfold find_channel. destruct (list_find _ _) as [[i ch]|] eqn:E; [|done].
  intros [= <-]. apply list_find_Some in E as (H & _). by eapply lookup_lt_Some.
Qed.

Lemma refs_frame w w' :
  refs_ok w -> sends w' = sends w -> hostcalls w' = hostcalls w ->
  (length (channels w) <= length (channels w'))%nat -> refs_ok w'.
Proof.
  intros [H1 H2] Hs Hh Hl. split; intros i x; rewrite ?Hs, ?Hh; intros H.
  - specialize (H1 _ _ H). lia.
  - specialize (H2 _ _ H). lia.
Qed.

(** *** [sendRequest] *)

(** The world in which a request is stored: the address switch of the channel
    and the sequence counter are the only changes before it. *)
Definition readdressed (w : World) (c : nat) (addr : Z) : World :=
  match channels w !! c with
  | Some ch => if negb (ipmbRqSlaveAddress ch =? addr) && negb (addr =? 0x40)
               then set_channels (alter (set_rqSlaveAddress addr) c (channels w)) w else w
  | None => w
  end.

Lemma readdressed_slots w c addr : slots (readdressed w c addr) = slots w.
Proof.
  unfold readdressed. destruct (channels w !! c); [|done].
  destruct (_ && _); [|done]. by apply slots_alter_attr.
Qed.

Lemma readdressed_channel w c addr ch :
  channels w !! c = Some ch ->
  channels (readdressed w c addr) !! c = Some
    (if negb (ipmbRqSlaveAddress ch =? addr) && negb (addr =? 0x40)
     then set_rqSlaveAddress addr ch else ch).
Proof.
  intros H. unfold readdressed. rewrite H. destruct (_ && _); [|done].
  simpl. by rewrite list_lookup_alter_eq, H.
Qed.

Lemma readdressed_other w c addr :
  let w' := readdressed w c addr in
  seqNum w' = seqNum w /\ heap w' = heap w /\ coroutines w' = coroutines w /\
  hostcalls w' = hostcalls w /\ sends w' = sends w /\ fresh w' = fresh w /\
  out w' = out w /\ unhandledCommands w' = unhandledCommands w /\
  length (channels w') = length (channels w).
Proof.
  unfold readdressed. destruct (channels w !! c); [|by repeat split].
  destruct (_ && _); simpl; rewrite ?length_alter; by repeat split.
Qed.

(** What [ipmbHandleRequest] does on a channel that exists, as one
    transition: [j] slots are scanned; then the call is turned away, or the
    request is stored and serialised. *)
Definition stored_request (w : World) (c : nat) (addr netfn lun cmd seq : Z) (data : list Z)
  : IpmbRequest :=
  match channels (readdressed w c addr) !! c with
  | Some ch => mkIpmbRequest (ipmbRqSlaveAddress ch) netfn ipmbRsLun
                 (ipmbBmcSlaveAddress ch) seq lun cmd data
  | None => mkIpmbRequest 0 netfn ipmbRsLun 0 seq lun cmd data
  end.

Definition accepted (w : World) (c : nat) (addr : Z) (q : IpmbRequest) : World :=
  let id := fresh w in
  let w1 := set_seqNum (q_seq q) (set_fresh (S id) (readdressed w c addr)) in
  let w2 := set_heap (<[id:=with_state valid q]> (<[id:=q]> (heap w))) w1 in
  let w3 := set_channels (alter (fun ch =>
    set_slots (<[Z.to_nat (q_seq q):=Some id]> (outstandingRequests ch)) ch) c (channels w2)) w2 in
  match request_frame_of q with
  | Some b => set_coroutines (<[id:={| co_chan := c; co_buffer := b; co_at := InWrite 0 0 |}]>
                (coroutines w)) (set_out (OWrite c b :: out w) w3)
  | None => set_coroutines (delete id (coroutines w))
              (set_out (OReply id (returnStatus error) :: out w) w3)
  end.

Definition rejected (w : World) (c : nat) (addr : Z) (seq : Z) : World :=
  let id := fresh w in
  set_coroutines (delete id (coroutines w))
    (set_out (OReply id (returnStatus busy) :: out w)
       (set_seqNum seq (set_fresh (S id) (readdressed w c addr)))).

Lemma requestAdd_eq w id c q :
  has_slots w c -> heap w !! id = Some q -> 0 <= q_seq q < 64 ->
  let w1 := set_heap (<[id:=with_state valid q]> (heap w)) w in
  let w2 := set_channels (alter (fun ch =>
    set_slots (<[Z.to_nat (q_seq q):=Some id]> (outstandingRequests ch)) ch) c (channels w1)) w1 in
  requestAdd id c w = Ret tt
    match request_frame_of q with
    | Some b => set_coroutines (<[id:={| co_chan := c; co_buffer := b; co_at := InWrite 0 0 |}]>
                  (coroutines w)) (set_out (OWrite c b :: out w) w2)
    | None => set_coroutines (delete id (coroutines w))
                (set_out (OReply id (returnStatus error) :: out w) w2)
    end.
Proof.
  intros Hs Hq Hk w1 w2. unfold requestAdd, makeRequestValid, bind.
  unfold request_at at 1. rewrite Hq. simpl of_option. unfold ret. cbv beta iota.
  change (store_request id (with_state valid q) w) with (Ret (S:=World) tt w1). cbv beta iota.
  rewrite set_slot_Ret by done. cbv beta iota. fold w2.
  unfold request_at. change (heap w2) with (<[id:=with_state valid q]> (heap w)).
  rewrite lookup_insert_eq. simpl of_option. unfold ret. cbv beta iota.
  rewrite request_construct_eq. change (request_frame_of (with_state valid q)) with (request_frame_of q).
  by destruct (request_frame_of q).
Qed.

Lemma this_Ret w c ch : channels w !! c = Some ch -> this c w = Ret ch w.
Proof. intros H. unfold this. by rewrite H. Qed.

(** One round of the scan visits every slot. *)
Lemma visited_all w k :
  0 <= seqNum w < 64 -> (k < 64)%nat -> exists i, (0 < i <= 64)%nat /\ visited w i = k.
Proof.
  intros Hq Hk. exists (Z.to_nat ((Z.of_nat k - seqNum w - 1) mod 64 + 1)). unfold visited.
  pose proof (Z.mod_pos_bound (Z.of_nat k - seqNum w - 1) 64). split; [lia|].
  rewrite Z2Nat.id by lia.
  replace (seqNum w + ((Z.of_nat k - seqNum w - 1) mod 64 + 1))
    with ((seqNum w + 1) + (Z.of_nat k - seqNum w - 1) mod 64) by lia.
  rewrite Zplus_mod_idemp_r. rewrite Z.mod_small by lia. lia.
Qed.

(** [seqNumGet]: the next free slot after [seqNum] in cyclic order, or none
    when all 64 are taken. *)
Lemma seqNumGet_spec c w :
  has_slots w c -> 0 <= seqNum w < 64 ->
  (exists j, (0 < j <= 64)%nat /\
     seqNumGet c w = Ret (Some ((seqNum w + Z.of_nat j) mod 64))
                         (set_seqNum ((seqNum w + Z.of_nat j) mod 64) w) /\
     slot_of w c (visited w j) = None /\
     forall i, (0 < i < j)%nat -> slot_of w c (visited w i) <> None) \/
  (seqNumGet c w = Ret None w /\ forall k, (k < 64)%nat -> slot_of w c k <> None).
Proof.
  intros Hs Hq. pose proof (seqNumGet_loop_spec c 64 w Hs Hq) as Hspec. unfold runs_to in Hspec.
  unfold seqNumGet. change (Z.to_nat ipmbMaxOutstandingRequestsCount) with 64%nat.
  destruct (seqNumGet_loop c 64 w) as [o w'| |]; [|done..].
  destruct Hspec as (j & Hj & -> & Hocc & Ho). destruct o as [seq|].
  - destruct Ho as (Hj0 & -> & Hn). left. exists j. split; [lia|]. done.
  - destruct Ho as (-> & Hlast). right. split.
    + f_equal. change (Z.of_nat 64) with (1 * 64). rewrite Z.mod_add, Z.mod_small by lia.
      by destruct w.
    + intros k Hk. destruct (visited_all w k Hq Hk) as (i & Hi & <-).
      destruct (decide (i = 64)%nat) as [->|Hne]; [apply Hlast; lia|]. apply Hocc. lia.
Qed.

Lemma handleRequest_cases past w rc c addr netfn lun cmd data :
  Inv past w -> find_channel w rc = Some c ->
  let res := ipmbHandleRequest rc addr netfn lun cmd data w in
  (exists j, (0 < j <= 64)%nat /\
     let seq := (seqNum w + Z.of_nat j) mod 64 in
     slot_of w c (visited w j) = None /\
     (forall i, (0 < i < j)%nat -> slot_of w c (visited w i) <> None) /\
     res = Ret (fresh w) (accepted w c addr (stored_request w c addr netfn lun cmd seq data))) \/
  ((forall k, (k < 64)%nat -> slot_of w c k <> None) /\
   res = Ret (fresh w) (rejected w c addr (seqNum w))).
Proof.
  intros I Hc. cbv zeta. unfold ipmbHandleRequest.
  destruct (Inv_has_slots _ _ _ I (find_channel_lt _ _ _ Hc)) as (ch & Hch & Hlen).
  set (w0 := set_fresh (S (fresh w)) w). set (w1 := set_fresh (S (fresh w)) (readdressed w c addr)).
  rewrite (bind_Ret _ _ w (fresh w) w0) by reflexivity.
  rewrite (bind_Ret _ _ w0 (Some c) w0) by (unfold getChannel; by rewrite <- Hc).
  rewrite (bind_Ret _ _ w0 c w0) by reflexivity.
  rewrite (bind_Ret _ _ w0 ch w0) by (by apply this_Ret).
  rewrite (bind_Ret _ _ w0 tt w1)
    by (unfold w1, readdressed; rewrite Hch; by destruct (_ && _)).
  pose proof (readdressed_channel _ _ addr _ Hch) as Hch1.
  destruct (readdressed_other w c addr) as (Eq & Eh & Eco & Ehc & Es & Ef & Eo & Eu & El).
  assert (has_slots w1 c) as Hs1
    by (eexists; split; [exact Hch1|]; by destruct (_ && _)).
  assert (forall k, slot_of w1 c k = slot_of w c k) as Hsl
    by (intros; unfold slot_of, slots, w1; simpl; fold (slots (readdressed w c addr));
        by rewrite readdressed_slots).
  assert (forall i, visited w1 i = visited w i) as Hv
    by (intros; unfold visited, w1; simpl; by rewrite Eq).
  assert (0 <= seqNum w1 < 64) as Hq1 by (unfold w1; simpl; rewrite Eq; apply I).
  assert (seqNum w1 = seqNum w) as Eq1 by exact Eq.
  destruct (seqNumGet_spec c w1 Hs1 Hq1) as [(j & Hj & E & Hn & Hocc)|[E Hfull]];
    rewrite (bind_Ret _ _ _ _ _ E); [left; exists j|right].
  - rewrite Eq1 in *. rewrite Hsl, Hv in Hn. split; [done|]. split; [done|].
    split; [intros i Hi; rewrite <- Hsl, <- Hv; by apply Hocc|].
    set (seq := (seqNum w + Z.of_nat j) mod 64). cbv beta iota. set (w2 := set_seqNum seq w1).
    rewrite (bind_Ret _ _ w2 _ w2) by (apply this_Ret; exact Hch1).
    unfold accepted, stored_request. rewrite Hch1. set (q := mkIpmbRequest _ _ _ _ _ _ _ _).
    rewrite (bind_Ret _ _ w2 tt (set_heap (<[fresh w:=q]> (heap w2)) w2)) by reflexivity.
    erewrite bind_Ret; [|apply (requestAdd_eq _ _ _ q); [exact Hs1|simpl; by rewrite lookup_insert_eq|]].
    + simpl. rewrite Eh, Eo, Eco. reflexivity.
    + apply Z.mod_pos_bound. lia.
  - split; [intros k Hk; rewrite <- Hsl; by apply Hfull|]. unfold rejected.
    rewrite <- Eq1, <- Eo, <- Eco. reflexivity.
Qed.

Lemma accepted_channels w c addr q :
  channels (accepted w c addr q) = alter (fun ch =>
    set_slots (<[Z.to_nat (q_seq q):=Some (fresh w)]> (outstandingRequests ch)) ch) c
    (channels (readdressed w c addr)).
Proof. unfold accepted. by destruct (request_frame_of q). Qed.

Lemma accepted_slots w c addr q c' k' :
  has_slots w c -> 0 <= q_seq q < 64 ->
  slot_of (accepted w c addr q) c' k' =
  if decide (c' = c /\ k' = Z.to_nat (q_seq q)) then Some (fresh w) else slot_of w c' k'.
Proof.
  intros (ch & Hch & Hlen) Hq.
  assert (exists ch1, channels (readdressed w c addr) !! c = Some ch1 /\
    outstandingRequests ch1 = outstandingRequests ch) as (ch1 & Hch1 & Hout)
    by (eexists; split; [exact (readdressed_channel _ _ addr _ Hch)|by destruct (_ && _)]).
  replace (slot_of w c' k') with (slot_of (readdressed w c addr) c' k')
    by (unfold slot_of; by rewrite readdressed_slots).
  change (slot_of (accepted w c addr q) c' k') with
    (slot_of (set_channels (channels (accepted w c addr q)) (readdressed w c addr)) c' k').
  rewrite accepted_channels. apply (slot_of_set (readdressed w c addr) c _ _ ch1); [done|].
  rewrite Hout. lia.
Qed.

Lemma stored_request_seq w c addr netfn lun cmd seq data :
  q_seq (stored_request w c addr netfn lun cmd seq data) = seq.
Proof. unfold stored_request. by destruct (channels (readdressed w c addr) !! c). Qed.

(** The request that is stored is the one that was asked for. *)
Lemma stored_request_asked past w rc c addr netfn lun cmd seq data :
  reachable past w -> find_channel w rc = Some c ->
  asked (past ++ [EvSendRequest rc addr netfn lun cmd data]) [] (fresh w) c
    (with_state valid (stored_request w c addr netfn lun cmd seq data)).
Proof.
  intros R Hc. exists past, w, rc, addr.
  unfold stored_request. by destruct (channels (readdressed w c addr) !! c).
Qed.

Lemma accepted_Inv past w rc c addr netfn lun cmd data j :
  Inv past w -> reachable past w -> find_channel w rc = Some c ->
  slot_of w c (visited w j) = None ->
  Inv (past ++ [EvSendRequest rc addr netfn lun cmd data]) (accepted w c addr
    (stored_request w c addr netfn lun cmd ((seqNum w + Z.of_nat j) mod 64) data)).
Proof.
  intros I R Hfc Hn. pose proof (find_channel_lt _ _ _ Hfc) as Hc.
  destruct (Inv_has_slots _ _ _ I Hc) as (ch & Hch & Hlen).
  set (seq := (seqNum w + Z.of_nat j) mod 64) in *.
  assert (0 <= seq < 64) as Hseq by (apply Z.mod_pos_bound; lia).
  set (q := stored_request w c addr netfn lun cmd seq data).
  assert (q_seq q = seq) as Hqs by apply stored_request_seq.
  destruct (readdressed_other w c addr) as (Eq & Eh & Eco & Ehc & Es & Ef & Eo & Eu & El).
  set (w' := accepted w c addr q).
  assert (forall c' k', slot_of w' c' k' =
    if decide (c' = c /\ k' = visited w j) then Some (fresh w) else slot_of w c' k') as Hslots.
  { intros c' k'. change (visited w j) with (Z.to_nat seq). rewrite <- Hqs.
    apply accepted_slots; [by exists ch|by rewrite Hqs]. }
  eapply (Inv_alloc past _ w w' c (visited w j) (with_state valid q)
    (match request_frame_of q with Some b => [OWrite c b] | None => [] end)
    ((fun b => {| co_chan := c; co_buffer := b; co_at := InWrite 0 0 |}) <$> request_frame_of q)
    I (past_grows _ _)); try done.
  - eapply refs_frame; [apply I|..]; unfold w', accepted; destruct (request_frame_of q);
      simpl; rewrite ?length_alter, ?El; done.
  - intros c' l Hl. unfold slots in Hl. unfold w' in Hl. rewrite accepted_channels in Hl.
    rewrite list_lookup_fmap in Hl. rewrite <- (readdressed_slots w c addr).
    unfold slots. rewrite list_lookup_fmap.
    destruct (decide (c' = c)) as [->|Hne].
    + rewrite list_lookup_alter_eq in Hl. destruct (channels (readdressed w c addr) !! c); [|done].
      injection Hl as <-. eexists. split; [reflexivity|]. by rewrite length_insert.
    + rewrite list_lookup_alter_ne in Hl by done. eauto.
  - change (q_seq q = Z.of_nat (visited w j)). rewrite Hqs. unfold visited. fold seq. lia.
  - exists []. by apply stored_request_asked.
  - unfold w', accepted. destruct (request_frame_of q); simpl; by rewrite insert_insert_eq.
  - unfold w', accepted. destruct (request_frame_of q); simpl; lia.
  - unfold w', accepted. destruct (request_frame_of q); simpl; by rewrite Hqs.
  - unfold w', accepted. destruct (request_frame_of q) as [b|] eqn:Eb; simpl.
    + split; [done|]. split; [done|].
      split; [split; unfold ipmbNumberOfTries, ipmbI2cNumberOfRetries; lia|].
      split; [|by repeat constructor].
      rewrite request_construct_eq. change (request_frame_of _) with (request_frame_of q).
      by rewrite Eb.
    + split; [done|]. split; [done|]. constructor.
Qed.

Lemma rejected_Inv past past' w c addr :
  Inv past w -> past `prefix_of` past' -> Inv past' (rejected w c addr (seqNum w)).
Proof.
  intros I Hp.
  destruct (readdressed_other w c addr) as (Eq & Eh & Eco & Ehc & Es & Ef & Eo & Eu & El).
  eapply (Inv_reject _ _ w _ (returnStatus busy)); try done; try (by exists busy); unfold rejected; simpl; try lia.
  - apply (readdressed_slots w c addr).
  - apply I.
  - eapply refs_frame; [apply I|..]; simpl; rewrite ?El; done.
Qed.

(** *** The other events *)
(** The worlds in which running an event is undefined behaviour: a request
    for a channel that is not configured (the pointer is used before it is
    tested), and a valid response frame without a completion code. *)
Definition undefined_event (w : World) (e : Event) : option fault :=
  match e with
  | EvSendRequest rc _ _ _ _ _ =>
      match find_channel w rc with None => Some NullDeref | Some _ => None end
  | EvReadable c ec frame =>
      match channels w !! c, frame with
      | None, _ => Some NullDeref
      | Some ch, Some frame =>
          if waiting ch && negb ec && (length frame =? 8)%nat &&
             sums_vanish (rx_header frame) 7 &&
             match ipmbIsResponse (rx_header frame) tt with Ret b _ => b | _ => false end
          then Some OutOfBounds else None
      | _, _ => None
      end
  | _ => None
  end.

Lemma makeRequestInvalid_Ret w c id q :
  has_slots w c -> heap w !! id = Some q -> 0 <= q_seq q < 64 ->
  makeRequestInvalid c id w = Ret tt
    (set_channels (alter (fun ch =>
       set_slots (<[Z.to_nat (q_seq q):=None]> (outstandingRequests ch)) ch) c (channels w))
       (set_heap (<[id:=with_state invalid q]> (heap w)) w)).
Proof.
  intros Hs Hq Hk. unfold makeRequestInvalid.
  rewrite (bind_Ret _ _ w q w) by (unfold request_at; by rewrite Hq).
  rewrite (bind_Ret _ _ w tt (set_heap (<[id:=with_state invalid q]> (heap w)) w)) by reflexivity.
  exact (set_slot_Ret (set_heap _ w) c (q_seq q) None Hs Hk).
Qed.

(** What the invariant knows about a suspended coroutine. *)
Lemma Inv_coroutine past w id co :
  Inv past w -> coroutines w !! id = Some co ->
  exists q, heap w !! id = Some q /\ has_slots w (co_chan co) /\ 0 <= q_seq q < 64 /\
    slot_of w (co_chan co) (Z.to_nat (q_seq q)) = Some id /\
    (q_state q = valid \/ q_state q = matched /\
       exists p, q_matchedResponse q = Some p /\ answers past id (co_chan co) q p).
Proof.
  intros I Hco. destruct (inv_co _ _ I _ _ Hco) as (q & Hq & Hsl & Hb). exists q.
  destruct (inv_slot _ _ I _ _ _ Hsl) as (q' & Hq' & Hk & Hf & _ & Hst).
  assert (q' = q) as -> by congruence.
  destruct (proj1 (slot_of_lookup _ _ _ _) Hsl) as (ch & Hch & Hlk).
  assert (has_slots w (co_chan co)) as Hs
    by (eapply Inv_has_slots; [done|]; by eapply lookup_lt_Some).
  destruct Hs as (ch' & Hch' & Hlen). assert (ch' = ch) as -> by congruence.
  pose proof (lookup_lt_Some _ _ _ Hlk). split; [done|].
  split; [by exists ch|]. split; [lia|]. split; done.
Qed.

(** Slots keep their request, except those of the requests in [P]. *)
Definition keeps_slots (P : nat -> Prop) (w w' : World) : Prop :=
  forall c k i, slot_of w c k = Some i -> ~ P i -> slot_of w' c k = Some i.

Lemma keeps_slots_eq P w w' : slots w' = slots w -> keeps_slots P w w'.
Proof. intros E c k i H _. unfold slot_of. by rewrite E. Qed.

(** The end of a coroutine: invalidate, then answer. *)
Lemma finish_runs past past' w id co q r :
  Inv past w -> past `prefix_of` past' -> coroutines w !! id = Some co -> heap w !! id = Some q ->
  has_slots w (co_chan co) -> 0 <= q_seq q < 64 ->
  (r_status r = 0 -> exists p, answers past id (co_chan co) q p /\ r = reply_of p) ->
  (r_status r <> 0 -> failure r) ->
  runs_to (makeRequestInvalid (co_chan co) id) w (fun _ w1 =>
    heap w1 !! id = Some (with_state invalid q) /\
    runs_to (reply id r) w1 (fun _ w2 => Inv past' w2 /\ coroutines w2 = delete id (coroutines w) /\
      out w2 = OReply id r :: out w /\ keeps_slots (eq id) w w2)).
Proof.
  intros I Hp Hco Hq Hs Hk Hr Hrf. unfold runs_to. rewrite (makeRequestInvalid_Ret _ _ _ q) by done.
  split; [simpl; by rewrite lookup_insert_eq|]. destruct Hs as (ch & Hch & Hlen).
  split; [by eapply Inv_finish|]. split; [done|]. split; [done|].
  destruct (inv_co _ _ I _ _ Hco) as (q' & Hq' & Hsl & _). assert (q' = q) as -> by congruence.
  intros c k i H Hne.
  match goal with |- slot_of ?x _ _ = _ => change (slot_of x c k) with
    (slot_of (set_channels (alter (fun ch => set_slots (<[Z.to_nat (q_seq q):=None]>
      (outstandingRequests ch)) ch) (co_chan co) (channels w)) w) c k) end.
  rewrite (slot_of_set w _ _ _ ch) by (done || lia). rewrite decide_False; [done|].
  intros [-> ->]. congruence.
Qed.

(** How the end of a wait leaves coroutine [id]: gone and answered, or in the
    first write of the next try. *)
Definition timer_post (past : list Event) (w : World) (id : nat) (co : Coroutine) (i : nat)
    (_ : unit) (w' : World) : Prop :=
  Inv past w' /\
  ((exists r, coroutines w' = delete id (coroutines w) /\ out w' = OReply id r :: out w /\
      keeps_slots (eq id) w w') \/
   ((S i < ipmbNumberOfTries)%nat /\ slots w' = slots w /\ coroutines w' = <[id := {| co_chan := co_chan co;
      co_buffer := co_buffer co; co_at := InWrite (S i) 0 |}]> (coroutines w) /\
    out w' = OWrite (co_chan co) (co_buffer co) :: out w)).

Lemma resume_timer_runs past past' w id co i ec :
  Inv past w -> past `prefix_of` past' -> coroutines w !! id = Some co ->
  runs_to (resume_timer id co i ec) w (timer_post past' w id co i).
Proof.
  intros I Hp Hco. destruct (Inv_coroutine _ _ _ _ I Hco) as (q & Hq & Hs & Hk & Hsl & Hst).
  assert (forall r, r_status r <> 0 -> failure r ->
    runs_to (makeRequestInvalid (co_chan co) id ;;; reply id r) w
      (timer_post past' w id co i)) as Hfail.
  { intros r Hr Hrf. apply runs_to_bind. eapply runs_to_mono; [by eapply finish_runs|].
    intros _ w1 [_ H]. eapply runs_to_mono; [exact H|].
    intros [] w2 (HI & Hc & Ho & Hsk). split; [done|]. left. by exists r. }
  assert (runs_to (if Nat.ltb (S i) ipmbNumberOfTries
       then start_write id (co_chan co) (co_buffer co) (S i) 0
       else makeRequestInvalid (co_chan co) id ;;; reply id (returnStatus timeout)) w
      (timer_post past' w id co i)) as Hretry.
  { destruct (Nat.ltb_spec (S i) ipmbNumberOfTries) as [Hi|_]; [|by apply Hfail; [|exists timeout]].
    unfold runs_to, start_write, bind, async_write, emit, modify, suspend. simpl.
    split; [|right; by split].
    eapply (Inv_suspend _ _ _ _ _ _ _ [OWrite _ _] I Hp Hco); [..|reflexivity];
      [done|done| |by repeat constructor].
    split; [done|unfold ipmbI2cNumberOfRetries; lia]. }
  unfold resume_timer. destruct ec; [| |by apply Hfail; [|exists error]].
  all: apply runs_to_bind; unfold runs_to at 1, request_at; rewrite Hq; simpl of_option; unfold ret.
  all: destruct (q_state q) eqn:Est; try exact Hretry.
  all: destruct Hst as [?|(_ & p & Hp1 & Hp2)]; [discriminate|].
  all: apply runs_to_bind; eapply runs_to_mono;
    [by eapply (finish_runs _ past' _ _ _ _ (reply_of p)); eauto|].
  all: intros _ w1 [Hq1 H]; unfold runs_to.
  all: rewrite (bind_Ret _ _ w1 (with_state invalid q) w1) by (by rewrite Hq1).
  all: rewrite (bind_Ret _ _ w1 (reply_of p) w1)
    by (unfold returnMatchedResponse; cbn [q_matchedResponse with_state]; by rewrite Hp1).
  all: eapply runs_to_mono; [exact H|].
  all: intros [] w2 (HI & Hc & Ho & Hsk); split; [done|]; left; by eexists.
Qed.

(** *** Calm operations

    The rest of the daemon touches neither slots, requests nor coroutines:
    it writes frames, calls the host, arms descriptors and changes
    addresses. *)
Record calm (w w' : World) : Prop := {
  calm_slots : slots w' = slots w;
  calm_heap : heap w' = heap w;
  calm_co : coroutines w' = coroutines w;
  calm_seq : seqNum w' = seqNum w;
  calm_fresh : (fresh w <= fresh w')%nat;
  calm_refs : refs_ok w -> refs_ok w';
  calm_len : length (channels w') = length (channels w);
  calm_out : exists os, out w' = os ++ out w /\ Forall quiet os }.

#[export] Instance calm_refl : Reflexive calm.
Proof. intros w. split; try done. by exists []. Qed.

#[export] Instance calm_trans : Transitive calm.
Proof.
  intros w1 w2 w3 [] [H1 H2 H3 H4 H5 H6 H7 (os2 & Ho2 & Hq2)].
  destruct calm_out0 as (os1 & Ho1 & Hq1).
  split; try congruence; [lia|auto|]. exists (os2 ++ os1). rewrite Ho2, Ho1, app_assoc.
  split; [done|]. by apply Forall_app.
Qed.

Lemma Inv_calm past past' w w' : Inv past w -> past `prefix_of` past' -> calm w w' -> Inv past' w'.
Proof.
  intros I Hp C. destruct (calm_out _ _ C) as (os & Ho & Hos).
  destruct (calm_refs _ _ C (inv_refs _ _ I)) as [R1 R2].
  destruct C. eapply (Inv_frame past past' w w' os); try done. rewrite calm_seq0. apply I.
Qed.

Lemma Inv_grow past e w : Inv past w -> Inv (past ++ [e]) w.
Proof. intros I. eapply Inv_calm; [exact I|apply past_grows|reflexivity]. Qed.

Definition runs_calm {A} (m : M World A) (w : World) : Prop :=
  runs_to m w (fun _ w' => calm w w').

Lemma runs_calm_ret {A} (a : A) w : runs_calm (ret a) w.
Proof. apply calm_refl. Qed.

Lemma runs_calm_bind {A B} (m : M World A) (k : A -> M World B) w :
  runs_calm m w -> (forall a w', m w = Ret a w' -> calm w w' -> runs_calm (k a) w') ->
  runs_calm (bind m k) w.
Proof.
  unfold runs_calm, runs_to, bind. destruct (m w) as [a w'| |]; [|done..].
  intros H Hk. specialize (Hk a w' eq_refl H). destruct (k a w') as [b w''| |]; [|done..].
  by transitivity w'.
Qed.

Lemma emit_calm o w : quiet o -> runs_calm (emit o) w.
Proof. intros Ho. split; try done. exists [o]. split; [done|]. by constructor. Qed.

Lemma on_channel_calm c f w :
  (forall ch, outstandingRequests (f ch) = outstandingRequests ch) -> runs_calm (on_channel c f) w.
Proof.
  intros Hf. split; try done; simpl.
  - by apply slots_alter_attr.
  - intros [R1 R2]. split; simpl; rewrite length_alter; done.
  - by rewrite length_alter.
  - by exists [].
Qed.

Lemma this_calm c w : (c < length (channels w))%nat -> runs_calm (this c) w.
Proof.
  intros Hc. apply lookup_lt_is_Some in Hc as [ch Hch]. unfold runs_calm, runs_to.
  rewrite (this_Ret _ _ _ Hch). apply calm_refl.
Qed.

Lemma addFilter_calm netFn cmd w : runs_calm (addFilter netFn cmd) w.
Proof. split; try done. by exists []. Qed.

Lemma send_frame_calm c b n w :
  (c < length (channels w))%nat -> runs_calm (ipmbSendI2cFrame c b n) w.
Proof.
  intros Hc. unfold ipmbSendI2cFrame, async_write.
  apply runs_calm_bind; [by apply emit_calm|]. intros [] w1 _ C.
  assert (c < length (channels w1))%nat as Hc1 by (by rewrite (calm_len _ _ C)).
  split; try done; simpl; [lia| |by exists []].
  intros [R1 R2]. split; [|done]. intros sid s H. simpl in H.
  apply lookup_insert_Some in H as [[_ <-]|[_ H]]; [done|by eapply R1].
Qed.

#[export] Hint Resolve runs_calm_ret emit_calm this_calm addFilter_calm send_frame_calm : lcr.
#[export] Hint Extern 1 (runs_calm (on_channel _ _) _) => apply on_channel_calm; reflexivity : lcr.
#[export] Hint Extern 1 (quiet _) => exact I : lcr.

Lemma response_construct_calm {A} p (k : _ -> M World A) w :
  runs_calm (k (response_frame_of p)) w ->
  runs_calm (bind (response_ipmbToi2cConstruct p) k) w.
Proof. unfold runs_calm, runs_to, bind. by rewrite response_construct_eq. Qed.

Lemma request_construct_calm {A} q (k : _ -> M World A) w :
  runs_calm (k (request_frame_of q)) w ->
  runs_calm (bind (request_ipmbToi2cConstruct q) k) w.
Proof. unfold runs_calm, runs_to, bind. by rewrite request_construct_eq. Qed.

(** Goes through a body made of calm operations. *)
Ltac calm_solve :=
  repeat first
    [ progress auto with lcr
    | match goal with
      | |- runs_calm (if ?b then _ else _) _ => destruct b
      | |- runs_calm (match ?o with Some _ => _ | None => _ end) _ => destruct o
      | |- runs_calm (bind (response_ipmbToi2cConstruct _) _) _ =>
          apply response_construct_calm
      | |- runs_calm (bind (request_ipmbToi2cConstruct _) _) _ =>
          apply request_construct_calm
      | |- runs_calm (bind _ _) _ =>
          let C := fresh in
          apply runs_calm_bind; [|intros ? ? _ C; try rewrite <- (calm_len _ _ C) in *]
      end ].

Lemma rearm_calm c w : runs_calm (rearm c) w.
Proof. unfold rearm. calm_solve. Qed.

Lemma send_done_calm sid ec w :
  refs_ok w -> runs_calm (send_done sid ec) w.
Proof.
  intros [R1 R2]. unfold send_done. apply runs_calm_bind; [apply calm_refl|].
  intros a w' [= <- <-] _. destruct (sends w !! sid) as [s|] eqn:E; [|apply calm_refl].
  pose proof (R1 _ _ E). apply runs_calm_bind.
  - split; try done; simpl; [|by exists []]. intros _. split; [|done].
    intros i x Hx. simpl in Hx. apply lookup_delete_Some in Hx as [_ Hx]. by eapply R1.
  - intros [] w' _ C. rewrite <- (calm_len _ _ C) in *. calm_solve.
Qed.

Lemma host_reply_calm hid r w : refs_ok w -> runs_calm (host_reply hid r) w.
Proof.
  intros [R1 R2]. unfold host_reply. apply runs_calm_bind; [apply calm_refl|].
  intros a w' [= <- <-] _. destruct (hostcalls w !! hid) as [h|] eqn:E; [|apply calm_refl].
  pose proof (R2 _ _ E). apply runs_calm_bind.
  - split; try done; simpl; [|by exists []]. intros _. split; [done|].
    intros i x Hx. simpl in Hx. apply lookup_delete_Some in Hx as [_ Hx]. by eapply R2.
  - intros [] w' _ C. rewrite <- (calm_len _ _ C) in *. unfold host_reply_handler.
    destruct r as [r|]; calm_solve.
Qed.

Lemma updateSlaveAddress_calm c a io w :
  (c < length (channels w))%nat -> runs_calm (ipmbChannelUpdateSlaveAddress c a io) w.
Proof. intros Hc. unfold ipmbChannelUpdateSlaveAddress. cbv zeta. calm_solve. Qed.

Lemma getChannel_calm w rc {A} (k : option nat -> M World A) :
  runs_calm (k (find_channel w rc)) w -> runs_calm (bind (getChannel rc) k) w.
Proof. intros H. exact H. Qed.

Lemma updateSlaveAddrHandler_calm path rc b a io w :
  runs_calm (updateSlaveAddrHandler path rc b a io) w.
Proof.
  unfold updateSlaveAddrHandler. destruct (negb _); [apply calm_refl|].
  apply getChannel_calm. destruct (find_channel w rc) as [c|] eqn:E; [|apply calm_refl].
  apply find_channel_lt in E. pose proof updateSlaveAddress_calm. calm_solve.
Qed.

Lemma sendBroadcastHandler_calm rc netFn lun cmd data w :
  runs_calm (sendBroadcastHandler rc netFn lun cmd data) w.
Proof.
  unfold sendBroadcastHandler.
  apply getChannel_calm. destruct (find_channel w rc) as [c|] eqn:E; [|apply calm_refl].
  apply find_channel_lt in E. calm_solve.
Qed.

(** *** Received frames *)
Definition same_coroutines (past : list Event) (w : World) (_ : unit) (w' : World) : Prop :=
  Inv past w' /\ coroutines w' = coroutines w /\ out w ⊆ out w' /\ slots w' = slots w.

Lemma calm_out_grows w w' : calm w w' -> out w ⊆ out w'.
Proof.
  intros C. destruct (calm_out _ _ C) as (os & -> & _). intros x H.
  apply elem_of_app. by right.
Qed.

Lemma calm_post past past' m w :
  Inv past w -> past `prefix_of` past' -> runs_calm m w -> runs_to m w (same_coroutines past' w).
Proof.
  intros I Hp H. eapply runs_to_mono; [exact H|]. intros a w' C.
  split; [by eapply Inv_calm|]. split; [apply C|]. split; [by apply calm_out_grows|apply C].
Qed.

Lemma responseMatch_runs past w c p e :
  Inv past w -> (c < length (channels w))%nat -> 0 <= p_seq p < 64 -> received_on [e] c p ->
  runs_to (responseMatch c p) w (same_coroutines (past ++ [e]) w).
Proof.
  intros I Hc Hk Hr. pose proof (Inv_grow past e w I) as I'. pose proof (Inv_has_slots _ _ _ I Hc) as Hs.
  unfold responseMatch, runs_to.
  rewrite (bind_Ret _ _ w (slot_of w c (Z.to_nat (p_seq p))) w) by (by apply slot_Ret).
  destruct (slot_of w c (Z.to_nat (p_seq p))) as [id|] eqn:E; [|by split].
  destruct (inv_slot _ _ I _ _ _ E) as (q & Hq & Hks & _ & [later Ha] & _).
  rewrite (bind_Ret _ _ w q w) by (unfold request_at; by rewrite Hq).
  destruct (response_matches q p) eqn:Em; [|by split].
  split; [|by split]. eapply Inv_match; try done.
  eapply asked_then_received; try done. lia.
Qed.

Lemma idx_calm {A} l i (k : Z -> M World A) w :
  (i < length l)%nat -> runs_calm (k (l !!! i)) w -> runs_calm (bind (idx l i) k) w.
Proof. intros H Hk. unfold runs_calm, runs_to, bind. by rewrite idx_lt. Qed.

Lemma handle_request_frame_calm w c ch hdr r :
  (c < length (channels w))%nat -> length hdr = 264%nat -> 7 <= r <= 264 ->
  runs_calm (handle_request_frame c ch hdr r) w.
Proof.
  intros Hc Hl Hr. unfold handle_request_frame. do 4 (apply idx_calm; [lia|]). cbv zeta.
  apply runs_calm_bind; [apply calm_refl|]. intros blocked w' [= <- <-] _.
  case_bool_decide; [calm_solve|].
  destruct (request_parse_total hdr r) as [q Hq]; [lia..|].
  unfold runs_calm, runs_to. rewrite (bind_Ret _ _ w q w) by apply Hq.
  split; try done; simpl; [lia| |by eexists [_]; split; [|repeat constructor]].
  intros [R1 R2]. split; [done|]. intros hid h Hh. simpl in Hh.
  apply lookup_insert_Some in Hh as [[_ <-]|[_ Hh]]; [done|by eapply R2].
Qed.

Lemma signal_broadcast_calm w ch hdr r :
  length hdr = 264%nat -> 7 <= r <= 264 -> runs_calm (signal_broadcast ch hdr r) w.
Proof.
  intros Hl Hr. unfold signal_broadcast. destruct (is_ipmb ch); [|apply calm_refl].
  destruct (request_parse_total hdr r) as [q Hq]; [lia..|].
  unfold runs_calm, runs_to. rewrite (bind_Ret _ _ w q w) by apply Hq.
  by apply (emit_calm (OBroadcast _ _ _)).
Qed.

(** A calm prefix does not matter to what a body promises. *)
Lemma calm_then {A} past past' (m : M World A) (k : A -> M World unit) w :
  Inv past w -> past `prefix_of` past' -> runs_calm m w ->
  (forall a w', m w = Ret a w' -> calm w w' -> Inv past w' -> Inv past' w' ->
     runs_to (k a) w' (same_coroutines past' w')) ->
  runs_to (bind m k) w (same_coroutines past' w).
Proof.
  intros I Hp Hm Hk. apply runs_to_bind. unfold runs_calm, runs_to in *.
  destruct (m w) as [a w'| |] eqn:E; [|done..].
  specialize (Hk a w' eq_refl Hm (Inv_calm past past _ _ I ltac:(done) Hm)
    (Inv_calm _ _ _ _ I Hp Hm)).
  destruct (k a w') as [b w''| |]; [|done..]. destruct Hk as (H1 & H2 & H3 & H4).
  split; [done|]. split; [rewrite H2; apply Hm|].
  split; [etransitivity; [by apply calm_out_grows|done]|rewrite H4; apply Hm].
Qed.

Lemma handle_frame_runs past e w c hdr r :
  Inv past w -> (c < length (channels w))%nat -> length hdr = 264%nat -> bytes hdr ->
  7 <= r <= 264 ->
  (forall p, response_i2cToIpmbConstruct hdr r tt = Ret p tt -> received_on [e] c p) ->
  (ipmbIsResponse hdr tt = Ret true tt -> 8 <= r) ->
  runs_to (handle_frame c hdr r) w (same_coroutines (past ++ [e]) w).
Proof.
  intros I Hc Hl Hb Hr Hrecv Hresp. unfold handle_frame.
  destruct (proj2 (lookup_lt_is_Some (channels w) c) Hc) as [ch Hch].
  unfold runs_to. rewrite (bind_Ret _ _ w ch w) by (by apply this_Ret).
  eapply (calm_then past (past ++ [e])); [done|apply past_grows|by apply signal_broadcast_calm|].
  intros [] w1 _ C I0 I1. assert (c < length (channels w1))%nat as Hc1 by (by rewrite (calm_len _ _ C)).
  destruct (isResponse_total hdr) as [b Hisr]; [lia|].
  unfold runs_to. rewrite (bind_Ret _ _ w1 b w1) by apply Hisr. destruct b.
  - destruct (response_parse_total hdr r) as (p & Hp & Hseq); [|lia..|done|].
    { apply Hresp, Hisr. }
    rewrite (bind_Ret _ _ w1 p w1) by apply Hp.
    apply responseMatch_runs; try done. apply Hrecv, Hp.
  - apply (calm_post (past ++ [e])); try done. by apply handle_request_frame_calm.
Qed.

Lemma i2c_readable_runs past w c ec frame :
  Inv past w -> bytes_event (EvReadable c ec frame) ->
  undefined_event w (EvReadable c ec frame) = None ->
  runs_to (i2c_readable c ec frame) w (same_coroutines (past ++ [EvReadable c ec frame]) w).
Proof.
  intros I Hb Hu. simpl in Hu. destruct (channels w !! c) as [ch|] eqn:Hch; [|done].
  assert (c < length (channels w))%nat as Hc by (by eapply lookup_lt_Some).
  set (past' := past ++ _). assert (past `prefix_of` past') as Hp by apply past_grows.
  unfold i2c_readable, runs_to. rewrite (bind_Ret _ _ w ch w) by (by apply this_Ret).
  destruct (waiting ch); [|split; [by eapply Inv_calm|by split]].
  eapply (calm_then past past'); [done..|by apply on_channel_calm|].
  intros [] w1 _ C I0 I1. assert (c < length (channels w1))%nat as Hc1 by (by rewrite (calm_len _ _ C)).
  destruct ec; [by split|]. destruct frame as [frame|]; [|apply (calm_post past'); [done..|apply rearm_calm]].
  unfold processI2cEvent. cbv zeta. set (fr := take (Z.to_nat ipmbMaxFrameLength) frame).
  assert (length fr <= 265)%nat as Hlf
    by (unfold fr; rewrite length_take; change (Z.to_nat ipmbMaxFrameLength) with 265%nat; lia).
  destruct (_ || _) eqn:Ebnd.
  { apply (calm_post past'); [done..|]. apply runs_calm_bind; [apply calm_refl|]. intros. apply rearm_calm. }
  apply orb_false_iff in Ebnd as [E1 E2]. apply Z.ltb_ge in E1. clear E2.
  change ipmbMinFrameLength with 7 in E1.
  assert (length (rx_header fr) = 264%nat) as Hlen by (apply rx_header_length; lia).
  destruct (isFrameValid_total (rx_header fr) (Z.of_nat (length fr) - 1)) as [v Hv]; [lia|].
  assert (forall m, runs_to m w1 (same_coroutines past' w1) ->
    runs_to (m ;;; rearm c) w1 (same_coroutines past' w1)) as Hre.
  { intros m Hm. apply runs_to_bind. eapply runs_to_mono; [exact Hm|]. intros [] w2 (I2 & Ec & Eo & Es).
    eapply runs_to_mono; [apply rearm_calm|]. intros [] w3 C3.
    split; [by eapply Inv_calm|]. split; [by rewrite (calm_co _ _ C3)|].
    split; [etransitivity; [exact Eo|by apply calm_out_grows]|by rewrite (calm_slots _ _ C3)]. }
  apply Hre. unfold runs_to. rewrite (bind_Ret _ _ w1 v w1) by apply Hv.
  destruct v; [|by split].
  apply handle_frame_runs; try done; try lia.
  - apply rx_header_bytes. by apply Forall_take.
  - intros p Hpp. exists frame. split; [by left|]. split; [apply Hv|done].
  - intros Hr. destruct (decide (length fr = 8%nat)) as [E8|]; [|lia]. exfalso.
    assert (fr = frame) as Efr.
    { apply take_ge. unfold fr in E8. rewrite length_take in E8.
      change (Z.to_nat ipmbMaxFrameLength) with 265%nat in *. lia. }
    rewrite Efr in *. rewrite E8 in *. pose proof (Hv unit tt) as Hv'.
    rewrite isFrameValid_sums in Hv' by lia. injection Hv' as Hv'.
    change (Z.of_nat 8 - 1) with 7 in Hv'. rewrite Hv', Hr in Hu. by destruct (waiting ch).
Qed.

(** *** Every event *)

(** The coroutine an event resumes, with the coroutine's state. *)
Definition resumes (w : World) (e : Event) (id : nat) : bool :=
  match coroutines w !! id with
  | None => false
  | Some co =>
      match e, co_at co with
      | EvWriteDone id' _, InWrite _ _ => bool_decide (id' = id)
      | EvTimer id' _, InTimer _ => bool_decide (id' = id)
      | _, _ => false
      end
  end.

(** How many completions a suspended [requestAdd] can still need. *)
Definition remaining (s : Suspension) : nat :=
  match s with
  | InWrite i k => 3 * (5 - i) + (3 - k)
  | InTimer i => 3 * (5 - i) + 1
  end.

Definition step_post (past : list Event) (e : Event) (w w' : World) : Prop :=
  Inv (past ++ [e]) w' /\ out w ⊆ out w' /\
  keeps_slots (fun i => is_Some (coroutines w !! i)) w w' /\
  forall id co, coroutines w !! id = Some co ->
    if resumes w e id
    then (exists r, coroutines w' !! id = None /\ OReply id r ∈ out w') \/
         (exists co', coroutines w' !! id = Some co' /\ co_chan co' = co_chan co /\
            co_buffer co' = co_buffer co /\ (remaining (co_at co') < remaining (co_at co))%nat)
    else coroutines w' !! id = Some co.

Lemma same_coroutines_post past e w w' :
  same_coroutines (past ++ [e]) w tt w' -> (forall id, resumes w e id = false) ->
  step_post past e w w'.
Proof.
  intros (I & Hc & Ho & Hs) Hr. split; [done|]. split; [done|].
  split; [by apply keeps_slots_eq|]. intros id co H. by rewrite Hr, Hc.
Qed.

Lemma write_done_post past w id ec :
  Inv past w -> runs_to (step (EvWriteDone id ec)) w (fun _ w' =>
    step_post past (EvWriteDone id ec) w w').
Proof.
  intros I. unfold step, runs_to. rewrite (bind_Ret _ _ w w w) by reflexivity.
  destruct (coroutines w !! id) as [co|] eqn:Hco.
  2: { apply same_coroutines_post; [split; [|by split]|].
       - by apply Inv_grow.
       - intros i. unfold resumes. destruct (coroutines w !! i) as [co|] eqn:E; [|done].
         destruct (co_at co); [|done]. case_bool_decide; congruence. }
  assert (forall i, i <> id -> resumes w (EvWriteDone id ec) i = false) as Hother.
  { intros i Hi. unfold resumes. destruct (coroutines w !! i) as [co'|]; [|done].
    destruct (co_at co'); [|done]. by rewrite bool_decide_false. }
  pose proof (inv_at _ _ I _ _ Hco) as Hat.
  destruct (co_at co) as [i k|i] eqn:Eat.
  2: { apply same_coroutines_post; [split; [|by split]|].
       - by apply Inv_grow.
       - intros i'. destruct (decide (i' = id)) as [->|]; [|by apply Hother].
         unfold resumes. by rewrite Hco, Eat. }
  simpl in Hat. destruct Hat as [Hi Hk].
  assert (resumes w (EvWriteDone id ec) id = true) as Hself
    by (unfold resumes; rewrite Hco, Eat; by rewrite bool_decide_true).
  assert (forall co' os, co_chan co' = co_chan co -> co_buffer co' = co_buffer co ->
    at_ok (co_at co') -> (remaining (co_at co') < remaining (co_at co))%nat -> Forall quiet os ->
    step_post past (EvWriteDone id ec) w
      (set_coroutines (<[id:=co']> (coroutines w)) (set_out (os ++ out w) w))) as Hnext.
  { intros co' os H1 H2 H3 H4 H5. split.
    { apply (Inv_suspend past _ w _ id co co' os); try done. apply past_grows. }
    split; [intros x Hx; apply elem_of_app; by right|].
    split; [by apply keeps_slots_eq|].
    intros id' co0 H. destruct (decide (id' = id)) as [->|Hne].
    - rewrite Hself. right. exists co'. simpl. rewrite lookup_insert_eq.
      assert (co0 = co) as -> by congruence. done.
    - rewrite Hother by done. simpl. by rewrite lookup_insert_ne. }
  rewrite Eat in Hnext. unfold resume_write, ipmbI2cNumberOfRetries, ipmbNumberOfTries in *.
  destruct ec; simpl andb.
  - destruct (Nat.ltb_spec (S k) 2).
    + apply (Hnext {| co_chan := _; co_buffer := _; co_at := _ |} [OWrite _ _]); try done;
        [simpl; lia..|by repeat constructor].
    + apply (Hnext {| co_chan := _; co_buffer := _; co_at := _ |} []); try done; simpl; lia.
  - apply (Hnext {| co_chan := _; co_buffer := _; co_at := _ |} []); try done; simpl; lia.
Qed.

Lemma timer_post_step past w id ec :
  Inv past w -> runs_to (step (EvTimer id ec)) w (fun _ w' => step_post past (EvTimer id ec) w w').
Proof.
  intros I. unfold step, runs_to. rewrite (bind_Ret _ _ w w w) by reflexivity.
  destruct (coroutines w !! id) as [co|] eqn:Hco.
  2: { apply same_coroutines_post; [split; [|by split]|].
       - by apply Inv_grow.
       - intros i. unfold resumes. destruct (coroutines w !! i) as [co|] eqn:E; [|done].
         destruct (co_at co); [done|]. case_bool_decide; congruence. }
  assert (forall i, i <> id -> resumes w (EvTimer id ec) i = false) as Hother.
  { intros i Hi. unfold resumes. destruct (coroutines w !! i) as [co'|]; [|done].
    destruct (co_at co'); [done|]. by rewrite bool_decide_false. }
  pose proof (inv_at _ _ I _ _ Hco) as Hat.
  destruct (co_at co) as [i k|i] eqn:Eat.
  { apply same_coroutines_post; [split; [|by split]|].
    - by apply Inv_grow.
    - intros i'. destruct (decide (i' = id)) as [->|]; [|by apply Hother].
      unfold resumes. by rewrite Hco, Eat. }
  assert (resumes w (EvTimer id ec) id = true) as Hself
    by (unfold resumes; rewrite Hco, Eat; by rewrite bool_decide_true).
  pose proof (resume_timer_runs past (past ++ [EvTimer id ec]) w id co i ec I
    (past_grows _ _) Hco) as H. unfold runs_to in H.
  destruct (resume_timer id co i ec w) as [[] w'| |]; [|done..].
  destruct H as [I' H]. split; [done|]. split.
  { destruct H as [(r & _ & -> & _)|(_ & _ & _ & ->)]; intros x Hx; by right. }
  split.
  { destruct H as [(r & _ & _ & Hk)|(_ & Hsl & _)]; [|by apply keeps_slots_eq].
    intros c k i' Hi Hn. apply Hk; [done|]. intros <-. apply Hn. by exists co. }
  intros id' co0 H0.
  destruct (decide (id' = id)) as [->|Hne].
  - rewrite Hself. assert (co0 = co) as -> by congruence.
    destruct H as [(r & Hc & Ho & _)|(Hi & _ & Hc & _)].
    + left. exists r. rewrite Hc, lookup_delete_eq, Ho. split; [done|by left].
    + right. eexists. rewrite Hc, lookup_insert_eq. split; [done|]. split; [done|].
      split; [done|]. rewrite Eat. simpl. unfold ipmbNumberOfTries in Hi. lia.
  - rewrite Hother by done.
    destruct H as [(r & -> & _)|(_ & _ & -> & _)]; [by rewrite lookup_delete_ne|by rewrite lookup_insert_ne].
Qed.

Lemma step_total past w e :
  Inv past w -> reachable past w -> bytes_event e -> undefined_event w e = None ->
  exists w', step e w = Ret tt w' /\ step_post past e w w'.
Proof.
  intros I R Hb Hu.
  assert (runs_to (step e) w (fun _ w' => step_post past e w w')) as H.
  2: { apply runs_to_Ret in H as ([] & w' & E & H). by exists w'. }
  assert (forall m, (forall id, resumes w e id = false) ->
    runs_to m w (same_coroutines (past ++ [e]) w) ->
    runs_to m w (fun _ w' => step_post past e w w')) as Hquiet.
  { intros m Hr H. eapply runs_to_mono; [exact H|]. intros [] w' H'. by apply same_coroutines_post. }
  assert ((forall id ec, e <> EvWriteDone id ec) -> (forall id ec, e <> EvTimer id ec) ->
    forall id, resumes w e id = false) as Hnr.
  { intros H1 H2 id. unfold resumes. destruct (coroutines w !! id) as [co|]; [|done].
    destruct e; try done; exfalso; naive_solver. }
  destruct e; [|by apply write_done_post|by apply timer_post_step|apply Hquiet; [by apply Hnr|]..].
  - simpl in Hu. destruct (find_channel w reqChannel) as [c|] eqn:Hc; [|done].
    pose proof (find_channel_lt _ _ _ Hc) as Hlt. unfold step, runs_to.
    destruct (handleRequest_cases past w reqChannel c addr netfn lun cmd data I Hc)
      as [(j & Hj & Hn & _ & E)|[_ E]]; rewrite (bind_Ret _ _ _ _ _ E); unfold ret; cbv beta iota.
    all: split; [by ((eapply (accepted_Inv past)) || apply (rejected_Inv past)); auto with lcr|].
    all: split; [unfold accepted, rejected; try destruct (request_frame_of _); intros x Hx; by right|].
  all: split; [|].
  1: { intros c' k' i' Hi' _. rewrite accepted_slots; [|by eapply Inv_has_slots|].
       2: { rewrite stored_request_seq. apply Z.mod_pos_bound. lia. }
       rewrite decide_False; [done|]. rewrite stored_request_seq. intros [-> ->].
       unfold visited in Hn. congruence. }
  2: apply keeps_slots_eq, readdressed_slots.
  all: intros id co Hco; rewrite Hnr by done.
    all: assert (id <> fresh w) by (destruct (inv_co _ _ I _ _ Hco) as (? & _ & Hs & _);
      destruct (inv_slot _ _ I _ _ _ Hs) as (? & _ & _ & ? & _); lia).
    + unfold accepted. destruct (request_frame_of _); simpl;
        [by rewrite lookup_insert_ne|by rewrite lookup_delete_ne].
    + unfold rejected. simpl. by rewrite lookup_delete_ne.
  - by apply i2c_readable_runs.
  - eapply calm_post; [exact I|auto with lcr|]. apply host_reply_calm, I.
  - eapply calm_post; [exact I|auto with lcr|]. apply send_done_calm, I.
  - eapply calm_post; [exact I|auto with lcr|]. apply updateSlaveAddrHandler_calm.
  - eapply calm_post; [exact I|auto with lcr|]. apply sendBroadcastHandler_calm.
Qed.

Lemma has_slots_calm w w' c : has_slots w c -> calm w w' -> has_slots w' c.
Proof.
  intros (ch & Hch & Hl) C.
  assert (slots w' !! c = Some (outstandingRequests ch)) as H
    by (rewrite (calm_slots _ _ C); unfold slots; by rewrite list_lookup_fmap, Hch).
  unfold slots in H. rewrite list_lookup_fmap in H.
  destruct (channels w' !! c) as [ch'|] eqn:E; [|done]. injection H as H.
  exists ch'. split; [done|]. by rewrite H.
Qed.
