(* ===== verification/IpmbBridgeSpec.v ===== *)
(** * What the IPMB bridge guarantees

    The properties of [IpmbBridge] over every history of the daemon: a
    reachable world is one that [initializeChannels] and any sequence of
    events lead to. *)
From Stdlib Require Import ZArith Lia String.
From stdpp Require Import base list gmap strings.
From S2P Require Import Prelude CxxStd IpmbFrame IpmbBridge.
Local Open Scope Z_scope.

(** ** The invariant holds *)

(** While the channels are being created nothing is outstanding. *)
Record idle (w : World) : Prop := {
  idle_seq : seqNum w = 0; idle_heap : heap w = ∅; idle_co : coroutines w = ∅;
  idle_host : hostcalls w = ∅; idle_sends : sends w = ∅; idle_out : out w = [];
  idle_slots : forall c l, slots w !! c = Some l -> l = replicate 64 None }.

Lemma idle_on_channel w c f :
  (forall ch, outstandingRequests (f ch) = outstandingRequests ch) -> idle w ->
  idle (set_channels (alter f c (channels w)) w).
Proof. intros Hf []. split; try done. by rewrite slots_alter_attr. Qed.

Lemma channelInit_idle c path io w :
  idle w -> match ipmbChannelInit c path io w with
            | Ret _ w' | Throw _ w' => idle w' | Undef _ => False end.
Proof.
  intros H. unfold ipmbChannelInit. cbv zeta.
  unfold bind at 1, try, bind at 1.
  destruct (stoi_pure (default path (after_hyphen path)) w) as [[n ->]|[->| ->]]; [|exact H..].
  unfold ret. cbv beta iota. unfold bind at 1.
  assert (forall f, (forall ch, outstandingRequests (f ch) = outstandingRequests ch) ->
    forall w, idle w -> exists w', on_channel c f w = Ret tt w' /\ idle w') as Hch
    by (intros f Hf w0 H0; eexists; split; [reflexivity|by apply idle_on_channel]).
  destruct (Hch (set_busId (u8 n)) ltac:(reflexivity) w H) as (w1 & -> & H1).
  destruct (_ && _); [exact H1|]. unfold bind at 1.
  destruct (Hch (fun ch => set_descriptor (slave_fd io) (waiting ch) ch)
    ltac:(reflexivity) w1 H1) as (w2 & -> & H2).
  destruct (_ <? _); [exact H2|]. unfold bind.
  destruct (Hch (set_descriptor (slave_fd io) true) ltac:(reflexivity) w2 H2) as (w3 & -> & H3).
  exact H3.
Qed.

Lemma initializeChannels_loop_idle cfgs dev w r w' :
  idle w -> initializeChannels_loop cfgs dev w = Ret r w' -> idle w'.
Proof.
  revert dev w. induction cfgs as [|[cfg|] cfgs IH]; intros dev w H; simpl.
  - by intros [= _ <-].
  - destruct (channel_type _) as [type|]; [|by intros [= _ <-]].
    unfold bind at 1. simpl.
    set (w1 := set_channels _ w).
    assert (idle w1) as H1.
    { destruct H. split; try done. intros c l Hl. unfold slots, w1 in Hl. simpl in Hl.
      rewrite fmap_app, lookup_app in Hl. unfold slots in idle_slots0.
      destruct ((outstandingRequests <$> channels w) !! c) as [l'|] eqn:E.
      - injection Hl as ->. by eapply idle_slots0.
      - simpl in Hl. apply list_lookup_singleton_Some in Hl as [_ <-]. reflexivity. }
    unfold bind at 1, try.
    pose proof (channelInit_idle (length (channels w)) (slavePath cfg) (cfg_io cfg) w1 H1) as Hi.
    destruct (ipmbChannelInit _ _ _ w1) as [rc w2|e w2|]; [| |done].
    + destruct (rc <? 0); [by intros [= _ <-]|by apply IH].
    + destruct e; try done. by intros [= _ <-].
  - by intros [= _ <-].
Qed.

Lemma idle_Inv w : idle w -> Inv [] w.
Proof.
  intros [].
  assert (forall c k id, slot_of w c k <> Some id) as Hs.
  { intros c k id H. apply slot_of_lookup in H as (ch & Hch & H).
    rewrite (idle_slots0 c (outstandingRequests ch)) in H
      by (unfold slots; by rewrite list_lookup_fmap, Hch).
    by apply lookup_replicate_1 in H as [? _]. }
  split; try (rewrite ?idle_seq0, ?idle_heap0, ?idle_co0, ?idle_host0, ?idle_sends0, ?idle_out0).
  - lia.
  - intros c l Hl. rewrite (idle_slots0 _ _ Hl). by rewrite length_replicate.
  - intros c k id H. by destruct (Hs _ _ _ H).
  - intros c k c' k' id H. by destruct (Hs _ _ _ H).
  - intros id co H. by rewrite lookup_empty in H.
  - intros id co H. by rewrite lookup_empty in H.
  - split; intros i x H; by rewrite lookup_empty in H.
  - constructor.
  - intros id r H. by apply elem_of_nil in H.
  - intros id r H. by apply elem_of_nil in H.
Qed.

(** ** Undefined behaviour *)
Lemma short_response_undefined w c ch hdr :
  channels w !! c = Some ch -> length hdr = 264%nat ->
  ipmbIsResponse hdr tt = Ret true tt -> handle_frame c hdr 7 w = Undef OutOfBounds.
Proof.
  intros Hch Hl Hr. unfold handle_frame. rewrite (bind_Ret _ _ w ch w) by (by apply this_Ret).
  pose proof (signal_broadcast_calm w ch hdr 7 Hl ltac:(lia)) as C.
  unfold runs_calm, runs_to in C.
  destruct (signal_broadcast ch hdr 7 w) as [[] w1| |] eqn:E; [|done..].
  rewrite (bind_Ret _ _ _ _ _ E).
  destruct (isResponse_total hdr) as [b Hb]; [lia|]. rewrite (Hb unit tt) in Hr.
  injection Hr as ->. rewrite (bind_Ret _ _ w1 true w1) by apply Hb.
  apply bind_Undef, short_response_overruns. lia.
Qed.

Lemma undefined_event_step w e f : undefined_event w e = Some f -> step e w = Undef f.
Proof.
  intros H. destruct e; try discriminate; simpl in H.
  - destruct (find_channel w reqChannel) as [c|] eqn:E; [discriminate|]. injection H as <-.
    unfold step. apply bind_Undef. unfold ipmbHandleRequest.
    rewrite (bind_Ret _ _ w (fresh w) (set_fresh (S (fresh w)) w)) by reflexivity.
    rewrite (bind_Ret _ _ _ None (set_fresh (S (fresh w)) w)); [reflexivity|].
    unfold getChannel. by rewrite <- E.
  - unfold step, i2c_readable. destruct (channels w !! chan) as [ch|] eqn:Hch.
    2: { injection H as <-. apply bind_Undef. unfold this. by rewrite Hch. }
    rewrite (bind_Ret _ _ w ch w) by (by apply this_Ret).
    destruct frame as [frame|]; [|discriminate]. destruct (waiting ch); [|discriminate].
    destruct ec; [discriminate|]. destruct (Nat.eqb_spec (length frame) 8) as [E8|]; [|discriminate].
    destruct (sums_vanish (rx_header frame) 7) eqn:Ev; [|discriminate].
    destruct (ipmbIsResponse (rx_header frame) tt) as [[] []| |] eqn:Er; try discriminate.
    injection H as <-.
    set (w1 := set_channels (alter (fun ch => set_descriptor (ipmbi2cSlaveFd ch) false ch) chan
      (channels w)) w).
    simpl andb. rewrite (bind_Ret _ _ w tt w1) by reflexivity. unfold processI2cEvent. cbv zeta.
    rewrite (take_ge frame) by (rewrite E8; vm_compute; lia). rewrite E8.
    change (Z.of_nat 8 - 1) with 7. apply bind_Undef. simpl orb.
    change (_ || _) with false. cbv iota.
    assert (length (rx_header frame) = 264%nat) as Hl by (apply rx_header_length; lia).
    rewrite (bind_Ret _ _ w1 true w1) by (rewrite isFrameValid_sums by lia; by rewrite Ev).
    eapply short_response_undefined; [|done|done].
    unfold w1. simpl. by rewrite list_lookup_alter_eq, Hch.
Qed.

Lemma reachable_Inv es w : reachable es w -> Inv es w.
Proof.
  induction 1 as [config w H|es e w w' R IH Hb Hs].
  - apply idle_Inv. destruct config as [cfgs|]; [|done].
    eapply initializeChannels_loop_idle; [|exact H]. split; done.
  - destruct (undefined_event w e) as [f|] eqn:Hu.
    + apply undefined_event_step in Hu. congruence.
    + destruct (step_total es w e IH R Hb Hu) as (w2 & Hs2 & I & _). congruence.
Qed.

(** ** Histories *)
Lemma run_cons_Ret e es w w' :
  run (e :: es) w = Ret tt w' -> exists w1, step e w = Ret tt w1 /\ run es w1 = Ret tt w'.
Proof.
  simpl. unfold bind. destruct (step e w) as [[] w1| |]; [|discriminate..]. by exists w1.
Qed.

Lemma reachable_run es0 es w w' :
  reachable es0 w -> Forall bytes_event es -> run es w = Ret tt w' -> reachable (es0 ++ es) w'.
Proof.
  revert es0 w. induction es as [|e es IH]; intros es0 w R Hb H.
  - injection H as <-. by rewrite app_nil_r.
  - apply run_cons_Ret in H as (w1 & H1 & H2). apply Forall_cons in Hb as [Hb1 Hb2].
    rewrite cons_middle, app_assoc. eapply IH; [by eapply reach_step|done|done].
Qed.

Lemma step_Ret_post past e w w' :
  reachable past w -> bytes_event e -> step e w = Ret tt w' -> step_post past e w w'.
Proof.
  intros R Hb Hs. pose proof (reachable_Inv _ _ R) as I. destruct (undefined_event w e) as [f|] eqn:Hu.
  - apply undefined_event_step in Hu. congruence.
  - destruct (step_total past w e I R Hb Hu) as (w2 & Hs2 & H). congruence.
Qed.

(** What persists along a history: answers given, and slots whose request was
    answered without being released. *)
Lemma run_persistent past es w w' :
  reachable past w -> Forall bytes_event es -> run es w = Ret tt w' ->
  Inv (past ++ es) w' /\ out w ⊆ out w' /\
  forall c k i r, slot_of w c k = Some i -> OReply i r ∈ out w -> slot_of w' c k = Some i.
Proof.
  revert past w. induction es as [|e es IH]; intros past w R Hb H;
    pose proof (reachable_Inv _ _ R) as I.
  - injection H as <-. by rewrite app_nil_r.
  - apply run_cons_Ret in H as (w1 & H1 & H2). apply Forall_cons in Hb as [Hb1 Hb2].
    destruct (step_Ret_post _ _ _ _ R Hb1 H1) as (_ & Ho & Hk & _).
    destruct (IH _ _ (reach_step _ _ _ _ R Hb1 H1) Hb2 H2) as (I2 & Ho2 & Hp). rewrite cons_middle, app_assoc.
    split; [done|]. split; [by etransitivity|]. intros c k i r Hi Hr.
    apply (Hp c k i r); [|by apply Ho]. apply Hk; [done|].
    destruct (inv_replied _ _ I _ _ Hr) as (-> & _). by intros [? ?].
Qed.

(** C21. Undefined behaviour, exactly.  In every reachable
    world and for every event, the daemon's reaction is a normal transition
    to a reachable world, except in the two cases [undefined_event] decides:
    a request for a channel that is not configured (null pointer), and a
    valid response frame that ends before its completion code (the data
    length wraps and the copy runs past the buffer).  No exception escapes,
    no request pointer is null and no slot index is out of range. *)
Theorem bridge_step_defined es w e :
  reachable es w -> bytes_event e ->
  (undefined_event w e = None /\ exists w', step e w = Ret tt w' /\ reachable (es ++ [e]) w') \/
  (exists f, undefined_event w e = Some f /\ step e w = Undef f).
Proof.
  intros R Hb. destruct (undefined_event w e) as [f|] eqn:Hu.
  - right. exists f. split; [done|]. by apply undefined_event_step.
  - left. split; [done|]. destruct (step_total es w e (reachable_Inv _ _ R) R Hb Hu) as (w' & Hs & _).
    exists w'. split; [done|]. by eapply reach_step.
Qed.

(** C22. Every call is answered at most once, a call that has been
    answered is not pending any more, an answer that reports a failure carries
    only its status, and an answer with status 0 carries
    the network function, LUN, command, completion code and data of a
    response that answers this call: it arrived in a validated frame, on the
    channel the call was made for and after the call was made, and has the
    sequence number of the request that was stored for the call, the LUNs and
    the command the caller gave and its network function made odd
    ([answers]). *)
Theorem bridge_replies es w :
  reachable es w ->
  NoDup (reply_ids (out w)) /\
  forall id r, OReply id r ∈ out w ->
    coroutines w !! id = None /\ (r_status r <> 0 -> failure r) /\
    (r_status r = 0 -> exists c q p, heap w !! id = Some q /\ answers es id c q p /\
       r = reply_of p).
Proof.
  intros R. pose proof (reachable_Inv _ _ R) as I. split; [apply I|].
  intros id r H. destruct (inv_replied _ _ I _ _ H) as (H1 & _ & H2).
  split; [done|]. split; [by eapply inv_failed|done].
Qed.

(** Two calls pending on the same channel never share a
    sequence number, so a response cannot be handed to the wrong one of
    them. *)
Theorem bridge_sequence_numbers es w id1 id2 co1 co2 q1 q2 :
  reachable es w -> id1 <> id2 ->
  coroutines w !! id1 = Some co1 -> coroutines w !! id2 = Some co2 ->
  co_chan co1 = co_chan co2 -> heap w !! id1 = Some q1 -> heap w !! id2 = Some q2 ->
  q_seq q1 <> q_seq q2 /\ 0 <= q_seq q1 < 64.
Proof.
  intros R Hne H1 H2 Hc Hq1 Hq2. pose proof (reachable_Inv _ _ R) as I.
  destruct (Inv_coroutine _ _ _ _ I H1) as (q & Hq & _ & Hk & Hs1 & _).
  destruct (inv_co _ _ I _ _ H2) as (q' & Hq' & Hs2 & _).
  assert (q = q1) as -> by congruence. assert (q' = q2) as -> by congruence.
  split; [|done]. intros E. rewrite Hc, E in Hs1. congruence.
Qed.

(** ** Termination of a call *)

(** How many of the completions in [es] resume call [id]. *)
Fixpoint hits (id : nat) (es : list Event) (w : World) : nat :=
  match es with
  | [] => 0
  | e :: es' =>
      (if resumes w e id then 1 else 0) +
      match step e w with Ret _ w' => hits id es' w' | _ => 0 end
  end.

Lemma remaining_bounds s : at_ok s -> (1 <= remaining s <= 18)%nat.
Proof.
  destruct s; simpl; unfold ipmbNumberOfTries, ipmbI2cNumberOfRetries; lia.
Qed.

Lemma run_progress past es w w' id co :
  reachable past w -> Forall bytes_event es -> coroutines w !! id = Some co -> run es w = Ret tt w' ->
  (exists r, OReply id r ∈ out w') \/
  (exists co', coroutines w' !! id = Some co' /\
     (remaining (co_at co') + hits id es w <= remaining (co_at co))%nat).
Proof.
  revert past w co. induction es as [|e es IH]; intros past w co R Hb Hco H.
  - injection H as <-. right. exists co. split; [done|]. simpl. lia.
  - apply run_cons_Ret in H as (w1 & H1 & H2). apply Forall_cons in Hb as [Hb1 Hb2].
    pose proof (reach_step _ _ _ _ R Hb1 H1) as R1.
    destruct (step_Ret_post _ _ _ _ R Hb1 H1) as (_ & _ & _ & Hc). specialize (Hc _ _ Hco).
    cbn [hits]. rewrite H1. destruct (resumes w e id).
    + destruct Hc as [(r & _ & Hr)|(co1 & Hco1 & _ & _ & Hlt)].
      * left. exists r. destruct (run_persistent _ _ _ _ R1 Hb2 H2) as (_ & Ho & _). by apply Ho.
      * destruct (IH _ _ _ R1 Hb2 Hco1 H2) as [?|(co' & ? & ?)]; [by left|].
        right. exists co'. split; [done|lia].
    + destruct (IH _ _ _ R1 Hb2 Hc H2) as [?|(co' & ? & ?)]; [by left|].
      right. exists co'. split; [done|lia].
Qed.

(** C23. Every pending call is answered: whatever else happens in
    between, after 18 completions of its writes and timers (six tries of at
    most two writes and one wait) its caller has a reply. *)
Theorem bridge_answers_within_18 es0 w id co es w' :
  reachable es0 w -> coroutines w !! id = Some co ->
  Forall bytes_event es -> run es w = Ret tt w' -> (18 <= hits id es w)%nat ->
  exists r, OReply id r ∈ out w'.
Proof.
  intros R Hco Hb H Hh. pose proof (reachable_Inv _ _ R) as I.
  destruct (run_progress _ _ _ _ _ _ R Hb Hco H) as [?|(co' & Hco' & Hle)]; [done|exfalso].
  pose proof (remaining_bounds _ (inv_at _ _ I _ _ Hco)).
  destruct (run_persistent _ _ _ _ R Hb H) as (I' & _).
  pose proof (remaining_bounds _ (inv_at _ _ I' _ _ Hco')). lia.
Qed.

(** ** Slots that are never released *)
Lemma send_step w rc addr netfn lun cmd data id w1 :
  ipmbHandleRequest rc addr netfn lun cmd data w = Ret id w1 ->
  step (EvSendRequest rc addr netfn lun cmd data) w = Ret tt w1.
Proof. intros E. unfold step. by rewrite (bind_Ret _ _ _ _ _ E). Qed.

Lemma oversize_not_serialised q :
  258 <= Z.of_nat (length (q_data q)) -> request_frame_of q = None.
Proof.
  intros H. unfold request_frame_of, request_ipmbToi2cConstruct. cbv zeta.
  change ipmbMaxFrameLength with 265. change ipmbRequestDataHeaderLength with 3.
  change ipmbConnectionHeaderLength with 3. change ipmbChecksumSize with 1.
  replace (265 <? _) with true by (symmetry; apply Z.ltb_lt; lia). reflexivity.
Qed.

Lemma request_frame_of_Ret q o :
  request_ipmbToi2cConstruct q tt = Ret o tt -> request_frame_of q = o.
Proof. intros H. unfold request_frame_of. by rewrite H. Qed.

(** A request of 258 or more data bytes is refused with an error, but
    only after it has taken a slot of the channel's table, and no later
    history gives that slot back. *)
Theorem oversize_request_leaks_slot es0 w rc c addr netfn lun cmd data :
  reachable es0 w -> find_channel w rc = Some c -> 258 <= Z.of_nat (length data) ->
  (exists k, (k < 64)%nat /\ slot_of w c k = None) ->
  exists w1 k,
    step (EvSendRequest rc addr netfn lun cmd data) w = Ret tt w1 /\
    out w1 = OReply (fresh w) (returnStatus error) :: out w /\
    slot_of w c k = None /\
    forall es w2, Forall bytes_event es -> run es w1 = Ret tt w2 ->
      slot_of w2 c k = Some (fresh w).
Proof.
  intros R Hc Hd (k0 & Hk0 & Hfree). pose proof (reachable_Inv _ _ R) as I.
  destruct (handleRequest_cases es0 w rc c addr netfn lun cmd data I Hc)
    as [(j & Hj & Hn & _ & E)|[Hfull _]]; [|by destruct (Hfull _ Hk0)].
  set (seq := (seqNum w + Z.of_nat j) mod 64) in *.
  set (q := stored_request w c addr netfn lun cmd seq data) in *.
  assert (q_data q = data) as Hqd
    by (unfold q, stored_request; by destruct (channels (readdressed w c addr) !! c)).
  assert (0 <= seq < 64) as Hseq by (apply Z.mod_pos_bound; lia).
  assert (q_seq q = seq) as Hqs by apply stored_request_seq.
  assert (out (accepted w c addr q) = OReply (fresh w) (returnStatus error) :: out w) as Ho
    by (unfold accepted; by rewrite oversize_not_serialised by (by rewrite Hqd)).
  exists (accepted w c addr q), (visited w j).
  split; [by eapply send_step|]. split; [done|]. split; [done|].
  intros es w2 Hb H2. pose proof (send_step _ _ _ _ _ _ _ _ _ E) as Hs.
  pose proof (reach_step _ (EvSendRequest _ _ _ _ _ _) _ _ R Logic.I Hs) as R1.
  pose proof (reachable_Inv _ _ R1) as I1.
  destruct (run_persistent _ _ _ _ R1 Hb H2) as (_ & _ & Hp).
  apply (Hp c _ (fresh w) (returnStatus error)); [|rewrite Ho; by left].
  rewrite accepted_slots; [|eapply Inv_has_slots; [done|by eapply find_channel_lt]|by rewrite Hqs].
  rewrite Hqs. by rewrite decide_True.
Qed.

(** All slots of channel [c] hold requests that were answered and not released. *)
Definition wedged (w : World) (c : nat) : Prop :=
  forall k, (k < 64)%nat -> exists id r, slot_of w c k = Some id /\ OReply id r ∈ out w.

(** Once 64 slots have leaked the channel is lost for good: after
    any further history every request on it is answered busy at once, without
    a frame being sent. *)
Theorem wedged_channel_stays_busy es0 w c es w1 rc addr netfn lun cmd data :
  reachable es0 w -> wedged w c -> Forall bytes_event es -> run es w = Ret tt w1 ->
  find_channel w1 rc = Some c ->
  exists w2, step (EvSendRequest rc addr netfn lun cmd data) w1 = Ret tt w2 /\
    out w2 = OReply (fresh w1) (returnStatus busy) :: out w1.
Proof.
  intros R Hw Hb H Hc. pose proof (reachable_Inv _ _ R) as I.
  destruct (run_persistent _ _ _ _ R Hb H) as (I1 & _ & Hp).
  destruct (handleRequest_cases _ w1 rc c addr netfn lun cmd data I1 Hc)
    as [(j & Hj & Hn & _ & _)|[_ E]].
  - assert (visited w1 j < 64)%nat as Hv
      by (unfold visited; pose proof (Z.mod_pos_bound (seqNum w1 + Z.of_nat j) 64); lia).
    destruct (Hw _ Hv) as (id & r & Hs & Hr). pose proof (Hp _ _ _ _ Hs Hr). congruence.
  - exists (rejected w1 c addr (seqNum w1)). split; [by eapply send_step|done].
Qed.

(** ** Addressing *)

(** A request goes to the address the caller names and the channel
    remembers it, except address 0x40, which goes to whatever device the
    channel addressed last.  The first write of the call is the serialised
    request, with the next free sequence number. *)
Theorem request_addressing es0 w rc c ch addr netfn lun cmd data :
  reachable es0 w -> find_channel w rc = Some c -> channels w !! c = Some ch ->
  Z.of_nat (length data) <= 252 -> (exists k, (k < 64)%nat /\ slot_of w c k = None) ->
  exists w1 seq frame ch1,
    step (EvSendRequest rc addr netfn lun cmd data) w = Ret tt w1 /\
    out w1 = OWrite c frame :: out w /\
    request_ipmbToi2cConstruct (mkIpmbRequest
      (if addr =? 0x40 then ipmbRqSlaveAddress ch else addr) netfn 0
      (ipmbBmcSlaveAddress ch) seq lun cmd data) tt = Ret (Some frame) tt /\
    frame !! 1%nat = Some (if addr =? 0x40 then ipmbRqSlaveAddress ch else addr) /\
    channels w1 !! c = Some ch1 /\
    ipmbRqSlaveAddress ch1 = (if addr =? 0x40 then ipmbRqSlaveAddress ch else addr).
Proof.
  intros R Hc Hch Hd (k0 & Hk0 & Hfree). pose proof (reachable_Inv _ _ R) as I.
  destruct (handleRequest_cases es0 w rc c addr netfn lun cmd data I Hc)
    as [(j & Hj & Hn & _ & E)|[Hfull _]]; [|by destruct (Hfull _ Hk0)].
  set (seq := (seqNum w + Z.of_nat j) mod 64) in *.
  pose proof (readdressed_channel _ _ addr _ Hch) as Hch1.
  assert (forall ch', (if negb (ipmbRqSlaveAddress ch =? addr) && negb (addr =? 0x40)
     then set_rqSlaveAddress addr ch else ch) = ch' ->
     ipmbRqSlaveAddress ch' = (if addr =? 0x40 then ipmbRqSlaveAddress ch else addr) /\
     ipmbBmcSlaveAddress ch' = ipmbBmcSlaveAddress ch) as Haddr.
  { intros ch' <-. destruct (Z.eqb_spec addr 0x40), (Z.eqb_spec (ipmbRqSlaveAddress ch) addr); done. }
  remember (if negb (ipmbRqSlaveAddress ch =? addr) && negb (addr =? 0x40)
     then set_rqSlaveAddress addr ch else ch) as ch' eqn:Ech in Hch1. symmetry in Ech. destruct (Haddr ch' Ech) as [Ha Hbmc].
  set (q := stored_request w c addr netfn lun cmd seq data) in *.
  set (q' := mkIpmbRequest (if addr =? 0x40 then ipmbRqSlaveAddress ch else addr) netfn 0
    (ipmbBmcSlaveAddress ch) seq lun cmd data).
  assert (q = q') as Eq by (unfold q, stored_request; rewrite Hch1, Ha, Hbmc; reflexivity).
  pose proof (request_frame (S:=unit) q' tt Hd) as Hf.
  pose proof (request_frame_of_Ret _ _ Hf) as Hof.
  assert (request_frame_of q = request_frame_of q') as Eqf by (by rewrite Eq). rewrite Hof in Eqf.
  eexists (accepted w c addr q), seq, _, _. split; [by eapply send_step|].
  split; [unfold accepted; rewrite Eqf; reflexivity|]. split; [exact Hf|]. split; [done|].
  rewrite accepted_channels, list_lookup_alter_eq, Hch1. split; [reflexivity|exact Ha].
Qed.

(** ** A complete exchange *)
Lemma resume_matched past w id co i q p ec :
  Inv past w -> coroutines w !! id = Some co -> heap w !! id = Some q ->
  q_state q = matched -> q_matchedResponse q = Some p -> ec <> WaitError ->
  exists w', resume_timer id co i ec w = Ret tt w' /\ out w' = OReply id (reply_of p) :: out w.
Proof.
  intros I Hco Hq Hst Hp Hec.
  destruct (Inv_coroutine _ _ _ _ I Hco) as (q0 & Hq0 & Hs & Hk & _).
  assert (q0 = q) as -> by congruence.
  assert (resume_timer id co i ec w = resume_timer id co i Expired w) as -> by (by destruct ec).
  unfold resume_timer. rewrite (bind_Ret _ _ w q w) by (unfold request_at; by rewrite Hq).
  rewrite Hst, (bind_Ret _ _ _ _ _ (makeRequestInvalid_Ret _ _ _ _ Hs Hq Hk)).
  set (w1 := set_channels _ _). assert (heap w1 !! id = Some (with_state invalid q)) as Hq1
    by (simpl; by rewrite lookup_insert_eq).
  rewrite (bind_Ret _ _ w1 (with_state invalid q) w1) by (unfold request_at; by rewrite Hq1).
  rewrite (bind_Ret _ _ w1 (reply_of p) w1)
    by (unfold returnMatchedResponse; cbn [q_matchedResponse with_state]; by rewrite Hp).
  eexists. split; reflexivity.
Qed.

(** A response frame on the wire, as its receiver sees it. *)
Lemma response_on_wire p :
  wf_response p -> Z.of_nat (length (p_data p)) <= 251 -> p_netFn p mod 2 = 1 ->
  exists frame,
    response_ipmbToi2cConstruct p tt = Ret (Some frame) tt /\
    (8 < length frame <= 260)%nat /\
    let hdr := rx_header frame in
    let r := Z.of_nat (length frame) - 1 in
    forall S (s : S), isFrameValid hdr r s = Ret true s /\ ipmbIsResponse hdr s = Ret true s /\
      response_i2cToIpmbConstruct hdr r s = Ret (received_response p) s.
Proof.
  intros Hwf Hd Hodd. destruct (response_roundtrip_lemma p tt Hwf Hd) as (frame & Hf & Hlen & _ & _).
  exists frame. split; [done|]. split; [lia|]. intros hdr r S s.
  destruct (response_roundtrip_lemma p s Hwf Hd) as (frame' & Hf' & _ & _ & H).
  rewrite (@response_construct_eq unit) in Hf. rewrite (@response_construct_eq S) in Hf'.
  injection Hf as Hf. injection Hf' as Hf'.
  assert (frame' = frame) as -> by congruence. by rewrite Hodd in H.
Qed.

(** The handler gives such a frame to the request in the slot it names. *)
Lemma matching_frame_handled w c id q p hdr r :
  has_slots w c -> wf_response p -> length hdr = 264%nat -> 7 <= r <= 264 ->
  slot_of w c (Z.to_nat (p_seq p)) = Some id -> heap w !! id = Some q ->
  response_matches q p = true ->
  (forall S (s : S), ipmbIsResponse hdr s = Ret true s /\
     response_i2cToIpmbConstruct hdr r s = Ret (received_response p) s) ->
  exists w', handle_frame c hdr r w = Ret tt w' /\
    heap w' !! id = Some (with_match (received_response p) q) /\ coroutines w' = coroutines w.
Proof.
  intros Hs Hwf Hl Hr Hsl Hq Hm Hrx. pose proof Hs as (ch & Hch & _).
  pose proof (signal_broadcast_calm w ch hdr r Hl Hr) as C. unfold runs_calm, runs_to in C.
  destruct (signal_broadcast ch hdr r w) as [[] w2| |] eqn:Eb; [|done..].
  exists (set_heap (<[id:=with_match (received_response p) q]> (heap w2)) w2).
  split; [|simpl; rewrite lookup_insert_eq; split; [done|apply C]].
  unfold handle_frame. rewrite (bind_Ret _ _ w ch w) by (by apply this_Ret).
  rewrite (bind_Ret _ _ _ _ _ Eb).
  rewrite (bind_Ret _ _ w2 true w2) by apply Hrx. rewrite (bind_Ret _ _ w2 _ w2) by apply Hrx.
  unfold responseMatch. rewrite (bind_Ret _ _ w2 (Some id) w2).
  - rewrite (bind_Ret _ _ w2 q w2) by (unfold request_at; by rewrite (calm_heap _ _ C), Hq).
    change (response_matches q (received_response p)) with (response_matches q p).
    rewrite Hm. reflexivity.
  - rewrite slot_Ret; [|by eapply has_slots_calm|apply Hwf].
    unfold slot_of. rewrite (calm_slots _ _ C). f_equal. exact Hsl.
Qed.

Lemma response_delivered w c ch id q p frame :
  has_slots w c -> channels w !! c = Some ch -> waiting ch = true ->
  wf_response p -> Z.of_nat (length (p_data p)) <= 251 -> p_netFn p mod 2 = 1 ->
  slot_of w c (Z.to_nat (p_seq p)) = Some id -> heap w !! id = Some q ->
  response_matches q p = true -> response_ipmbToi2cConstruct p tt = Ret (Some frame) tt ->
  exists w', step (EvReadable c false (Some frame)) w = Ret tt w' /\
    heap w' !! id = Some (with_match (received_response p) q) /\ coroutines w' = coroutines w.
Proof.
  intros Hs Hch Hw Hwf Hd Hodd Hsl Hq Hm Hfr.
  destruct (response_on_wire p Hwf Hd Hodd) as (frame' & Hf & Hlen & Hrx).
  assert (frame' = frame) as -> by congruence. clear Hf.
  set (hdr := rx_header frame) in *. set (r := Z.of_nat (length frame) - 1) in *.
  unfold step, i2c_readable. rewrite (bind_Ret _ _ w ch w) by (by apply this_Ret). rewrite Hw.
  set (f := fun ch => set_descriptor (ipmbi2cSlaveFd ch) false ch).
  set (w1 := set_channels (alter f c (channels w)) w).
  assert (calm w w1) as C by (by apply (on_channel_calm c f w)).
  rewrite (bind_Ret _ _ w tt w1) by reflexivity. unfold processI2cEvent. cbv zeta.
  rewrite (take_ge frame) by (change (Z.to_nat ipmbMaxFrameLength) with 265%nat; lia).
  fold hdr r. change ipmbMinFrameLength with 7. change ipmbMaxFrameLength with 265.
  replace ((r <? 7) || (265 <? r)) with false
    by (symmetry; apply orb_false_iff; split; apply Z.ltb_ge; lia).
  destruct (matching_frame_handled w1 c id q p hdr r) as (w2 & Hh & Hq2 & Hc2); try done.
  - by eapply has_slots_calm.
  - apply rx_header_length. lia.
  - lia.
  - unfold slot_of. by rewrite (calm_slots _ _ C).
  - intros S s. split; apply Hrx.
  - assert ((let! v := isFrameValid hdr r in if v then handle_frame c hdr r else ret tt) w1
      = Ret tt w2) as E by (rewrite (bind_Ret _ _ w1 true w1) by apply Hrx; exact Hh).
    rewrite (bind_Ret _ _ _ _ _ E). eexists. split; [reflexivity|]. split; [exact Hq2|exact Hc2].
Qed.

(** A stored request of at most 252 data bytes is pending in its first write. *)
Lemma accepted_pending w c ch addr netfn lun cmd seq data :
  channels w !! c = Some ch -> waiting ch = true -> Z.of_nat (length data) <= 252 ->
  let q := stored_request w c addr netfn lun cmd seq data in
  let w1 := accepted w c addr q in
  (exists b, coroutines w1 !! fresh w =
     Some {| co_chan := c; co_buffer := b; co_at := InWrite 0 0 |}) /\
  heap w1 !! fresh w = Some (with_state valid q) /\
  (exists ch1, channels w1 !! c = Some ch1 /\ waiting ch1 = true) /\
  q_netFn q = netfn /\ q_rsLun q = 0 /\ q_rqLun q = lun /\ q_cmd q = cmd /\ q_seq q = seq.
Proof.
  intros Hch Hw Hd q w1.
  assert (q_data q = data /\ q_netFn q = netfn /\ q_rsLun q = 0 /\ q_rqLun q = lun /\
    q_cmd q = cmd /\ q_seq q = seq) as (Hqd & Hqf)
    by (unfold q, stored_request; by destruct (channels (readdressed w c addr) !! c)).
  pose proof (request_frame (S:=unit) q tt ltac:(by rewrite Hqd)) as Hf.
  apply request_frame_of_Ret in Hf.
  pose proof (readdressed_channel _ _ addr _ Hch) as Hch1.
  split; [|split; [|split; [|exact Hqf]]].
  - unfold w1, accepted. rewrite Hf. simpl. rewrite lookup_insert_eq. by eexists.
  - unfold w1, accepted. rewrite Hf. simpl. by rewrite lookup_insert_eq.
  - unfold w1. rewrite accepted_channels, list_lookup_alter_eq, Hch1.
    eexists. split; [reflexivity|]. simpl. by destruct (_ && _).
Qed.

Lemma netFn_odd netfn : 0 <= netfn < 64 -> Z.lor netfn 1 mod 2 = 1 /\ u8 (Z.lor netfn 1) = Z.lor netfn 1.
Proof.
  intros H. split.
  - change 2 with (2 ^ 1). rewrite <- Z.land_ones by lia. change (Z.ones 1) with 1.
    rewrite Z.land_lor_distr_l. change (Z.land 1 1) with 1. rewrite land_1.
    pose proof (Z.mod_pos_bound netfn 2). assert (netfn mod 2 = 0 \/ netfn mod 2 = 1) as [-> | ->] by lia;
    reflexivity.
  - apply Z.mod_small. split; [apply Z.lor_nonneg; lia|].
    destruct (decide (Z.lor netfn 1 = 0)) as [->|Hz]; [lia|].
    apply Z.log2_lt_pow2 with (b := 8); [pose proof (Z.lor_nonneg netfn 1); lia|].
    rewrite Z.log2_lor by lia. change (Z.log2 1) with 0.
    destruct (decide (netfn = 0)) as [->|]; [simpl; lia|].
    pose proof (proj1 (Z.log2_lt_pow2 netfn 6 ltac:(lia)) ltac:(lia)). lia.
Qed.

Lemma response_bytes p frame :
  wf_response p -> Z.of_nat (length (p_data p)) <= 251 ->
  response_ipmbToi2cConstruct p tt = Ret (Some frame) tt -> bytes frame.
Proof.
  intros (Ha & _ & _ & Hsa & _ & _ & Hc & Hcc & Hdb) Hd H. rewrite response_frame in H by done.
  injection H as <-. unfold wire. repeat (apply bytes_cons; split; [auto with lcr|]);
    try exact Ha; try apply u8_is_byte.
  apply bytes_app. split; [|apply bytes_cons; split; [apply u8_is_byte|constructor]].
  repeat (apply bytes_cons; split; [first [done|apply u8_is_byte]|]). done.
Qed.

(** A complete exchange.  On an idle-armed channel with a free
    slot, a request that the responder answers in time comes back to its
    caller with the responder's network function, LUN, command, completion
    code and data, whatever well-formed response of at most 251 data bytes
    the responder builds with the same serialiser. *)
Theorem request_response es0 w rc c ch addr netfn lun cmd data :
  reachable es0 w -> find_channel w rc = Some c -> channels w !! c = Some ch ->
  waiting ch = true -> Z.of_nat (length data) <= 252 ->
  0 <= netfn < 64 -> (exists k, (k < 64)%nat /\ slot_of w c k = None) ->
  let id := fresh w in
  exists w1 seq,
    step (EvSendRequest rc addr netfn lun cmd data) w = Ret tt w1 /\ 0 <= seq < 64 /\
    forall p frame, wf_response p -> Z.of_nat (length (p_data p)) <= 251 ->
      p_netFn p = Z.lor netfn 1 -> p_rqLun p = lun -> p_rsLun p = 0 ->
      p_cmd p = cmd -> p_seq p = seq ->
      response_ipmbToi2cConstruct p tt = Ret (Some frame) tt ->
      exists w', run [EvWriteDone id false; EvReadable c false (Some frame);
                      EvTimer id Aborted] w1 = Ret tt w' /\
        OReply id (reply_of p) ∈ out w'.
Proof.
  intros R Hc Hch Hw Hd Hnf (k0 & Hk0 & Hfree) id. pose proof (reachable_Inv _ _ R) as I.
  destruct (handleRequest_cases es0 w rc c addr netfn lun cmd data I Hc)
    as [(j & Hj & Hn & _ & E)|[Hfull _]]; [|by destruct (Hfull _ Hk0)].
  set (seq := (seqNum w + Z.of_nat j) mod 64) in *.
  set (q := stored_request w c addr netfn lun cmd seq data) in *.
  set (w1 := accepted w c addr q) in *.
  assert (0 <= seq < 64) as Hseq by (apply Z.mod_pos_bound; lia).
  exists w1, seq. split; [by eapply send_step|]. split; [done|].
  intros p frame Hwf Hdp Hpn Hprq Hprs Hpc Hpseq Hfr.
  destruct (accepted_pending w c ch addr netfn lun cmd seq data Hch Hw Hd)
    as ((b & Hco) & Hq & (ch1 & Hch1 & Hw1) & F1 & F2 & F3 & F4 & F5).
  fold q w1 id in Hco, Hq, Hch1. fold q in F1, F2, F3, F4, F5.
  assert (reachable (es0 ++ [EvSendRequest rc addr netfn lun cmd data]) w1) as R1
    by (eapply reach_step; [done|done|by eapply send_step]).
  pose proof (reachable_Inv _ _ R1) as I1.
  set (w2 := set_coroutines (<[id:={| co_chan := c; co_buffer := b; co_at := InTimer 0 |}]>
    (coroutines w1)) w1).
  assert (step (EvWriteDone id false) w1 = Ret tt w2) as Hs1
    by (unfold step; rewrite (bind_Ret _ _ w1 w1 w1) by reflexivity; by rewrite Hco).
  pose proof (reach_step _ (EvWriteDone id false) _ _ R1 Logic.I Hs1) as R2.
  pose proof (reachable_Inv _ _ R2) as I2.
  assert (response_matches (with_state valid q) p = true) as Hm.
  { unfold response_matches. cbn [q_netFn q_rqLun q_rsLun q_cmd with_state].
    unfold ipmbRespNetFn. rewrite F1, F2, F3, F4, (proj2 (netFn_odd netfn Hnf)), Hpn, Hprq, Hprs, Hpc.
    by rewrite !Z.eqb_refl. }
  assert (slot_of w2 c (Z.to_nat (p_seq p)) = Some id) as Hsl.
  { destruct (inv_co _ _ I1 _ _ Hco) as (q' & Hq' & Hsl' & _).
    assert (q' = with_state valid q) as -> by congruence. rewrite Hpseq, <- F5. exact Hsl'. }
  destruct (response_delivered w2 c ch1 id (with_state valid q) p frame)
    as (w3 & Hs2 & Hq3 & Hc3); try done.
  { by apply (Inv_has_slots _ _ _ I2), (lookup_lt_Some _ _ ch1). }
  { rewrite Hpn. by apply netFn_odd. }
  pose proof (response_bytes p frame Hwf Hdp Hfr) as Hfb.
  pose proof (proj1 (step_Ret_post _ (EvReadable c false (Some frame)) _ _ R2 Hfb Hs2)) as I3.
  assert (coroutines w3 !! id = Some {| co_chan := c; co_buffer := b; co_at := InTimer 0 |}) as Hco3
    by (rewrite Hc3; simpl; by rewrite lookup_insert_eq).
  destruct (resume_matched _ w3 id _ 0 _ (received_response p) Aborted I3 Hco3 Hq3)
    as (w4 & Hs3 & Ho); try done.
  exists w4. split.
  - simpl. rewrite (bind_Ret _ _ _ _ _ Hs1), (bind_Ret _ _ _ _ _ Hs2).
    rewrite (bind_Ret _ _ w3 tt w4); [reflexivity|].
    rewrite (bind_Ret _ _ w3 w3 w3) by reflexivity. by rewrite Hco3.
  - rewrite Ho. change (reply_of (received_response p)) with (reply_of p). by left.
Qed.

(** ** Witnesses: the shipped configuration *)
Definition shipped_config : option (list (option ChannelConfig)) :=
  let io fd := {| dev_exists := true; new_device_ok := true; slave_fd := fd |} in
  Some [
    Some {| typeConfig := "ipmb"; slavePath := [47; 105; 45; 48]; bmcAddr := 64;
            reqAddr := 142; cfgDevIndex := Some 0; cfg_io := io 5 |};
    Some {| typeConfig := "ipmb"; slavePath := [47; 105; 45; 49]; bmcAddr := 64;
            reqAddr := 142; cfgDevIndex := Some 1; cfg_io := io 6 |} ].

Definition state_of {S A} (d : S) (o : outcome S A) : S :=
  match o with Ret _ s => s | _ => d end.

(** The daemon after initialisation, and with one call pending. *)
Definition shipped_world : World :=
  Eval vm_compute in state_of world0 (initializeChannels shipped_config world0).
Definition get_device_id : Event := EvSendRequest 4 0x82 6 0 1 [].
Definition pending_world : World :=
  Eval vm_compute in state_of world0 (run [get_device_id] shipped_world).

Lemma shipped_reachable : reachable [] shipped_world.
Proof. apply (reach_init shipped_config). vm_compute. reflexivity. Qed.

Lemma pending_reachable : reachable [get_device_id] pending_world.
Proof.
  apply (reach_step [] get_device_id shipped_world); [apply shipped_reachable|exact Logic.I|].
  vm_compute. reflexivity.
Qed.

Lemma bridge_step_defined_witness :
  (exists w', step (EvTimer 0 Expired) pending_world = Ret tt w') /\
  step (EvSendRequest 9 0x82 6 0 1 []) pending_world = Undef NullDeref.
Proof.
  split.
  - destruct (bridge_step_defined _ _ (EvTimer 0 Expired) pending_reachable Logic.I)
      as [(_ & w' & E & _)|(f & H & _)]; [by exists w'|discriminate].
  - destruct (bridge_step_defined _ _ (EvSendRequest 9 0x82 6 0 1 []) pending_reachable Logic.I)
      as [(H & _)|(f & H & E)]; [discriminate|]. rewrite E. by injection H as <-.
Defined.

Definition unanswered : list Event :=
  concat (replicate 6 [EvWriteDone 0 true; EvWriteDone 0 true; EvTimer 0 Expired]).
Definition timed_out_world : World :=
  Eval vm_compute in state_of world0 (run unanswered pending_world).

(** The other way a call can end: the responder answers. *)
Definition device_id_response : IpmbResponse :=
  mkIpmbResponse 64 7 0 0x82 1 0 1 0 [0x12; 0x34].
Definition device_id_frame : list Z :=
  Eval vm_compute in
    match response_ipmbToi2cConstruct device_id_response tt with
    | Ret (Some frame) _ => frame
    | _ => []
    end.
Definition answered : list Event :=
  [EvWriteDone 0 false; EvReadable 1 false (Some device_id_frame); EvTimer 0 Aborted].
Definition answered_world : World :=
  Eval vm_compute in state_of world0 (run answered pending_world).

Lemma bridge_replies_witness :
  coroutines timed_out_world !! 0%nat = None /\
  (OReply 0 (reply_of device_id_response) ∈ out answered_world /\
   exists c q p, answers ([get_device_id] ++ answered) 0 c q p /\
     reply_of device_id_response = reply_of p).
Proof.
  assert (reachable ([get_device_id] ++ unanswered) timed_out_world) as R.
  { eapply reachable_run; [apply pending_reachable| |vm_compute; reflexivity].
    repeat (apply Forall_cons; split; [exact Logic.I|]). constructor. }
  assert (reachable ([get_device_id] ++ answered) answered_world) as R'.
  { eapply reachable_run; [apply pending_reachable| |vm_compute; reflexivity].
    repeat (apply Forall_cons; split; [first [exact Logic.I|repeat constructor; unfold is_byte; lia]|]).
    constructor. }
  split.
  - destruct (bridge_replies _ _ R) as [_ H].
    apply (H 0%nat (returnStatus timeout)). by left.
  - destruct (bridge_replies _ _ R') as [_ H].
    assert (OReply 0 (reply_of device_id_response) ∈ out answered_world) as Ho by (by left).
    split; [exact Ho|]. destruct (H _ _ Ho) as (_ & _ & Ha).
    destruct (Ha eq_refl) as (c & q & p & _ & Hp & E). by exists c, q, p.
Defined.

Lemma bridge_answers_within_18_witness : exists r, OReply 0 r ∈ out timed_out_world.
Proof.
  eapply (bridge_answers_within_18 _ pending_world 0 _ unanswered).
  - apply pending_reachable.
  - reflexivity.
  - repeat (apply Forall_cons; split; [exact Logic.I|]). constructor.
  - vm_compute. reflexivity.
  - vm_compute. lia.
Defined.

Definition two_pending : World :=
  Eval vm_compute in state_of world0 (run [EvSendRequest 4 0x84 6 0 1 []] pending_world).

Lemma bridge_sequence_numbers_witness :
  exists q1 q2, heap two_pending !! 0%nat = Some q1 /\ heap two_pending !! 1%nat = Some q2 /\
    q_seq q1 <> q_seq q2.
Proof.
  do 2 eexists. split; [reflexivity|]. split; [reflexivity|].
  eapply (bridge_sequence_numbers ([get_device_id] ++ [EvSendRequest 4 0x84 6 0 1 []])
    two_pending 0 1); try reflexivity; [|discriminate].
  eapply reach_step; [apply pending_reachable|exact Logic.I|vm_compute; reflexivity].
Defined.

Definition oversize : Event := EvSendRequest 0 0x82 6 0 1 (replicate 258 0).

Lemma oversize_request_leaks_slot_witness :
  exists w1, step oversize shipped_world = Ret tt w1 /\
    out w1 = [OReply 0 (returnStatus error)].
Proof.
  destruct (oversize_request_leaks_slot [] shipped_world 0 0 0x82 6 0 1 (replicate 258 0))
    as (w1 & k & Hs & Ho & _).
  - apply shipped_reachable.
  - reflexivity.
  - vm_compute. discriminate.
  - exists 5%nat. split; [lia|reflexivity].
  - exists w1. split; [exact Hs|exact Ho].
Defined.

Definition wedged_world : World :=
  Eval vm_compute in state_of world0 (run (replicate 64 oversize) shipped_world).

Lemma wedged_world_wedged : wedged wedged_world 0.
Proof.
  intros k Hk.
  assert (forall k, (k < 64)%nat -> match slot_of wedged_world 0 k with
    | Some id => bool_decide (id ∈ reply_ids (out wedged_world)) | None => false end = true) as H.
  { intros k' Hk'. do 64 (destruct k' as [|k']; [vm_compute; reflexivity|]). lia. }
  specialize (H k Hk). destruct (slot_of wedged_world 0 k) as [id|]; [|discriminate].
  apply bool_decide_eq_true in H. apply list_elem_of_omap in H as (o & Ho & E).
  destruct o; simplify_eq. by do 2 eexists.
Qed.

Lemma wedged_channel_stays_busy_witness :
  exists w2, step (EvSendRequest 0 0x82 6 0 1 []) wedged_world = Ret tt w2 /\
    out w2 = OReply 64 (returnStatus busy) :: out wedged_world.
Proof.
  apply (wedged_channel_stays_busy ([] ++ replicate 64 oversize) wedged_world 0 []); try reflexivity.
  - eapply reachable_run; [apply shipped_reachable| |vm_compute; reflexivity].
    apply Forall_replicate. exact Logic.I.
  - apply wedged_world_wedged.
  - constructor.
Defined.

Lemma request_addressing_witness :
  exists w1 frame, step (EvSendRequest 4 0x40 6 0 1 []) pending_world = Ret tt w1 /\
    frame !! 1%nat = Some 0x82 /\ out w1 = OWrite 1 frame :: out pending_world.
Proof.
  destruct (channels pending_world !! 1%nat) as [ch|] eqn:Hch; [|discriminate].
  destruct (request_addressing [get_device_id] pending_world 4 1 ch 0x40 6 0 1 [])
    as (w1 & seq & frame & ch1 & Hs & Ho & _ & Hf & _).
  - apply pending_reachable.
  - reflexivity.
  - exact Hch.
  - vm_compute. discriminate.
  - exists 9%nat. split; [lia|reflexivity].
  - exists w1, frame. split; [exact Hs|]. vm_compute in Hch. injection Hch as <-.
    split; [exact Hf|exact Ho].
Defined.

Lemma request_response_witness :
  exists w1 w' seq frame, step get_device_id shipped_world = Ret tt w1 /\
    run [EvWriteDone 0 false; EvReadable 1 false (Some frame); EvTimer 0 Aborted] w1 = Ret tt w' /\
    OReply 0 (reply_of (mkIpmbResponse 64 7 0 0x82 seq 0 1 0 [1; 2])) ∈ out w'.
Proof.
  destruct (channels shipped_world !! 1%nat) as [ch|] eqn:Hch; [|discriminate].
  destruct (request_response [] shipped_world 4 1 ch 0x82 6 0 1 []) as (w1 & seq & Hs & Hq & H).
  - apply shipped_reachable.
  - reflexivity.
  - exact Hch.
  - vm_compute in Hch. injection Hch as <-. reflexivity.
  - vm_compute. discriminate.
  - lia.
  - exists 9%nat. split; [lia|reflexivity].
  - set (p := mkIpmbResponse 64 7 0 0x82 seq 0 1 0 [1; 2]).
    assert (wf_response p) as Hwf.
    { unfold wf_response, is_byte; simpl. repeat split; try lia.
      repeat constructor; unfold is_byte; lia. }
    assert (Z.of_nat (length (p_data p)) <= 251) as Hd by (simpl; lia).
    destruct (H p _ Hwf Hd eq_refl eq_refl eq_refl eq_refl eq_refl (response_frame p tt Hd))
      as (w' & Hr & Ho).
    exists w1, w', seq. eexists. split; [exact Hs|]. split; [exact Hr|exact Ho].
Defined.
