(* ===== verification/Transport.v ===== *)
(** * The chassis manager's surroundings

    What [vita4611cm.cpp] calls: the bridge's D-Bus method [sendRequest], the
    I2C probes of the enumeration, the fan service and its PWM property, the
    restart timer and the D-Bus sensor objects.  Each call is recorded in a
    history, and the answers are functions of the history so far (the class
    [Environment]), so that they may be anything and may change over time.

    [BridgeContract] is what the manager may rely on in the bridge, and
    [bridge_environment] discharges it: the replies of the [IpmbBridge]
    model, run over the manager's requests with any script of bus events in
    between, satisfy it. *)
From Stdlib Require Import ZArith Lia String.
From stdpp Require Import base list gmap strings.
From S2P Require Import Prelude Doubles IpmbFrame IpmbBridge IpmbBridgeSpec.
Local Open Scope Z_scope.

(** The arguments of [sendRequest]. *)
Record IpmbReq := {
  rq_channel : Z; rq_addr : Z; rq_netfn : Z; rq_lun : Z; rq_cmd : Z; rq_data : list Z }.

(** The outcomes of the D-Bus call: an error reply, an exception of the
    library, a tuple. *)
Inductive DbusReply := ReplyMethodError | ReplyException | ReplyOk (r : Reply).

Inductive Call :=
  | CIpmb (q : IpmbReq)
  | CProbe (addr : Z)
  | CFanTarget
  | CServiceActive
  | CStopUnit
  | CStartUnit
  | CSetTarget (v : Z)
  | CTimer (seconds : Z)
  | CTimerCancel
  | CSensorNew (path : string)
  | CSensorValue (path : string) (value : double)
  | CSensorLimits (path : string) (high low : double).

(** [None] and [false] stand for calls that throw or fail. *)
Class Environment := {
  env_ipmb : list Call -> IpmbReq -> DbusReply;
  env_i2c_open : bool;
  env_probe : list Call -> Z -> bool;
  env_fan_target : list Call -> option Z;
  env_service_active : list Call -> bool;
  env_stop_unit : list Call -> bool;
  env_start_unit : list Call -> bool;
  env_set_target : list Call -> bool;
  env_sensor_new : list Call -> string -> bool }.

(** A tuple whose status is a failure has a zero completion code and no data. *)
Class BridgeContract `{Environment} : Prop :=
  bridge_contract : forall h q r,
    env_ipmb h q = ReplyOk r -> r_status r <> 0 -> failure r.

(** ** The bridge as a transport *)
Section bridge_transport.
Variable config : option (list (option ChannelConfig)).
(** The bus events after the [n]-th request of the manager. *)
Variable script : nat -> list Event.

Fixpoint reply_for (id : nat) (o : list Out) : option Reply :=
  match o with
  | [] => None
  | OReply i r :: o' => if decide (i = id) then Some r else reply_for id o'
  | _ :: o' => reply_for id o'
  end.

(** One request and the events that follow it. *)
Definition bridge_call (n : nat) (q : IpmbReq) : M World nat :=
  let! id := ipmbHandleRequest (rq_channel q) (rq_addr q) (rq_netfn q) (rq_lun q)
    (rq_cmd q) (rq_data q) in
  run (script n) ;;; ret id.

Fixpoint bridge_calls (n : nat) (qs : list IpmbReq) : M World unit :=
  match qs with
  | [] => ret tt
  | q :: qs' => let! _ := bridge_call n q in bridge_calls (S n) qs'
  end.

Definition requests (h : list Call) : list IpmbReq :=
  omap (fun c => match c with CIpmb q => Some q | _ => None end) (rev h).

(** The answer to [q] after the calls of [h] (newest first).  A daemon that
    has crashed or has not answered makes the D-Bus call throw. *)
Definition bridge_ipmb (h : list Call) (q : IpmbReq) : DbusReply :=
  match initializeChannels config world0 with
  | Ret 0 w0 =>
      match (bridge_calls 0 (requests h) ;;; bridge_call (length (requests h)) q) w0 with
      | Ret id w => match reply_for id (out w) with Some r => ReplyOk r | None => ReplyException end
      | _ => ReplyException
      end
  | _ => ReplyException
  end.
End bridge_transport.

(** The bridge in an otherwise arbitrary environment. *)
Definition bridge_environment config script (E : Environment) : Environment :=
  {| env_ipmb := bridge_ipmb config script;
     env_i2c_open := env_i2c_open; env_probe := env_probe; env_fan_target := env_fan_target;
     env_service_active := env_service_active; env_stop_unit := env_stop_unit;
     env_start_unit := env_start_unit; env_set_target := env_set_target;
     env_sensor_new := env_sensor_new |}.

Lemma reply_for_in id o r : reply_for id o = Some r -> OReply id r ∈ o.
Proof.
  induction o as [|x o IH]; [done|]. simpl.
  destruct x; intros H; try (right; by apply IH).
  case_decide as Hd; [|right; by apply IH]. subst. injection H as ->. by left.
Qed.

Lemma bridge_call_reachable script n q es w id w' :
  Forall bytes_event (script n) -> reachable es w ->
  bridge_call script n q w = Ret id w' -> exists es', reachable es' w'.
Proof.
  intros Hs R H. unfold bridge_call, bind in H.
  destruct (ipmbHandleRequest _ _ _ _ _ _ w) as [i w1| |] eqn:E; [|discriminate..].
  destruct (run (script n) w1) as [[] w2| |] eqn:E2; [|discriminate..].
  injection H as <- <-. apply send_step in E.
  eexists. eapply reachable_run; [|exact Hs|exact E2].
  by eapply (reach_step _ (EvSendRequest _ _ _ _ _ _)).
Qed.

Lemma bridge_calls_reachable script n qs es w w' :
  (forall n, Forall bytes_event (script n)) -> reachable es w ->
  bridge_calls script n qs w = Ret tt w' -> exists es', reachable es' w'.
Proof.
  intros Hs. revert n es w. induction qs as [|q qs IH]; intros n es w R H.
  - injection H as <-. by exists es.
  - simpl in H. unfold bind in H.
    destruct (bridge_call script n q w) as [id w1| |] eqn:E; [|discriminate..].
    destruct (bridge_call_reachable _ _ _ _ _ _ _ (Hs n) R E) as (es1 & R1).
    by eapply IH.
Qed.

#[export] Instance bridge_environment_contract config script E :
  (forall n, Forall bytes_event (script n)) ->
  @BridgeContract (bridge_environment config script E).
Proof.
  intros Hs h q r H Hr. simpl in H. unfold bridge_ipmb in H.
  destruct (initializeChannels config world0) as [rc w0| |] eqn:E0; [|discriminate..].
  destruct rc; try discriminate. unfold bind at 1 in H.
  destruct (bridge_calls script 0 (requests h) w0) as [[] w1| |] eqn:E1; [|discriminate..].
  destruct (bridge_call script (length (requests h)) q w1) as [id w2| |] eqn:E2; [|discriminate..].
  destruct (bridge_calls_reachable _ _ _ _ _ _ Hs (reach_init _ _ E0) E1) as (es1 & R1).
  destruct (bridge_call_reachable _ _ _ _ _ _ _ (Hs _) R1 E2) as (es2 & R2).
  destruct (reply_for id (out w2)) as [r'|] eqn:Er; [|discriminate]. injection H as ->.
  apply reply_for_in in Er. eapply inv_failed; [by apply reachable_Inv|exact Er|exact Hr].
Qed.
