(* ===== verification/VitaDevice.v ===== *)
(** * VITA 46.11 devices

    [sendIPMBRequest] and the class [VITA4611Device] of [vita4611cm.cpp]:
    device identification, VSO capabilities, FRU and sensor discovery, the
    SDR repository reader, sensor records and their conversion to doubles.

    A device method runs on [DevSt]: the history of calls made so far and the
    device object.  Members that a constructor path leaves unassigned are
    [option]s; reading one before it is assigned is [Uninitialised]. *)
From Stdlib Require Import ZArith Lia String Ascii.
From stdpp Require Import base list gmap strings.
From S2P Require Import Prelude Doubles IpmbBridge Transport.
Local Open Scope Z_scope.

Definition NETFN_APP : Z := 6.
Definition NETFN_S_E : Z := 4.
Definition NETFN_STORAGE : Z := 0x0a.
Definition NETFN_VITA4611 : Z := 0x2c.
Definition IPMI_GET_DEVICE_ID_CMD : Z := 1.
Definition IPMI_GET_SENSOR_READING_CMD : Z := 0x2d.
Definition IPMITOOL_CMD_GET_SDR_INFO : Z := 0x20.
Definition IPMITOOL_CMD_GET_SDR : Z := 0x21.
Definition IPMITOOL_CMD_RESERVE_SDR_REPO : Z := 0x22.
Definition VITA4611_VSO_IDENTIFIER : Z := 3.
Definition VITA4611_GETVSOCAPS_CMD : Z := 0.
Definition VITA4611_GET_MANDATORY_SENSOR_NUMBERS_CMD : Z := 0x44.

Record VSOCaps := {
  VSOIdentifier : Z; IPMCIdentifier : Z; IPMBCapabilities : Z; VSOStandard : Z;
  VSORevision : Z; MaxFRUDeviceID : Z; IPMCFRUDeviceID : Z }.

Inductive VITA4611FRUSensorType :=
  | FRUSensor_Type_State | FRUSensor_Type_Health | FRUSensor_Type_Voltage
  | FRUSensor_Type_Temp | FRUSensor_Type_PayloadTestResults
  | FRUSensor_Type_PayloadTestStatus | FRUSensor_Type_PayloadModeSensor
  | FRUSensor_Type_UNKNOWN.

(** The arguments of [convert_sensor_reading] that a full SDR provides. *)
Record Coeffs := {
  sensor_units_1 : Z; sensor_linearization : Z; sensor_M : Z; sensor_Mtol : Z;
  sensor_B : Z; sensor_Bacc : Z; sensor_Acc : Z; R_exp : Z; B_exp : Z;
  analog_characteristics : Z }.

(** The members of [SensorRecord] only [handleFullSdr] assigns. *)
Record FullFields := {
  coeffs : Coeffs; sensor_caps : Z; sensor_type : Z; sensor_units_3 : Z;
  normal_maximum : Z; normal_minimum : Z; sensor_maximum : Z; sensor_minimum : Z;
  upper_nonrec_threshold : Z; lower_nonrec_threshold : Z;
  upper_critical_threshold : Z; lower_critical_threshold : Z;
  upper_noncritical_threshold : Z; lower_noncritical_threshold : Z;
  converted_upper_nonrec_threshold : double; converted_lower_nonrec_threshold : double;
  converted_upper_critical_threshold : double; converted_lower_critical_threshold : double;
  converted_upper_noncritical_threshold : double;
  converted_lower_noncritical_threshold : double }.

(** [sensorIface] is the path of the D-Bus object the record owns. *)
Record SensorRecord := {
  sensorNumber : Z; sensorType : VITA4611FRUSensorType; raw_reading : Z;
  reading_converted : option double; sdr_header_raw : list Z; sdr_info_raw : list Z;
  SDR_Name : string; SDR_Units : string; sensorIface : option string;
  full : option FullFields }.

Definition new_SensorRecord (number : Z) (type : VITA4611FRUSensorType) : SensorRecord :=
  {| sensorNumber := number; sensorType := type; raw_reading := 0;
     reading_converted := None; sdr_header_raw := []; sdr_info_raw := [];
     SDR_Name := ""; SDR_Units := ""; sensorIface := None; full := None |}.

Record VITA4611Device := {
  sensorPopulationChangeIndicatorCache : list Z;
  dynamic_sensors : option Z;
  channel : Z;
  device_record_total : option Z;
  mandatorySensorNumbers : list Z;
  isVITA4611Device : option bool;
  validDeviceID : option bool;
  DeviceIDData : list Z;
  vsocaps : option VSOCaps;
  fru_deviceId : Z;
  fruName : string;
  sensors : list SensorRecord;
  ipmi_address : Z;
  hw_address : Z;
  site_number : Z;
  site_type : Z;
  device_id : option Z;
  fru_activation_policy : option Z;
  fru_activation_flag : option Z }.

Record DevSt := { hist : list Call; dev : VITA4611Device }.
Definition set_hist (h : list Call) (s : DevSt) : DevSt := {| hist := h; dev := dev s |}.
Definition on_dev (f : VITA4611Device -> VITA4611Device) : M DevSt unit :=
  modify (fun s => {| hist := hist s; dev := f (dev s) |}).
Definition the_dev : M DevSt VITA4611Device := fun s => Ret (dev s) s.

(** Member updates. *)
Definition set_sensors v (d : VITA4611Device) : VITA4611Device :=
  {| sensorPopulationChangeIndicatorCache := sensorPopulationChangeIndicatorCache d;
     dynamic_sensors := dynamic_sensors d; channel := channel d;
     device_record_total := device_record_total d;
     mandatorySensorNumbers := mandatorySensorNumbers d;
     isVITA4611Device := isVITA4611Device d; validDeviceID := validDeviceID d;
     DeviceIDData := DeviceIDData d; vsocaps := vsocaps d; fru_deviceId := fru_deviceId d;
     fruName := fruName d; sensors := v; ipmi_address := ipmi_address d;
     hw_address := hw_address d; site_number := site_number d; site_type := site_type d;
     device_id := device_id d; fru_activation_policy := fru_activation_policy d;
     fru_activation_flag := fru_activation_flag d |}.
Definition set_deviceid_data valid data (d : VITA4611Device) : VITA4611Device :=
  {| sensorPopulationChangeIndicatorCache := sensorPopulationChangeIndicatorCache d;
     dynamic_sensors := dynamic_sensors d; channel := channel d;
     device_record_total := device_record_total d;
     mandatorySensorNumbers := mandatorySensorNumbers d;
     isVITA4611Device := isVITA4611Device d; validDeviceID := Some valid;
     DeviceIDData := data; vsocaps := vsocaps d; fru_deviceId := fru_deviceId d;
     fruName := fruName d; sensors := sensors d; ipmi_address := ipmi_address d;
     hw_address := hw_address d; site_number := site_number d; site_type := site_type d;
     device_id := device_id d; fru_activation_policy := fru_activation_policy d;
     fru_activation_flag := fru_activation_flag d |}.
Definition set_vso vita caps (d : VITA4611Device) : VITA4611Device :=
  {| sensorPopulationChangeIndicatorCache := sensorPopulationChangeIndicatorCache d;
     dynamic_sensors := dynamic_sensors d; channel := channel d;
     device_record_total := device_record_total d;
     mandatorySensorNumbers := mandatorySensorNumbers d;
     isVITA4611Device := Some vita; validDeviceID := validDeviceID d;
     DeviceIDData := DeviceIDData d; vsocaps := caps; fru_deviceId := fru_deviceId d;
     fruName := fruName d; sensors := sensors d; ipmi_address := ipmi_address d;
     hw_address := hw_address d; site_number := site_number d; site_type := site_type d;
     device_id := device_id d; fru_activation_policy := fru_activation_policy d;
     fru_activation_flag := fru_activation_flag d |}.
Definition set_sdr_info dyn total cache (d : VITA4611Device) : VITA4611Device :=
  {| sensorPopulationChangeIndicatorCache := cache;
     dynamic_sensors := dyn; channel := channel d;
     device_record_total := total;
     mandatorySensorNumbers := mandatorySensorNumbers d;
     isVITA4611Device := isVITA4611Device d; validDeviceID := validDeviceID d;
     DeviceIDData := DeviceIDData d; vsocaps := vsocaps d; fru_deviceId := fru_deviceId d;
     fruName := fruName d; sensors := sensors d; ipmi_address := ipmi_address d;
     hw_address := hw_address d; site_number := site_number d; site_type := site_type d;
     device_id := device_id d; fru_activation_policy := fru_activation_policy d;
     fru_activation_flag := fru_activation_flag d |}.
Definition set_fru id name (d : VITA4611Device) : VITA4611Device :=
  {| sensorPopulationChangeIndicatorCache := sensorPopulationChangeIndicatorCache d;
     dynamic_sensors := dynamic_sensors d; channel := channel d;
     device_record_total := device_record_total d;
     mandatorySensorNumbers := mandatorySensorNumbers d;
     isVITA4611Device := isVITA4611Device d; validDeviceID := validDeviceID d;
     DeviceIDData := DeviceIDData d; vsocaps := vsocaps d; fru_deviceId := id;
     fruName := name; sensors := sensors d; ipmi_address := ipmi_address d;
     hw_address := hw_address d; site_number := site_number d; site_type := site_type d;
     device_id := device_id d; fru_activation_policy := fru_activation_policy d;
     fru_activation_flag := fru_activation_flag d |}.
Definition push_mandatory n type (d : VITA4611Device) : VITA4611Device :=
  {| sensorPopulationChangeIndicatorCache := sensorPopulationChangeIndicatorCache d;
     dynamic_sensors := dynamic_sensors d; channel := channel d;
     device_record_total := device_record_total d;
     mandatorySensorNumbers := mandatorySensorNumbers d ++ [n];
     isVITA4611Device := isVITA4611Device d; validDeviceID := validDeviceID d;
     DeviceIDData := DeviceIDData d; vsocaps := vsocaps d; fru_deviceId := fru_deviceId d;
     fruName := fruName d; sensors := sensors d ++ [new_SensorRecord n type];
     ipmi_address := ipmi_address d;
     hw_address := hw_address d; site_number := site_number d; site_type := site_type d;
     device_id := device_id d; fru_activation_policy := fru_activation_policy d;
     fru_activation_flag := fru_activation_flag d |}.
Definition set_ids id policy flag (d : VITA4611Device) : VITA4611Device :=
  {| sensorPopulationChangeIndicatorCache := sensorPopulationChangeIndicatorCache d;
     dynamic_sensors := dynamic_sensors d; channel := channel d;
     device_record_total := device_record_total d;
     mandatorySensorNumbers := mandatorySensorNumbers d;
     isVITA4611Device := isVITA4611Device d; validDeviceID := validDeviceID d;
     DeviceIDData := DeviceIDData d; vsocaps := vsocaps d; fru_deviceId := fru_deviceId d;
     fruName := fruName d; sensors := sensors d; ipmi_address := ipmi_address d;
     hw_address := hw_address d; site_number := site_number d; site_type := site_type d;
     device_id := id; fru_activation_policy := policy; fru_activation_flag := flag |}.

(** ** Conversion of readings *)
Section conversion.
Context `{Libm}.

(** The raw value by the analog data format (bits 7..6 of units 1); [None] is
    the non-analog format. *)
Definition raw_value (units_def reading : Z) : option double :=
  let analog_data_format := Z.shiftr units_def 6 in
  if analog_data_format =? 0 then Some (dofZ reading)
  else if analog_data_format =? 1 then
    if Z.land reading 0x80 =? 0 then Some (dofZ reading)
    else Some (dopp (dofZ (Z.land (Z.lnot reading) 0x7F)))
  else if analog_data_format =? 2 then Some (dofZ (sext 8 reading))
  else None.

(** The 10-bit [M] or [B]: two high bits in the tolerance byte. *)
Definition signed10 (lo tol : Z) : Z :=
  let unsigned := u16 (Z.lor (Z.shiftl (Z.shiftr tol 6) 8) lo) in
  sext 16 (if Z.land unsigned 0x0200 =? 0 then unsigned else Z.lor unsigned 0xFC00).
(** The 4-bit exponents. *)
Definition signed4 (e : Z) : Z :=
  sext 8 (if Z.land e 0x08 =? 0 then e else Z.lor e 0xF0).

Definition linearize (linearization : Z) (result : double) : double :=
  let positive := dltb dzero result in
  let nonnegative := dleb dzero result in
  if 0x70 <=? linearization then result
  else if linearization =? 0x01 then if positive then lm_log result else result
  else if linearization =? 0x02 then if positive then lm_log10 result else result
  else if linearization =? 0x03 then if positive then lm_log2 result else result
  else if linearization =? 0x04 then lm_exp result
  else if linearization =? 0x05 then lm_pow (dofZ 10) result
  else if linearization =? 0x06 then lm_pow (dofZ 2) result
  else if linearization =? 0x07 then
    if deqb result dzero then result else ddiv d_one result
  else if linearization =? 0x08 then lm_pow result (dofZ 2)
  else if linearization =? 0x09 then lm_pow result (dofZ 3)
  else if linearization =? 0x0A then if nonnegative then dsqrt result else result
  else if linearization =? 0x0B then if nonnegative then lm_cbrt result else result
  else result.

Definition convert_sensor_reading (k : Coeffs) (reading : Z) : double :=
  match raw_value (sensor_units_1 k) reading with
  | None => dofZ reading
  | Some x =>
      let M_signed := signed10 (sensor_M k) (sensor_Mtol k) in
      let B_signed := signed10 (sensor_B k) (sensor_Bacc k) in
      let calc_val := dadd (dmul (dofZ M_signed) x)
        (dmul (dofZ B_signed) (lm_pow (dofZ 10) (dofZ (signed4 (B_exp k))))) in
      linearize (sensor_linearization k)
        (dmul calc_val (lm_pow (dofZ 10) (dofZ (signed4 (R_exp k)))))
  end.
End conversion.

(** ** sendIPMBRequest *)
Section device.
Context `{Libm} `{Environment}.

(** The result and the completion code stored through [ipmi_response_cc];
    [None] when the function returns without storing one. *)
Definition sendIPMBRequest (chan addr netfn lun cmd : Z) (data : list Z)
  : M (list Call) (option Reply * option Z) := fun h =>
  let q := {| rq_channel := chan; rq_addr := addr; rq_netfn := netfn; rq_lun := lun;
              rq_cmd := cmd; rq_data := data |} in
  let res :=
    match env_ipmb h q with
    | ReplyMethodError => (None, None)
    | ReplyException => (None, Some 0xFF)
    | ReplyOk r => if r_cc r =? 0 then (Some r, Some (r_cc r)) else (None, Some (r_cc r))
    end in
  Ret res (CIpmb q :: h).

Definition lift_hist {A} (m : M (list Call) A) : M DevSt A := zoom hist set_hist m.
(** A request of a device method; the methods ignore the completion code. *)
Definition dev_send (chan addr netfn lun cmd : Z) (data : list Z) : M DevSt (option Reply) :=
  let! r := lift_hist (sendIPMBRequest chan addr netfn lun cmd data) in ret (fst r).

(** [std::optional::value()] *)
Definition opt_value {S A} (o : option A) : M S A :=
  match o with Some a => ret a | None => throw BadOptionalAccess end.

Definition queryDeviceId (addr : Z) : M DevSt unit :=
  let! resp := dev_send 0 addr NETFN_APP 0 IPMI_GET_DEVICE_ID_CMD [] in
  match resp with
  | Some r => on_dev (set_deviceid_data true (r_data r))
  | None => on_dev (fun d => set_deviceid_data false (DeviceIDData d) d)
  end.

(** [*vsocaps = *(VSOCaps* ) data()]: seven bytes of the payload. *)
Definition read_vsocaps {S} (data : list Z) : M S VSOCaps :=
  let! b := read_range data 0 7 in
  match b with
  | [b0; b1; b2; b3; b4; b5; b6] =>
      ret {| VSOIdentifier := b0; IPMCIdentifier := b1; IPMBCapabilities := b2;
             VSOStandard := b3; VSORevision := b4; MaxFRUDeviceID := b5;
             IPMCFRUDeviceID := b6 |}
  | _ => undef OutOfBounds
  end.

Definition queryVsoCapabilities : M DevSt unit :=
  let! d := the_dev in
  let! resp := dev_send (channel d) 0x40 NETFN_VITA4611 0 VITA4611_GETVSOCAPS_CMD [0x03] in
  match resp with
  | Some r =>
      let! caps := read_vsocaps (r_data r) in
      on_dev (set_vso true (Some caps))
  | None => on_dev (fun d => set_vso false (vsocaps d) d)
  end.

(** ** The SDR repository *)
Definition reserveSDRRepo : M DevSt (Z * Z) :=
  let! d := the_dev in
  let! resp := dev_send (channel d) (ipmi_address d) NETFN_S_E 0 IPMITOOL_CMD_RESERVE_SDR_REPO [] in
  let! r := opt_value resp in
  let! b0 := idx (r_data r) 0 in
  let! b1 := idx (r_data r) 1 in
  ret (b0, b1).

Definition getSDR (res_id : Z * Z) (sensor_number offset count : Z) : M DevSt (list Z) :=
  let! d := the_dev in
  let! resp := dev_send (channel d) (ipmi_address d) NETFN_S_E 0 IPMITOOL_CMD_GET_SDR
    [fst res_id; snd res_id; sensor_number; 0; offset; count] in
  let! r := opt_value resp in
  ret (r_data r).

Definition getSDRHeader (res_id : Z * Z) (sensor_number : Z) : M DevSt (list Z) :=
  getSDR res_id sensor_number 0 0x05.

(** The [do]-[while] of [getSDRVals]; [total], [section] and [sectiontotal]
    are [uint8_t].  Thirteen iterations are enough for every length. *)
Fixpoint getSDRVals_loop (fuel : nat) (res_id : Z * Z) (sensor_number length : Z)
    (section total sectiontotal : Z) (cumulative : list Z) : M DevSt (list Z) :=
  match fuel with
  | O => throw (RuntimeError "out of fuel")
  | S fuel' =>
      let section := if length <? total + section then u8 (length - total) else section in
      let! data := getSDR res_id sensor_number sectiontotal section in
      let cumulative := cumulative ++ drop 2 data in
      let total := u8 (total + section) in
      let sectiontotal := u8 (sectiontotal + section) in
      if section =? 0x16
      then getSDRVals_loop fuel' res_id sensor_number length section total sectiontotal cumulative
      else ret cumulative
  end.

Definition getSDRVals (res_id : Z * Z) (sensor_number length : Z) : M DevSt (list Z) :=
  getSDRVals_loop 13 res_id sensor_number length 0x16 0 0x05 [].

(** ** Sensor records *)
Definition isSensorDiscovered (sensorNum : Z) (d : VITA4611Device) : bool :=
  existsb (fun s => sensorNumber s =? sensorNum) (sensors d).

(** The position [getSensorRecord] points to. *)
Definition getSensorRecord (sensorNum : Z) (d : VITA4611Device) : option nat :=
  fst <$> list_find (fun s => sensorNumber s = sensorNum) (sensors d).

Definition sensorUnitTypeCodes (code : Z) : string :=
  match code with
  | 0 => "unknown" | 1 => "degrees C" | 2 => "degrees F" | 3 => "degrees K"
  | 4 => "Volts" | 5 => "Amps" | 6 => "Watts" | 7 => "Joules" | 8 => "Coulombs"
  | 9 => "VA" | 10 => "Nits" | _ => ""
  end.

Fixpoint string_of_bytes (l : list Z) : string :=
  match l with
  | [] => EmptyString
  | b :: l' => String (ascii_of_N (Z.to_N b)) (string_of_bytes l')
  end.

(** The record [handleFullSdr] builds. *)
Definition full_record (sdrheader sdrvals : list Z) : M DevSt SensorRecord :=
  let! number := idx sdrvals 2 in
  let! units_1 := idx sdrvals 15 in
  let! units := idx sdrvals 16 in
  let! linearization := idx sdrvals 18 in
  let! m := idx sdrvals 19 in
  let! mtol := idx sdrvals 20 in
  let! b := idx sdrvals 21 in
  let! bacc := idx sdrvals 22 in
  let! acc := idx sdrvals 23 in
  let! exps := idx sdrvals 24 in
  let! analog := idx sdrvals 25 in
  let! raw := idx sdrvals 26 in
  let k := {| sensor_units_1 := units_1; sensor_linearization := linearization; sensor_M := m;
              sensor_Mtol := mtol; sensor_B := b; sensor_Bacc := bacc; sensor_Acc := acc;
              R_exp := Z.shiftr exps 4; B_exp := Z.land exps 0x0f;
              analog_characteristics := analog |} in
  let! idtype := idx sdrvals 42 in
  let idLength := Z.land idtype 0x1F in
  let! name := read_range sdrvals 43 idLength in
  let! caps := idx sdrvals 6 in
  let! type := idx sdrvals 7 in
  let! units_3 := idx sdrvals 17 in
  let! nmax := idx sdrvals 27 in
  let! nmin := idx sdrvals 28 in
  let! smax := idx sdrvals 29 in
  let! smin := idx sdrvals 30 in
  let! unr := idx sdrvals 31 in
  let! lnr := idx sdrvals 34 in
  let! ucr := idx sdrvals 32 in
  let! lcr := idx sdrvals 35 in
  let! unc := idx sdrvals 33 in
  let! lnc := idx sdrvals 36 in
  ret {| sensorNumber := number; sensorType := FRUSensor_Type_UNKNOWN; raw_reading := raw;
         reading_converted := Some (convert_sensor_reading k raw);
         sdr_header_raw := sdrheader; sdr_info_raw := sdrvals;
         SDR_Name := string_of_bytes name; SDR_Units := sensorUnitTypeCodes units;
         sensorIface := None;
         full := Some
           {| coeffs := k; sensor_caps := caps; sensor_type := type; sensor_units_3 := units_3;
              normal_maximum := nmax; normal_minimum := nmin; sensor_maximum := smax;
              sensor_minimum := smin;
              upper_nonrec_threshold := unr; lower_nonrec_threshold := lnr;
              upper_critical_threshold := ucr; lower_critical_threshold := lcr;
              upper_noncritical_threshold := unc; lower_noncritical_threshold := lnc;
              converted_upper_nonrec_threshold := convert_sensor_reading k unr;
              converted_lower_nonrec_threshold := convert_sensor_reading k lnr;
              converted_upper_critical_threshold := convert_sensor_reading k ucr;
              converted_lower_critical_threshold := convert_sensor_reading k lcr;
              converted_upper_noncritical_threshold := convert_sensor_reading k unc;
              converted_lower_noncritical_threshold := convert_sensor_reading k lnc |} |}.

Definition handleFullSdr (sdrheader sdrvals : list Z) : M DevSt unit :=
  let! rec := full_record sdrheader sdrvals in
  on_dev (fun d =>
    if isSensorDiscovered (sensorNumber rec) d
    then match getSensorRecord (sensorNumber rec) d with
         | Some i => set_sensors (<[i:=rec]> (sensors d)) d
         | None => d
         end
    else set_sensors (sensors d ++ [rec]) d).

(** The members of an existing record a compact SDR overwrites. *)
Definition name_record sdrheader sdrvals name units (s : SensorRecord) : SensorRecord :=
  {| sensorNumber := sensorNumber s; sensorType := sensorType s; raw_reading := raw_reading s;
     reading_converted := reading_converted s; sdr_header_raw := sdrheader;
     sdr_info_raw := sdrvals; SDR_Name := name; SDR_Units := units;
     sensorIface := sensorIface s; full := full s |}.

Definition handleCompactSdr (sdrheader sdrvals : list Z) : M DevSt unit :=
  let! number := idx sdrvals 2 in
  let! units := idx sdrvals 16 in
  let! idtype := idx sdrvals 26 in
  let idLength := Z.land idtype 0x1F in
  let! name := read_range sdrvals 27 idLength in
  let name := string_of_bytes name in
  let units := sensorUnitTypeCodes units in
  on_dev (fun d =>
    if isSensorDiscovered number d
    then match getSensorRecord number d with
         | Some i => set_sensors (alter (name_record sdrheader sdrvals name units) i (sensors d)) d
         | None => d
         end
    else set_sensors (sensors d ++
      [name_record sdrheader sdrvals name units (new_SensorRecord number FRUSensor_Type_UNKNOWN)]) d).

(** One record of [getAllSDRs].  The outer handler reads [retryCount], which
    is never assigned. *)
Definition readSDR (res_id : Z * Z) (i : Z) : M DevSt unit :=
  try
    (let! sdrheader := getSDRHeader res_id i in
     if negb (length sdrheader =? 7)%nat then ret tt else
     let! recordType := idx sdrheader 5 in
     let! len := idx sdrheader 6 in
     let! sdrvals := getSDRVals res_id i len in
     try
       (if recordType =? 1 then handleFullSdr sdrheader sdrvals
        else if recordType =? 2 then handleCompactSdr sdrheader sdrvals else ret tt)
       (fun _ => ret tt))
    (fun _ => undef Uninitialised).

Fixpoint getAllSDRs_loop (n : nat) (res_id : Z * Z) (i : Z) : M DevSt unit :=
  match n with
  | O => ret tt
  | S n' => readSDR res_id i ;;; getAllSDRs_loop n' res_id (i + 1)
  end.

Definition getAllSDRs : M DevSt unit :=
  let! res_id := reserveSDRRepo in
  let! d := the_dev in
  let! total := init_read (device_record_total d) in
  getAllSDRs_loop (Z.to_nat total) res_id 0.

(** The six mandatory sensors of Table 10.1.3.26-1. *)
Definition mandatory_types : list VITA4611FRUSensorType :=
  [FRUSensor_Type_State; FRUSensor_Type_Health; FRUSensor_Type_Voltage; FRUSensor_Type_Temp;
   FRUSensor_Type_PayloadTestResults; FRUSensor_Type_PayloadTestStatus].

Fixpoint push_mandatories (payload : list Z) (i : nat) (types : list VITA4611FRUSensorType)
  : M DevSt unit :=
  match types with
  | [] => ret tt
  | ty :: types' =>
      let! n := idx payload i in
      on_dev (push_mandatory n ty) ;;; push_mandatories payload (S i) types'
  end.

Definition enumerateFRUSensors (fru addr : Z) : M DevSt unit :=
  let! resp := dev_send 0 addr NETFN_VITA4611 0 VITA4611_GET_MANDATORY_SENSOR_NUMBERS_CMD
    [0x03; fru] in
  let! sdr_info := dev_send 0 addr NETFN_S_E 0 IPMITOOL_CMD_GET_SDR_INFO [] in
  let! repo_info := dev_send 0 addr NETFN_STORAGE 0 IPMITOOL_CMD_GET_SDR_INFO [] in
  let! go_on := match resp with
    | None => ret true
    | Some r =>
        let! b0 := idx (r_data r) 0 in
        if negb (b0 =? VITA4611_VSO_IDENTIFIER) then ret false
        else
          on_dev (set_fru fru "VITA4611FRU") ;;;
          push_mandatories (r_data r) 1 mandatory_types ;;;
          ret true
    end in
  if go_on then
    match repo_info with
    | None => ret tt
    | Some r =>
        let! n := idx (r_data r) 1 in
        on_dev (fun d => set_sdr_info (dynamic_sensors d) (Some n)
          (sensorPopulationChangeIndicatorCache d) d)
    end ;;;
    match sdr_info with
    | None => ret tt
    | Some r =>
        let! b := idx (r_data r) 1 in
        on_dev (fun d => set_sdr_info (Some (Z.shiftr b 7)) (device_record_total d)
          (sensorPopulationChangeIndicatorCache d) d)
    end ;;;
    getAllSDRs
  else ret tt.

Definition discoverFRUs : M DevSt unit :=
  let! d := the_dev in
  let! caps := init_read (vsocaps d) in
  if MaxFRUDeviceID caps =? 0 then enumerateFRUSensors 0 (ipmi_address d)
  else mfor (seqZ 0 (MaxFRUDeviceID caps)) (fun i => enumerateFRUSensors i (ipmi_address d)).

(** ** Readings *)
Definition set_reading raw conv (s : SensorRecord) : SensorRecord :=
  {| sensorNumber := sensorNumber s; sensorType := sensorType s; raw_reading := raw;
     reading_converted := Some conv; sdr_header_raw := sdr_header_raw s;
     sdr_info_raw := sdr_info_raw s; SDR_Name := SDR_Name s; SDR_Units := SDR_Units s;
     sensorIface := sensorIface s; full := full s |}.

Definition getSensorReading (address chan : Z) (s : SensorRecord) : M (list Call) SensorRecord :=
  let! resp := sendIPMBRequest chan address NETFN_S_E 0 IPMI_GET_SENSOR_READING_CMD
    [sensorNumber s] in
  let! raw := match fst resp with
    | Some r => idx (r_data r) 0
    | None => ret 0
    end in
  let! f := init_read (full s) in
  let conv := convert_sensor_reading (coeffs f) raw in
  match sensorIface s with
  | Some path => modify (fun h => CSensorValue path conv :: h)
  | None => ret tt
  end ;;;
  ret (set_reading raw conv s).

Definition getAllSensorReadings : M DevSt unit :=
  let! d := the_dev in
  let! ss := lift_hist (mmap (getSensorReading (ipmi_address d) 0) (sensors d)) in
  on_dev (set_sensors ss).

Definition get_dynamic_sensors {S} (d : VITA4611Device) : M S Z := init_read (dynamic_sensors d).

Definition checkSDRInfo : M DevSt unit :=
  let! d := the_dev in
  let! resp := dev_send 0 (ipmi_address d) NETFN_S_E 0 IPMITOOL_CMD_GET_SDR_INFO [] in
  match resp with
  | None => ret tt
  | Some r =>
      if (length (r_data r) <? 2)%nat then undef OutOfBounds else
      let indicator := drop 2 (r_data r) in
      (if decide (indicator = sensorPopulationChangeIndicatorCache d) then ret tt
       else getAllSDRs) ;;;
      on_dev (fun d => set_sdr_info (dynamic_sensors d) (device_record_total d) indicator d)
  end.

(** ** Construction *)
Definition raw_device (chan address : Z) : VITA4611Device :=
  {| sensorPopulationChangeIndicatorCache := []; dynamic_sensors := None; channel := chan;
     device_record_total := None; mandatorySensorNumbers := []; isVITA4611Device := None;
     validDeviceID := None; DeviceIDData := []; vsocaps := None; fru_deviceId := 0;
     fruName := ""; sensors := []; ipmi_address := address; hw_address := Z.shiftr address 1;
     site_number := u8 (Z.shiftr address 1 - 0x40); site_type := 0; device_id := None;
     fru_activation_policy := None; fru_activation_flag := None |}.

Definition construct_device : M DevSt unit :=
  let! d := the_dev in
  queryDeviceId (ipmi_address d) ;;;
  let! d := the_dev in
  let! ok := init_read (validDeviceID d) in
  if ok then
    queryVsoCapabilities ;;;
    let! d := the_dev in
    let! vita := init_read (isVITA4611Device d) in
    if vita then discoverFRUs else ret tt
  else ret tt.

(** [new VITA4611Device(channel, address)] *)
Definition new_VITA4611Device (chan address : Z) : M (list Call) VITA4611Device := fun h =>
  match construct_device {| hist := h; dev := raw_device chan address |} with
  | Ret _ s => Ret (dev s) (hist s)
  | Throw e s => Throw e (hist s)
  | Undef f => Undef f
  end.
End device.
