(* ===== verification/VitaDeviceSpec.v ===== *)
(** * VITA 46.11 devices: properties

    The theorems about [VitaDevice]: the SDR reader ([getSDRVals]) returns the
    record it is asked for and always ends, the sensor list keeps its numbers
    distinct, the fields of a reading are decoded as the SDR format says, what
    a failed bridge request does to a device, and what polling publishes. *)
From Stdlib Require Import ZArith Lia String.
From stdpp Require Import base list strings.
From S2P Require Import Prelude Doubles IpmbBridge Transport VitaDevice.
Local Open Scope Z_scope.

(** ** Requests *)
Section requests.
Context `{Libm} `{Environment}.

(** What a device method's request amounts to. *)
Definition accepted (a : DbusReply) : option Reply :=
  match a with
  | ReplyOk r => if r_cc r =? 0 then Some r else None
  | _ => None
  end.

Lemma dev_send_eq chan addr netfn lun cmd data s :
  let q := {| rq_channel := chan; rq_addr := addr; rq_netfn := netfn; rq_lun := lun;
              rq_cmd := cmd; rq_data := data |} in
  dev_send chan addr netfn lun cmd data s =
    Ret (accepted (env_ipmb (hist s) q)) {| hist := CIpmb q :: hist s; dev := dev s |}.
Proof.
  unfold dev_send, lift_hist, zoom, sendIPMBRequest, bind, accepted. simpl.
  destruct (env_ipmb _ _) as [| |r]; [done..|]. by destruct (r_cc r =? 0).
Qed.

(** The request [getSDR] makes. *)
Definition sdr_request (d : VITA4611Device) (res_id : Z * Z) (n offset count : Z) : IpmbReq :=
  {| rq_channel := channel d; rq_addr := ipmi_address d; rq_netfn := NETFN_S_E; rq_lun := 0;
     rq_cmd := IPMITOOL_CMD_GET_SDR;
     rq_data := [fst res_id; snd res_id; n; 0; offset; count] |}.

Lemma getSDR_eq res_id n offset count s :
  let q := sdr_request (dev s) res_id n offset count in
  let s' := {| hist := CIpmb q :: hist s; dev := dev s |} in
  getSDR res_id n offset count s =
    match accepted (env_ipmb (hist s) q) with
    | Some r => Ret (r_data r) s'
    | None => Throw BadOptionalAccess s'
    end.
Proof.
  unfold getSDR. simpl. rewrite (bind_Ret _ _ s (dev s) s) by done.
  erewrite bind_Ret by apply dev_send_eq. fold (sdr_request (dev s) res_id n offset count).
  unfold bind, opt_value. by destruct (accepted _).
Qed.
End requests.

(** ** The SDR reader *)
Section sdr_reader.
Context `{Libm} `{Environment}.

(** One round of the [do]-[while], with the arithmetic of its counters
    resolved: [total] is [22 * k] and never wraps before the last request. *)
Lemma getSDRVals_loop_step fuel res_id n len total cumulative s :
  0 <= total <= len -> len <= 255 ->
  let section := Z.min 0x16 (len - total) in
  getSDRVals_loop (S fuel) res_id n len 0x16 total (total + 5) cumulative s =
    match getSDR res_id n (total + 5) section s with
    | Ret data s' =>
        if section =? 0x16
        then getSDRVals_loop fuel res_id n len 0x16 (total + 0x16) (u8 (total + 0x16 + 5))
               (cumulative ++ drop 2 data) s'
        else Ret (cumulative ++ drop 2 data) s'
    | Throw e s' => Throw e s'
    | Undef f => Undef f
    end.
Proof.
  intros Ht Hl section. cbn [getSDRVals_loop].
  assert (Hsec : (if len <? total + 0x16 then u8 (len - total) else 0x16) = section).
  { unfold section. destruct (Z.ltb_spec len (total + 0x16)); [rewrite u8_small|];
      unfold is_byte; lia. }
  rewrite Hsec. unfold bind. destruct (getSDR _ _ _ _ _) as [data s'| |]; [|done..].
  destruct (Z.eqb_spec section 0x16) as [E|]; [|done]. rewrite E.
  rewrite (u8_small (total + 0x16)) by (unfold is_byte; lia).
  by replace (total + 5 + 0x16) with (total + 0x16 + 5) by lia.
Qed.

(** The counter of the offsets wraps only when no request follows, so the
    loop can be read without the wrap. *)
Lemma getSDRVals_loop_offset fuel res_id n len total cumulative s :
  0 <= total <= len -> len <= 255 -> total mod 0x16 = 0 ->
  getSDRVals_loop fuel res_id n len 0x16 total (u8 (total + 5)) cumulative s =
  getSDRVals_loop fuel res_id n len 0x16 total (total + 5) cumulative s.
Proof.
  intros Ht Hl Hm. rewrite u8_small; [done|]. unfold is_byte.
  enough (total <= 242) by lia. Z.to_euclidean_division_equations. lia.
Qed.

(** A responder: it answers every [Get SDR] with a two-byte prefix and the
    bytes of the record it is asked for. *)
Definition serves_record (d : VITA4611Device) (res_id : Z * Z) (n : Z) (record : list Z) : Prop :=
  forall h offset count, 0 <= offset < 256 -> 0 <= count <= 0x16 ->
    exists r prefix, env_ipmb h (sdr_request d res_id n offset count) = ReplyOk r /\
      r_cc r = 0 /\ length prefix = 2%nat /\
      r_data r = prefix ++ slice record (Z.to_nat offset) (Z.to_nat count).

Lemma getSDR_served d res_id n record offset count s :
  serves_record d res_id n record -> dev s = d ->
  0 <= offset < 256 -> 0 <= count <= 0x16 ->
  exists prefix s', length prefix = 2%nat /\ dev s' = d /\
    getSDR res_id n offset count s =
      Ret (prefix ++ slice record (Z.to_nat offset) (Z.to_nat count)) s'.
Proof.
  intros Hs <- Ho Hc. destruct (Hs (hist s) offset count Ho Hc) as (r & p & E & Hcc & Hp & Hd).
  eexists p, _. split; [done|]. split; [|rewrite getSDR_eq, E; simpl; rewrite Hcc, <- Hd; reflexivity].
  done.
Qed.

Lemma getSDRVals_loop_served d res_id n record len :
  serves_record d res_id n record -> len <= 255 ->
  forall fuel k s, dev s = d -> 0 <= 0x16 * k <= len -> 0 <= k -> len / 0x16 < k + Z.of_nat fuel ->
  exists s', dev s' = d /\
    getSDRVals_loop fuel res_id n len 0x16 (0x16 * k) (0x16 * k + 5)
      (slice record 5 (Z.to_nat (0x16 * k))) s =
    Ret (slice record 5 (Z.to_nat len)) s'.
Proof.
  intros Hserve Hl. induction fuel as [|fuel IH]; intros k s Hd Hk Hk0 Hf.
  { exfalso. Z.to_euclidean_division_equations. lia. }
  rewrite getSDRVals_loop_step by lia.
  set (section := Z.min 0x16 (len - 0x16 * k)).
  assert (0x16 * k <= 242) by (Z.to_euclidean_division_equations; lia).
  destruct (getSDR_served d res_id n record (0x16 * k + 5) section s) as (p & s1 & Hp & Hd1 & ->);
    [done|done|lia|lia|].
  rewrite (drop_app_length' p) by done.
  assert (E : slice record 5 (Z.to_nat (0x16 * k)) ++
              slice record (Z.to_nat (0x16 * k + 5)) (Z.to_nat section)
              = slice record 5 (Z.to_nat (0x16 * k + section))).
  { replace (Z.to_nat (0x16 * k + 5)) with (5 + Z.to_nat (0x16 * k))%nat by lia.
    rewrite slice_slice_adjacent. f_equal. lia. }
  rewrite E. destruct (Z.eqb_spec section 0x16) as [Es|Es].
  - rewrite Es, getSDRVals_loop_offset;
      [|lia|done|by replace (0x16 * k + 0x16) with ((k + 1) * 0x16) by lia; apply Z.mod_mul].
    replace (0x16 * k + 0x16) with (0x16 * (k + 1)) by lia. apply IH; [done|lia..].
  - exists s1. split; [done|]. by replace (0x16 * k + section) with len by lia.
Qed.

(** C32. For every SDR body length the header can
    announce (0 to 255), [getSDRVals] run against a device that serves a
    record reads exactly the [length] bytes after the 5-byte record header,
    cut into requests of 22 bytes; it always returns, the 8-bit counters
    never skipping or repeating a byte. *)
Theorem getSDRVals_returns_record res_id n len record s :
  serves_record (dev s) res_id n record -> 0 <= len <= 255 ->
  exists s', dev s' = dev s /\
    getSDRVals res_id n len s = Ret (slice record 5 (Z.to_nat len)) s'.
Proof.
  intros Hs Hl. unfold getSDRVals.
  apply (getSDRVals_loop_served _ res_id n record len Hs) with (k := 0); [lia|done|lia|lia|].
  Z.to_euclidean_division_equations. lia.
Qed.

Lemma getSDRVals_loop_requests res_id n len :
  len <= 255 ->
  forall fuel k cum s, 0 <= 0x16 * k <= len -> 0 <= k -> len / 0x16 < k + Z.of_nat fuel ->
  exists s' qs, hist s' = map CIpmb qs ++ hist s /\ dev s' = dev s /\
    Z.of_nat (length qs) <= len / 0x16 + 1 - k /\
    (getSDRVals_loop fuel res_id n len 0x16 (0x16 * k) (0x16 * k + 5) cum s
       = Throw BadOptionalAccess s' \/
     exists v, getSDRVals_loop fuel res_id n len 0x16 (0x16 * k) (0x16 * k + 5) cum s = Ret v s').
Proof.
  intros Hl. induction fuel as [|fuel IH]; intros k cum s Hk Hk0 Hf.
  { exfalso. Z.to_euclidean_division_equations. lia. }
  rewrite getSDRVals_loop_step by lia. set (section := Z.min 0x16 (len - 0x16 * k)).
  rewrite getSDR_eq. set (q := sdr_request _ _ _ _ _). cbv zeta.
  set (s1 := {| hist := CIpmb q :: hist s; dev := dev s |}).
  assert (k <= len / 0x16) by (Z.to_euclidean_division_equations; lia).
  destruct (accepted _) as [r|].
  2:{ exists s1, [q]. split; [reflexivity|]. split; [reflexivity|]. split; [simpl; lia|by left]. }
  destruct (Z.eqb_spec section 0x16) as [Es|Es].
  - rewrite getSDRVals_loop_offset;
      [|lia|done|by replace (0x16 * k + 0x16) with ((k + 1) * 0x16) by lia; apply Z.mod_mul].
    replace (0x16 * k + 0x16) with (0x16 * (k + 1)) by lia.
    edestruct (IH (k + 1) (cum ++ drop 2 (r_data r)) s1) as (s' & qs & Hh & Hd & Hn & Hr); [lia|lia|lia|].
    exists s', (qs ++ [q]). split; [|split; [exact Hd|split; [|exact Hr]]].
    + rewrite Hh, map_app, <- app_assoc. reflexivity.
    + rewrite length_app. simpl. lia.
  - exists s1, [q]. split; [reflexivity|]. split; [reflexivity|]. split; [simpl; lia|]. right. by eexists.
Qed.

(** Whatever the bus answers, [getSDRVals] ends after
    at most [length / 22 + 1] requests (12 for the longest record): it
    returns, or throws [bad_optional_access] at a request that failed.  The
    bound of the loop is never what ends it. *)
Theorem getSDRVals_terminates res_id n len s :
  0 <= len <= 255 ->
  exists s' qs, hist s' = map CIpmb qs ++ hist s /\ dev s' = dev s /\
    Z.of_nat (length qs) <= len / 0x16 + 1 /\
    (getSDRVals res_id n len s = Throw BadOptionalAccess s' \/
     exists v, getSDRVals res_id n len s = Ret v s').
Proof.
  intros Hl. unfold getSDRVals.
  destruct (getSDRVals_loop_requests res_id n len ltac:(lia) 13 0 [] s)
    as (s' & qs & Hh & Hd & Hn & Hr); [lia|lia|Z.to_euclidean_division_equations; lia|].
  exists s', qs. repeat split; [done|done|lia|done].
Qed.
End sdr_reader.

(** ** Decoding of the SDR fields *)

(** A property of all bytes, checked by evaluation. *)
Lemma byte_forall (P : Z -> bool) :
  forallb P (seqZ 0 256) = true -> forall b, is_byte b -> P b = true.
Proof.
  intros Hall b Hb. rewrite forallb_forall in Hall. apply Hall.
  apply list_elem_of_In, elem_of_seqZ. unfold is_byte in Hb. lia.
Qed.

(** [M] and [B] are the 10-bit two's-complement
    numbers whose low byte is the first byte and whose two high bits are the
    top bits of the tolerance or accuracy byte, and the exponents are the
    4-bit two's-complement halves of their byte: the [0xFC00] and [0xF0] sign
    extensions of [convert_sensor_reading] are exact, and bound the
    coefficients by -512..511 and -8..7. *)
Theorem sdr_coefficients_decoded lo tol e :
  is_byte lo -> is_byte tol -> 0 <= e < 16 ->
  signed10 lo tol = sext 10 (256 * (tol / 64) + lo) /\
  -512 <= signed10 lo tol < 512 /\
  signed4 e = sext 4 e /\ -8 <= signed4 e < 8.
Proof.
  intros Hlo Htol He.
  assert (H4 : signed4 e = sext 4 e /\ -8 <= signed4 e < 8).
  { pose proof (byte_forall (fun e => negb (e <? 16) ||
      ((signed4 e =? sext 4 e) && (-8 <=? signed4 e) && (signed4 e <? 8))) eq_refl e) as Hb.
    assert (is_byte e) as He' by (unfold is_byte; lia). specialize (Hb He'). cbv beta in Hb. lia. }
  assert (H10 : signed10 lo tol = sext 10 (256 * (tol / 64) + lo) /\
    -512 <= signed10 lo tol < 512); [|intuition].
  assert (E : signed10 lo tol = signed10 lo (64 * (tol / 64))).
  { unfold signed10. rewrite !shiftr_div by lia. change (2 ^ 6) with 64.
    by rewrite (Z.mul_comm 64), Z.div_mul by lia. }
  rewrite E. assert (Ht : 0 <= tol / 64 < 4) by (byte_solve).
  assert (tol / 64 ∈ [0; 1; 2; 3]) as Hin.
  { rewrite !elem_of_cons. lia. }
  pose proof (byte_forall (fun lo => forallb (fun t =>
    (signed10 lo (64 * t) =? sext 10 (256 * t + lo)) && (-512 <=? signed10 lo (64 * t))
    && (signed10 lo (64 * t) <? 512)) [0; 1; 2; 3]) ltac:(vm_compute; reflexivity) lo Hlo) as Hb.
  cbv beta in Hb. rewrite forallb_forall in Hb. specialize (Hb _ (proj1 (list_elem_of_In _ _) Hin)). cbv beta in Hb. lia.
Qed.

Lemma sdr_coefficients_decoded_witness :
  signed10 0xFE 0xC5 = -2 /\ signed4 0xD = -3.
Proof.
  pose proof (sdr_coefficients_decoded 0xFE 0xC5 0xD ltac:(unfold is_byte; lia)
    ltac:(unfold is_byte; lia) ltac:(lia)) as (H10 & _ & H4 & _).
  rewrite H10, H4. split; reflexivity.
Defined.

(** ** The sensor list *)
Section sensor_list.
Context `{Libm} `{Environment}.

Definition numbers (d : VITA4611Device) : list Z := map sensorNumber (sensors d).

(** What reading SDRs may do to the list: numbers stay where they are, new
    ones are appended, and none appears twice if none did. *)
Definition grows (d d' : VITA4611Device) : Prop :=
  (exists more, numbers d' = numbers d ++ more) /\ (NoDup (numbers d) -> NoDup (numbers d')).

Lemma grows_refl d : grows d d.
Proof. split; [exists []; by rewrite app_nil_r|done]. Qed.

Lemma grows_same d d' : numbers d' = numbers d -> grows d d'.
Proof. intros E. split; [exists []; by rewrite app_nil_r|by rewrite E]. Qed.

Lemma grows_trans d1 d2 d3 : grows d1 d2 -> grows d2 d3 -> grows d1 d3.
Proof.
  intros [[m1 E1] N1] [[m2 E2] N2]. split; [|auto].
  exists (m1 ++ m2). by rewrite E2, E1, app_assoc.
Qed.

#[local] Hint Resolve grows_refl : core.

Lemma isSensorDiscovered_true n d : isSensorDiscovered n d = true <-> n ∈ numbers d.
Proof.
  unfold isSensorDiscovered, numbers. rewrite existsb_exists, list_elem_of_fmap.
  split.
  - intros (x & Hin & E). exists x. split; [lia|by apply list_elem_of_In].
  - intros (x & E & Hin). exists x. split; [by apply list_elem_of_In|lia].
Qed.

Lemma getSensorRecord_Some n d i :
  getSensorRecord n d = Some i -> exists s, sensors d !! i = Some s /\ sensorNumber s = n.
Proof.
  unfold getSensorRecord. destruct (list_find _ _) as [[j x]|] eqn:E; [|done].
  intros [= ->]. apply list_find_Some in E as (E1 & E2 & _). by exists x.
Qed.

Lemma getSensorRecord_None n d :
  getSensorRecord n d = None -> ~ n ∈ numbers d.
Proof.
  unfold getSensorRecord, numbers. destruct (list_find _ _) as [|] eqn:E; [done|].
  intros _ Hin. apply list_find_None in E. apply list_elem_of_fmap in Hin as (x & -> & Hx).
  rewrite Forall_forall in E. by apply (E x).
Qed.

Lemma numbers_update i rec (d : VITA4611Device) :
  (exists s, sensors d !! i = Some s /\ sensorNumber s = sensorNumber rec) ->
  numbers (set_sensors (<[i:=rec]> (sensors d)) d) = numbers d.
Proof.
  intros (s & Hs & E). unfold numbers, set_sensors. simpl. rewrite list_fmap_insert.
  apply list_insert_id. by rewrite list_lookup_fmap, Hs, <- E.
Qed.

Lemma numbers_alter i f (d : VITA4611Device) :
  (forall s, sensorNumber (f s) = sensorNumber s) ->
  numbers (set_sensors (alter f i (sensors d)) d) = numbers d.
Proof.
  intros E. unfold numbers, set_sensors. simpl.
  apply list_eq. intros j. rewrite !list_lookup_fmap, list_lookup_alter.
  case_decide; [|done]. subst. destruct (sensors d !! j); simpl; [by rewrite E|done].
Qed.

Lemma grows_append rec (d : VITA4611Device) :
  isSensorDiscovered (sensorNumber rec) d = false ->
  grows d (set_sensors (sensors d ++ [rec]) d).
Proof.
  intros E. assert (~ sensorNumber rec ∈ numbers d) as Hn.
  { rewrite <- isSensorDiscovered_true. by rewrite E. }
  split.
  - exists [sensorNumber rec]. unfold numbers. simpl. by rewrite map_app.
  - unfold numbers. simpl. rewrite map_app. intros. apply NoDup_app. split; [done|].
    split; [|simpl; apply NoDup_singleton].
    intros x Hx Hx'. apply list_elem_of_singleton in Hx' as ->. by apply Hn.
Qed.

End sensor_list.

#[export] Instance grows_preorder : PreOrder grows.
Proof. split; [intros d; apply grows_refl|intros d1 d2 d3; apply grows_trans]. Qed.

(** *** Relations every step of a method keeps *)
Section keeps.
Context `{Libm} `{Environment}.

(** A method keeps a relation on devices. *)
Definition keeps {A} (R : VITA4611Device -> VITA4611Device -> Prop) (m : M DevSt A) : Prop :=
  preserves (fun s s' => R (dev s) (dev s')) m.

#[export] Instance dev_relation_preorder R :
  PreOrder R -> PreOrder (fun s s' : DevSt => R (dev s) (dev s')).
Proof. intros HR. split; [by intros s|]. intros s1 s2 s3 E1 E2. by transitivity (dev s2). Qed.

Context (R : VITA4611Device -> VITA4611Device -> Prop) `{!PreOrder R}.

Lemma keeps_pure {A} (m : M DevSt A) :
  (forall s, match m s with Ret _ s' | Throw _ s' => dev s' = dev s | Undef _ => True end) ->
  keeps R m.
Proof.
  intros Hm s. specialize (Hm s). destruct (m s); [| |done]; by rewrite Hm.
Qed.

Lemma keeps_bind {A B} (m : M DevSt A) (k : A -> M DevSt B) :
  keeps R m -> (forall a, keeps R (k a)) -> keeps R (bind m k).
Proof. apply preserves_bind, _. Qed.
Lemma keeps_ret {A} (a : A) : keeps R (ret a).
Proof. apply preserves_ret, _. Qed.
Lemma keeps_opt_value {A} (o : option A) : keeps R (opt_value o).
Proof. destruct o; [apply preserves_ret, _|apply preserves_throw, _]. Qed.
Lemma keeps_the_dev : keeps R the_dev.
Proof. by apply keeps_pure. Qed.
Lemma keeps_dev_send a b c d e f : keeps R (dev_send a b c d e f).
Proof. apply keeps_pure. intros s. rewrite dev_send_eq. done. Qed.
Lemma keeps_on_dev f : (forall d, R d (f d)) -> keeps R (on_dev f).
Proof. intros Hf s. apply Hf. Qed.
End keeps.

Ltac keeps_tac :=
  unfold keeps in *;
  preserve_with ltac:(first [ apply keeps_opt_value, _ | apply keeps_the_dev, _
                            | apply keeps_dev_send, _ | solve [eauto] ]).

(** The operations that do not write the sensor list keep any preorder. *)
Section any_relation.
Context `{Libm} `{Environment} (R : VITA4611Device -> VITA4611Device -> Prop) `{!PreOrder R}.

Lemma keeps_getSDR res_id n off count : keeps R (getSDR res_id n off count).
Proof. unfold getSDR. keeps_tac. Qed.

Lemma keeps_reserveSDRRepo : keeps R reserveSDRRepo.
Proof. unfold reserveSDRRepo. keeps_tac. Qed.

Lemma keeps_getSDRVals res_id n len : keeps R (getSDRVals res_id n len).
Proof.
  unfold getSDRVals. generalize 13%nat, 22, 0, 5, (@nil Z).
  intros fuel. induction fuel as [|fuel IH]; intros; simpl; [by apply keeps_pure|].
  apply keeps_bind; [done|apply keeps_getSDR|intros data].
  match goal with |- keeps _ (if ?b then _ else _) => destruct b end; [apply IH|by apply keeps_ret].
Qed.

Lemma keeps_full_record hdr vals : keeps R (full_record hdr vals).
Proof. unfold full_record. keeps_tac. Qed.

(** A scan keeps a relation that the two record handlers keep. *)
Lemma keeps_getAllSDRs_of :
  (forall hdr vals, keeps R (handleFullSdr hdr vals)) ->
  (forall hdr vals, keeps R (handleCompactSdr hdr vals)) -> keeps R getAllSDRs.
Proof.
  intros Hfull Hcompact. unfold getAllSDRs.
  apply keeps_bind; [done|apply keeps_reserveSDRRepo|intros res_id].
  keeps_tac. generalize 0. induction (Z.to_nat _) as [|n IH]; intros i; simpl; [by apply keeps_ret|].
  apply keeps_bind; [done| |intros []; apply IH]. unfold readSDR, getSDRHeader.
  pose proof keeps_getSDR. pose proof keeps_getSDRVals. keeps_tac.
Qed.
End any_relation.

Section sensor_list_operations.
Context `{Libm} `{Environment}.

Lemma keeps_handleFullSdr hdr vals : keeps grows (handleFullSdr hdr vals).
Proof.
  unfold handleFullSdr. apply keeps_bind; [exact _|apply keeps_full_record, _|].
  intros rec. apply keeps_on_dev. intros d. destruct (isSensorDiscovered _ d) eqn:E.
  - destruct (getSensorRecord _ d) as [i|] eqn:Ei; [|apply grows_refl].
    apply grows_same, numbers_update. by apply getSensorRecord_Some.
  - by apply grows_append.
Qed.

Lemma keeps_handleCompactSdr hdr vals : keeps grows (handleCompactSdr hdr vals).
Proof.
  unfold handleCompactSdr. keeps_tac. apply keeps_on_dev. intros d.
  destruct (isSensorDiscovered _ d) eqn:E.
  - destruct (getSensorRecord _ d) as [i|]; [|apply grows_refl]. by apply grows_same, numbers_alter.
  - by apply grows_append.
Qed.

Lemma keeps_getAllSDRs : keeps grows getAllSDRs.
Proof.
  apply keeps_getAllSDRs_of; [exact _|apply keeps_handleFullSdr|apply keeps_handleCompactSdr].
Qed.
End sensor_list_operations.

(** *** A device keeps its addresses *)
Section addresses.
Context `{Libm} `{Environment}.

Definition same_addresses (d d' : VITA4611Device) : Prop :=
  ipmi_address d' = ipmi_address d /\ hw_address d' = hw_address d /\
  site_number d' = site_number d /\ site_type d' = site_type d /\ channel d' = channel d.

#[export] Instance same_addresses_preorder : PreOrder same_addresses.
Proof.
  split; [by intros d|]. intros d1 d2 d3 (?&?&?&?&?) (?&?&?&?&?). unfold same_addresses. intuition congruence.
Qed.

Ltac addresses_tac :=
  keeps_tac; try (apply keeps_on_dev; intros ?; repeat case_match; done).

Lemma addresses_getAllSDRs : keeps same_addresses getAllSDRs.
Proof.
  apply keeps_getAllSDRs_of; [exact _|..]; intros hdr vals.
  - unfold handleFullSdr. apply keeps_bind; [exact _|apply keeps_full_record, _|intros rec]. addresses_tac.
  - unfold handleCompactSdr. addresses_tac.
Qed.

Lemma addresses_enumerateFRUSensors fru addr : keeps same_addresses (enumerateFRUSensors fru addr).
Proof.
  assert (P : forall types payload i, keeps same_addresses (push_mandatories payload i types)).
  { induction types as [|ty types IH]; intros payload i; simpl; addresses_tac. }
  unfold enumerateFRUSensors. pose proof addresses_getAllSDRs. addresses_tac.
Qed.

Lemma addresses_construct : keeps same_addresses construct_device.
Proof.
  unfold construct_device, queryDeviceId, queryVsoCapabilities, read_vsocaps, discoverFRUs.
  pose proof addresses_enumerateFRUSensors. addresses_tac.
  match goal with |- context [seqZ 0 ?n] => generalize (seqZ 0 n) end. intros l. induction l; simpl; addresses_tac.
Qed.

Lemma new_device_addresses chan addr h d h' :
  new_VITA4611Device chan addr h = Ret d h' -> same_addresses (raw_device chan addr) d.
Proof.
  unfold new_VITA4611Device. pose proof (addresses_construct {| hist := h; dev := raw_device chan addr |}) as K.
  destruct (construct_device _) as [[] s| |]; [|done..]. by intros [= <- _].
Qed.
End addresses.

(** Whatever the device answers, a scan of its SDRs
    ([checkSDRInfo], which rescans when the population indicator changed),
    whether it returns or throws, never drops or renumbers a known sensor, and
    keeps the numbers in the sensor list distinct: a record for a known number
    replaces that sensor, any other is appended. *)
Theorem sdr_scan_keeps_sensors `{Libm} `{Environment} s s' :
  (checkSDRInfo s = Ret tt s' \/ exists e, checkSDRInfo s = Throw e s') ->
  (exists more, numbers (dev s') = numbers (dev s) ++ more) /\
  (NoDup (numbers (dev s)) -> NoDup (numbers (dev s'))).
Proof.
  assert (K : keeps grows checkSDRInfo).
  { unfold checkSDRInfo. pose proof keeps_getAllSDRs. keeps_tac.
    all: by apply keeps_on_dev; intros d; apply grows_same. }
  specialize (K s). by intros [E|[e E]]; rewrite E in K.
Qed.

(** ** Full sensor records *)
Section full_records.
Context `{Libm} `{Environment}.

(** A full record is complete when it holds the fixed fields and the name its
    type/length byte announces. *)
Definition full_sdr_complete (v : list Z) : bool :=
  match v !! 42%nat with
  | Some t => 43 + Z.land t 0x1F <=? Z.of_nat (length v)
  | None => false
  end.

Lemma bind_idx {S B} v i (k : Z -> M S B) s :
  bind (idx v i) k s = match v !! i with Some b => k b s | None => Undef OutOfBounds end.
Proof. unfold bind, idx. by destruct (v !! i). Qed.

Lemma lookup_below (v : list Z) i j : (i <= j)%nat -> is_Some (v !! j) -> exists b, v !! i = Some b.
Proof. intros Hij Hj. apply lookup_lt_is_Some in Hj. apply lookup_lt_is_Some. lia. Qed.

(** Run an [idx] of a list known to reach index [42]. *)
Ltac read_field Hlen :=
  rewrite bind_idx;
  match goal with |- context [?v !! ?i] =>
    destruct (lookup_below v i 42 ltac:(lia) Hlen) as [? ->] end.

Lemma full_record_complete hdr v s :
  full_sdr_complete v = true ->
  exists rec, full_record hdr v s = Ret rec s /\ sensorIface rec = None /\
    v !! 2%nat = Some (sensorNumber rec) /\ sdr_info_raw rec = v /\ is_Some (full rec).
Proof.
  unfold full_sdr_complete. destruct (v !! 42%nat) as [t|] eqn:E; [|done]. intros Hc.
  assert (Hlen : is_Some (v !! 42%nat)) by by rewrite E.
  unfold full_record. destruct (lookup_below v 2 42 ltac:(lia) Hlen) as [n Hn].
  rewrite bind_idx, Hn. do 11 read_field Hlen. rewrite bind_idx, E.
  unfold bind at 1, read_range at 1. rewrite Hc.
  unfold ret at 1. do 13 read_field Hlen. eexists. split; [reflexivity|]. simpl. eauto.
Qed.

Lemma full_record_incomplete hdr v s :
  full_sdr_complete v = false -> full_record hdr v s = Undef OutOfBounds.
Proof.
  intros Hc. unfold full_record. do 12 (rewrite bind_idx; destruct (v !! _); [|done]).
  rewrite bind_idx. unfold full_sdr_complete in Hc. destruct (v !! 42%nat) as [t|]; [|done].
  unfold bind at 1, read_range at 1. by rewrite Hc.
Qed.

(** [handleFullSdr] is defined exactly on
    complete records: with 43 bytes and the announced name it stores a record
    for the sensor and returns; on any shorter record, which a device is free
    to send, it reads past the end of the vector. *)
Theorem full_sdr_needs_complete_record hdr v s :
  if full_sdr_complete v
  then exists s' rec, handleFullSdr hdr v s = Ret tt s' /\ hist s' = hist s /\
         In rec (sensors (dev s')) /\ v !! 2%nat = Some (sensorNumber rec) /\ sdr_info_raw rec = v
  else handleFullSdr hdr v s = Undef OutOfBounds.
Proof.
  destruct (full_sdr_complete v) eqn:Hc; unfold handleFullSdr.
  - destruct (full_record_complete hdr v s Hc) as (rec & E & _ & Hn & Hv & _).
    rewrite (bind_Ret _ _ _ _ _ E). eexists _, rec.
    split; [reflexivity|]. split; [reflexivity|]. split; [|done]. cbn [dev].
    destruct (isSensorDiscovered _ _) eqn:Ed.
    + destruct (getSensorRecord _ _) as [i|] eqn:Ei.
      * apply getSensorRecord_Some in Ei as (x & Hx & _).
        apply list_elem_of_In, list_elem_of_lookup. exists i.
        apply list_lookup_insert_eq. by apply lookup_lt_is_Some; exists x.
      * apply getSensorRecord_None in Ei. by apply isSensorDiscovered_true in Ed.
    + apply in_app_iff. simpl. auto.
  - by rewrite (bind_Undef _ _ _ _ (full_record_incomplete hdr v s Hc)).
Qed.
End full_records.

(** ** What a failed request does *)
Section failures.
Context `{Libm} `{BridgeContract}.

Definition reading_request (address chan : Z) (s : SensorRecord) : IpmbReq :=
  {| rq_channel := chan; rq_addr := address; rq_netfn := NETFN_S_E; rq_lun := 0;
     rq_cmd := IPMI_GET_SENSOR_READING_CMD; rq_data := [sensorNumber s] |}.

Definition device_id_request (address : Z) : IpmbReq :=
  {| rq_channel := 0; rq_addr := address; rq_netfn := NETFN_APP; rq_lun := 0;
     rq_cmd := IPMI_GET_DEVICE_ID_CMD; rq_data := [] |}.

Lemma sendIPMBRequest_eq chan addr netfn lun cmd data h :
  let q := {| rq_channel := chan; rq_addr := addr; rq_netfn := netfn; rq_lun := lun;
              rq_cmd := cmd; rq_data := data |} in
  exists cc, sendIPMBRequest chan addr netfn lun cmd data h =
    Ret (accepted (env_ipmb h q), cc) (CIpmb q :: h).
Proof.
  unfold sendIPMBRequest, accepted. simpl. destruct (env_ipmb _ _) as [| |r]; [by eexists..|].
  destruct (r_cc r =? 0); by eexists.
Qed.

Lemma failed_reply_accepted h q r :
  env_ipmb h q = ReplyOk r -> r_status r <> 0 ->
  accepted (env_ipmb h q) = Some r /\ r_data r = [].
Proof.
  intros E Hr. destruct (bridge_contract _ _ _ E Hr) as (st & _ & ->). by rewrite E.
Qed.

(** [sendIPMBRequest] documents that it
    returns nothing when the request fails or times out.  It never looks at
    the status the bridge returns, and a failed request has a zero completion
    code: so a device that does not answer is recorded as one with a valid
    (empty) device id, and polling a sensor of a silent device indexes the
    empty reply, which is undefined behaviour. *)
Theorem failed_request_taken_for_success s r address chan sensor :
  (env_ipmb (hist s) (device_id_request address) = ReplyOk r -> r_status r <> 0 ->
   exists s', queryDeviceId address s = Ret tt s' /\
     validDeviceID (dev s') = Some true /\ DeviceIDData (dev s') = []) /\
  (env_ipmb (hist s) (reading_request address chan sensor) = ReplyOk r -> r_status r <> 0 ->
   getSensorReading address chan sensor (hist s) = Undef OutOfBounds).
Proof.
  split; intros E Hr; destruct (failed_reply_accepted _ _ _ E Hr) as [Ha Hd].
  - eexists. split.
    + unfold queryDeviceId. erewrite bind_Ret by apply dev_send_eq.
      fold (device_id_request address). rewrite Ha. reflexivity.
    + by rewrite Hd.
  - unfold getSensorReading.
    destruct (sendIPMBRequest_eq chan address NETFN_S_E 0 IPMI_GET_SENSOR_READING_CMD
      [sensorNumber sensor] (hist s)) as [cc Es].
    rewrite (bind_Ret _ _ _ _ _ Es). fold (reading_request address chan sensor).
    rewrite Ha. unfold bind, idx. cbn. by rewrite Hd.
Qed.
End failures.

(** ** Readings and their publication *)
Section readings.
Context `{Libm} `{Environment}.

(** One sensor polled after the history [h]: the raw value is the first byte
    of the reply, or zero when there is none; the reading is its conversion;
    it is published exactly when the sensor owns a D-Bus object. *)
Definition polled (address : Z) (h : list Call) (s s' : SensorRecord) (h' : list Call) : Prop :=
  let q := reading_request address 0 s in
  exists f, full s = Some f /\
    sensorNumber s' = sensorNumber s /\ sensorIface s' = sensorIface s /\ full s' = full s /\
    raw_reading s' = match accepted (env_ipmb h q) with
                     | Some r => default 0 (r_data r !! 0%nat)
                     | None => 0
                     end /\
    reading_converted s' = Some (convert_sensor_reading (coeffs f) (raw_reading s')) /\
    h' = match sensorIface s with
         | Some path => [CSensorValue path (convert_sensor_reading (coeffs f) (raw_reading s'))]
         | None => []
         end ++ CIpmb q :: h.

Inductive polled_all (address : Z) :
    list Call -> list SensorRecord -> list SensorRecord -> list Call -> Prop :=
  | polled_nil h : polled_all address h [] [] h
  | polled_cons h s s' h' ss ss' h'' :
      polled address h s s' h' -> polled_all address h' ss ss' h'' ->
      polled_all address h (s :: ss) (s' :: ss') h''.

(** A poll of [address] is answered when every accepted reply has data. *)
Definition answers_readings (address : Z) : Prop :=
  forall h s r, accepted (env_ipmb h (reading_request address 0 s)) = Some r -> r_data r <> [].

Lemma getSensorReading_polled address s h :
  answers_readings address -> is_Some (full s) ->
  exists s' h', getSensorReading address 0 s h = Ret s' h' /\ polled address h s s' h'.
Proof.
  intros Ha [f Hf]. unfold getSensorReading.
  destruct (sendIPMBRequest_eq 0 address NETFN_S_E 0 IPMI_GET_SENSOR_READING_CMD
    [sensorNumber s] h) as [cc Es].
  rewrite (bind_Ret _ _ _ _ _ Es). fold (reading_request address 0 s).
  set (q := reading_request address 0 s).
  set (raw := match accepted (env_ipmb h q) with
              | Some r => default 0 (r_data r !! 0%nat) | None => 0 end).
  erewrite (bind_Ret _ _ _ raw).
  2:{ subst raw. cbn [fst]. specialize (Ha h s). fold q in Ha.
      destruct (accepted (env_ipmb h q)) as [r|]; [|reflexivity].
      unfold idx. destruct (r_data r) as [|b l] eqn:E; [by destruct (Ha r)|reflexivity]. }
  erewrite (bind_Ret _ _ _ f) by by rewrite Hf.
  unfold polled. fold q. fold raw. destruct (sensorIface s) as [path|] eqn:Ei.
  all: eexists _, _; split; [reflexivity|]; exists f; repeat split; done.
Qed.

(** A poll of a device whose sensors all come from
    full records, and whose accepted replies are not empty, never fails: it
    requests every sensor once, in order, on channel 0, replaces each reading
    by the conversion of the reply's first byte (zero when the request was
    rejected), and publishes it on the sensor's own D-Bus object, if it has
    one. *)
Theorem poll_publishes_readings s :
  answers_readings (ipmi_address (dev s)) ->
  Forall (fun r => is_Some (full r)) (sensors (dev s)) ->
  exists s', getAllSensorReadings s = Ret tt s' /\
    polled_all (ipmi_address (dev s)) (hist s) (sensors (dev s)) (sensors (dev s')) (hist s') /\
    numbers (dev s') = numbers (dev s).
Proof.
  intros Ha Hf.
  assert (L : forall ss h, Forall (fun r => is_Some (full r)) ss ->
    exists ss' h', mmap (getSensorReading (ipmi_address (dev s)) 0) ss h = Ret ss' h' /\
      polled_all (ipmi_address (dev s)) h ss ss' h' /\ map sensorNumber ss' = map sensorNumber ss).
  { induction ss as [|x ss IH]; intros h HF.
    { exists [], h. split; [done|]. split; [constructor|done]. }
    apply Forall_cons in HF as [Hx HF].
    destruct (getSensorReading_polled _ x h Ha Hx) as (x' & h1 & E & P).
    destruct (IH h1 HF) as (ss' & h2 & E2 & P2 & N2).
    exists (x' :: ss'), h2. cbn [mmap]. rewrite (bind_Ret _ _ _ _ _ E), (bind_Ret _ _ _ _ _ E2).
    split; [done|]. split; [by econstructor|]. destruct P as (f & _ & N & _). simpl. by rewrite N, N2. }
  destruct (L (sensors (dev s)) (hist s) Hf) as (ss' & h' & E & P & N).
  eexists. split; [|split].
  - unfold getAllSensorReadings. rewrite (bind_Ret _ _ s (dev s) s) by done.
    unfold lift_hist, zoom, bind. rewrite E. reflexivity.
  - exact P.
  - exact N.
Qed.

(** When a full record of a known sensor is read
    again, as [checkSDRInfo] does after the population indicator changed, the
    fresh record replaces the one that owned the D-Bus object: the sensor's
    object is gone, and later polls read the sensor without publishing it. *)
Theorem rescan_unpublishes_sensor hdr v s i old :
  full_sdr_complete v = true ->
  getSensorRecord (default 0 (v !! 2%nat)) (dev s) = Some i -> sensors (dev s) !! i = Some old ->
  exists s' rec, handleFullSdr hdr v s = Ret tt s' /\ sensors (dev s') !! i = Some rec /\
    sensorNumber rec = sensorNumber old /\ sensorIface rec = None /\
    forall h rec' h', getSensorReading (ipmi_address (dev s')) 0 rec h = Ret rec' h' ->
      h' = CIpmb (reading_request (ipmi_address (dev s')) 0 rec) :: h.
Proof.
  intros Hc Hi Ho. destruct (full_record_complete hdr v s Hc) as (rec & E & Hif & Hn & _).
  rewrite Hn in Hi. simpl in Hi. pose proof (getSensorRecord_Some _ _ _ Hi) as (x & Hx & Ex).
  unfold handleFullSdr. rewrite (bind_Ret _ _ _ _ _ E). eexists _, rec. split; [reflexivity|].
  cbn [dev]. rewrite (proj2 (isSensorDiscovered_true _ _)), Hi.
  2:{ rewrite <- Ex. apply list_elem_of_fmap. exists x. split; [done|]. by eapply list_elem_of_lookup_2. }
  split; [by apply list_lookup_insert_eq; eapply lookup_lt_Some|].
  split; [congruence|]. split; [done|]. intros h rec' h'. unfold getSensorReading.
  destruct (sendIPMBRequest_eq 0 (ipmi_address (dev s)) NETFN_S_E 0 IPMI_GET_SENSOR_READING_CMD
    [sensorNumber rec] h) as [cc Es].
  cbn [ipmi_address set_sensors].
  rewrite (bind_Ret _ _ _ _ _ Es). unfold bind. rewrite Hif.
  destruct (accepted _) as [r|]; cbn; unfold idx;
    [destruct (r_data r); [done|]|]; cbn; destruct (full rec); [|done| |done]; by intros [= _ <-].
Qed.
End readings.

(** ** Concrete surroundings for the examples *)
Definition ok_reply (data : list Z) : DbusReply :=
  ReplyOk {| r_status := 0; r_netFn := 0; r_lun := 0; r_cmd := 0; r_cc := 0; r_data := data |}.

(** Requests answered by a function of the request, everything else works. *)
Definition answering (f : IpmbReq -> DbusReply) : Environment :=
  {| env_ipmb := fun _ q => f q; env_i2c_open := true; env_probe := fun _ a => a =? 0x41;
     env_fan_target := fun _ => Some 120; env_service_active := fun _ => true;
     env_stop_unit := fun _ => true; env_start_unit := fun _ => true;
     env_set_target := fun _ => true; env_sensor_new := fun _ _ => true |}.

(** A repository that holds one record. *)
Definition record_server (record : list Z) (q : IpmbReq) : DbusReply :=
  match rq_data q with
  | [_; _; _; _; off; count] => ok_reply ([1; 0] ++ slice record (Z.to_nat off) (Z.to_nat count))
  | _ => ReplyMethodError
  end.

(** A silent module: the bridge reports a timeout. *)
Definition silent (q : IpmbReq) : DbusReply := ReplyOk (returnStatus timeout).

Lemma silent_contract : @BridgeContract (answering silent).
Proof.
  intros h q r E _. injection E as <-. exists timeout. split; [discriminate|reflexivity].
Qed.

(** A full record: a temperature sensor (number 7, name "T1"), [M = 1]. *)
Definition sample_body : list Z :=
  [0x20; 0; 7; 0; 0; 0; 0x68; 1; 1; 0; 0; 0; 0; 0; 0; 0; 1; 0; 0; 1; 0; 0; 0; 0; 0; 0;
   25; 0; 0; 0; 0; 90; 80; 70; 5; 10; 15; 0; 0; 0; 0; 0; 0xC2; 0x54; 0x31].
Definition sample_state : DevSt := {| hist := []; dev := raw_device 0 0x82 |}.
Definition sample_sensor : SensorRecord :=
  match @full_record libm_example [] sample_body sample_state with
  | Ret rec _ => rec
  | _ => new_SensorRecord 0 FRUSensor_Type_UNKNOWN
  end.
Definition published (s : SensorRecord) : SensorRecord :=
  {| sensorNumber := sensorNumber s; sensorType := sensorType s; raw_reading := raw_reading s;
     reading_converted := reading_converted s; sdr_header_raw := sdr_header_raw s;
     sdr_info_raw := sdr_info_raw s; SDR_Name := SDR_Name s; SDR_Units := SDR_Units s;
     sensorIface := Some "/xyz/openbmc_project/sensors/temperature/T1_1"%string; full := full s |}.
Definition sampled_state : DevSt :=
  {| hist := []; dev := set_sensors [published sample_sensor] (raw_device 0 0x82) |}.

Lemma getSDRVals_returns_record_witness :
  exists s', @getSDRVals (answering (record_server (seqZ 0 70))) (1, 2) 3 60 sample_state =
    Ret (seqZ 5 60) s'.
Proof.
  destruct (@getSDRVals_returns_record (answering (record_server (seqZ 0 70)))
    (1, 2) 3 60 (seqZ 0 70) sample_state) as (s' & _ & E).
  - intros h off count Ho Hc. eexists _, [1; 0]. repeat split.
  - lia.
  - exists s'. rewrite E. f_equal.
Defined.

Lemma getSDRVals_terminates_witness :
  exists s', @getSDRVals (answering silent) (1, 2) 3 200 sample_state = Throw BadOptionalAccess s' \/
    exists v, @getSDRVals (answering silent) (1, 2) 3 200 sample_state = Ret v s'.
Proof.
  destruct (@getSDRVals_terminates (answering silent) (1, 2) 3 200 sample_state ltac:(lia))
    as (s' & qs & _ & _ & _ & R).
  by exists s'.
Defined.

(** A device whose indicator has changed and that has one record. *)
Definition one_record_device (q : IpmbReq) : DbusReply :=
  if rq_cmd q =? IPMITOOL_CMD_GET_SDR_INFO then ok_reply [1; 0x81; 1; 2; 3; 4]
  else if rq_cmd q =? IPMITOOL_CMD_RESERVE_SDR_REPO then ok_reply [9; 9]
  else record_server ([1; 0; 0x51; 1; 45] ++ sample_body) q.
Definition one_record_state : DevSt :=
  {| hist := []; dev := set_sdr_info (Some 1) (Some 1) [] (raw_device 0 0x82) |}.
Definition rescan_final : DevSt :=
  match @checkSDRInfo libm_example (answering one_record_device) one_record_state with
  | Ret _ s => s
  | _ => one_record_state
  end.

Lemma sdr_scan_keeps_sensors_witness :
  numbers (dev rescan_final) = [7] /\ NoDup (numbers (dev rescan_final)).
Proof.
  split; [vm_compute; reflexivity|].
  apply (@sdr_scan_keeps_sensors libm_example (answering one_record_device)
    one_record_state rescan_final); [left; vm_compute; reflexivity|constructor].
Defined.

Lemma failed_request_taken_for_success_witness :
  @getSensorReading libm_example (answering silent) 0x82 0 sample_sensor [] = Undef OutOfBounds.
Proof.
  pose proof silent_contract.
  apply (@failed_request_taken_for_success libm_example (answering silent) silent_contract
    sample_state (returnStatus timeout) 0x82 0 sample_sensor); [reflexivity|discriminate].
Defined.

Lemma poll_publishes_readings_witness :
  exists s', @getAllSensorReadings libm_example (answering (fun _ => ok_reply [33])) sampled_state
      = Ret tt s' /\ numbers (dev s') = [7].
Proof.
  destruct (@poll_publishes_readings libm_example (answering (fun _ => ok_reply [33])) sampled_state)
    as (s' & E & _ & N).
  - intros h s r Hr. injection Hr as <-. discriminate.
  - repeat constructor. vm_compute. eexists; reflexivity.
  - exists s'. split; [exact E|]. rewrite N. vm_compute. reflexivity.
Defined.

Lemma rescan_unpublishes_sensor_witness :
  exists s' rec, @handleFullSdr libm_example [] sample_body sampled_state = Ret tt s' /\
    sensors (dev s') !! 0%nat = Some rec /\ sensorIface rec = None.
Proof.
  destruct (@rescan_unpublishes_sensor libm_example (answering silent) [] sample_body
    sampled_state 0 (published sample_sensor)) as (s' & rec & E & H1 & _ & H2 & _);
    [vm_compute; reflexivity..|].
  exists s', rec. by repeat split.
Defined.
