(* ===== verification/ChassisManager.v ===== *)
(** * The chassis manager

    The class [VITA4611_ChassisManager] of [vita4611cm.cpp] and the entry
    points of [vita4611.cpp]: enumeration of the bus, the command handlers,
    the passthrough to the modules, sensor exposure and polling, the fan
    policy with its restart timer, and the worker thread's queue. *)
From Stdlib Require Import ZArith Lia String Ascii.
From stdpp Require Import base list strings pretty.
From S2P Require Import Prelude Doubles IpmbBridge Transport VitaDevice.
Local Open Scope Z_scope.

Definition CHMC_I2C_ADDRESS : Z := 0x20.
Definition CHMC_IPMI_ADDRESS : Z := Z.shiftl CHMC_I2C_ADDRESS 1.
Definition VITA4611_GET_CHASSIS_ADDRESS_TABLE_INFO_CMD : Z := 0x01.
Definition VITA4611_GET_CHASSIS_ID_CMD : Z := 0x02.
Definition VITA4611_SET_CHASSIS_ID_CMD : Z := 0x03.
Definition VITA4611_FRU_CONTROL : Z := 0x04.
Definition VITA4611_SET_IPMB_STATE_CMD : Z := 0x09.
Definition VITA4611_SET_FRU_STATE_POLICY_BITS_CMD : Z := 0x0A.
Definition VITA4611_GET_FRU_STATE_POLICY_BITS_CMD : Z := 0x0B.
Definition VITA4611_SET_FRU_ACTIVATION_CMD : Z := 0x0C.
Definition VITA4611_GET_DEVICE_LOCATOR_RECORD_ID_CMD : Z := 0x0D.
Definition VITA4611_GET_FAN_SPEED_PROPERTIES_CMD : Z := 0x14.
Definition VITA4611_SET_FAN_LEVEL_CMD : Z := 0x15.
Definition VITA4611_GET_FAN_LEVEL_CMD : Z := 0x16.
Definition VITA4611_GET_CHASSIS_MANAGER_IPMB_ADDRESS_CMD : Z := 0x1B.
Definition VITA4611_SET_FAN_POLICY_CMD : Z := 0x1C.
Definition VITA4611_GET_FAN_POLICY_CMD : Z := 0x1D.
Definition VITA4611_CHASSIS_MANAGER_IP_ADDRESSES_CMD : Z := 0x21.
Definition VITA4611_GET_FRU_ADDRESS_INFO_CMD : Z := 0x40.

Record CAT_entry := { entry_hw_address : Z; entry_site_num : Z; entry_site_type : Z }.

(** The chassis address table. *)
Record CAT := {
  record_type_id : Z; version : Z; record_length : Z; record_checksum : Z;
  header_checksum : Z; manufacturer_id : list Z; vita_record_id : Z;
  record_format_version : Z; chassis_id_type : Z; chassis_id_field : list Z;
  chassis_add_table_entries_count : Z; entries : list CAT_entry }.

Record I2CDeviceInfo := {
  i2cbus : Z; devicei2caddress : Z; i2c_channel : Z; ShMCi2caddress : Z }.

(** [deviceMap] is a [std::map], kept here as the list of its nodes in key
    order; [operator[]] inserts a null pointer for a key it does not hold.
    [timer_armed] and [restarts_queued] are the state of the asynchronous wait
    on [fanRestartTimer]: a timer that has expired queues its handler, and
    [cancel] no longer reaches it. *)
Record ChM := {
  ch_hist : list Call;
  chassisAddressTable : CAT;
  m_ipmb_a_enable : Z; m_ipmb_b_enable : Z;
  m_ipmb_a_Link_ID : Z; m_ipmb_b_Link_ID : Z;
  address_count : Z; ch_site_type : Z; ch_site_number : Z; max_unavailable_time : Z;
  address_type : Z; ip_address : list Z;
  fanRestartTimer : option Z; timer_armed : bool; restarts_queued : nat;
  i2cdeviceMap : list (Z * list I2CDeviceInfo);
  deviceMap : list (Z * option VITA4611Device) }.

(** Member updates. *)
Definition set_ch_hist h (s : ChM) : ChM :=
  {| ch_hist := h; chassisAddressTable := chassisAddressTable s;
     m_ipmb_a_enable := m_ipmb_a_enable s; m_ipmb_b_enable := m_ipmb_b_enable s;
     m_ipmb_a_Link_ID := m_ipmb_a_Link_ID s; m_ipmb_b_Link_ID := m_ipmb_b_Link_ID s;
     address_count := address_count s; ch_site_type := ch_site_type s;
     ch_site_number := ch_site_number s; max_unavailable_time := max_unavailable_time s;
     address_type := address_type s; ip_address := ip_address s;
     fanRestartTimer := fanRestartTimer s; timer_armed := timer_armed s;
     restarts_queued := restarts_queued s;
     i2cdeviceMap := i2cdeviceMap s; deviceMap := deviceMap s |}.
Definition set_CAT c (s : ChM) : ChM :=
  {| ch_hist := ch_hist s; chassisAddressTable := c;
     m_ipmb_a_enable := m_ipmb_a_enable s; m_ipmb_b_enable := m_ipmb_b_enable s;
     m_ipmb_a_Link_ID := m_ipmb_a_Link_ID s; m_ipmb_b_Link_ID := m_ipmb_b_Link_ID s;
     address_count := address_count s; ch_site_type := ch_site_type s;
     ch_site_number := ch_site_number s; max_unavailable_time := max_unavailable_time s;
     address_type := address_type s; ip_address := ip_address s;
     fanRestartTimer := fanRestartTimer s; timer_armed := timer_armed s;
     restarts_queued := restarts_queued s;
     i2cdeviceMap := i2cdeviceMap s; deviceMap := deviceMap s |}.
Definition set_ipmb_a enable link (s : ChM) : ChM :=
  {| ch_hist := ch_hist s; chassisAddressTable := chassisAddressTable s;
     m_ipmb_a_enable := enable; m_ipmb_b_enable := m_ipmb_b_enable s;
     m_ipmb_a_Link_ID := link; m_ipmb_b_Link_ID := m_ipmb_b_Link_ID s;
     address_count := address_count s; ch_site_type := ch_site_type s;
     ch_site_number := ch_site_number s; max_unavailable_time := max_unavailable_time s;
     address_type := address_type s; ip_address := ip_address s;
     fanRestartTimer := fanRestartTimer s; timer_armed := timer_armed s;
     restarts_queued := restarts_queued s;
     i2cdeviceMap := i2cdeviceMap s; deviceMap := deviceMap s |}.
Definition set_ipmb_b enable link (s : ChM) : ChM :=
  {| ch_hist := ch_hist s; chassisAddressTable := chassisAddressTable s;
     m_ipmb_a_enable := m_ipmb_a_enable s; m_ipmb_b_enable := enable;
     m_ipmb_a_Link_ID := m_ipmb_a_Link_ID s; m_ipmb_b_Link_ID := link;
     address_count := address_count s; ch_site_type := ch_site_type s;
     ch_site_number := ch_site_number s; max_unavailable_time := max_unavailable_time s;
     address_type := address_type s; ip_address := ip_address s;
     fanRestartTimer := fanRestartTimer s; timer_armed := timer_armed s;
     restarts_queued := restarts_queued s;
     i2cdeviceMap := i2cdeviceMap s; deviceMap := deviceMap s |}.
Definition set_timer timer armed queued (s : ChM) : ChM :=
  {| ch_hist := ch_hist s; chassisAddressTable := chassisAddressTable s;
     m_ipmb_a_enable := m_ipmb_a_enable s; m_ipmb_b_enable := m_ipmb_b_enable s;
     m_ipmb_a_Link_ID := m_ipmb_a_Link_ID s; m_ipmb_b_Link_ID := m_ipmb_b_Link_ID s;
     address_count := address_count s; ch_site_type := ch_site_type s;
     ch_site_number := ch_site_number s; max_unavailable_time := max_unavailable_time s;
     address_type := address_type s; ip_address := ip_address s;
     fanRestartTimer := timer; timer_armed := armed; restarts_queued := queued;
     i2cdeviceMap := i2cdeviceMap s; deviceMap := deviceMap s |}.
Definition set_maps i2c devs (s : ChM) : ChM :=
  {| ch_hist := ch_hist s; chassisAddressTable := chassisAddressTable s;
     m_ipmb_a_enable := m_ipmb_a_enable s; m_ipmb_b_enable := m_ipmb_b_enable s;
     m_ipmb_a_Link_ID := m_ipmb_a_Link_ID s; m_ipmb_b_Link_ID := m_ipmb_b_Link_ID s;
     address_count := address_count s; ch_site_type := ch_site_type s;
     ch_site_number := ch_site_number s; max_unavailable_time := max_unavailable_time s;
     address_type := address_type s; ip_address := ip_address s;
     fanRestartTimer := fanRestartTimer s; timer_armed := timer_armed s;
     restarts_queued := restarts_queued s;
     i2cdeviceMap := i2c; deviceMap := devs |}.
Definition set_deviceMap devs (s : ChM) : ChM := set_maps (i2cdeviceMap s) devs s.

Definition set_identifier type field (c : CAT) : CAT :=
  {| record_type_id := record_type_id c; version := version c;
     record_length := record_length c; record_checksum := record_checksum c;
     header_checksum := header_checksum c; manufacturer_id := manufacturer_id c;
     vita_record_id := vita_record_id c; record_format_version := record_format_version c;
     chassis_id_type := type; chassis_id_field := field;
     chassis_add_table_entries_count := chassis_add_table_entries_count c;
     entries := entries c |}.
Definition push_entry e (c : CAT) : CAT :=
  {| record_type_id := record_type_id c; version := version c;
     record_length := record_length c; record_checksum := record_checksum c;
     header_checksum := header_checksum c; manufacturer_id := manufacturer_id c;
     vita_record_id := vita_record_id c; record_format_version := record_format_version c;
     chassis_id_type := chassis_id_type c; chassis_id_field := chassis_id_field c;
     chassis_add_table_entries_count := u8 (chassis_add_table_entries_count c + 1);
     entries := entries c ++ [e] |}.

(** ** [std::map] with an ordered key *)
Section ordered_map.
Context {V : Type}.

Fixpoint map_find (k : Z) (m : list (Z * V)) : option V :=
  match m with
  | [] => None
  | (k', v) :: m' => if k =? k' then Some v else map_find k m'
  end.

(** Assignment through [operator[]]. *)
Fixpoint map_assign (k : Z) (v : V) (m : list (Z * V)) : list (Z * V) :=
  match m with
  | [] => [(k, v)]
  | (k', v') :: m' =>
      if k =? k' then (k, v) :: m'
      else if k <? k' then (k, v) :: (k', v') :: m'
      else (k', v') :: map_assign k v m'
  end.
End ordered_map.

(** Reading [deviceMap[k]]. *)
Definition deviceMap_at (k : Z) : M ChM (option VITA4611Device) := fun s =>
  match map_find k (deviceMap s) with
  | Some p => Ret p s
  | None => Ret None (set_deviceMap (map_assign k None (deviceMap s)) s)
  end.

(** Writing through the pointer [deviceMap[k]] holds. *)
Definition update_device (k : Z) (f : VITA4611Device -> VITA4611Device) : M ChM unit :=
  let! p := deviceMap_at k in
  let! d := deref p in
  modify (fun s => set_deviceMap (map_assign k (Some (f d)) (deviceMap s)) s).

Definition find_device (p : VITA4611Device -> bool) (s : ChM) : option VITA4611Device :=
  match List.find (fun '(_, o) => match o with Some d => p d | None => false end) (deviceMap s) with
  | Some (_, o) => o
  | None => None
  end.
Definition findDeviceByAddress (addr : Z) : ChM -> option VITA4611Device :=
  find_device (fun d => ipmi_address d =? addr).
Definition findDeviceByPhysAddress (phys_addr : Z) : ChM -> option VITA4611Device :=
  find_device (fun d => site_number d =? phys_addr).
Definition findDeviceByHwAddress (hw_addr : Z) : ChM -> option VITA4611Device :=
  find_device (fun d => hw_address d =? hw_addr).

Definition verify_ipmi_address_is_valid (ipmi_address : Z) (s : ChM) : bool :=
  existsb (fun '(_, vec) =>
    existsb (fun item => devicei2caddress item =? Z.shiftr ipmi_address 1) vec) (i2cdeviceMap s).

Definition get_device_list (s : ChM) : list Z :=
  flat_map (fun '(_, vec) => map (fun item => u8 (Z.shiftl (devicei2caddress item) 1)) vec)
    (i2cdeviceMap s).
Definition lcrgetdevicelist (s : ChM) : list Z := CHMC_IPMI_ADDRESS :: get_device_list s.

Definition the_ch : M ChM ChM := get.

(** The response byte every group command starts with. *)
Definition group (data : list Z) : list Z := 0x03 :: data.

(** ** Commands without surroundings *)
Definition getShMCVSOCaps : list Z :=
  [Z.lor (Z.shiftl 1 4) 2; 1; 0; 0; 1; 0].

Definition getChassisManagerIpAddresses (addr_num : Z) : M ChM (list Z) :=
  let! s := the_ch in
  if 0 <? addr_num then ret []
  else ret (group ([address_count s; ch_site_type s; ch_site_number s;
    max_unavailable_time s; address_type s] ++ ip_address s)).

Definition getChassisIdentifier : M ChM (list Z) :=
  let! s := the_ch in
  ret (group (chassis_id_type (chassisAddressTable s) :: chassis_id_field (chassisAddressTable s))).

Definition setChassisIdentifier (reqdata : list Z) : M ChM (list Z) :=
  let! chIdentifier := idx reqdata 4 in
  let chIdField := drop 5 reqdata in
  if (20 <? length chIdField)%nat then ret []
  else
    modify (fun s => set_CAT (set_identifier chIdentifier
      (chIdField ++ drop (length chIdField) (chassis_id_field (chassisAddressTable s)))
      (chassisAddressTable s)) s) ;;;
    ret (group []).

Definition setIpmbState (reqdata : list Z) : M ChM (list Z) :=
  if (length reqdata <? 6)%nat then ret [] else
  let! ipmb_a_state := idx reqdata 4 in
  let! ipmb_b_state := idx reqdata 5 in
  (if ipmb_a_state =? 0xFF then ret tt
   else modify (set_ipmb_a (if ipmb_a_state mod 2 =? 0 then 0 else 1) (Z.shiftr ipmb_a_state 1))) ;;;
  (if ipmb_b_state =? 0xFF then ret tt
   else modify (set_ipmb_b (if ipmb_b_state mod 2 =? 0 then 0 else 1) (Z.shiftr ipmb_b_state 1))) ;;;
  ret (group []).

Definition setFruStatePolicyBits (reqdata : list Z) : M ChM (list Z) :=
  if (length reqdata <? 7)%nat then ret [] else
  let! fru_dev_id := idx reqdata 4 in
  let! fru_mask_bits := idx reqdata 5 in
  let! fru_policy_bits := idx reqdata 6 in
  let! s := the_ch in
  match deviceMap s with
  | [] => ret []
  | _ =>
      update_device fru_dev_id
        (fun d => set_ids (device_id d) (Some (Z.land fru_mask_bits fru_policy_bits))
                    (fru_activation_flag d) d) ;;;
      ret (group [])
  end.

Definition getFruStatePolicyBits (devId : Z) : M ChM (list Z) :=
  let! s := the_ch in
  match deviceMap s with
  | [] => ret []
  | _ =>
      let! p := deviceMap_at devId in
      let! dev := deref p in
      let! policy := init_read (fru_activation_policy dev) in
      ret (group [policy])
  end.

Definition setFruActivation (reqdata : list Z) : M ChM (list Z) :=
  if (length reqdata <? 6)%nat then ret [] else
  let! devId := idx reqdata 4 in
  let! FRU_directive := idx reqdata 5 in
  let! s := the_ch in
  match deviceMap s with
  | [] => ret []
  | _ =>
      let! p := deviceMap_at devId in
      if (FRU_directive =? 0) || (FRU_directive =? 1) then
        update_device devId
          (fun d => set_ids (device_id d) (fru_activation_policy d) (Some FRU_directive) d) ;;;
        ret (group [])
      else ret []
  end.

Definition getDeviceLocatorRecordId (reqdata : list Z) : M ChM (list Z) :=
  if (length reqdata <? 5)%nat then ret [] else
  let! devId := idx reqdata 4 in
  let! s := the_ch in
  match deviceMap s with
  | [] => ret []
  | _ =>
      let! p := deviceMap_at devId in
      let! dev := deref p in
      let! _ := init_read (device_id dev) in
      ret (group [])
  end.

Definition getChassisManagerIpmbAddress : list Z := group [0x20; 0].

Definition get_chm_fru_info : list Z := group [0x20; 0x40; 0xFF; 0; 0; 0; 0xFF; 0xFF].

Definition getFruAddressInfo (reqdata : list Z) : M ChM (list Z) :=
  if ((length reqdata <? 4) || ((4 <? length reqdata) && (length reqdata <? 8))
      || (8 <? length reqdata))%nat then ret [] else
  if (length reqdata =? 4)%nat then ret get_chm_fru_info else
  let! fru_dev_id := idx reqdata 4 in
  let! addr_key_type := idx reqdata 5 in
  let! addr_key := idx reqdata 6 in
  let! site_type_key := idx reqdata 7 in
  if negb (fru_dev_id =? 0) then ret []
  else if (0x03 <? addr_key_type) || (addr_key_type <? 0x03) then ret []
  else if (addr_key_type =? 0x03) && (site_type_key =? 0) then
    let! s := the_ch in
    let! Dev := deref (findDeviceByPhysAddress addr_key s) in
    let! id := init_read (device_id Dev) in
    ret (group [hw_address Dev; ipmi_address Dev; 0xFF; id; site_number Dev; site_type Dev;
                0xFF; 0xFF])
  else ret (group []).

Definition getFanSpeedProperties (reqdata : list Z) : list Z :=
  if (length reqdata <? 5)%nat then [] else group [0; 0xfd; 0x64; 0x80].

(** ** Commands that reach the bus, the fan service or the fans *)
Section manager.
Context `{Libm} `{Environment}.

Definition ch_hist_m {A} (m : M (list Call) A) : M ChM A := zoom ch_hist set_ch_hist m.
(** A call recorded in the history, answered by the environment. *)
Definition ask {A} (f : list Call -> A) (c : Call) : M ChM A :=
  ch_hist_m (fun h => Ret (f h) (c :: h)).

Definition table_reply (Dev : VITA4611Device) : M ChM (list Z) :=
  let! id := init_read (device_id Dev) in
  ret (group [hw_address Dev; ipmi_address Dev; 0xFF; id; site_number Dev; site_type Dev]).

(** With a physical key and a non-zero site type, [Dev] is never assigned. *)
Definition getAddTable (reqdata : list Z) : M ChM (list Z) :=
  if (length reqdata <? 8)%nat then ret [] else
  let! fru_dev_id := idx reqdata 4 in
  let! addr_key_type := idx reqdata 5 in
  let! addr_key := idx reqdata 6 in
  let! site_type_key := idx reqdata 7 in
  let! s := the_ch in
  if (0x03 <? addr_key_type) || (addr_key_type =? 0x02)
     || bool_decide (entries (chassisAddressTable s) = []) then ret []
  else if (addr_key_type =? 0x03) && (site_type_key =? 0) then
    let! Dev := deref (findDeviceByPhysAddress addr_key s) in
    table_reply Dev
  else
    let! p := (if addr_key_type =? 0x00 then ret (findDeviceByHwAddress addr_key s)
               else if addr_key_type =? 0x01 then ret (findDeviceByAddress addr_key s)
               else undef Uninitialised) in
    let! Dev := deref p in
    if 0 <? fru_dev_id then
      let! resp := ch_hist_m (sendIPMBRequest 0 (ipmi_address Dev) NETFN_VITA4611 0
        VITA4611_GET_FRU_ADDRESS_INFO_CMD [0x03; fru_dev_id]) in
      match fst resp with
      | Some r =>
          let! _ := idx (r_data r) 0 in
          let! info := read_range (r_data r) 1 6 in
          ret (group info)
      | None => table_reply Dev
      end
    else table_reply Dev.

Definition fruControl (reqdata : list Z) : M ChM (list Z) :=
  if (length reqdata <? 5)%nat then ret [] else
  let! fru_dev_id := idx reqdata 4 in
  let! fru_control_byte := idx reqdata 5 in
  let! pdev := deviceMap_at fru_dev_id in
  let reset cmd :=
    match pdev with
    | Some _ => let! _ := ch_hist_m (sendIPMBRequest 0 0x8a 0x06 0 cmd [0x03]) in ret tt
    | None => ret tt
    end in
  if fru_control_byte =? 0x00 then reset 0x02 ;;; ret (group [])
  else if fru_control_byte =? 0x01 then reset 0x03 ;;; ret (group [])
  else if (fru_control_byte =? 0x02) || (fru_control_byte =? 0x03) then ret (group [])
  else ret [].

Definition isServiceActive : M ChM bool := ask env_service_active CServiceActive.

Definition getFanLevel (reqdata : list Z) : M ChM (list Z) :=
  if (length reqdata <? 5)%nat then ret [] else
  let! target := ask env_fan_target CFanTarget in
  let fanpwmbyte := match target with Some pwm => u8 pwm | None => 0 end in
  let! active := isServiceActive in
  ret (group [0xff; fanpwmbyte; if active : bool then 1 else 0]).

Definition setFanLevel (reqdata : list Z) : M ChM (list Z) :=
  if (length reqdata <? 7)%nat then ret [] else
  let! fan_level := idx reqdata 5 in
  let! local_control_enable_state := idx reqdata 6 in
  (if local_control_enable_state =? 0 then
     let! ok := ask env_stop_unit CStopUnit in
     if ok : bool then
       let! _ := ask env_set_target (CSetTarget fan_level) in ret tt
     else ret tt
   else let! _ := ask env_start_unit CStartUnit in ret tt) ;;;
  ret (group []).

Definition setFanPolicy (reqdata : list Z) : M ChM (list Z) :=
  if (length reqdata <? 9)%nat then ret [] else
  let! tray_site_num := idx reqdata 4 in
  let! fan_enable_state := idx reqdata 5 in
  let! fan_policy_timeout := idx reqdata 6 in
  if negb (tray_site_num =? 0) then ret [] else
  if 240 <? fan_policy_timeout then ret [] else
  let! s := the_ch in
  (match fanRestartTimer s with
   | Some _ =>
       let! _ := ask (fun _ => tt) CTimerCancel in
       modify (fun s => set_timer None false (restarts_queued s) s)
   | None => ret tt
   end) ;;;
  (if fan_enable_state =? 0 then
     let! ok := (if negb (fan_policy_timeout =? 0) then ask env_stop_unit CStopUnit
                 else ret true) in
     if ok : bool then
       if (0 <? fan_policy_timeout) && negb (fan_policy_timeout =? 0xFF) then
         let! _ := ask (fun _ => tt) (CTimer (fan_policy_timeout * 5)) in
         modify (fun s => set_timer (Some (fan_policy_timeout * 5)) true (restarts_queued s) s)
       else ret tt
     else ret tt
   else let! _ := ask env_start_unit CStartUnit in ret tt) ;;;
  ret (group []).

Definition getFanPolicy (reqdata : list Z) : M ChM (list Z) :=
  if (length reqdata <? 7)%nat then ret [] else
  let! tray_site_number := idx reqdata 4 in
  let! site_number_key := idx reqdata 5 in
  let! site_type_key := idx reqdata 6 in
  let! policy := (if negb (tray_site_number =? 0xFF)
                  then let! active := isServiceActive in ret (if active : bool then 1 else 0)
                  else ret 0) in
  let! coverage := init_read (if negb (site_number_key =? 0xFF) || negb (site_type_key =? 0xFF)
                              then Some 1 else None) in
  ret (group [policy; coverage]).

(** ** Dispatch *)
Definition handleChMCommand (reqdata : list Z) : M ChM (list Z) :=
  let! netFn := idx reqdata 1 in
  let! cmd := idx reqdata 3 in
  if netFn =? NETFN_VITA4611 then
    if cmd =? VITA4611_GETVSOCAPS_CMD then ret getShMCVSOCaps
    else if cmd =? VITA4611_GET_CHASSIS_ADDRESS_TABLE_INFO_CMD then getAddTable reqdata
    else if cmd =? VITA4611_CHASSIS_MANAGER_IP_ADDRESSES_CMD then
      if (4 <? length reqdata)%nat
      then let! n := idx reqdata 4 in getChassisManagerIpAddresses n else ret []
    else if cmd =? VITA4611_GET_CHASSIS_ID_CMD then getChassisIdentifier
    else if cmd =? VITA4611_SET_CHASSIS_ID_CMD then setChassisIdentifier reqdata
    else if cmd =? VITA4611_FRU_CONTROL then fruControl reqdata
    else if cmd =? VITA4611_SET_IPMB_STATE_CMD then setIpmbState reqdata
    else if cmd =? VITA4611_SET_FRU_STATE_POLICY_BITS_CMD then setFruStatePolicyBits reqdata
    else if cmd =? VITA4611_GET_FRU_STATE_POLICY_BITS_CMD then
      if (4 <? length reqdata)%nat
      then let! n := idx reqdata 4 in getFruStatePolicyBits n else ret []
    else if cmd =? VITA4611_SET_FRU_ACTIVATION_CMD then setFruActivation reqdata
    else if cmd =? VITA4611_GET_DEVICE_LOCATOR_RECORD_ID_CMD then getDeviceLocatorRecordId reqdata
    else if cmd =? VITA4611_GET_FAN_SPEED_PROPERTIES_CMD then ret (getFanSpeedProperties reqdata)
    else if cmd =? VITA4611_SET_FAN_LEVEL_CMD then setFanLevel reqdata
    else if cmd =? VITA4611_GET_FAN_LEVEL_CMD then getFanLevel reqdata
    else if cmd =? VITA4611_SET_FAN_POLICY_CMD then setFanPolicy reqdata
    else if cmd =? VITA4611_GET_FAN_POLICY_CMD then getFanPolicy reqdata
    else if cmd =? VITA4611_GET_CHASSIS_MANAGER_IPMB_ADDRESS_CMD
    then ret getChassisManagerIpmbAddress
    else if cmd =? VITA4611_GET_FRU_ADDRESS_INFO_CMD then getFruAddressInfo reqdata
    else if cmd =? VITA4611_GET_MANDATORY_SENSOR_NUMBERS_CMD then getDeviceLocatorRecordId reqdata
    else ret []
  else ret [].

(** ** Passthrough *)

(** The responses of ipmid: a completion code and, on success, data. *)
Record RspType := { rsp_cc : Z; rsp_data : list Z }.
Definition responseSuccess (data : list Z) : RspType := {| rsp_cc := 0; rsp_data := data |}.
Definition response (cc : Z) : RspType := {| rsp_cc := cc; rsp_data := [] |}.
Definition responseIllegalCommand : RspType := response 0xCD.
Definition responseReqDataLenInvalid : RspType := response 0xC7.
Definition responseCmdFailInitAgent : RspType := response 0xD2.
Definition responseInvalidCommandOnLun : RspType := response 0xC2.
Definition responseUnspecifiedError : RspType := response 0xFF.

Definition forward (ch ipmi_address netFn lun cmd : Z) (payload : list Z)
    (fail : option Z -> M ChM RspType) : M ChM RspType :=
  let! resp := ch_hist_m (sendIPMBRequest ch ipmi_address netFn lun cmd payload) in
  match fst resp with
  | Some r => ret (responseSuccess (r_data r))
  | None => fail (snd resp)
  end.

(** [return ipmi::response(ipmi_response_cc)] *)
Definition fail_cc (cc : option Z) : M ChM RspType :=
  let! c := init_read cc in ret (response c).

Definition execute_passthrough_cmd (reqdata : list Z) : M ChM RspType :=
  let! s := the_ch in
  let ch := if m_ipmb_a_enable s =? 1 then Some 0
            else if (m_ipmb_a_enable s =? 0) && (m_ipmb_b_enable s =? 1) then Some 4
            else None in
  match ch with
  | None => ret responseIllegalCommand
  | Some ch =>
    if (length reqdata <? 4)%nat then ret responseReqDataLenInvalid else
    let! addr := idx reqdata 0 in
    let! netFn := idx reqdata 1 in
    let! lun := idx reqdata 2 in
    let! cmd := idx reqdata 3 in
    if addr =? CHMC_IPMI_ADDRESS then
      let! ChMResponseData := handleChMCommand reqdata in
      match ChMResponseData with
      | [] => ret responseIllegalCommand
      | _ => ret (responseSuccess ChMResponseData)
      end
    else if negb (verify_ipmi_address_is_valid addr s) then ret responseIllegalCommand
    else
      match findDeviceByAddress addr s with
      | Some _ =>
          if NETFN_VITA4611 =? netFn then
            forward ch addr netFn lun cmd (0x03 :: drop 4 reqdata)
              (if cmd =? VITA4611_GETVSOCAPS_CMD
               then fun _ => ret responseCmdFailInitAgent else fail_cc)
          else forward ch addr netFn lun cmd (drop 4 reqdata) fail_cc
      | None =>
          if NETFN_VITA4611 =? netFn then ret responseInvalidCommandOnLun
          else ret responseUnspecifiedError
      end
  end.

(** The completion of the asynchronous wait on the restart timer. *)
Definition fanRestartTimer_expires : M ChM unit :=
  modify (fun s => if timer_armed s
                   then set_timer (fanRestartTimer s) false (S (restarts_queued s)) s else s).
Definition fanRestartTimer_handler : M ChM unit :=
  let! s := the_ch in
  match restarts_queued s with
  | O => ret tt
  | S n =>
      modify (fun s => set_timer (fanRestartTimer s) (timer_armed s) n s) ;;;
      let! _ := ask env_start_unit CStartUnit in ret tt
  end.

(** ** Sensors on D-Bus *)
Fixpoint sanitize (s : string) : string :=
  match s with
  | EmptyString => EmptyString
  | String c s' => String (if Ascii.eqb c "-"%char then "_"%char else c) (sanitize s')
  end.

Definition sensor_folder (units : string) : option string :=
  if String.eqb units "degrees C" then Some "temperature/"%string
  else if String.eqb units "Volts" then Some "voltage/"%string
  else if String.eqb units "Amps" then Some "current/"%string
  else if String.eqb units "Watts" then Some "power/"%string
  else None.

Definition sensor_path (num : Z) (folder : string) (s : SensorRecord) : string :=
  ("/xyz/openbmc_project/sensors/" ++ folder ++ sanitize (SDR_Name s) ++ "_" ++ pretty num)%string.

Definition set_iface path (s : SensorRecord) : SensorRecord :=
  {| sensorNumber := sensorNumber s; sensorType := sensorType s; raw_reading := raw_reading s;
     reading_converted := reading_converted s; sdr_header_raw := sdr_header_raw s;
     sdr_info_raw := sdr_info_raw s; SDR_Name := SDR_Name s; SDR_Units := SDR_Units s;
     sensorIface := Some path; full := full s |}.

(** One sensor: nothing for other units; a creation that throws is logged. *)
Definition exposeSensor (num : Z) (s : SensorRecord) : M (list Call) SensorRecord :=
  match sensor_folder (SDR_Units s) with
  | None => ret s
  | Some folder =>
      let path := sensor_path num folder s in
      let! h := get in
      put (CSensorNew path :: h) ;;;
      if env_sensor_new h path then
        let! v := init_read (reading_converted s) in
        modify (fun h => CSensorValue path v :: h) ;;;
        let! f := init_read (full s) in
        modify (fun h => CSensorLimits path (converted_upper_critical_threshold f)
                           (converted_lower_critical_threshold f) :: h) ;;;
        ret (set_iface path s)
      else ret s
  end.

(** A method of a device of the map, run on the manager's history. *)
Definition on_device (m : M DevSt unit) (d : VITA4611Device) : M (list Call) VITA4611Device :=
  fun h => match m {| hist := h; dev := d |} with
           | Ret _ s => Ret (dev s) (hist s)
           | Throw e s => Throw e (hist s)
           | Undef f => Undef f
           end.

(** A range-[for] over [deviceMap] that calls a method of each device.  An
    exception leaves the constructor or the timer callback uncaught, so the
    devices it leaves behind are not kept. *)
Definition each_device (m : Z -> VITA4611Device -> M (list Call) VITA4611Device) : M ChM unit :=
  let! s := the_ch in
  let! devs := ch_hist_m (mmap (fun '(k, p) =>
    let! d := deref p in let! d' := m k d in ret (k, Some d')) (deviceMap s)) in
  modify (set_deviceMap devs).

Definition exposeFruSensors : M ChM unit :=
  each_device (fun num d =>
    let! ss := mmap (exposeSensor num) (sensors d) in
    on_device getAllSensorReadings (set_sensors ss d)).

Definition pollDeviceSensors : M ChM unit :=
  each_device (fun _ d => on_device getAllSensorReadings d).

Definition pollSDRs : M ChM unit :=
  each_device (fun _ d =>
    let! dynamic := get_dynamic_sensors d in
    if dynamic =? 1 then on_device checkSDRInfo d else ret d).

(** The callback of the 60-second timer. *)
Definition poll_timer : M ChM unit := pollDeviceSensors ;;; pollSDRs.

(** ** Enumeration and construction *)
Definition push_i2c (bus : Z) (item : I2CDeviceInfo) (m : list (Z * list I2CDeviceInfo)) :=
  map_assign bus (default [] (map_find bus m) ++ [item]) m.

Definition add_device (key addr : Z) : M ChM unit :=
  modify (fun s => set_maps (push_i2c 0 {| i2cbus := 0; devicei2caddress := addr;
    i2c_channel := 0; ShMCi2caddress := 0x20 |} (i2cdeviceMap s)) (deviceMap s) s) ;;;
  let! d := ch_hist_m (new_VITA4611Device 0 (u8 (Z.shiftl addr 1))) in
  let d := set_ids (Some 0) (fru_activation_policy d) (fru_activation_flag d) d in
  modify (fun s => set_deviceMap (map_assign key (Some d) (deviceMap s)) s) ;;;
  modify (fun s => set_CAT (push_entry {| entry_hw_address := hw_address d; entry_site_num := 0;
    entry_site_type := site_type d |} (chassisAddressTable s)) s).

Fixpoint enumerate_addrs (n : Z) (addrs : list Z) : M ChM unit :=
  match addrs with
  | [] => ret tt
  | addr :: addrs' =>
      let! present := ask (fun h => env_probe h addr) (CProbe addr) in
      if present : bool then
        if addr =? CHMC_I2C_ADDRESS
        then add_device 0 addr ;;; enumerate_addrs n addrs'
        else add_device n addr ;;; enumerate_addrs (n + 1) addrs'
      else enumerate_addrs n addrs'
  end.

Definition enumerateI2CDevices : M ChM unit :=
  if env_i2c_open then enumerate_addrs 1 (seqZ 0x3 0x75) else ret tt.

Definition initial_manager : ChM :=
  {| ch_hist := [];
     chassisAddressTable :=
       {| record_type_id := 0xC0; version := 0x82; record_length := 0; record_checksum := 0;
          header_checksum := 0; manufacturer_id := [0x00; 0x81; 0xAC]; vita_record_id := 0x10;
          record_format_version := 0; chassis_id_type := 0xC0;
          chassis_id_field := replicate 20 0;
          chassis_add_table_entries_count := 0; entries := [] |};
     m_ipmb_a_enable := 1; m_ipmb_b_enable := 1; m_ipmb_a_Link_ID := 0; m_ipmb_b_Link_ID := 0;
     address_count := 1; ch_site_type := 0; ch_site_number := 0; max_unavailable_time := 0x0a;
     address_type := 0x80; ip_address := [0xc0; 0xa8; 0x00; 0x68; 0x02; 0x6f];
     fanRestartTimer := None; timer_armed := false; restarts_queued := 0;
     i2cdeviceMap := []; deviceMap := [] |}.

(** [VITA4611_ChassisManager()] *)
Definition construct_manager : M ChM unit := enumerateI2CDevices ;;; exposeFruSensors.

(** [init_vita4611], from the first use of [getChassisManager]. *)
Definition init_vita4611 : M ChM unit := construct_manager ;;; poll_timer.
End manager.

(** ** The worker thread *)
Inductive VITA4611Command := IPMI (payload : list Z) | Shutdown.
Definition handleRequest (req : VITA4611Command) : list Z := [0x00].

(** The promises fulfilled from a queue, in order, the commands left in it,
    and whether the thread has exited; it waits when the queue runs empty. *)
Fixpoint processLoop (requestQueue : list VITA4611Command)
  : list (list Z) * list VITA4611Command * bool :=
  match requestQueue with
  | [] => ([], [], false)
  | Shutdown :: q => ([], q, true)
  | req :: q => let '(results, rest, exited) := processLoop q in
                (handleRequest req :: results, rest, exited)
  end.
