(* ===== verification/ChassisManagerSpec.v ===== *)
(** * The chassis manager: properties

    The theorems about [ChassisManager]: for which requests the command
    handlers are defined, what the passthrough sends and to whom, the round
    trips of the identifier and the policy bits, what enumeration builds, the
    fan policy with its restart timer, and the defects of FRU control. *)
From Stdlib Require Import ZArith Lia String.
From stdpp Require Import base list strings.
From S2P Require Import Prelude Doubles IpmbBridge IpmbBridgeSpec Transport VitaDevice.
From S2P Require Import VitaDeviceSpec.
From S2P Require Import ChassisManager.
Local Open Scope Z_scope.

(** ** Ordered maps *)
Section ordered_map_lemmas.
Context {V : Type}.
Implicit Types (m : list (Z * V)).

Lemma map_find_assign k v m k' :
  map_find k' (map_assign k v m) = if k' =? k then Some v else map_find k' m.
Proof.
  induction m as [|[j w] m IH]; simpl; [done|].
  destruct (Z.eqb_spec k j) as [->|Hkj]; simpl.
  - destruct (Z.eqb_spec k' j); [done|]. done.
  - destruct (k <? j); simpl; [done|]. rewrite IH.
    destruct (Z.eqb_spec k' j) as [->|]; [|done].
    destruct (Z.eqb_spec j k); [lia|done].
Qed.

Lemma Forall_map_assign (P : Z * V -> Prop) k v m :
  P (k, v) -> Forall P m -> Forall P (map_assign k v m).
Proof.
  intros Hv. induction m as [|[j w] m IH]; intros Hm; simpl; [by repeat constructor|].
  apply Forall_cons in Hm as [Hj Hm].
  destruct (k =? j); [by constructor|]. destruct (k <? j); constructor; auto.
Qed.

Lemma map_assign_perm k v m :
  map_find k m = None -> map_assign k v m ≡ₚ (k, v) :: m.
Proof.
  induction m as [|[j w] m IH]; simpl; [done|].
  destruct (Z.eqb_spec k j) as [->|_]; [done|]. destruct (k <? j); [done|].
  intros E. rewrite (IH E). apply perm_swap.
Qed.

Lemma Forall_map_find (P : Z * V -> Prop) k v m :
  Forall P m -> map_find k m = Some v -> P (k, v).
Proof.
  induction m as [|[j w] m IH]; simpl; [done|]. intros [Hj Hm]%Forall_cons.
  destruct (Z.eqb_spec k j) as [->|]; [by intros [= ->]|by apply IH].
Qed.
End ordered_map_lemmas.

(** ** Which requests are defined *)
Definition dev_ok (e : Z * option VITA4611Device) : Prop :=
  match e.2 with Some d => is_Some (device_id d) | None => True end.

(** What the constructor establishes and every command keeps. *)
Record WF (s : ChM) : Prop := {
  wf_id : length (chassis_id_field (chassisAddressTable s)) = 20%nat;
  wf_devs : Forall dev_ok (deviceMap s) }.

Definition byte (reqdata : list Z) (i : nat) : Z := default 0 (reqdata !! i).

Definition device_at (k : Z) (s : ChM) : option VITA4611Device := mjoin (map_find k (deviceMap s)).

Create HintDb wf.

Section totality.
Context `{Libm} `{Environment}.

(** [m] is defined exactly when the flag is not raised; it never throws, and
    keeps the invariant. *)
Definition total_unless {A} (crash : bool) (m : M ChM A) (s : ChM) : Prop :=
  if crash then exists f, m s = Undef f
  else exists a s', m s = Ret a s' /\ WF s'.

Lemma total_ret {A} (a : A) s : WF s -> total_unless false (ret a) s.
Proof. intros Hs. by exists a, s. Qed.

Lemma total_modify {A} (a : A) f s :
  WF (f s) -> total_unless false (let! _ := modify f in ret a) s.
Proof. intros Hs. by exists a, (f s). Qed.

Lemma total_idx {A} crash reqdata i (k : Z -> M ChM A) s :
  (i < length reqdata)%nat -> total_unless crash (k (byte reqdata i)) s ->
  total_unless crash (bind (idx reqdata i) k) s.
Proof.
  intros Hi Hk. apply lookup_lt_is_Some in Hi as [b Hb]. unfold byte in Hk. rewrite Hb in Hk.
  unfold total_unless in *. by rewrite bind_idx, Hb.
Qed.

Lemma bind_idx_byte {B} reqdata i (k : Z -> M ChM B) s :
  (i < length reqdata)%nat -> bind (idx reqdata i) k s = k (byte reqdata i) s.
Proof. intros [b Hb]%lookup_lt_is_Some. unfold byte. by rewrite bind_idx, Hb. Qed.

Lemma byte_nonneg r i : bytes r -> 0 <= byte r i.
Proof.
  intros Hr. unfold byte. destruct (r !! i) as [b|] eqn:E; [|done].
  apply (Forall_lookup_1 _ _ _ _ Hr) in E. unfold is_byte in E. simpl. lia.
Qed.

Lemma total_bind {A B} crash (m : M ChM A) (k : A -> M ChM B) a s s' :
  m s = Ret a s' -> total_unless crash (k a) s' -> total_unless crash (bind m k) s.
Proof. intros E Hk. unfold total_unless in *. by rewrite (bind_Ret _ _ _ _ _ E). Qed.

Lemma total_if_modify {A} crash (c : bool) f (k : M ChM A) s :
  total_unless crash k (if c then s else f s) ->
  total_unless crash ((if c then ret tt else modify f) ;;; k) s.
Proof. destruct c; intros Hk; exact Hk. Qed.

Lemma total_undef {A B} (m : M ChM A) (k : A -> M ChM B) f s :
  m s = Undef f -> total_unless true (bind m k) s.
Proof. intros E. exists f. by apply bind_Undef. Qed.

Lemma WF_CAT c s :
  WF s -> length (chassis_id_field c) = 20%nat -> WF (set_CAT c s).
Proof. intros [H1 H2] Hc. by constructor. Qed.
Lemma WF_hist h s : WF s -> WF (set_ch_hist h s).
Proof. intros [H1 H2]. by constructor. Qed.
Lemma WF_ipmb_a e l s : WF s -> WF (set_ipmb_a e l s).
Proof. intros [H1 H2]. by constructor. Qed.
Lemma WF_ipmb_b e l s : WF s -> WF (set_ipmb_b e l s).
Proof. intros [H1 H2]. by constructor. Qed.
Lemma WF_timer a b c s : WF s -> WF (set_timer a b c s).
Proof. intros [H1 H2]. by constructor. Qed.
Lemma WF_deviceMap k o s :
  WF s -> dev_ok (k, o) -> WF (set_deviceMap (map_assign k o (deviceMap s)) s).
Proof. intros [H1 H2] Ho. constructor; [done|]. by apply Forall_map_assign. Qed.

Hint Resolve WF_CAT WF_hist WF_ipmb_a WF_ipmb_b WF_timer WF_deviceMap total_ret : wf.

Lemma deviceMap_at_Ret k s :
  WF s -> exists s', deviceMap_at k s = Ret (device_at k s) s' /\ WF s' /\
    map_find k (deviceMap s') = Some (device_at k s) /\
    (device_at k s <> None -> s' = s) /\ ch_hist s' = ch_hist s.
Proof.
  intros Hs. unfold deviceMap_at, device_at. destruct (map_find k (deviceMap s)) as [o|] eqn:E.
  - exists s. by rewrite E.
  - eexists. split; [reflexivity|]. split; [by apply WF_deviceMap|].
    simpl. rewrite map_find_assign, Z.eqb_refl. by split.
Qed.

Lemma update_device_cases k f s :
  WF s -> (forall d, is_Some (device_id d) -> is_Some (device_id (f d))) ->
  match device_at k s with
  | Some d => update_device k f s = Ret tt (set_deviceMap (map_assign k (Some (f d)) (deviceMap s)) s)
              /\ WF (set_deviceMap (map_assign k (Some (f d)) (deviceMap s)) s)
  | None => update_device k f s = Undef NullDeref
  end.
Proof.
  intros Hs Hf. destruct (deviceMap_at_Ret k s Hs) as (s' & E & Hs' & Hd & Hsame & _).
  unfold update_device. rewrite (bind_Ret _ _ _ _ _ E). destruct (device_at k s) as [d|] eqn:Ed; [|done].
  specialize (Hsame ltac:(done)) as ->. split; [done|]. apply WF_deviceMap; [done|].
  apply Hf. by apply (Forall_map_find _ _ _ _ (wf_devs _ Hs) Hd).
Qed.

Lemma find_device_ok p s d : WF s -> find_device p s = Some d -> is_Some (device_id d).
Proof.
  intros [_ Hd] E. unfold find_device in E.
  destruct (List.find _ _) as [[k o]|] eqn:Ef; [|done]. subst o.
  apply find_some in Ef as [Hin _]. apply list_elem_of_In in Hin.
  rewrite Forall_forall in Hd. apply (Hd _ Hin).
Qed.

Lemma total_table_reply d s : WF s -> is_Some (device_id d) -> total_unless false (table_reply d) s.
Proof. intros Hs [id E]. unfold table_reply. rewrite E. by eexists _, s. Qed.

Lemma ch_send_Ret chan addr netfn lun cmd data s :
  let q := {| rq_channel := chan; rq_addr := addr; rq_netfn := netfn; rq_lun := lun;
              rq_cmd := cmd; rq_data := data |} in
  exists cc, ch_hist_m (sendIPMBRequest chan addr netfn lun cmd data) s =
    Ret (accepted (env_ipmb (ch_hist s) q), cc) (set_ch_hist (CIpmb q :: ch_hist s) s).
Proof.
  destruct (sendIPMBRequest_eq chan addr netfn lun cmd data (ch_hist s)) as [cc E].
  exists cc. unfold ch_hist_m, zoom. by rewrite E.
Qed.

(** *** One predicate per handler: the requests that crash it *)
Definition absent (k : Z) (s : ChM) : bool :=
  negb (bool_decide (deviceMap s = [])) && bool_decide (device_at k s = None).

Definition fru_info_request (addr fru : Z) : IpmbReq :=
  {| rq_channel := 0; rq_addr := addr; rq_netfn := NETFN_VITA4611; rq_lun := 0;
     rq_cmd := VITA4611_GET_FRU_ADDRESS_INFO_CMD; rq_data := [0x03; fru] |}.

(** A key that finds no device, a physical key of a site type other than 0,
    a module that answers with fewer than seven bytes. *)
Definition getAddTable_crashes (s : ChM) (r : list Z) : bool :=
  (8 <=? length r)%nat && negb (0x03 <? byte r 5) && negb (byte r 5 =? 0x02)
  && negb (bool_decide (entries (chassisAddressTable s) = []))
  && if (byte r 5 =? 0x03) && (byte r 7 =? 0)
     then bool_decide (findDeviceByPhysAddress (byte r 6) s = None)
     else match (if byte r 5 =? 0x00 then findDeviceByHwAddress (byte r 6) s
                 else if byte r 5 =? 0x01 then findDeviceByAddress (byte r 6) s else None) with
          | None => true
          | Some d =>
              (0 <? byte r 4) &&
              match accepted (env_ipmb (ch_hist s) (fru_info_request (ipmi_address d) (byte r 4))) with
              | Some rep => (length (r_data rep) <? 7)%nat
              | None => false
              end
          end.

Definition setChassisIdentifier_crashes (r : list Z) : bool := (length r =? 4)%nat.
Definition fruControl_crashes (r : list Z) : bool := (length r =? 5)%nat.
Definition setFruStatePolicyBits_crashes (s : ChM) (r : list Z) : bool :=
  (7 <=? length r)%nat && absent (byte r 4) s.
Definition getFruStatePolicyBits_crashes (s : ChM) (r : list Z) : bool :=
  (5 <=? length r)%nat && negb (bool_decide (deviceMap s = [])) &&
  match device_at (byte r 4) s with
  | Some d => bool_decide (fru_activation_policy d = None)
  | None => true
  end.
Definition setFruActivation_crashes (s : ChM) (r : list Z) : bool :=
  (6 <=? length r)%nat && absent (byte r 4) s && ((byte r 5 =? 0) || (byte r 5 =? 1)).
Definition getDeviceLocatorRecordId_crashes (s : ChM) (r : list Z) : bool :=
  (5 <=? length r)%nat && absent (byte r 4) s.
Definition getFruAddressInfo_crashes (s : ChM) (r : list Z) : bool :=
  (length r =? 8)%nat && (byte r 4 =? 0) && (byte r 5 =? 0x03) && (byte r 7 =? 0)
  && bool_decide (findDeviceByPhysAddress (byte r 6) s = None).
Definition getFanPolicy_crashes (r : list Z) : bool :=
  (7 <=? length r)%nat && (byte r 5 =? 0xFF) && (byte r 6 =? 0xFF).

Definition command_crashes (s : ChM) (r : list Z) : bool :=
  (byte r 1 =? NETFN_VITA4611) &&
  let cmd := byte r 3 in
  if cmd =? VITA4611_GET_CHASSIS_ADDRESS_TABLE_INFO_CMD then getAddTable_crashes s r
  else if cmd =? VITA4611_SET_CHASSIS_ID_CMD then setChassisIdentifier_crashes r
  else if cmd =? VITA4611_FRU_CONTROL then fruControl_crashes r
  else if cmd =? VITA4611_SET_FRU_STATE_POLICY_BITS_CMD then setFruStatePolicyBits_crashes s r
  else if cmd =? VITA4611_GET_FRU_STATE_POLICY_BITS_CMD then getFruStatePolicyBits_crashes s r
  else if cmd =? VITA4611_SET_FRU_ACTIVATION_CMD then setFruActivation_crashes s r
  else if (cmd =? VITA4611_GET_DEVICE_LOCATOR_RECORD_ID_CMD)
       || (cmd =? VITA4611_GET_MANDATORY_SENSOR_NUMBERS_CMD)
  then getDeviceLocatorRecordId_crashes s r
  else if cmd =? VITA4611_GET_FRU_ADDRESS_INFO_CMD then getFruAddressInfo_crashes s r
  else if cmd =? VITA4611_GET_FAN_POLICY_CMD then getFanPolicy_crashes r
  else false.

Lemma absent_nonempty k s : deviceMap s <> [] -> absent k s = bool_decide (device_at k s = None).
Proof. intros Hn. unfold absent. by rewrite bool_decide_eq_false_2 by done. Qed.

Lemma absent_empty k s : deviceMap s = [] -> absent k s = false.
Proof. intros E. unfold absent. by rewrite bool_decide_eq_true_2 by done. Qed.

(** Guards on the length of the request. *)
Ltac len_guard n :=
  match goal with |- context [(length ?r <? n)%nat] =>
    destruct (Nat.ltb_spec (length r) n) as [Hlen|Hlen];
    [rewrite ?(proj2 (Nat.leb_gt n (length r)) Hlen); auto with wf|
     rewrite ?(proj2 (Nat.leb_le n (length r)) Hlen); cbn [andb];
     repeat (apply total_idx; [lia|])] end.

Lemma total_setChassisIdentifier s r :
  WF s -> (4 <= length r)%nat ->
  total_unless (setChassisIdentifier_crashes r) (setChassisIdentifier r) s.
Proof.
  intros Hs Hr. unfold setChassisIdentifier_crashes, setChassisIdentifier.
  destruct (Nat.eqb_spec (length r) 4) as [E|E].
  { exists OutOfBounds. rewrite bind_idx, lookup_ge_None_2 by lia. done. }
  apply total_idx; [lia|]. rewrite length_drop.
  destruct (Nat.ltb_spec 20 (length r - 5)); [auto with wf|].
  apply total_modify, WF_CAT; [done|]. simpl. rewrite length_app, !length_drop, (wf_id _ Hs). lia.
Qed.

Lemma total_setIpmbState s r : WF s -> total_unless false (setIpmbState r) s.
Proof.
  intros Hs. unfold setIpmbState. len_guard 6%nat.
  apply total_if_modify. apply total_if_modify.
  destruct (byte r 4 =? 0xFF), (byte r 5 =? 0xFF); auto with wf.
Qed.

Lemma total_setFruStatePolicyBits s r :
  WF s -> total_unless (setFruStatePolicyBits_crashes s r) (setFruStatePolicyBits r) s.
Proof.
  intros Hs. unfold setFruStatePolicyBits_crashes, setFruStatePolicyBits. len_guard 7%nat.
  apply (total_bind _ _ _ s s s); [done|].
  destruct (deviceMap s) as [|e m] eqn:Em; [rewrite absent_empty by done; auto with wf|].
  rewrite absent_nonempty by congruence.
  match goal with |- context [update_device ?k ?f] => pose proof (update_device_cases k f s Hs) as U end.
  destruct (device_at (byte r 4) s) as [d|] eqn:Ed.
  - destruct U as [U1 U2]; [done|]. rewrite bool_decide_eq_false_2 by done.
    eapply total_bind; [exact U1|]. auto with wf.
  - rewrite bool_decide_eq_true_2 by done. eapply total_undef. by apply U.
Qed.

Lemma total_getFruStatePolicyBits s r :
  WF s -> (5 <= length r)%nat ->
  total_unless (getFruStatePolicyBits_crashes s r) (getFruStatePolicyBits (byte r 4)) s.
Proof.
  intros Hs Hr. unfold getFruStatePolicyBits_crashes, getFruStatePolicyBits.
  rewrite (proj2 (Nat.leb_le _ _) Hr). apply (total_bind _ _ _ s s s); [done|].
  destruct (deviceMap s) as [|e m] eqn:Em.
  { rewrite bool_decide_eq_true_2 by done. auto with wf. }
  rewrite bool_decide_eq_false_2 by done. cbn [andb negb].
  destruct (deviceMap_at_Ret (byte r 4) s Hs) as (s' & E & Hs' & _).
  eapply total_bind; [exact E|]. destruct (device_at (byte r 4) s) as [d|].
  2:{ by eapply total_undef. }
  eapply (total_bind _ _ _ d); [done|]. destruct (fru_activation_policy d) as [p|].
  - rewrite bool_decide_eq_false_2 by done. eapply (total_bind _ _ _ p); [done|]. auto with wf.
  - rewrite bool_decide_eq_true_2 by done. by eapply total_undef.
Qed.

Lemma total_setFruActivation s r :
  WF s -> total_unless (setFruActivation_crashes s r) (setFruActivation r) s.
Proof.
  intros Hs. unfold setFruActivation_crashes, setFruActivation. len_guard 6%nat.
  apply (total_bind _ _ _ s s s); [done|].
  destruct (deviceMap s) as [|e m] eqn:Em; [rewrite absent_empty by done; auto with wf|].
  rewrite absent_nonempty by congruence.
  destruct (deviceMap_at_Ret (byte r 4) s Hs) as (s' & E & Hs' & Hf & _).
  eapply total_bind; [exact E|].
  match goal with |- context [update_device ?k ?f] =>
    pose proof (update_device_cases k f s' Hs') as U end.
  assert (device_at (byte r 4) s' = device_at (byte r 4) s) as Hd.
  { unfold device_at at 1. by rewrite Hf. }
  rewrite Hd in U.
  destruct ((byte r 5 =? 0) || (byte r 5 =? 1)); rewrite ?andb_true_r, ?andb_false_r; [|auto with wf].
  destruct (device_at (byte r 4) s) as [d|].
  - destruct U as [U1 U2]; [done|]. rewrite bool_decide_eq_false_2 by done.
    eapply total_bind; [exact U1|]. auto with wf.
  - rewrite bool_decide_eq_true_2 by done. eapply total_undef. by apply U.
Qed.

Lemma total_getDeviceLocatorRecordId s r :
  WF s -> total_unless (getDeviceLocatorRecordId_crashes s r) (getDeviceLocatorRecordId r) s.
Proof.
  intros Hs. unfold getDeviceLocatorRecordId_crashes, getDeviceLocatorRecordId. len_guard 5%nat.
  apply (total_bind _ _ _ s s s); [done|].
  destruct (deviceMap s) as [|e m] eqn:Em; [rewrite absent_empty by done; auto with wf|].
  rewrite absent_nonempty by congruence.
  destruct (deviceMap_at_Ret (byte r 4) s Hs) as (s' & E & Hs' & Hf & _).
  eapply total_bind; [exact E|]. destruct (device_at (byte r 4) s) as [d|].
  - rewrite bool_decide_eq_false_2 by done. eapply (total_bind _ _ _ d); [done|].
    destruct (Forall_map_find _ _ _ _ (wf_devs _ Hs') Hf) as [id Hid].
    eapply (total_bind _ _ _ id); [by rewrite Hid|]. auto with wf.
  - rewrite bool_decide_eq_true_2 by done. by eapply total_undef.
Qed.

Lemma total_getFruAddressInfo s r :
  WF s -> total_unless (getFruAddressInfo_crashes s r) (getFruAddressInfo r) s.
Proof.
  intros Hs. unfold getFruAddressInfo_crashes, getFruAddressInfo.
  destruct (Nat.eqb_spec (length r) 8) as [E8|E8].
  2:{ cbn [andb]. destruct (_ || _)%nat eqn:E; [auto with wf|].
      destruct (Nat.eqb_spec (length r) 4); [auto with wf|]. exfalso.
      apply orb_false_iff in E as [[E1 E2]%orb_false_iff E3].
      apply Nat.ltb_ge in E1, E3. apply andb_false_iff in E2 as [E2|E2]; apply Nat.ltb_ge in E2; lia. }
  rewrite E8. cbn -[total_unless idx]. repeat (apply total_idx; [lia|]).
  destruct (byte r 4 =? 0); [|by apply total_ret]. cbn [negb andb].
  destruct (Z.eqb_spec (byte r 5) 3) as [E5|E5].
  2:{ replace ((3 <? byte r 5) || (byte r 5 <? 3)) with true by lia. auto with wf. }
  rewrite E5. cbn -[total_unless]. destruct (byte r 7 =? 0); [|by apply total_ret].
  apply (total_bind _ _ _ s s s); [done|].
  destruct (findDeviceByPhysAddress (byte r 6) s) as [d|] eqn:Ed.
  - rewrite bool_decide_eq_false_2 by done. eapply (total_bind _ _ _ d); [done|].
    destruct (find_device_ok _ _ _ Hs Ed) as [id Hid].
    eapply (total_bind _ _ _ id); [by rewrite Hid|]. auto with wf.
  - rewrite bool_decide_eq_true_2 by done. by eapply total_undef.
Qed.

Lemma total_ask {A B} crash (f : list Call -> A) c (k : A -> M ChM B) s :
  total_unless crash (k (f (ch_hist s))) (set_ch_hist (c :: ch_hist s) s) ->
  total_unless crash (bind (ask f c) k) s.
Proof. apply total_bind. reflexivity. Qed.

Lemma total_getAddTable s r :
  WF s -> total_unless (getAddTable_crashes s r) (getAddTable r) s.
Proof.
  intros Hs. unfold getAddTable_crashes, getAddTable. len_guard 8%nat.
  apply (total_bind _ _ _ s s s); [done|].
  destruct (0x03 <? byte r 5) eqn:E3; [by apply total_ret|].
  destruct (byte r 5 =? 0x02) eqn:E2; [by apply total_ret|].
  destruct (bool_decide _); [by apply total_ret|]. cbn [negb andb orb].
  destruct ((byte r 5 =? 0x03) && (byte r 7 =? 0)) eqn:Ek.
  { destruct (findDeviceByPhysAddress (byte r 6) s) as [d|] eqn:Ed.
    - rewrite bool_decide_eq_false_2 by done. eapply (total_bind _ _ _ d); [done|].
      apply total_table_reply; [done|]. by apply (find_device_ok _ _ _ Hs Ed).
    - rewrite bool_decide_eq_true_2 by done. by eapply total_undef. }
  set (o := if byte r 5 =? 0 then _ else _).
  assert (E : (if byte r 5 =? 0 then ret (findDeviceByHwAddress (byte r 6) s)
     else if byte r 5 =? 1 then ret (findDeviceByAddress (byte r 6) s) else undef Uninitialised) s
    = match o with Some d => Ret (Some d) s | None =>
        if (byte r 5 =? 0) || (byte r 5 =? 1) then Ret None s else Undef Uninitialised end).
  { unfold o. destruct (byte r 5 =? 0); [by destruct (findDeviceByHwAddress _ _)|].
    destruct (byte r 5 =? 1); [by destruct (findDeviceByAddress _ _)|done]. }
  assert (Hok : forall d, o = Some d -> is_Some (device_id d)).
  { unfold o. intros d. destruct (byte r 5 =? 0); [by apply find_device_ok|].
    destruct (byte r 5 =? 1); [by apply find_device_ok|done]. }
  destruct o as [d|].
  2:{ destruct (_ || _); [eapply total_bind; [exact E|]; by eapply total_undef|].
      by eapply total_undef. }
  eapply total_bind; [exact E|]. eapply (total_bind _ _ _ d); [done|].
  destruct (0 <? byte r 4); [|by apply total_table_reply; [|apply Hok]]. cbn [andb].
  destruct (ch_send_Ret 0 (ipmi_address d) NETFN_VITA4611 0 VITA4611_GET_FRU_ADDRESS_INFO_CMD
    [0x03; byte r 4] s) as [cc Es].
  eapply total_bind; [exact Es|]. fold (fru_info_request (ipmi_address d) (byte r 4)).
  destruct (accepted _) as [rep|].
  2:{ apply total_table_reply; [by apply WF_hist|by apply Hok]. }
  cbn [fst]. destruct (Nat.ltb_spec (length (r_data rep)) 7) as [L|L].
  - exists OutOfBounds. rewrite bind_idx. destruct (r_data rep !! 0%nat); [|done].
    unfold bind, read_range. by replace (1 + 6 <=? Z.of_nat (length (r_data rep))) with false by lia.
  - apply total_idx; [lia|]. eapply total_bind; [|by apply total_ret, WF_hist].
    unfold read_range. by replace (1 + 6 <=? Z.of_nat (length (r_data rep))) with true by lia.
Qed.

Lemma total_fruControl s r :
  WF s -> total_unless (fruControl_crashes r) (fruControl r) s.
Proof.
  intros Hs. unfold fruControl_crashes, fruControl.
  destruct (Nat.ltb_spec (length r) 5) as [L|L].
  { destruct (Nat.eqb_spec (length r) 5); [lia|]. auto with wf. }
  destruct (Nat.eqb_spec (length r) 5) as [E|E].
  { exists OutOfBounds. rewrite !bind_idx. destruct (r !! 4%nat); [|done].
    by rewrite bind_idx, (lookup_ge_None_2 r 5) by lia. }
  repeat (apply total_idx; [lia|]).
  destruct (deviceMap_at_Ret (byte r 4) s Hs) as (s' & Ed & Hs' & _).
  eapply total_bind; [exact Ed|].
  assert (R : forall cmd, total_unless false
    ((match device_at (byte r 4) s with
      | Some _ => let! _ := ch_hist_m (sendIPMBRequest 0 0x8a 0x06 0 cmd [0x03]) in ret tt
      | None => ret tt end) ;;; ret (group [])) s').
  { intros cmd. destruct (device_at (byte r 4) s); [|by apply total_ret].
    destruct (ch_send_Ret 0 0x8a 0x06 0 cmd [0x03] s') as [cc Es].
    eapply total_bind; [rewrite (bind_Ret _ _ _ _ _ Es); reflexivity|]. by apply total_ret, WF_hist. }
  destruct (byte r 5 =? 0); [apply R|]. destruct (byte r 5 =? 1); [apply R|].
  destruct (_ || _); by apply total_ret.
Qed.

Lemma total_getFanLevel s r : WF s -> total_unless false (getFanLevel r) s.
Proof.
  intros Hs. unfold getFanLevel. len_guard 5%nat.
  apply total_ask, total_ask. apply total_ret. by do 2 apply WF_hist.
Qed.

Lemma total_setFanLevel s r : WF s -> total_unless false (setFanLevel r) s.
Proof.
  intros Hs. unfold setFanLevel. len_guard 7%nat.
  destruct (byte r 6 =? 0).
  - destruct (env_stop_unit (ch_hist s)) eqn:E.
    + eapply total_bind; [unfold ask, ch_hist_m, zoom, bind; rewrite E; reflexivity|].
      apply total_ret. by do 2 apply WF_hist.
    + eapply total_bind; [unfold ask, ch_hist_m, zoom, bind; rewrite E; reflexivity|].
      apply total_ret. by apply WF_hist.
  - eapply total_bind; [reflexivity|]. apply total_ret. by apply WF_hist.
Qed.

Lemma total_getFanPolicy s r :
  WF s -> total_unless (getFanPolicy_crashes r) (getFanPolicy r) s.
Proof.
  intros Hs. unfold getFanPolicy_crashes, getFanPolicy. len_guard 7%nat.
  assert (R : forall p s', WF s' -> total_unless ((byte r 5 =? 255) && (byte r 6 =? 255))
    (let! coverage := init_read (if negb (byte r 5 =? 0xFF) || negb (byte r 6 =? 0xFF)
       then Some 1 else None) in ret (group [p; coverage])) s').
  { intros p s' Hs'. destruct (byte r 5 =? 255), (byte r 6 =? 255); cbn [andb orb negb];
      try (apply total_ret; done). by eapply total_undef. }
  destruct (byte r 4 =? 0xFF); cbn [negb].
  - apply (total_bind _ _ _ 0 s s); [done|]. by apply R.
  - eapply total_bind; [reflexivity|]. apply R. by apply WF_hist.
Qed.

(** The outcomes of [setFanPolicy], branch by branch, as a function. *)
Definition policy_refused (r : list Z) : bool :=
  (length r <? 9)%nat || negb (byte r 4 =? 0) || (240 <? byte r 6).

Definition cancelled (s : ChM) : ChM :=
  match fanRestartTimer s with
  | Some _ => set_timer None false (restarts_queued s) (set_ch_hist (CTimerCancel :: ch_hist s) s)
  | None => s
  end.

Definition called (c : Call) (s : ChM) : ChM := set_ch_hist (c :: ch_hist s) s.

Definition policy_after (r : list Z) (s : ChM) : ChM :=
  let s := cancelled s in
  let t := byte r 6 in
  if byte r 5 =? 0 then
    if t =? 0 then s
    else if env_stop_unit (ch_hist s)
         then set_timer (Some (t * 5)) true (restarts_queued s)
                (called (CTimer (t * 5)) (called CStopUnit s))
         else called CStopUnit s
  else called CStartUnit s.

Lemma setFanPolicy_eq r s :
  0 <= byte r 6 ->
  setFanPolicy r s = if policy_refused r then Ret [] s else Ret (group []) (policy_after r s).
Proof.
  intros Ht. unfold setFanPolicy, policy_refused. destruct (Nat.ltb_spec (length r) 9) as [L|L]; [done|].
  rewrite !bind_idx_byte by lia. cbn [orb].
  destruct (byte r 4 =? 0); [|done]. cbn [negb orb]. destruct (Z.ltb_spec 240 (byte r 6)) as [|Hm]; [done|].
  rewrite (bind_Ret _ _ s s s) by done.
  rewrite (bind_Ret _ _ s tt (cancelled s)) by (unfold cancelled; by destruct (fanRestartTimer s)).
  unfold policy_after. generalize (cancelled s) as w. intros w.
  destruct (byte r 5 =? 0); [|done].
  destruct (Z.eqb_spec (byte r 6) 0) as [E|E]; [by rewrite E|]. cbn [negb].
  replace (0 <? byte r 6) with true by lia. replace (byte r 6 =? 0xFF) with false by lia.
  unfold ask, ch_hist_m, zoom, bind. by destruct (env_stop_unit (ch_hist w)).
Qed.

Lemma WF_policy_after r s : WF s -> WF (policy_after r s).
Proof.
  intros Hs. assert (WF (cancelled s)).
  { unfold cancelled. destruct (fanRestartTimer s); [by apply WF_timer, WF_hist|done]. }
  unfold policy_after, called. repeat case_match; auto using WF_timer, WF_hist.
Qed.

Lemma total_setFanPolicy s r : WF s -> bytes r -> total_unless false (setFanPolicy r) s.
Proof.
  intros Hs Hb. unfold total_unless. rewrite setFanPolicy_eq by by apply byte_nonneg.
  destruct (policy_refused r); eexists _, _; (split; [reflexivity|]); [done|by apply WF_policy_after].
Qed.

(** One comparison of the dispatcher. *)
Ltac command K :=
  match goal with |- context [?cmd =? K] => destruct (Z.eqb_spec cmd K) as [->|?] end.

Lemma total_handleChMCommand s r :
  WF s -> bytes r -> (4 <= length r)%nat ->
  total_unless (command_crashes s r) (handleChMCommand r) s.
Proof.
  intros Hs Hb Hr. unfold command_crashes, handleChMCommand. do 2 (apply total_idx; [lia|]).
  destruct (byte r 1 =? NETFN_VITA4611); [|by apply total_ret]. cbn [andb].
  generalize (byte r 3) as cmd. intros cmd.
  command VITA4611_GETVSOCAPS_CMD; [by apply total_ret|].
  command VITA4611_GET_CHASSIS_ADDRESS_TABLE_INFO_CMD; [by apply total_getAddTable|].
  command VITA4611_CHASSIS_MANAGER_IP_ADDRESSES_CMD.
  { change (total_unless false (if (4 <? length r)%nat
      then let! n := idx r 4 in getChassisManagerIpAddresses n else ret []) s).
    destruct (Nat.ltb_spec 4 (length r)); [|by apply total_ret]. apply total_idx; [lia|].
    unfold getChassisManagerIpAddresses. eapply (total_bind _ _ _ s s s); [done|].
    by destruct (0 <? _); apply total_ret. }
  command VITA4611_GET_CHASSIS_ID_CMD; [by eexists _, s|].
  command VITA4611_SET_CHASSIS_ID_CMD; [by apply total_setChassisIdentifier|].
  command VITA4611_FRU_CONTROL; [by apply total_fruControl|].
  command VITA4611_SET_IPMB_STATE_CMD; [by apply total_setIpmbState|].
  command VITA4611_SET_FRU_STATE_POLICY_BITS_CMD; [by apply total_setFruStatePolicyBits|].
  command VITA4611_GET_FRU_STATE_POLICY_BITS_CMD.
  { destruct (Nat.ltb_spec 4 (length r)).
    - apply total_idx; [lia|]. by apply total_getFruStatePolicyBits.
    - unfold getFruStatePolicyBits_crashes. rewrite (proj2 (Nat.leb_gt 5 _)) by lia.
      by apply total_ret. }
  command VITA4611_SET_FRU_ACTIVATION_CMD; [by apply total_setFruActivation|].
  command VITA4611_GET_DEVICE_LOCATOR_RECORD_ID_CMD; [by apply total_getDeviceLocatorRecordId|].
  command VITA4611_GET_FAN_SPEED_PROPERTIES_CMD; [by apply total_ret|].
  command VITA4611_SET_FAN_LEVEL_CMD; [by apply total_setFanLevel|].
  command VITA4611_GET_FAN_LEVEL_CMD; [by apply total_getFanLevel|].
  command VITA4611_SET_FAN_POLICY_CMD; [by apply total_setFanPolicy|].
  command VITA4611_GET_FAN_POLICY_CMD; [by apply total_getFanPolicy|].
  command VITA4611_GET_CHASSIS_MANAGER_IPMB_ADDRESS_CMD; [by apply total_ret|].
  command VITA4611_GET_FRU_ADDRESS_INFO_CMD; [by apply total_getFruAddressInfo|].
  command VITA4611_GET_MANDATORY_SENSOR_NUMBERS_CMD; [by apply total_getDeviceLocatorRecordId|].
  by apply total_ret.
Qed.

(** *** The passthrough *)
Definition passthrough_channel (s : ChM) : option Z :=
  if m_ipmb_a_enable s =? 1 then Some 0
  else if (m_ipmb_a_enable s =? 0) && (m_ipmb_b_enable s =? 1) then Some 4
  else None.

(** The request forwarded to a module: VITA 46.11 commands get the VSO
    identifier in front of the caller's data. *)
Definition forwarded (ch : Z) (r : list Z) : IpmbReq :=
  {| rq_channel := ch; rq_addr := byte r 0; rq_netfn := byte r 1; rq_lun := byte r 2;
     rq_cmd := byte r 3;
     rq_data := if byte r 1 =? NETFN_VITA4611 then 0x03 :: drop 4 r else drop 4 r |}.

Definition vso_caps_request (r : list Z) : bool :=
  (byte r 1 =? NETFN_VITA4611) && (byte r 3 =? VITA4611_GETVSOCAPS_CMD).

(** The branches of the passthrough. *)
Ltac enter_passthrough Hch :=
  unfold execute_passthrough_cmd;
  match goal with |- bind the_ch _ ?s = _ => rewrite (bind_Ret _ _ s s s) by done;
    fold (passthrough_channel s); rewrite Hch end;
  match goal with
  | |- context [(length ?r <? 4)%nat] =>
      destruct (Nat.ltb_spec (length r) 4); [done || lia|rewrite ?bind_idx_byte by lia]
  | _ => idtac
  end.

Lemma passthrough_no_channel r s :
  passthrough_channel s = None -> execute_passthrough_cmd r s = Ret responseIllegalCommand s.
Proof. intros Hch. by enter_passthrough Hch. Qed.

Lemma passthrough_short ch r s :
  passthrough_channel s = Some ch -> (length r < 4)%nat ->
  execute_passthrough_cmd r s = Ret responseReqDataLenInvalid s.
Proof.
  intros Hch Hr. enter_passthrough Hch. lia.
Qed.

Lemma passthrough_chassis ch r s :
  passthrough_channel s = Some ch -> (4 <= length r)%nat -> byte r 0 = CHMC_IPMI_ADDRESS ->
  execute_passthrough_cmd r s =
    (let! data := handleChMCommand r in
     match data with [] => ret responseIllegalCommand | _ => ret (responseSuccess data) end) s.
Proof. intros Hch Hr Ha. enter_passthrough Hch. by rewrite Ha, Z.eqb_refl. Qed.

Lemma passthrough_invalid ch r s :
  passthrough_channel s = Some ch -> (4 <= length r)%nat -> byte r 0 <> CHMC_IPMI_ADDRESS ->
  verify_ipmi_address_is_valid (byte r 0) s = false ->
  execute_passthrough_cmd r s = Ret responseIllegalCommand s.
Proof.
  intros Hch Hr Ha Hv. enter_passthrough Hch. by rewrite (proj2 (Z.eqb_neq _ _) Ha), Hv.
Qed.

Lemma passthrough_no_device ch r s :
  passthrough_channel s = Some ch -> (4 <= length r)%nat -> byte r 0 <> CHMC_IPMI_ADDRESS ->
  verify_ipmi_address_is_valid (byte r 0) s = true ->
  findDeviceByAddress (byte r 0) s = None ->
  execute_passthrough_cmd r s =
    Ret (if byte r 1 =? NETFN_VITA4611 then responseInvalidCommandOnLun
         else responseUnspecifiedError) s.
Proof.
  intros Hch Hr Ha Hv Hd. enter_passthrough Hch.
  rewrite (proj2 (Z.eqb_neq _ _) Ha), Hv, Hd, (Z.eqb_sym NETFN_VITA4611). cbn [negb].
  by destruct (byte r 1 =? NETFN_VITA4611).
Qed.

Lemma passthrough_forward ch r s :
  passthrough_channel s = Some ch -> (4 <= length r)%nat -> byte r 0 <> CHMC_IPMI_ADDRESS ->
  verify_ipmi_address_is_valid (byte r 0) s = true ->
  is_Some (findDeviceByAddress (byte r 0) s) ->
  let q := forwarded ch r in
  let s' := called (CIpmb q) s in
  execute_passthrough_cmd r s =
    match env_ipmb (ch_hist s) q with
    | ReplyOk rep =>
        if r_cc rep =? 0 then Ret (responseSuccess (r_data rep)) s'
        else Ret (if vso_caps_request r then responseCmdFailInitAgent else response (r_cc rep)) s'
    | ReplyException => Ret (if vso_caps_request r then responseCmdFailInitAgent else response 0xFF) s'
    | ReplyMethodError => if vso_caps_request r then Ret responseCmdFailInitAgent s'
                          else Undef Uninitialised
    end.
Proof.
  intros Hch Hr Ha Hv [d Hd] q s'. enter_passthrough Hch.
  rewrite (proj2 (Z.eqb_neq _ _) Ha), Hv, Hd. cbn [negb].
  unfold s', q, forwarded, vso_caps_request. rewrite (Z.eqb_sym NETFN_VITA4611).
  destruct (byte r 1 =? NETFN_VITA4611); cbn [andb];
    unfold forward, fail_cc, ch_hist_m, zoom, bind, sendIPMBRequest, init_read, called;
    destruct (env_ipmb _ _) as [| |rep]; try destruct (byte r 3 =? _);
    try destruct (r_cc rep =? 0); done.
Qed.

Definition passthrough_crashes (s : ChM) (r : list Z) : bool :=
  (4 <=? length r)%nat &&
  match passthrough_channel s with
  | None => false
  | Some ch =>
      if byte r 0 =? CHMC_IPMI_ADDRESS then command_crashes s r
      else verify_ipmi_address_is_valid (byte r 0) s
           && bool_decide (is_Some (findDeviceByAddress (byte r 0) s))
           && negb (vso_caps_request r)
           && match env_ipmb (ch_hist s) (forwarded ch r) with ReplyMethodError => true | _ => false end
  end.
End totality.

(** C29. Every passthrough request, of any length
    and content, in every well-formed state, returns a response and keeps the
    state well-formed - unless it is one of the requests
    [passthrough_crashes] lists: a chassis command for a FRU, key or address
    no device has, one whose request is a byte too short for the guard, a
    policy that was never set, a fan policy for the wildcard site, or a
    forwarded request that gets a D-Bus error.  Each of those, and no other,
    is undefined behaviour; no exception escapes. *)
Theorem passthrough_defined_exactly `{Environment} s r :
  WF s -> bytes r ->
  if passthrough_crashes s r
  then exists f, execute_passthrough_cmd r s = Undef f
  else exists rsp s', execute_passthrough_cmd r s = Ret rsp s' /\ WF s'.
Proof.
  intros Hs Hb. unfold passthrough_crashes.
  destruct (passthrough_channel s) as [ch|] eqn:Hch.
  2:{ rewrite andb_false_r, passthrough_no_channel by done. by eexists _, s. }
  destruct (Nat.leb_spec 4 (length r)) as [Hr|Hr]; cbn [andb].
  2:{ rewrite (passthrough_short ch) by done. by eexists _, s. }
  destruct (Z.eqb_spec (byte r 0) CHMC_IPMI_ADDRESS) as [Ea|Ea].
  { rewrite (passthrough_chassis ch) by done.
    pose proof (total_handleChMCommand s r Hs Hb Hr) as T. destruct (command_crashes s r).
    - destruct T as [f E]. exists f. by rewrite (bind_Undef _ _ _ _ E).
    - destruct T as (data & s' & E & Hs'). rewrite (bind_Ret _ _ _ _ _ E).
      destruct data; eexists _, s'; by split. }
  destruct (verify_ipmi_address_is_valid (byte r 0) s) eqn:Hv; cbn [andb].
  2:{ rewrite (passthrough_invalid ch) by done. by eexists _, s. }
  destruct (findDeviceByAddress (byte r 0) s) as [d|] eqn:Hd.
  - rewrite bool_decide_eq_true_2 by done.
    rewrite (passthrough_forward ch) by (done || by rewrite Hd).
    destruct (env_ipmb _ _) as [| |rep]; destruct (vso_caps_request r); cbn [andb negb];
      try destruct (r_cc rep =? 0); try (eexists _, _; split; [reflexivity|by apply WF_hist]).
    by eexists.
  - rewrite bool_decide_eq_false_2 by (intros [? ?]; done).
    rewrite (passthrough_no_device ch) by done. by eexists _, s.
Qed.

(** ** Routing *)
Section routing.
Context `{Libm} `{Environment}.


(** Over any bridge that keeps its
    contract, a request whose module never answers (the bridge reports a
    failure status) is answered to the caller with completion code success
    and no data, for every command: the timeout is invisible. *)
Theorem silent_module_reported_as_success `{!BridgeContract} ch r s rep :
  passthrough_channel s = Some ch -> (4 <= length r)%nat -> byte r 0 <> CHMC_IPMI_ADDRESS ->
  verify_ipmi_address_is_valid (byte r 0) s = true ->
  is_Some (findDeviceByAddress (byte r 0) s) ->
  env_ipmb (ch_hist s) (forwarded ch r) = ReplyOk rep -> r_status rep <> 0 ->
  execute_passthrough_cmd r s = Ret (responseSuccess []) (called (CIpmb (forwarded ch r)) s).
Proof.
  intros Hch Hr Ha Hv Hd E Hst. rewrite (passthrough_forward ch) by done. cbv zeta. rewrite E.
  destruct (bridge_contract _ _ _ E Hst) as (st & _ & ->). reflexivity.
Qed.

(** Chassis requests. *)
Definition chassis_request (lun cmd : Z) (data : list Z) : list Z :=
  CHMC_IPMI_ADDRESS :: NETFN_VITA4611 :: lun :: cmd :: data.

Lemma chassis_request_eq ch lun cmd data s :
  passthrough_channel s = Some ch ->
  execute_passthrough_cmd (chassis_request lun cmd data) s =
    (let! data := handleChMCommand (chassis_request lun cmd data) in
     match data with [] => ret responseIllegalCommand | _ => ret (responseSuccess data) end) s.
Proof. intros Hch. apply (passthrough_chassis ch); [done|simpl; lia|done]. Qed.

Lemma chassis_command ch lun cmd data s b rsp s' :
  passthrough_channel s = Some ch ->
  handleChMCommand (chassis_request lun cmd data) s = Ret (b :: rsp) s' ->
  execute_passthrough_cmd (chassis_request lun cmd data) s = Ret (responseSuccess (b :: rsp)) s'.
Proof. intros Hch E. by rewrite (chassis_request_eq ch), (bind_Ret _ _ _ _ _ E). Qed.

(** Disabling both buses with one [Set IPMB State] is final:
    from then on every request is refused as illegal and changes nothing,
    including the [Set IPMB State] that would enable a bus again and the
    commands the manager answers by itself. *)
Theorem ipmb_lockout ch lun a b s :
  passthrough_channel s = Some ch -> a mod 2 = 0 -> b mod 2 = 0 ->
  exists s', execute_passthrough_cmd (chassis_request lun VITA4611_SET_IPMB_STATE_CMD [a; b]) s
      = Ret (responseSuccess [0x03]) s' /\
    forall r, execute_passthrough_cmd r s' = Ret responseIllegalCommand s'.
Proof.
  intros Hch Ha Hb. assert (a <> 0xFF) as Ha' by (intros ->; done).
  assert (b <> 0xFF) as Hb' by (intros ->; done).
  eexists. rewrite (chassis_request_eq ch) by done. split.
  - unfold handleChMCommand, setIpmbState, bind, idx, ret, of_option. cbn -[Z.modulo Z.eqb].
    rewrite (proj2 (Z.eqb_neq _ _) Ha'), (proj2 (Z.eqb_neq _ _) Hb'), Ha, Hb. reflexivity.
  - intros r. by apply passthrough_no_channel.
Qed.

(** Setting an identifier of up to 20 bytes and
    getting it returns the type and the bytes; an identifier shorter than 20
    bytes is followed by the tail of the previous one, which is never
    cleared.  A longer one is refused without effect. *)
Theorem chassis_id_roundtrip ch lun lun' type field s :
  WF s -> passthrough_channel s = Some ch ->
  let set := execute_passthrough_cmd (chassis_request lun VITA4611_SET_CHASSIS_ID_CMD (type :: field)) s in
  if (length field <=? 20)%nat
  then exists s', set = Ret (responseSuccess [0x03]) s' /\
    execute_passthrough_cmd (chassis_request lun' VITA4611_GET_CHASSIS_ID_CMD []) s' =
      Ret (responseSuccess (0x03 :: type :: field ++
             drop (length field) (chassis_id_field (chassisAddressTable s)))) s' /\
    ch_hist s' = ch_hist s
  else set = Ret responseIllegalCommand s.
Proof.
  intros Hs Hch set.
  assert (E : set = if (length field <=? 20)%nat then Ret (responseSuccess [0x03])
      (set_CAT (set_identifier type (field ++ drop (length field)
        (chassis_id_field (chassisAddressTable s))) (chassisAddressTable s)) s)
    else Ret responseIllegalCommand s).
  { unfold set. rewrite (chassis_request_eq ch) by done.
    unfold handleChMCommand, setChassisIdentifier, chassis_request, bind, idx, ret, of_option.
    cbn -[app Nat.leb Nat.ltb length]. change (drop 0 field) with field.
    destruct (Nat.leb_spec (length field) 20), (Nat.ltb_spec 20 (length field)); [lia|done|done|lia]. }
  rewrite E. destruct (length field <=? 20)%nat; [|done]. eexists. split; [reflexivity|].
  split; [|done]. by rewrite (chassis_request_eq ch).
Qed.
End routing.

(** ** FRU state *)
Section fru_state.
Context `{Libm} `{Environment}.

Lemma device_at_assign k k' o s :
  device_at k' (set_deviceMap (map_assign k o (deviceMap s)) s) =
  if k' =? k then o else device_at k' s.
Proof.
  unfold device_at. simpl. rewrite map_find_assign. by destruct (k' =? k).
Qed.

(** For a device of the map, the policy read back is
    the conjunction of the mask and the bits that were set - the mask does
    not select which of the old bits survive - and no other device, and
    nothing else of the device, changes. *)
Theorem policy_bits_roundtrip ch lun lun' k mask bits d s :
  WF s -> passthrough_channel s = Some ch -> device_at k s = Some d ->
  exists s',
    execute_passthrough_cmd
      (chassis_request lun VITA4611_SET_FRU_STATE_POLICY_BITS_CMD [k; mask; bits]) s
      = Ret (responseSuccess [0x03]) s' /\
    execute_passthrough_cmd (chassis_request lun' VITA4611_GET_FRU_STATE_POLICY_BITS_CMD [k]) s'
      = Ret (responseSuccess [0x03; Z.land mask bits]) s' /\
    device_at k s' = Some (set_ids (device_id d) (Some (Z.land mask bits)) (fru_activation_flag d) d) /\
    (forall k', k' <> k -> device_at k' s' = device_at k' s) /\ ch_hist s' = ch_hist s.
Proof.
  intros Hs Hch Hd. set (f := fun d => set_ids (device_id d) (Some (Z.land mask bits))
    (fru_activation_flag d) d).
  pose proof (update_device_cases k f s Hs ltac:(done)) as U. rewrite Hd in U. destruct U as [U Hs'].
  set (s' := set_deviceMap (map_assign k (Some (f d)) (deviceMap s)) s) in *.
  assert (Hne : deviceMap s <> []) by (intros E; unfold device_at in Hd; by rewrite E in Hd).
  assert (Hd' : device_at k s' = Some (f d)) by (unfold s'; by rewrite device_at_assign, Z.eqb_refl).
  exists s'. split; [|split; [|split; [done|split]]].
  - apply (chassis_command ch); [done|].
    transitivity (setFruStatePolicyBits
      (chassis_request lun VITA4611_SET_FRU_STATE_POLICY_BITS_CMD [k; mask; bits]) s); [done|].
    transitivity ((update_device k f ;;; ret (group [])) s); [|by rewrite (bind_Ret _ _ _ _ _ U)].
    unfold setFruStatePolicyBits, bind at 1 2 3 4. cbn -[update_device].
    by destruct (deviceMap s).
  - apply (chassis_command ch); [done|].
    transitivity (getFruStatePolicyBits k s'); [done|].
    unfold getFruStatePolicyBits. rewrite (bind_Ret _ _ s' s' s') by done.
    assert (Hne' : deviceMap s' <> []) by (intros E; unfold device_at in Hd'; by rewrite E in Hd').
    destruct (deviceMap s') as [|e m] eqn:Em; [done|].
    destruct (deviceMap_at_Ret k s' Hs') as (s2 & E & _ & _ & Hsame & _).
    rewrite (bind_Ret _ _ _ _ _ E), Hd'. rewrite Hsame by by rewrite Hd'. reflexivity.
  - intros k' Hk. unfold s'. rewrite device_at_assign. by destruct (Z.eqb_spec k' k).
  - done.
Qed.

Definition reset_request (cmd : Z) : IpmbReq :=
  {| rq_channel := 0; rq_addr := 0x8a; rq_netfn := 0x06; rq_lun := 0; rq_cmd := cmd;
     rq_data := [0x03] |}.

(** The guards of [fruControl] on a request of the right length. *)
Ltac enter_fruControl k control :=
  unfold fruControl;
  match goal with |- context [(length ?r <? 5)%nat] =>
    change (length r <? 5)%nat with false; cbv iota; rewrite !bind_idx_byte by (simpl; lia);
    change (byte r 4) with k; change (byte r 5) with control
  end.

(** [FRU Control] answers success whatever
    happens: a cold or warm reset of a known device is sent on channel 0 to
    the fixed address 0x8a, whichever device was asked for and whichever bus
    is enabled, and its outcome is ignored; the graceful reboot and the
    diagnostic interrupt do nothing. *)
Theorem fru_control_ignores_device ch lun k control d s :
  WF s -> passthrough_channel s = Some ch -> device_at k s = Some d -> 0 <= control <= 3 ->
  execute_passthrough_cmd (chassis_request lun VITA4611_FRU_CONTROL [k; control]) s =
    Ret (responseSuccess [0x03])
      (if control <=? 1 then called (CIpmb (reset_request (control + 2))) s else s).
Proof.
  intros Hs Hch Hd Hc. apply (chassis_command ch); [done|].
  destruct (deviceMap_at_Ret k s Hs) as (s' & E & _ & _ & Hsame & _).
  rewrite Hsame in E by by rewrite Hd. rewrite Hd in E.
  assert (F : fruControl (chassis_request lun VITA4611_FRU_CONTROL [k; control]) s =
    Ret (group []) (if control <=? 1 then called (CIpmb (reset_request (control + 2))) s else s)).
  { enter_fruControl k control. rewrite (bind_Ret _ _ _ _ _ E).
    assert (control ∈ [0; 1; 2; 3]) as Hin by (rewrite !elem_of_cons; lia).
    rewrite !elem_of_cons in Hin.
    destruct Hin as [->|[->|[->|[->|Hin]]]]; [reflexivity..|by apply not_elem_of_nil in Hin]. }
  exact F.
Qed.

Lemma polls_null_undefined (m : Z -> VITA4611Device -> M (list Call) VITA4611Device) k l :
  (forall k d h e h', m k d h <> Throw e h') -> map_find k l = Some None -> forall h,
  exists f, mmap (fun '(k, p) => let! d := deref p in let! d' := m k d in ret (k, Some d')) l h = Undef f.
Proof.
  intros Hm. induction l as [|[j o] l IH]; simpl; [done|]. intros Hk h.
  destruct (Z.eqb_spec k j) as [->|]; [injection Hk as ->; by eexists|].
  destruct o as [d|]; [|by eexists].
  destruct (m j d h) as [d' h'|e h'|f] eqn:E; [|by apply Hm in E|].
  - destruct (IH Hk h') as [f Ef]. exists f.
    erewrite bind_Ret by (rewrite (bind_Ret _ _ _ d h), (bind_Ret _ _ _ _ _ E) by done; reflexivity).
    by rewrite (bind_Undef _ _ _ _ Ef).
  - exists f. apply bind_Undef. rewrite (bind_Ret _ _ _ d h) by done. by apply bind_Undef.
Qed.

Lemma getAllSensorReadings_never_throws d h e h' : on_device getAllSensorReadings d h <> Throw e h'.
Proof.
  assert (R : forall ss h e h', mmap (getSensorReading (ipmi_address d) 0) ss h <> Throw e h').
  { clear. induction ss as [|s ss IH]; intros h e h'; [done|]. simpl.
    unfold bind at 1. destruct (getSensorReading _ _ s h) as [x h1|e1 h1|] eqn:E; [| |done].
    - unfold bind. destruct (mmap _ ss h1) eqn:E2; [done| |done]. by apply IH in E2.
    - exfalso. unfold getSensorReading in E.
      destruct (sendIPMBRequest_eq 0 (ipmi_address d) NETFN_S_E 0 IPMI_GET_SENSOR_READING_CMD
        [sensorNumber s] h) as [cc Es].
      rewrite (bind_Ret _ _ _ _ _ Es) in E. cbn [fst] in E.
      unfold bind, idx, of_option, init_read, modify, ret, undef in E.
      destruct (accepted _) as [r|]; [destruct (r_data r !! 0%nat); [|done]|];
        destruct (full s), (sensorIface s); discriminate. }
  unfold on_device. intros E. unfold getAllSensorReadings, lift_hist, zoom, bind in E. simpl in E.
  destruct (mmap _ _ h) eqn:Em; [done| |done]. by apply R in Em.
Qed.

(** [FRU Control] for a FRU id that no device
    has answers success, but [deviceMap[fru_dev_id]] has inserted a null
    pointer under that id: the next poll of the sensors dereferences it, if
    nothing stops it earlier. *)
Theorem fru_control_kills_polling ch lun k s :
  WF s -> passthrough_channel s = Some ch -> map_find k (deviceMap s) = None ->
  exists s', execute_passthrough_cmd (chassis_request lun VITA4611_FRU_CONTROL [k; 0]) s
      = Ret (responseSuccess [0x03]) s' /\
    exists f, pollDeviceSensors s' = Undef f.
Proof.
  intros Hs Hch Hk. eexists. split.
  - apply (chassis_command ch); [done|].
    transitivity (fruControl (chassis_request lun VITA4611_FRU_CONTROL [k; 0]) s); [done|].
    enter_fruControl k 0. rewrite (bind_Ret _ _ _ None (set_deviceMap (map_assign k None (deviceMap s)) s))
      by (unfold deviceMap_at; by rewrite Hk).
    reflexivity.
  - set (s1 := set_deviceMap _ _).
    destruct (polls_null_undefined (fun _ d => on_device getAllSensorReadings d) k (deviceMap s1))
      with (h := ch_hist s1) as [f E].
    + intros. apply getAllSensorReadings_never_throws.
    + unfold s1. simpl. by rewrite map_find_assign, Z.eqb_refl.
    + exists f. unfold pollDeviceSensors, each_device. rewrite (bind_Ret _ _ s1 s1 s1) by done.
      unfold bind at 1, ch_hist_m, zoom. by rewrite E.
Qed.
End fru_state.

(** ** Enumeration *)
Section enumeration.
Context `{Libm} `{Environment}.
(** Presence on the bus does not change while it is scanned. *)
Context (probe : Z -> bool) (probe_stable : forall h a, env_probe h a = probe a).

Definition i2c_item (a : Z) : I2CDeviceInfo :=
  {| i2cbus := 0; devicei2caddress := a; i2c_channel := 0; ShMCi2caddress := 0x20 |}.

(** The node of [deviceMap] for the address [a]. *)
Definition device_node (a : Z) (e : Z * option VITA4611Device) : Prop :=
  exists d, e.2 = Some d /\ ipmi_address d = 2 * a /\ hw_address d = a /\ device_id d = Some 0 /\
    (e.1 = 0 <-> a = CHMC_I2C_ADDRESS).

(** The address of the device of an entry of [deviceMap]. *)
Definition node_address (e : Z * option VITA4611Device) : option Z := hw_address <$> e.2.

(** The state after the present addresses [l] have been added. *)
Record enumerated (l : list Z) (n : Z) (s : ChM) : Prop := {
  en_wf : WF s;
  en_n : 1 <= n;
  en_i2c : i2cdeviceMap s = if decide (l = []) then [] else [(0, map i2c_item l)];
  en_entries : map entry_hw_address (entries (chassisAddressTable s)) = l;
  en_count : chassis_add_table_entries_count (chassisAddressTable s) = u8 (Z.of_nat (length l));
  en_devices : map node_address (deviceMap s) ≡ₚ map Some l;
  en_nodes : Forall (fun e => 0 <= e.1 < n /\ exists a, a ∈ l /\ device_node a e) (deviceMap s);
  en_all : forall a, a ∈ l -> exists k o, map_find k (deviceMap s) = Some o /\ device_node a (k, o) }.

Lemma map_find_In {V} k (v : V) m : map_find k m = Some v -> In (k, v) m.
Proof.
  induction m as [|[j w] m IH]; simpl; [done|].
  destruct (Z.eqb_spec k j) as [->|]; [intros [= ->]; by left|intros E; right; auto].
Qed.

Lemma Forall_assign_node {V} (P : Z * V -> Prop) k v m :
  Forall P m -> P (k, v) -> Forall P (map_assign k v m).
Proof. intros. by apply Forall_map_assign. Qed.

Lemma add_device_spec l n k a s s' :
  enumerated l n s -> 3 <= a <= 0x77 -> a ∉ l ->
  (k = 0 /\ a = CHMC_I2C_ADDRESS) \/ (k = n /\ a <> CHMC_I2C_ADDRESS) ->
  add_device k a s = Ret tt s' ->
  enumerated (l ++ [a]) (if k =? 0 then n else n + 1) s'.
Proof.
  intros [Hwf Hn Hi He Hc Hdev Hnode Hall] Ha Hnin Hk E. unfold add_device in E.
  unfold bind at 1, modify at 1 in E. unfold bind at 1, ch_hist_m, zoom in E.
  destruct (new_VITA4611Device _ _ _) as [d h| |] eqn:Ed; [|done..].
  injection E as <-. apply new_device_addresses in Ed as (A1 & A2 & A3 & A4 & _).
  assert (Hshift : u8 (Z.shiftl a 1) = 2 * a).
  { rewrite Z.shiftl_mul_pow2 by lia. change (2 ^ 1) with 2. rewrite u8_small; unfold is_byte; lia. }
  assert (Hnew : device_node a (k, Some (set_ids (Some 0) (fru_activation_policy d)
                                           (fru_activation_flag d) d))).
  { eexists. split; [reflexivity|]. simpl. rewrite A1, A2. simpl. rewrite Hshift.
    rewrite shiftr_div by lia. change (2 ^ 1) with 2. rewrite Z.mul_comm, Z.div_mul by lia.
    split; [lia|]. split; [done|]. split; [done|]. destruct Hk as [[-> ->]|[-> Hne]]; split; intros; lia. }
  assert (Hfresh : map_find k (deviceMap s) = None).
  { destruct (map_find k (deviceMap s)) as [o|] eqn:Ef; [|done]. exfalso.
    pose proof (Forall_map_find _ _ _ _ Hnode Ef) as [Hr (b & Hb & o' & _ & _ & _ & _ & Hiff)].
    simpl in Hr, Hiff. destruct Hk as [[-> ->]|[-> _]]; [|lia].
    assert (b = CHMC_I2C_ADDRESS) as -> by by apply Hiff. done. }
  constructor; simpl.
  - destruct Hwf as [W1 W2]. constructor; [done|]. simpl. apply Forall_map_assign; [by eexists|done].
  - destruct (k =? 0); lia.
  - rewrite decide_False by (by destruct l). rewrite Hi.
    destruct (decide (l = [])) as [->|]; [done|]. unfold push_i2c. simpl. by rewrite map_app.
  - rewrite map_app, He. simpl. rewrite A2. simpl. rewrite Hshift, shiftr_div by lia.
    change (2 ^ 1) with 2. by rewrite Z.mul_comm, Z.div_mul by lia.
  - rewrite Hc, length_app, u8_add_l. f_equal. simpl. lia.
  - rewrite map_assign_perm by done. cbn [map]. rewrite Hdev, map_app. unfold node_address at 1.
    cbn [snd fmap option_fmap option_map]. destruct Hnew as (d' & [= <-] & _ & -> & _).
    apply Permutation_cons_append.
  - apply Forall_assign_node.
    + eapply Forall_impl; [exact Hnode|]. intros e [Hr (b & Hb & He')]. split; [destruct (k =? 0); lia|].
      exists b. split; [apply elem_of_app; by left|done].
    + simpl. split; [destruct (Z.eqb_spec k 0); lia|]. exists a. split; [|done].
      apply elem_of_app. right. apply list_elem_of_here.
  - intros b Hb. apply elem_of_app in Hb as [Hb|Hb].
    + destruct (Hall b Hb) as (j & o & Ef & Hj). exists j, o. split; [|done].
      rewrite map_find_assign. destruct (Z.eqb_spec j k) as [->|]; [congruence|done].
    + apply list_elem_of_singleton in Hb as ->. eexists k, _.
      rewrite map_find_assign, Z.eqb_refl. by split.
Qed.

Lemma ask_probe a s : ask (fun h => env_probe h a) (CProbe a) s = Ret (probe a) (called (CProbe a) s).
Proof. unfold ask, ch_hist_m, zoom. by rewrite probe_stable. Qed.

Lemma enumerated_called l n c s : enumerated l n s -> enumerated l n (called c s).
Proof. intros []. constructor; [by apply WF_hist|done..]. Qed.

Lemma enumerate_addrs_spec addrs l n s s' :
  enumerated l n s -> Forall (fun a => 3 <= a <= 0x77) addrs -> NoDup (l ++ addrs) ->
  enumerate_addrs n addrs s = Ret tt s' ->
  exists n', enumerated (l ++ List.filter probe addrs) n' s'.
Proof.
  revert l n s. induction addrs as [|a addrs IH]; intros l n s Hen Hr Hnd E.
  { injection E as <-. exists n. simpl. by rewrite app_nil_r. }
  apply Forall_cons in Hr as [Ha Hr]. cbn [enumerate_addrs] in E.
  rewrite (bind_Ret _ _ _ _ _ (ask_probe a s)) in E. cbn [List.filter].
  assert (Hnin : a ∉ l) by (apply NoDup_app in Hnd as (_ & Hd & _); intros Hl; apply (Hd a Hl); by left).
  assert (Hnd' : NoDup (l ++ addrs)).
  { rewrite Permutation_app_comm in Hnd. rewrite Permutation_app_comm. by inversion Hnd. }
  destruct (probe a).
  2:{ eapply IH; [by apply enumerated_called|done|done|exact E]. }
  assert (Hstep : exists k n2 s2, add_device k a (called (CProbe a) s) = Ret tt s2 /\
    ((k = 0 /\ a = CHMC_I2C_ADDRESS) \/ (k = n /\ a <> CHMC_I2C_ADDRESS)) /\
    n2 = (if k =? 0 then n else n + 1) /\ enumerate_addrs n2 addrs s2 = Ret tt s').
  { pose proof (en_n _ _ _ Hen). destruct (Z.eqb_spec a CHMC_I2C_ADDRESS) as [Ea|Ea];
      unfold bind in E; destruct (add_device _ a _) as [[] s2| |] eqn:E2; try done.
    - exists 0, n, s2. auto.
    - exists n, (n + 1), s2. repeat split; [done|by right|by destruct (Z.eqb_spec n 0); [lia|]|done]. }
  destruct Hstep as (k & n2 & s2 & E2 & Hk & -> & E3).
  eapply add_device_spec in E2; [|by apply enumerated_called|done|done|done].
  replace (l ++ a :: List.filter probe addrs) with ((l ++ [a]) ++ List.filter probe addrs)
    by by rewrite <- app_assoc.
  eapply IH; [exact E2|done|by rewrite <- app_assoc|exact E3].
Qed.

(** C31. When enumeration completes, its tables hold
    exactly the addresses 3 to 0x77 that answered the probe, in order: the
    device list is the manager's address followed by their doubles, the
    chassis address table counts and lists them, an IPMI address is valid
    exactly for them, there is exactly one device for each of them and no
    other device, and the device of each is found under its IPMI address and
    none under any other. *)
Theorem enumeration_builds_tables s :
  env_i2c_open = true -> enumerateI2CDevices initial_manager = Ret tt s ->
  let present := List.filter probe (seqZ 3 0x75) in
  lcrgetdevicelist s = CHMC_IPMI_ADDRESS :: map (fun a => 2 * a) present /\
  map entry_hw_address (entries (chassisAddressTable s)) = present /\
  chassis_add_table_entries_count (chassisAddressTable s) = Z.of_nat (length present) /\
  (forall addr, is_byte addr ->
     (verify_ipmi_address_is_valid addr s = true <-> Z.shiftr addr 1 ∈ present)) /\
  (forall a, a ∈ present -> exists d, findDeviceByAddress (2 * a) s = Some d /\
     ipmi_address d = 2 * a /\ hw_address d = a /\ device_id d = Some 0) /\
  map node_address (deviceMap s) ≡ₚ map Some present /\
  (forall addr d, findDeviceByAddress addr s = Some d -> exists a, a ∈ present /\ addr = 2 * a) /\
  WF s.
Proof.
  intros Hopen E present. unfold enumerateI2CDevices in E. rewrite Hopen in E.
  assert (Hrange : Forall (fun a => 3 <= a <= 0x77) (seqZ 3 0x75)).
  { apply Forall_forall. intros a Ha%elem_of_seqZ. lia. }
  destruct (enumerate_addrs_spec (seqZ 3 0x75) [] 1 initial_manager s) as [n Hen];
    [|done|apply NoDup_seqZ|done|].
  { constructor; [by constructor; [|constructor]|done..|constructor|].
    intros a Ha. by apply not_elem_of_nil in Ha. }
  cbn [app] in Hen. fold present in Hen. destruct Hen as [Hwf _ Hi He Hc Hdev Hnode Hall].
  assert (Hp : Forall (fun a => 3 <= a <= 0x77) present).
  { apply Forall_forall. intros a Ha. rewrite Forall_forall in Hrange. apply Hrange.
    apply list_elem_of_In, filter_In in Ha as [Ha _]. by apply list_elem_of_In. }
  assert (Hlen : (length present <= 117)%nat).
  { unfold present. etransitivity; [apply filter_length_le|]. by rewrite length_seqZ. }
  split; [|split; [done|split; [|split; [|split; [|split; [done|split; [|done]]]]]]].
  - unfold lcrgetdevicelist, get_device_list. f_equal. rewrite Hi.
    destruct (decide (present = [])) as [->|]; [done|]. simpl. rewrite app_nil_r, map_map.
    apply map_ext_in. intros a Ha%list_elem_of_In. rewrite Forall_forall in Hp. specialize (Hp _ Ha).
    simpl. rewrite Z.shiftl_mul_pow2 by lia. change (2 ^ 1) with 2. rewrite u8_small; unfold is_byte; lia.
  - rewrite Hc, u8_small; [done|]. unfold is_byte. lia.
  - intros addr Hb. unfold verify_ipmi_address_is_valid. rewrite Hi.
    destruct (decide (present = [])) as [->|]; simpl; [split; [done|by intros ?%not_elem_of_nil]|].
    rewrite orb_false_r, existsb_exists. split.
    + intros (it & Hin & Heq). apply in_map_iff in Hin as (a & <- & Hin%list_elem_of_In).
      apply Z.eqb_eq in Heq. simpl in Heq. by subst.
    + intros Hin. exists (i2c_item (Z.shiftr addr 1)). split; [|apply Z.eqb_refl].
      apply in_map. by apply list_elem_of_In.
  - intros a Ha. destruct (Hall a Ha) as (k & o & Ef & d & Hd & Hd1 & _). simpl in Hd. subst o.
    apply map_find_In in Ef. unfold findDeviceByAddress, find_device.
    destruct (List.find _ _) as [[j o]|] eqn:Efind.
    + apply find_some in Efind as [Hin Hp2]. destruct o as [d2|]; [|done]. apply Z.eqb_eq in Hp2.
      rewrite Forall_forall in Hnode. apply list_elem_of_In, Hnode in Hin as [_ (b & _ & d3 & E3 & E4 & E5 & E6 & _)].
      simpl in E3. injection E3 as <-. exists d2. repeat split; [done|lia|done].
    + eapply find_none in Efind; [|exact Ef]. simpl in Efind. lia.
  - intros addr d Hf. unfold findDeviceByAddress, find_device in Hf.
    destruct (List.find _ _) as [[j o]|] eqn:Efind; [|done]. subst o.
    apply find_some in Efind as [Hin Hp2]. apply Z.eqb_eq in Hp2. rewrite Forall_forall in Hnode.
    apply list_elem_of_In, Hnode in Hin as [_ (b & Hb & d3 & E3 & E4 & _)].
    simpl in E3. injection E3 as <-. exists b. split; [done|lia].
Qed.
End enumeration.

(** ** Fan policy *)
Section fan_policy.
Context `{Libm} `{Environment}.

(** [Set Fan Policy] for a site: enable state, timeout in units of five
    seconds, then the site. *)
Definition fan_policy_request (lun tray enable timeout : Z) (site : list Z) : list Z :=
  chassis_request lun VITA4611_SET_FAN_POLICY_CMD (tray :: enable :: timeout :: site).

Lemma fan_policy_eq ch lun tray enable t s1 s2 site s :
  passthrough_channel s = Some ch -> 0 <= t ->
  execute_passthrough_cmd (fan_policy_request lun tray enable t (s1 :: s2 :: site)) s =
  if negb (tray =? 0) || (240 <? t) then Ret responseIllegalCommand s
  else Ret (responseSuccess [0x03])
         (policy_after (fan_policy_request lun tray enable t (s1 :: s2 :: site)) s).
Proof.
  intros Hch Ht. unfold fan_policy_request at 1. rewrite (chassis_request_eq ch) by done.
  set (r := chassis_request _ _ _).
  assert (E : handleChMCommand r s = setFanPolicy r s) by reflexivity.
  unfold bind. rewrite E, setFanPolicy_eq by exact Ht.
  change (policy_refused r) with (negb (tray =? 0) || (240 <? t)).
  by destruct (negb (tray =? 0) || (240 <? t)).
Qed.

(** A [Set Fan Policy] that disables the fan
    controller with a timeout of 1 to 240 units stops its service and arms
    the restart timer for five times as many seconds, replacing any earlier
    timer; when that timer expires, its handler starts the service and leaves
    nothing pending.  A timeout of 0 stops nothing, and one above 240,
    including the 0xFF that the code calls an indefinite stop, is refused, so
    no request stops the fan controller for good. *)
Theorem fan_policy_stop_is_temporary ch lun t s1 s2 site s :
  passthrough_channel s = Some ch -> 0 <= t < 256 -> restarts_queued s = 0%nat ->
  let request := execute_passthrough_cmd (fan_policy_request lun 0 0 t (s1 :: s2 :: site)) s in
  if 240 <? t then request = Ret responseIllegalCommand s
  else if t =? 0 then request = Ret (responseSuccess [0x03]) (cancelled s)
  else env_stop_unit (ch_hist (cancelled s)) = true ->
    exists s', request = Ret (responseSuccess [0x03]) s' /\
      ch_hist s' = CTimer (t * 5) :: CStopUnit :: ch_hist (cancelled s) /\
      fanRestartTimer s' = Some (t * 5) /\ timer_armed s' = true /\
      exists s'', (fanRestartTimer_expires ;;; fanRestartTimer_handler) s' = Ret tt s'' /\
        ch_hist s'' = CStartUnit :: ch_hist s' /\
        timer_armed s'' = false /\ restarts_queued s'' = 0%nat.
Proof.
  intros Hch Ht Hq request. unfold request. rewrite (fan_policy_eq ch) by (done || lia).
  change (negb (0 =? 0)) with false. cbn [orb].
  destruct (Z.ltb_spec 240 t); [done|].
  unfold policy_after. change (byte (fan_policy_request _ _ _ _ _) 5) with 0.
  change (byte (fan_policy_request _ _ _ _ _) 6) with t. cbn [Z.eqb].
  assert (Hq' : restarts_queued (cancelled s) = 0%nat)
    by (unfold cancelled; by destruct (fanRestartTimer s)).
  revert Hq'. generalize (cancelled s) as w. intros w Hq'.
  destruct (Z.eqb_spec t 0); [done|]. intros Hstop. rewrite Hstop.
  eexists. split; [reflexivity|]. do 3 (split; [reflexivity|]).
  unfold fanRestartTimer_expires, fanRestartTimer_handler, modify, bind, the_ch, get, ask,
    ch_hist_m, zoom. simpl. rewrite Hq'. eexists. by split.
Qed.

(** A stop that arrives after the earlier
    policy's timer has expired, but before its handler has run, is undone:
    cancelling does not reach the queued handler, which starts the service
    although the new timeout has only begun. *)
Theorem expired_timer_defeats_stop ch lun t s1 s2 site s s' :
  passthrough_channel s = Some ch -> 0 < t <= 240 ->
  timer_armed s = true -> fanRestartTimer_expires s = Ret tt s' ->
  env_stop_unit (ch_hist (cancelled s')) = true ->
  exists s1' s2',
    execute_passthrough_cmd (fan_policy_request lun 0 0 t (s1 :: s2 :: site)) s'
      = Ret (responseSuccess [0x03]) s1' /\
    fanRestartTimer_handler s1' = Ret tt s2' /\
    ch_hist s2' = CStartUnit :: CTimer (t * 5) :: CStopUnit :: ch_hist (cancelled s') /\
    fanRestartTimer s2' = Some (t * 5) /\ timer_armed s2' = true.
Proof.
  intros Hch Ht Harmed Hexp Hstop.
  assert (Hch' : passthrough_channel s' = Some ch)
    by (unfold fanRestartTimer_expires, modify in Hexp; rewrite Harmed in Hexp; by injection Hexp as <-).
  assert (Hq : restarts_queued (cancelled s') = S (restarts_queued s)).
  { unfold fanRestartTimer_expires, modify in Hexp. rewrite Harmed in Hexp. injection Hexp as <-.
    unfold cancelled. simpl. by destruct (fanRestartTimer s). }
  eexists _, _. split.
  { rewrite (fan_policy_eq ch) by (done || lia). change (negb (0 =? 0)) with false. cbn [orb].
    destruct (Z.ltb_spec 240 t); [lia|]. unfold policy_after.
    change (byte (fan_policy_request _ _ _ _ _) 5) with 0.
    change (byte (fan_policy_request _ _ _ _ _) 6) with t. cbn [Z.eqb].
    destruct (Z.eqb_spec t 0); [lia|]. rewrite Hstop. reflexivity. }
  split.
  { unfold fanRestartTimer_handler, modify, bind, the_ch, get, ask, ch_hist_m, zoom. simpl.
    rewrite Hq. reflexivity. }
  by repeat split.
Qed.
End fan_policy.

(** ** Witnesses *)
#[local] Existing Instance libm_example.

(** A chassis with one module at 0x41 (IPMI 0x82) that answers everything
    with one byte, and the manager's own controller at 0x20. *)
Definition module_device : VITA4611Device :=
  set_ids (Some 0) None None (raw_device 0 0x82).
Definition sample_manager : ChM :=
  set_maps [(0, [i2c_item 0x41])] [(1, Some module_device)] initial_manager.
Definition sample_env : Environment := answering (fun _ => ok_reply [3; 42]).

Lemma sample_WF : WF sample_manager.
Proof. constructor; [reflexivity|]. repeat constructor. by eexists. Qed.

Ltac bytes_tac :=
  unfold bytes; repeat (apply Forall_cons; split; [unfold is_byte; lia|]); apply Forall_nil; done.

Lemma passthrough_defined_exactly_witness :
  (exists rsp s', @execute_passthrough_cmd sample_env [0x82; 6; 0; 1] sample_manager = Ret rsp s' /\ WF s') /\
  (exists f, @execute_passthrough_cmd sample_env [0x40; 0x2c; 0; 0x0D; 9] sample_manager = Undef f).
Proof.
  pose proof (@passthrough_defined_exactly sample_env sample_manager [0x82; 6; 0; 1] sample_WF
    ltac:(bytes_tac)) as A.
  pose proof (@passthrough_defined_exactly sample_env sample_manager [0x40; 0x2c; 0; 0x0D; 9] sample_WF
    ltac:(bytes_tac)) as B.
  split; [exact A|exact B].
Defined.


(** The module at 0x82 behind the bridge model itself: every write of the
    bridge succeeds, and its response timer expires each of the six times. *)
Definition real_bridge : Environment :=
  bridge_environment shipped_config (fun _ => unanswered) sample_env.

Lemma silent_module_reported_as_success_witness :
  exists s', @execute_passthrough_cmd real_bridge [0x82; 6; 0; 1] sample_manager =
    Ret (responseSuccess []) s'.
Proof.
  assert (C : @BridgeContract real_bridge).
  { apply bridge_environment_contract. intros _. unfold unanswered. simpl.
    repeat (apply Forall_cons; split; [exact Logic.I|]). apply Forall_nil. done. }
  eexists. apply (@silent_module_reported_as_success real_bridge C 0 [0x82; 6; 0; 1] sample_manager
    (returnStatus timeout)); [reflexivity|simpl; lia|discriminate|reflexivity|by eexists| |discriminate].
  vm_compute. reflexivity.
Defined.

Lemma ipmb_lockout_witness :
  exists s', @execute_passthrough_cmd sample_env [0x40; 0x2c; 0; 9; 0; 0] sample_manager
      = Ret (responseSuccess [3]) s' /\
    @execute_passthrough_cmd sample_env [0x40; 0x2c; 0; 9; 1; 1] s' = Ret responseIllegalCommand s'.
Proof.
  destruct (@ipmb_lockout sample_env 0 0 0 0 sample_manager) as (s' & E & L); [reflexivity..|].
  exists s'. split; [exact E|apply L].
Defined.

Lemma chassis_id_roundtrip_witness :
  exists s', @execute_passthrough_cmd sample_env [0x40; 0x2c; 0; 3; 0xC3; 0x61; 0x62] sample_manager
      = Ret (responseSuccess [3]) s' /\
    @execute_passthrough_cmd sample_env [0x40; 0x2c; 0; 2] s'
      = Ret (responseSuccess (3 :: 0xC3 :: 0x61 :: 0x62 :: replicate 18 0)) s'.
Proof.
  destruct (@chassis_id_roundtrip sample_env 0 0 0 0xC3 [0x61; 0x62] sample_manager sample_WF
    eq_refl) as (s' & E1 & E2 & _).
  exists s'. split; [exact E1|exact E2].
Defined.

Lemma policy_bits_roundtrip_witness :
  exists s', @execute_passthrough_cmd sample_env [0x40; 0x2c; 0; 0x0A; 1; 0x0F; 0x3C] sample_manager
      = Ret (responseSuccess [3]) s' /\
    @execute_passthrough_cmd sample_env [0x40; 0x2c; 0; 0x0B; 1] s' = Ret (responseSuccess [3; 0x0C]) s'.
Proof.
  destruct (@policy_bits_roundtrip sample_env 0 0 0 1 0x0F 0x3C module_device sample_manager sample_WF
    eq_refl eq_refl) as (s' & E1 & E2 & _).
  exists s'. split; [exact E1|exact E2].
Defined.

Lemma fru_control_ignores_device_witness :
  exists s', @execute_passthrough_cmd sample_env [0x40; 0x2c; 0; 4; 1; 0] sample_manager
      = Ret (responseSuccess [3]) s' /\ ch_hist s' = [CIpmb (reset_request 2)].
Proof.
  exists (called (CIpmb (reset_request 2)) sample_manager). split; [|reflexivity].
  exact (@fru_control_ignores_device sample_env 0 0 1 0 module_device sample_manager sample_WF
    eq_refl eq_refl ltac:(lia)).
Defined.

Lemma fru_control_kills_polling_witness :
  exists s' f, @execute_passthrough_cmd sample_env [0x40; 0x2c; 0; 4; 7; 0] sample_manager
      = Ret (responseSuccess [3]) s' /\ @pollDeviceSensors libm_example sample_env s' = Undef f.
Proof.
  destruct (@fru_control_kills_polling libm_example sample_env 0 0 7 sample_manager sample_WF
    eq_refl eq_refl) as (s' & E & f & U).
  by exists s', f.
Defined.

Definition silent_bus : Environment := answering (fun _ => ReplyException).
Definition enumerated_manager : ChM :=
  match @enumerateI2CDevices libm_example silent_bus initial_manager with
  | Ret _ s => s
  | _ => initial_manager
  end.

Lemma enumeration_builds_tables_witness :
  lcrgetdevicelist enumerated_manager = [0x40; 0x82] /\
  map node_address (deviceMap enumerated_manager) ≡ₚ [Some 0x41].
Proof.
  destruct (@enumeration_builds_tables libm_example silent_bus (fun a => a =? 0x41)
    (fun _ _ => eq_refl) enumerated_manager eq_refl) as (E & _ & _ & _ & _ & Hd & _); [vm_compute; reflexivity|].
  split; [rewrite E; vm_compute; reflexivity|exact Hd].
Defined.

Lemma fan_policy_stop_is_temporary_witness :
  exists s', @execute_passthrough_cmd sample_env [0x40; 0x2c; 0; 0x1C; 0; 0; 12; 0; 0] sample_manager
      = Ret (responseSuccess [3]) s' /\ ch_hist s' = [CTimer 60; CStopUnit].
Proof.
  destruct (@fan_policy_stop_is_temporary sample_env 0 0 12 0 0 [] sample_manager eq_refl
    ltac:(lia) eq_refl eq_refl) as (s' & E & Eh & _).
  exists s'. split; [exact E|exact Eh].
Defined.

(** The manager with a restart timer running. *)
Definition stopped_manager : ChM := set_timer (Some 60) true 0 sample_manager.

Lemma expired_timer_defeats_stop_witness :
  exists s', fanRestartTimer_expires stopped_manager = Ret tt s' /\
    exists s1' s2',
      @execute_passthrough_cmd sample_env [0x40; 0x2c; 0; 0x1C; 0; 0; 12; 0; 0] s'
        = Ret (responseSuccess [3]) s1' /\
      @fanRestartTimer_handler sample_env s1' = Ret tt s2' /\
      ch_hist s2' = [CStartUnit; CTimer 60; CStopUnit; CTimerCancel].
Proof.
  exists (set_timer (Some 60) false 1 stopped_manager). split; [reflexivity|].
  destruct (@expired_timer_defeats_stop sample_env 0 0 12 0 0 [] stopped_manager
    (set_timer (Some 60) false 1 stopped_manager))
    as (s1' & s2' & E1 & E2 & E3 & _); [reflexivity|lia|reflexivity|reflexivity|reflexivity|].
  exists s1', s2'. split; [exact E1|]. split; [exact E2|exact E3].
Defined.
