(* ===== verification/BootManager.v ===== *)
(** * The boot manager

    The [Manager] class and [main] of the LCR_MANAGER application
    ([MANAGER.cpp], [main.cpp]): the power-up sequence, the voltage rails, the
    system log and its trimming, the watched services and alarms, and the
    threads that share the manager.

    GPIO lines, sysfs files, D-Bus and systemd are an environment that answers
    each call as a function of the calls made so far; a call that throws is
    [None] or [false].  Threads are interleaved at the granularity of one
    iteration of their loops. *)
From Stdlib Require Import ZArith Lia String.
From stdpp Require Import base list strings.
From S2P Require Import Prelude Doubles CxxStd.
Local Open Scope Z_scope.

Definition MAX_SIZE : nat := Z.to_nat (1024 * 1024).

Inductive BCall :=
  | BGpioIn (chip line : Z)
  | BGpioOut (chip line value : Z)
  | BGpioError (chip line : Z)
  | BDBusReady
  | BUnitState (service : string)
  | BSleep (ms : Z)
  | BReadFile (path : string)
  | BSetProperty (path : string) (value : double)
  | BGetPaths (stub : string)
  | BGetAlarm (path property : string)
  | BGetValue (path : string)
  | BFlashCopy.

Class BootEnv := {
  be_gpio_in : list BCall -> Z -> Z -> option Z;
  be_gpio_out : list BCall -> Z -> Z -> bool;
  be_dbus_ready : list BCall -> bool;
  be_unit_active : list BCall -> string -> option bool;
  be_file : list BCall -> string -> string;
  (** [limitJson[rail][key]], when it is a number. *)
  be_limit : string -> string -> option double;
  be_uptime : list BCall -> string;
  be_set_property : list BCall -> string -> bool;
  be_paths : list BCall -> string -> option (list string);
  be_alarm : list BCall -> string -> string -> option bool;
  be_value : list BCall -> string -> option double;
  (** Whether [trim_log] can open its two files. *)
  be_log_open : list BCall -> bool;
  (** The lines of /dev/mtd4. *)
  be_flash : list (list Z) }.

Record ADC_element := {
  adc_name : string; adc_path : string; V_target : double;
  raw_reading : option Z; scale_coeff : double; V_current : option double; safe : option bool }.

Record gpio_info := {
  input : bool; chip : Z; line : Z; status : Z; gpio_name : string; dbusflag : bool }.

Record Services := {
  temp_service_status : bool; voltage_service_status : bool;
  fan_controller_service_status : bool; mandatory_sensor_service_status : bool;
  gpio_service_status : bool; ipmi_service_status : bool }.

Record Manager := {
  ADCs : list ADC_element;
  sysreset : gpio_info; ps_enable : gpio_info; switch_gpio : gpio_info; alarm_gpio : gpio_info;
  services : Services }.

(** [syslog]: the bytes of system_logs.log. *)
Record Boot := { calls : list BCall; mgr : Manager; syslog : list Z }.

Definition set_calls c (b : Boot) : Boot := {| calls := c; mgr := mgr b; syslog := syslog b |}.
Definition set_mgr m (b : Boot) : Boot := {| calls := calls b; mgr := m; syslog := syslog b |}.
Definition set_syslog l (b : Boot) : Boot := {| calls := calls b; mgr := mgr b; syslog := l |}.
Definition set_ADCs a (m : Manager) : Manager :=
  {| ADCs := a; sysreset := sysreset m; ps_enable := ps_enable m; switch_gpio := switch_gpio m;
     alarm_gpio := alarm_gpio m; services := services m |}.
Definition set_sysreset g (m : Manager) : Manager :=
  {| ADCs := ADCs m; sysreset := g; ps_enable := ps_enable m; switch_gpio := switch_gpio m;
     alarm_gpio := alarm_gpio m; services := services m |}.
Definition set_ps_enable g (m : Manager) : Manager :=
  {| ADCs := ADCs m; sysreset := sysreset m; ps_enable := g; switch_gpio := switch_gpio m;
     alarm_gpio := alarm_gpio m; services := services m |}.
Definition set_switch_gpio g (m : Manager) : Manager :=
  {| ADCs := ADCs m; sysreset := sysreset m; ps_enable := ps_enable m; switch_gpio := g;
     alarm_gpio := alarm_gpio m; services := services m |}.
Definition set_services v (m : Manager) : Manager :=
  {| ADCs := ADCs m; sysreset := sysreset m; ps_enable := ps_enable m;
     switch_gpio := switch_gpio m; alarm_gpio := alarm_gpio m; services := v |}.
Definition set_status v (g : gpio_info) : gpio_info :=
  {| input := input g; chip := chip g; line := line g; status := v; gpio_name := gpio_name g;
     dbusflag := dbusflag g |}.
Definition set_dbusflag v (g : gpio_info) : gpio_info :=
  {| input := input g; chip := chip g; line := line g; status := status g;
     gpio_name := gpio_name g; dbusflag := v |}.
Definition set_reading raw v (a : ADC_element) : ADC_element :=
  {| adc_name := adc_name a; adc_path := adc_path a; V_target := V_target a;
     raw_reading := Some raw; scale_coeff := scale_coeff a; V_current := Some v; safe := safe a |}.
Definition set_safe v (a : ADC_element) : ADC_element :=
  {| adc_name := adc_name a; adc_path := adc_path a; V_target := V_target a;
     raw_reading := raw_reading a; scale_coeff := scale_coeff a; V_current := V_current a;
     safe := Some v |}.

Section manager.
Context `{BootEnv}.

Definition ask {A} (f : list BCall -> A) (c : BCall) : M Boot A :=
  fun b => Ret (f (calls b)) (set_calls (c :: calls b) b).
Definition the_mgr : M Boot Manager := fun b => Ret (mgr b) b.
Definition on_mgr (f : Manager -> Manager) : M Boot unit :=
  modify (fun b => set_mgr (f (mgr b)) b).
Definition sleep_ms (ms : Z) : M Boot unit := ask (fun _ => tt) (BSleep ms).

(** ** The system log *)
Definition newline : Z := 10.
Definition log_bytes (bytes : list Z) : M Boot unit :=
  modify (fun b => set_syslog (syslog b ++ bytes) b).

(** The bytes left after the first newline at or past position [to_skip];
    [None] when the end is reached first.  [skipped] counts the bytes read. *)
Fixpoint skip_lines (to_skip skipped : nat) (l : list Z) : option (list Z) :=
  match l with
  | [] => None
  | ch :: l' =>
      let skipped := S skipped in
      if (ch =? newline) && (to_skip <=? skipped)%nat then Some l' else skip_lines to_skip skipped l'
  end.

Definition trim_log : M Boot unit := fun b =>
  let current_size := length (syslog b) in
  if (current_size <=? MAX_SIZE)%nat then Ret tt b
  else if negb (be_log_open (calls b)) then Ret tt b
  else match skip_lines (current_size - MAX_SIZE) 0 (syslog b) with
       | None => Ret tt b
       | Some rest => Ret tt (set_syslog rest b)
       end.

Definition log_prefix (uptime : string) : string := ("[" ++ uptime ++ "] LCR: ")%string.

Definition write_log_to_file (log : string) : M Boot unit :=
  let! b := get in
  log_bytes (bytes_of_string (log_prefix (be_uptime (calls b)) ++ log) ++ [newline]) ;;;
  trim_log.

(** Lines are copied up to the first one of 1024 bytes or more. *)
Fixpoint copy_lines (lines : list (list Z)) : list Z :=
  match lines with
  | [] => []
  | lineo :: lines' =>
      if (length lineo <? 1024)%nat then lineo ++ [newline] ++ copy_lines lines' else []
  end.
Definition init_system_logs : M Boot unit := modify (set_syslog (copy_lines be_flash)).

(** ** Services *)
Fixpoint wait_for_dbus (n : nat) : M Boot unit :=
  let! ready := ask be_dbus_ready BDBusReady in
  if ready : bool then ret tt
  else match n with
       | O => ret tt
       | S n' => sleep_ms 3000 ;;; wait_for_dbus n'
       end.

(** Attempts [attempt .. 5]. *)
Fixpoint query_unit (left : nat) (attempt : Z) (serviceName : string) : M Boot bool :=
  match left with
  | O => ret false
  | S left' =>
      let! state := ask (fun h => be_unit_active h serviceName) (BUnitState serviceName) in
      match state with
      | Some isActive => ret isActive
      | None =>
          (if attempt <? 5 then sleep_ms (Z.min (1000 * attempt) 5000) else ret tt) ;;;
          query_unit left' (attempt + 1) serviceName
      end
  end.

Definition isServiceActive (serviceName : string) : M Boot bool :=
  wait_for_dbus 10 ;;; query_unit 5 1 serviceName.

(** One change of a watched service. *)
Definition log_servicechange (what : string) (status : bool) : M Boot unit :=
  let! b := get in
  log_bytes (bytes_of_string (log_prefix (be_uptime (calls b)) ++ what ++ " service status changed"
    ++ (if status then " to ON" else " to OFF")) ++ [newline]).

Definition log_if_changed (what : string) (now before : bool) : M Boot unit :=
  if Bool.eqb now before then ret tt else log_servicechange what now.

Definition watch_services : M Boot unit :=
  let! temp_temp_status := isServiceActive "LCR_temp_sensors.service" in
  let! temp_voltage_status := isServiceActive "LCR_ADC_sensors.service" in
  let! temp_fan_controller_status := isServiceActive "LCR_fan_controller.service" in
  let! temp_mandatory_sensor_status := isServiceActive "LCR_Mandatory_Sensors.service" in
  let! temp_gpio_status := isServiceActive "LCR_GPIO_Mon.service" in
  let! temp_ipmi_status := isServiceActive "phosphor-ipmi-host.service" in
  on_mgr (fun m => set_services
    {| temp_service_status := temp_service_status (services m);
       voltage_service_status := voltage_service_status (services m);
       fan_controller_service_status := fan_controller_service_status (services m);
       mandatory_sensor_service_status := mandatory_sensor_service_status (services m);
       gpio_service_status := gpio_service_status (services m);
       ipmi_service_status := temp_ipmi_status |} m) ;;;
  let! m := the_mgr in
  let s := services m in
  log_if_changed "Temperature monitoring" temp_temp_status (temp_service_status s) ;;;
  log_if_changed "Voltage monitoring" temp_voltage_status (voltage_service_status s) ;;;
  log_if_changed "Fan Controller" temp_fan_controller_status (fan_controller_service_status s) ;;;
  log_if_changed "Mandatory Sensors" temp_mandatory_sensor_status
    (mandatory_sensor_service_status s) ;;;
  log_if_changed "GPIO monitoring" temp_gpio_status (gpio_service_status s) ;;;
  log_if_changed "IPMI host" temp_ipmi_status (ipmi_service_status s) ;;;
  on_mgr (set_services
    {| temp_service_status := temp_temp_status; voltage_service_status := temp_voltage_status;
       fan_controller_service_status := temp_fan_controller_status;
       mandatory_sensor_service_status := temp_mandatory_sensor_status;
       gpio_service_status := temp_gpio_status; ipmi_service_status := temp_ipmi_status |}).

Definition get_fan_controller_status : M Boot bool :=
  watch_services ;;;
  let! m := the_mgr in ret (fan_controller_service_status (services m)).

(** ** GPIO lines *)

(** Request a line as an output and drive it; [false] when that throws. *)
Definition drive (g : gpio_info) (value : Z) : M Boot bool := fun b =>
  if be_gpio_out (calls b) (chip g) (line g)
  then Ret true (set_calls (BGpioOut (chip g) (line g) value :: calls b) b)
  else Ret false (set_calls (BGpioError (chip g) (line g) :: calls b) b).

Definition wait_for_switch : M Boot bool :=
  let! m := the_mgr in
  let g := switch_gpio m in
  let! value := ask (fun h => be_gpio_in h (chip g) (line g)) (BGpioIn (chip g) (line g)) in
  match value with
  | None => ret false
  | Some value =>
      on_mgr (fun m => set_switch_gpio (set_status value (switch_gpio m)) m) ;;;
      if value =? 1 then write_log_to_file "Front Panel switch was turned on..." ;;; ret true
      else ret false
  end.

(** It drives the line of the switch. *)
Definition set_alarm_gpio : M Boot bool :=
  let! m := the_mgr in
  let! ok := drive (switch_gpio m) 1 in
  if ok : bool then
    on_mgr (fun m => set_switch_gpio (set_status 1 (switch_gpio m)) m) ;;;
    write_log_to_file "Setting Alarm gpio pin" ;;;
    ret true
  else ret false.

Definition set_ps : M Boot bool :=
  let! m := the_mgr in
  let! ok := drive (ps_enable m) 1 in
  if ok : bool then
    on_mgr (fun m => set_ps_enable (set_status 1 (ps_enable m)) m) ;;;
    write_log_to_file "Setting Power Supply Enable pin" ;;;
    on_mgr (fun m => set_ps_enable (set_dbusflag true (ps_enable m)) m) ;;;
    ret true
  else ret false.

Definition unset_ps : M Boot bool :=
  let! m := the_mgr in
  let! ok := drive (ps_enable m) 0 in
  if ok : bool then
    on_mgr (fun m => set_ps_enable (set_status 0 (ps_enable m)) m) ;;;
    write_log_to_file "Unsetting Power Supply Enable pin" ;;;
    on_mgr (fun m => set_ps_enable (set_dbusflag false (ps_enable m)) m) ;;;
    ret true
  else ret false.

Definition set_sr : M Boot bool :=
  write_log_to_file
    "Voltage monitoring: voltages within range, driving system reset pin to begin chassis boot" ;;;
  let! m := the_mgr in
  let! ok := drive (sysreset m) 0 in
  if ok : bool then
    on_mgr (fun m => set_sysreset (set_status 1 (sysreset m)) m) ;;;
    write_log_to_file "Setting System Reset pin" ;;;
    on_mgr (fun m => set_sysreset (set_dbusflag true (sysreset m)) m) ;;;
    ret true
  else ret false.

(** ** Voltage rails *)

(** One rail: its raw value, its voltage, and whether it is strictly inside
    its limits.  A value that does not parse or a missing limit throws. *)
Definition read_rail (i : nat) : M Boot bool :=
  let! m := the_mgr in
  let! a := of_option OutOfBounds (ADCs m !! i) in
  let! text := ask (fun h => be_file h (adc_path a)) (BReadFile (adc_path a)) in
  let! raw := stoi (bytes_of_string text) in
  let v := dmul (scale_coeff a) (dofZ raw) in
  on_mgr (fun m => set_ADCs (alter (set_reading raw v) i (ADCs m)) m) ;;;
  match be_limit (adc_name a) "min", be_limit (adc_name a) "max" with
  | Some lowthresh, Some highthresh =>
      if dltb lowthresh v && dltb v highthresh
      then on_mgr (fun m => set_ADCs (alter (set_safe true) i (ADCs m)) m) ;;; ret true
      else
        write_log_to_file ("Voltage monitoring: " ++ adc_name a ++ " is unsafe at reading "
          ++ to_string_double v) ;;;
        on_mgr (fun m => set_ADCs (alter (set_safe false) i (ADCs m)) m) ;;; ret false
  | _, _ => throw (RuntimeError "type_error")
  end.

(** The first unsafe rail ends the loop. *)
Fixpoint read_rails (rails : list nat) : M Boot bool :=
  match rails with
  | [] => ret true
  | i :: rails' => let! ok := read_rail i in if ok : bool then read_rails rails' else ret false
  end.

(** The second loop over the [safe] flags. *)
Fixpoint all_safe (rails : list ADC_element) : M Boot bool :=
  match rails with
  | [] => ret true
  | a :: rails' => let! s := init_read (safe a) in if s : bool then all_safe rails' else ret false
  end.

Definition update_readings : M Boot bool :=
  let! m := the_mgr in
  let! ok := read_rails (seq 0 (length (ADCs m))) in
  if ok : bool then let! m := the_mgr in all_safe (ADCs m) else ret false.

Fixpoint heartbeat_text (rails : list ADC_element) : M Boot string :=
  match rails with
  | [] => ret ""%string
  | a :: rails' =>
      let! v := init_read (V_current a) in
      let! rest := heartbeat_text rails' in
      ret (adc_name a ++ ": " ++ to_string_double v ++ "V " ++ rest)%string
  end.

Definition write_heartbeat : M Boot unit :=
  let! _ := update_readings in
  let! m := the_mgr in
  let! text := heartbeat_text (ADCs m) in
  write_log_to_file ("System heartbeat... " ++ text).

Definition write_logs_to_flash : M Boot unit := ask (fun _ => tt) BFlashCopy.

(** ** Publication of the pins: one iteration of [watch_gpios] *)
Definition gpio_path (g : gpio_info) : string := ("/xyz/openbmc_project/gpio/" ++ gpio_name g)%string.

Definition publish_pin (g : gpio_info) (value : Z) : M Boot bool :=
  if dbusflag g
  then ask (fun h => be_set_property h (gpio_path g)) (BSetProperty (gpio_path g) (dofZ value))
  else ret false.

Definition watch_gpios : M Boot unit :=
  let! m := the_mgr in
  (if gpio_service_status (services m) then
     let ps_value := status (ps_enable m) in
     let sr_value := status (sysreset m) in
     let! ok := publish_pin (ps_enable m) ps_value in
     (if ok : bool then on_mgr (fun m => set_ps_enable (set_dbusflag false (ps_enable m)) m)
      else ret tt) ;;;
     let! ok := publish_pin (sysreset m) sr_value in
     (if ok : bool then on_mgr (fun m => set_sysreset (set_dbusflag false (sysreset m)) m)
      else ret tt)
   else ret tt) ;;;
  sleep_ms 500.

(** ** Alarms *)
Definition temperature_stub : string := "/xyz/openbmc_project/sensors/temperature".
Definition voltage_stub : string := "/xyz/openbmc_project/sensors/voltage".

(** The search for the first sensor in alarm: the flag, and the name and
    reading of the sensor that ended it.  A property that cannot be read
    leaves the flag as it was and moves on. *)
Fixpoint scan_alarms (paths : list string) (alarm : bool) : M Boot (bool * option (string * double)) :=
  match paths with
  | [] => ret (alarm, None)
  | path :: paths' =>
      let! low := ask (fun h => be_alarm h path "CriticalAlarmLow") (BGetAlarm path "CriticalAlarmLow") in
      match low with
      | None => scan_alarms paths' alarm
      | Some critical_low =>
          let! high := ask (fun h => be_alarm h path "CriticalAlarmHigh")
            (BGetAlarm path "CriticalAlarmHigh") in
          match high with
          | None => scan_alarms paths' alarm
          | Some critical_high =>
              if critical_low || critical_high then
                let! v := ask (fun h => be_value h path) (BGetValue path) in
                match v with
                | Some reading => ret (true, Some (path, reading))
                | None => scan_alarms paths' true
                end
              else scan_alarms paths' false
          end
      end
  end.

Definition check_alarms (stub : string) : M Boot (bool * option (string * double)) :=
  let! paths := ask (fun h => be_paths h stub) (BGetPaths stub) in
  match paths with
  | None => ret (false, None)
  | Some paths => scan_alarms paths false
  end.

(** What follows the loop of [watch_alarms].  The reading that is logged was
    never assigned when the value of the alarming sensor could not be read. *)
Definition report_alarm (kind : string) (found : option (string * double)) : M Boot unit :=
  let! found := init_read found in
  write_log_to_file (kind ++ " Alarm at path " ++ fst found ++ " with reading "
    ++ to_string_double (snd found)).

Definition raise_alarm (temp voltage : bool * option (string * double)) : M Boot unit :=
  let! b := get in
  log_bytes (bytes_of_string (log_prefix (be_uptime (calls b)) ++ "An alarm is found to be high")
    ++ [newline]) ;;;
  log_bytes (bytes_of_string (log_prefix (be_uptime (calls b)) ++ "Alarm: ") ++ [newline]) ;;;
  (if fst temp then report_alarm "Temperature" (snd temp)
   else if fst voltage then report_alarm "Voltage" (snd voltage) else ret tt) ;;;
  let! _ := unset_ps in
  let! _ := set_alarm_gpio in
  write_log_to_file "Alarm is set, reset the chassis.".

Inductive AlarmPhase := AWaitIpmi | APoll | ARaised.

(** One iteration of the loop [watch_alarms] is in. *)
Definition watch_alarms (phase : AlarmPhase) : M Boot AlarmPhase :=
  match phase with
  | AWaitIpmi =>
      let! m := the_mgr in
      if ipmi_service_status (services m) then ret APoll
      else sleep_ms 500 ;;; watch_services ;;; ret AWaitIpmi
  | APoll =>
      watch_services ;;;
      sleep_ms 500 ;;;
      let! temp := check_alarms temperature_stub in
      let! voltage := check_alarms voltage_stub in
      sleep_ms 500 ;;;
      if fst temp || fst voltage then raise_alarm temp voltage ;;; ret ARaised else ret APoll
  | ARaised => ret ARaised
  end.

(** ** Construction *)
Definition new_ADC (name path : string) (target : double) : ADC_element :=
  {| adc_name := name; adc_path := path; V_target := target; raw_reading := None;
     scale_coeff := ddiv target (dofZ 2047); V_current := None; safe := None |}.
Definition adc_file (n : string) : string :=
  ("/sys/bus/iio/devices/iio:device0/in_voltage" ++ n ++ "_raw")%string.
(** The double of the literal [3.3]. *)
Definition d3_3 : double := ddiv (dofZ 33) (dofZ 10).

Definition new_gpio (inp : bool) (c l : Z) (name : string) : gpio_info :=
  {| input := inp; chip := c; line := l; status := 0; gpio_name := name; dbusflag := false |}.

Definition initial_Manager : Manager :=
  {| ADCs := [new_ADC "12V_Rail" (adc_file "9") (dofZ 12); new_ADC "3_3V_Rail" (adc_file "10") d3_3;
              new_ADC "5V_Rail" (adc_file "11") (dofZ 5);
              new_ADC "3_3auxV_Rail" (adc_file "12") d3_3;
              new_ADC "12pauxV_Rail" (adc_file "13") (dofZ 12);
              new_ADC "12nauxV_Rail" (adc_file "14") (dofZ 12)];
     sysreset := new_gpio false 1 0 "sysreset"; ps_enable := new_gpio false 2 3 "psenable";
     switch_gpio := new_gpio true 0 6 "switch_gpio";
     alarm_gpio := new_gpio false 0 11 "alarm_gpio";
     services :=
       {| temp_service_status := false; voltage_service_status := false;
          fan_controller_service_status := false; mandatory_sensor_service_status := false;
          gpio_service_status := false; ipmi_service_status := false |} |}.

Definition banner : list string :=
  ["Initializing system logs...";
   "-----------------------------------------------------------------------------------------------------------------------";
   "CHASSIS MANAGER BOOTUP"; "BOOTUP LOGS BEGIN HERE";
   "FPGA has finished boot. Kernel booting has begun. These logs are for the BOOT SEQUENCE AND MANAGER application.";
   "This application manages the System Reset and PS enable signals.";
   "Once voltages are nominal and services are active, the system reset is released, allowing the cards to boot.";
   "-----------------------------------------------------------------------------------------------------------------------"].

Definition new_Manager : M Boot unit :=
  init_system_logs ;;; mfor banner write_log_to_file.

(** ** The threads of [main] *)
Inductive MainPhase := MSwitch | MFan | MPs | MReadings | MSr | MRunning.

Record System := {
  boot : Boot; main_at : MainPhase; alarm_at : option AlarmPhase; gpio_running : bool;
  heartbeat : Z }.
Definition set_boot b (s : System) : System :=
  {| boot := b; main_at := main_at s; alarm_at := alarm_at s; gpio_running := gpio_running s;
     heartbeat := heartbeat s |}.
Definition set_threads p a g h (s : System) : System :=
  {| boot := boot s; main_at := p; alarm_at := a; gpio_running := g; heartbeat := h |}.
Definition on_boot {A} (m : M Boot A) : M System A := zoom boot set_boot m.

(** One test of the loop [main] is in. *)
Definition main_try (test : M Boot bool) (next : MainPhase) : M System unit :=
  let! ok := on_boot test in
  if ok : bool
  then modify (fun s => set_threads next (alarm_at s) (gpio_running s) (heartbeat s) s)
  else on_boot (sleep_ms 500).

Definition main_step : M System unit :=
  let! s := get in
  match main_at s with
  | MSwitch => main_try wait_for_switch MFan
  | MFan => main_try get_fan_controller_status MPs
  | MPs => main_try set_ps MReadings
  | MReadings => main_try update_readings MSr
  | MSr =>
      let! ok := on_boot set_sr in
      if ok : bool then
        on_boot write_logs_to_flash ;;;
        modify (fun s => set_threads MRunning (Some AWaitIpmi) true (heartbeat s) s)
      else on_boot (sleep_ms 500)
  | MRunning => on_boot (sleep_ms 500)
  end.

Inductive Thread := TMain | TLog | TAlarm | TGpio.

Definition thread_step (t : Thread) : M System unit :=
  match t with
  | TMain => main_step
  | TLog =>
      on_boot write_logs_to_flash ;;;
      on_boot (sleep_ms 12000) ;;;
      let! s := get in
      (if heartbeat s mod 20 =? 0 then
         modify (fun s => set_threads (main_at s) (alarm_at s) (gpio_running s) 1 s) ;;;
         on_boot write_heartbeat
       else ret tt) ;;;
      modify (fun s => set_threads (main_at s) (alarm_at s) (gpio_running s) (heartbeat s + 1) s)
  | TAlarm =>
      let! s := get in
      match alarm_at s with
      | None => ret tt
      | Some phase =>
          let! phase' := on_boot (watch_alarms phase) in
          modify (fun s => set_threads (main_at s) (Some phase') (gpio_running s) (heartbeat s) s)
      end
  | TGpio =>
      let! s := get in
      if gpio_running s then on_boot watch_gpios else ret tt
  end.
End manager.

Definition initial_System (log : list Z) : System :=
  {| boot := {| calls := []; mgr := initial_Manager; syslog := log |}; main_at := MSwitch;
     alarm_at := None; gpio_running := false; heartbeat := 1 |}.
