(* ===== verification/BootManagerSpec.v ===== *)
(** * The boot manager: properties

    The order of the power-up sequence over every interleaving of the
    threads, the reading of the voltage rails, the size of the system log,
    and what an alarm does. *)
From Stdlib Require Import ZArith Lia String.
From stdpp Require Import base list strings.
From S2P Require Import Prelude Doubles CxxStd BootManager.
Local Open Scope Z_scope.

(** ** The system log *)
Section log.
Context `{BootEnv}.

(** [rest] is what remains of [l] after whole lines were dropped. *)
Definition line_suffix (rest l : list Z) : Prop :=
  rest = l \/ exists dropped, l = (dropped ++ [newline]) ++ rest.

Lemma skip_lines_suffix to_skip : forall l skipped rest,
  skip_lines to_skip skipped l = Some rest ->
  exists dropped, l = (dropped ++ [newline]) ++ rest /\
    (to_skip <= skipped + S (length dropped))%nat.
Proof.
  induction l as [|ch l IH]; intros skipped rest; simpl; [done|].
  destruct (Z.eqb_spec ch newline) as [->|Hc]; simpl.
  - destruct (Nat.leb_spec to_skip (S skipped)) as [Hs|Hs].
    + intros [= ->]. exists []. simpl. split; [done|lia].
    + intros (d & -> & Hd)%IH. exists (newline :: d). simpl. split; [done|lia].
  - intros (d & -> & Hd)%IH. exists (ch :: d). simpl. split; [done|lia].
Qed.

Lemma skip_lines_found to_skip : forall l skipped,
  (to_skip <= skipped + S (length l))%nat ->
  exists rest, skip_lines to_skip skipped (l ++ [newline]) = Some rest.
Proof.
  induction l as [|ch l IH]; intros skipped Hs; simpl.
  - destruct (Nat.leb_spec to_skip (S skipped)); [by eexists|simpl in Hs; lia].
  - destruct (_ && _); [by eexists|]. apply IH. simpl in Hs. lia.
Qed.

(** A newline far enough behind the place to skip to is not gone past. *)
Lemma skip_lines_stops to_skip tail : forall l skipped,
  (to_skip <= skipped + S (length l))%nat ->
  exists kept, skip_lines to_skip skipped (l ++ newline :: tail) = Some (kept ++ tail).
Proof.
  induction l as [|ch l IH]; intros skipped Hs; simpl.
  - exists []. destruct (Nat.leb_spec to_skip (S skipped)); [done|simpl in Hs; lia].
  - destruct (_ && _); [exists (l ++ [newline]); by rewrite <- app_assoc|]. apply IH. simpl in Hs. lia.
Qed.

Definition whole_lines (l : list Z) : Prop := l = [] \/ exists l', l = l' ++ [newline].

(** What a write leaves when the trimming can open its files. *)
Lemma write_trims log b : be_log_open (calls b) = true ->
  let line := bytes_of_string (log_prefix (be_uptime (calls b)) ++ log) in
  let b1 := set_syslog (syslog b ++ line ++ [newline]) b in
  exists rest, trim_log b1 = Ret tt (set_syslog rest b1) /\
    (length rest <= MAX_SIZE)%nat /\ line_suffix rest (syslog b1) /\
    (whole_lines (syslog b) -> (length line < MAX_SIZE)%nat -> exists kept, rest = kept ++ line ++ [newline]).
Proof.
  intros Hopen line b1. unfold trim_log.
  destruct (Nat.leb_spec (length (syslog b1)) MAX_SIZE) as [L|L].
  { exists (syslog b1). split; [by destruct b|]. split; [done|]. split; [by left|].
    intros _ _. by exists (syslog b). }
  change (calls b1) with (calls b). rewrite Hopen. cbn [negb].
  assert (E : syslog b1 = (syslog b ++ line) ++ [newline]) by (by rewrite <- app_assoc).
  assert (Hlen : length (syslog b1) = (length (syslog b) + length line + 1)%nat)
    by (rewrite E, !length_app; done).
  destruct (skip_lines_found (length (syslog b1) - MAX_SIZE) (syslog b ++ line) 0) as [rest Hr].
  { rewrite length_app. lia. }
  rewrite <- E in Hr. rewrite Hr. exists rest. split; [done|].
  destruct (skip_lines_suffix _ _ _ _ Hr) as (d & Hd & Hcut). split; [|split].
  - apply (f_equal length) in Hd. rewrite !length_app in Hd. simpl in Hd, Hcut. lia.
  - right. by exists d.
  - intros Hw Hl. destruct Hw as [Hw|[l' Hw]]; [rewrite Hw in Hlen; cbn [length] in Hlen; lia|].
    destruct (skip_lines_stops (length (syslog b1) - MAX_SIZE) (line ++ [newline]) l' 0) as [kept Hk].
    { rewrite Hlen, Hw, length_app. cbn [length]. lia. }
    exists kept. assert (syslog b1 = l' ++ newline :: line ++ [newline]) as Eb
      by (unfold b1; cbn; rewrite Hw, <- app_assoc; done).
    rewrite <- Eb in Hk. congruence.
Qed.

(** C40. [write_log_to_file] appends its line, with the time
    since boot, to the system log, whatever the size of the log was; it
    touches nothing else.  If the trimming can open its files it leaves at
    most 1 MiB: what was there and the new line, less whole lines dropped
    from the front, and never the new line itself if the log ended with a
    line and the new one is below 1 MiB.  If the trimming cannot open its
    files nothing is dropped. *)
Theorem log_stays_bounded log b :
  let line := bytes_of_string (log_prefix (be_uptime (calls b)) ++ log) in
  exists b', write_log_to_file log b = Ret tt b' /\ calls b' = calls b /\ mgr b' = mgr b /\
    (be_log_open (calls b) = true ->
       (length (syslog b') <= MAX_SIZE)%nat /\
       line_suffix (syslog b') (syslog b ++ line ++ [newline]) /\
       (whole_lines (syslog b) -> (length line < MAX_SIZE)%nat ->
          exists kept, syslog b' = kept ++ line ++ [newline])) /\
    (be_log_open (calls b) = false -> syslog b' = syslog b ++ line ++ [newline]).
Proof.
  intros line. unfold write_log_to_file. rewrite (bind_Ret _ _ b b b) by done.
  fold line. set (b1 := set_syslog (syslog b ++ line ++ [newline]) b).
  rewrite (bind_Ret _ _ b tt b1) by done.
  destruct (be_log_open (calls b)) eqn:Hopen.
  - destruct (write_trims log b Hopen) as (rest & E & L & S & K).
    exists (set_syslog rest b1). by split_and!.
  - exists b1. split; [|by split_and!]. unfold trim_log. change (calls b1) with (calls b).
    rewrite Hopen. by destruct (_ <=? _)%nat.
Qed.

(** The lines about services are appended without trimming: from a log of
    1 MiB they make a larger one. *)
Lemma service_lines_not_trimmed what status b :
  exists b', log_servicechange what status b = Ret tt b' /\
    (length (syslog b) < length (syslog b'))%nat.
Proof.
  unfold log_servicechange. rewrite (bind_Ret _ _ b b b) by done. eexists. split; [reflexivity|].
  cbn [syslog set_syslog]. rewrite !length_app. cbn [length]. lia.
Qed.
End log.

(** ** Traces *)
Section traces.
Context `{BootEnv}.

(** The lines, rails and scales the constructor sets up; nothing changes them. *)
Definition wiring (m : Manager) :=
  (map (fun a => (adc_name a, adc_path a, scale_coeff a)) (ADCs m),
   (chip (sysreset m), line (sysreset m)), (chip (ps_enable m), line (ps_enable m)),
   (chip (switch_gpio m), line (switch_gpio m)),
   (gpio_name (sysreset m), gpio_name (ps_enable m))).
Definition wired (b : Boot) : Prop := wiring (mgr b) = wiring initial_Manager.

(** Calls that need no justification: they drive no line, or drive the power
    supply off, or raise the alarm. *)
Definition harmless (c : BCall) : Prop :=
  match c with
  | BGpioOut c l v => (c, l, v) = (2, 3, 0) \/ (c, l, v) = (0, 6, 1)
  | _ => True
  end.

(** [c] was called, after the calls of which [Q] holds. *)
Definition answered (c : BCall) (Q : list BCall -> Prop) (h : list BCall) : Prop :=
  exists newer older, h = newer ++ c :: older /\ Q older.

Definition switch_seen : list BCall -> Prop :=
  answered (BGpioIn 0 6) (fun h => be_gpio_in h 0 6 = Some 1).
Definition fan_seen : list BCall -> Prop :=
  answered (BUnitState "LCR_fan_controller.service")
    (fun h => be_unit_active h "LCR_fan_controller.service" = Some true).
Definition ps_driven (h : list BCall) : Prop := BGpioOut 2 3 1 ∈ h.

(** The rail reads strictly inside its limits when its file is read after [h]. *)
Definition rail_inside (name path : string) (coeff : double) (h : list BCall) : Prop :=
  exists raw low high,
    stoi (bytes_of_string (be_file h path)) h = Ret raw h /\
    be_limit name "min" = Some low /\ be_limit name "max" = Some high /\
    dltb low (dmul coeff (dofZ raw)) = true /\ dltb (dmul coeff (dofZ raw)) high = true.

(** Every rail was read inside its limits with the power supply enabled. *)
Definition rails_seen (h : list BCall) : Prop :=
  Forall (fun a => answered (BReadFile (adc_path a)) (fun h =>
    ps_driven h /\ rail_inside (adc_name a) (adc_path a) (scale_coeff a) h) h) (ADCs initial_Manager).

(** What must precede a call. *)
Definition justified (c : BCall) (h : list BCall) : Prop :=
  match c with
  | BGpioOut c l v =>
      ((c, l, v) = (2, 3, 1) /\ switch_seen h /\ fan_seen h) \/
      ((c, l, v) = (1, 0, 0) /\ ps_driven h /\ rails_seen h) \/
      harmless (BGpioOut c l v)
  | _ => True
  end.

Fixpoint trace_ok (h : list BCall) : Prop :=
  match h with
  | [] => True
  | c :: h' => justified c h' /\ trace_ok h'
  end.

Lemma trace_ok_split newer c older : trace_ok (newer ++ c :: older) -> justified c older.
Proof. induction newer as [|x newer IH]; simpl; [by intros []|intros []; auto]. Qed.

Lemma trace_ok_app new h : Forall harmless new -> trace_ok h -> trace_ok (new ++ h).
Proof.
  intros Hn Hh. induction Hn as [|c new Hc Hn IH]; [done|]. split; [|done].
  destruct c; simpl in *; auto.
Qed.

Lemma answered_app c Q new h : answered c Q h -> answered c Q (new ++ h).
Proof. intros (x & y & -> & Hy). exists (new ++ x), y. by rewrite app_assoc. Qed.

Definition facts (p : MainPhase) (h : list BCall) : Prop :=
  match p with
  | MSwitch => True
  | MFan => switch_seen h
  | MPs => switch_seen h /\ fan_seen h
  | MReadings => ps_driven h
  | MSr | MRunning => ps_driven h /\ rails_seen h
  end.

Lemma facts_app p new h : facts p h -> facts p (new ++ h).
Proof.
  assert (P : ps_driven h -> ps_driven (new ++ h)) by (intros; apply elem_of_app; by right).
  assert (R : rails_seen h -> rails_seen (new ++ h)).
  { intros Hr. eapply Forall_impl; [exact Hr|]. intros a. apply answered_app. }
  destruct p; simpl; intuition (by apply answered_app).
Qed.

(** A computation that only adds harmless calls. *)
Definition harmless_step (b b' : Boot) : Prop :=
  wired b -> wired b' /\ exists new, calls b' = new ++ calls b /\ Forall harmless new.

#[export] Instance harmless_preorder : PreOrder harmless_step.
Proof.
  split.
  - intros b Hb. split; [done|]. by exists [].
  - intros b1 b2 b3 H12 H23 Hb. destruct (H12 Hb) as (Hb2 & n1 & E1 & F1).
    destruct (H23 Hb2) as (Hb3 & n2 & E2 & F2). split; [done|]. exists (n2 ++ n1).
    rewrite E2, E1, app_assoc. split; [done|by apply Forall_app].
Qed.

Lemma harmless_ask {A} (f : list BCall -> A) c : harmless c -> preserves harmless_step (ask f c).
Proof. intros Hc b Hb. split; [done|]. exists [c]. split; [done|by constructor]. Qed.

Lemma harmless_same (m : M Boot unit) :
  (forall b, exists b', m b = Ret tt b' /\ calls b' = calls b /\ wiring (mgr b') = wiring (mgr b)) ->
  preserves harmless_step m.
Proof.
  intros Hm b. destruct (Hm b) as (b' & -> & Hc & Hw). intros Hb. split; [by unfold wired; rewrite Hw|].
  exists []. by rewrite Hc.
Qed.

Lemma write_log_eq log b : exists l, write_log_to_file log b = Ret tt (set_syslog l b).
Proof.
  unfold write_log_to_file. rewrite (bind_Ret _ _ b b b) by done.
  set (line := bytes_of_string _). rewrite (bind_Ret _ _ b tt (set_syslog (syslog b ++ line ++ [newline]) b)) by done.
  unfold trim_log. repeat case_match; by eexists.
Qed.

Lemma harmless_log log : preserves harmless_step (write_log_to_file log).
Proof. apply harmless_same. intros b. destruct (write_log_eq log b) as [l ->]. by eexists. Qed.

Lemma harmless_log_bytes l : preserves harmless_step (log_bytes l).
Proof. apply harmless_same. intros b. by eexists. Qed.

Lemma harmless_on_mgr f : (forall m, wiring (f m) = wiring m) -> preserves harmless_step (on_mgr f).
Proof. intros Hf. apply harmless_same. intros b. eexists. split; [reflexivity|]. split; [done|apply Hf]. Qed.

Lemma harmless_the_mgr : preserves harmless_step the_mgr.
Proof. by apply preserves_pure; [exact _|]. Qed.

Lemma harmless_stoi l : preserves harmless_step (stoi l).
Proof.
  apply preserves_pure; [exact _|]. intros b. by destruct (stoi_pure l b) as [[n ->]|[->| ->]].
Qed.

Lemma wiring_alter f i m :
  (forall a, adc_name (f a) = adc_name a /\ adc_path (f a) = adc_path a /\ scale_coeff (f a) = scale_coeff a) ->
  wiring (set_ADCs (alter f i (ADCs m)) m) = wiring m.
Proof.
  intros Hf. unfold wiring. simpl. do 4 f_equal. apply list_eq. intros j.
  rewrite !list_lookup_fmap, list_lookup_alter. case_decide; [|done]. subst.
  destruct (ADCs m !! j) as [a|]; [|done]. simpl. by destruct (Hf a) as (-> & -> & ->).
Qed.
End traces.

Ltac harmless_tac :=
  preserve_with ltac:(first
    [ apply harmless_the_mgr | apply harmless_ask; exact Logic.I | apply harmless_log
    | apply harmless_log_bytes | apply harmless_stoi
    | apply harmless_on_mgr; intros ?; reflexivity
    | apply harmless_on_mgr; intros ?; apply wiring_alter; done | solve [eauto] ]).

(** *** The harmless operations *)
Section harmless_operations.
Context `{BootEnv}.

Lemma harmless_sleep ms : preserves harmless_step (sleep_ms ms).
Proof. by apply harmless_ask. Qed.

Lemma harmless_flash : preserves harmless_step write_logs_to_flash.
Proof. by apply harmless_ask. Qed.

Lemma harmless_isServiceActive name : preserves harmless_step (isServiceActive name).
Proof.
  unfold isServiceActive. apply preserves_bind; [exact _| |intros _].
  - generalize 10%nat. induction n as [|n IH]; simpl; pose proof harmless_sleep; harmless_tac.
  - generalize 5%nat, 1. induction n as [|n IH]; intros k; simpl; pose proof harmless_sleep; harmless_tac.
Qed.

Lemma harmless_log_if_changed what now before : preserves harmless_step (log_if_changed what now before).
Proof. unfold log_if_changed, log_servicechange. harmless_tac. Qed.

Lemma harmless_watch_services : preserves harmless_step watch_services.
Proof.
  unfold watch_services. pose proof harmless_isServiceActive. pose proof harmless_log_if_changed.
  harmless_tac.
Qed.

Lemma harmless_wait_for_switch : preserves harmless_step wait_for_switch.
Proof. unfold wait_for_switch. harmless_tac. Qed.

Lemma harmless_read_rail i : preserves harmless_step (read_rail i).
Proof. unfold read_rail. harmless_tac. Qed.

Lemma harmless_read_rails l : preserves harmless_step (read_rails l).
Proof. induction l as [|i l IH]; simpl; pose proof harmless_read_rail; harmless_tac. Qed.

Lemma harmless_all_safe l : preserves harmless_step (all_safe l).
Proof. induction l as [|x l IH]; simpl; harmless_tac. Qed.

Lemma harmless_heartbeat_text l : preserves harmless_step (heartbeat_text l).
Proof. induction l as [|x l IH]; simpl; harmless_tac. Qed.

Lemma harmless_update_readings : preserves harmless_step update_readings.
Proof.
  unfold update_readings. pose proof harmless_read_rails. pose proof harmless_all_safe. harmless_tac.
Qed.

Lemma harmless_write_heartbeat : preserves harmless_step write_heartbeat.
Proof.
  unfold write_heartbeat. pose proof harmless_update_readings. pose proof harmless_heartbeat_text.
  harmless_tac.
Qed.

Lemma harmless_watch_gpios : preserves harmless_step watch_gpios.
Proof. unfold watch_gpios, publish_pin. pose proof harmless_sleep. harmless_tac. Qed.

Lemma harmless_scan_alarms paths alarm : preserves harmless_step (scan_alarms paths alarm).
Proof. revert alarm. induction paths as [|p paths IH]; intros alarm; simpl; harmless_tac. Qed.

Lemma harmless_check_alarms stub : preserves harmless_step (check_alarms stub).
Proof. unfold check_alarms. pose proof harmless_scan_alarms. harmless_tac. Qed.

(** Driving the line of a member of the manager. *)
Definition drive_member (sel : Manager -> gpio_info) (v : Z) : M Boot bool :=
  fun b => drive (sel (mgr b)) v b.

Lemma drive_member_cases sel v c l b :
  (chip (sel (mgr b)), line (sel (mgr b))) = (c, l) ->
  exists ok, drive_member sel v b =
    Ret ok (set_calls ((if ok : bool then BGpioOut c l v else BGpioError c l) :: calls b) b).
Proof.
  intros Hsel. injection Hsel as Hc Hl.
  unfold drive_member, drive. rewrite Hc, Hl. destruct (be_gpio_out _ _ _); [by exists true|by exists false].
Qed.

Lemma harmless_drive_member sel v c l :
  (forall b, wired b -> (chip (sel (mgr b)), line (sel (mgr b))) = (c, l)) ->
  harmless (BGpioOut c l v) -> preserves harmless_step (drive_member sel v).
Proof.
  intros Hsel Hh b. unfold drive_member, drive.
  destruct (be_gpio_out _ _ _); intros Hb; injection (Hsel b Hb) as Ec El; (split; [done|]);
    eexists [_]; (split; [reflexivity|]); (constructor; [|constructor]); [|exact Logic.I].
  by rewrite Ec, El.
Qed.

Lemma wired_ps b : wired b -> (chip (ps_enable (mgr b)), line (ps_enable (mgr b))) = (2, 3).
Proof. intros Hw. exact (f_equal (fun w => w.1.1.2) Hw). Qed.
Lemma wired_sr b : wired b -> (chip (sysreset (mgr b)), line (sysreset (mgr b))) = (1, 0).
Proof. intros Hw. exact (f_equal (fun w => w.1.1.1.2) Hw). Qed.
Lemma wired_switch b : wired b -> (chip (switch_gpio (mgr b)), line (switch_gpio (mgr b))) = (0, 6).
Proof. intros Hw. exact (f_equal (fun w => w.1.2) Hw). Qed.
Lemma wired_names b : wired b ->
  (gpio_name (sysreset (mgr b)), gpio_name (ps_enable (mgr b))) = ("sysreset", "psenable")%string.
Proof. intros Hw. exact (f_equal (fun w => w.2) Hw). Qed.

Lemma harmless_unset_ps : preserves harmless_step unset_ps.
Proof.
  apply (preserves_bind harmless_step (drive_member ps_enable 0) (fun ok : bool =>
    if ok then on_mgr (fun m => set_ps_enable (set_status 0 (ps_enable m)) m) ;;;
      write_log_to_file "Unsetting Power Supply Enable pin" ;;;
      on_mgr (fun m => set_ps_enable (set_dbusflag false (ps_enable m)) m) ;;; ret true
    else ret false)).
  - apply (harmless_drive_member _ _ _ _ wired_ps). by left.
  - intros ok. harmless_tac.
Qed.

Lemma harmless_set_alarm_gpio : preserves harmless_step set_alarm_gpio.
Proof.
  apply (preserves_bind harmless_step (drive_member switch_gpio 1) (fun ok : bool =>
    if ok then on_mgr (fun m => set_switch_gpio (set_status 1 (switch_gpio m)) m) ;;;
      write_log_to_file "Setting Alarm gpio pin" ;;; ret true
    else ret false)).
  - apply (harmless_drive_member _ _ _ _ wired_switch). by right.
  - intros ok. harmless_tac.
Qed.

Lemma harmless_watch_alarms phase : preserves harmless_step (watch_alarms phase).
Proof.
  unfold watch_alarms, raise_alarm, report_alarm.
  pose proof harmless_watch_services. pose proof harmless_sleep. pose proof harmless_check_alarms.
  pose proof harmless_unset_ps. pose proof harmless_set_alarm_gpio. harmless_tac.
Qed.
End harmless_operations.

(** *** What the tests of [main] establish *)
Section main_tests.
Context `{BootEnv}.

Lemma answered_harmless c Q b b' :
  harmless_step b b' -> wired b -> answered c Q (calls b) -> answered c Q (calls b').
Proof. intros Hs Hw Ha. destruct (Hs Hw) as (_ & new & -> & _). by apply answered_app. Qed.

Lemma wait_for_switch_true b b' :
  wait_for_switch b = Ret true b' -> wired b -> switch_seen (calls b').
Proof.
  intros E Hw. injection (wired_switch b Hw) as Ec El. unfold wait_for_switch in E.
  rewrite (bind_Ret _ _ b (mgr b) b) in E by done. rewrite Ec, El in E.
  apply bind_inv in E as (value & b1 & E1 & E). injection E1 as <- <-.
  assert (K : preserves harmless_step (on_mgr (fun m => set_switch_gpio (set_status 1 (switch_gpio m)) m) ;;;
    write_log_to_file "Front Panel switch was turned on..." ;;; ret true)) by harmless_tac.
  destruct (be_gpio_in (calls b) 0 6) as [v|] eqn:Ev; [|done].
  destruct (Z.eqb_spec v 1) as [->|].
  - eapply answered_harmless; [eapply preserves_Ret; [exact K|exact E]|done|].
    by exists [], (calls b).
  - apply bind_inv in E as ([] & b2 & _ & E). discriminate.
Qed.

Lemma query_unit_true name : forall left attempt b b',
  query_unit left attempt name b = Ret true b' ->
  answered (BUnitState name) (fun h => be_unit_active h name = Some true) (calls b').
Proof.
  induction left as [|left IH]; intros attempt b b' E; [done|]. cbn [query_unit] in E.
  apply bind_inv in E as (state & b1 & E1 & E). injection E1 as <- <-.
  destruct (be_unit_active (calls b) name) as [isActive|] eqn:Es.
  - injection E as -> <-. by exists [], (calls b).
  - apply bind_inv in E as ([] & b2 & _ & E). by eapply IH.
Qed.

Lemma isServiceActive_true name b b' :
  isServiceActive name b = Ret true b' ->
  answered (BUnitState name) (fun h => be_unit_active h name = Some true) (calls b').
Proof. intros E. apply bind_inv in E as ([] & b1 & _ & E). by eapply query_unit_true. Qed.

Lemma watch_services_fan b b' :
  watch_services b = Ret tt b' -> wired b ->
  fan_controller_service_status (services (mgr b')) = true -> fan_seen (calls b').
Proof.
  intros E Hw Hfan. pose proof harmless_isServiceActive as HI. pose proof harmless_log_if_changed as HL.
  unfold watch_services in E.
  apply bind_inv in E as (s1 & b1 & E1 & E). apply bind_inv in E as (s2 & b2 & E2 & E).
  apply bind_inv in E as (s3 & b3 & E3 & E).
  assert (Hw3 : wired b3).
  { apply (preserves_Ret _ _ _ _ _ (HI _)) in E1, E2, E3. by apply E3, E2, E1. }
  assert (Hrest : harmless_step b3 b').
  { eapply preserves_Ret; [|exact E]. harmless_tac. }
  destruct s3.
  { eapply answered_harmless; [exact Hrest|done|]. by apply isServiceActive_true in E3. }
  do 11 (apply bind_inv in E as (? & ? & _ & E)). injection E as <-. done.
Qed.

Lemma get_fan_controller_status_true b b' :
  get_fan_controller_status b = Ret true b' -> wired b -> fan_seen (calls b').
Proof.
  intros E Hw. apply bind_inv in E as ([] & b1 & E1 & E). injection E as E <-.
  by eapply watch_services_fan.
Qed.

Lemma harmless_get_fan : preserves harmless_step get_fan_controller_status.
Proof. unfold get_fan_controller_status. pose proof harmless_watch_services. harmless_tac. Qed.

(** [set_ps] and [set_sr] add exactly one call. *)
Lemma set_ps_calls b : wired b ->
  exists ok b', set_ps b = Ret ok b' /\ wired b' /\
    calls b' = (if ok : bool then BGpioOut 2 3 1 else BGpioError 2 3) :: calls b.
Proof.
  intros Hw. destruct (drive_member_cases ps_enable 1 2 3 b (wired_ps b Hw)) as [ok E].
  exists ok. unfold set_ps. rewrite (bind_Ret _ _ b (mgr b) b) by done.
  unfold drive_member in E.
  rewrite (bind_Ret _ _ _ _ _ E). destruct ok; [|by eexists].
  rewrite (bind_Ret _ _ _ tt (set_mgr (set_ps_enable (set_status 1 (ps_enable (mgr b))) (mgr b))
    (set_calls (BGpioOut 2 3 1 :: calls b) b))) by done.
  match goal with |- context [bind (write_log_to_file ?t) _ ?s] =>
    destruct (write_log_eq t s) as [l El]; rewrite (bind_Ret _ _ _ _ _ El) end.
  eexists. by split.
Qed.

Lemma set_sr_calls b : wired b ->
  exists ok b', set_sr b = Ret ok b' /\ wired b' /\
    calls b' = (if ok : bool then BGpioOut 1 0 0 else BGpioError 1 0) :: calls b.
Proof.
  intros Hw. unfold set_sr.
  match goal with |- context [bind (write_log_to_file ?t) _ b] =>
    destruct (write_log_eq t b) as [l0 El0]; rewrite (bind_Ret _ _ _ _ _ El0) end.
  set (b0 := set_syslog l0 b). rewrite (bind_Ret _ _ b0 (mgr b0) b0) by done.
  destruct (drive_member_cases sysreset 0 1 0 b0 (wired_sr b0 Hw)) as [ok E].
  exists ok. unfold drive_member in E.
  rewrite (bind_Ret _ _ _ _ _ E). destruct ok; [|by eexists].
  rewrite (bind_Ret _ _ _ tt (set_mgr (set_sysreset (set_status 1 (sysreset (mgr b0))) (mgr b0))
    (set_calls (BGpioOut 1 0 0 :: calls b0) b0))) by done.
  match goal with |- context [bind (write_log_to_file ?t) _ ?s] =>
    destruct (write_log_eq t s) as [l El]; rewrite (bind_Ret _ _ _ _ _ El) end.
  eexists. by split.
Qed.

Lemma wired_rails b : wired b ->
  map (fun a => (adc_name a, adc_path a, scale_coeff a)) (ADCs (mgr b)) =
  map (fun a => (adc_name a, adc_path a, scale_coeff a)) (ADCs initial_Manager).
Proof. intros Hw. exact (f_equal (fun w => w.1.1.1.1) Hw). Qed.

Lemma read_rail_true i a0 b b' :
  read_rail i b = Ret true b' -> wired b -> ADCs initial_Manager !! i = Some a0 ->
  wired b' /\ calls b' = BReadFile (adc_path a0) :: calls b /\
  rail_inside (adc_name a0) (adc_path a0) (scale_coeff a0) (calls b).
Proof.
  intros E Hw Ha0. split.
  { apply (preserves_Ret _ _ _ _ _ (harmless_read_rail i)) in E. by apply E. }
  assert (Hm : map (fun a => (adc_name a, adc_path a, scale_coeff a)) (ADCs (mgr b)) !! i
             = Some (adc_name a0, adc_path a0, scale_coeff a0)).
  { rewrite (wired_rails b Hw), list_lookup_fmap, Ha0. done. }
  rewrite list_lookup_fmap in Hm. unfold read_rail in E.
  rewrite (bind_Ret _ _ b (mgr b) b) in E by done.
  destruct (ADCs (mgr b) !! i) as [a|]; [|done]. injection Hm as Hn Hp Hc. cbn [of_option] in E.
  rewrite bind_ret_l in E. rewrite Hn, Hp, Hc in E.
  apply bind_inv in E as (text & b1 & E1 & E). injection E1 as <- <-.
  apply bind_inv in E as (raw & b2 & E2 & E).
  apply bind_inv in E as ([] & b3 & E3 & E). injection E3 as <-.
  assert (b2 = set_calls (BReadFile (adc_path a0) :: calls b) b) as ->.
  { destruct (stoi_pure (bytes_of_string (be_file (calls b) (adc_path a0)))
      (set_calls (BReadFile (adc_path a0) :: calls b) b)) as [[n Es]|[Es|Es]]; rewrite Es in E2; try done.
    by injection E2. }
  destruct (be_limit (adc_name a0) "min") as [low|] eqn:El; [|done].
  destruct (be_limit (adc_name a0) "max") as [high|] eqn:Eh; [|done].
  destruct (dltb low _ && dltb _ high) eqn:Ein.
  - apply andb_true_iff in Ein as [E1 E3].
    apply bind_inv in E as ([] & b4 & E4 & E). injection E4 as <-. injection E as <-. split; [done|].
    exists raw, low, high. repeat split; [|done..].
    by eapply stoi_any.
  - apply bind_inv in E as ([] & b4 & _ & E). apply bind_inv in E as ([] & b5 & _ & E). done.
Qed.

Lemma read_rails_true : forall l b b',
  read_rails l b = Ret true b' -> wired b -> ps_driven (calls b) ->
  wired b' /\ exists new, calls b' = new ++ calls b /\
  forall i a, i ∈ l -> ADCs initial_Manager !! i = Some a ->
    answered (BReadFile (adc_path a)) (fun h =>
      ps_driven h /\ rail_inside (adc_name a) (adc_path a) (scale_coeff a) h) (calls b').
Proof.
  induction l as [|i l IH]; intros b b' E Hw Hps.
  { injection E as <-. split; [done|]. exists []. split; [done|]. intros i a Hi. by apply not_elem_of_nil in Hi. }
  cbn [read_rails] in E. apply bind_inv in E as (ok & b1 & E1 & E). destruct ok; [|done].
  assert (Hwb1 : wired b1).
  { apply (preserves_Ret _ _ _ _ _ (harmless_read_rail i)) in E1. by apply E1. }
  assert (Hext : exists new, calls b1 = new ++ calls b).
  { apply (preserves_Ret _ _ _ _ _ (harmless_read_rail i)) in E1. destruct (E1 Hw) as (_ & n & ? & _). by exists n. }
  destruct Hext as [n1 Hn1].
  destruct (IH b1 b' E Hwb1) as (Hw' & new & Hnew & Hall); [rewrite Hn1; apply elem_of_app; by right|].
  split; [done|]. exists (new ++ n1). split; [by rewrite Hnew, Hn1, app_assoc|].
  intros j a Hj Ha. apply elem_of_cons in Hj as [->|Hj]; [|by eapply Hall].
  destruct (read_rail_true i a b b1 E1 Hw Ha) as (_ & Hc & Hin). rewrite Hnew.
  apply answered_app. rewrite Hc. by exists [], (calls b).
Qed.

Lemma update_readings_true b b' :
  update_readings b = Ret true b' -> wired b -> ps_driven (calls b) -> rails_seen (calls b').
Proof.
  intros E Hw Hps. unfold update_readings in E. rewrite (bind_Ret _ _ b (mgr b) b) in E by done.
  apply bind_inv in E as (ok & b1 & E1 & E). destruct ok; [|done].
  destruct (read_rails_true _ _ _ E1 Hw Hps) as (Hw1 & _ & _ & Hall).
  assert (Hlen : length (ADCs (mgr b)) = length (ADCs initial_Manager)).
  { pose proof (f_equal length (wired_rails b Hw)) as Hm. by rewrite !length_map in Hm. }
  assert (Hrest : harmless_step b1 b').
  { eapply preserves_Ret; [|exact E]. pose proof harmless_all_safe. harmless_tac. }
  apply Forall_forall. intros a Ha. apply list_elem_of_lookup in Ha as [i Hi].
  eapply answered_harmless; [exact Hrest|done|]. apply (Hall i a); [|done].
  apply elem_of_seq. apply lookup_lt_Some in Hi. lia.
Qed.
End main_tests.

(** ** Power-up *)
Section power_up.
Context `{BootEnv}.

(** The systems that construction and any interleaving of the threads reach. *)
Inductive running : System -> Prop :=
  | running_init log s :
      on_boot new_Manager (initial_System log) = Ret tt s -> running s
  | running_step t s s' : running s -> thread_step t s = Ret tt s' -> running s'.

Record System_ok (s : System) : Prop := {
  so_wired : wired (boot s);
  so_trace : trace_ok (calls (boot s));
  so_facts : facts (main_at s) (calls (boot s)) }.

Lemma System_ok_harmless b' s :
  System_ok s -> harmless_step (boot s) b' -> System_ok (set_boot b' s).
Proof.
  intros [Hw Ht Hf] Hs. destruct (Hs Hw) as (Hw' & new & Hc & Hn).
  constructor; simpl; [done|rewrite Hc; by apply trace_ok_app|rewrite Hc; by apply facts_app].
Qed.

Lemma System_ok_threads a g h s :
  System_ok s -> System_ok (set_threads (main_at s) a g h s).
Proof. intros [Hw Ht Hf]. by constructor. Qed.

Lemma on_boot_inv {A} (m : M Boot A) s a s' :
  on_boot m s = Ret a s' -> exists b', m (boot s) = Ret a b' /\ s' = set_boot b' s.
Proof.
  unfold on_boot, zoom. destruct (m (boot s)) as [x b'| |]; [|done..]. intros [= -> <-]. by exists b'.
Qed.

Lemma on_boot_harmless {A} (m : M Boot A) s a s' :
  preserves harmless_step m -> System_ok s -> on_boot m s = Ret a s' ->
  System_ok s' /\ main_at s' = main_at s.
Proof.
  intros Hm Hs E. apply on_boot_inv in E as (b' & E & ->). split; [|done].
  apply System_ok_harmless; [done|]. by eapply preserves_Ret.
Qed.

(** A test that only adds harmless calls moves on when it establishes the
    facts of the next phase. *)
Lemma main_try_ok test next s s' :
  preserves harmless_step test -> System_ok s ->
  (forall b', test (boot s) = Ret true b' -> facts next (calls b')) ->
  main_try test next s = Ret tt s' -> System_ok s'.
Proof.
  intros Hm Hs Hnext E. apply bind_inv in E as (ok & s1 & E1 & E).
  pose proof (on_boot_harmless _ _ _ _ Hm Hs E1) as [Hs1 _].
  apply on_boot_inv in E1 as (b' & E1 & ->). destruct ok.
  - injection E as <-. destruct Hs1 as [Hw Ht _]. constructor; simpl; auto.
  - by apply (on_boot_harmless _ _ _ _ (harmless_sleep 500) Hs1) in E as [].
Qed.

Lemma main_step_ok s s' : System_ok s -> main_step s = Ret tt s' -> System_ok s'.
Proof.
  intros Hs E. unfold main_step in E. rewrite (bind_Ret _ _ s s s) in E by done.
  pose proof Hs as [Hw Ht Hf]. destruct (main_at s) eqn:Ep; simpl in Hf.
  - eapply main_try_ok; [apply harmless_wait_for_switch|done| |exact E].
    intros b' E1. by eapply wait_for_switch_true.
  - eapply main_try_ok; [apply harmless_get_fan|done| |exact E].
    intros b' E1. split; [|by eapply get_fan_controller_status_true].
    eapply answered_harmless; [eapply preserves_Ret; [apply harmless_get_fan|exact E1]|done..].
  - apply bind_inv in E as (ok & s1 & E1 & E). apply on_boot_inv in E1 as (b1 & E1 & ->).
    destruct (set_ps_calls (boot s) Hw) as (ok' & b' & E2 & Hw' & Hc).
    rewrite E2 in E1. injection E1 as -> ->. destruct ok.
    + injection E as <-. constructor; simpl; [done| |rewrite Hc; apply list_elem_of_here].
      rewrite Hc. split; [|done]. left. by destruct Hf.
    + apply (on_boot_harmless _ _ _ _ (harmless_sleep 500)) in E as [E _]; [done|].
      apply System_ok_harmless; [done|]. intros _. split; [done|]. exists [BGpioError 2 3].
      split; [done|]. by repeat constructor.
  - eapply main_try_ok; [apply harmless_update_readings|done| |exact E].
    intros b' E1. split; [|by eapply update_readings_true].
    pose proof (preserves_Ret _ _ _ _ _ harmless_update_readings E1) as Hstep.
    destruct (Hstep Hw) as (_ & new & -> & _). apply elem_of_app. by right.
  - apply bind_inv in E as (ok & s1 & E1 & E). apply on_boot_inv in E1 as (b1 & E1 & ->).
    destruct (set_sr_calls (boot s) Hw) as (ok' & b' & E2 & Hw' & Hc).
    rewrite E2 in E1. injection E1 as -> ->. destruct ok.
    + apply bind_inv in E as ([] & s2 & E3 & E). injection E as <-.
      assert (Hs1 : System_ok (set_boot b1 s)).
      { constructor; simpl; [done| |rewrite Hc, Ep; by apply (facts_app MSr [_])].
        rewrite Hc. split; [|done]. right. left. by destruct Hf. }
      apply (on_boot_harmless write_logs_to_flash _ _ _ harmless_flash) in E3
        as [[Hw2 Ht2 Hf2] Hm2]; [|done].
      constructor; simpl; [done|done|]. rewrite Hm2 in Hf2. simpl in Hf2. by rewrite Ep in Hf2.
    + apply (on_boot_harmless _ _ _ _ (harmless_sleep 500)) in E as [E _]; [done|].
      apply System_ok_harmless; [done|]. intros _. split; [done|]. exists [BGpioError 1 0].
      split; [done|]. by repeat constructor.
  - by apply (on_boot_harmless _ _ _ _ (harmless_sleep 500) Hs) in E as [].
Qed.

Lemma log_step_ok s s' : System_ok s -> thread_step TLog s = Ret tt s' -> System_ok s'.
Proof.
  intros Hs E. cbn [thread_step] in E. apply bind_inv in E as ([] & s1 & E1 & E).
  apply (on_boot_harmless write_logs_to_flash _ _ _ harmless_flash) in E1 as [Hs1 _]; [|done].
  apply bind_inv in E as ([] & s2 & E2 & E).
  apply (on_boot_harmless _ _ _ _ (harmless_sleep 12000) Hs1) in E2 as [Hs2 _].
  rewrite (bind_Ret _ _ s2 s2 s2) in E by done. apply bind_inv in E as ([] & s3 & E3 & E).
  assert (Hs3 : System_ok s3).
  { destruct (heartbeat s2 mod 20 =? 0); [|by injection E3 as <-].
    apply bind_inv in E3 as ([] & s4 & E4 & E3). injection E4 as <-.
    apply (on_boot_harmless _ _ _ _ harmless_write_heartbeat) in E3 as [E3 _]; [done|].
    by apply System_ok_threads. }
  injection E as <-. by apply System_ok_threads.
Qed.

Lemma running_ok s : running s -> System_ok s.
Proof.
  induction 1 as [log s E|t s s' _ Hs E].
  - apply (on_boot_harmless new_Manager _ _ _) in E as [E _]; [done| |by constructor].
    unfold new_Manager, init_system_logs. apply preserves_bind; [exact _| |intros _].
    + apply harmless_same. intros b. by eexists.
    + apply preserves_mfor; [exact _|]. apply harmless_log.
  - destruct t; [by eapply main_step_ok|by eapply log_step_ok|..]; cbn [thread_step] in E;
      rewrite (bind_Ret _ _ s s s) in E by done.
    + destruct (alarm_at s) as [phase|]; [|by injection E as <-].
      apply bind_inv in E as (phase' & s1 & E1 & E). injection E as <-.
      apply (on_boot_harmless _ _ _ _ (harmless_watch_alarms phase) Hs) in E1 as [Hs1 _].
      by apply System_ok_threads.
    + destruct (gpio_running s); [|by injection E as <-].
      by apply (on_boot_harmless _ _ _ _ harmless_watch_gpios Hs) in E as [].
Qed.

(** C33. Under every interleaving of the threads, and whatever
    the hardware and the services answer, the chassis is brought up in order:
    the power supply is enabled only after the front panel switch was read as
    on and the fan controller service was reported active, and the system
    reset is driven only after the power supply was enabled and then every
    one of the six rails was read strictly inside its limits. *)
Theorem power_up_order s newer older c l v :
  running s -> calls (boot s) = newer ++ BGpioOut c l v :: older ->
  ((c, l, v) = (2, 3, 1) -> switch_seen older /\ fan_seen older) /\
  ((c, l) = (1, 0) -> ps_driven older /\ rails_seen older).
Proof.
  intros Hr E. apply running_ok in Hr as [_ Ht _]. rewrite E in Ht.
  apply trace_ok_split in Ht. destruct Ht as [(Hclv & H1 & H2)|[(Hclv & H1 & H2)|[Hclv|Hclv]]];
    injection Hclv as -> -> ->; split; intros Heq; first [done|congruence].
Qed.

(** The manager only ever drives four output
    values: the power supply on and off, the system reset low, and a high
    level on the front panel switch's line.  The alarm line (chip 0, line 11)
    is never driven: raising the alarm drives the switch's input line
    instead. *)
Theorem alarm_line_never_driven s c l v :
  running s -> In (BGpioOut c l v) (calls (boot s)) ->
  (c, l, v) ∈ [(2, 3, 1); (2, 3, 0); (1, 0, 0); (0, 6, 1)] /\
  (c, l) <> (chip (alarm_gpio initial_Manager), line (alarm_gpio initial_Manager)).
Proof.
  intros Hr Hin. apply running_ok in Hr as [_ Ht _]. apply in_split in Hin as (newer & older & E).
  rewrite E in Ht. apply trace_ok_split in Ht.
  destruct Ht as [(Hclv & _)|[(Hclv & _)|[Hclv|Hclv]]]; injection Hclv as -> -> ->;
    (split; [rewrite !elem_of_cons; auto|done]).
Qed.
End power_up.

(** ** Alarms and heartbeats *)
Section reactions.
Context `{BootEnv}.

(** The pins set by [unset_ps] and [set_alarm_gpio], when their lines work. *)
Lemma unset_ps_calls b :
  wired b -> (forall h c l, be_gpio_out h c l = true) ->
  exists b', unset_ps b = Ret true b' /\ wired b' /\ calls b' = BGpioOut 2 3 0 :: calls b /\
    status (ps_enable (mgr b')) = 0 /\ dbusflag (ps_enable (mgr b')) = false /\
    sysreset (mgr b') = sysreset (mgr b) /\ services (mgr b') = services (mgr b).
Proof.
  intros Hw Hok. injection (wired_ps b Hw) as Ec El.
  unfold unset_ps. rewrite (bind_Ret _ _ b (mgr b) b) by done.
  rewrite (bind_Ret _ _ b true (set_calls (BGpioOut 2 3 0 :: calls b) b))
    by (unfold drive; by rewrite Hok, Ec, El).
  rewrite (bind_Ret _ _ _ tt (set_mgr (set_ps_enable (set_status 0 (ps_enable (mgr b))) (mgr b))
    (set_calls (BGpioOut 2 3 0 :: calls b) b))) by done.
  match goal with |- context [bind (write_log_to_file ?t) _ ?s] =>
    destruct (write_log_eq t s) as [l Elog]; rewrite (bind_Ret _ _ _ _ _ Elog) end.
  eexists. by repeat split.
Qed.

Lemma set_alarm_gpio_calls b :
  wired b -> (forall h c l, be_gpio_out h c l = true) ->
  exists b', set_alarm_gpio b = Ret true b' /\ calls b' = BGpioOut 0 6 1 :: calls b /\
    ps_enable (mgr b') = ps_enable (mgr b).
Proof.
  intros Hw Hok. injection (wired_switch b Hw) as Ec El.
  unfold set_alarm_gpio. rewrite (bind_Ret _ _ b (mgr b) b) by done.
  rewrite (bind_Ret _ _ b true (set_calls (BGpioOut 0 6 1 :: calls b) b))
    by (unfold drive; by rewrite Hok, Ec, El).
  rewrite (bind_Ret _ _ _ tt (set_mgr (set_switch_gpio (set_status 1 (switch_gpio (mgr b))) (mgr b))
    (set_calls (BGpioOut 0 6 1 :: calls b) b))) by done.
  match goal with |- context [bind (write_log_to_file ?t) _ ?s] =>
    destruct (write_log_eq t s) as [l Elog]; rewrite (bind_Ret _ _ _ _ _ Elog) end.
  eexists. by repeat split.
Qed.

(** A known alarm cuts the power and drives the line of the switch. *)
Lemma raise_alarm_known f temp voltage b :
  wired b -> (forall h c l, be_gpio_out h c l = true) ->
  fst temp || fst voltage = true -> (if fst temp then snd temp else snd voltage) = Some f ->
  exists b', raise_alarm temp voltage b = Ret tt b' /\
    calls b' = BGpioOut 0 6 1 :: BGpioOut 2 3 0 :: calls b /\ status (ps_enable (mgr b')) = 0.
Proof.
  intros Hw Hok Ha Hf. unfold raise_alarm. rewrite (bind_Ret _ _ b b b) by done.
  set (p1 := bytes_of_string _ ++ [newline]). set (p2 := bytes_of_string _ ++ [newline]).
  set (b1 := set_syslog (syslog b ++ p1) b). rewrite (bind_Ret _ _ b tt b1) by done.
  set (b2 := set_syslog (syslog b1 ++ p2) b1). rewrite (bind_Ret _ _ b1 tt b2) by done.
  assert (E : exists l, (if fst temp then report_alarm "Temperature" (snd temp)
        else if fst voltage then report_alarm "Voltage" (snd voltage) else ret tt) b2
        = Ret tt (set_syslog l b2)).
  { unfold report_alarm. destruct (fst temp); [|simpl in Ha; rewrite Ha]; rewrite Hf; apply write_log_eq. }
  destruct E as [l E]. rewrite (bind_Ret _ _ _ _ _ E). set (b3 := set_syslog l b2).
  destruct (unset_ps_calls b3 Hw Hok) as (b4 & E4 & Hw4 & Hc4 & Hs4 & _).
  rewrite (bind_Ret _ _ _ _ _ E4).
  destruct (set_alarm_gpio_calls b4 Hw4 Hok) as (b5 & E5 & Hc5 & Hp5).
  rewrite (bind_Ret _ _ _ _ _ E5).
  destruct (write_log_eq "Alarm is set, reset the chassis." b5) as [l5 El5]. rewrite El5.
  eexists. split; [reflexivity|]. simpl. split; [by rewrite Hc5, Hc4|by rewrite Hp5].
Qed.

(** When an alarm was found together with its reading, the
    manager switches the power supply off before it raises the alarm output;
    when the alarming sensor's value could not be read, the report uses a
    variable that was never assigned, and the power supply stays on. *)
Theorem alarm_reaction temp voltage b :
  wired b -> (forall h c l, be_gpio_out h c l = true) ->
  fst temp || fst voltage = true ->
  let found := if fst temp then snd temp else snd voltage in
  match found with
  | Some _ => exists b', raise_alarm temp voltage b = Ret tt b' /\
      calls b' = BGpioOut 0 6 1 :: BGpioOut 2 3 0 :: calls b /\ status (ps_enable (mgr b')) = 0
  | None => raise_alarm temp voltage b = Undef Uninitialised
  end.
Proof.
  intros Hw Hok Ha found. destruct found as [f|] eqn:Hf; [by eapply raise_alarm_known|].
  unfold raise_alarm. rewrite (bind_Ret _ _ b b b) by done.
  set (p1 := bytes_of_string _ ++ [newline]). set (p2 := bytes_of_string _ ++ [newline]).
  set (b1 := set_syslog (syslog b ++ p1) b). rewrite (bind_Ret _ _ b tt b1) by done.
  set (b2 := set_syslog (syslog b1 ++ p2) b1). rewrite (bind_Ret _ _ b1 tt b2) by done.
  apply bind_Undef. unfold found, report_alarm in *.
  destruct (fst temp); [|simpl in Ha; rewrite Ha]; by rewrite Hf.
Qed.

(** Switching the power supply off clears the
    flag that asks for the pin's publication, so that publishing the pins
    afterwards never sets the power supply's property: D-Bus keeps showing
    the supply as enabled. *)
Theorem power_off_never_published b b' b'' :
  wired b -> (forall h c l, be_gpio_out h c l = true) ->
  unset_ps b = Ret true b' -> watch_gpios b' = Ret tt b'' ->
  exists new, calls b'' = new ++ calls b' /\
    (forall v, ~ In (BSetProperty "/xyz/openbmc_project/gpio/psenable" v) new) /\
    status (ps_enable (mgr b'')) = 0.
Proof.
  intros Hw Hok E1 E2. destruct (unset_ps_calls b Hw Hok) as (b1 & E & Hw1 & _ & Hs & Hf & _).
  rewrite E in E1. injection E1 as ->. unfold watch_gpios in E2.
  rewrite (bind_Ret _ _ b' (mgr b') b') in E2 by done.
  apply bind_inv in E2 as ([] & b2 & E2 & E3). injection E3 as <-.
  assert (Quiet : forall v, ~ In (BSetProperty "/xyz/openbmc_project/gpio/psenable" v) [BSleep 500])
    by (intros v [Hin|[]]; discriminate).
  destruct (gpio_service_status (services (mgr b'))).
  2:{ injection E2 as <-. by exists [BSleep 500]. }
  unfold publish_pin at 1 in E2. rewrite Hf in E2. rewrite !bind_ret_l in E2.
  unfold publish_pin in E2. destruct (dbusflag (sysreset (mgr b'))).
  2:{ rewrite bind_ret_l in E2. injection E2 as <-. by exists [BSleep 500]. }
  assert (Hn : gpio_path (sysreset (mgr b')) = "/xyz/openbmc_project/gpio/sysreset"%string).
  { unfold gpio_path. injection (wired_names b' Hw1) as -> _. reflexivity. }
  rewrite Hn in E2. apply bind_inv in E2 as (ok & b3 & E3 & E2). injection E3 as <- <-.
  assert (Hb2 : calls b2 = BSetProperty "/xyz/openbmc_project/gpio/sysreset"
    (dofZ (status (sysreset (mgr b')))) :: calls b' /\ ps_enable (mgr b2) = ps_enable (mgr b'))
    by (destruct (be_set_property _ _); injection E2 as <-; done).
  destruct Hb2 as [Hc Hp]. eexists [_; _]. simpl. rewrite Hc. split; [reflexivity|].
  split; [|by rewrite Hp]. intros v [Hin|[Hin|[]]]; discriminate.
Qed.

(** A heartbeat that finds the first rail
    outside its limits before any complete pass over the rails - the usual
    case while the power supply is still off - prints the voltages of rails
    that were never read: undefined behaviour. *)
Theorem heartbeat_before_readings b raw low high :
  mgr b = initial_Manager ->
  (forall s : Boot, stoi (bytes_of_string (be_file (calls b) (adc_file "9"))) s = Ret raw s) ->
  be_limit "12V_Rail" "min" = Some low -> be_limit "12V_Rail" "max" = Some high ->
  let v := dmul (ddiv (dofZ 12) (dofZ 2047)) (dofZ raw) in
  dltb low v && dltb v high = false ->
  write_heartbeat b = Undef Uninitialised.
Proof.
  intros Hm Hraw Hlow Hhigh v Hout. unfold write_heartbeat, update_readings.
  assert (E : exists b', read_rail 0 b = Ret false b' /\
    mgr b' = set_ADCs (alter (BootManager.set_safe false) 0%nat
      (alter (set_reading raw v) 0%nat (ADCs initial_Manager))) initial_Manager).
  { unfold read_rail. rewrite (bind_Ret _ _ b (mgr b) b) by done. rewrite Hm.
    cbn [initial_Manager ADCs lookup list_lookup of_option]. rewrite bind_ret_l.
    set (b1 := set_calls (BReadFile (adc_file "9") :: calls b) b).
    rewrite (bind_Ret _ _ b (be_file (calls b) (adc_file "9")) b1) by done.
    rewrite (bind_Ret _ _ b1 raw b1) by apply Hraw.
    cbn [new_ADC scale_coeff adc_name]. fold v.
    set (b2 := set_mgr (set_ADCs (alter (set_reading raw v) 0%nat (ADCs (mgr b1))) (mgr b1)) b1).
    rewrite (bind_Ret _ _ b1 tt b2) by done. rewrite Hlow, Hhigh, Hout.
    match goal with |- context [bind (write_log_to_file ?t) _ ?s] =>
      destruct (write_log_eq t s) as [l El]; rewrite (bind_Ret _ _ _ _ _ El) end.
    eexists. split; [reflexivity|]. simpl. by rewrite Hm. }
  destruct E as (b' & E & Hm').
  assert (Hu : (let! m := the_mgr in
    let! ok := read_rails (seq 0 (length (ADCs m))) in
    if ok : bool then let! m := the_mgr in all_safe (ADCs m) else ret false) b = Ret false b').
  { rewrite (bind_Ret _ _ b (mgr b) b) by done. rewrite Hm.
    change (seq 0 (length (ADCs initial_Manager))) with (0%nat :: seq 1 5). cbn [read_rails].
    rewrite (bind_Ret _ _ b false b'); [reflexivity|]. by rewrite (bind_Ret _ _ _ _ _ E). }
  rewrite (bind_Ret _ _ _ _ _ Hu). rewrite (bind_Ret _ _ b' (mgr b') b') by done. rewrite Hm'.
  apply bind_Undef. reflexivity.
Qed.
End reactions.

(** ** A concrete board *)
Definition board : BootEnv :=
  {| be_gpio_in := fun _ _ _ => Some 1; be_gpio_out := fun _ _ _ => true;
     be_dbus_ready := fun _ => true; be_unit_active := fun _ _ => Some true;
     be_file := fun _ _ => "1800"%string;
     be_limit := fun _ key => Some (if String.eqb key "min" then dofZ 1 else dofZ 13);
     be_uptime := fun _ => "00:00:01"%string; be_set_property := fun _ _ => true;
     be_paths := fun _ _ => Some []; be_alarm := fun _ _ _ => None; be_value := fun _ _ => None;
     be_log_open := fun _ => true; be_flash := [] |}.

Fixpoint run_threads `{BootEnv} (ts : list Thread) : M System unit :=
  match ts with
  | [] => ret tt
  | t :: ts' => thread_step t ;;; run_threads ts'
  end.

Lemma running_threads `{BootEnv} ts : forall s s',
  running s -> run_threads ts s = Ret tt s' -> running s'.
Proof.
  induction ts as [|t ts IH]; intros s s' Hr E; [by injection E as <-|].
  apply bind_inv in E as ([] & s1 & E1 & E). eapply IH; [|exact E]. by eapply running_step.
Qed.

Definition powered_up : System :=
  match (@on_boot unit (@new_Manager board) ;;; @run_threads board [TMain; TMain; TMain; TMain; TMain])
          (initial_System []) with
  | Ret _ s => s
  | _ => initial_System []
  end.

Lemma powered_up_running : @running board powered_up.
Proof.
  assert (exists s0, @on_boot unit (@new_Manager board) (initial_System []) = Ret tt s0 /\
    @run_threads board [TMain; TMain; TMain; TMain; TMain] s0 = Ret tt powered_up) as (s0 & E0 & E1).
  { assert ((@on_boot unit (@new_Manager board) ;;; @run_threads board [TMain; TMain; TMain; TMain; TMain])
      (initial_System []) = Ret tt powered_up) as E by (vm_compute; reflexivity).
    apply bind_inv in E as ([] & s0 & E0 & E1). exists s0. split; [exact E0|exact E1]. }
  eapply running_threads; [|exact E1]. eapply running_init. exact E0.
Qed.

Lemma power_up_order_witness :
  exists newer older, calls (boot powered_up) = newer ++ BGpioOut 1 0 0 :: older /\ ps_driven older.
Proof.
  exists [BFlashCopy], (drop 2 (calls (boot powered_up))).
  assert (E : calls (boot powered_up) = [BFlashCopy] ++ BGpioOut 1 0 0 :: drop 2 (calls (boot powered_up)))
    by (vm_compute; reflexivity).
  split; [exact E|]. eapply (@power_up_order board _ _ _ 1 0 0 powered_up_running E). reflexivity.
Defined.

Lemma alarm_line_never_driven_witness :
  (1, 0, 0) ∈ [(2, 3, 1); (2, 3, 0); (1, 0, 0); (0, 6, 1)].
Proof.
  apply (@alarm_line_never_driven board powered_up 1 0 0 powered_up_running).
  vm_compute. right. left. reflexivity.
Defined.

(** A log of [n] empty lines, which is full for [MAX_SIZE]. *)
Definition log_of (n : nat) : Boot := set_syslog (replicate n newline) (boot powered_up).
Definition hello_line : list Z := bytes_of_string "[00:00:01] LCR: hello".
Lemma log_of_whole n : whole_lines (syslog (log_of n)).
Proof.
  destruct n as [|n]; [by left|right]. exists (replicate n newline). cbn [syslog log_of set_syslog].
  change [newline] with (replicate 1 newline). rewrite <- replicate_add. f_equal. lia.
Qed.
Lemma log_of_open n : @be_log_open board (calls (log_of n)) = true.
Proof. reflexivity. Qed.
Lemma log_of_line n : bytes_of_string (log_prefix (@be_uptime board (calls (log_of n))) ++ "hello") = hello_line.
Proof. reflexivity. Qed.
Lemma hello_fits : (length hello_line < MAX_SIZE)%nat.
Proof. change (length hello_line) with 21%nat. unfold MAX_SIZE. lia. Qed.

Lemma log_stays_bounded_witness :
  exists b' kept, @write_log_to_file board "hello" (log_of MAX_SIZE) = Ret tt b' /\
    (length (syslog b') <= MAX_SIZE)%nat /\ syslog b' = kept ++ hello_line ++ [newline].
Proof.
  destruct (@log_stays_bounded board "hello" (log_of MAX_SIZE)) as (b' & E & _ & _ & H & _).
  destruct (H (log_of_open MAX_SIZE)) as (L & _ & K). rewrite (log_of_line MAX_SIZE) in K.
  destruct (K (log_of_whole MAX_SIZE) hello_fits) as [kept Ek].
  exists b', kept. split; [exact E|]. split; [exact L|exact Ek].
Defined.

Definition hot_sensor : bool * option (string * double) := (true, Some ("cpu"%string, dofZ 99)).

Lemma alarm_reaction_witness :
  exists b', @raise_alarm board hot_sensor (false, None) (boot powered_up) = Ret tt b' /\
    calls b' = BGpioOut 0 6 1 :: BGpioOut 2 3 0 :: calls (boot powered_up).
Proof.
  destruct (@alarm_reaction board hot_sensor (false, None) (boot powered_up) eq_refl
    (fun _ _ _ => eq_refl) eq_refl) as (b' & E & Ec & _).
  exists b'. split; [exact E|exact Ec].
Defined.

Definition powered_off : Boot :=
  match @unset_ps board (boot powered_up) with Ret _ b => b | _ => boot powered_up end.
Definition republished : Boot :=
  match @watch_gpios board powered_off with Ret _ b => b | _ => powered_off end.

Lemma power_off_never_published_witness : status (ps_enable (mgr republished)) = 0.
Proof.
  destruct (@power_off_never_published board (boot powered_up) powered_off republished eq_refl
    (fun _ _ _ => eq_refl)) as (new & _ & _ & E); [vm_compute; reflexivity..|].
  exact E.
Defined.

(** The board before the power supply is enabled: the rails read zero. *)
Definition dark_board : BootEnv :=
  {| be_gpio_in := fun _ _ _ => Some 0; be_gpio_out := fun _ _ _ => true;
     be_dbus_ready := fun _ => true; be_unit_active := fun _ _ => Some true;
     be_file := fun _ _ => "0"%string;
     be_limit := fun _ key => Some (if String.eqb key "min" then dofZ 1 else dofZ 13);
     be_uptime := fun _ => "00:04:00"%string; be_set_property := fun _ _ => true;
     be_paths := fun _ _ => Some []; be_alarm := fun _ _ _ => None; be_value := fun _ _ => None;
     be_log_open := fun _ => true; be_flash := [] |}.

Lemma heartbeat_before_readings_witness :
  @write_heartbeat dark_board (boot (initial_System [])) = Undef Uninitialised.
Proof.
  apply (@heartbeat_before_readings dark_board (boot (initial_System [])) 0 (dofZ 1) (dofZ 13));
    [reflexivity|intros s; reflexivity|reflexivity|reflexivity|vm_compute; reflexivity].
Defined.
