(* ===== verification/FanLoop.v ===== *)
(** * The fan controller

    The LCR_fan_controller service: [pid] ([pid.cpp], after
    phosphor-pid-control), the class [fan_loop] ([fan_manipulation.cpp]) and
    [main].  Doubles are binary64; [pow] is a parameter.  D-Bus and the JSON
    file are an environment that answers as a function of the calls made so
    far; [None] and [false] stand for calls that throw. *)
From Stdlib Require Import ZArith Lia String SpecFloat.
From stdpp Require Import base list strings.
From S2P Require Import Prelude Doubles.
Local Open Scope Z_scope.

Definition INT_MIN : Z := -2147483648.
Definition INT_MAX : Z := 2147483647.

(** ** The PID controller *)
Record limits_t := { lim_min : double; lim_max : double }.

Record pid_info_t := {
  initialized : bool; pid_ts : double; integral : double; lastOutput : double;
  lastError : double; proportionalCoeff : double; integralCoeff : double;
  derivativeCoeff : double; feedFwdOffset : double; feedFwdGain : double;
  integralLimit : limits_t; outLim : limits_t; slewNeg : double; slewPos : double;
  positiveHysteresis : double; negativeHysteresis : double }.

(** The default member initialisers. *)
Definition new_pid_info : pid_info_t :=
  {| initialized := false; pid_ts := dzero; integral := dzero; lastOutput := dzero;
     lastError := dzero; proportionalCoeff := dzero; integralCoeff := dzero;
     derivativeCoeff := dzero; feedFwdOffset := dzero; feedFwdGain := dzero;
     integralLimit := {| lim_min := dzero; lim_max := dzero |};
     outLim := {| lim_min := dzero; lim_max := dzero |}; slewNeg := dzero; slewPos := dzero;
     positiveHysteresis := dzero; negativeHysteresis := dzero |}.

Definition clamp (x min max : double) : double :=
  if dltb x min then min else if dltb max x then max else x.

(** [0.0 != x] *)
Definition nonzero (x : double) : bool := negb (deqb dzero x).

Definition limit_slew (p : pid_info_t) (output : double) : double :=
  let output :=
    if nonzero (slewNeg p) then
      let minOut := dadd (lastOutput p) (dmul (slewNeg p) (pid_ts p)) in
      if dltb output minOut then minOut else output
    else output in
  if nonzero (slewPos p) then
    let maxOut := dadd (lastOutput p) (dmul (slewPos p) (pid_ts p)) in
    if dltb maxOut output then maxOut else output
  else output.

Definition set_pid_state (i e o : double) (p : pid_info_t) : pid_info_t :=
  {| initialized := true; pid_ts := pid_ts p; integral := i; lastOutput := o; lastError := e;
     proportionalCoeff := proportionalCoeff p; integralCoeff := integralCoeff p;
     derivativeCoeff := derivativeCoeff p; feedFwdOffset := feedFwdOffset p;
     feedFwdGain := feedFwdGain p; integralLimit := integralLimit p; outLim := outLim p;
     slewNeg := slewNeg p; slewPos := slewPos p;
     positiveHysteresis := positiveHysteresis p; negativeHysteresis := negativeHysteresis p |}.

Definition pid (p : pid_info_t) (input setpoint : double) : double * pid_info_t :=
  let error := dsub setpoint input in
  let proportionalTerm := dmul (proportionalCoeff p) error in
  let clamp_integral i := clamp i (lim_min (integralLimit p)) (lim_max (integralLimit p)) in
  let integralTerm :=
    if nonzero (integralCoeff p)
    then clamp_integral (dadd (integral p) (dmul (dmul error (integralCoeff p)) (pid_ts p)))
    else dzero in
  let derivativeTerm :=
    dmul (derivativeCoeff p) (ddiv (dsub error (lastError p)) (pid_ts p)) in
  let feedFwdTerm := dmul (dadd setpoint (feedFwdOffset p)) (feedFwdGain p) in
  let output := dadd (dadd (dadd proportionalTerm integralTerm) derivativeTerm) feedFwdTerm in
  let output := clamp output (lim_min (outLim p)) (lim_max (outLim p)) in
  let limited := if initialized p then limit_slew p output else output in
  let integralTerm :=
    if initialized p && (nonzero (slewNeg p) || nonzero (slewPos p))
    then dsub limited proportionalTerm else integralTerm in
  (limited, set_pid_state (clamp_integral integralTerm) error limited p).

(** ** The control loop *)
Inductive FCall :=
  | FGetPaths (stub interface : string)
  | FGetProperty (path property : string)
  | FSetTarget (path : string) (v : Z)
  | FReadJson
  | FBusWait
  | FSleep (ms : Z).

Inductive JsonValue := JBool (b : bool) | JNumber (d : double).

Class FanEnv := {
  fe_paths : list FCall -> string -> string -> option (list string);
  fe_property : list FCall -> string -> string -> option double;
  fe_set_target : list FCall -> string -> bool;
  (** pid.json by key path, as read after the given calls. *)
  fe_json : list FCall -> string -> option JsonValue }.

Record temperature_sensor := { temp_path : string; temp_value : option double }.
Record fan := { fan_path : string; pwm : Z }.

Record fan_loop := {
  linear : option bool; ts : option double; temp_min : option double; temp_max : option double;
  setpoint : option double; temps : list temperature_sensor; fans : list fan;
  controller : pid_info_t }.

Record FanSt := { fcalls : list FCall; fl : fan_loop }.
Definition set_fcalls c (s : FanSt) : FanSt := {| fcalls := c; fl := fl s |}.
Definition set_fl f (s : FanSt) : FanSt := {| fcalls := fcalls s; fl := f |}.

Definition set_linear v (f : fan_loop) : fan_loop :=
  {| linear := Some v; ts := ts f; temp_min := temp_min f; temp_max := temp_max f;
     setpoint := setpoint f; temps := temps f; fans := fans f; controller := controller f |}.
Definition set_setpoint v (f : fan_loop) : fan_loop :=
  {| linear := linear f; ts := ts f; temp_min := temp_min f; temp_max := temp_max f;
     setpoint := Some v; temps := temps f; fans := fans f; controller := controller f |}.
Definition set_ts v (f : fan_loop) : fan_loop :=
  {| linear := linear f; ts := Some v; temp_min := temp_min f; temp_max := temp_max f;
     setpoint := setpoint f; temps := temps f; fans := fans f; controller := controller f |}.
Definition set_temps v (f : fan_loop) : fan_loop :=
  {| linear := linear f; ts := ts f; temp_min := temp_min f; temp_max := temp_max f;
     setpoint := setpoint f; temps := v; fans := fans f; controller := controller f |}.
Definition set_fans v (f : fan_loop) : fan_loop :=
  {| linear := linear f; ts := ts f; temp_min := temp_min f; temp_max := temp_max f;
     setpoint := setpoint f; temps := temps f; fans := v; controller := controller f |}.
Definition set_thresholds lo hi (f : fan_loop) : fan_loop :=
  {| linear := linear f; ts := ts f; temp_min := lo; temp_max := hi;
     setpoint := setpoint f; temps := temps f; fans := fans f; controller := controller f |}.
Definition set_controller v (f : fan_loop) : fan_loop :=
  {| linear := linear f; ts := ts f; temp_min := temp_min f; temp_max := temp_max f;
     setpoint := setpoint f; temps := temps f; fans := fans f; controller := v |}.

Definition set_pid_ts v (p : pid_info_t) : pid_info_t :=
  {| initialized := initialized p; pid_ts := v; integral := integral p; lastOutput := lastOutput p;
     lastError := lastError p; proportionalCoeff := proportionalCoeff p;
     integralCoeff := integralCoeff p; derivativeCoeff := derivativeCoeff p;
     feedFwdOffset := feedFwdOffset p; feedFwdGain := feedFwdGain p;
     integralLimit := integralLimit p; outLim := outLim p; slewNeg := slewNeg p;
     slewPos := slewPos p; positiveHysteresis := positiveHysteresis p;
     negativeHysteresis := negativeHysteresis p |}.
Definition set_coeffs kp ki kd fo fg (p : pid_info_t) : pid_info_t :=
  {| initialized := initialized p; pid_ts := pid_ts p; integral := integral p;
     lastOutput := lastOutput p; lastError := lastError p; proportionalCoeff := kp;
     integralCoeff := ki; derivativeCoeff := kd; feedFwdOffset := fo; feedFwdGain := fg;
     integralLimit := integralLimit p; outLim := outLim p; slewNeg := slewNeg p;
     slewPos := slewPos p; positiveHysteresis := positiveHysteresis p;
     negativeHysteresis := negativeHysteresis p |}.
Definition set_limits il ol (p : pid_info_t) : pid_info_t :=
  {| initialized := initialized p; pid_ts := pid_ts p; integral := integral p;
     lastOutput := lastOutput p; lastError := lastError p;
     proportionalCoeff := proportionalCoeff p; integralCoeff := integralCoeff p;
     derivativeCoeff := derivativeCoeff p; feedFwdOffset := feedFwdOffset p;
     feedFwdGain := feedFwdGain p; integralLimit := il; outLim := ol; slewNeg := slewNeg p;
     slewPos := slewPos p; positiveHysteresis := positiveHysteresis p;
     negativeHysteresis := negativeHysteresis p |}.
Definition set_slews sn sp hp hn (p : pid_info_t) : pid_info_t :=
  {| initialized := initialized p; pid_ts := pid_ts p; integral := integral p;
     lastOutput := lastOutput p; lastError := lastError p;
     proportionalCoeff := proportionalCoeff p; integralCoeff := integralCoeff p;
     derivativeCoeff := derivativeCoeff p; feedFwdOffset := feedFwdOffset p;
     feedFwdGain := feedFwdGain p; integralLimit := integralLimit p; outLim := outLim p;
     slewNeg := sn; slewPos := sp; positiveHysteresis := hp; negativeHysteresis := hn |}.

Section loop.
Context `{Libm} `{FanEnv}.

Definition fask {A} (f : list FCall -> A) (c : FCall) : M FanSt A :=
  fun s => Ret (f (fcalls s)) (set_fcalls (c :: fcalls s) s).
Definition the_fl : M FanSt fan_loop := fun s => Ret (fl s) s.
Definition on_fl (f : fan_loop -> fan_loop) : M FanSt unit := modify (fun s => set_fl (f (fl s)) s).

Definition or_throw {A} (o : option A) (e : exn) : M FanSt A :=
  match o with Some a => ret a | None => throw e end.
Definition getSubTreePathsRaw (stub interface : string) : M FanSt (list string) :=
  let! o := fask (fun h => fe_paths h stub interface) (FGetPaths stub interface) in
  or_throw o DBusError.
Definition getProperty (path property : string) : M FanSt double :=
  let! o := fask (fun h => fe_property h path property) (FGetProperty path property) in
  or_throw o DBusError.

(** [data[key].get<double>()] and [get<bool>()] of a document read after [h]. *)
Definition get_double (h : list FCall) (key : string) : M FanSt double :=
  match fe_json h key with
  | Some (JNumber d) => ret d
  | _ => throw (RuntimeError "type_error")
  end.
Definition get_bool (h : list FCall) (key : string) : M FanSt bool :=
  match fe_json h key with
  | Some (JBool b) => ret b
  | _ => throw (RuntimeError "type_error")
  end.
Definition readJson : M FanSt (list FCall) := fask (fun h => h) FReadJson.

Definition temperature_stub : string := "/xyz/openbmc_project/sensors/temperature".
Definition pwm_stub : string := "/xyz/openbmc_project/control/fanpwm".

Definition initialize_temps : M FanSt unit :=
  let! paths := getSubTreePathsRaw temperature_stub "xyz.openbmc_project.Sensor.Value" in
  on_fl (fun f => set_temps (temps f ++
    map (fun p => {| temp_path := p; temp_value := None |}) paths) f).

(** The controller counts as initialised before its first sample.  A missing
    key keeps what was assigned before it. *)
Definition initialize_controller : M FanSt unit :=
  on_fl (fun f => set_controller (set_pid_state (integral (controller f)) (lastError (controller f))
    (lastOutput (controller f)) (controller f)) f) ;;;
  try
    (let! data := readJson in
     let! b := get_bool data "linear" in
     on_fl (set_linear b) ;;;
     let! v := get_double data "setpoint" in
     on_fl (set_setpoint v) ;;;
     let! t := get_double data "ts" in
     on_fl (set_ts t) ;;;
     on_fl (fun f => set_controller (set_pid_ts t (controller f)) f) ;;;
     let coeffs g := on_fl (fun f => set_controller (g (controller f)) f) in
     let! kp := get_double data "proportionalCoeff" in
     coeffs (fun p => set_coeffs kp (integralCoeff p) (derivativeCoeff p) (feedFwdOffset p)
                        (feedFwdGain p) p) ;;;
     let! ki := get_double data "integralCoeff" in
     coeffs (fun p => set_coeffs kp ki (derivativeCoeff p) (feedFwdOffset p) (feedFwdGain p) p) ;;;
     let! kd := get_double data "derivativeCoeff" in
     coeffs (fun p => set_coeffs kp ki kd (feedFwdOffset p) (feedFwdGain p) p) ;;;
     let! fo := get_double data "feedFwdOffset" in
     coeffs (fun p => set_coeffs kp ki kd fo (feedFwdGain p) p) ;;;
     let! fg := get_double data "feedFwdGain" in
     coeffs (set_coeffs kp ki kd fo fg) ;;;
     let! imin := get_double data "integralLimit.min" in
     coeffs (fun p => set_limits {| lim_min := imin; lim_max := lim_max (integralLimit p) |}
                        (outLim p) p) ;;;
     let! imax := get_double data "integralLimit.max" in
     coeffs (fun p => set_limits {| lim_min := imin; lim_max := imax |} (outLim p) p) ;;;
     let! omin := get_double data "outLim.min" in
     coeffs (fun p => set_limits (integralLimit p)
                        {| lim_min := omin; lim_max := lim_max (outLim p) |} p) ;;;
     let! omax := get_double data "outLim.max" in
     coeffs (fun p => set_limits (integralLimit p) {| lim_min := omin; lim_max := omax |} p) ;;;
     let! sn := get_double data "slewNeg" in
     coeffs (fun p => set_slews sn (slewPos p) (positiveHysteresis p) (negativeHysteresis p) p) ;;;
     let! sp := get_double data "slewPos" in
     coeffs (fun p => set_slews sn sp (positiveHysteresis p) (negativeHysteresis p) p) ;;;
     let! hp := get_double data "positiveHysteresis" in
     coeffs (fun p => set_slews sn sp hp (negativeHysteresis p) p) ;;;
     let! hn := get_double data "negativeHysteresis" in
     coeffs (set_slews sn sp hp hn))
    (fun _ => ret tt).

Definition get_fan_pwms : M FanSt unit :=
  let! paths := getSubTreePathsRaw pwm_stub "xyz.openbmc_project.Control.FanPwm" in
  on_fl (fun f => set_fans (map (fun a => {| fan_path := fan_path a; pwm := 0 |})
    (fans f ++ map (fun p => {| fan_path := p; pwm := 0 |}) paths)) f).

(** The limits of the first path. *)
Definition get_temp_thresholds : M FanSt unit :=
  let! paths := getSubTreePathsRaw temperature_stub
    "xyz.openbmc_project.Sensor.Threshold.Critical" in
  match paths with
  | [] => ret tt
  | path :: _ =>
      let! lo := getProperty path "CriticalLow" in
      on_fl (fun f => set_thresholds (Some lo) (temp_max f) f) ;;;
      let! hi := getProperty path "CriticalHigh" in
      on_fl (fun f => set_thresholds (temp_min f) (Some hi) f)
  end.

Definition new_fan_loop : M FanSt unit :=
  initialize_temps ;;; initialize_controller ;;; get_fan_pwms ;;; get_temp_thresholds.

Definition read_temperature (t : temperature_sensor) : M FanSt temperature_sensor :=
  let! v := try (getProperty (temp_path t) "Value") (fun _ => ret (dofZ (-20))) in
  ret {| temp_path := temp_path t; temp_value := Some v |}.
Definition read_temperatures : M FanSt unit :=
  let! f := the_fl in
  let! ts := mmap read_temperature (temps f) in
  on_fl (set_temps ts).

(** The highest temperature, from a start value of zero. *)
Fixpoint highest (l : list temperature_sensor) (temp_high : double) : M FanSt double :=
  match l with
  | [] => ret temp_high
  | t :: l' =>
      let! v := init_read (temp_value t) in
      highest l' (if dltb temp_high v then v else temp_high)
  end.

Definition setProperty (a : fan) : M FanSt unit :=
  let! ok := fask (fun h => fe_set_target h (fan_path a)) (FSetTarget (fan_path a) (u64 (pwm a))) in
  if ok : bool then ret tt else throw DBusError.

(** Give every fan a new duty cycle and publish it, fan by fan. *)
Fixpoint drive_fans (new : Z -> M FanSt Z) (done todo : list fan) : M FanSt unit :=
  match todo with
  | [] => ret tt
  | a :: todo' =>
      let! v := new (pwm a) in
      let a' := {| fan_path := fan_path a; pwm := v |} in
      on_fl (set_fans (done ++ a' :: todo')) ;;;
      setProperty a' ;;;
      drive_fans new (done ++ [a']) todo'
  end.

Definition linear_pwm (calc_val : double) : M FanSt Z :=
  let! v := double_to_int INT_MIN INT_MAX calc_val in
  ret (if v <? 75 then 75 else v).

Definition pid_pwm (output : double) (old : Z) : M FanSt Z :=
  let! o := double_to_int INT_MIN INT_MAX output in
  let v := old - o in
  if (v <? INT_MIN) || (INT_MAX <? v) then undef SignedOverflow
  else ret (if 255 <? v then 255 else if v <? 0 then 0 else v).

(** The double of the literal [1.6]. *)
Definition d1_6 : double := ddiv (dofZ 16) (dofZ 10).

Definition control_loop : M FanSt unit :=
  let! _ := fask (fun _ => tt) FBusWait in
  let! data := readJson in
  let! sp := get_double data "setpoint" in
  on_fl (set_setpoint sp) ;;;
  let! f := the_fl in
  let! temp_high := highest (temps f) dzero in
  let! tmax := init_read (temp_max f) in
  let temp_max_norm := dsub tmax sp in
  let! lin := init_read (linear f) in
  if lin : bool then
    let calc_val := dmul (lm_pow (ddiv (dsub temp_high sp) temp_max_norm) d1_6) (dofZ 255) in
    let calc_val := if dltb temp_high sp then dofZ 0
                    else if dltb tmax temp_high then dofZ 255 else calc_val in
    drive_fans (fun _ => linear_pwm calc_val) [] (fans f)
  else
    let (output, c) := pid (controller f) temp_high sp in
    on_fl (set_controller c) ;;;
    let output := if dltb temp_high sp then dofZ 0 else output in
    drive_fans (pid_pwm output) [] (fans f).

(** [main]: the start, which computes the period, and one iteration. *)
Definition main_start : M FanSt Z :=
  let! _ := fask (fun _ => tt) (FSleep 10000) in
  new_fan_loop ;;;
  let! f := the_fl in
  let! t := init_read (ts f) in
  double_to_int INT_MIN INT_MAX (dmul t (dofZ 1000)).
Definition main_iteration (tsint : Z) : M FanSt unit :=
  read_temperatures ;;; control_loop ;;; fask (fun _ => tt) (FSleep tsint).
End loop.

Definition initial_fan_loop : fan_loop :=
  {| linear := None; ts := None; temp_min := None; temp_max := None; setpoint := None;
     temps := []; fans := []; controller := new_pid_info |}.
