(* ===== verification/FanLoopSpec.v ===== *)
(** * The fan controller: properties

    The range of the duty cycles, the saturation of the linear law, the
    limits of the PID output, and what the loss of the sensors does. *)
From Stdlib Require Import ZArith Lia String SpecFloat.
From stdpp Require Import base list strings.
From S2P Require Import Prelude Doubles FanLoop.
Local Open Scope Z_scope.

(** ** The PID output *)
Lemma dltb_irrefl x : dltb x x = false.
Proof.
  destruct x as [s|s| |s m e]; [done|by destruct s|done|].
  unfold dltb, SFltb, SFcompare. destruct s; rewrite Z.compare_refl, Pos.compare_cont_refl; done.
Qed.

(** A clamped value is on neither side of its limits. *)
Lemma clamp_inside x lo hi :
  dltb hi lo = false -> dltb (clamp x lo hi) lo = false /\ dltb hi (clamp x lo hi) = false.
Proof.
  intros Hl. unfold clamp. destruct (dltb x lo) eqn:E1.
  - by rewrite dltb_irrefl.
  - destruct (dltb hi x) eqn:E2; [by rewrite dltb_irrefl|done].
Qed.

(** Without slew limits, or before the first sample, the output of [pid] and
    the integral it keeps are inside their limits, whatever the inputs. *)
Lemma pid_output_limited p input setpoint :
  dltb (lim_max (outLim p)) (lim_min (outLim p)) = false ->
  dltb (lim_max (integralLimit p)) (lim_min (integralLimit p)) = false ->
  initialized p = false \/ (nonzero (slewNeg p) = false /\ nonzero (slewPos p) = false) ->
  let (output, p') := pid p input setpoint in
  dltb output (lim_min (outLim p)) = false /\ dltb (lim_max (outLim p)) output = false /\
  dltb (integral p') (lim_min (integralLimit p)) = false /\
  dltb (lim_max (integralLimit p)) (integral p') = false.
Proof.
  intros Ho Hi Hslew. unfold pid. cbv zeta.
  match goal with |- context [clamp ?x (lim_min (outLim p)) (lim_max (outLim p))] =>
    generalize (clamp_inside x _ _ Ho); generalize (clamp x (lim_min (outLim p)) (lim_max (outLim p))) end.
  intros out [H1 H2].
  assert (E : (if initialized p then limit_slew p out else out) = out).
  { destruct (initialized p); [|done]. destruct Hslew as [?|[Hn Hp]]; [done|].
    unfold limit_slew. by rewrite Hn, Hp. }
  rewrite E. split; [done|]. split; [done|]. cbn [integral set_pid_state].
  match goal with |- context [clamp ?x (lim_min (integralLimit p)) (lim_max (integralLimit p))] =>
    exact (clamp_inside x _ _ Hi) end.
Qed.

(** ** Duty cycles *)
Section duty.
Context `{Libm} `{FanEnv}.

(** A fan and its successor after one round. *)
Definition driven (R : Z -> Z -> Prop) (a a' : fan) : Prop :=
  fan_path a' = fan_path a /\ R (pwm a) (pwm a').
Definition target (a : fan) : FCall := FSetTarget (fan_path a) (u64 (pwm a)).

Lemma drive_fans_Ret new (R : Z -> Z -> Prop) :
  (forall v w s s1, new v s = Ret w s1 -> s1 = s /\ R v w) ->
  forall todo done s s', fans (fl s) = done ++ todo -> drive_fans new done todo s = Ret tt s' ->
  exists todo', Forall2 (driven R) todo todo' /\ fans (fl s') = done ++ todo' /\
    fcalls s' = rev (map target todo') ++ fcalls s /\ linear (fl s') = linear (fl s).
Proof.
  intros Hnew. induction todo as [|a todo IH]; intros done s s' Hf E.
  { injection E as <-. exists []. by repeat split. }
  cbn [drive_fans] in E. apply bind_inv in E as (v & s1 & E1 & E).
  destruct (Hnew _ _ _ _ E1) as [-> HR].
  set (a' := {| fan_path := fan_path a; pwm := v |}) in *.
  apply bind_inv in E as ([] & s2 & E2 & E). injection E2 as <-.
  apply bind_inv in E as ([] & s3 & E3 & E).
  apply bind_inv in E3 as (ok & s4 & E4 & E3). injection E4 as <- <-.
  destruct (fe_set_target _ _); [|done]. injection E3 as <-.
  apply IH in E as (todo' & HF & Hfans & Hcalls & Hlin); [|simpl; by rewrite <- app_assoc].
  exists (a' :: todo'). split; [constructor; [by split|done]|].
  split; [by rewrite Hfans, <- app_assoc|]. split; [|done].
  rewrite Hcalls. simpl. by rewrite <- app_assoc.
Qed.

Lemma drive_fans_total new v0 :
  (forall v s, new v s = Ret v0 s) -> (forall h p, fe_set_target h p = true) ->
  forall todo done s, exists s', drive_fans new done todo s = Ret tt s' /\
    (todo <> [] -> fans (fl s') = done ++ map (fun a => {| fan_path := fan_path a; pwm := v0 |}) todo).
Proof.
  intros Hnew Hok. induction todo as [|a todo IH]; intros done s; [by exists s|].
  cbn [drive_fans]. rewrite (bind_Ret _ _ _ _ _ (Hnew (pwm a) s)).
  set (a' := {| fan_path := fan_path a; pwm := v0 |}).
  set (s1 := set_fl (set_fans (done ++ a' :: todo) (fl s)) s). rewrite (bind_Ret _ _ s tt s1) by done.
  set (s2 := set_fcalls (target a' :: fcalls s1) s1).
  assert (E : setProperty a' s1 = Ret tt s2).
  { unfold setProperty, fask, bind. by rewrite Hok. }
  rewrite (bind_Ret _ _ _ _ _ E). destruct (IH (done ++ [a']) s2) as (s' & E' & Hf).
  exists s'. split; [done|]. intros _. destruct todo as [|b todo].
  - by injection E' as <-.
  - rewrite Hf by done. by rewrite <- app_assoc.
Qed.

Lemma linear_pwm_Ret calc v w s s1 :
  (fun _ : Z => linear_pwm calc) v s = Ret w s1 ->
  s1 = s /\ 75 <= w /\ exists z, dtrunc calc = Some z /\ w = Z.max 75 z.
Proof.
  unfold linear_pwm, double_to_int. destruct (dtrunc calc) as [z|]; [|done].
  destruct (_ && _); [|done]. intros E. injection E as <- <-.
  split; [done|]. destruct (Z.ltb_spec z 75); (split; [lia|]); exists z; (split; [done|lia]).
Qed.

Lemma pid_pwm_Ret output v w s s1 :
  pid_pwm output v s = Ret w s1 ->
  s1 = s /\ 0 <= w <= 255 /\ exists o, dtrunc output = Some o /\ w = Z.max 0 (Z.min 255 (v - o)).
Proof.
  unfold pid_pwm, double_to_int. destruct (dtrunc output) as [o|]; [|done].
  destruct (_ && _); [|done]. cbn [bind ret]. unfold bind, ret. destruct (_ || _); [done|].
  intros E. injection E as <- <-. split; [done|].
  destruct (Z.ltb_spec 255 (v - o)); [|destruct (Z.ltb_spec (v - o) 0)];
    (split; [lia|]); exists o; (split; [done|lia]).
Qed.

(** What one round decides from the highest temperature: [lin] the mode, [c]
    the controller it started with. *)
Definition round_law (lin : bool) (c : pid_info_t) (high sp tmax : double) (old new : Z) : Prop :=
  let below := dltb high sp in
  if lin then
    75 <= new /\ (below = true -> new = 75) /\
    (below = false -> dltb tmax high = true -> new = 255) /\
    (below = false -> dltb tmax high = false -> exists z,
       dtrunc (dmul (lm_pow (ddiv (dsub high sp) (dsub tmax sp)) d1_6) (dofZ 255)) = Some z /\
       new = Z.max 75 z)
  else
    0 <= new <= 255 /\ (below = true -> new = Z.max 0 (Z.min 255 old)) /\
    (below = false -> exists o,
       dtrunc (fst (pid c high sp)) = Some o /\ new = Z.max 0 (Z.min 255 (old - o))).

(** [highest] depends on the sensors only. *)
Lemma highest_any l high v s s' t :
  highest l high s = Ret v s' -> s' = s /\ highest l high t = Ret v t.
Proof.
  revert high. induction l as [|x l IH]; intros high E; [by injection E as <- <-|].
  cbn [highest] in *. unfold init_read, of_option, bind in *.
  destruct (temp_value x); [|done]. by apply IH.
Qed.

Lemma get_double_Ret h k s v s' : get_double h k s = Ret v s' -> s' = s /\ fe_json h k = Some (JNumber v).
Proof. unfold get_double. destruct (fe_json h k) as [[]|]; [done| |done]. by injection 1 as <- <-. Qed.

Lemma init_read_Ret {A} (o : option A) (s : FanSt) v s' : init_read o s = Ret v s' -> o = Some v /\ s' = s.
Proof. unfold init_read, of_option. destruct o; [|done]. by injection 1 as <- <-. Qed.

Lemma dtrunc_0 : dtrunc (dofZ 0) = Some 0.
Proof. reflexivity. Qed.
Lemma dtrunc_255 : dtrunc (dofZ 255) = Some 255.
Proof. reflexivity. Qed.

Lemma linear_law c high sp tmax calc v w s s1 :
  calc = (if dltb high sp then dofZ 0 else if dltb tmax high then dofZ 255
          else dmul (lm_pow (ddiv (dsub high sp) (dsub tmax sp)) d1_6) (dofZ 255)) ->
  (fun _ : Z => linear_pwm calc) v s = Ret w s1 -> s1 = s /\ round_law true c high sp tmax v w.
Proof.
  intros -> E. apply (linear_pwm_Ret _ v) in E as (-> & Hw & z & Hz & Ew). split; [done|].
  unfold round_law. split; [done|].
  destruct (dltb high sp); [|destruct (dltb tmax high)];
    (split; [intros|split; intros]); try done.
  - rewrite dtrunc_0 in Hz. injection Hz as <-. lia.
  - rewrite dtrunc_255 in Hz. injection Hz as <-. lia.
  - by exists z.
Qed.

Lemma pid_law c high sp tmax out v w s s1 :
  out = (if dltb high sp then dofZ 0 else fst (pid c high sp)) ->
  pid_pwm out v s = Ret w s1 -> s1 = s /\ round_law false c high sp tmax v w.
Proof.
  intros -> E. apply pid_pwm_Ret in E as (-> & Hw & o & Ho & Ew). split; [done|].
  unfold round_law. split; [done|].
  destruct (dltb high sp); split; intros; try done.
  - rewrite dtrunc_0 in Ho. injection Ho as <-. by rewrite Ew, Z.sub_0_r.
  - by exists o.
Qed.

(** ** Lost sensors *)
Definition lost (t : temperature_sensor) : temperature_sensor :=
  {| temp_path := temp_path t; temp_value := Some (dofZ (-20)) |}.

Lemma read_temperature_lost t s :
  (forall h, fe_property h (temp_path t) "Value" = None) ->
  read_temperature t s = Ret (lost t) (set_fcalls (FGetProperty (temp_path t) "Value" :: fcalls s) s).
Proof.
  intros Hn. unfold read_temperature, getProperty, fask, bind, try, or_throw. by rewrite Hn.
Qed.

Lemma mmap_lost l s :
  (forall h t, t ∈ l -> fe_property h (temp_path t) "Value" = None) ->
  exists c, mmap read_temperature l s = Ret (map lost l) (set_fcalls c s).
Proof.
  revert s. induction l as [|t l IH]; intros s Hn; [exists (fcalls s); by destruct s|].
  cbn [mmap]. rewrite (bind_Ret _ _ _ _ _ (read_temperature_lost t s (fun h => Hn h t (list_elem_of_here _ _)))).
  edestruct IH as [c Hc]; [|rewrite (bind_Ret _ _ _ _ _ Hc); by exists c].
  intros h x Hx. apply Hn. by apply list_elem_of_further.
Qed.

Lemma highest_lost l s : highest (map lost l) dzero s = Ret dzero s.
Proof. induction l as [|t l IH]; [done|exact IH]. Qed.

(** C39. Whenever a round of the control loop completes, every fan
    has been given its duty cycle, in order, and keeps it.  In linear mode it
    is at least 75, exactly 75 below the setpoint and 255 above the critical
    temperature, and in between the truncated power law; in PID mode it is
    the old one less the truncated output, kept between 0 and 255, and
    unchanged below the setpoint - a fan that was driven up is not slowed
    down when the chassis cools. *)
Theorem fan_duty_law s s' :
  control_loop s = Ret tt s' ->
  exists lin high sp tmax,
    linear (fl s) = Some lin /\ temp_max (fl s) = Some tmax /\
    fe_json (FBusWait :: fcalls s) "setpoint" = Some (JNumber sp) /\
    highest (temps (fl s)) dzero s = Ret high s /\
    Forall2 (driven (round_law lin (controller (fl s)) high sp tmax)) (fans (fl s)) (fans (fl s')) /\
    fcalls s' = rev (map target (fans (fl s'))) ++ FReadJson :: FBusWait :: fcalls s.
Proof.
  intros E. unfold control_loop in E.
  apply bind_inv in E as ([] & s1 & E1 & E). injection E1 as <-.
  apply bind_inv in E as (data & s2 & E2 & E). injection E2 as <- <-.
  apply bind_inv in E as (sp & s3 & E3 & E). apply get_double_Ret in E3 as [-> Hsp].
  apply bind_inv in E as ([] & s4 & E4 & E). injection E4 as <-.
  apply bind_inv in E as (f & s5 & E5 & E). injection E5 as <- <-.
  apply bind_inv in E as (high & s6 & E6 & E). apply (highest_any _ _ _ _ _ s) in E6 as [-> Hh].
  apply bind_inv in E as (tmax & s7 & E7 & E). apply init_read_Ret in E7 as [Ht ->].
  apply bind_inv in E as (lin & s8 & E8 & E). apply init_read_Ret in E8 as [Hl ->].
  exists lin, high, sp, tmax. do 4 (split; [done|]). destruct lin.
  - eapply (drive_fans_Ret _ (round_law true (controller (fl s)) high sp tmax)) in E
      as (todo & HF & Hfans & Hcalls & _);
      [|intros v w t t1; by apply linear_law|done].
    simpl in Hfans. by rewrite Hfans.
  - destruct (pid _ high sp) as [out c] eqn:Ep.
    apply bind_inv in E as ([] & s9 & E9 & E). injection E9 as <-.
    eapply (drive_fans_Ret _ (round_law false (controller (fl s)) high sp tmax)) in E
      as (todo & HF & Hfans & Hcalls & _); [|intros v w t t1; apply pid_law|done].
    + simpl in Hfans. by rewrite Hfans.
    + simpl in Ep. by rewrite Ep.
Qed.

(** When no temperature can be read, the loop
    runs on as if the chassis were at zero degrees: in linear mode, with a
    positive setpoint, it drives every fan at its minimum and reports no
    error. *)
Theorem unreadable_sensors_idle_fans s sp tmax tsint :
  linear (fl s) = Some true -> temp_max (fl s) = Some tmax ->
  (forall h t, t ∈ temps (fl s) -> fe_property h (temp_path t) "Value" = None) ->
  (forall h, fe_json h "setpoint" = Some (JNumber sp)) -> dltb dzero sp = true ->
  (forall h p, fe_set_target h p = true) ->
  exists s', main_iteration tsint s = Ret tt s' /\
    fans (fl s') = map (fun a => {| fan_path := fan_path a; pwm := 75 |}) (fans (fl s)).
Proof.
  intros Hlin Hmax Hlost Hjson Hsp Hok.
  destruct (mmap_lost _ s Hlost) as [c Hc].
  set (s1 := set_fl (set_temps (map lost (temps (fl s))) (fl s)) (set_fcalls c s)).
  assert (Hread : read_temperatures s = Ret tt s1).
  { unfold read_temperatures. rewrite (bind_Ret _ _ s (fl s) s) by done. by rewrite (bind_Ret _ _ _ _ _ Hc). }
  set (s2 := set_fl (set_setpoint sp (fl s1)) (set_fcalls (FReadJson :: FBusWait :: fcalls s1) s1)).
  assert (Hnew : forall v t, (fun _ : Z => linear_pwm (dofZ 0)) v t = Ret 75 t) by done.
  destruct (drive_fans_total _ 75 Hnew Hok (fans (fl s)) [] s2) as (s3 & E3 & Hf).
  exists (set_fcalls (FSleep tsint :: fcalls s3) s3). split.
  - unfold main_iteration. rewrite (bind_Ret _ _ _ _ _ Hread).
    assert (E : control_loop s1 = Ret tt s3); [|by rewrite (bind_Ret _ _ _ _ _ E)].
    unfold control_loop. rewrite (bind_Ret _ _ s1 tt (set_fcalls (FBusWait :: fcalls s1) s1)) by done.
    set (s1' := set_fcalls (FReadJson :: FBusWait :: fcalls s1) s1).
    rewrite (bind_Ret _ _ _ (FBusWait :: fcalls s1) s1') by done.
    rewrite (bind_Ret _ _ s1' sp s1') by (unfold get_double; by rewrite Hjson).
    rewrite (bind_Ret _ _ s1' tt s2) by done. rewrite (bind_Ret _ _ s2 (fl s2) s2) by done.
    rewrite (bind_Ret _ _ s2 dzero s2) by apply highest_lost.
    rewrite (bind_Ret _ _ s2 tmax s2) by (unfold init_read, of_option; simpl; by rewrite Hmax).
    rewrite (bind_Ret _ _ s2 true s2) by (unfold init_read, of_option; simpl; by rewrite Hlin).
    cbv zeta. rewrite Hsp. exact E3.
  - change (fans (fl s3) = map (fun a => {| fan_path := fan_path a; pwm := 75 |}) (fans (fl s))).
    destruct (fans (fl s)) as [|a l] eqn:Ef; [|by apply Hf].
    cbn in E3. injection E3 as <-. exact Ef.
Qed.
End duty.

(** ** Concrete chassis *)
(** The temperature sensor answers the value, when there is one; every fan
    accepts its target. *)
Definition chassis (t : option double) : FanEnv :=
  {| fe_paths := fun _ _ _ => Some ["t1"%string];
     fe_property := fun _ p q => if bool_decide (p = "t1" /\ q = "Value")%string then t else None;
     fe_set_target := fun _ _ => true;
     fe_json := fun _ k => if bool_decide (k = "setpoint")%string then Some (JNumber (dofZ 40)) else None |}.

Definition running (lin : bool) (p : Z) : FanSt :=
  {| fcalls := [];
     fl := {| linear := Some lin; ts := Some d_one; temp_min := Some dzero;
              temp_max := Some (dofZ 85); setpoint := None;
              temps := [{| temp_path := "t1"; temp_value := Some (dofZ 30) |}];
              fans := [{| fan_path := "f1"; pwm := p |}; {| fan_path := "f2"; pwm := p |}];
              controller := new_pid_info |} |}.

(** The same chassis after a round that left the fans at [p], the output of
    the controller being discarded. *)
Definition held (p : Z) : FanSt :=
  {| fcalls := [FSetTarget "f2" (u64 p); FSetTarget "f1" (u64 p); FReadJson; FBusWait];
     fl := set_controller (snd (pid new_pid_info (dofZ 30) (dofZ 40)))
             (set_setpoint (dofZ 40) (fl (running false p))) |}.

(** At 30 degrees, below the setpoint: a fan at full speed in PID mode stays
    there. *)
Lemma fan_duty_law_witness :
  @control_loop libm_example (chassis None) (running false 255) = Ret tt (held 255) /\
  Forall2 (driven (@round_law libm_example false new_pid_info (dofZ 30) (dofZ 40) (dofZ 85)))
    (fans (fl (running false 255))) (fans (fl (held 255))).
Proof.
  assert (E : @control_loop libm_example (chassis None) (running false 255) = Ret tt (held 255))
    by (vm_compute; reflexivity).
  split; [exact E|].
  destruct (@fan_duty_law libm_example (chassis None) _ _ E)
    as (lin & high & sp & tmax & Hl & Ht & Hs & Hh & HF & _).
  injection Hl as <-. injection Ht as <-.
  assert (Hsp : Some (JNumber (dofZ 40)) = Some (JNumber sp)) by exact Hs.
  assert (Hhigh : Ret (dofZ 30) (running false 255) = Ret high (running false 255))
    by (rewrite <- Hh; vm_compute; reflexivity).
  injection Hsp as <-. injection Hhigh as <-. exact HF.
Defined.

Lemma unreadable_sensors_idle_fans_witness :
  exists s', @main_iteration libm_example (chassis None) 1000 (running true 0) = Ret tt s' /\
    fans (fl s') = [{| fan_path := "f1"; pwm := 75 |}; {| fan_path := "f2"; pwm := 75 |}].
Proof.
  apply (@unreadable_sensors_idle_fans libm_example (chassis None) (running true 0) (dofZ 40) (dofZ 85));
    [reflexivity|reflexivity| |reflexivity|reflexivity|reflexivity].
  intros h t Ht. apply list_elem_of_singleton in Ht as ->. reflexivity.
Defined.
