(* ===== verification/SensorObjects.v ===== *)
(** * Sensor objects

    The services that measure the chassis (voltages, temperatures, GPIO pins)
    publish D-Bus objects with the interfaces Sensor.Value and
    Sensor.Threshold.Critical; the mandatory sensors, the boot manager and the
    fan controller read them.  This file has the objects, the surroundings of
    the publishing services and the computations over both.

    The surroundings answer each call as a function of the calls made so far;
    [None] stands for a call that throws, and for a file that does not open. *)
From Stdlib Require Import ZArith Lia String Ascii.
From stdpp Require Import base gmap strings.
From S2P Require Import Prelude Doubles CxxStd.
Local Open Scope Z_scope.

(** The generated server object.  A property nothing has set yet has the
    default of the generated code. *)
Record SensorObj := {
  o_value : option double; o_minValue : option double; o_maxValue : option double;
  o_criticalHigh : option double; o_criticalLow : option double;
  o_alarmHigh : option bool; o_alarmLow : option bool }.

Definition new_object : SensorObj :=
  {| o_value := None; o_minValue := None; o_maxValue := None; o_criticalHigh := None;
     o_criticalLow := None; o_alarmHigh := None; o_alarmLow := None |}.

Definition set_value v (o : SensorObj) : SensorObj :=
  {| o_value := Some v; o_minValue := o_minValue o; o_maxValue := o_maxValue o;
     o_criticalHigh := o_criticalHigh o; o_criticalLow := o_criticalLow o;
     o_alarmHigh := o_alarmHigh o; o_alarmLow := o_alarmLow o |}.
Definition set_range lo hi (o : SensorObj) : SensorObj :=
  {| o_value := o_value o; o_minValue := Some lo; o_maxValue := Some hi;
     o_criticalHigh := o_criticalHigh o; o_criticalLow := o_criticalLow o;
     o_alarmHigh := o_alarmHigh o; o_alarmLow := o_alarmLow o |}.
Definition set_criticalHigh v (o : SensorObj) : SensorObj :=
  {| o_value := o_value o; o_minValue := o_minValue o; o_maxValue := o_maxValue o;
     o_criticalHigh := Some v; o_criticalLow := o_criticalLow o;
     o_alarmHigh := o_alarmHigh o; o_alarmLow := o_alarmLow o |}.
Definition set_criticalLow v (o : SensorObj) : SensorObj :=
  {| o_value := o_value o; o_minValue := o_minValue o; o_maxValue := o_maxValue o;
     o_criticalHigh := o_criticalHigh o; o_criticalLow := Some v;
     o_alarmHigh := o_alarmHigh o; o_alarmLow := o_alarmLow o |}.
Definition set_alarmHigh b (o : SensorObj) : SensorObj :=
  {| o_value := o_value o; o_minValue := o_minValue o; o_maxValue := o_maxValue o;
     o_criticalHigh := o_criticalHigh o; o_criticalLow := o_criticalLow o;
     o_alarmHigh := Some b; o_alarmLow := o_alarmLow o |}.
Definition set_alarmLow b (o : SensorObj) : SensorObj :=
  {| o_value := o_value o; o_minValue := o_minValue o; o_maxValue := o_maxValue o;
     o_criticalHigh := o_criticalHigh o; o_criticalLow := o_criticalLow o;
     o_alarmHigh := o_alarmHigh o; o_alarmLow := Some b |}.

(** What a poll leaves in an object. *)
Definition measured (v low high : double) (o : SensorObj) : SensorObj :=
  {| o_value := Some v; o_minValue := o_minValue o; o_maxValue := o_maxValue o;
     o_criticalHigh := Some high; o_criticalLow := Some low;
     o_alarmHigh := Some (dltb high v); o_alarmLow := Some (dltb v low) |}.

(** ** Surroundings *)
Inductive SCall :=
  | SReadFile (path : string)
  | SOpenFile (path : string)
  | SReadJson
  | SBusWait (ms : Z)
  | SSleep (ms : Z)
  | SGpioIn (chip line : Z)
  | SGetPaths (stub : string)
  | SGetAlarm (path property : string).

Class SensorEnv := {
  (** The first word of a file, empty when it does not open. *)
  se_word : list SCall -> string -> string;
  (** The contents of a file. *)
  se_contents : list SCall -> string -> option string;
  (** [thresholds.json] as read after the calls: the number at [name][key]. *)
  se_limit : list SCall -> string -> string -> option double;
  se_gpio_in : list SCall -> Z -> Z -> option Z;
  se_paths : list SCall -> string -> option (list string);
  se_alarm : list SCall -> string -> string -> option bool;
  (** The writes of other processes to the Value of objects that are handled
      while the service waits on the bus. *)
  se_writes : list SCall -> list (string * double);
  (** The directories of /sys/class/hwmon, each with the first line of the
      regular file [name] in it, if it has one. *)
  se_hwmon : list (string * option string) }.

(** A service: its own state and the objects it publishes, by path. *)
Record Host (A : Type) := { scalls : list SCall; objects : gmap string SensorObj; app : A }.
Arguments scalls {A} _.
Arguments objects {A} _.
Arguments app {A} _.
Arguments Build_Host {A} _ _ _.

Section host.
Context {A : Type}.
Definition set_scalls c (s : Host A) : Host A := Build_Host c (objects s) (app s).
Definition set_objects o (s : Host A) : Host A := Build_Host (scalls s) o (app s).
Definition set_app a (s : Host A) : Host A := Build_Host (scalls s) (objects s) a.

Definition sask {B} (f : list SCall -> B) (c : SCall) : M (Host A) B :=
  fun s => Ret (f (scalls s)) (set_scalls (c :: scalls s) s).
Definition the_app : M (Host A) A := fun s => Ret (app s) s.
Definition on_app (f : A -> A) : M (Host A) unit := modify (fun s => set_app (f (app s)) s).

(** [objects[name] = make_unique<...>(bus, path)]. *)
Definition publish (path : string) (o : SensorObj) : M (Host A) unit :=
  modify (fun s => set_objects (<[path := o]> (objects s)) s).
(** [objects[name]->...]: null when the object was never made. *)
Definition on_object (path : string) (f : SensorObj -> SensorObj) : M (Host A) unit := fun s =>
  match objects s !! path with
  | Some o => Ret tt (set_objects (<[path := f o]> (objects s)) s)
  | None => Undef NullDeref
  end.

Definition or_error {B} (o : option B) : M (Host A) B :=
  match o with Some b => ret b | None => throw DBusError end.

Context `{SensorEnv}.

(** A reading of the thresholds, and a number of it. *)
Definition read_limits : M (Host A) (list SCall) := sask (fun h => h) SReadJson.
Definition limit (data : list SCall) (name key : string) : M (Host A) double :=
  match se_limit data name key with
  | Some d => ret d
  | None => throw (RuntimeError "type_error")
  end.

Definition readFile (path : string) : M (Host A) string :=
  sask (fun h => se_word h path) (SReadFile path).
(** [bus.process_discard()] and [bus.wait(ms)]. *)
Definition written (objs : gmap string SensorObj) (w : string * double) : gmap string SensorObj :=
  alter (set_value (snd w)) (fst w) objs.
Definition bus_wait (ms : Z) : M (Host A) unit := fun s =>
  Ret tt (Build_Host (SBusWait ms :: scalls s)
            (foldl written (objects s) (se_writes (scalls s))) (app s)).

Definition get_paths (stub : string) : M (Host A) (list string) :=
  let! o := sask (fun h => se_paths h stub) (SGetPaths stub) in or_error o.
Definition get_alarm (path property : string) : M (Host A) bool :=
  let! o := sask (fun h => se_alarm h path property) (SGetAlarm path property) in or_error o.
End host.

(** ** Objects *)
Section object_lemmas.
Context {A : Type}.
Implicit Types s : Host A.

Lemma on_object_Ret p f s o :
  objects s !! p = Some o -> on_object p f s = Ret tt (set_objects (<[p := f o]> (objects s)) s).
Proof. intros E. unfold on_object. by rewrite E. Qed.

(** The five setters of a poll, on an object that exists. *)
Lemma setters_measured p o low high v s :
  objects s !! p = Some o ->
  (on_object p (set_criticalHigh high) ;;; on_object p (set_criticalLow low) ;;;
   on_object p (set_value v) ;;; on_object p (set_alarmHigh (dltb high v)) ;;;
   on_object p (set_alarmLow (dltb v low))) s
  = Ret tt (set_objects (<[p := measured v low high o]> (objects s)) s).
Proof.
  intros E. rewrite (bind_Ret _ _ _ _ _ (on_object_Ret _ _ _ _ E)).
  do 3 (erewrite bind_Ret; [|apply on_object_Ret; apply lookup_insert_eq]; cbn [objects set_objects];
    rewrite insert_insert_eq).
  erewrite on_object_Ret; [|apply lookup_insert_eq]. cbn [objects set_objects].
  by rewrite insert_insert_eq.
Qed.

Lemma written_lookup ws : forall objs p,
  foldl written objs ws !! p = None <-> objs !! p = None.
Proof.
  induction ws as [|w ws IH]; intros objs p; [done|]. simpl. rewrite IH. unfold written.
  destruct (decide (fst w = p)) as [<-|Hne].
  - rewrite lookup_alter_eq. by destruct (objs !! _).
  - by rewrite lookup_alter_ne.
Qed.

(** A write changes the value of an object only. *)
Definition same_limits (o o' : SensorObj) : Prop := forall v low high, measured v low high o = measured v low high o'.

Lemma written_same_limits ws : forall objs p o,
  objs !! p = Some o -> exists o', foldl written objs ws !! p = Some o' /\ same_limits o o'.
Proof.
  induction ws as [|w ws IH]; intros objs p o E; [by exists o|]. simpl.
  destruct (decide (fst w = p)) as [<-|Hne].
  - destruct (IH (written objs w) (fst w) (set_value (snd w) o)) as (o' & E' & S).
    { unfold written. by rewrite lookup_alter_eq, E. }
    exists o'. split; [done|]. intros v low high. by rewrite <- S.
  - apply IH. unfold written. by rewrite lookup_alter_ne.
Qed.

(** A loop whose body stores one object per element. *)
Lemma publish_loop {X} (key : X -> string) (P : X -> option SensorObj -> Prop)
    (Q : X -> SensorObj -> Prop) (body : X -> M (Host A) unit) l : forall s,
  NoDup (map key l) ->
  (forall x t, x ∈ l -> P x (objects t !! key x) ->
     exists o, body x t = Ret tt (set_objects (<[key x := o]> (objects t)) t) /\ Q x o) ->
  (forall x, x ∈ l -> P x (objects s !! key x)) ->
  exists objs, mfor l body s = Ret tt (set_objects objs s) /\
    (forall x, x ∈ l -> exists o, objs !! key x = Some o /\ Q x o) /\
    (forall p, p ∉ map key l -> objs !! p = objects s !! p).
Proof.
  induction l as [|x l IH]; intros s Hnd Hbody HP.
  { exists (objects s). destruct s. split; [done|]. split; [by intros y Hy%elem_of_nil|done]. }
  apply NoDup_cons in Hnd as [Hx Hnd].
  destruct (Hbody x s (list_elem_of_here _ _) (HP x (list_elem_of_here _ _))) as (o & E & HQ).
  set (s1 := set_objects (<[key x := o]> (objects s)) s) in *.
  destruct (IH s1 Hnd) as (objs & E' & Hin & Hout).
  { intros y t Hy. apply Hbody. by apply list_elem_of_further. }
  { intros y Hy. simpl. rewrite lookup_insert_ne; [apply HP; by apply list_elem_of_further|].
    intros Heq. apply Hx. rewrite Heq. by apply list_elem_of_fmap_2. }
  exists objs. cbn [mfor]. rewrite (bind_Ret _ _ _ _ _ E), E'. split; [done|]. split.
  - intros y [->|Hy]%elem_of_cons; [|by apply Hin].
    exists o. split; [|done]. rewrite (Hout _ Hx). apply lookup_insert_eq.
  - intros p [Hp Hp']%not_elem_of_cons. rewrite (Hout _ Hp'). simpl. by apply lookup_insert_ne.
Qed.
End object_lemmas.
