(* ===== verification/AdcSensors.v ===== *)
(** * The voltage sensors

    The LCR_ADC_sensors service: the class [ADC_sensor]
    ([ADC_manipulation.cpp]) and [main].  It reads the rails through sysfs and
    publishes their voltages with their limits and alarms. *)
From Stdlib Require Import ZArith Lia String.
From stdpp Require Import base list gmap strings.
From S2P Require Import Prelude Doubles CxxStd SensorObjects.
Local Open Scope Z_scope.

Module Adc.
Record ADC_element := {
  name : string; path : string; V_target : double; raw_reading : option Z;
  scale_coeff : option double; V_current : option double }.

Definition new_ADC (n p : string) (target : double) : ADC_element :=
  {| name := n; path := p; V_target := target; raw_reading := None; scale_coeff := None;
     V_current := None |}.
Definition set_scale c (a : ADC_element) : ADC_element :=
  {| name := name a; path := path a; V_target := V_target a; raw_reading := raw_reading a;
     scale_coeff := Some c; V_current := V_current a |}.
Definition set_raw r (a : ADC_element) : ADC_element :=
  {| name := name a; path := path a; V_target := V_target a; raw_reading := Some r;
     scale_coeff := scale_coeff a; V_current := V_current a |}.
Definition set_current v (a : ADC_element) : ADC_element :=
  {| name := name a; path := path a; V_target := V_target a; raw_reading := raw_reading a;
     scale_coeff := scale_coeff a; V_current := Some v |}.

(** The member [ADCs]; [sensors] are the objects of the host. *)
Notation ADC_sensor := (list ADC_element).

Definition voltage_path (a : ADC_element) : string :=
  ("/xyz/openbmc_project/sensors/voltage/" ++ name a)%string.
Definition adc_file (n : string) : string :=
  ("/sys/bus/iio/devices/iio:device0/in_voltage" ++ n ++ "_raw")%string.

Definition d3_3 : double := ddiv (dofZ 33) (dofZ 10).
Definition rails : ADC_sensor :=
  [new_ADC "12V_Rail" (adc_file "9") (dofZ 12); new_ADC "3_3V_Rail" (adc_file "10") d3_3;
   new_ADC "5V_Rail" (adc_file "11") (dofZ 5); new_ADC "3_3auxV_Rail" (adc_file "12") d3_3;
   new_ADC "12pauxV_Rail" (adc_file "13") (dofZ 12);
   new_ADC "12nauxV_Rail" (adc_file "14") (dofZ 12)].

Section adc.
Context `{SensorEnv}.

Definition calculate_cs : M (Host ADC_sensor) unit :=
  on_app (map (fun a => set_scale (ddiv (V_target a) (dofZ 2047)) a)).

Definition update_rail (i : nat) : M (Host ADC_sensor) unit :=
  let! l := the_app in
  let! a := of_option OutOfBounds (l !! i) in
  let! text := readFile (path a) in
  let! raw := stoi (bytes_of_string text) in
  on_app (alter (set_raw raw) i) ;;;
  let! c := init_read (scale_coeff a) in
  on_app (alter (set_current (dmul c (dofZ raw))) i).
Definition update_readings : M (Host ADC_sensor) unit :=
  let! l := the_app in mfor (seq 0 (length l)) update_rail.

(** The limits the object is made with are those of the constructor. *)
Definition expose_rail (data : list SCall) (a : ADC_element) : M (Host ADC_sensor) unit :=
  let! high := limit data (name a) "max" in
  let! low := limit data (name a) "min" in
  publish (voltage_path a)
    (set_alarmLow false (set_alarmHigh false (set_criticalLow low (set_criticalHigh high
      (set_range (dofZ 0) (dofZ 24) (set_value (dofZ 0) new_object)))))).
Definition expose_readings (data : list SCall) : M (Host ADC_sensor) unit :=
  let! l := the_app in mfor l (expose_rail data).

Definition send_rail (data : list SCall) (a : ADC_element) : M (Host ADC_sensor) unit :=
  let p := voltage_path a in
  let! high := limit data (name a) "max" in
  on_object p (set_criticalHigh high) ;;;
  let! low := limit data (name a) "min" in
  on_object p (set_criticalLow low) ;;;
  let! v := init_read (V_current a) in
  on_object p (set_value v) ;;;
  on_object p (set_alarmHigh (dltb high v)) ;;;
  on_object p (set_alarmLow (dltb v low)).
Definition send_all_readings : M (Host ADC_sensor) unit :=
  let! data := read_limits in
  bus_wait 1000 ;;;
  let! l := the_app in
  mfor l (send_rail data).

Definition new_ADC_sensor : M (Host ADC_sensor) unit :=
  let! data := read_limits in
  on_app (fun _ => rails) ;;; calculate_cs ;;; update_readings ;;; expose_readings data.

(** [main]: the start and one iteration. *)
Definition main_start : M (Host ADC_sensor) unit :=
  new_ADC_sensor ;;; sask (fun _ => tt) (SSleep 1000).
Definition main_iteration : M (Host ADC_sensor) unit :=
  update_readings ;;; send_all_readings ;;; sask (fun _ => tt) (SSleep 10).
End adc.
End Adc.
