(* ===== verification/AdcSensorsSpec.v ===== *)
(** * The voltage sensors: properties

    A poll of the service publishes, for every rail, the voltage that was
    read, the limits in force and the alarms they imply; the service keeps its
    rails and objects from the start on. *)
From Stdlib Require Import ZArith Lia String.
From stdpp Require Import base list gmap strings.
From S2P Require Import Prelude Doubles CxxStd SensorObjects AdcSensors.
Local Open Scope Z_scope.
Import Adc.

Section adc_properties.
Context `{SensorEnv}.
(** The files of the rails and the limits while the service runs. *)
Context (raw : string -> Z) (low high : string -> double).
Context (Hraw : forall h a, a ∈ rails -> forall s : Host ADC_sensor,
  stoi (bytes_of_string (se_word h (path a))) s = Ret (raw (path a)) s).
Context (Hlow : forall h a, a ∈ rails -> se_limit h (name a) "min" = Some (low (name a))).
Context (Hhigh : forall h a, a ∈ rails -> se_limit h (name a) "max" = Some (high (name a))).

(** The scaled voltage of a rail. *)
Definition voltage (a : ADC_element) : double :=
  dmul (ddiv (V_target a) (dofZ 2047)) (dofZ (raw (path a))).
Definition read (a : ADC_element) : ADC_element :=
  set_current (voltage a) (set_raw (raw (path a)) a).

(** A rail of the service, whatever was read into it. *)
Definition a_rail (a : ADC_element) : Prop :=
  (exists r, r ∈ rails /\ name a = name r /\ path a = path r /\ V_target a = V_target r) /\
  scale_coeff a = Some (ddiv (V_target a) (dofZ 2047)).

Lemma rail_reads h a (s : Host ADC_sensor) :
  a_rail a -> stoi (bytes_of_string (se_word h (path a))) s = Ret (raw (path a)) s.
Proof. intros [(r & Hr & _ & -> & _) _]. by apply Hraw. Qed.
Lemma rail_low h a : a_rail a -> se_limit h (name a) "min" = Some (low (name a)).
Proof. intros [(r & Hr & -> & _) _]. by apply Hlow. Qed.
Lemma rail_high h a : a_rail a -> se_limit h (name a) "max" = Some (high (name a)).
Proof. intros [(r & Hr & -> & _) _]. by apply Hhigh. Qed.

Lemma update_rail_Ret done a todo s :
  app s = done ++ a :: todo -> a_rail a ->
  update_rail (length done) s = Ret tt (Build_Host (SReadFile (path a) :: scalls s) (objects s)
    (done ++ read a :: todo)).
Proof.
  intros Ha Hr. unfold update_rail. rewrite (bind_Ret _ _ s (app s) s) by done.
  rewrite Ha, (list_lookup_middle done todo a) by done. cbn [of_option]. rewrite bind_ret_l.
  set (s1 := set_scalls (SReadFile (path a) :: scalls s) s).
  rewrite (bind_Ret _ _ s (se_word (scalls s) (path a)) s1) by done.
  rewrite (bind_Ret _ _ _ _ _ (rail_reads _ a s1 Hr)).
  set (s2 := set_app (alter (set_raw (raw (path a))) (length done) (app s1)) s1).
  rewrite (bind_Ret _ _ s1 tt s2) by done. destruct Hr as [_ Hs].
  unfold init_read. rewrite Hs. cbn [of_option]. rewrite bind_ret_l. unfold on_app, modify.
  f_equal. unfold set_app at 1, s2. cbn [app set_app scalls objects s1 set_scalls]. f_equal.
  rewrite Ha. replace (length done) with (length done + 0)%nat by lia.
  rewrite alter_app_r. exact (alter_app_r (set_current (voltage a)) done (set_raw (raw (path a)) a :: todo) 0).
Qed.

Lemma update_loop todo : forall done s,
  app s = done ++ todo -> Forall a_rail todo ->
  exists c, mfor (seq (length done) (length todo)) update_rail s =
    Ret tt (Build_Host c (objects s) (done ++ map read todo)).
Proof.
  induction todo as [|a todo IH]; intros done s Ha Hr.
  { exists (scalls s). rewrite app_nil_r in *. simpl. unfold ret. f_equal. destruct s; simpl in *. by subst. }
  inversion_clear Hr. cbn [length seq mfor].
  rewrite (bind_Ret _ _ _ _ _ (update_rail_Ret done a todo s Ha ltac:(done))).
  set (s1 := Build_Host _ _ _).
  destruct (IH (done ++ [read a]) s1) as [c Hc]; [simpl; by rewrite <- app_assoc|done|].
  rewrite length_app in Hc. cbn [length] in Hc. rewrite Nat.add_1_r in Hc. rewrite Hc.
  exists c. simpl. by rewrite <- app_assoc.
Qed.

Lemma update_readings_Ret s :
  Forall a_rail (app s) ->
  exists c, update_readings s = Ret tt (Build_Host c (objects s) (map read (app s))).
Proof.
  intros Hr. unfold update_readings. rewrite (bind_Ret _ _ s (app s) s) by done.
  by apply (update_loop (app s) [] s).
Qed.

Lemma send_rail_Ret data a o s :
  a_rail a -> V_current a = Some (voltage a) -> objects s !! voltage_path a = Some o ->
  send_rail data a s = Ret tt (set_objects
    (<[voltage_path a := measured (voltage a) (low (name a)) (high (name a)) o]> (objects s)) s).
Proof.
  intros Hr Hv Ho. rewrite <- (setters_measured _ _ _ _ _ _ Ho). unfold send_rail, limit.
  rewrite (rail_low _ _ Hr), (rail_high _ _ Hr), Hv. unfold init_read, of_option.
  rewrite !bind_ret_l.
  rewrite !(bind_Ret _ _ _ _ _ (on_object_Ret _ _ _ _ Ho)). by rewrite bind_ret_l.
Qed.

(** *** The service *)
(** An exposed object, up to what a poll overwrites. *)
Definition blank : SensorObj := set_range (dofZ 0) (dofZ 24) new_object.
Definition published (a : ADC_element) : SensorObj :=
  measured (voltage a) (low (name a)) (high (name a)) blank.

Definition key (a : ADC_element) : string * string * double := (name a, path a, V_target a).

(** The rails of the service, each with an object. *)
Record Adc_ok (s : Host ADC_sensor) : Prop := {
  ok_rails : map key (app s) = map key rails;
  ok_scaled : Forall a_rail (app s);
  ok_objects : forall a, a ∈ app s ->
    exists o, objects s !! voltage_path a = Some o /\ same_limits blank o }.

Lemma paths_of_keys l : map voltage_path l =
  map (fun k => ("/xyz/openbmc_project/sensors/voltage/" ++ fst (fst k))%string) (map key l).
Proof. by rewrite map_map. Qed.

Lemma rails_distinct l : map key l = map key rails -> NoDup (map voltage_path l).
Proof.
  intros E. rewrite paths_of_keys, E, <- paths_of_keys.
  apply (bool_decide_unpack _). vm_compute. exact I.
Qed.

Lemma rails_paths l : map key l = map key rails -> map voltage_path l = map voltage_path rails.
Proof. intros E. by rewrite !paths_of_keys, E. Qed.

(** No object appears but those of the rails. *)
Definition foreign (s s' : Host ADC_sensor) : Prop :=
  forall p, p ∉ map voltage_path rails -> objects s !! p = None -> objects s' !! p = None.

Lemma read_keys l : map key (map read l) = map key l.
Proof. by rewrite map_map. Qed.

Lemma read_rails l : Forall a_rail l -> Forall a_rail (map read l).
Proof. intros Hl. apply Forall_map. by eapply Forall_impl. Qed.

Lemma expose_rail_Ret data a s : a_rail a ->
  exists o, expose_rail data a s = Ret tt (set_objects (<[voltage_path a := o]> (objects s)) s) /\
    same_limits blank o.
Proof.
  intros Hr. unfold expose_rail, limit. rewrite (rail_low _ _ Hr), (rail_high _ _ Hr).
  rewrite !bind_ret_l. by eexists.
Qed.

Lemma adc_send_loop data s :
  Adc_ok s -> (forall a, a ∈ app s -> V_current a = Some (voltage a)) ->
  exists objs, mfor (app s) (send_rail data) s = Ret tt (set_objects objs s) /\
    foreign s (set_objects objs s) /\
    forall a, a ∈ app s -> objs !! voltage_path a = Some (published a).
Proof.
  intros [Hk Hr Ho] Hv.
  destruct (publish_loop voltage_path (fun a e => exists o, e = Some o /\ same_limits blank o)
    (fun a o => o = published a) (send_rail data) (app s) s (rails_distinct _ Hk))
    as (objs & E & Hin & Hout); [|by intros a Ha; apply Ho|].
  - intros a t Ha (o & Eo & Hs). exists (published a). split; [|done].
    rewrite (send_rail_Ret data a o t); [|by eapply Forall_forall|by apply Hv|done].
    by rewrite <- Hs.
  - exists objs. split; [done|]. split.
    + intros p Hp Hn. cbn [objects set_objects]. by rewrite Hout; [|rewrite (rails_paths _ Hk)].
    + intros a Ha. destruct (Hin a Ha) as (o & -> & ->). done.
Qed.

(** One iteration publishes every rail and leaves a service that can go on. *)
Lemma adc_iteration_Ret s :
  Adc_ok s -> exists s', main_iteration s = Ret tt s' /\ Adc_ok s' /\ foreign s s' /\
    forall r, r ∈ rails -> objects s' !! voltage_path r = Some (published r).
Proof.
  intros [Hk Hr Ho]. destruct (update_readings_Ret s Hr) as [c E]. set (s1 := Build_Host _ _ _) in E.
  set (s2 := set_scalls (SReadJson :: scalls s1) s1).
  set (s3 := Build_Host (SBusWait 1000 :: scalls s2)
    (foldl written (objects s2) (se_writes (scalls s2))) (app s2)).
  assert (Hok : Adc_ok s3).
  { split; [by etransitivity; [apply read_keys|]|by apply read_rails|].
    intros a (b & -> & Hb)%list_elem_of_fmap. destruct (Ho b Hb) as (o & E1 & S1).
    destruct (written_same_limits (se_writes (scalls s2)) (objects s) (voltage_path b) o E1)
      as (o' & E2 & S2).
    exists o'. split; [exact E2|]. intros v l h. by rewrite S1. }
  destruct (adc_send_loop (scalls s1) s3 Hok) as (objs & E3 & Hfor & Hpub).
  { intros a (b & -> & _)%list_elem_of_fmap. reflexivity. }
  set (s4 := set_objects objs s3) in E3. exists (set_scalls (SSleep 10 :: scalls s4) s4).
  split.
  { unfold main_iteration. rewrite (bind_Ret _ _ _ _ _ E).
    assert (Es : send_all_readings s1 = Ret tt s4); [|by rewrite (bind_Ret _ _ _ _ _ Es)].
    unfold send_all_readings. rewrite (bind_Ret _ _ s1 (scalls s1) s2) by done.
    rewrite (bind_Ret _ _ s2 tt s3) by done. by rewrite (bind_Ret _ _ s3 (app s3) s3). }
  destruct Hok as [Hk3 Hr3 Ho3]. split; [split; [done|done|]|].
  - intros a Ha. exists (published a). split; [by apply Hpub|done].
  - split; [intros p Hp Hn; apply Hfor; [done|]; by apply written_lookup|]. intros r Hin. assert (Hkr : key r ∈ map key rails) by by apply list_elem_of_fmap_2.
    rewrite <- Hk3 in Hkr. apply list_elem_of_fmap in Hkr as (a & Ea & Hin').
    injection Ea as En Ep Et.
    replace (voltage_path r) with (voltage_path a) by (unfold voltage_path; by rewrite En).
    replace (published r) with (published a); [by apply Hpub|].
    unfold published, voltage. by rewrite En, Ep, Et.
Qed.

Lemma expose_loop data s :
  map key (app s) = map key rails -> Forall a_rail (app s) ->
  exists objs, expose_readings data s = Ret tt (set_objects objs s) /\
    Adc_ok (set_objects objs s) /\ foreign s (set_objects objs s).
Proof.
  intros Hk Hr.
  destruct (publish_loop voltage_path (fun _ _ => True) (fun _ o => same_limits blank o)
    (expose_rail data) (app s) s (rails_distinct _ Hk)) as (objs & E & Hin & Hout); [|done|].
  { intros a t Ha _. apply expose_rail_Ret. by eapply Forall_forall. }
  exists objs. split; [|split; [split; [done|done|exact Hin]|]].
  2:{ intros p Hp Hn. cbn [objects set_objects]. by rewrite Hout; [|rewrite (rails_paths _ Hk)]. }
  unfold expose_readings. by rewrite (bind_Ret _ _ s (app s) s).
Qed.

Lemma main_start_Ret s : exists s', main_start s = Ret tt s' /\ Adc_ok s' /\ foreign s s'.
Proof.
  set (s1 := set_scalls (SReadJson :: scalls s) s). set (s2 := set_app rails s1).
  set (scaled := map (fun a => set_scale (ddiv (V_target a) (dofZ 2047)) a) rails).
  set (s3 := set_app scaled s2).
  assert (Hr : Forall a_rail (app s3)).
  { apply Forall_map, Forall_forall. intros a Ha. split; [by exists a|done]. }
  destruct (update_readings_Ret s3 Hr) as [c E]. set (s4 := Build_Host _ _ _) in E.
  assert (Hk4 : map key (app s4) = map key rails) by (etransitivity; [apply read_keys|done]).
  destruct (expose_loop (scalls s) s4 Hk4 (read_rails _ Hr)) as (objs & E5 & [Hk Hs Ho] & Hfor).
  exists (set_scalls (SSleep 1000 :: scalls (set_objects objs s4)) (set_objects objs s4)).
  split; [|split; [by split|exact Hfor]]. unfold main_start.
  assert (En : new_ADC_sensor s = Ret tt (set_objects objs s4)); [|by rewrite (bind_Ret _ _ _ _ _ En)].
  unfold new_ADC_sensor. rewrite (bind_Ret _ _ s (scalls s) s1) by done.
  rewrite (bind_Ret _ _ s1 tt s2) by done. rewrite (bind_Ret _ _ s2 tt s3) by done.
  by rewrite (bind_Ret _ _ _ _ _ E).
Qed.

(** The loop of [main], [n] times. *)
Fixpoint polls (n : nat) : M (Host ADC_sensor) unit :=
  match n with O => ret tt | S n' => main_iteration ;;; polls n' end.

Lemma adc_polls_Ret n : forall s, Adc_ok s ->
  exists s', polls (S n) s = Ret tt s' /\ foreign s s' /\
    forall r, r ∈ rails -> objects s' !! voltage_path r = Some (published r).
Proof.
  induction n as [|n IH]; intros s Hs; destruct (adc_iteration_Ret s Hs) as (s1 & E & Hs1 & Hf & Hp).
  - exists s1. split; [|done]. cbn [polls]. by rewrite (bind_Ret _ _ _ _ _ E).
  - destruct (IH s1 Hs1) as (s2 & E2 & Hf2 & Hp2). exists s2.
    split; [|split; [intros p Hp' Hn; apply Hf2; [done|by apply Hf]|done]]. change (polls (S (S n))) with (main_iteration ;;; polls (S n)).
    by rewrite (bind_Ret _ _ _ _ _ E).
Qed.

Lemma service_Ret n s :
  exists s', (main_start ;;; polls (S n)) s = Ret tt s' /\ foreign s s' /\
    forall r, r ∈ rails -> objects s' !! voltage_path r = Some (published r).
Proof.
  destruct (main_start_Ret s) as (s1 & E & Hs1 & F1).
  destruct (adc_polls_Ret n s1 Hs1) as (s2 & E2 & F2 & Hp).
  exists s2. split; [by rewrite (bind_Ret _ _ _ _ _ E)|]. split; [|done].
  intros p Hp' Hn. apply F2; [done|by apply F1].
Qed.

(** The service starts and polls for ever without
    failing, and after every poll the object of each of the six rails has the
    scaled reading, the limits in force and exactly the alarms they imply,
    whatever other processes wrote to the objects in between. *)
Theorem adc_service_publishes n s :
  exists s', (main_start ;;; polls (S n)) s = Ret tt s' /\
    forall r, r ∈ rails -> objects s' !! voltage_path r =
      Some (measured (dmul (ddiv (V_target r) (dofZ 2047)) (dofZ (raw (path r))))
              (low (name r)) (high (name r)) blank).
Proof.
  destruct (service_Ret n s) as (s' & E & _ & Hp). exists s'. split; [done|]. exact Hp.
Qed.
End adc_properties.

(** ** A concrete chassis *)
(** Every file of a rail holds the word, and every rail has to stay between 3
    and 13 volts. *)
Definition rails_at (word : string) : SensorEnv :=
  {| se_word := fun _ _ => word; se_contents := fun _ _ => None;
     se_limit := fun _ _ k => Some (dofZ (if String.eqb k "max" then 13 else 3));
     se_gpio_in := fun _ _ _ => None; se_paths := fun _ _ => None; se_alarm := fun _ _ _ => None;
     se_writes := fun _ => []; se_hwmon := [] |}.
Definition empty_host : Host ADC_sensor := Build_Host [] ∅ [].

Lemma adc_service_publishes_witness :
  exists s', (@main_start (rails_at "2047") ;;; @polls (rails_at "2047") 3) empty_host = Ret tt s' /\
    forall r, r ∈ rails -> objects s' !! voltage_path r =
      Some (measured (dmul (ddiv (V_target r) (dofZ 2047)) (dofZ 2047)) (dofZ 3) (dofZ 13) blank).
Proof.
  apply (@adc_service_publishes (rails_at "2047") (fun _ => 2047) (fun _ => dofZ 3) (fun _ => dofZ 13));
    intros; reflexivity.
Defined.
