(* ===== verification/TempSensors.v ===== *)
(** * The temperature sensors

    The LCR_temp_sensors service: the class [Temp_Sensor]
    ([tmp_manipulation.cpp]), the search for tmp100 devices ([utils.cpp]) and
    [main]. *)
From Stdlib Require Import ZArith Lia String Ascii.
From stdpp Require Import base list gmap strings.
From S2P Require Import Prelude Doubles CxxStd SensorObjects.
Local Open Scope Z_scope.

Module Temp.
Record sensorElement := {
  dirName : string; directory_path : string;
  reading_path : string; max_path : string; hyst_path : string;
  cur_reading : option Z }.

Definition set_cur_reading r (s : sensorElement) : sensorElement :=
  {| dirName := dirName s; directory_path := directory_path s; reading_path := reading_path s;
     max_path := max_path s; hyst_path := hyst_path s; cur_reading := Some r |}.

(** The member [sensorItems]. *)
Notation Temp_Sensor := (list sensorElement).

(** [isValidDirectory]: a regular file [name] whose first line, without
    carriage returns and newlines, is tmp100. *)
Definition line_break (c : ascii) : bool :=
  Ascii.eqb c (ascii_of_N 10) || Ascii.eqb c (ascii_of_N 13).
Fixpoint erase_breaks (s : string) : string :=
  match s with
  | EmptyString => EmptyString
  | String c s' => if line_break c then erase_breaks s' else String c (erase_breaks s')
  end.
Definition isValidDirectory (d : string * option string) : bool :=
  match snd d with
  | Some line => String.eqb (erase_breaks line) "tmp100"
  | None => false
  end.

(** What follows the last slash. *)
Fixpoint has_slash (s : string) : bool :=
  match s with
  | EmptyString => false
  | String c s' => Ascii.eqb c "/" || has_slash s'
  end.
Fixpoint after_last_slash (s : string) : string :=
  match s with
  | EmptyString => EmptyString
  | String c s' => if has_slash s then after_last_slash s' else s
  end.

Definition new_sensor (d : string) : sensorElement :=
  {| dirName := after_last_slash d; directory_path := d ++ "/";
     reading_path := (d ++ "/") ++ "temp1_input"; max_path := (d ++ "/") ++ "temp1_max";
     hyst_path := (d ++ "/") ++ "temp1_max_hyst"; cur_reading := None |}.

Definition temperature_path (n : string) : string :=
  ("/xyz/openbmc_project/sensors/temperature/" ++ n)%string.

Section temp.
Context `{SensorEnv}.

Definition explore_dir : list string := map fst (filter (fun d => Is_true (isValidDirectory d)) se_hwmon).

(** [std::ifstream(path)]. *)
Definition open_file (path : string) : M (Host Temp_Sensor) (option string) :=
  sask (fun h => se_contents h path) (SOpenFile path).

(** The values go into copies of the elements: only the result and the end of
    the loop at the first file that does not open are left. *)
Fixpoint get_file_conts (l : list sensorElement) : M (Host Temp_Sensor) Z :=
  match l with
  | [] => ret 0
  | s :: l' =>
      let! readingfilemax := open_file (max_path s) in
      let! readingfilehyst := open_file (hyst_path s) in
      match readingfilemax, readingfilehyst with
      | Some _, Some _ => get_file_conts l'
      | _, _ => ret 1
      end
  end.

(** The loop of [update_reading]; the first file that does not open ends it. *)
Fixpoint update_from (items : list nat) : M (Host Temp_Sensor) Z :=
  match items with
  | [] => ret 0
  | i :: items' =>
      let! l := the_app in
      let! s := of_option OutOfBounds (l !! i) in
      let! readingfile := open_file (reading_path s) in
      match readingfile with
      | Some text =>
          on_app (alter (set_cur_reading (extract_int (bytes_of_string text))) i) ;;;
          update_from items'
      | None => ret 1
      end
  end.
Definition update_reading : M (Host Temp_Sensor) Z :=
  let! l := the_app in update_from (seq 0 (length l)).

Definition expose_reading (data : list SCall) (name : string) : M (Host Temp_Sensor) unit :=
  let! high := limit data "TempLimits" "max" in
  let! low := limit data "TempLimits" "min" in
  publish (temperature_path name)
    (set_alarmLow false (set_alarmHigh false (set_criticalLow low (set_criticalHigh high
      (set_range (dofZ (-40)) (dofZ 80) (set_value (dofZ 0) new_object)))))).

Definition send_reading (s : sensorElement) : M (Host Temp_Sensor) unit :=
  let p := temperature_path (dirName s) in
  let! data := read_limits in
  let! highthresh := limit data "TempLimits" "max" in
  on_object p (set_criticalHigh highthresh) ;;;
  let! lowthresh := limit data "TempLimits" "min" in
  on_object p (set_criticalLow lowthresh) ;;;
  bus_wait 1000 ;;;
  let! r := init_read (cur_reading s) in
  let degrees := ddiv (dofZ r) (dofZ 1000) in
  on_object p (set_value degrees) ;;;
  on_object p (set_alarmHigh (dltb highthresh degrees)) ;;;
  on_object p (set_alarmLow (dltb degrees lowthresh)).
Definition send_all_readings : M (Host Temp_Sensor) unit :=
  let! l := the_app in mfor l send_reading.

Definition new_Temp_Sensor : M (Host Temp_Sensor) unit :=
  let! data := read_limits in
  on_app (fun l => l ++ map new_sensor explore_dir) ;;;
  let! l := the_app in
  let! _ := get_file_conts l in
  let! _ := update_reading in
  let! l := the_app in
  mfor l (fun s => expose_reading data (dirName s)).

Definition main_start : M (Host Temp_Sensor) unit :=
  new_Temp_Sensor ;;; sask (fun _ => tt) (SSleep 1000).
Definition main_iteration : M (Host Temp_Sensor) unit :=
  let! _ := update_reading in
  send_all_readings ;;;
  sask (fun _ => tt) (SSleep 10).
End temp.
End Temp.
