(* ===== verification/TempSensorsSpec.v ===== *)
(** * The temperature sensors: properties

    What one iteration of the service publishes, and what it does when the
    file of a sensor does not open. *)
From Stdlib Require Import ZArith Lia String.
From stdpp Require Import base list gmap strings.
From S2P Require Import Prelude Doubles CxxStd SensorObjects TempSensors.
Local Open Scope Z_scope.
Import Temp.

Section temp_properties.
Context `{SensorEnv}.
(** The files and the limits during an iteration; no other process writes the
    temperatures. *)
Context (file : string -> option string) (low high : double).
Context (Hfile : forall h p, se_contents h p = file p).
Context (Hlow : forall h, se_limit h "TempLimits" "min" = Some low).
Context (Hhigh : forall h, se_limit h "TempLimits" "max" = Some high).
Context (Hwrites : forall h w n, w ∈ se_writes h -> fst w <> temperature_path n).

Definition sensor_path (x : sensorElement) : string := temperature_path (dirName x).
Definition degrees (r : Z) : double := ddiv (dofZ r) (dofZ 1000).

(** The readings of an iteration: up to the first file that does not open. *)
Fixpoint fresh (l : list sensorElement) : list sensorElement :=
  match l with
  | [] => []
  | x :: l' =>
      match file (reading_path x) with
      | Some text => set_cur_reading (extract_int (bytes_of_string text)) x :: fresh l'
      | None => l
      end
  end.

Lemma fresh_paths l : map sensor_path (fresh l) = map sensor_path l.
Proof. induction l as [|x l IH]; [done|]. simpl. destruct (file _); [|done]. simpl. by rewrite IH. Qed.

Lemma update_from_Ret todo : forall done s,
  app s = done ++ todo ->
  exists c z, update_from (seq (length done) (length todo)) s =
    Ret z (Build_Host c (objects s) (done ++ fresh todo)).
Proof.
  induction todo as [|x todo IH]; intros done s Ha.
  { exists (scalls s), 0. rewrite app_nil_r in *. simpl. unfold ret. f_equal. destruct s; simpl in *. by subst. }
  cbn [length seq update_from]. rewrite (bind_Ret _ _ s (app s) s) by done.
  rewrite Ha, (list_lookup_middle done todo x) by done. cbn [of_option]. rewrite bind_ret_l.
  set (s1 := set_scalls (SOpenFile (reading_path x) :: scalls s) s).
  rewrite (bind_Ret _ _ s (file (reading_path x)) s1) by (unfold open_file, sask; by rewrite Hfile).
  cbn [fresh]. destruct (file (reading_path x)) as [text|]; [|exists (scalls s1), 1; rewrite <- Ha; done].
  set (f := set_cur_reading _). set (s2 := set_app (alter f (length done) (app s1)) s1).
  rewrite (bind_Ret _ _ s1 tt s2) by done.
  assert (Ha2 : app s2 = (done ++ [f x]) ++ todo).
  { simpl. rewrite Ha, <- app_assoc. replace (length done) with (length done + 0)%nat by lia.
    by rewrite alter_app_r. }
  destruct (IH _ s2 Ha2) as (c & z & E). rewrite length_app, Nat.add_1_r in E. rewrite E.
  exists c, z. by rewrite <- app_assoc.
Qed.

Lemma temp_waits_keep h objs n :
  foldl written objs (se_writes h) !! temperature_path n = objs !! temperature_path n.
Proof.
  assert (Hw : forall w, w ∈ se_writes h -> fst w <> temperature_path n) by (intros w; apply Hwrites).
  revert objs. induction (se_writes h) as [|w ws IH]; intros objs; [done|]. simpl.
  rewrite IH by (intros v Hv; apply Hw; by apply list_elem_of_further).
  unfold written. rewrite lookup_alter_ne; [done|]. apply Hw. apply list_elem_of_here.
Qed.

Lemma send_reading_Ret x r o s :
  cur_reading x = Some r -> objects s !! sensor_path x = Some o ->
  exists s', send_reading x s = Ret tt s' /\ app s' = app s /\
    objects s' !! sensor_path x = Some (measured (degrees r) low high o) /\
    (forall n, temperature_path n <> sensor_path x ->
       objects s' !! temperature_path n = objects s !! temperature_path n).
Proof.
  intros Hr Ho. unfold send_reading, limit. fold (sensor_path x).
  set (s1 := set_scalls (SReadJson :: scalls s) s). rewrite (bind_Ret _ _ s (scalls s) s1) by done.
  rewrite Hhigh, Hlow, bind_ret_l.
  rewrite (bind_Ret _ _ _ _ _ (on_object_Ret _ _ s1 o Ho)). rewrite bind_ret_l.
  erewrite bind_Ret; [|apply on_object_Ret; apply lookup_insert_eq].
  cbn [objects set_objects]. rewrite insert_insert_eq.
  set (o2 := set_criticalLow low (set_criticalHigh high o)). set (s2 := set_objects _ _).
  set (s3 := Build_Host (SBusWait 1000 :: scalls s2)
    (foldl written (objects s2) (se_writes (scalls s2))) (app s2)).
  rewrite (bind_Ret _ _ s2 tt s3) by done. rewrite Hr. unfold init_read, of_option.
  rewrite bind_ret_l.
  assert (E3 : objects s3 !! sensor_path x = Some o2).
  { etransitivity; [apply temp_waits_keep|]. apply lookup_insert_eq. }
  rewrite (bind_Ret _ _ _ _ _ (on_object_Ret _ _ _ _ E3)).
  erewrite bind_Ret; [|apply on_object_Ret; apply lookup_insert_eq].
  cbn [objects set_objects]. rewrite insert_insert_eq.
  erewrite on_object_Ret; [|apply lookup_insert_eq]. eexists. split; [reflexivity|].
  cbn [objects set_objects app]. rewrite !insert_insert_eq. split; [done|]. split.
  - rewrite lookup_insert_eq. done.
  - intros n Hn. rewrite lookup_insert_ne by done. etransitivity; [apply temp_waits_keep|].
    simpl. by rewrite lookup_insert_ne.
Qed.

Definition shown (s : Host Temp_Sensor) (x : sensorElement) : Prop :=
  exists r o, cur_reading x = Some r /\
    objects s !! sensor_path x = Some (measured (degrees r) low high o).

Lemma temp_send_loop l : forall s,
  NoDup (map sensor_path l) -> Forall (fun x => is_Some (cur_reading x)) l ->
  (forall x, x ∈ l -> is_Some (objects s !! sensor_path x)) ->
  exists s', mfor l send_reading s = Ret tt s' /\ app s' = app s /\
    (forall x, x ∈ l -> shown s' x) /\
    (forall n, temperature_path n ∉ map sensor_path l ->
       objects s' !! temperature_path n = objects s !! temperature_path n).
Proof.
  induction l as [|x l IH]; intros s Hnd Hr Ho.
  { exists s. split; [done|]. split; [done|]. split; [by intros x Hx%elem_of_nil|done]. }
  apply NoDup_cons in Hnd as [Hx Hnd]. inversion_clear Hr as [|? ? [r Hr1] Hr2].
  destruct (Ho x (list_elem_of_here _ _)) as [o Eo].
  destruct (send_reading_Ret x r o s Hr1 Eo) as (s1 & E1 & Ha1 & Hm & Hf).
  destruct (IH s1 Hnd Hr2) as (s2 & E2 & Ha2 & Hs & Hf2).
  { intros y Hy. unfold sensor_path. rewrite Hf; [apply Ho; by apply list_elem_of_further|].
    intros Heq. apply Hx. rewrite <- Heq. by apply (list_elem_of_fmap_2 sensor_path). }
  exists s2. cbn [mfor]. rewrite (bind_Ret _ _ _ _ _ E1). split; [done|].
  split; [by rewrite Ha2|]. split.
  - intros y [->|Hy]%elem_of_cons; [|by apply Hs]. exists r, o. split; [done|].
    unfold sensor_path in *. by rewrite Hf2.
  - intros n [Hn Hn']%not_elem_of_cons. by rewrite Hf2, Hf.
Qed.

(** An iteration of a service whose sensors have
    all been read before and have an object returns; it takes new readings up
    to the first sensor whose file does not open - that sensor and all that
    follow keep their old ones - and publishes, for every sensor, the degrees
    of its reading, the limits in force and exactly the alarms they imply. *)
Theorem temperature_poll_publishes s :
  NoDup (map sensor_path (app s)) -> Forall (fun x => is_Some (cur_reading x)) (app s) ->
  (forall x, x ∈ app s -> is_Some (objects s !! sensor_path x)) ->
  exists s', main_iteration s = Ret tt s' /\ app s' = fresh (app s) /\
    forall x, x ∈ fresh (app s) -> exists r o, cur_reading x = Some r /\
      objects s' !! sensor_path x = Some (measured (ddiv (dofZ r) (dofZ 1000)) low high o).
Proof.
  intros Hnd Hr Ho. destruct (update_from_Ret (app s) [] s eq_refl) as (c & z & E).
  set (s1 := Build_Host _ _ _) in E.
  destruct (temp_send_loop (fresh (app s)) s1) as (s2 & E2 & Ha & Hs & _).
  - by rewrite fresh_paths.
  - clear -Hr. induction Hr as [|x l Hx Hl IH]; [done|]. simpl. destruct (file _); [|by constructor].
    by constructor.
  - intros x Hx. assert (Hp : sensor_path x ∈ map sensor_path (app s)).
    { rewrite <- fresh_paths. by apply list_elem_of_fmap_2. }
    apply list_elem_of_fmap in Hp as (y & Ey & Hy). rewrite Ey. by apply Ho.
  - exists (set_scalls (SSleep 10 :: scalls s2) s2). split; [|by split].
    unfold main_iteration. assert (Eu : update_reading s = Ret z s1).
    { unfold update_reading. by rewrite (bind_Ret _ _ s (app s) s). }
    rewrite (bind_Ret _ _ _ _ _ Eu).
    assert (Es : send_all_readings s1 = Ret tt s2); [|by rewrite (bind_Ret _ _ _ _ _ Es)].
    unfold send_all_readings. by rewrite (bind_Ret _ _ s1 (app s1) s1).
Qed.
End temp_properties.

(** ** A concrete chassis *)
(** Only the file of the first sensor opens. *)
Definition first_file (p : string) : option string :=
  if String.eqb p "/sys/class/hwmon/hwmon0/temp1_input" then Some "23625"%string else None.
Definition one_sensor_lost : SensorEnv :=
  {| se_word := fun _ _ => ""%string; se_contents := fun _ => first_file;
     se_limit := fun _ _ k => Some (dofZ (if String.eqb k "max" then 80 else 0));
     se_gpio_in := fun _ _ _ => None; se_paths := fun _ _ => None; se_alarm := fun _ _ _ => None;
     se_writes := fun _ => []; se_hwmon := [] |}.

(** Two sensors that stood at 90 degrees. *)
Definition hot : list sensorElement :=
  map (fun d => set_cur_reading 90000 (new_sensor d)) ["/sys/class/hwmon/hwmon0"; "/sys/class/hwmon/hwmon1"]%string.
Definition hot_host : Host Temp_Sensor :=
  Build_Host [] (list_to_map (map (fun x => (sensor_path x, new_object)) hot)) hot.

(** The second sensor is still shown at 90 degrees, in alarm. *)
Lemma temperature_poll_publishes_witness :
  exists s', @main_iteration one_sensor_lost hot_host = Ret tt s' /\
    app s' = [set_cur_reading 23625 (new_sensor "/sys/class/hwmon/hwmon0");
              set_cur_reading 90000 (new_sensor "/sys/class/hwmon/hwmon1")] /\
    exists o, objects s' !! temperature_path "hwmon1" = Some (measured (degrees 90000) (dofZ 0) (dofZ 80) o).
Proof.
  destruct (@temperature_poll_publishes one_sensor_lost first_file (dofZ 0) (dofZ 80)
    (fun _ _ => eq_refl) (fun _ => eq_refl) (fun _ => eq_refl)
    (fun h w n Hw => match not_elem_of_nil w Hw with end) hot_host) as (s' & E & Ha & Hp).
  - apply (bool_decide_unpack _). vm_compute. exact I.
  - repeat constructor; by eexists.
  - intros x [->|[->|Hx%elem_of_nil]%elem_of_cons]%elem_of_cons; [by eexists|by eexists|done].
  - exists s'. split; [exact E|]. split; [exact Ha|].
    destruct (Hp (set_cur_reading 90000 (new_sensor "/sys/class/hwmon/hwmon1"))) as (r & o & Hr & Ho).
    { apply list_elem_of_further. apply list_elem_of_here. }
    injection Hr as <-. exists o. exact Ho.
Defined.
