(* ===== verification/MandatorySensors.v ===== *)
(** * The mandatory sensors

    The LCR_Mandatory_Sensors service ([mandatorySensors.cpp] and [main]): the
    alarms of the other sensors, gathered in the sensors VITA 46.11 asks for.
    [main] runs only the FRU health state. *)
From Stdlib Require Import ZArith Lia String.
From stdpp Require Import base list gmap strings.
From S2P Require Import Prelude Doubles SensorObjects.
Local Open Scope Z_scope.

Module Mandatory.
Definition tempstub : string := "/xyz/openbmc_project/sensors/temperature".
Definition tachstub : string := "/xyz/openbmc_project/sensors/fan_tach".
Definition adcstub : string := "/xyz/openbmc_project/sensors/voltage".
Definition mandatory_path (n : string) : string :=
  ("/xyz/openbmc_project/sensors/mandatoryNumbers/" ++ n)%string.

Section mandatory.
Context `{SensorEnv}.

(** [getProperty(Low) || getProperty(High)]. *)
Definition in_alarm (path : string) : M (Host unit) bool :=
  let! low := get_alarm path "CriticalAlarmLow" in
  if low : bool then ret true else get_alarm path "CriticalAlarmHigh".

(** A loop over all paths; the computation gives the flag so far and, when a
    call threw, the exception that ended the loop. *)
Fixpoint alarm_loop (paths : list string) (alarmactive : bool) : M (Host unit) (bool * option exn) :=
  match paths with
  | [] => ret (alarmactive, None)
  | path :: paths' =>
      let! a := try (let! a := in_alarm path in ret (inl a)) (fun e => ret (inr e)) in
      match a with
      | inl a => alarm_loop paths' (if a : bool then true else alarmactive)
      | inr e => ret (alarmactive, Some e)
      end
  end.

(** [alarm_check]: an exception ends it with the flag so far. *)
Definition alarm_check (stub : string) : M (Host unit) bool :=
  let! paths := try (let! p := get_paths stub in ret (Some p)) (fun _ => ret None) in
  match paths with
  | None => ret false
  | Some paths => let! r := alarm_loop paths false in ret (fst r)
  end.

Definition status_byte (alarmactive : bool) : Z := if alarmactive then 0x02 else 0x01.

(** Each check assigns the flag of the one before. *)
Definition health_alarms_status : M (Host unit) Z :=
  let! _ := alarm_check tempstub in
  let! _ := alarm_check tachstub in
  let! alarmactive := alarm_check adcstub in
  ret (status_byte alarmactive).

(** [get_all_alarms_status] of the voltage and the temperature state, which
    let exceptions out. *)
Definition state_alarms_status (stub : string) : M (Host unit) Z :=
  let! paths := get_paths stub in
  let! r := alarm_loop paths false in
  match snd r with
  | Some e => throw e
  | None => ret (status_byte (fst r))
  end.
Definition voltage_alarms_status : M (Host unit) Z := state_alarms_status adcstub.
Definition temperature_alarms_status : M (Host unit) Z := state_alarms_status tempstub.

Definition expose_sensor (n : string) : M (Host unit) unit := publish (mandatory_path n) new_object.
Definition update_interface (n : string) (status : M (Host unit) Z) : M (Host unit) unit :=
  let! v := status in on_object (mandatory_path n) (set_value (dofZ v)).

(** [main]: the start and one iteration. *)
Definition main_start : M (Host unit) unit :=
  let! _ := sask (fun _ => tt) (SSleep 10000) in
  expose_sensor "VSO_FRU_HEALTH" ;;;
  update_interface "VSO_FRU_HEALTH" health_alarms_status.
Definition main_iteration : M (Host unit) unit :=
  bus_wait 1000 ;;;
  update_interface "VSO_FRU_HEALTH" health_alarms_status.
End mandatory.
End Mandatory.
