(* ===== verification/MandatorySensorsSpec.v ===== *)
(** * The mandatory sensors: properties

    The FRU health sensor gathers less than it checks: every check overwrites
    the one before, so that only the voltage alarms count. *)
From Stdlib Require Import ZArith Lia String.
From stdpp Require Import base list gmap strings.
From S2P Require Import Prelude Doubles SensorObjects MandatorySensors.
Local Open Scope Z_scope.
Import Mandatory.

Section mandatory_properties.
Context `{SensorEnv}.
(** The sensors of the bus and their alarms during an iteration. *)
Context (paths : string -> option (list string)) (alarm : string -> string -> option bool).
Context (Hpaths : forall h stub, se_paths h stub = paths stub).
Context (Halarm : forall h p k, se_alarm h p k = alarm p k).

(** Whether a sensor is in alarm, when its properties can be read. *)
Definition flag (p : string) : option bool :=
  match alarm p "CriticalAlarmLow" with
  | Some true => Some true
  | Some false => alarm p "CriticalAlarmHigh"
  | None => None
  end.

(** Some sensor is in alarm before the first that cannot be read. *)
Fixpoint raised (l : list string) : bool :=
  match l with
  | [] => false
  | p :: l' => match flag p with Some a => a || raised l' | None => false end
  end.
Definition raised_under (stub : string) : bool :=
  match paths stub with Some l => raised l | None => false end.

Lemma in_alarm_eq p s : exists c,
  in_alarm p s = match flag p with Some a => Ret a (set_scalls c s) | None => Throw DBusError (set_scalls c s) end.
Proof.
  unfold in_alarm, get_alarm, flag, sask, or_error, bind. rewrite Halarm.
  destruct (alarm p "CriticalAlarmLow") as [[|]|]; [by eexists| |by eexists].
  simpl. rewrite Halarm. destruct (alarm p "CriticalAlarmHigh"); by eexists.
Qed.

Lemma alarm_loop_Ret l : forall a s, exists e s',
  alarm_loop l a s = Ret (a || raised l, e) s' /\ objects s' = objects s /\
  (e = None <-> Forall (fun p => is_Some (flag p)) l).
Proof.
  induction l as [|p l IH]; intros a s; [exists None, s; by rewrite orb_false_r|].
  cbn [alarm_loop raised]. destruct (in_alarm_eq p s) as [c E].
  destruct (flag p) as [b|] eqn:Ef.
  - destruct (IH (if b then true else a) (set_scalls c s)) as (e & s' & E' & Ho & He).
    exists e, s'. split.
    + rewrite (bind_Ret _ _ s (inl b) (set_scalls c s)); [|by unfold try; rewrite (bind_Ret _ _ _ _ _ E)].
      rewrite E'. do 2 f_equal. by destruct a, b, (raised l).
    + split; [done|]. rewrite He, Forall_cons, Ef. split; [by eauto|by intros [_ ?]].
  - exists (Some DBusError), (set_scalls c s). split.
    + rewrite (bind_Ret _ _ s (inr DBusError) (set_scalls c s)); [by rewrite orb_false_r|].
      unfold try, bind. by rewrite E.
    + split; [done|]. rewrite Forall_cons, Ef. split; [done|]. by intros [[? ?] _].
Qed.

Lemma alarm_check_Ret stub s : exists s',
  alarm_check stub s = Ret (raised_under stub) s' /\ objects s' = objects s.
Proof.
  unfold alarm_check, raised_under. set (s1 := set_scalls (SGetPaths stub :: scalls s) s).
  assert (E : try (let! p := get_paths stub in ret (Some p)) (fun _ => ret None) s = Ret (paths stub) s1).
  { unfold try, get_paths, sask, or_error, bind. rewrite Hpaths. by destruct (paths stub). }
  rewrite (bind_Ret _ _ _ _ _ E). destruct (paths stub) as [l|]; [|by exists s1].
  destruct (alarm_loop_Ret l false s1) as (e & s2 & E2 & Ho & _). exists s2.
  by rewrite (bind_Ret _ _ _ _ _ E2).
Qed.

(** In every iteration the FRU health sensor, once
    exposed, is given 2 exactly when a voltage sensor is in alarm (before the
    first that cannot be read) and 1 otherwise: the temperature and fan
    alarms that are checked before do not count. *)
Theorem fru_health_only_voltage s :
  is_Some (objects s !! mandatory_path "VSO_FRU_HEALTH") ->
  exists s' o, main_iteration s = Ret tt s' /\
    objects s' !! mandatory_path "VSO_FRU_HEALTH" = Some o /\
    o_value o = Some (dofZ (if raised_under adcstub then 2 else 1)).
Proof.
  intros [o Ho]. set (s1 := Build_Host (SBusWait 1000 :: scalls s)
    (foldl written (objects s) (se_writes (scalls s))) (app s)).
  destruct (written_same_limits (se_writes (scalls s)) _ _ _ Ho) as (o1 & E1 & _).
  destruct (alarm_check_Ret tempstub s1) as (s2 & Et & O2).
  destruct (alarm_check_Ret tachstub s2) as (s3 & Eh & O3).
  destruct (alarm_check_Ret adcstub s3) as (s4 & Ev & O4).
  assert (E4 : objects s4 !! mandatory_path "VSO_FRU_HEALTH" = Some o1) by (by rewrite O4, O3, O2).
  set (v := status_byte (raised_under adcstub)).
  exists (set_objects (<[mandatory_path "VSO_FRU_HEALTH" := set_value (dofZ v) o1]> (objects s4)) s4),
    (set_value (dofZ v) o1).
  split; [|split; [apply lookup_insert_eq|done]].
  unfold main_iteration. rewrite (bind_Ret _ _ s tt s1) by done. unfold update_interface.
  assert (Eh4 : health_alarms_status s1 = Ret v s4).
  { unfold health_alarms_status.
    by rewrite (bind_Ret _ _ _ _ _ Et), (bind_Ret _ _ _ _ _ Eh), (bind_Ret _ _ _ _ _ Ev). }
  rewrite (bind_Ret _ _ _ _ _ Eh4). by apply on_object_Ret.
Qed.
End mandatory_properties.

(** ** A concrete chassis *)
(** One temperature sensor, in alarm, and one rail, within its limits. *)
Definition two_sensors (stub : string) : option (list string) :=
  if String.eqb stub tempstub then Some ["hwmon0"%string]
  else if String.eqb stub adcstub then Some ["12V_Rail"%string] else None.
Definition hot_alarm (p k : string) : option bool :=
  Some (String.eqb p "hwmon0" && String.eqb k "CriticalAlarmHigh").
Definition hot_chassis : SensorEnv :=
  {| se_word := fun _ _ => ""%string; se_contents := fun _ _ => None; se_limit := fun _ _ _ => None;
     se_gpio_in := fun _ _ _ => None; se_paths := fun _ => two_sensors;
     se_alarm := fun _ => hot_alarm; se_writes := fun _ => []; se_hwmon := [] |}.

Lemma fru_health_only_voltage_witness :
  raised_under two_sensors hot_alarm tempstub = true /\
  exists s' o, @main_iteration hot_chassis
      (Build_Host [] {[ mandatory_path "VSO_FRU_HEALTH" := new_object ]} tt) = Ret tt s' /\
    objects s' !! mandatory_path "VSO_FRU_HEALTH" = Some o /\ o_value o = Some (dofZ 1).
Proof.
  split; [reflexivity|].
  apply (@fru_health_only_voltage hot_chassis two_sensors hot_alarm (fun _ _ => eq_refl)
    (fun _ _ _ => eq_refl)).
  exists new_object. apply lookup_insert_eq.
Defined.
