(* ===== verification/GpioMonitor.v ===== *)
(** * The GPIO monitor

    The LCR_GPIO_Mon service: the class [GpioMonitor] ([lcr_gpio_mon.cpp]) and
    [main].  It publishes the pins of the backplane and follows their
    changes.  Reading a pin requests its line as an input. *)
From Stdlib Require Import ZArith Lia String.
From stdpp Require Import base list gmap strings pretty.
From S2P Require Import Prelude Doubles SensorObjects.
Local Open Scope Z_scope.

Module Gpio.
Record gpio_info := { input : bool; chip : Z; line : Z; status : Z; name : string }.

Definition populate_info (i : bool) (c l s : Z) (n : string) : gpio_info :=
  {| input := i; chip := c; line := l; status := s; name := n |}.
Definition set_status v (g : gpio_info) : gpio_info :=
  {| input := input g; chip := chip g; line := line g; status := v; name := name g |}.

(** The member [available_gpios]. *)
Notation GpioMonitor := (list gpio_info).

Definition sysreset : gpio_info := populate_info false 1 0 0 "sysreset".
Definition nvmro : gpio_info := populate_info true 2 4 0 "nvmro".
Definition gdiscrete : gpio_info := populate_info false 2 0 0 "gdiscrete".
Definition psenable : gpio_info := populate_info false 2 3 0 "psenable".
Definition ps1inh : gpio_info := populate_info false 2 2 0 "ps1inh".
Definition ps1fail : gpio_info := populate_info true 3 0 0 "ps1fail".
Definition ps2inh : gpio_info := populate_info false 2 1 0 "ps2inh".
Definition ps2fail : gpio_info := populate_info true 3 1 0 "ps2fail".

(** Pins [BP_GPIO_OUT0..7] on lines 8..15 and [BP_GPIO_IN0..7] on 0..7. *)
Definition BP_GPIO_OUT (n : nat) : gpio_info :=
  populate_info false 0 (8 + Z.of_nat n) 0 ("BP_GPIO_OUT" ++ pretty n).
Definition BP_GPIO_IN (n : nat) : gpio_info :=
  populate_info true 0 (Z.of_nat n) 0 ("BP_GPIO_IN" ++ pretty n).
Definition gpio_list : list gpio_info :=
  map BP_GPIO_OUT (seq 0 8) ++ map BP_GPIO_IN (seq 0 8) ++ [nvmro; ps1fail; ps2fail].

Definition gpio_path (g : gpio_info) : string := ("/xyz/openbmc_project/gpio/" ++ name g)%string.

Section gpio.
Context `{SensorEnv}.

Definition build_gpio_list : M (Host GpioMonitor) unit := on_app (fun l => l ++ gpio_list).

(** Whether the pin changed; an error is no change. *)
Definition readgpio (i : nat) : M (Host GpioMonitor) bool :=
  let! l := the_app in
  let! g := of_option OutOfBounds (l !! i) in
  let! value := sask (fun h => se_gpio_in h (chip g) (line g)) (SGpioIn (chip g) (line g)) in
  match value with
  | None => ret false
  | Some value =>
      on_app (alter (set_status value) i) ;;;
      ret (negb (value =? status g))
  end.

Definition update_bus (i : nat) : M (Host GpioMonitor) unit :=
  let! l := the_app in
  let! g := of_option OutOfBounds (l !! i) in
  on_object (gpio_path g) (set_value (dofZ (status g))).

Definition readallpins : M (Host GpioMonitor) unit :=
  let! l := the_app in
  mfor (seq 0 (length l)) (fun i =>
    let! gpiostatus := readgpio i in
    if gpiostatus : bool then update_bus i else ret tt).
Definition initallpins : M (Host GpioMonitor) unit :=
  let! l := the_app in
  mfor (seq 0 (length l)) (fun i => let! _ := readgpio i in ret tt).

Definition expose_gpio (g : gpio_info) : M (Host GpioMonitor) unit :=
  publish (gpio_path g) (set_range (dofZ (-1)) (dofZ 2) (set_value (dofZ (status g)) new_object)).
Definition expose_gpios : M (Host GpioMonitor) unit :=
  let! l := the_app in
  mfor l expose_gpio ;;;
  mfor [sysreset; gdiscrete; psenable; ps1inh; ps2inh] expose_gpio.

Definition new_GpioMonitor : M (Host GpioMonitor) unit :=
  build_gpio_list ;;; initallpins ;;; expose_gpios.

Definition run_monitor : M (Host GpioMonitor) unit :=
  bus_wait 100 ;;; readallpins.
(** One iteration of [main]; [ts] is 0.1, so the period is 100 ms. *)
Definition main_iteration : M (Host GpioMonitor) unit :=
  run_monitor ;;; sask (fun _ => tt) (SSleep 100).
End gpio.
End Gpio.
