(* ===== verification/GpioMonitorSpec.v ===== *)
(** * The GPIO monitor: properties

    From its start on, the object of every pin the monitor follows shows the
    pin, although only changes are published. *)
From Stdlib Require Import ZArith Lia String.
From stdpp Require Import base list gmap strings pretty.
From S2P Require Import Prelude Doubles SensorObjects GpioMonitor.
Local Open Scope Z_scope.
Import Gpio.

Section gpio_properties.
Context `{SensorEnv}.
(** The levels of the pins, [None] for a line that cannot be read, and no
    other process writes the objects of the pins that are followed. *)
Context (pin : Z -> Z -> option Z).
Context (Hpin : forall h c l, se_gpio_in h c l = pin c l).
Context (Hwrites : forall h w, w ∈ se_writes h -> fst w ∉ map gpio_path gpio_list).

Definition pinned (g : gpio_info) : gpio_info :=
  match pin (chip g) (line g) with Some v => set_status v g | None => g end.

Lemma pinned_path g : gpio_path (pinned g) = gpio_path g.
Proof. unfold pinned. by destruct (pin _ _). Qed.
Lemma pinned_paths l : map gpio_path (map pinned l) = map gpio_path l.
Proof. rewrite map_map. apply map_ext. apply pinned_path. Qed.
Lemma pinned_idem g : pinned (pinned g) = pinned g.
Proof. unfold pinned. destruct (pin (chip g) (line g)) eqn:E; [simpl; by rewrite E|by rewrite E]. Qed.

Lemma pinned_twice l : map pinned (map pinned l) = map pinned l.
Proof. rewrite map_map. apply map_ext, pinned_idem. Qed.

(** The object of a pin shows its status. *)
Definition follows (objs : gmap string SensorObj) (g : gpio_info) : Prop :=
  exists o, objs !! gpio_path g = Some o /\ o_value o = Some (dofZ (status g)).

Lemma readgpio_Ret done g todo (s : Host GpioMonitor) :
  app s = done ++ g :: todo ->
  readgpio (length done) s = Ret (negb (status (pinned g) =? status g))
    (Build_Host (SGpioIn (chip g) (line g) :: scalls s) (objects s) (done ++ pinned g :: todo)).
Proof.
  intros Ha. unfold readgpio. rewrite (bind_Ret _ _ s (app s) s) by done.
  rewrite Ha, (list_lookup_middle done todo g) by done. cbn [of_option]. rewrite bind_ret_l.
  set (s1 := set_scalls (SGpioIn (chip g) (line g) :: scalls s) s).
  rewrite (bind_Ret _ _ s (pin (chip g) (line g)) s1) by (unfold sask; by rewrite Hpin).
  unfold pinned. destruct (pin (chip g) (line g)) as [v|].
  - set (s2 := set_app (alter (set_status v) (length done) (app s1)) s1).
    rewrite (bind_Ret _ _ s1 tt s2) by done. unfold ret. f_equal. unfold s2, set_app. f_equal.
    simpl. rewrite Ha. replace (length done) with (length done + 0)%nat by lia.
    by rewrite alter_app_r.
  - rewrite Z.eqb_refl. unfold ret. f_equal. by rewrite <- Ha.
Qed.

Lemma init_loop todo : forall done (s : Host GpioMonitor),
  app s = done ++ todo ->
  exists c, mfor (seq (length done) (length todo)) (fun i => let! _ := readgpio i in ret tt) s =
    Ret tt (Build_Host c (objects s) (done ++ map pinned todo)).
Proof.
  induction todo as [|g todo IH]; intros done s Ha.
  { exists (scalls s). rewrite app_nil_r in *. simpl. unfold ret. f_equal. destruct s; simpl in *. by subst. }
  cbn [length seq mfor]. set (s1 := Build_Host (SGpioIn (chip g) (line g) :: scalls s) (objects s)
    (done ++ pinned g :: todo)).
  rewrite (bind_Ret _ _ s tt s1) by (rewrite (bind_Ret _ _ _ _ _ (readgpio_Ret done g todo s Ha)); done).
  destruct (IH (done ++ [pinned g]) s1) as [c Hc]; [simpl; by rewrite <- app_assoc|].
  rewrite length_app, Nat.add_1_r in Hc. rewrite Hc. exists c. by rewrite <- app_assoc.
Qed.

(** One pin of [readallpins]. *)
Lemma pin_step done g todo (s : Host GpioMonitor) :
  app s = done ++ g :: todo -> NoDup (map gpio_path (app s)) ->
  (forall x, x ∈ app s -> follows (objects s) x) ->
  exists s', (let! gpiostatus := readgpio (length done) in
              if gpiostatus : bool then update_bus (length done) else ret tt) s = Ret tt s' /\
    app s' = done ++ pinned g :: todo /\ (forall x, x ∈ app s' -> follows (objects s') x).
Proof.
  intros Ha Hnd Hf. rewrite (bind_Ret _ _ _ _ _ (readgpio_Ret done g todo s Ha)).
  set (s1 := Build_Host _ _ _). rewrite Ha in Hnd, Hf.
  destruct (Z.eqb_spec (status (pinned g)) (status g)) as [Es|Es]; cbn [negb].
  - exists s1. split; [done|]. split; [done|]. intros x Hx. simpl in Hx |- *.
    apply elem_of_app in Hx as [Hx|[->|Hx]%elem_of_cons].
    + apply Hf. apply elem_of_app. by left.
    + unfold follows. rewrite Es, pinned_path. apply Hf. apply elem_of_app. right. apply list_elem_of_here.
    + apply Hf. apply elem_of_app. right. by apply list_elem_of_further.
  - unfold update_bus. rewrite (bind_Ret _ _ s1 (app s1) s1) by done.
    cbn [app s1]. rewrite (list_lookup_middle done todo (pinned g)) by done. cbn [of_option].
    rewrite bind_ret_l.
    destruct (Hf g) as (o & Eo & _); [apply elem_of_app; right; apply list_elem_of_here|].
    rewrite <- pinned_path in Eo. rewrite (on_object_Ret _ _ s1 o Eo). eexists. split; [done|].
    split; [done|]. intros x Hx. unfold follows. cbn [objects set_objects].
    destruct (decide (gpio_path x = gpio_path (pinned g))) as [Ep|Ep].
    + rewrite Ep, lookup_insert_eq. eexists. split; [done|]. simpl. do 2 f_equal.
      assert (Hnd' : NoDup (map gpio_path (done ++ pinned g :: todo))).
      { rewrite map_app in *. simpl in *. by rewrite pinned_path. }
      assert (Hin : pinned g ∈ done ++ pinned g :: todo)
        by (apply elem_of_app; right; apply list_elem_of_here).
      by rewrite (NoDup_map_inj gpio_path _ x (pinned g) Hnd' Hx Hin Ep).
    + rewrite lookup_insert_ne by done. simpl in Hx. apply elem_of_app in Hx as [Hx|[->|Hx]%elem_of_cons].
      * apply Hf. apply elem_of_app. by left.
      * done.
      * apply Hf. apply elem_of_app. right. by apply list_elem_of_further.
Qed.

Lemma readall_loop todo : forall done (s : Host GpioMonitor),
  app s = done ++ todo -> NoDup (map gpio_path (app s)) ->
  (forall x, x ∈ app s -> follows (objects s) x) ->
  exists s', mfor (seq (length done) (length todo)) (fun i =>
      let! gpiostatus := readgpio i in if gpiostatus : bool then update_bus i else ret tt) s
      = Ret tt s' /\
    app s' = done ++ map pinned todo /\ (forall x, x ∈ app s' -> follows (objects s') x).
Proof.
  induction todo as [|g todo IH]; intros done s Ha Hnd Hf.
  { exists s. rewrite app_nil_r in *. done. }
  cbn [length seq mfor]. destruct (pin_step done g todo s Ha Hnd Hf) as (s1 & E & Ha1 & Hf1).
  rewrite (bind_Ret _ _ _ _ _ E).
  destruct (IH (done ++ [pinned g]) s1) as (s2 & E2 & Ha2 & Hf2); [by rewrite <- app_assoc| |done|].
  { rewrite Ha1, map_app. rewrite Ha, map_app in Hnd. simpl in *. by rewrite pinned_path. }
  rewrite length_app, Nat.add_1_r in E2. exists s2. split; [done|].
  split; [by rewrite Ha2, <- app_assoc|done].
Qed.

(** The monitor after its start: the pins of the list, each shown. *)
Record Gpio_ok (s : Host GpioMonitor) : Prop := {
  ok_pins : map pinned (app s) = map pinned gpio_list;
  ok_paths : map gpio_path (app s) = map gpio_path gpio_list;
  ok_follows : forall g, g ∈ app s -> follows (objects s) g }.

Lemma gpio_paths_distinct :
  NoDup (map gpio_path (gpio_list ++ [sysreset; gdiscrete; psenable; ps1inh; ps2inh])).
Proof. apply (bool_decide_unpack _). vm_compute. exact I. Qed.

Lemma gpio_waits_keep h objs p :
  p ∈ map gpio_path gpio_list -> foldl written objs (se_writes h) !! p = objs !! p.
Proof.
  intros Hp. assert (Hw : forall w, w ∈ se_writes h -> fst w <> p)
    by (intros w Hw E; apply (Hwrites h w Hw); by rewrite E).
  revert objs. induction (se_writes h) as [|w ws IH]; intros objs; [done|]. simpl.
  rewrite IH by (intros v Hv; apply Hw; by apply list_elem_of_further).
  unfold written. rewrite lookup_alter_ne; [done|]. apply Hw. apply list_elem_of_here.
Qed.

Lemma gpio_iteration_Ret s :
  Gpio_ok s -> exists s', main_iteration s = Ret tt s' /\ Gpio_ok s' /\
    app s' = map pinned gpio_list.
Proof.
  intros [Hp Hk Hf].
  set (s1 := Build_Host (SBusWait 100 :: scalls s) (foldl written (objects s) (se_writes (scalls s))) (app s)).
  destruct (readall_loop (app s) [] s1 eq_refl) as (s2 & E & Ha & Hf2).
  { simpl. rewrite Hk. pose proof gpio_paths_distinct as Hd. rewrite map_app in Hd.
    by apply NoDup_app in Hd as [Hd _]. }
  { intros g Hg. unfold follows. simpl.
    rewrite gpio_waits_keep; [by apply Hf|]. rewrite <- Hk. by apply (list_elem_of_fmap_2 gpio_path). }
  exists (set_scalls (SSleep 100 :: scalls s2) s2). split.
  { unfold main_iteration. assert (Er : run_monitor s = Ret tt s2); [|by rewrite (bind_Ret _ _ _ _ _ Er)].
    unfold run_monitor. rewrite (bind_Ret _ _ s tt s1) by done. unfold readallpins.
    by rewrite (bind_Ret _ _ s1 (app s1) s1). }
  change (app s2 = map pinned (app s)) in Ha. rewrite Hp in Ha. split; [|exact Ha].
  split; cbn [app objects set_scalls]; [| |exact Hf2].
  - by rewrite Ha, pinned_twice.
  - by rewrite Ha, pinned_paths.
Qed.

Lemma expose_Ret g (t : Host GpioMonitor) : expose_gpio g t = Ret tt (set_objects
  (<[gpio_path g := set_range (dofZ (-1)) (dofZ 2) (set_value (dofZ (status g)) new_object)]>
     (objects t)) t).
Proof. done. Qed.

Lemma start_Ret s : app s = [] -> exists s', new_GpioMonitor s = Ret tt s' /\ Gpio_ok s'.
Proof.
  intros Hs. set (s1 := set_app (app s ++ gpio_list) s).
  destruct (init_loop gpio_list [] s1) as [c E]; [simpl; by rewrite Hs|].
  set (s2 := Build_Host c _ _) in E. pose proof gpio_paths_distinct as Hd.
  rewrite map_app in Hd. apply NoDup_app in Hd as (Hd1 & Hd12 & Hd2).
  rewrite <- pinned_paths in Hd1, Hd12.
  set (Q := fun g o => o_value o = Some (dofZ (status g))).
  assert (Hbody : forall (l : list gpio_info) g (t : Host GpioMonitor), g ∈ l -> True ->
    exists o, expose_gpio g t = Ret tt (set_objects (<[gpio_path g := o]> (objects t)) t) /\ Q g o)
    by (intros l g t _ _; rewrite expose_Ret; by eexists).
  destruct (publish_loop gpio_path (fun _ _ => True) Q expose_gpio (app s2) s2 Hd1 (Hbody _))
    as (objs1 & E1 & Hin1 & _); [done|].
  destruct (publish_loop gpio_path (fun _ _ => True) Q expose_gpio
    [sysreset; gdiscrete; psenable; ps1inh; ps2inh] (set_objects objs1 s2) Hd2 (Hbody _))
    as (objs2 & E2 & _ & Hout2); [done|].
  exists (set_objects objs2 (set_objects objs1 s2)). split.
  - unfold new_GpioMonitor. rewrite (bind_Ret _ _ s tt s1) by done.
    rewrite (bind_Ret _ _ s1 tt s2).
    2:{ unfold initallpins. rewrite (bind_Ret _ _ s1 (app s1) s1) by done. simpl. by rewrite Hs. }
    unfold expose_gpios. rewrite (bind_Ret _ _ s2 (app s2) s2) by done.
    by rewrite (bind_Ret _ _ _ _ _ E1).
  - split; cbn [app objects set_objects s2]; [apply pinned_twice|apply pinned_paths|].
    intros g Hg. destruct (Hin1 g Hg) as (o & Eo & HQ). exists o. split; [|done].
    rewrite Hout2; [done|]. apply Hd12. by apply (list_elem_of_fmap_2 gpio_path).
Qed.

(** The loop of [main], [n] times. *)
Fixpoint polls (n : nat) : M (Host GpioMonitor) unit :=
  match n with O => ret tt | S n' => main_iteration ;;; polls n' end.

Lemma gpio_polls_Ret n : forall s, Gpio_ok s -> exists s', polls (S n) s = Ret tt s' /\ Gpio_ok s' /\
  app s' = map pinned gpio_list.
Proof.
  induction n as [|n IH]; intros s Hs; destruct (gpio_iteration_Ret s Hs) as (s1 & E & Hs1 & Ha).
  - exists s1. split; [|done]. cbn [polls]. by rewrite (bind_Ret _ _ _ _ _ E).
  - destruct (IH s1 Hs1) as (s2 & E2 & H2). exists s2. split; [|done].
    change (polls (S (S n))) with (main_iteration ;;; polls (S n)).
    by rewrite (bind_Ret _ _ _ _ _ E).
Qed.

(** The monitor starts and runs for ever without
    failing, whichever lines can be read, and after every iteration the
    object of each of its nineteen pins has the level of the pin, or the
    initial 0 for a line that cannot be read. *)
Theorem gpio_monitor_follows_pins n s :
  app s = [] ->
  exists s', (new_GpioMonitor ;;; polls (S n)) s = Ret tt s' /\
    forall g, g ∈ gpio_list -> exists o, objects s' !! gpio_path g = Some o /\
      o_value o = Some (dofZ (default 0 (pin (chip g) (line g)))).
Proof.
  intros Hs. destruct (start_Ret s Hs) as (s1 & E1 & H1). destruct (gpio_polls_Ret n s1 H1) as (s2 & E2 & H2 & Ha).
  exists s2. split; [by rewrite (bind_Ret _ _ _ _ _ E1)|]. intros g Hg.
  destruct (ok_follows _ H2 (pinned g)) as (o & Eo & Hv).
  { rewrite Ha. by apply (list_elem_of_fmap_2 pinned). }
  rewrite pinned_path in Eo. exists o. split; [done|]. rewrite Hv. unfold pinned.
  destruct (pin (chip g) (line g)); [done|]. simpl. do 2 f_equal.
  assert (Hz : Forall (fun g => status g = 0) gpio_list) by (repeat constructor).
  rewrite (proj1 (Forall_forall _ _) Hz g Hg). reflexivity.
Qed.
End gpio_properties.

(** ** A concrete backplane *)
(** Input 6, the switch, is high; the lines of chip 3 cannot be read. *)
Definition switch_on (c l : Z) : option Z :=
  if c =? 3 then None else Some (if (c =? 0) && (l =? 6) then 1 else 0).
Definition backplane : SensorEnv :=
  {| se_word := fun _ _ => ""%string; se_contents := fun _ _ => None; se_limit := fun _ _ _ => None;
     se_gpio_in := fun _ => switch_on; se_paths := fun _ _ => None; se_alarm := fun _ _ _ => None;
     se_writes := fun _ => [("/xyz/openbmc_project/gpio/psenable"%string, dofZ 1)]; se_hwmon := [] |}.

Lemma gpio_monitor_follows_pins_witness :
  exists s' o, (@new_GpioMonitor backplane ;;; @polls backplane 2) (Build_Host [] ∅ []) = Ret tt s' /\
    objects s' !! "/xyz/openbmc_project/gpio/BP_GPIO_IN6"%string = Some o /\
    o_value o = Some (dofZ 1).
Proof.
  assert (Hw : forall h w, w ∈ @se_writes backplane h -> fst w ∉ map gpio_path gpio_list).
  { intros h w ->%list_elem_of_singleton. apply (bool_decide_unpack _). vm_compute. exact I. }
  destruct (@gpio_monitor_follows_pins backplane switch_on (fun _ _ _ => eq_refl) Hw 1 (Build_Host [] ∅ [])
    eq_refl) as (s' & E & Hp).
  destruct (Hp (BP_GPIO_IN 6)) as (o & Eo & Hv).
  { by apply (list_elem_of_lookup_2 _ 14). }
  exists s', o. split; [exact E|]. split; [exact Eo|exact Hv].
Defined.
