(* ===== verification/SensorChain.v ===== *)
(** * From the sensors to the power supply

    The boot manager reads over D-Bus what the sensor services publish.  The
    class [BusView] is what the manager may rely on; under it, a poll of the
    manager reacts to the published alarms and to nothing else, and composed
    with the service of the voltage rails: a rail outside its limits cuts the
    power. *)
From Stdlib Require Import ZArith Lia String.
From stdpp Require Import base list gmap strings.
From S2P Require Import Prelude Doubles CxxStd SensorObjects AdcSensors AdcSensorsSpec.
From S2P Require Import BootManager BootManagerSpec.
Local Open Scope Z_scope.

(** ** The view of the bus *)
Definition under (stub p : string) : bool := String.prefix (stub ++ "/") p.

(** The mapper lists the objects below a path, and their properties are what
    the services set. *)
Class BusView (objs : gmap string SensorObj) `{BootEnv} : Prop := {
  view_paths : forall h stub, exists paths, be_paths h stub = Some paths /\
    forall p, p ∈ paths <-> under stub p = true /\ is_Some (objs !! p);
  view_low : forall h p o, objs !! p = Some o -> be_alarm h p "CriticalAlarmLow" = o_alarmLow o;
  view_high : forall h p o, objs !! p = Some o -> be_alarm h p "CriticalAlarmHigh" = o_alarmHigh o;
  view_value : forall h p o, objs !! p = Some o -> be_value h p = o_value o }.

(** An object after its first poll. *)
Definition complete (o : SensorObj) : Prop :=
  is_Some (o_alarmLow o) /\ is_Some (o_alarmHigh o) /\ is_Some (o_value o).
Definition alarmed (o : SensorObj) : bool :=
  bool_decide (o_alarmLow o = Some true \/ o_alarmHigh o = Some true).

(** ** Computations that drive nothing *)
Definition is_out (c : BCall) : bool := match c with BGpioOut _ _ _ => true | _ => false end.
Definition outs (h : list BCall) : list BCall := filter is_out h.
Definition calm (b b' : Boot) : Prop :=
  outs (calls b') = outs (calls b) /\ wiring (mgr b') = wiring (mgr b).

Section calm.
Context `{BootEnv}.

(** It returns, and drives nothing. *)
Definition calmly {A} (m : M Boot A) : Prop :=
  forall b, exists a b', m b = Ret a b' /\ calm b b'.

Lemma calm_refl b : calm b b.
Proof. done. Qed.
Lemma calm_trans b1 b2 b3 : calm b1 b2 -> calm b2 b3 -> calm b1 b3.
Proof. intros [H1 H2] [H3 H4]. by split; etransitivity. Qed.

Lemma calmly_bind {A B} (m : M Boot A) (k : A -> M Boot B) :
  calmly m -> (forall a, calmly (k a)) -> calmly (bind m k).
Proof.
  intros Hm Hk b. destruct (Hm b) as (a & b1 & E & C1). destruct (Hk a b1) as (c & b2 & E2 & C2).
  exists c, b2. rewrite (bind_Ret _ _ _ _ _ E). split; [done|]. by eapply calm_trans.
Qed.
Lemma calmly_ret {A} (a : A) : calmly (ret a).
Proof. intros b. by exists a, b. Qed.
Lemma calmly_get : calmly get.
Proof. intros b. by exists b, b. Qed.
Lemma calmly_the_mgr : calmly the_mgr.
Proof. intros b. by exists (mgr b), b. Qed.
Lemma calmly_ask {A} (f : list BCall -> A) c : outs [c] = [] -> calmly (ask f c).
Proof.
  intros Hc b. exists (f (calls b)), (set_calls (c :: calls b) b). split; [done|]. split; [|done].
  change (outs ([c] ++ calls b) = outs (calls b)). unfold outs in *. by rewrite filter_app, Hc.
Qed.
Lemma calmly_sleep ms : calmly (sleep_ms ms).
Proof. by apply calmly_ask. Qed.
Lemma calmly_log_bytes l : calmly (log_bytes l).
Proof. intros b. by eexists _, _. Qed.
Lemma calmly_on_mgr f : (forall m, wiring (f m) = wiring m) -> calmly (on_mgr f).
Proof. intros Hf b. eexists _, _. split; [reflexivity|]. split; [done|apply Hf]. Qed.
Lemma calmly_if {A} (c : bool) (m m' : M Boot A) : calmly m -> calmly m' -> calmly (if c then m else m').
Proof. by destruct c. Qed.
End calm.

Create HintDb calm.
#[export] Hint Resolve calmly_ret calmly_get calmly_the_mgr calmly_sleep calmly_log_bytes calmly_if : calm.
#[export] Hint Extern 2 (calmly (bind _ _)) => (apply calmly_bind; [|intros]) : calm.
#[export] Hint Extern 2 (calmly (ask _ _)) => (apply calmly_ask; reflexivity) : calm.
#[export] Hint Extern 2 (calmly (on_mgr _)) => (apply calmly_on_mgr; intros; reflexivity) : calm.

Section services.
Context `{BootEnv}.

Lemma calmly_wait_for_dbus n : calmly (wait_for_dbus n).
Proof. induction n as [|n IH]; simpl; auto 6 with calm. Qed.

Lemma calmly_query_unit name n : forall k, calmly (query_unit n k name).
Proof.
  induction n as [|n IH]; intros k; simpl; [auto with calm|].
  apply calmly_bind; [auto with calm|]. intros [active|]; auto 6 with calm.
Qed.

Lemma calmly_isServiceActive name : calmly (isServiceActive name).
Proof.
  unfold isServiceActive. apply calmly_bind; [apply calmly_wait_for_dbus|]. intros _.
  apply calmly_query_unit.
Qed.

Lemma calmly_log_if_changed what now before : calmly (log_if_changed what now before).
Proof. unfold log_if_changed, log_servicechange. auto 6 with calm. Qed.

#[local] Hint Resolve calmly_isServiceActive calmly_log_if_changed : calm.
Lemma calmly_watch_services : calmly watch_services.
Proof. unfold watch_services. auto 40 with calm. Qed.
End services.

(** ** A poll of the alarms *)
Section alarm_poll.
Context {objs : gmap string SensorObj} `{BootEnv} {view : BusView objs}.

Definition complete_at (p : string) : Prop := exists o, objs !! p = Some o /\ complete o.
Definition alarmed_at (p : string) : bool :=
  match objs !! p with Some o => alarmed o | None => false end.

(** The outcome of a search: the first sensor in alarm, with its reading. *)
Definition search (paths : list string) (r : bool * option (string * double)) : Prop :=
  match snd r with
  | Some (p, _) => fst r = true /\ p ∈ paths /\ alarmed_at p = true
  | None => fst r = false /\ forall p, p ∈ paths -> alarmed_at p = false
  end.

Lemma scan_alarms_view paths : forall b,
  (forall p, p ∈ paths -> complete_at p) ->
  exists r b', scan_alarms paths false b = Ret r b' /\ calm b b' /\ search paths r.
Proof.
  induction paths as [|p paths IH]; intros b Hc.
  { exists (false, None), b. split; [done|]. split; [done|]. split; [done|]. by intros p Hp%elem_of_nil. }
  destruct (Hc p (list_elem_of_here _ _)) as (o & Eo & [low El] & [high Eh] & [v Ev]).
  assert (Ha : alarmed_at p = low || high).
  { unfold alarmed_at, alarmed. rewrite Eo, El, Eh. by destruct low, high. }
  cbn [scan_alarms]. set (b1 := set_calls (BGetAlarm p "CriticalAlarmLow" :: calls b) b).
  rewrite (bind_Ret _ _ b (Some low) b1)
    by (unfold ask; by rewrite (view_low _ _ _ Eo), El).
  set (b2 := set_calls (BGetAlarm p "CriticalAlarmHigh" :: calls b1) b1).
  rewrite (bind_Ret _ _ b1 (Some high) b2)
    by (unfold ask; by rewrite (view_high _ _ _ Eo), Eh).
  assert (C2 : calm b b2) by done. rewrite <- Ha. destruct (alarmed_at p) eqn:Hal.
  - set (b3 := set_calls (BGetValue p :: calls b2) b2).
    rewrite (bind_Ret _ _ b2 (Some v) b3) by (unfold ask; by rewrite (view_value _ _ _ Eo), Ev).
    exists (true, Some (p, v)), b3. split; [done|]. split; [done|]. split; [done|].
    split; [apply list_elem_of_here|done].
  - destruct (IH b2) as (r & b3 & E & C3 & Hs); [intros q Hq; apply Hc; by apply list_elem_of_further|].
    exists r, b3. split; [done|]. split; [by eapply calm_trans|].
    unfold search in *. destruct (snd r) as [[q w]|].
    + destruct Hs as (H1 & H2 & H3). split; [done|]. split; [by apply list_elem_of_further|done].
    + destruct Hs as [H1 H2]. split; [done|]. intros q [->|Hq]%elem_of_cons; [done|by apply H2].
Qed.

(** Some object below the path is in alarm. *)
Definition alarm_under (stub : string) : Prop :=
  exists p, under stub p = true /\ alarmed_at p = true.

Lemma alarmed_published p : alarmed_at p = true -> is_Some (objs !! p).
Proof. unfold alarmed_at. destruct (objs !! p); [by eexists|done]. Qed.

Lemma check_alarms_view stub b :
  (forall p o, under stub p = true -> objs !! p = Some o -> complete o) ->
  exists r b', check_alarms stub b = Ret r b' /\ calm b b' /\
    match snd r with
    | Some _ => fst r = true /\ alarm_under stub
    | None => fst r = false /\ ~ alarm_under stub
    end.
Proof.
  intros Hc. destruct (view_paths (calls b) stub) as (paths & Ep & Hp).
  set (b1 := set_calls (BGetPaths stub :: calls b) b).
  destruct (scan_alarms_view paths b1) as (r & b2 & E & C & Hs).
  { intros p Hin. apply Hp in Hin as [Hu [o Eo]]. exists o. split; [done|]. by eapply Hc. }
  exists r, b2. split.
  { unfold check_alarms. rewrite (bind_Ret _ _ b (Some paths) b1) by (unfold ask; by rewrite Ep). done. }
  split; [by eapply (calm_trans b b1)|]. unfold search in Hs. destruct (snd r) as [[p v]|].
  - destruct Hs as (H1 & H2 & H3). split; [done|]. exists p. split; [|done]. by apply Hp in H2 as [H2 _].
  - destruct Hs as [H1 H2]. split; [done|]. intros (p & Hu & Ha).
    rewrite H2 in Ha; [done|]. apply Hp. split; [done|]. by apply alarmed_published.
Qed.

(** One iteration of the manager's polling loop. *)
Lemma watch_alarms_view b :
  (forall p o, under BootManager.temperature_stub p || under BootManager.voltage_stub p = true ->
     objs !! p = Some o -> complete o) ->
  wired b -> (forall h c l, be_gpio_out h c l = true) ->
  exists raised b', watch_alarms APoll b = Ret (if raised : bool then ARaised else APoll) b' /\
    (raised = true <-> alarm_under BootManager.temperature_stub \/ alarm_under BootManager.voltage_stub) /\
    outs (calls b') = (if raised then [BGpioOut 0 6 1; BGpioOut 2 3 0] else []) ++ outs (calls b).
Proof.
  intros Hc Hw Hok. destruct (calmly_watch_services b) as ([] & b1 & E1 & C1).
  destruct (calmly_sleep 500 b1) as ([] & b2 & E2 & C2).
  destruct (check_alarms_view BootManager.temperature_stub b2) as (temp & b3 & E3 & C3 & H3).
  { intros p o Hu. apply Hc. by rewrite Hu. }
  destruct (check_alarms_view BootManager.voltage_stub b3) as (volt & b4 & E4 & C4 & H4).
  { intros p o Hu. apply Hc. by rewrite Hu, orb_true_r. }
  destruct (calmly_sleep 500 b4) as ([] & b5 & E5 & C5).
  assert (C : calm b b5) by (do 4 (eapply calm_trans; [eassumption|]); done). destruct C as [Co Cw].
  assert (Hw5 : wired b5) by (unfold wired in *; congruence).
  assert (E : watch_alarms APoll b = (if fst temp || fst volt
    then raise_alarm temp volt ;;; ret ARaised else ret APoll) b5).
  { unfold watch_alarms. rewrite (bind_Ret _ _ _ _ _ E1), (bind_Ret _ _ _ _ _ E2).
    rewrite (bind_Ret _ _ _ _ _ E3), (bind_Ret _ _ _ _ _ E4). by rewrite (bind_Ret _ _ _ _ _ E5). }
  destruct (fst temp || fst volt) eqn:Ha.
  - assert (Hf : exists f, (if fst temp then snd temp else snd volt) = Some f).
    { destruct (snd temp) as [f|]; destruct H3 as [Et _]; rewrite Et in *; [by exists f|].
      destruct (snd volt) as [g|]; destruct H4 as [Ev _]; rewrite Ev in *; [by exists g|done]. }
    destruct Hf as [f Hf]. destruct (raise_alarm_known f temp volt b5 Hw5 Hok Ha Hf) as (b6 & E6 & Hcalls & _).
    exists true, b6. split; [by rewrite E, (bind_Ret _ _ _ _ _ E6)|]. split.
    + split; [intros _|done]. destruct (snd temp), (snd volt); destruct H3 as [H3 ?], H4 as [H4 ?]; auto.
      by rewrite H3, H4 in Ha.
    + rewrite Hcalls, <- Co. done.
  - exists false, b5. split; [done|]. split; [|done].
    apply orb_false_iff in Ha as [Ht Hv].
    destruct (snd temp); [by destruct H3; congruence|]. destruct (snd volt); [by destruct H4; congruence|].
    split; [done|]. by intros [?|?]; [destruct H3|destruct H4].
Qed.
End alarm_poll.

(** ** The rails and the power supply *)
Section rails_power.
Context `{SensorEnv} `{BootEnv}.
Context (raw : string -> Z) (low high : string -> double).
Context (Hraw : forall h a, a ∈ Adc.rails -> forall s : Host (list Adc.ADC_element),
  stoi (bytes_of_string (se_word h (Adc.path a))) s = Ret (raw (Adc.path a)) s).
Context (Hlow : forall h a, a ∈ Adc.rails -> se_limit h (Adc.name a) "min" = Some (low (Adc.name a))).
Context (Hhigh : forall h a, a ∈ Adc.rails -> se_limit h (Adc.name a) "max" = Some (high (Adc.name a))).

(** A rail outside its limits. *)
Definition unsafe (r : Adc.ADC_element) : bool :=
  dltb (high (Adc.name r)) (voltage raw r) || dltb (voltage raw r) (low (Adc.name r)).

Lemma published_alarmed r : alarmed (published raw low high r) = unsafe r.
Proof. unfold alarmed, unsafe. simpl. by destruct (dltb _ _), (dltb _ _). Qed.

Lemma rail_under r : under BootManager.voltage_stub (Adc.voltage_path r) = true.
Proof.
  unfold under. apply (proj2 (prefix_correct _ _)).
  destruct r as [n ? ? ? ? ?]. unfold Adc.voltage_path. simpl. by destruct n.
Qed.

End rails_power.

(** ** A concrete chassis *)
(** A bus that lists the objects and answers with their properties, over lines
    that work and services that are active. *)
Definition bus_env (objs : gmap string SensorObj) : BootEnv :=
  {| be_gpio_in := fun _ _ _ => Some 1; be_gpio_out := fun _ _ _ => true;
     be_dbus_ready := fun _ => true; be_unit_active := fun _ _ => Some true;
     be_file := fun _ _ => "0"%string; be_limit := fun _ _ => None; be_uptime := fun _ => "0"%string;
     be_set_property := fun _ _ => true;
     be_paths := fun _ stub => Some (filter (fun p => under stub p = true) (fst <$> map_to_list objs));
     be_alarm := fun _ p k => objs !! p ≫= fun o =>
       if String.eqb k "CriticalAlarmLow" then o_alarmLow o else o_alarmHigh o;
     be_value := fun _ p => objs !! p ≫= o_value;
     be_log_open := fun _ => true; be_flash := [] |}.

#[export] Instance bus_env_view objs : @BusView objs (bus_env objs).
Proof.
  split.
  - intros h stub. eexists. split; [reflexivity|]. intros p. rewrite list_elem_of_filter, list_elem_of_fmap.
    split; intros [Hu Hp]; (split; [done|]).
    + destruct Hp as ([q o] & -> & Hq%elem_of_map_to_list). by exists o.
    + destruct Hp as [o Ho]. exists (p, o). split; [done|]. by apply elem_of_map_to_list.
  - intros h p o Ho. simpl. by rewrite Ho.
  - intros h p o Ho. simpl. by rewrite Ho.
  - intros h p o Ho. simpl. by rewrite Ho.
Qed.

Definition booted : Boot := {| calls := []; mgr := initial_Manager; syslog := [] |}.

