(* ===== verification/RmcpMessage.v ===== *)
(** * Messages of the network IPMI daemon

    [message.hpp], [endian.hpp]: the message that travels between the parser,
    the command handlers and the socket, the LAN header of an IPMI payload and
    its checksums.  A payload shorter than the LAN header is read past its end
    by [getCommand], which the model shows as [Undef OutOfBounds]. *)
From Stdlib Require Import ZArith Lia String.
From stdpp Require Import base list.
From S2P Require Import Prelude.
Local Open Scope Z_scope.

(** ** Little-endian integers ([endian.hpp]) *)
Fixpoint le_bytes (n : nat) (z : Z) : list Z :=
  match n with O => [] | S n' => u8 z :: le_bytes n' (z / 256) end.
Fixpoint le_value (l : list Z) : Z :=
  match l with [] => 0 | b :: l' => b + 256 * le_value l' end.

(** The object representation of a [uint32_t] or [uint16_t] in a packet. *)
Definition to_ipmi32 (z : Z) : list Z := le_bytes 4 z.
Definition to_ipmi16 (z : Z) : list Z := le_bytes 2 z.

(** Reading a field of a packed structure laid over a buffer. *)
Definition rd8 {S} (v : list Z) (off : nat) : M S Z := idx v off.
Definition rd16 {S} (v : list Z) (off : Z) : M S Z :=
  let! b := read_range v off 2 in ret (le_value b).
Definition rd32 {S} (v : list Z) (off : Z) : M S Z :=
  let! b := read_range v off 4 in ret (le_value b).

(** [vector::resize]. *)
Definition resize (n : nat) (l : list Z) : list Z := take n l ++ replicate (n - length l) 0.

(** ** Enumerations

    Scoped enumerations over [uint8_t] hold any byte, so they stay integers. *)
Module PayloadType.
Definition IPMI : Z := 0x00.
Definition SOL : Z := 0x01.
Definition OPEN_SESSION_REQUEST : Z := 0x10.
Definition OPEN_SESSION_RESPONSE : Z := 0x11.
Definition RAKP1 : Z := 0x12.
Definition RAKP2 : Z := 0x13.
Definition RAKP3 : Z := 0x14.
Definition RAKP4 : Z := 0x15.
Definition INVALID : Z := 0xFF.
End PayloadType.

Module ClassOfMsg.
Definition RESERVED : Z := 0x05.
Definition ASF : Z := 0x06.
Definition IPMI : Z := 0x07.
Definition OEM : Z := 0x08.
End ClassOfMsg.

(** ** Messages *)
Definition MESSAGE_INVALID_SESSION_ID : Z := 0xBADBADFF.

(** The members the constructor leaves uninitialised are options. *)
Record Message := {
  isPacketEncrypted : option bool; isPacketAuthenticated : option bool;
  payloadType : Z; rcSessionID : Z; bmcSessionID : Z; sessionSeqNum : option Z;
  rmcpMsgClass : Z; asfMsgTag : option Z; payload : list Z }.

#[export] Instance Message_fields : Fields Message := fun m =>
  {| isPacketEncrypted := isPacketEncrypted m;
     isPacketAuthenticated := isPacketAuthenticated m;
     payloadType := payloadType m; rcSessionID := rcSessionID m;
     bmcSessionID := bmcSessionID m; sessionSeqNum := sessionSeqNum m;
     rmcpMsgClass := rmcpMsgClass m; asfMsgTag := asfMsgTag m; payload := payload m |}.

Definition new_Message : Message :=
  {| isPacketEncrypted := None; isPacketAuthenticated := None;
     payloadType := PayloadType.INVALID; rcSessionID := MESSAGE_INVALID_SESSION_ID;
     bmcSessionID := MESSAGE_INVALID_SESSION_ID; sessionSeqNum := None;
     rmcpMsgClass := ClassOfMsg.RESERVED; asfMsgTag := None; payload := [] |}.

(** The copy constructor: the payload and the sequence number are not copied,
    and a session setup request becomes its response. *)
Definition copy_Message (other : Message) : Message :=
  let t := payloadType other in
  {| isPacketEncrypted := isPacketEncrypted other;
     isPacketAuthenticated := isPacketAuthenticated other;
     payloadType :=
       if PayloadType.OPEN_SESSION_REQUEST =? t then PayloadType.OPEN_SESSION_RESPONSE
       else if PayloadType.RAKP1 =? t then PayloadType.RAKP2
       else if PayloadType.RAKP3 =? t then PayloadType.RAKP4
       else t;
     rcSessionID := rcSessionID other; bmcSessionID := bmcSessionID other;
     sessionSeqNum := None; rmcpMsgClass := rmcpMsgClass other;
     asfMsgTag := None; payload := [] |}.

(** ** The LAN header of an IPMI payload *)
Definition requesterBMCAddress : Z := 0x20.
Definition responderBMCAddress : Z := 0x81.
Definition LAN_header_size : Z := 6.
Definition LAN_trailer_size : Z := 1.

(** [std::accumulate] with an [int] accumulator, then conversion to [uint8_t]. *)
Definition crc8bit (l : list Z) : Z := u8 (0x100 - sum l).

(** Offsets of the request header: rsaddr, netfn, cs, rqaddr, rqseq, cmd. *)
Definition getCommand {S} (m : Message) : M S Z :=
  let command := Z.shiftl (payloadType m) 16 in
  if payloadType m =? PayloadType.IPMI then
    let! netfn := rd8 (payload m) 1 in
    let! cmd := rd8 (payload m) 5 in
    ret (Z.lor (Z.lor command (Z.shiftl netfn 8)) cmd)
  else ret command.

Definition createResponse {S} (m : Message) (output : list Z) : M S (option Message) :=
  if payloadType m =? PayloadType.SOL then ret None
  else
    let outMessage := copy_Message m in
    if payloadType m =? PayloadType.IPMI then
      let! req_rsaddr := rd8 (payload m) 0 in
      let! req_netfn := rd8 (payload m) 1 in
      let! req_rqaddr := rd8 (payload m) 3 in
      let! req_rqseq := rd8 (payload m) 4 in
      let! req_cmd := rd8 (payload m) 5 in
      let netfn := u8 (Z.lor req_netfn 0x04) in
      let cs := crc8bit [req_rqaddr; netfn] in
      let body := [req_rsaddr; req_rqseq; req_cmd] ++ output in
      ret (Some (outMessage <| payloadType := PayloadType.IPMI |>
                            <| payload := [req_rqaddr; netfn; cs] ++ body ++ [crc8bit body] |>))
    else ret (Some (outMessage <| payload := output |>)).

(** ** Lemmas on the codecs *)
Lemma le_bytes_length n z : length (le_bytes n z) = n.
Proof. revert z. induction n as [|n IH]; intros z; cbn; [done|]. by rewrite IH. Qed.

Lemma le_bytes_bytes n z : bytes (le_bytes n z).
Proof.
  revert z. induction n as [|n IH]; intros z; cbn; [constructor|].
  apply bytes_cons. split; [apply u8_is_byte | apply IH].
Qed.

Lemma le_value_bytes n z : 0 <= z < 256 ^ Z.of_nat n -> le_value (le_bytes n z) = z.
Proof.
  revert z. induction n as [|n IH]; intros z Hz.
  - change (256 ^ Z.of_nat 0) with 1 in Hz. cbn. lia.
  - rewrite Nat2Z.inj_succ, Z.pow_succ_r in Hz by lia. cbn [le_bytes le_value].
    rewrite IH; [unfold u8; pose proof (Z.div_mod z 256); lia|].
    split; [apply Z.div_pos; lia | apply Z.div_lt_upper_bound; lia].
Qed.

Lemma le_value_range l : bytes l -> 0 <= le_value l < 256 ^ Z.of_nat (length l).
Proof.
  induction l as [|b l IH]; intros Hl; cbn [le_value length]; [cbn; lia|].
  apply bytes_cons in Hl as [[Hb0 Hb] Hl]. specialize (IH Hl).
  rewrite Nat2Z.inj_succ, Z.pow_succ_r by lia. lia.
Qed.

Lemma le_bytes_value l : bytes l -> le_bytes (length l) (le_value l) = l.
Proof.
  induction l as [|b l IH]; intros Hl; cbn [le_value length le_bytes]; [done|].
  apply bytes_cons in Hl as [Hb Hl]. f_equal.
  - unfold u8. rewrite (Z.mul_comm 256), Z.mod_add by lia. by apply Z.mod_small.
  - rewrite (Z.mul_comm 256), Z.div_add by lia.
    rewrite Z.div_small by apply Hb. rewrite Z.add_0_l. by apply IH.
Qed.

Lemma resize_id l n : length l = n -> resize n l = l.
Proof.
  intros <-. unfold resize. rewrite take_ge, Nat.sub_diag by lia. apply app_nil_r.
Qed.

Lemma resize_le l n : (n <= length l)%nat -> resize n l = take n l.
Proof.
  intros Hn. unfold resize. replace (n - length l)%nat with 0%nat by lia. apply app_nil_r.
Qed.

Lemma rd32_at {S} (pre post : list Z) z (s : S) :
  0 <= z < 2 ^ 32 ->
  rd32 (pre ++ to_ipmi32 z ++ post) (Z.of_nat (length pre)) s = Ret z s.
Proof.
  intros Hz. unfold rd32, read_range, to_ipmi32.
  assert (length (le_bytes 4 z) = 4%nat) as Hl by apply le_bytes_length.
  rewrite !length_app, Hl.
  replace (_ <=? _) with true by (symmetry; apply Z.leb_le; lia).
  rewrite bind_ret_l, Nat2Z.id, drop_app_length. change (Z.to_nat 4) with 4%nat.
  rewrite take_app_le, take_ge by lia. by rewrite le_value_bytes.
Qed.

Lemma rd16_at {S} (pre post : list Z) z (s : S) :
  0 <= z < 2 ^ 16 ->
  rd16 (pre ++ to_ipmi16 z ++ post) (Z.of_nat (length pre)) s = Ret z s.
Proof.
  intros Hz. unfold rd16, read_range, to_ipmi16.
  assert (length (le_bytes 2 z) = 2%nat) as Hl by apply le_bytes_length.
  rewrite !length_app, Hl.
  replace (_ <=? _) with true by (symmetry; apply Z.leb_le; lia).
  rewrite bind_ret_l, Nat2Z.id, drop_app_length. change (Z.to_nat 2) with 2%nat.
  rewrite take_app_le, take_ge by lia. by rewrite le_value_bytes.
Qed.
