(* ===== verification/RmcpCrypto.v ===== *)
(** * Authentication, integrity and confidentiality of network sessions

    [auth_algo.*], [integrity_algo.*], [crypt_algo.*], [rmcp.hpp], [prng.hpp].
    OpenSSL is the class [Crypto]; [CryptoLaws] states the documented behaviour
    of its functions that the theorems use: the lengths of digests and of CBC
    output, and that CBC decryption inverts encryption; [CryptoTotal], that no
    call fails. *)
From Stdlib Require Import ZArith Lia String.
From stdpp Require Import base list.
From S2P Require Import Prelude RmcpMessage.
Local Open Scope Z_scope.

Definition RMCP_SESSION_HEADER_SIZE : Z := 4.
Definition SHA_DIGEST_LENGTH : nat := 20.
Definition SHA256_DIGEST_LENGTH : nat := 32.

Inductive Digest := SHA1 | SHA256.
Definition digest_length (d : Digest) : nat :=
  match d with SHA1 => SHA_DIGEST_LENGTH | SHA256 => SHA256_DIGEST_LENGTH end.

(** [HMAC], [EVP_EncryptUpdate] and [EVP_DecryptUpdate] with padding disabled
    ([None] is failure), and the [k]-th call of [RAND_bytes]. *)
Class Crypto := {
  HMAC : Digest -> list Z -> list Z -> option (list Z);
  aes_cbc_encrypt : list Z -> list Z -> list Z -> option (list Z);
  aes_cbc_decrypt : list Z -> list Z -> list Z -> option (list Z);
  RAND_bytes : nat -> nat -> option (list Z) }.

Class CryptoLaws (C : Crypto) := {
  HMAC_length d key msg o : HMAC d key msg = Some o -> length o = digest_length d;
  HMAC_bytes d key msg o : HMAC d key msg = Some o -> bytes o;
  RAND_length k n o : RAND_bytes k n = Some o -> length o = n;
  RAND_bytes_bytes k n o : RAND_bytes k n = Some o -> bytes o;
  encrypt_length key iv x c : aes_cbc_encrypt key iv x = Some c ->
    (length x mod 16 = 0)%nat -> length c = length x;
  decrypt_length key iv x c : aes_cbc_decrypt key iv x = Some c ->
    length c = (length x / 16 * 16)%nat;
  decrypt_bytes key iv x c : aes_cbc_decrypt key iv x = Some c -> bytes c;
  decrypt_encrypt key iv x c : (length x mod 16 = 0)%nat -> bytes x ->
    aes_cbc_encrypt key iv x = Some c -> aes_cbc_decrypt key iv c = Some x }.

(** OpenSSL does not fail. *)
Class CryptoTotal (C : Crypto) := {
  HMAC_total d key msg : is_Some (HMAC d key msg);
  RAND_total k n : is_Some (RAND_bytes k n);
  encrypt_total key iv x : is_Some (aes_cbc_encrypt key iv x);
  decrypt_total key iv x : is_Some (aes_cbc_decrypt key iv x) }.

(** ** Constants for additional keying material ([rmcp.hpp]) *)
Definition const_1 : list Z := replicate 20 1.
Definition const_2 : list Z := replicate 20 2.

(** ** Algorithm numbers *)
Definition RAKP_HMAC_SHA1 : Z := 1.
Definition RAKP_HMAC_SHA256 : Z := 3.
Definition HMAC_SHA1_96 : Z := 1.
Definition HMAC_SHA256_128 : Z := 4.
Definition AES_CBC_128 : Z := 1.

Definition auth_isAlgorithmSupported (algo : Z) : bool := algo =? RAKP_HMAC_SHA256.
Definition integrity_isAlgorithmSupported (algo : Z) : bool := algo =? HMAC_SHA256_128.
Definition crypt_isAlgorithmSupported (algo : Z) : bool := algo =? AES_CBC_128.

(** ** Authentication ([cipher::rakp_auth])

    The random numbers are arrays without initialiser. *)
Definition USER_KEY_MAX_LENGTH : nat := 20.
Definition BMC_RANDOM_NUMBER_LEN : nat := 16.
Definition REMOTE_CONSOLE_RANDOM_NUMBER_LEN : nat := 16.

Record AuthAlgo := {
  authDigest : Digest; userKey : list Z;
  bmcRandomNum : option (list Z); rcRandomNum : option (list Z);
  sessionIntegrityKey : list Z; intAlgo : Z; cryptAlgo : Z }.
#[export] Instance AuthAlgo_fields : Fields AuthAlgo := fun a =>
  {| authDigest := authDigest a; userKey := userKey a; bmcRandomNum := bmcRandomNum a;
     rcRandomNum := rcRandomNum a; sessionIntegrityKey := sessionIntegrityKey a;
     intAlgo := intAlgo a; cryptAlgo := cryptAlgo a |}.

(** ["0penBmc"], zero filled. *)
Definition default_userKey : list Z :=
  resize USER_KEY_MAX_LENGTH [0x30; 0x70; 0x65; 0x6E; 0x42; 0x6D; 0x63].

Definition new_AuthAlgo (d : Digest) (int crypt : Z) : AuthAlgo :=
  {| authDigest := d; userKey := default_userKey; bmcRandomNum := None;
     rcRandomNum := None; sessionIntegrityKey := []; intAlgo := int; cryptAlgo := crypt |}.

Section Algorithms.
Context `{Crypto}.

(** A failed HMAC empties the output. *)
Definition auth_generateHMAC (a : AuthAlgo) (input : list Z) : list Z :=
  default [] (HMAC (authDigest a) (userKey a) input).

Definition integrityCheckValueLength (d : Digest) : nat :=
  match d with SHA1 => 12 | SHA256 => 16 end.

(** SHA-1 reads 20 bytes of the key whatever its length. *)
Definition generateICV {S} (a : AuthAlgo) (input : list Z) : M S (list Z) :=
  let! key := match authDigest a with
              | SHA1 => read_range (sessionIntegrityKey a) 0 (Z.of_nat SHA_DIGEST_LENGTH)
              | SHA256 => ret (sessionIntegrityKey a)
              end in
  ret (resize (integrityCheckValueLength (authDigest a))
              (default [] (HMAC (authDigest a) key input))).

(** ** Integrity ([cipher::integrity]) *)
Record IntegrityAlgo := { intDigest : Digest; authCodeLength : nat; k1 : list Z }.

(** [HMAC] writes a whole digest into a vector as long as the key. *)
Definition generateKn {S} (d : Digest) (sik const_n : list Z) : M S (list Z) :=
  match HMAC d sik const_n with
  | None => throw (RuntimeError "Generating KeyN for integrity algorithm failed")
  | Some o => if (length o <=? length sik)%nat then ret (resize (length sik) o)
              else undef OutOfBounds
  end.

Definition AUTHCODE_LENGTH (d : Digest) : nat :=
  match d with SHA1 => 12 | SHA256 => 16 end.

Definition new_IntegrityAlgo {S} (d : Digest) (sik : list Z) : M S IntegrityAlgo :=
  let! k := generateKn d sik const_1 in
  ret {| intDigest := d; authCodeLength := AUTHCODE_LENGTH d; k1 := k |}.

Definition integrity_generateHMAC {S} (a : IntegrityAlgo) (input : list Z) : M S (list Z) :=
  match HMAC (intDigest a) (k1 a) input with
  | None => throw (RuntimeError "Generating integrity data failed")
  | Some o => ret (resize (authCodeLength a) o)
  end.

Definition verifyIntegrityData {S} (a : IntegrityAlgo) (packet : list Z) (len : Z)
    (integrityData : list Z) : M S bool :=
  let! input := read_range packet RMCP_SESSION_HEADER_SIZE len in
  let! output := integrity_generateHMAC a input in
  ret (bool_decide (output = integrityData)).

Definition generateIntegrityData {S} (a : IntegrityAlgo) (packet : list Z) : M S (list Z) :=
  let! input := read_range packet RMCP_SESSION_HEADER_SIZE
                  (Z.of_nat (length packet) - RMCP_SESSION_HEADER_SIZE) in
  integrity_generateHMAC a input.

(** ** Confidentiality ([cipher::crypt]) *)
Definition AESCBC128ConfHeader : nat := 16.
Definition AESCBC128BlockSize : nat := 16.
Definition confPadBytes : list Z := [1; 2; 3; 4; 5; 6; 7; 8; 9; 10; 11; 12; 13; 14; 15].


(** OpenSSL reads a 16 byte key whatever the vector holds. *)
Definition decryptData {S} (k2 iv input : list Z) : M S (list Z) :=
  let! key := read_range k2 0 16 in
  match aes_cbc_decrypt key iv input with
  | None => throw (RuntimeError "EVP_DecryptUpdate failed")
  | Some o => ret o
  end.

(** [std::equal] on three iterators: the second range is not checked. *)
Fixpoint equal_range {S} (a b : list Z) : M S bool :=
  match a with
  | [] => ret true
  | x :: a' =>
      match b with
      | [] => undef OutOfBounds
      | y :: b' => if x =? y then equal_range a' b' else ret false
      end
  end.

Definition aes_decryptPayload {S} (k2 packet : list Z) (sessHeaderLen payloadLen : Z)
    : M S (list Z) :=
  if (Z.of_nat (length packet) <? sessHeaderLen + payloadLen)
     || (payloadLen <? Z.of_nat AESCBC128ConfHeader)
  then throw (RuntimeError "Invalid data length")
  else
    let! iv := read_range packet sessHeaderLen 16 in
    let! input := read_range packet (sessHeaderLen + 16) (payloadLen - 16) in
    let! plainPayload := decryptData k2 iv input in
    let! confPadLength := of_option OutOfBounds (last plainPayload) in
    let padLength := Nat.min (length plainPayload - 1) (Z.to_nat confPadLength) in
    let plainPayloadLen := (length plainPayload - padLength - 1)%nat in
    let! ok := equal_range (slice plainPayload plainPayloadLen padLength) confPadBytes in
    if ok then ret (resize plainPayloadLen plainPayload)
    else throw (RuntimeError "Confidentiality pad bytes check failed").

(** The padding of a payload of length [n]. *)
Definition conf_padding (n : nat) : nat :=
  (AESCBC128BlockSize - Z.to_nat (Z.land (Z.of_nat n + 1) 0xF))%nat.
Definition iota (n : nat) : list Z := map Z.of_nat (seq 1 n).
Definition pad_payload (payload : list Z) : list Z :=
  let paddingLen := conf_padding (length payload) in
  payload ++ iota paddingLen ++ [Z.of_nat paddingLen].

(** [iv]: the answer of [RAND_bytes]. *)
Definition encryptData {S} (k2 : list Z) (iv : option (list Z)) (input : list Z)
    : M S (list Z) :=
  match iv with
  | None => throw (RuntimeError "RAND_bytes failed")
  | Some iv =>
      let! key := read_range k2 0 16 in
      match aes_cbc_encrypt key iv input with
      | None => throw (RuntimeError "EVP_EncryptUpdate failed for type AES-CBC-128")
      | Some o => ret (iv ++ o)
      end
  end.

Definition aes_encryptPayload {S} (k2 : list Z) (iv : option (list Z)) (payload : list Z)
    : M S (list Z) :=
  encryptData k2 iv (pad_payload payload).

(** ** Lemmas *)
Lemma iota_length n : length (iota n) = n.
Proof. unfold iota. by rewrite length_map, length_seq. Qed.

Lemma iota_confPadBytes n : (n <= 15)%nat -> iota n = take n confPadBytes.
Proof. intros Hn. do 16 (destruct n as [|n]; [reflexivity|]). lia. Qed.

Lemma equal_range_prefix {S} (a b : list Z) (s : S) :
  equal_range a (a ++ b) s = Ret true s.
Proof. induction a as [|x a IH]; cbn; [done|]. by rewrite Z.eqb_refl. Qed.

Lemma equal_range_defined {S} (a b : list Z) (s : S) :
  (length a <= length b)%nat -> exists r, equal_range a b s = Ret r s.
Proof.
  revert b. induction a as [|x a IH]; intros [|y b] Hl; cbn in *; eauto; [lia|].
  destruct (x =? y); [|eauto]. apply IH. lia.
Qed.

Lemma equal_range_true {S} (a b : list Z) (s s' : S) :
  equal_range a b s = Ret true s' -> s' = s /\ a `prefix_of` b.
Proof.
  revert b. induction a as [|x a IH]; intros [|y b] Hr; cbn in Hr.
  - injection Hr as ->. split; [done|apply prefix_nil].
  - injection Hr as ->. split; [done|apply prefix_nil].
  - discriminate.
  - destruct (Z.eqb_spec x y) as [->|]; [|discriminate].
    destruct (IH _ Hr) as [-> Hp]. split; [done|by apply prefix_cons].
Qed.

(** The padding takes 1 to 16 bytes and always fills a block. *)
Lemma conf_padding_spec n :
  (1 <= conf_padding n <= 16 /\ (n + conf_padding n + 1) mod 16 = 0)%nat.
Proof.
  unfold conf_padding, AESCBC128BlockSize.
  change 0xF with (2 ^ 4 - 1). rewrite land_mask by lia. change (2 ^ 4) with 16.
  pose proof (Z.mod_pos_bound (Z.of_nat n + 1) 16 ltac:(lia)).
  pose proof (Z.div_mod (Z.of_nat n + 1) 16 ltac:(lia)) as Hd.
  split; [lia|].
  apply Nat2Z.inj. rewrite Nat2Z.inj_mod, !Nat2Z.inj_add, Nat2Z.inj_sub, Z2Nat.id by lia.
  change (Z.of_nat 16) with 16. change (Z.of_nat 1) with 1. change (Z.of_nat 0) with 0.
  set (r := (Z.of_nat n + 1) mod 16) in *.
  replace (Z.of_nat n + (16 - r) + 1) with (((Z.of_nat n + 1) / 16 + 1) * 16) by lia.
  apply Z.mod_mul. lia.
Qed.

Lemma conf_padding_16 n : (conf_padding n = 16)%nat <-> ((n + 1) mod 16 = 0)%nat.
Proof.
  unfold conf_padding, AESCBC128BlockSize.
  change 0xF with (2 ^ 4 - 1). rewrite land_mask by lia. change (2 ^ 4) with 16.
  pose proof (Z.mod_pos_bound (Z.of_nat n + 1) 16 ltac:(lia)).
  assert (Z.of_nat ((n + 1) mod 16) = (Z.of_nat n + 1) mod 16) as <-.
  { rewrite Nat2Z.inj_mod, Nat2Z.inj_add. reflexivity. }
  pose proof (Nat.mod_upper_bound (n + 1) 16 ltac:(lia)). rewrite Nat2Z.id. lia.
Qed.

Lemma pad_payload_length l : (length (pad_payload l) mod 16 = 0)%nat.
Proof.
  unfold pad_payload. rewrite !length_app, iota_length. cbn [length].
  destruct (conf_padding_spec (length l)) as [_ Hm].
  by rewrite Nat.add_assoc.
Qed.

Lemma pad_payload_bytes l : bytes l -> bytes (pad_payload l).
Proof.
  intros Hl. unfold pad_payload.
  destruct (conf_padding_spec (length l)) as [Hp _].
  apply bytes_app; split; [done|]. apply bytes_app; split.
  - unfold bytes, iota. apply Forall_fmap, Forall_forall. intros k Hk.
    apply elem_of_seq in Hk. unfold is_byte, compose. lia.
  - apply bytes_cons. split; [unfold is_byte; lia | constructor].
Qed.
End Algorithms.
