(* ===== verification/RmcpState.v ===== *)
(** * The state of the network IPMI daemon

    The data types of [phosphor-ipmi-net-mods] and the state its single thread
    works on.  Sessions live behind [shared_ptr]s: [heap] holds every session
    object ever made and the session table, the handlers and the SOL contexts
    refer to objects by identity, so that a handler that outlives the removal
    of its session from the table still works on the same object. *)
From Stdlib Require Import ZArith Lia String.
From stdpp Require Import base list gmap.
From S2P Require Import Prelude RmcpMessage RmcpCrypto.
Local Open Scope Z_scope.

(** ** The user and channel layer

    [libuserlayer] and [libchannellayer] of the IPMI host daemon, as the
    functions the daemon calls.  An out-parameter is passed in and returned. *)
Record PrivAccess := { privilege : Z; ipmiEnabled : bool }.
Record ChannelAccess := { accessMode : Z; privLimit : Z }.
Definition PrivAccess0 : PrivAccess := {| privilege := 0; ipmiEnabled := false |}.
Definition ChannelAccess0 : ChannelAccess := {| accessMode := 0; privLimit := 0 |}.

Record UserLayer := {
  ipmiUserGetUserId : list Z -> Z;
  ipmiUserCheckEnabled : Z -> bool;
  ipmiUserGetPassword : list Z -> list Z;
  ipmiUserPamAuthenticate : list Z -> list Z -> bool;
  ipmiUserGetPrivilegeAccess : Z -> Z -> PrivAccess -> Z * PrivAccess;
  getChannelAccessData : Z -> ChannelAccess -> Z * ChannelAccess;
  ipmiUserGetUserPayloadAccess : Z -> Z -> Z * bool;  (* the SOL enable bit *)
  ipmiUserGetAllCounts : Z;                           (* enabled users *)
  isValidChannel : Z -> bool;
  getChannelSessionSupport : Z -> Z;
  isValidPrivLimit : Z -> bool;
  isValidPayloadType : Z -> bool;
  doesDeviceExist : Z -> bool;
  channelMediumType : Z -> Z }.

(** ** Socket channel: the remote address of the packet last read

    [ch_ipv4] is [None] when the address is neither IPv4 nor mapped IPv4. *)
Record Channel := { ch_port : Z; ch_ipv4 : option Z }.

(** ** Sessions ([session.hpp], [sessiondef.hpp]) *)
Module State.
Definition inactive : Z := 0.
Definition setupInProgress : Z := 1.
Definition active : Z := 2.
Definition tearDownInProgress : Z := 3.
End State.

Module Privilege.
Definition HIGHEST_MATCHING : Z := 0.
Definition CALLBACK : Z := 1.
Definition USER : Z := 2.
Definition OPERATOR : Z := 3.
Definition ADMIN : Z := 4.
Definition OEM : Z := 5.
End Privilege.

Definition sessionZero : Z := 0.
Definition maxSessionCountPerChannel : Z := 15.
Definition maxSessionlessCount : Z := 1.
Definition maxNetworkInstanceSupported : Z := 4.
Definition multiIntfaceSessionHandleMask : Z := 0x3F.
Definition multiIntfaceSessionIDMask : Z := 0x3FFFFFFF.
Definition maxSessionHandles : nat := Z.to_nat multiIntfaceSessionHandleMask.
Definition reqMaxPrivMask : Z := 0xF.

(** The properties of the D-Bus object a session is. *)
Record SessionInfo := {
  sessionHandle : Z; channelNum : Z; userID : Z; currentPrivilege : Z;
  remoteIPAddr : Z; remotePort : Z; state : Z }.
#[export] Instance SessionInfo_fields : Fields SessionInfo := fun i =>
  {| sessionHandle := sessionHandle i; channelNum := channelNum i; userID := userID i;
     currentPrivilege := currentPrivilege i; remoteIPAddr := remoteIPAddr i;
     remotePort := remotePort i; state := state i |}.

Record SequenceNumbers := { seq_in : Z; seq_out : Z }.

Record Session := {
  info : SessionInfo;
  reqMaxPrivLevel : Z;
  sessionUserPrivAccess : PrivAccess; sessionChannelAccess : ChannelAccess;
  sequenceNums : SequenceNumbers; userName : list Z; channelPtr : option Channel;
  s_bmcSessionID : Z; remoteConsoleSessionID : Z;
  authAlgoInterface : option AuthAlgo;
  integrityAlgoInterface : option IntegrityAlgo;
  cryptAlgoInterface : option (list Z);
  lastTime : Z }.
#[export] Instance Session_fields : Fields Session := fun s =>
  {| info := info s; reqMaxPrivLevel := reqMaxPrivLevel s;
     sessionUserPrivAccess := sessionUserPrivAccess s;
     sessionChannelAccess := sessionChannelAccess s;
     sequenceNums := sequenceNums s; userName := userName s; channelPtr := channelPtr s;
     s_bmcSessionID := s_bmcSessionID s;
     remoteConsoleSessionID := remoteConsoleSessionID s;
     authAlgoInterface := authAlgoInterface s;
     integrityAlgoInterface := integrityAlgoInterface s;
     cryptAlgoInterface := cryptAlgoInterface s; lastTime := lastTime s |}.

(** ** Serial over LAN ([sol_context.hpp], [sol_manager.hpp]) *)
Record Context := {
  maxRetryCount : Z; retryCounter : Z; c_sendThreshold : Z; payloadInstance : Z;
  c_sessionID : Z; c_session : nat;
  expectedCharCount : nat; sol_in : Z; sol_out : Z; payloadCache : list Z;
  accumulateTimer : option Z; retryTimer : option Z }.
#[export] Instance Context_fields : Fields Context := fun c =>
  {| maxRetryCount := maxRetryCount c; retryCounter := retryCounter c;
     c_sendThreshold := c_sendThreshold c; payloadInstance := payloadInstance c;
     c_sessionID := c_sessionID c; c_session := c_session c;
     expectedCharCount := expectedCharCount c; sol_in := sol_in c; sol_out := sol_out c;
     payloadCache := payloadCache c; accumulateTimer := accumulateTimer c;
     retryTimer := retryTimer c |}.

(** [consoleWrites]: what was written to the console socket (data, out of
    band), newest first. *)
Record SolManager := {
  dataBuffer : list Z; progress : Z; enable : bool; forceEncrypt : bool; forceAuth : bool;
  solMinPrivilege : Z; accumulateInterval : Z; sendThreshold : Z; retryCount : Z;
  retryInterval : Z; payloadMap : gmap Z Context; consoleSocket : bool;
  consoleWrites : list (list Z * bool) }.
#[export] Instance SolManager_fields : Fields SolManager := fun m =>
  {| dataBuffer := dataBuffer m; progress := progress m; enable := enable m;
     forceEncrypt := forceEncrypt m; forceAuth := forceAuth m;
     solMinPrivilege := solMinPrivilege m; accumulateInterval := accumulateInterval m;
     sendThreshold := sendThreshold m; retryCount := retryCount m;
     retryInterval := retryInterval m; payloadMap := payloadMap m;
     consoleSocket := consoleSocket m; consoleWrites := consoleWrites m |}.

(** ** Message handlers ([message_handler.hpp]) *)
Inductive SessionHeader := IPMI15 | IPMI20.

Record Handler := {
  h_sessionID : Z; h_channel : option Channel; outPayload : option (list Z);
  sessionHeader : SessionHeader; inMessage : option Message; h_session : option nat }.
#[export] Instance Handler_fields : Fields Handler := fun h =>
  {| h_sessionID := h_sessionID h; h_channel := h_channel h; outPayload := outPayload h;
     sessionHeader := sessionHeader h; inMessage := inMessage h; h_session := h_session h |}.

(** A call of [execute] on the IPMI host daemon. *)
Record Forward := {
  f_netFn : Z; f_lun : Z; f_cmd : Z; f_data : list Z;
  f_userId : Z; f_privilege : Z; f_currentSessionId : Z }.

(** ** What the outside answers during one event *)

(** A SOL parameter as D-Bus reports it. *)
Inductive SolProperty :=
  | PProgress (v : Z) | PEnable (v : bool) | PForceEncryption (v : bool)
  | PForceAuthentication (v : bool) | PPrivilege (v : Z) | PAccumulateIntervalMS (v : Z)
  | PThreshold (v : Z) | PRetryCount (v : Z) | PRetryIntervalMS (v : Z).

Record CipherRecord := {
  cr_oem : option Z; cr_cipher : Z; cr_auth : Z; cr_integrity : Z; cr_conf : Z }.

(** A session object of some network daemon on D-Bus: its path, the services
    that implement it, and its properties ([None]: the call fails). *)
Record BusObject := {
  bo_path : list Z; bo_services : list (list Z);
  bo_priv : option Z; bo_state : option Z; bo_set : bool }.

(** [connects]: the console socket; [solProperties]: the SOL parameters of
    D-Bus; [cipherFile]: the parsed cipher list; [sessionObjects]: the answer
    of the mapper; [writeResults]: the results of the next [sendmsg] and
    [send] calls. *)
Record Answers := {
  connects : bool; solProperties : option (list SolProperty);
  cipherFile : option (list CipherRecord); sessionObjects : option (list BusObject) }.

(** ** The daemon *)
Record Net := {
  heap : gmap nat Session; nextObject : nat;
  sessionsMap : gmap Z nat; sessionHandleMap : list Z; ipmiNetworkInstance : Z;
  timerExpiry : Z; timerWaiting : bool;
  now : Z; rng : nat; users : UserLayer; guid : list Z;
  sent : list (Channel * list Z);       (* datagrams written, newest first *)
  writeResults : list Z; answers : Answers;
  cipherCache : option (list Z * list Z);  (* static locals of getChannelCipherSuites *)
  busWrites : list (list Z * Z);        (* State of other daemons' sessions *)
  forwards : list (nat * Forward); pending : gmap nat Handler; nextCall : nat;
  sol : SolManager }.
#[export] Instance Net_fields : Fields Net := fun n =>
  {| heap := heap n; nextObject := nextObject n; sessionsMap := sessionsMap n;
     sessionHandleMap := sessionHandleMap n; ipmiNetworkInstance := ipmiNetworkInstance n;
     timerExpiry := timerExpiry n; timerWaiting := timerWaiting n; now := now n;
     rng := rng n; users := users n; guid := guid n; sent := sent n;
     writeResults := writeResults n; answers := answers n;
     cipherCache := cipherCache n; busWrites := busWrites n; forwards := forwards n; pending := pending n;
     nextCall := nextCall n; sol := sol n |}.

(** What the build and the start of the daemon fix: the initial properties of
    a session object (generated code), the channel served
    ([getInterfaceIndex]), the compile-time option [RMCP_PING], and how many
    draws the model follows in the search for a session id. *)
Class Settings := {
  initial_info : SessionInfo; getInterfaceIndex : Z; RMCP_PING : bool; id_fuel : nat }.

(** ** Objects *)
Definition obj (p : nat) : M Net Session := fun n => deref (heap n !! p) n.
Definition on_obj (p : nat) (f : Session -> Session) : M Net unit :=
  modify (fun n => n <| heap := alter f p (heap n) |>).
Definition on_info (p : nat) (f : SessionInfo -> SessionInfo) : M Net unit :=
  on_obj p (fun s => s <| info := f (info s) |>).
Definition on_sol (f : SolManager -> SolManager) : M Net unit :=
  modify (fun n => n <| sol := f (sol n) |>).

(** [RAND_bytes]. *)
Definition rand_bytes `{Crypto} (n : nat) : M Net (option (list Z)) := fun s =>
  Ret (RAND_bytes (rng s) n) (s <| rng := S (rng s) |>).

(** Signed [int] arithmetic. *)
Definition int_ok (z : Z) : bool := (- 2 ^ 31 <=? z) && (z <? 2 ^ 31).
Definition sint {S} (z : Z) : M S Z := if int_ok z then ret z else undef SignedOverflow.
