(* ===== verification/RmcpSession.v ===== *)
(** * Sessions and the session table

    [session.hpp], [sessions_manager.*]: the methods of [Session] and of
    [session::Manager].  Times are microseconds of the steady clock, which is
    read once per event ([now]).  [cleanStaleEntries] visits the table in the
    order of the keys of a [gmap]: its iterations do not depend on each other. *)
From Stdlib Require Import ZArith Lia String.
From stdpp Require Import base list gmap.
From S2P Require Import Prelude RmcpMessage RmcpCrypto RmcpState.
Local Open Scope Z_scope.

(** ** Session *)
Definition seq_increment (q : SequenceNumbers) : SequenceNumbers :=
  {| seq_in := seq_in q; seq_out := u32 (seq_out q + 1) |}.

Definition new_Session `{Settings} (rcID bmcID priv : Z) : Session :=
  {| info := initial_info; reqMaxPrivLevel := priv;
     sessionUserPrivAccess := PrivAccess0; sessionChannelAccess := ChannelAccess0;
     sequenceNums := {| seq_in := 0; seq_out := 0 |}; userName := []; channelPtr := None;
     s_bmcSessionID := bmcID; remoteConsoleSessionID := rcID;
     authAlgoInterface := None; integrityAlgoInterface := None;
     cryptAlgoInterface := None; lastTime := 0 |}.

Definition getAuthAlgo {S} (s : Session) : M S AuthAlgo :=
  match authAlgoInterface s with
  | Some a => ret a
  | None => throw (RuntimeError "Authentication Algorithm Empty")
  end.
Definition getIntegrityAlgo {S} (s : Session) : M S IntegrityAlgo :=
  match integrityAlgoInterface s with
  | Some a => ret a
  | None => throw (RuntimeError "Integrity Algorithm Empty")
  end.
Definition getCryptAlgo {S} (s : Session) : M S (list Z) :=
  match cryptAlgoInterface s with
  | Some a => ret a
  | None => throw (RuntimeError "Confidentiality Algorithm Empty")
  end.
Definition isIntegrityAlgoEnabled (s : Session) : bool := bool_decide (is_Some (integrityAlgoInterface s)).
Definition isCryptAlgoEnabled (s : Session) : bool := bool_decide (is_Some (cryptAlgoInterface s)).

Definition updateLastTransactionTime (p : nat) : M Net unit :=
  let! n := get in on_obj p (fun s => s <| lastTime := now n |>).

Definition isSessionActive (s : Session) (currentTime activeGrace setupGrace : Z) : bool :=
  let elapsedMicros := currentTime - lastTime s in
  if state (info s) =? State.active then elapsedMicros <? activeGrace
  else if state (info s) =? State.setupInProgress then elapsedMicros <? setupGrace
  else false.

(** ** Manager: handles *)
Fixpoint find_slot (f : Z -> bool) (i : nat) (l : list Z) : option nat :=
  match l with
  | [] => None
  | z :: l' => if f z then Some i else find_slot f (S i) l'
  end.

(** The slots 1 to 62: slot 0 stands for "invalid". *)
Definition storeSessionHandle (bmcSessionID : Z) : M Net Z :=
  let! n := get in
  match find_slot (Z.eqb 0) 1 (drop 1 (sessionHandleMap n)) with
  | Some i =>
      modify (fun n => n <| sessionHandleMap := <[i:=bmcSessionID]> (sessionHandleMap n) |>) ;;;
      ret (Z.of_nat i)
  | None => ret 0
  end.

Definition getSessionHandle (n : Net) (bmcSessionID : Z) : Z :=
  match find_slot (Z.eqb bmcSessionID) 1 (drop 1 (sessionHandleMap n)) with
  | Some i => Z.of_nat i
  | None => 0
  end.

Definition getSessionIDbyHandle (handle : Z) : M Net Z :=
  let! n := get in
  if handle <? Z.of_nat maxSessionHandles
  then idx (sessionHandleMap n) (Z.to_nat handle) else ret 0.

(** ** Manager: the table *)
Definition is_active (n : Net) (kp : Z * nat) : bool :=
  match heap n !! kp.2 with Some s => state (info s) =? State.active | None => false end.
Definition getActiveSessionCount (n : Net) : Z :=
  u8 (Z.of_nat (length (filter (fun kp => is_active n kp) (map_to_list (sessionsMap n))))).

Definition getSession (sessionID : Z) : M Net nat :=
  let! n := get in
  match sessionsMap n !! sessionID with
  | Some p => ret p
  | None => throw (RuntimeError "Session ID not found")
  end.

Definition scheduleSessionCleaner (when : Z) : M Net unit :=
  let! n := get in
  let expTime := timerExpiry n - now n in
  if (0 <? expTime) && (expTime <? when) then ret tt
  else modify (fun n => n <| timerExpiry := now n + when |> <| timerWaiting := true |>).

(** Conversion of an unsigned difference to [int]. *)
Definition overflow_of (count limit : Z) : Z := Z.max 0 (sext 32 (u64 (count - limit))).
(** [(max(0, count - limit) + 1)^3] in [int]. *)
Definition idle_divisor {S} (count limit : Z) : M S Z :=
  let! d := sint (overflow_of count limit + 1) in
  let! d2 := sint (d * d) in
  sint (d2 * d).

Definition baseIdleMicros : Z := 60 * 1000 * 1000.
Definition maxSetupMicros : Z := 3 * 1000 * 1000.
Definition maxCleanupDelay : Z := 1 * 1000 * 1000.

Definition graces (n : Net) : M Net (Z * Z) :=
  let! sessionDivisor := idle_divisor (getActiveSessionCount n) maxSessionCountPerChannel in
  let activeMicros := Z.quot baseIdleMicros sessionDivisor in
  let! setupDivisor := idle_divisor (Z.of_nat (size (sessionsMap n)))
                                    (maxSessionCountPerChannel + 1) in
  let setupMicros := Z.min maxSetupMicros (Z.quot baseIdleMicros setupDivisor) in
  ret (activeMicros, setupMicros).

Definition clean_entry (activeGrace setupGrace : Z) (kp : Z * nat) : M Net unit :=
  let! s := obj kp.2 in
  if s_bmcSessionID s =? sessionZero then ret tt
  else
    let! n := get in
    if isSessionActive s (now n) activeGrace setupGrace then ret tt
    else modify (fun n =>
           n <| sessionHandleMap :=
                  <[Z.to_nat (getSessionHandle n (s_bmcSessionID s)) := 0]> (sessionHandleMap n) |>
             <| sessionsMap := delete kp.1 (sessionsMap n) |>).

Definition cleanStaleEntries : M Net unit :=
  let! n := get in
  let! g := graces n in
  mfor (map_to_list (sessionsMap n)) (clean_entry g.1 g.2) ;;;
  let! n := get in
  if (1 <? Z.of_nat (size (sessionsMap n)))
  then scheduleSessionCleaner (Z.min g.2 maxCleanupDelay) else ret tt.

Section Manager.
Context `{Crypto, Settings}.

(** [crypto::prng::rand] does not look at the result of [RAND_bytes]. *)
Definition prng_rand : M Net Z :=
  let! o := rand_bytes 4 in
  let! l := init_read o in
  ret (le_value l).

Definition candidate_id (inst draw : Z) : Z :=
  Z.lor (Z.land draw multiIntfaceSessionIDMask) (u32 (Z.shiftl inst 30)).

(** The [do ... while (1)] search for an id that is not in use. *)
Fixpoint draw_id (fuel : nat) : M Net Z :=
  match fuel with
  | O => undef OutOfFuel
  | S fuel' =>
      let! draw := prng_rand in
      let! n := get in
      let bmcSessionID := candidate_id (ipmiNetworkInstance n) draw in
      match sessionsMap n !! bmcSessionID with
      | Some _ => draw_id fuel'
      | None => ret bmcSessionID
      end
  end.

Definition start_auth (authAlgo intAlgo cryptAlgo : Z) : M Net AuthAlgo :=
  if authAlgo =? RAKP_HMAC_SHA1 then ret (new_AuthAlgo SHA1 intAlgo cryptAlgo)
  else if authAlgo =? RAKP_HMAC_SHA256 then ret (new_AuthAlgo SHA256 intAlgo cryptAlgo)
  else throw (RuntimeError "Invalid Authentication Algorithm").

Definition add_session (bmcSessionID : Z) (s : Session) : M Net nat := fun n =>
  let p := nextObject n in
  Ret p (n <| heap := <[p:=s]> (heap n) |> <| nextObject := S p |>
           <| sessionsMap := <[bmcSessionID:=p]> (sessionsMap n) |>).

Definition startSession (remoteConsoleSessID priv authAlgo intAlgo cryptAlgo : Z) : M Net nat :=
  cleanStaleEntries ;;;
  scheduleSessionCleaner (1 * 1000 * 1000) ;;;
  let! n := get in
  let activeSessions := u64 (Z.of_nat (size (sessionsMap n)) - maxSessionlessCount) in
  if activeSessions <? Z.of_nat maxSessionHandles then
    let! bmcSessionID := draw_id id_fuel in
    let! handle := storeSessionHandle bmcSessionID in
    if handle =? 0 then throw (RuntimeError "Invalid sessionHandle - No sessionID slot ")
    else
      let! n := get in
      let handle := u8 (Z.lor (Z.land handle multiIntfaceSessionHandleMask)
                              (Z.shiftl (ipmiNetworkInstance n) 6)) in
      let! a := start_auth authAlgo intAlgo cryptAlgo in
      let s := (new_Session remoteConsoleSessID bmcSessionID priv)
                 <| authAlgoInterface := Some a |> in
      let! p := add_session bmcSessionID s in
      on_info p (fun i => i <| sessionHandle := handle |>) ;;;
      ret p
  else throw (RuntimeError "No free sessions left").

Definition stopSession (bmcSessionID : Z) : M Net bool :=
  let! n := get in
  match sessionsMap n !! bmcSessionID with
  | Some p => on_info p (fun i => i <| state := State.tearDownInProgress |>) ;;; ret true
  | None => ret false
  end.

(** ** Start of the manager *)
Definition maxIpmiChannels : Z := 16.
Definition lan8032 : Z := 4.

(** One iteration per channel 1 to 15; [index] counts the LAN channels seen. *)
Fixpoint scan_channels (medium : Z -> Z) (chs : list Z) (index : Z) : M Net unit :=
  match chs with
  | [] => ret tt
  | ch :: chs' =>
      if index <? maxNetworkInstanceSupported then
        if medium ch =? lan8032 then
          (if getInterfaceIndex =? ch
           then modify (fun n => n <| ipmiNetworkInstance := index |>) else ret tt) ;;;
          scan_channels medium chs' (index + 1)
        else scan_channels medium chs' index
      else ret tt
  end.
Definition setNetworkInstance : M Net unit :=
  let! n := get in
  scan_channels (channelMediumType (users n)) (map Z.of_nat (seq 1 15)) 0.

Definition managerInit : M Net unit :=
  setNetworkInstance ;;;
  let! _ := add_session 0 (new_Session 0 0 0) in
  scheduleSessionCleaner (3 * 1000 * 1000).

Definition initial_sol : SolManager :=
  {| dataBuffer := []; progress := 0; enable := true; forceEncrypt := true;
     forceAuth := true; solMinPrivilege := Privilege.USER; accumulateInterval := 100000;
     sendThreshold := 1; retryCount := 7; retryInterval := 100000; payloadMap := ∅;
     consoleSocket := false; consoleWrites := [] |}.

(** The process before [managerInit]. *)
Definition initial_Net (u : UserLayer) (g : list Z) (t : Z) : Net :=
  {| heap := ∅; nextObject := 0; sessionsMap := ∅;
     sessionHandleMap := replicate maxSessionHandles 0; ipmiNetworkInstance := 0;
     timerExpiry := 0; timerWaiting := false; now := t; rng := 0; users := u; guid := g;
     sent := []; writeResults := [];
     answers := {| connects := false; solProperties := None; cipherFile := None;
                   sessionObjects := None |};
     cipherCache := None; busWrites := []; forwards := []; pending := ∅; nextCall := 0;
     sol := initial_sol |}.
End Manager.
