(* ===== verification/RmcpParser.v ===== *)
(** * The packet parser

    [message_parsers.*]: [unflatten] turns a datagram into a message,
    [flatten] a message into a datagram, for IPMI 1.5 and RMCP+ (IPMI 2.0)
    session headers, and for the ASF ping of a build with [RMCP_PING].  Header
    structures are packed, so a field is a byte range at a fixed offset. *)
From Stdlib Require Import ZArith Lia String.
From stdpp Require Import base list gmap.
From S2P Require Import Prelude RmcpMessage RmcpCrypto RmcpState RmcpSession.
Local Open Scope Z_scope.

Definition RMCP_VERSION : Z := 6.
Definition RMCP_SEQ : Z := 0xFF.
Definition RMCP_MESSAGE_CLASS_IPMI : Z := 7.
Definition RMCP_ASF_PONG_DATA_LEN : Z := 16.
Definition ASF_IANA : Z := 4542.
Definition ASF_SUPP_ENT : Z := 0x81.
Definition ASF_SUPP_INT : Z := 0x00.
Definition PAYLOAD_ENCRYPT_MASK : Z := 0x80.
Definition PAYLOAD_AUTH_MASK : Z := 0x40.
Definition RMCP_PONG : Z := 0x40.

Definition session_header_byte (h : SessionHeader) : Z :=
  match h with IPMI15 => 0x00 | IPMI20 => 0x06 end.
Definition rmcp_header (classOfMsg : Z) : list Z := [RMCP_VERSION; 0x00; RMCP_SEQ; classOfMsg].

Definition zlen (l : list Z) : Z := Z.of_nat (length l).

(** ** IPMI 1.5: 14 byte header, 1 byte trailer *)
Module ipmi15parser.
Definition sizeof_SessionHeader : Z := 14.

Definition unflatten (inPacket : list Z) : M Net Message :=
  if zlen inPacket <? sizeof_SessionHeader
  then throw (RuntimeError "IPMI1.5 Session Header Missing")
  else
    let! sessionID := rd32 inPacket 9 in
    if negb (sessionID =? sessionZero)
    then throw (RuntimeError "IPMI1.5 session packets are unsupported")
    else
      let! seq := rd32 inPacket 5 in
      let! cls := rd8 inPacket 3 in
      let! payloadLen := rd8 inPacket 13 in
      if (payloadLen =? 0) || (zlen inPacket <? sizeof_SessionHeader + payloadLen)
      then throw (RuntimeError "Invalid data length")
      else
        let! p := read_range inPacket sizeof_SessionHeader payloadLen in
        ret (new_Message <| payloadType := PayloadType.IPMI |>
                         <| bmcSessionID := sessionZero |>
                         <| sessionSeqNum := Some seq |>
                         <| isPacketEncrypted := Some false |>
                         <| isPacketAuthenticated := Some false |>
                         <| rmcpMsgClass := cls |> <| payload := p |>).

(** The trailer pointer is taken after the vector was enlarged: the store of
    [legacyPad] goes one byte past the end. *)
Definition flatten (outMessage : Message) : M Net (list Z) :=
  let header := rmcp_header ClassOfMsg.IPMI ++ [session_header_byte IPMI15]
                ++ to_ipmi32 0 ++ to_ipmi32 (rcSessionID outMessage)
                ++ [u8 (zlen (payload outMessage))] in
  let packet := header ++ payload outMessage in
  let packet := packet ++ [0] in
  let trailer := length packet in
  if (trailer <? length packet)%nat then ret (<[trailer:=0]> packet) else undef OutOfBounds.
End ipmi15parser.

(** ** RMCP+: 16 byte header, 2 byte trailer before the integrity data *)
Module ipmi20parser.
Definition sizeof_SessionHeader : Z := 16.
Definition sizeof_SessionTrailer : Z := 2.

Definition integrity_padding (payloadLen : Z) : Z := 4 - Z.land (payloadLen + 2) 3.

Section Crypto.
Context `{Crypto}.

Definition verifyPacketIntegrity (packet : list Z) (payloadLen : Z) (session : Session)
    : M Net bool :=
  let paddingLen := integrity_padding payloadLen in
  let sessTrailerPos := sizeof_SessionHeader + payloadLen + paddingLen in
  if zlen packet <? sessTrailerPos + sizeof_SessionTrailer then ret false
  else
    let! padLength := rd8 packet (Z.to_nat sessTrailerPos) in
    if negb (padLength =? paddingLen) then ret false
    else
      let! integrityAlgo := getIntegrityAlgo session in
      if negb (zlen packet - sessTrailerPos - sizeof_SessionTrailer
               =? Z.of_nat (authCodeLength integrityAlgo))
      then ret false
      else
        let len := zlen packet - Z.of_nat (authCodeLength integrityAlgo)
                   - RMCP_SESSION_HEADER_SIZE in
        verifyIntegrityData integrityAlgo packet len
          (drop (Z.to_nat (sessTrailerPos + sizeof_SessionTrailer)) packet).

Definition addIntegrityData (packet : list Z) (payloadLen : Z) (session : Session)
    : M Net (list Z) :=
  let paddingLen := integrity_padding payloadLen in
  let packet := packet ++ replicate (Z.to_nat paddingLen) 0xFF
                ++ [paddingLen; RMCP_MESSAGE_CLASS_IPMI] in
  let! integrityAlgo := getIntegrityAlgo session in
  let! integrityData := generateIntegrityData integrityAlgo packet in
  ret (packet ++ integrityData).

Definition decryptPayload (packet : list Z) (payloadLen : Z) (session : Session)
    : M Net (list Z) :=
  let! k2 := getCryptAlgo session in
  aes_decryptPayload k2 packet sizeof_SessionHeader payloadLen.

Definition encryptPayload (outMessage : Message) (session : Session) : M Net (list Z) :=
  let! k2 := getCryptAlgo session in
  let! iv := rand_bytes AESCBC128ConfHeader in
  aes_encryptPayload k2 iv (payload outMessage).

Definition unflatten (inPacket : list Z) : M Net Message :=
  if zlen inPacket <? sizeof_SessionHeader
  then throw (RuntimeError "IPMI2.0 Session Header Missing")
  else
    let! sessionID := rd32 inPacket 6 in
    let! p := getSession sessionID in
    let! session := obj p in
    let! ptype := rd8 inPacket 5 in
    let! seq := rd32 inPacket 10 in
    let! cls := rd8 inPacket 3 in
    let encrypted := negb (Z.land ptype PAYLOAD_ENCRYPT_MASK =? 0) in
    let authenticated := negb (Z.land ptype PAYLOAD_AUTH_MASK =? 0) in
    let message := new_Message <| payloadType := Z.land ptype 0x3F |>
                               <| bmcSessionID := sessionID |>
                               <| sessionSeqNum := Some seq |>
                               <| isPacketEncrypted := Some encrypted |>
                               <| isPacketAuthenticated := Some authenticated |>
                               <| rmcpMsgClass := cls |> in
    let! payloadLen := rd16 inPacket 14 in
    if (payloadLen =? 0) || (zlen inPacket <? sizeof_SessionHeader + payloadLen)
    then throw (RuntimeError "Invalid data length")
    else
      let integrityMismatch := isIntegrityAlgoEnabled session && negb authenticated in
      let encryptMismatch := isCryptAlgoEnabled session && negb encrypted in
      if negb (sessionID =? sessionZero) && (integrityMismatch || encryptMismatch)
      then throw (RuntimeError "unencrypted or unauthenticated message")
      else
        let! intact := if authenticated then verifyPacketIntegrity inPacket payloadLen session
                       else ret true in
        if negb intact then throw (RuntimeError "Packet Integrity check failed")
        else
          let! pl := if encrypted then decryptPayload inPacket payloadLen session
                     else read_range inPacket sizeof_SessionHeader payloadLen in
          ret (message <| payload := pl |>).

(** The session's outbound number, in the header of the packet. *)
Definition addSequenceNumber (sessId : Z) (p : nat) : M Net (list Z) :=
  if sessId =? sessionZero then ret (to_ipmi32 0)
  else
    on_obj p (fun s => s <| sequenceNums := seq_increment (sequenceNums s) |>) ;;;
    let! s := obj p in
    ret (to_ipmi32 (seq_out (sequenceNums s))).

(** The header with payload type [ptype], sequence number bytes and length. *)
Definition header_bytes (ptype sessId : Z) (seq : list Z) (payloadLen : Z) : list Z :=
  rmcp_header ClassOfMsg.IPMI ++ [session_header_byte IPMI20; ptype]
  ++ to_ipmi32 sessId ++ seq ++ to_ipmi16 payloadLen.

Definition flatten (outMessage : Message) (p : nat) : M Net (list Z) :=
  let sessId := rcSessionID outMessage in
  let! seq := addSequenceNumber sessId p in
  let! session := obj p in
  let! encrypted := init_read (isPacketEncrypted outMessage) in
  let! pl := if encrypted then encryptPayload outMessage session
             else ret (payload outMessage) in
  let ptype := if encrypted then Z.lor (payloadType outMessage) PAYLOAD_ENCRYPT_MASK
               else payloadType outMessage in
  let! authenticated := init_read (isPacketAuthenticated outMessage) in
  if authenticated
  then addIntegrityData
         (header_bytes (Z.lor ptype PAYLOAD_AUTH_MASK) sessId seq (zlen pl) ++ pl)
         (zlen pl) session
  else ret (header_bytes ptype sessId seq (zlen pl) ++ pl).
End Crypto.
End ipmi20parser.

(** ** RMCP ping (compiled with [RMCP_PING]) *)
Module asfparser.
(** The 12 byte ping is overlaid on whatever was received. *)
Definition unflatten (inPacket : list Z) : M Net Message :=
  let! tag := rd8 inPacket 9 in
  ret (new_Message <| payloadType := PayloadType.IPMI |>
                   <| rmcpMsgClass := ClassOfMsg.ASF |> <| asfMsgTag := Some tag |>).

(** [to_ipmi] is used for the IANA number, a big-endian field of ASF. *)
Definition flatten (asfMsgTag : Z) : list Z :=
  rmcp_header ClassOfMsg.ASF ++ to_ipmi32 ASF_IANA
  ++ [RMCP_PONG; asfMsgTag; 0x00; RMCP_ASF_PONG_DATA_LEN]
  ++ to_ipmi32 ASF_IANA ++ to_ipmi32 0 ++ [ASF_SUPP_ENT; ASF_SUPP_INT]
  ++ to_ipmi32 0 ++ to_ipmi16 0.
End asfparser.

(** ** Dispatch *)
Module parser.
Definition unflatten `{Crypto, Settings} (inPacket : list Z) : M Net (Message * SessionHeader) :=
  if zlen inPacket <? 4 then throw (RuntimeError "RMCP Header missing")
  else
    let! version := rd8 inPacket 0 in
    let! rmcpSeqNum := rd8 inPacket 2 in
    let! classOfMsg := rd8 inPacket 3 in
    if negb (version =? RMCP_VERSION) || negb (rmcpSeqNum =? RMCP_SEQ)
       || ((classOfMsg <? ClassOfMsg.ASF) && (ClassOfMsg.OEM <? classOfMsg))
    then throw (RuntimeError "RMCP Header is invalid")
    else if classOfMsg =? ClassOfMsg.ASF then
      if RMCP_PING
      then let! m := asfparser.unflatten inPacket in ret (m, IPMI15)
      else throw (RuntimeError "RMCP Ping is not supported")
    else
      let! formatType := rd8 inPacket 4 in
      if formatType =? session_header_byte IPMI15
      then let! m := ipmi15parser.unflatten inPacket in ret (m, IPMI15)
      else if formatType =? session_header_byte IPMI20
      then let! m := ipmi20parser.unflatten inPacket in ret (m, IPMI20)
      else throw (RuntimeError "Invalid Session Header").

Definition flatten `{Crypto} (outMessage : Message) (authType : SessionHeader) (p : nat)
    : M Net (list Z) :=
  match authType with
  | IPMI15 => ipmi15parser.flatten outMessage
  | IPMI20 => ipmi20parser.flatten outMessage p
  end.
End parser.
