(* ===== verification/RmcpHandler.v ===== *)
(** * The message handler: sending

    [message_handler.*], the part that the command handlers and SOL use:
    construction on a session, the replies and the unsolicited messages.  The
    part that receives and dispatches is in [RmcpCommands], after the commands
    it calls. *)
From Stdlib Require Import ZArith Lia String.
From stdpp Require Import base list gmap.
From S2P Require Import Prelude RmcpMessage RmcpCrypto RmcpState RmcpSession RmcpParser.
Local Open Scope Z_scope.

(** [Channel::write]: the scripted result of [sendmsg], success by default. *)
Definition channel_write (ch : Channel) (packet : list Z) : M Net Z := fun n =>
  match writeResults n with
  | [] => Ret (zlen packet) (n <| sent := (ch, packet) :: sent n |>)
  | r :: rs =>
      let n := n <| writeResults := rs |> in
      if r <? 0 then Ret r n else Ret r (n <| sent := (ch, packet) :: sent n |>)
  end.

Definition writeData (h : Handler) (packet : list Z) : M Net unit :=
  let! ch := deref (h_channel h) in
  let! writeStatus := channel_write ch packet in
  if writeStatus <? 0 then throw (RuntimeError "Error in writing to socket") else ret tt.

(** [Handler(channel, sessionID)]. *)
Definition new_Handler (ch : option Channel) (sessionID : Z) : M Net Handler :=
  let! p := if sessionID =? MESSAGE_INVALID_SESSION_ID then ret None
            else let! p := getSession sessionID in ret (Some p) in
  ret {| h_sessionID := sessionID; h_channel := ch; outPayload := None;
         sessionHeader := IPMI20; inMessage := None; h_session := p |}.

(** The handler of a received packet, before [processIncoming]. *)
Definition receive_Handler (ch : Channel) : Handler :=
  {| h_sessionID := MESSAGE_INVALID_SESSION_ID; h_channel := Some ch; outPayload := None;
     sessionHeader := IPMI20; inMessage := None; h_session := None |}.

(** The IPMI 1.5 serialiser ignores the session pointer. *)
Definition send `{Crypto} (h : Handler) (outMessage : Message) : M Net unit :=
  let! packet := match sessionHeader h with
                 | IPMI15 => parser.flatten outMessage IPMI15 0
                 | IPMI20 => let! p := deref (h_session h) in
                             parser.flatten outMessage IPMI20 p
                 end in
  writeData h packet.

Definition sendASF (h : Handler) : M Net unit :=
  let! m := deref (inMessage h) in
  let! tag := init_read (asfMsgTag m) in
  writeData h (asfparser.flatten tag).

Definition setChannelInSession (h : Handler) : M Net unit :=
  let! p := deref (h_session h) in
  on_obj p (fun s => s <| channelPtr := h_channel h |>).

(** A message to the console of the handler's session, protected with
    whatever the session has. *)
Definition session_message (h : Handler) (ptype : Z) (pl : list Z) : M Net Message :=
  let! p := deref (h_session h) in
  let! s := obj p in
  ret (new_Message <| payloadType := ptype |> <| payload := pl |>
                   <| isPacketEncrypted := Some (isCryptAlgoEnabled s) |>
                   <| isPacketAuthenticated := Some (isIntegrityAlgoEnabled s) |>
                   <| rcSessionID := remoteConsoleSessionID s |>
                   <| bmcSessionID := h_sessionID h |>).

Definition sendSOLPayload `{Crypto} (h : Handler) (input : list Z) : M Net unit :=
  let! m := session_message h PayloadType.SOL input in send h m.

Definition sendUnsolicitedIPMIPayload `{Crypto} (h : Handler) (netfn cmd : Z) (output : list Z)
    : M Net unit :=
  let netfn := u8 (Z.shiftl netfn 2) in
  let body := [responderBMCAddress; 0; cmd] ++ output in
  let pl := [requesterBMCAddress; netfn; crc8bit [requesterBMCAddress; netfn]]
            ++ body ++ [crc8bit body] in
  let! m := session_message h PayloadType.IPMI pl in send h m.

(** [~Handler]: the reply is sent when the last reference goes away; an
    exception is logged and dropped. *)
Definition destroy `{Crypto, Settings} (h : Handler) : M Net unit :=
  try (let! ping := if RMCP_PING
                    then let! m := deref (inMessage h) in
                         ret (ClassOfMsg.ASF =? rmcpMsgClass m)
                    else ret false in
       if ping then sendASF h
       else match outPayload h with
            | None => ret tt
            | Some out =>
                let! m := deref (inMessage h) in
                let! r := createResponse m out in
                match r with None => ret tt | Some outMessage => send h outMessage end
            end)
      (fun _ => ret tt).
