(* ===== verification/Sol.v ===== *)
(** * Serial over LAN

    [sol/console_buffer.hpp], [sol/sol_context.*], [sol/sol_manager.*],
    [command/payload_cmds.*], [command/sol_cmds.*].  A context is owned by the
    payload map alone (its timers hold weak references), so it is a value of
    the map.  A timer is its deadline while a wait is pending. *)
From Stdlib Require Import ZArith Lia String.
From stdpp Require Import base list gmap.
From S2P Require Import Prelude RmcpMessage RmcpCrypto RmcpState RmcpSession RmcpParser RmcpHandler.
Local Open Scope Z_scope.

Definition sizeof_Payload : nat := 4.
Definition SOL_MAX_PAYLOAD_SIZE : nat := 255.
Definition MAX_SOL_SEQUENCE_NUMBER : Z := 0x10.

(** ** Console buffer *)
Definition console_write (data input : list Z) : list Z := data ++ input.
Definition console_erase (data : list Z) (size : nat) : list Z :=
  drop (Nat.min (length data) size) data.

(** ** Sequence numbers *)
Definition next_sol_seq (n : Z) : Z :=
  let n := u8 (n + 1) in if n =? MAX_SOL_SEQUENCE_NUMBER then 1 else n.

(** Operation/status byte of an outbound payload: only the NACK bit is used. *)
Definition out_operation (nack : bool) : Z := if nack then 0x40 else 0.

(** ** Context *)
Definition get_ctx (i : Z) : M Net Context := fun n => deref (payloadMap (sol n) !! i) n.
Definition on_ctx (i : Z) (f : Context -> Context) : M Net unit :=
  on_sol (fun m => m <| payloadMap := alter f i (payloadMap m) |>).

Definition new_Context (maxRetry threshold instance sessionID : Z) : M Net Context :=
  let! p := getSession sessionID in
  ret {| maxRetryCount := maxRetry; retryCounter := maxRetry; c_sendThreshold := threshold;
         payloadInstance := instance; c_sessionID := sessionID; c_session := p;
         expectedCharCount := 0; sol_in := 1; sol_out := 0; payloadCache := [];
         accumulateTimer := None; retryTimer := None |}.

Definition armed (on : bool) (now interval : Z) : option Z :=
  if on then Some (now + interval) else None.
Definition enableAccumulateTimer (i : Z) (on : bool) : M Net unit :=
  let! n := get in
  on_ctx i (fun c => c <| accumulateTimer := armed on (now n) (accumulateInterval (sol n)) |>).
Definition enableRetryTimer (i : Z) (on : bool) : M Net unit :=
  let! n := get in
  on_ctx i (fun c => c <| retryTimer := armed on (now n) (retryInterval (sol n)) |>).

(** [Manager::writeConsoleSocket]: 0 or an error code, from the script. *)
Definition writeConsoleSocket (input : list Z) (breakFlag : bool) : M Net Z :=
  let! n := get in
  if consoleSocket (sol n) then
    match writeResults n with
    | [] => on_sol (fun m => m <| consoleWrites := (input, breakFlag) :: consoleWrites m |>) ;;;
            ret 0
    | r :: rs =>
        modify (fun n => n <| writeResults := rs |>) ;;;
        (if r =? 0
         then on_sol (fun m => m <| consoleWrites := (input, breakFlag) :: consoleWrites m |>)
         else ret tt) ;;;
        ret r
    end
  else undef NullDeref.

Section Context.
Context `{Crypto}.

Definition sendPayload (i : Z) (out : list Z) : M Net unit :=
  let! c := get_ctx i in
  let! s := obj (c_session c) in
  let! h := new_Handler (channelPtr s) (c_sessionID c) in
  sendSOLPayload h out.

(** A data packet with the head of the console buffer becomes the cached one. *)
Definition cache_payload (i : Z) (ackSeqNum count : Z) (nack : bool) : M Net (list Z) :=
  let! n := get in
  let readSize := Nat.min (length (dataBuffer (sol n))) SOL_MAX_PAYLOAD_SIZE in
  let! c := get_ctx i in
  let seq := next_sol_seq (sol_out c) in
  let out := [seq; ackSeqNum; count; out_operation nack] ++ take readSize (dataBuffer (sol n)) in
  on_ctx i (fun c => c <| payloadCache := out |> <| sol_out := seq |>
                       <| expectedCharCount := readSize |>) ;;;
  enableRetryTimer i true ;;;
  enableAccumulateTimer i false ;;;
  ret out.

Definition prepareResponse (i ackSeqNum count : Z) (nack : bool) : M Net unit :=
  let! n := get in
  let! c := get_ctx i in
  if negb (length (payloadCache c) =? 0)%nat
     || (Z.of_nat (length (dataBuffer (sol n))) <? c_sendThreshold c) then
    enableAccumulateTimer i true ;;;
    sendPayload i [0; ackSeqNum; count; out_operation nack]
  else
    let! out := cache_payload i ackSeqNum count nack in
    sendPayload i out.

Definition sendOutboundPayload (i : Z) : M Net Z :=
  let! c := get_ctx i in
  if negb (length (payloadCache c) =? 0)%nat
  then enableAccumulateTimer i true ;;; ret (-1)
  else
    let! out := cache_payload i 0 0 false in
    sendPayload i out ;;; ret 0.

(** [expectedCharCount] is cleared before it is used as the size to erase. *)
Definition resendPayload (i : Z) (clear : bool) : M Net unit :=
  let! c := get_ctx i in
  sendPayload i (payloadCache c) ;;;
  if clear then
    on_ctx i (fun c => c <| payloadCache := [] |> <| expectedCharCount := 0%nat |>) ;;;
    let! c := get_ctx i in
    on_sol (fun m => m <| dataBuffer := console_erase (dataBuffer m) (expectedCharCount c) |>)
  else ret tt.

(** The acknowledgement of the outstanding packet. *)
Definition acknowledge (i count : Z) : M Net unit :=
  on_sol (fun m => m <| dataBuffer := console_erase (dataBuffer m) (Z.to_nat count) |>) ;;;
  enableRetryTimer i false ;;;
  on_ctx i (fun c => c <| retryCounter := maxRetryCount c |>
                       <| expectedCharCount := 0%nat |> <| payloadCache := [] |>).

(** Character data and breaks towards the host; the result is the triple of
    acknowledged number, accepted count and NACK bit of the response. *)
Definition host_output (seqNum : Z) (isBreak : bool) (input : list Z) : M Net (Z * Z * bool) :=
  (if isBreak && negb (seqNum =? 0)
   then let! _ := writeConsoleSocket [72] true in ret tt else ret tt) ;;;
  if negb (length input =? 0)%nat && negb (seqNum =? 0) then
    let! rc := writeConsoleSocket input false in
    if negb (rc =? 0) then ret (0, 0, true) else ret (seqNum, u8 (zlen input), false)
  else if (length input =? 0)%nat && negb (seqNum =? 0) then ret (seqNum, 0, false)
  else ret (0, 0, false).

Definition processInboundPayload (i seqNum ackSeqNum count : Z) (status isBreak : bool)
    (input : list Z) : M Net unit :=
  let! c := get_ctx i in
  if negb (seqNum =? 0) && negb (seqNum =? sol_in c) then ret tt
  else if negb (ackSeqNum =? 0) && negb (ackSeqNum =? sol_out c) then ret tt
  else if status
          || (negb (count =? Z.of_nat (expectedCharCount c)) && negb (ackSeqNum =? 0)) then
    resendPayload i false ;;;
    enableRetryTimer i false ;;;
    enableRetryTimer i true
  else
    (if (count =? Z.of_nat (expectedCharCount c)) && negb (ackSeqNum =? 0)
     then acknowledge i count else ret tt) ;;;
    let! r := host_output seqNum isBreak input in
    let '(respAckSeqNum, acceptedCount, nack) := r in
    if negb (seqNum =? 0) then
      on_ctx i (fun c => c <| sol_in := next_sol_seq (sol_in c) |>) ;;;
      prepareResponse i respAckSeqNum acceptedCount nack
    else enableAccumulateTimer i true.

Definition charAccTimerHandler (i : Z) : M Net unit :=
  let! n := get in
  try (let! rc := if (0 <? length (dataBuffer (sol n)))%nat then sendOutboundPayload i
                  else ret (-1) in
       if rc =? 0 then ret tt else enableAccumulateTimer i true)
      (fun _ => ret tt).

Definition retryTimerHandler (i : Z) : M Net unit :=
  try (let! c := get_ctx i in
       if negb (retryCounter c =? 0) then
         on_ctx i (fun c => c <| retryCounter := retryCounter c - 1 |>) ;;;
         enableRetryTimer i true ;;;
         resendPayload i false
       else
         on_ctx i (fun c => c <| retryCounter := maxRetryCount c |>) ;;;
         resendPayload i true ;;;
         enableRetryTimer i false ;;;
         enableAccumulateTimer i true)
      (fun _ => ret tt).

(** ** Manager *)

(** [startHostConsole]: [connect] succeeds or throws, by the answers. *)
Definition startHostConsole : M Net unit :=
  let! n := get in
  if consoleSocket (sol n) then ret tt
  else if connects (answers n) then on_sol (fun m => m <| consoleSocket := true |>)
  else throw (RuntimeError "connect").
Definition stopHostConsole : M Net unit := on_sol (fun m => m <| consoleSocket := false |>).

Definition startPayloadInstance (instance sessionID : Z) : M Net unit :=
  let! n := get in
  (if bool_decide (payloadMap (sol n) = ∅)
   then try startHostConsole (fun e => stopHostConsole ;;; throw e)
   else ret tt) ;;;
  let! c := new_Context (retryCount (sol n)) (sendThreshold (sol n)) instance sessionID in
  let c := c <| accumulateTimer := armed true (now n) (accumulateInterval (sol n)) |> in
  on_sol (fun m =>
    match payloadMap m !! instance with
    | Some _ => m
    | None => m <| payloadMap := <[instance:=c]> (payloadMap m) |>
    end).

Definition clear_console : M Net unit :=
  stopHostConsole ;;;
  on_sol (fun m => m <| dataBuffer := console_erase (dataBuffer m) (length (dataBuffer m)) |>).

Definition stopPayloadInstance (instance : Z) : M Net unit :=
  let! n := get in
  match payloadMap (sol n) !! instance with
  | None => throw (RuntimeError "SOL Payload instance not found ")
  | Some _ =>
      on_sol (fun m => m <| payloadMap := delete instance (payloadMap m) |>) ;;;
      let! n := get in
      if bool_decide (payloadMap (sol n) = ∅) then clear_console else ret tt
  end.

Definition stopAllPayloadInstance : M Net unit :=
  on_sol (fun m => m <| payloadMap := ∅ |>) ;;; clear_console.

(** [consoleInputHandler]: what the console socket delivered, or a read error. *)
Definition consoleInputHandler (data : option (list Z)) : M Net unit :=
  match data with
  | None => ret tt
  | Some buffer => on_sol (fun m => m <| dataBuffer := console_write (dataBuffer m) buffer |>)
  end.

(** [getContext(SessionID)].  In the failing branch the message is built by
    pointer arithmetic on a literal of 22 characters, not by concatenation. *)
Definition context_of_session (n : Net) (sessionID : Z) : option Z :=
  fst <$> head (filter (fun ic : Z * Context => c_sessionID ic.2 = sessionID)
                       (map_to_list (payloadMap (sol n)))).
Definition getContext (sessionID : Z) : M Net Z :=
  let! n := get in
  match context_of_session n sessionID with
  | Some i => ret i
  | None => if sessionID <=? 22 then throw (RuntimeError "Invalid SOL SessionID ")
            else undef OutOfBounds
  end.

(** ** Commands: [sol_cmds.cpp] *)
Definition payloadHandler (inPayload : list Z) (h : Handler) : M Net (list Z) :=
  if (length inPayload <? sizeof_Payload)%nat then ret []
  else
    let! seqNum := rd8 inPayload 0 in
    let! ackSeqNum := rd8 inPayload 1 in
    let! count := rd8 inPayload 2 in
    let! operation := rd8 inPayload 3 in
    try (let! i := getContext (h_sessionID h) in
         processInboundPayload i seqNum ackSeqNum count
           (Z.testbit operation 6) (Z.testbit operation 4) (drop sizeof_Payload inPayload) ;;;
         ret [])
        (fun _ => ret []).

Definition netfnTransport : Z := 0x0C.
Definition solActivatingCmd : Z := 0x20.

Definition activating (instance sessionID : Z) : M Net unit :=
  let! p := getSession sessionID in
  let! s := obj p in
  let! h := new_Handler (channelPtr s) sessionID in
  sendUnsolicitedIPMIPayload h netfnTransport solActivatingCmd [0; instance; 1; 0].

(** ** Commands: [payload_cmds.cpp] *)
Definition IPMI_CC_OK : Z := 0x00.
Definition IPMI_CC_REQ_DATA_LEN_INVALID : Z := 0xC7.
Definition IPMI_CC_INVALID_FIELD_REQUEST : Z := 0xCC.
Definition IPMI_CC_UNSPECIFIED_ERROR : Z := 0xFF.
Definition IPMI_CC_PAYLOAD_ALREADY_ACTIVE : Z := 0x80.
Definition IPMI_CC_PAYLOAD_TYPE_DISABLED : Z := 0x81.
Definition IPMI_CC_PAYLOAD_WITHOUT_ENCRYPTION : Z := 0x84.
Definition IPMI_CC_PAYLOAD_DEACTIVATED : Z := 0x80.
Definition IPMI_STD_PORT : Z := 623.

(** A response of [n] zero bytes but for the completion code. *)
Definition cc_response (n : nat) (cc : Z) : list Z := cc :: replicate (n - 1) 0.

(** [updateSOLParameter] reads all parameters from D-Bus ([None]: the call
    failed), [procSolConfChange] is told of some. *)
Definition accIntervalFactor : Z := 5.
Definition retryIntervalFactor : Z := 10.
Definition set_sol_property (m : SolManager) (p : SolProperty) : SolManager :=
  match p with
  | PProgress v => m <| progress := v |>
  | PEnable v => m <| enable := v |>
  | PForceEncryption v => m <| forceEncrypt := v |>
  | PForceAuthentication v => m <| forceAuth := v |>
  | PPrivilege v => m <| solMinPrivilege := v |>
  | PAccumulateIntervalMS v => m <| accumulateInterval := v * accIntervalFactor * 1000 |>
  | PThreshold v => m <| sendThreshold := v |>
  | PRetryCount v => m <| retryCount := v |>
  | PRetryIntervalMS v => m <| retryInterval := v * retryIntervalFactor * 1000 |>
  end.
Definition procSolConfChange (props : list SolProperty) : M Net unit :=
  on_sol (fun m => foldl set_sol_property m props).
Definition updateSOLParameter : M Net unit :=
  let! n := get in
  match solProperties (answers n) with Some l => procSolConfChange l | None => ret tt end.

Definition activatePayload (inPayload : list Z) (h : Handler) : M Net (list Z) :=
  if negb (length inPayload =? 6)%nat then ret [IPMI_CC_REQ_DATA_LEN_INVALID]
  else
    let fail cc := ret (cc_response 13 cc) in
    let! b0 := rd8 inPayload 0 in
    let! b1 := rd8 inPayload 1 in
    let! b2 := rd8 inPayload 2 in
    let instance := Z.land b1 0xF in
    if negb (PayloadType.SOL =? Z.land b0 0x3F) then fail IPMI_CC_INVALID_FIELD_REQUEST
    else
      updateSOLParameter ;;;
      let! n := get in
      if negb (enable (sol n)) then fail IPMI_CC_PAYLOAD_TYPE_DISABLED
      else if negb (instance =? 1) then fail IPMI_CC_INVALID_FIELD_REQUEST
      else
        let! p := getSession (h_sessionID h) in
        let! session := obj p in
        if negb (Z.testbit b2 7) && isCryptAlgoEnabled session
        then fail IPMI_CC_PAYLOAD_WITHOUT_ENCRYPTION
        else
          let userId := ipmiUserGetUserId (users n) (userName session) in
          let '(cc, solEnabled) :=
            ipmiUserGetUserPayloadAccess (users n) (channelNum (info session)) userId in
          if negb (cc =? IPMI_CC_OK) || negb solEnabled then fail IPMI_CC_PAYLOAD_TYPE_DISABLED
          else if bool_decide (is_Some (payloadMap (sol n) !! instance))
          then fail IPMI_CC_PAYLOAD_ALREADY_ACTIVE
          else
            setChannelInSession h ;;;
            try (startPayloadInstance instance (h_sessionID h) ;;;
                 ret ([IPMI_CC_OK; 0; 0; 0; 0] ++ to_ipmi16 255 ++ to_ipmi16 255
                      ++ to_ipmi16 IPMI_STD_PORT ++ [0xFF; 0xFF]))
                (fun _ => fail IPMI_CC_UNSPECIFIED_ERROR).

Definition deactivatePayload (inPayload : list Z) (h : Handler) : M Net (list Z) :=
  if negb (length inPayload =? 6)%nat then ret [IPMI_CC_REQ_DATA_LEN_INVALID]
  else
    let! b0 := rd8 inPayload 0 in
    let! b1 := rd8 inPayload 1 in
    let instance := Z.land b1 0xF in
    let! n := get in
    if negb (PayloadType.SOL =? Z.land b0 0x3F) then ret [IPMI_CC_INVALID_FIELD_REQUEST]
    else if negb (instance =? 1) then ret [IPMI_CC_INVALID_FIELD_REQUEST]
    else match payloadMap (sol n) !! instance with
         | None => ret [IPMI_CC_PAYLOAD_DEACTIVATED]
         | Some c =>
             try (stopPayloadInstance instance ;;;
                  try (activating instance (c_sessionID c) ;;; ret [IPMI_CC_OK])
                      (fun _ => ret [IPMI_CC_OK]))
                 (fun _ => ret [IPMI_CC_UNSPECIFIED_ERROR])
         end.

Definition getPayloadStatus (inPayload : list Z) (h : Handler) : M Net (list Z) :=
  if negb (length inPayload =? 1)%nat then ret [IPMI_CC_REQ_DATA_LEN_INVALID]
  else
    let! ptype := rd8 inPayload 0 in
    let! n := get in
    if negb (PayloadType.SOL =? ptype) then ret (cc_response 4 IPMI_CC_UNSPECIFIED_ERROR)
    else ret [IPMI_CC_OK; 1; if bool_decide (is_Some (payloadMap (sol n) !! 1)) then 1 else 0; 0].

Definition getPayloadInfo (inPayload : list Z) (h : Handler) : M Net (list Z) :=
  if negb (length inPayload =? 2)%nat then ret [IPMI_CC_REQ_DATA_LEN_INVALID]
  else
    let! ptype := rd8 inPayload 0 in
    let! instance := rd8 inPayload 1 in
    let! n := get in
    if negb (PayloadType.SOL =? ptype) || negb (instance =? 1)
    then ret (cc_response 13 IPMI_CC_INVALID_FIELD_REQUEST)
    else
      let id := match payloadMap (sol n) !! instance with
                | Some c => c_sessionID c | None => 0 end in
      ret ([IPMI_CC_OK] ++ to_ipmi32 id ++ replicate 8 0).
End Context.
