(* ===== verification/RmcpSetup.v ===== *)
(** * Session setup: Open Session and RAKP

    [command/open_session.*], [command/rakp12.*], [command/rakp34.*],
    [command/guid.*].  RAKP is the authenticated key exchange of RMCP+: the
    console proves that it knows the user's password by a MAC over the random
    numbers of both sides, and both derive the session keys from it. *)
From Stdlib Require Import ZArith Lia String.
From stdpp Require Import base list gmap.
From S2P Require Import Prelude CxxStd RmcpMessage RmcpCrypto RmcpState RmcpSession RmcpParser.
From S2P Require Import RmcpHandler Sol.
Local Open Scope Z_scope.

Module RAKP_ReturnCode.
Definition NO_ERROR : Z := 0.
Definition INSUFFICIENT_RESOURCE : Z := 1.
Definition INVALID_SESSION_ID : Z := 2.
Definition INVALID_AUTH_ALGO : Z := 4.
Definition INVALID_INTEGRITY_ALGO : Z := 5.
Definition INACTIVE_ROLE : Z := 9.
Definition UNAUTH_ROLE_PRIV : Z := 10.
Definition INVALID_NAME_LENGTH : Z := 12.
Definition UNAUTH_NAME : Z := 13.
Definition INVALID_INTEGRITY_VALUE : Z := 15.
Definition INVALID_CONF_ALGO : Z := 16.
End RAKP_ReturnCode.

Definition sizeof_OpenSessionRequest : nat := 32.
Definition sizeof_OpenSessionResponse : nat := 36.
Definition sizeof_RAKP1request : nat := 44.
Definition sizeof_RAKP2response : nat := 40.
Definition sizeof_RAKP3request : nat := 8.
Definition userNameMaxLen : nat := 16.

(** ** Open Session *)

(** A payload descriptor: type, two reserved bytes, length, algorithm and
    three reserved bytes. *)
Definition algo_payload (ptype len algo : Z) : list Z := [ptype; 0; 0; len; algo; 0; 0; 0].

Definition open_error (tag status : Z) (rc : list Z) : list Z :=
  [tag; status; 0; 0] ++ rc ++ replicate 28 0.

Definition openSession `{Crypto, Settings} (inPayload : list Z) : M Net (list Z) :=
  if negb (length inPayload =? sizeof_OpenSessionRequest)%nat
  then ret [IPMI_CC_REQ_DATA_LEN_INVALID]
  else
    let! tag := rd8 inPayload 0 in
    let! rc := read_range inPayload 4 4 in
    let! b1 := rd8 inPayload 1 in
    let! authPayload := rd8 inPayload 8 in
    let! authPayloadLen := rd8 inPayload 11 in
    let! b12 := rd8 inPayload 12 in
    let! intPayload := rd8 inPayload 16 in
    let! intPayloadLen := rd8 inPayload 19 in
    let! b20 := rd8 inPayload 20 in
    let! confPayload := rd8 inPayload 24 in
    let! confPayloadLen := rd8 inPayload 27 in
    let! b28 := rd8 inPayload 28 in
    let maxPrivLevel := Z.land b1 0xF in
    let authAlgo := Z.land b12 0x3F in
    let intAlgo := Z.land b20 0x3F in
    let confAlgo := Z.land b28 0x3F in
    if negb (auth_isAlgorithmSupported authAlgo)
    then ret (open_error tag RAKP_ReturnCode.INVALID_AUTH_ALGO rc)
    else if negb (integrity_isAlgorithmSupported intAlgo)
    then ret (open_error tag RAKP_ReturnCode.INVALID_INTEGRITY_ALGO rc)
    else
      let priv := if maxPrivLevel =? 0 then Privilege.ADMIN else maxPrivLevel in
      if negb (crypt_isAlgorithmSupported confAlgo)
      then ret (open_error tag RAKP_ReturnCode.INVALID_CONF_ALGO rc)
      else
        let! started := try (let! p := startSession (le_value rc) priv authAlgo intAlgo confAlgo in
                             ret (Some p)) (fun _ => ret None) in
        match started with
        | None => ret (open_error tag RAKP_ReturnCode.INSUFFICIENT_RESOURCE rc)
        | Some p =>
            let! s := obj p in
            updateLastTransactionTime p ;;;
            on_info p (fun i => i <| state := State.setupInProgress |>) ;;;
            ret ([tag; RAKP_ReturnCode.NO_ERROR; Z.land (reqMaxPrivLevel s) 0xF; 0] ++ rc
                 ++ to_ipmi32 (s_bmcSessionID s)
                 ++ algo_payload authPayload authPayloadLen authAlgo
                 ++ algo_payload intPayload intPayloadLen intAlgo
                 ++ algo_payload confPayload confPayloadLen confAlgo)
        end.

(** ** RAKP messages 1 and 2 *)
Definition rakp2_error (status : Z) : list Z := [0; status] ++ replicate 38 0.
Definition userNameOnlyLookupMask : Z := 0x10.
Definition userNamePrivLookup : Z := 0x0.
Definition isChannelAccessModeEnabled (mode : Z) : bool := negb (mode =? 0).
Definition invalidUserId : Z := 0xFF.

Definition on_auth (p : nat) (f : AuthAlgo -> AuthAlgo) : M Net unit :=
  on_obj p (fun s => s <| authAlgoInterface := f <$> authAlgoInterface s |>).

(** The key exchange input of RAKP message 2. *)
Definition rakp2_input (rcSessionID bmcSessionID : Z) (rcRand bmcRand guid : list Z)
    (priv : Z) (name : list Z) : list Z :=
  to_ipmi32 rcSessionID ++ to_ipmi32 bmcSessionID ++ rcRand ++ bmcRand ++ guid
  ++ [priv; zlen name] ++ name.

Definition min_priv (s : Session) : Z :=
  if privLimit (sessionChannelAccess s) <? privilege (sessionUserPrivAccess s)
  then privLimit (sessionChannelAccess s) else privilege (sessionUserPrivAccess s).

(** The checks of the user and the channel: [inl status] refuses; they store
    the access data in the session as they go. *)
Definition rakp1_user (p : nat) (name : list Z) `{Settings} : M Net (Z + list Z) :=
  let! n := get in
  let u := users n in
  let userId := ipmiUserGetUserId u name in
  if userId =? invalidUserId then ret (inl RAKP_ReturnCode.UNAUTH_NAME)
  else if negb (ipmiUserCheckEnabled u userId) then ret (inl RAKP_ReturnCode.INACTIVE_ROLE)
  else
    let passwd := ipmiUserGetPassword u name in
    if (length passwd =? 0)%nat then ret (inl RAKP_ReturnCode.UNAUTH_NAME)
    else if negb (ipmiUserPamAuthenticate u name passwd)
    then ret (inl RAKP_ReturnCode.UNAUTH_NAME)
    else
      let chNum := u8 getInterfaceIndex in
      let! s := obj p in
      let '(cc, acc) := ipmiUserGetPrivilegeAccess u userId chNum (sessionUserPrivAccess s) in
      on_obj p (fun s => s <| sessionUserPrivAccess := acc |>) ;;;
      if negb (cc =? IPMI_CC_OK) then ret (inl RAKP_ReturnCode.INACTIVE_ROLE)
      else
        let '(cc, ca) := getChannelAccessData u chNum (sessionChannelAccess s) in
        on_obj p (fun s => s <| sessionChannelAccess := ca |>) ;;;
        if negb (cc =? IPMI_CC_OK) then ret (inl RAKP_ReturnCode.INACTIVE_ROLE)
        else if negb (isChannelAccessModeEnabled (accessMode ca))
        then ret (inl RAKP_ReturnCode.INACTIVE_ROLE)
        else if Privilege.OEM <? privilege acc then ret (inl RAKP_ReturnCode.INACTIVE_ROLE)
        else
          on_info p (fun i => i <| channelNum := chNum |> <| userID := userId |>) ;;;
          let! s := obj p in
          (if min_priv s <? currentPrivilege (info s)
           then on_info p (fun i => i <| currentPrivilege := min_priv s |>) else ret tt) ;;;
          ret (inr passwd).

(** The second half of the handler, from the role on: the user is looked up
    and message 2 is built. *)
Definition rakp1_grant `{Crypto, Settings} (p : nat) (tag : Z) (rcRand bmcRand : list Z)
    (priv : Z) (name : list Z) : M Net (list Z) :=
  on_info p (fun i => i <| currentPrivilege := Privilege.USER |>) ;;;
  on_obj p (fun s => s <| reqMaxPrivLevel := priv |>) ;;;
  if zlen name =? 0 then ret (rakp2_error RAKP_ReturnCode.UNAUTH_NAME)
  else
    let! checked := rakp1_user p name in
    match checked with
    | inl status => ret (rakp2_error status)
    | inr passwd =>
        let! s := obj p in
        if (Z.land priv userNameOnlyLookupMask =? userNamePrivLookup)
           && negb (Z.land priv reqMaxPrivMask =? privilege (sessionUserPrivAccess s))
        then ret (rakp2_error RAKP_ReturnCode.UNAUTH_NAME)
        else if (USER_KEY_MAX_LENGTH <? length passwd)%nat
        then undef OutOfBounds
        else
          on_auth p (fun a => a <| userKey := resize USER_KEY_MAX_LENGTH passwd |>
                                <| bmcRandomNum := Some bmcRand |>) ;;;
          let! s := obj p in
          let! a := getAuthAlgo s in
          let! n := get in
          let input := rakp2_input (remoteConsoleSessionID s) (s_bmcSessionID s)
                         rcRand bmcRand (guid n) priv name in
          ret ([tag; RAKP_ReturnCode.NO_ERROR; 0; 0]
               ++ to_ipmi32 (remoteConsoleSessionID s)
               ++ bmcRand ++ guid n ++ auth_generateHMAC a input)
    end.

(** Reads past the name length only what the size check admits. *)
Definition RAKP12 `{Crypto, Settings} (inPayload : list Z) : M Net (list Z) :=
  if (length inPayload <? sizeof_RAKP1request - userNameMaxLen)%nat
  then ret [IPMI_CC_REQ_DATA_LEN_INVALID]
  else
    let! tag := rd8 inPayload 0 in
    let! sid := rd32 inPayload 4 in
    let! rcRand := read_range inPayload 8 16 in
    let! priv := rd8 inPayload 24 in
    let! name_len := rd8 inPayload 27 in
    if sid =? sessionZero then ret (rakp2_error RAKP_ReturnCode.INVALID_SESSION_ID)
    else
      let! found := try (let! p := getSession sid in ret (Some p)) (fun _ => ret None) in
      match found with
      | None => ret (rakp2_error RAKP_ReturnCode.INVALID_SESSION_ID)
      | Some p =>
          if (Z.of_nat userNameMaxLen <? name_len)
             || negb (zlen inPayload =? 28 + name_len)
          then ret (rakp2_error RAKP_ReturnCode.INVALID_NAME_LENGTH)
          else
            let! name := read_range inPayload 28 name_len in
            on_obj p (fun s => s <| userName := name |>) ;;;
            updateLastTransactionTime p ;;;
            let! s := obj p in
            let! a := getAuthAlgo s in
            on_auth p (fun a => a <| rcRandomNum := Some rcRand |>) ;;;
            let! random := rand_bytes BMC_RANDOM_NUMBER_LEN in
            match random with
            | None => ret (rakp2_error RAKP_ReturnCode.INSUFFICIENT_RESOURCE)
            | Some bmcRand =>
                if negb (Privilege.CALLBACK <? Z.land priv reqMaxPrivMask)
                then ret (rakp2_error RAKP_ReturnCode.UNAUTH_ROLE_PRIV)
                else rakp1_grant p tag rcRand bmcRand priv name
            end
      end.

(** ** RAKP messages 3 and 4 *)
Definition rakp4_response (tag status rcSessionID : Z) : list Z :=
  [tag; status; 0; 0] ++ to_ipmi32 rcSessionID.

(** The inputs of the console's MAC, of the session integrity key and of the
    integrity check value. *)
Definition rakp3_input (bmcRand : list Z) (rcSessionID priv : Z) (name : list Z) : list Z :=
  bmcRand ++ to_ipmi32 rcSessionID ++ [priv; zlen name] ++ name.
Definition sik_input (rcRand bmcRand : list Z) (priv : Z) (name : list Z) : list Z :=
  rcRand ++ bmcRand ++ [priv; zlen name] ++ name.
Definition icv_input (rcRand : list Z) (bmcSessionID : Z) (guid : list Z) : list Z :=
  rcRand ++ to_ipmi32 bmcSessionID ++ guid.

Definition applyIntegrityAlgo `{Crypto} (bmcSessionID : Z) : M Net unit :=
  let! p := getSession bmcSessionID in
  let! s := obj p in
  let! a := getAuthAlgo s in
  let install d := let! i := new_IntegrityAlgo d (sessionIntegrityKey a) in
                   on_obj p (fun s => s <| integrityAlgoInterface := Some i |>) in
  if intAlgo a =? HMAC_SHA1_96 then install SHA1
  else if intAlgo a =? HMAC_SHA256_128 then install SHA256
  else ret tt.

Definition applyCryptAlgo `{Crypto} (bmcSessionID : Z) : M Net unit :=
  let! p := getSession bmcSessionID in
  let! s := obj p in
  let! a := getAuthAlgo s in
  if cryptAlgo a =? AES_CBC_128 then
    let! i := getIntegrityAlgo s in
    let! k2 := generateKn (intDigest i) (sessionIntegrityKey a) const_2 in
    on_obj p (fun s => s <| cryptAlgoInterface := Some k2 |>)
  else ret tt.

(** The session integrity key grows at the front of whatever was there. *)
Definition establish `{Crypto} (p : nat) (tag : Z) (bmcRand name : list Z) : M Net (list Z) :=
  let! s := obj p in
  let! a := getAuthAlgo s in
  let! rcRand := init_read (rcRandomNum a) in
  let sik := auth_generateHMAC a (sik_input rcRand bmcRand (u8 (reqMaxPrivLevel s)) name) in
  on_auth p (fun a => a <| sessionIntegrityKey := sik ++ sessionIntegrityKey a |>) ;;;
  let! s := obj p in
  let! a := getAuthAlgo s in
  let! n := get in
  let! icv := generateICV a (icv_input rcRand (s_bmcSessionID s) (guid n)) in
  applyIntegrityAlgo (s_bmcSessionID s) ;;;
  applyCryptAlgo (s_bmcSessionID s) ;;;
  on_info p (fun i => i <| state := State.active |>) ;;;
  ret (rakp4_response tag RAKP_ReturnCode.NO_ERROR (remoteConsoleSessionID s) ++ icv).

Definition RAKP34 `{Crypto} (inPayload : list Z) : M Net (list Z) :=
  if (length inPayload <? sizeof_RAKP3request)%nat
  then ret (rakp4_response 0 RAKP_ReturnCode.INVALID_INTEGRITY_VALUE 0)
  else
    let! tag := rd8 inPayload 0 in
    let! sid := rd32 inPayload 4 in
    if sid =? sessionZero then ret (rakp4_response 0 RAKP_ReturnCode.INVALID_SESSION_ID 0)
    else
      let! found := try (let! p := getSession sid in ret (Some p)) (fun _ => ret None) in
      match found with
      | None => ret (rakp4_response 0 RAKP_ReturnCode.INVALID_SESSION_ID 0)
      | Some p =>
          updateLastTransactionTime p ;;;
          let! s := obj p in
          let! a := getAuthAlgo s in
          let! bmcRand := init_read (bmcRandomNum a) in
          let name := take (Z.to_nat (u8 (zlen (userName s)))) (userName s) in
          let output := auth_generateHMAC a
            (rakp3_input bmcRand (remoteConsoleSessionID s) (u8 (reqMaxPrivLevel s)) name) in
          if bool_decide (drop sizeof_RAKP3request inPayload = output)
          then establish p tag bmcRand name
          else
            let! _ := stopSession (s_bmcSessionID s) in
            ret (rakp4_response tag RAKP_ReturnCode.INVALID_INTEGRITY_VALUE
                   (remoteConsoleSessionID s))
      end.

(** ** System GUID ([guid.cpp]) *)
Definition canned_guid : list Z := map Z.of_nat (seq 1 16).

Definition hex_digit (c : Z) : option Z :=
  if (48 <=? c) && (c <=? 57) then Some (c - 48)
  else if (97 <=? c) && (c <=? 102) then Some (c - 87)
  else if (65 <=? c) && (c <=? 70) then Some (c - 55)
  else None.
Fixpoint hex_digits (l : list Z) (acc : Z) : Z :=
  match l with
  | c :: l' => match hex_digit c with Some d => hex_digits l' (acc * 16 + d) | None => acc end
  | [] => acc
  end.
(** [0x] is a prefix when a digit follows. *)
Definition strip_0x (l : list Z) : list Z :=
  match l with
  | z :: x :: c :: l' =>
      if (z =? 48) && ((x =? 120) || (x =? 88)) && bool_decide (is_Some (hex_digit c))
      then c :: l' else l
  | _ => l
  end.
(** [strtoul(s, NULL, 16)], and extraction of an unsigned integer of width
    [w] in base 16: too large a value is the maximum, a minus sign negates. *)
Definition hex_value (w : Z) (l : list Z) : Z :=
  let '(neg, l) := strip_sign (skip_spaces l) in
  let v := hex_digits (strip_0x l) 0 in
  if 2 ^ w <=? v then 2 ^ w - 1 else if neg then (- v) mod 2 ^ w else v.

Fixpoint guid_bytes (inc : nat) (uuid : list Z) : list Z :=
  match inc with
  | O => []
  | S inc' =>
      match uuid with
      | [] => drop (16 - inc) canned_guid
      | a :: [] => [u8 (hex_value 64 [a])] ++ drop (16 - inc') canned_guid
      | a :: b :: uuid' => u8 (hex_value 64 [a; b]) :: guid_bytes inc' uuid'
      end
  end.
(** [None]: one of the calls failed, and the canned GUID stays. *)
Definition getSystemGUID (uuid : option (list Z)) : list Z :=
  match uuid with None => canned_guid | Some u => guid_bytes 16 u end.
