(* ===== verification/RmcpCommands.v ===== *)
(** * Commands of an established session and of the channel

    [command/session_cmds.*], [command/channel_auth.*] and
    [isSessionObjectMatched] of [ipmid/sessionhelper.hpp]. *)
From Stdlib Require Import ZArith Lia String.
From stdpp Require Import base list gmap.
From S2P Require Import Prelude CxxStd RmcpMessage RmcpCrypto RmcpState RmcpSession RmcpParser.
From S2P Require Import RmcpHandler Sol RmcpSetup.
Local Open Scope Z_scope.

Definition IPMI_CC_EXCEEDS_USER_PRIV : Z := 0x81.
Definition IPMI_CC_INSUFFICIENT_PRIVILEGE : Z := 0xD4.
Definition ccInvalidSessionId : Z := 0x87.
Definition ccInvalidSessionHandle : Z := 0x88.
Definition myNetInstanceSessionIdShiftMask : Z := 30.
Definition myNetInstanceSessionHandleShiftMask : Z := 6.

(** ** Set Session Privilege Level *)
Definition setSessionPrivilegeLevel (inPayload : list Z) (h : Handler) : M Net (list Z) :=
  if negb (length inPayload =? 1)%nat then ret [IPMI_CC_REQ_DATA_LEN_INVALID]
  else
    let! b := rd8 inPayload 0 in
    if negb (Z.shiftr b 4 =? 0) then ret [IPMI_CC_INVALID_FIELD_REQUEST]
    else
      let reqPrivilegeLevel := Z.land b 0xF in
      let! p := getSession (h_sessionID h) in
      let! session := obj p in
      if reqPrivilegeLevel =? 0
      then ret [IPMI_CC_OK; Z.land (currentPrivilege (info session)) 0xF]
      else if (reqPrivilegeLevel =? Privilege.CALLBACK) || (Privilege.OEM <? reqPrivilegeLevel)
      then ret [IPMI_CC_INVALID_FIELD_REQUEST; 0]
      else if Z.land (reqMaxPrivLevel session) reqMaxPrivMask <? reqPrivilegeLevel
      then ret [IPMI_CC_EXCEEDS_USER_PRIV; 0]
      else if min_priv session <? reqPrivilegeLevel then ret [IPMI_CC_EXCEEDS_USER_PRIV; 0]
      else
        on_info p (fun i => i <| currentPrivilege := reqPrivilegeLevel |>) ;;;
        ret [IPMI_CC_OK; reqPrivilegeLevel].

(** ** Close Session: sessions of other network daemons *)

(** What follows the last occurrence of [c], and what precedes it. *)
Fixpoint rsplit (c : Z) (l : list Z) : option (list Z * list Z) :=
  match l with
  | [] => None
  | x :: l' =>
      match rsplit c l' with
      | Some (a, b) => Some (x :: a, b)
      | None => if x =? c then Some ([], l') else None
      end
  end.

(** [parseCloseSessionInputPayload]: [.../<id>_<handle>] in hexadecimal; the
    handle goes through a [uint16_t]. *)
Definition parseCloseSessionInputPayload (objectPath : list Z) : option (Z * Z) :=
  match rsplit 47 objectPath with
  | None => None
  | Some (_, sessionIdString) =>
      match rsplit 95 sessionIdString with
      | None => None
      | Some (id, handle) => Some (hex_value 32 id, Z.land (hex_value 16 handle) 0xFF)
      end
  end.

Definition isSessionObjectMatched (objectPath : list Z) (reqSessionId reqSessionHandle : Z) : bool :=
  match parseCloseSessionInputPayload objectPath with
  | Some (sessionId, handle) => (reqSessionId =? sessionId) || (reqSessionHandle =? handle)
  | None => false
  end.

Definition setSessionState (o : BusObject) : M Net Z :=
  match bo_state o with
  | None => ret IPMI_CC_UNSPECIFIED_ERROR
  | Some sessionState =>
      if sessionState =? State.active then
        if bo_set o then
          modify (fun n => n <| busWrites := (bo_path o, State.tearDownInProgress) :: busWrites n |>) ;;;
          ret IPMI_CC_OK
        else ret IPMI_CC_UNSPECIFIED_ERROR
      else ret IPMI_CC_INVALID_FIELD_REQUEST
  end.

Fixpoint close_matching (objs : list BusObject) (reqSessionId reqSessionHandle currentPriv : Z)
    : M Net Z :=
  match objs with
  | [] => ret IPMI_CC_INVALID_FIELD_REQUEST
  | o :: objs' =>
      if isSessionObjectMatched (bo_path o) reqSessionId reqSessionHandle then
        if negb (length (bo_services o) =? 1)%nat then ret IPMI_CC_UNSPECIFIED_ERROR
        else match bo_priv o with
             | None => ret IPMI_CC_UNSPECIFIED_ERROR
             | Some closeSessionPriv =>
                 if currentPriv <? closeSessionPriv then ret IPMI_CC_INSUFFICIENT_PRIVILEGE
                 else setSessionState o
             end
      else close_matching objs' reqSessionId reqSessionHandle currentPriv
  end.
Definition closeOtherNetInstanceSession (reqSessionId reqSessionHandle currentPriv : Z) : M Net Z :=
  let! n := get in
  match sessionObjects (answers n) with
  | None => ret IPMI_CC_UNSPECIFIED_ERROR
  | Some objs => close_matching objs reqSessionId reqSessionHandle currentPriv
  end.

(** ** Close Session: sessions of this daemon *)
Definition closeMyNetInstanceSession (reqSessionId reqSessionHandle currentPriv : Z) : M Net Z :=
  let! id := if reqSessionId =? sessionZero
             then getSessionIDbyHandle (Z.land reqSessionHandle multiIntfaceSessionHandleMask)
             else ret reqSessionId in
  if id =? 0 then ret ccInvalidSessionHandle
  else
    let! found := try (let! p := getSession id in ret (Some p)) (fun _ => ret None) in
    match found with
    | None => ret ccInvalidSessionId
    | Some p =>
        let! s := obj p in
        if currentPriv <? currentPrivilege (info s) then ret IPMI_CC_INSUFFICIENT_PRIVILEGE
        else
          let! status := stopSession id in
          if status then ret IPMI_CC_OK else ret ccInvalidSessionId
    end.

Definition closeSession (inPayload : list Z) (h : Handler) : M Net (list Z) :=
  if negb (length inPayload =? 4)%nat && negb (length inPayload =? 5)%nat
  then ret [IPMI_CC_REQ_DATA_LEN_INVALID]
  else
    let! reqSessionId := rd32 inPayload 0 in
    let! reqSessionHandle := if (length inPayload =? 5)%nat then rd8 inPayload 4 else ret 0 in
    if (reqSessionId =? sessionZero) && (reqSessionHandle =? 0) then ret [ccInvalidSessionHandle]
    else if negb (reqSessionId =? sessionZero) && negb (length inPayload =? 4)%nat
    then ret [IPMI_CC_INVALID_FIELD_REQUEST]
    else
      let! n := get in
      let! p := getSession (h_sessionID h) in
      let! current := obj p in
      let currentPriv := currentPrivilege (info current) in
      if (Z.shiftr reqSessionId myNetInstanceSessionIdShiftMask =? ipmiNetworkInstance n)
         || (reqSessionId =? sessionZero)
            && (Z.shiftr reqSessionHandle myNetInstanceSessionHandleShiftMask
                =? ipmiNetworkInstance n)
      then
        let! cc := closeMyNetInstanceSession reqSessionId reqSessionHandle currentPriv in
        scheduleSessionCleaner 100 ;;; ret [cc]
      else
        let! cc := closeOtherNetInstanceSession reqSessionId reqSessionHandle currentPriv in
        ret [cc].

(** ** Get Channel Authentication Capabilities *)
Definition currentChNum : Z := 0xE.
Definition convertCurrentChannelNum (chNum devChannel : Z) : Z :=
  if chNum =? currentChNum then devChannel else chNum.
Definition SessSupported_none : Z := 0.

Definition GetChannelCapabilities `{Settings} (inPayload : list Z) : M Net (list Z) :=
  if negb (length inPayload =? 2)%nat then ret [IPMI_CC_REQ_DATA_LEN_INVALID]
  else
    let! channelNumber := rd8 inPayload 0 in
    let! reqPriv := rd8 inPayload 1 in
    let! n := get in
    let u := users n in
    let chNum := u8 (convertCurrentChannelNum (Z.land channelNumber 0x0f) (u8 getInterfaceIndex)) in
    if negb (isValidChannel u chNum) || (SessSupported_none =? getChannelSessionSupport u chNum)
       || negb (isValidPrivLimit u reqPriv)
    then ret [IPMI_CC_INVALID_FIELD_REQUEST]
    else ret [IPMI_CC_OK; chNum; 0x80; if 0 <? ipmiUserGetAllCounts u then 0x04 else 0x00;
              0x02; 0; 0; 0; 0].

(** ** Get Channel Cipher Suites *)
Definition stdCipherSuite : Z := 0xC0.
Definition oemCipherSuite : Z := 0xC1.
Definition integrityTag : Z := 0x40.
Definition confTag : Z := 0x80.

Definition cipher_record (r : CipherRecord) : list Z :=
  match cr_oem r with
  | Some oem => [oemCipherSuite; u8 (cr_cipher r); u8 oem; u8 (Z.shiftr oem 8); u8 (Z.shiftr oem 16)]
  | None => [stdCipherSuite; u8 (cr_cipher r)]
  end ++ [u8 (cr_auth r); u8 (Z.lor (cr_integrity r) integrityTag);
          u8 (Z.lor (cr_conf r) confTag)].
Definition record_algorithms (r : CipherRecord) : list Z :=
  [u8 (cr_auth r); u8 (Z.lor (cr_integrity r) integrityTag); u8 (Z.lor (cr_conf r) confTag)].

(** [std::set<uint8_t>::insert], the set as its sorted content. *)
Fixpoint set_insert (x : Z) (l : list Z) : list Z :=
  match l with
  | [] => [x]
  | y :: l' => if x <? y then x :: l else if x =? y then l else y :: set_insert x l'
  end.
Definition getCipherRecords (file : option (list CipherRecord)) : M Net (list Z * list Z) :=
  match file with
  | None => throw (RuntimeError "InternalFailure")
  | Some data =>
      ret (concat (map cipher_record data),
           fold_left (fun s x => set_insert x s) (concat (map record_algorithms data)) [])
  end.

Definition respSize : nat := 16.

Definition getChannelCipherSuites `{Settings} (inPayload : list Z) : M Net (list Z) :=
  if negb (length inPayload =? 3)%nat then ret [IPMI_CC_REQ_DATA_LEN_INVALID]
  else
    let! b0 := rd8 inPayload 0 in
    let! b1 := rd8 inPayload 1 in
    let! b2 := rd8 inPayload 2 in
    let channelNumber := Z.land b0 0x0f in
    let payloadType := Z.land b1 0x3f in
    let listIndex := Z.land b2 0x3f in
    let algoSelectBit := Z.shiftr b2 7 in
    if negb (channelNumber =? b0) then ret [IPMI_CC_INVALID_FIELD_REQUEST]
    else if negb (payloadType =? b1) then ret [IPMI_CC_INVALID_FIELD_REQUEST]
    else if negb (Z.lor listIndex (Z.shiftl algoSelectBit 7) =? b2)
    then ret [IPMI_CC_INVALID_FIELD_REQUEST]
    else
      let! n := get in
      let u := users n in
      let rspChannel := u8 (convertCurrentChannelNum channelNumber (u8 getInterfaceIndex)) in
      if negb (isValidChannel u rspChannel) then ret [IPMI_CC_INVALID_FIELD_REQUEST]
      else if negb (isValidPayloadType u payloadType) then ret [0x80]
      else
        let! recs := match cipherCache n with
                     | Some r => ret (Some r)
                     | None => try (let! r := getCipherRecords (cipherFile (answers n)) in
                                    modify (fun n => n <| cipherCache := Some r |>) ;;;
                                    ret (Some r)) (fun _ => ret None)
                     end in
        match recs with
        | None => ret [IPMI_CC_UNSPECIFIED_ERROR]
        | Some (cipherRecords, supportedAlgorithms) =>
            let records := if algoSelectBit =? 0 then supportedAlgorithms else cipherRecords in
            if (getChannelSessionSupport u rspChannel =? SessSupported_none)
               || negb (doesDeviceExist u rspChannel)
            then ret [IPMI_CC_INVALID_FIELD_REQUEST]
            else
              let first := Nat.min (Z.to_nat listIndex * respSize) (length records) in
              let last := Nat.min (Z.to_nat listIndex * respSize + respSize) (length records) in
              ret ([IPMI_CC_OK; rspChannel] ++ slice records first (last - first))
        end.
