(* ===== verification/RmcpDaemon.v ===== *)
(** * Dispatch and the event loop

    [command_table.*], [comm_module.cpp], [sol_module.cpp], the receiving part
    of [message_handler.cpp], [sd_event_loop.cpp] and the start of [main.cpp].
    The daemon is one thread: [step] runs one event to its end.  A command that
    is passed on to the IPMI host daemon keeps its handler in [pending] until
    the reply arrives. *)
From Stdlib Require Import ZArith Lia String.
From stdpp Require Import base list gmap.
From S2P Require Import Prelude CxxStd RmcpMessage RmcpCrypto RmcpState RmcpSession RmcpParser.
From S2P Require Import RmcpHandler Sol RmcpSetup RmcpCommands.
Local Open Scope Z_scope.

(** ** Command identifiers *)
Definition netFnLun (command : Z) : Z := u8 (Z.shiftr command 8).
Definition cmd_netFn (command : Z) : Z := Z.shiftr (netFnLun command) 2.
(** The mask is [(1 << (lunBits + 1)) - 1], one bit wider than the field. *)
Definition cmd_lun (command : Z) : Z := Z.land (netFnLun command) 7.
Definition cmd_cmd (command : Z) : Z := u8 command.

Definition NetFns_APP : Z := Z.shiftl 0x06 10.
Definition payload_command (ptype : Z) : Z := Z.shiftl ptype 16.
Definition app_command (cmd : Z) : Z :=
  Z.lor (Z.lor (payload_command PayloadType.IPMI) NetFns_APP) cmd.

(** ** The command table *)
Inductive Functor :=
  | F_openSession | F_RAKP12 | F_RAKP34 | F_GetChannelCapabilities
  | F_getChannelCipherSuites | F_setSessionPrivilegeLevel | F_closeSession
  | F_payloadHandler | F_activatePayload | F_deactivatePayload
  | F_getPayloadStatus | F_getPayloadInfo.

#[export] Instance Functor_eq_dec : EqDecision Functor.
Proof. solve_decision. Defined.

(** [privilege] is kept, but no code reads it. *)
Record Entry := {
  e_command : Z; e_functor : Functor; e_privilege : Z; e_sessionless : bool }.

Definition sessionSetupCommands : list Entry :=
  [ {| e_command := payload_command PayloadType.OPEN_SESSION_REQUEST;
       e_functor := F_openSession; e_privilege := Privilege.HIGHEST_MATCHING;
       e_sessionless := true |};
    {| e_command := payload_command PayloadType.RAKP1; e_functor := F_RAKP12;
       e_privilege := Privilege.HIGHEST_MATCHING; e_sessionless := true |};
    {| e_command := payload_command PayloadType.RAKP3; e_functor := F_RAKP34;
       e_privilege := Privilege.HIGHEST_MATCHING; e_sessionless := true |};
    {| e_command := app_command 0x38; e_functor := F_GetChannelCapabilities;
       e_privilege := Privilege.HIGHEST_MATCHING; e_sessionless := true |};
    {| e_command := app_command 0x54; e_functor := F_getChannelCipherSuites;
       e_privilege := Privilege.HIGHEST_MATCHING; e_sessionless := true |};
    {| e_command := app_command 0x3B; e_functor := F_setSessionPrivilegeLevel;
       e_privilege := Privilege.USER; e_sessionless := false |};
    {| e_command := app_command 0x3C; e_functor := F_closeSession;
       e_privilege := Privilege.CALLBACK; e_sessionless := false |} ].

Definition sol_registerCommands : list Entry :=
  [ {| e_command := payload_command PayloadType.SOL; e_functor := F_payloadHandler;
       e_privilege := Privilege.HIGHEST_MATCHING; e_sessionless := false |};
    {| e_command := app_command 0x48; e_functor := F_activatePayload;
       e_privilege := Privilege.USER; e_sessionless := false |};
    {| e_command := app_command 0x49; e_functor := F_deactivatePayload;
       e_privilege := Privilege.USER; e_sessionless := false |};
    {| e_command := app_command 0x4A; e_functor := F_getPayloadStatus;
       e_privilege := Privilege.USER; e_sessionless := false |};
    {| e_command := app_command 0x4B; e_functor := F_getPayloadInfo;
       e_privilege := Privilege.USER; e_sessionless := false |} ].

(** A command that is already registered keeps its entry. *)
Definition registerCommand (t : gmap Z Entry) (e : Entry) : gmap Z Entry :=
  match t !! e_command e with Some _ => t | None => <[e_command e := e]> t end.
Definition commandTable : gmap Z Entry :=
  foldl registerCommand ∅ (sessionSetupCommands ++ sol_registerCommands).

Section Daemon.
Context `{Crypto, Settings}.

Definition run_functor (f : Functor) (data : list Z) (h : Handler) : M Net (list Z) :=
  match f with
  | F_openSession => openSession data
  | F_RAKP12 => RAKP12 data
  | F_RAKP34 => RAKP34 data
  | F_GetChannelCapabilities => GetChannelCapabilities data
  | F_getChannelCipherSuites => getChannelCipherSuites data
  | F_setSessionPrivilegeLevel => setSessionPrivilegeLevel data h
  | F_closeSession => closeSession data h
  | F_payloadHandler => payloadHandler data h
  | F_activatePayload => activatePayload data h
  | F_deactivatePayload => deactivatePayload data h
  | F_getPayloadStatus => getPayloadStatus data h
  | F_getPayloadInfo => getPayloadInfo data h
  end.

(** [NetIpmidEntry::executeCommand]. *)
Definition entry_executeCommand (e : Entry) (data : list Z) (h : Handler) : M Net (list Z) :=
  if negb (e_sessionless e) && (h_sessionID h =? sessionZero)
  then ret [IPMI_CC_INSUFFICIENT_PRIVILEGE]
  else run_functor (e_functor e) data h.

(** The handler of a command that is passed on is kept for the reply. *)
Definition forward (command : Z) (data : list Z) (h : Handler) (session : Session)
    : M Net unit :=
  modify (fun n =>
    n <| forwards := (nextCall n,
           {| f_netFn := cmd_netFn command; f_lun := cmd_lun command;
              f_cmd := cmd_cmd command; f_data := data;
              f_userId := ipmiUserGetUserId (users n) (userName session);
              f_privilege := currentPrivilege (info session);
              f_currentSessionId := s_bmcSessionID session |}) :: forwards n |>
      <| pending := <[nextCall n := h]> (pending n) |>
      <| nextCall := S (nextCall n) |>).

(** [Table::executeCommand]: the handler with its output, and whether the
    reply comes later. *)
Definition executeCommand (command : Z) (data : list Z) (h : Handler)
    : M Net (Handler * bool) :=
  match commandTable !! command with
  | None =>
      if h_sessionID h =? sessionZero then ret (h, false)
      else
        let! p := getSession (h_sessionID h) in
        let! session := obj p in
        if negb (state (info session) =? State.active) then ret (h, false)
        else forward command data h session ;;; ret (h, true)
  | Some e =>
      let! open := if h_sessionID h =? sessionZero then ret true
                   else
                     let! p := getSession (h_sessionID h) in
                     let! session := obj p in
                     ret ((state (info session) =? State.setupInProgress)
                          || (state (info session) =? State.active)) in
      if negb open then ret (h, false)
      else
        let! out := entry_executeCommand e data h in
        ret (h <| outPayload := Some out |>, false)
  end.

(** ** The receiving side of the handler *)

(** [receive]: [None] when the socket read failed. *)
Definition receive (h : Handler) (packet : option (list Z)) : M Net (option Handler) :=
  match packet with
  | None => ret None
  | Some packet =>
      let! r := parser.unflatten packet in
      ret (Some (h <| inMessage := Some r.1 |> <| sessionHeader := r.2 |>))
  end.

Definition updSessionData (h : Handler) (m : Message) : M Net Handler :=
  let! p := getSession (bmcSessionID m) in
  let! s := obj p in
  updateLastTransactionTime p ;;;
  on_obj p (fun s => s <| channelPtr := h_channel h |>) ;;;
  let! ch := deref (h_channel h) in
  on_info p (fun i => i <| remotePort := ch_port ch |>
                        <| remoteIPAddr := default 0 (ch_ipv4 ch) |>) ;;;
  ret (h <| h_session := Some p |> <| h_sessionID := bmcSessionID m |>
         <| inMessage := Some (m <| rcSessionID := remoteConsoleSessionID s |>) |>).

Definition handler_executeCommand (h : Handler) : M Net (Handler * bool) :=
  let! m := deref (inMessage h) in
  let! command := getCommand m in
  if payloadType m =? PayloadType.IPMI then
    let! enabled := if h_sessionID h =? sessionZero then ret true
                    else let! p := deref (h_session h) in
                         let! s := obj p in
                         ret (ipmiEnabled (sessionUserPrivAccess s)) in
    if enabled then
      if zlen (payload m) <? LAN_header_size + LAN_trailer_size then ret (h, false)
      else
        let inPayload := slice (payload m) 6 (length (payload m) - 7) in
        executeCommand command inPayload h
    else ret (h <| outPayload := Some [IPMI_CC_INSUFFICIENT_PRIVILEGE] |>, false)
  else executeCommand command (payload m) h.

Definition attempt {A} (m : M Net A) : M Net (exn + A) :=
  try (let! a := m in ret (inr a)) (fun e => ret (inl e)).

(** [processIncoming] inside the [try] of [handleRmcpPacket]: an exception
    destroys the handler while it unwinds; a handler that threw has no output,
    so only what [inMessage] is at that point matters to its destructor. *)
Definition handleRmcpPacket (ch : Channel) (packet : option (list Z)) : M Net unit :=
  let h := receive_Handler ch in
  let! r := attempt (receive h packet) in
  match r with
  | inl _ | inr None => destroy h
  | inr (Some h) =>
      let! m := deref (inMessage h) in
      if RMCP_PING && (ClassOfMsg.ASF =? rmcpMsgClass m) then destroy h
      else
        let! r := attempt (let! h := updSessionData h m in handler_executeCommand h) in
        match r with
        | inl _ => destroy h
        | inr (h, waits) => if waits then ret tt else destroy h
        end
  end.

(** The callback of [execute]: completion code and data, or an error. *)
Definition host_reply (call : nat) (response : option (Z * list Z)) : M Net unit :=
  let! n := get in
  match pending n !! call with
  | None => ret tt
  | Some h =>
      modify (fun n => n <| pending := delete call (pending n) |>) ;;;
      destroy (h <| outPayload := Some (match response with
                                        | Some (cc, data) => cc :: data
                                        | None => [IPMI_CC_UNSPECIFIED_ERROR]
                                        end) |>)
  end.

(** ** Events *)
Inductive Event :=
  | EPacket (ch : Channel) (packet : option (list Z))
  | EHostReply (call : nat) (response : option (Z * list Z))
  | ECleaner
  | EAccumulate (i : Z)
  | ERetry (i : Z)
  | EConsole (data : option (list Z))
  | ESolServiceDisabled
  | ESolConf (props : list SolProperty)
  | EGuidChanged (uuid : option (list Z))
  | EUsersChanged (u : UserLayer).

(** A timer fires when its deadline has passed and it is still set. *)
Definition due (t : option Z) (now : Z) : bool :=
  match t with Some d => d <=? now | None => false end.
Definition timer_event (i : Z) (timer : Context -> option Z)
    (clear : Context -> Context) (handler : M Net unit) : M Net unit :=
  let! n := get in
  match payloadMap (sol n) !! i with
  | Some c => if due (timer c) (now n) then on_ctx i clear ;;; handler else ret tt
  | None => ret tt
  end.

Definition run_event (e : Event) : M Net unit :=
  match e with
  | EPacket ch packet => handleRmcpPacket ch packet
  | EHostReply call response => host_reply call response
  | ECleaner =>
      let! n := get in
      if timerWaiting n && (timerExpiry n <=? now n)
      then modify (fun n => n <| timerWaiting := false |>) ;;; cleanStaleEntries
      else ret tt
  | EAccumulate i =>
      timer_event i accumulateTimer (fun c => c <| accumulateTimer := None |>)
        (charAccTimerHandler i)
  | ERetry i =>
      timer_event i retryTimer (fun c => c <| retryTimer := None |>) (retryTimerHandler i)
  | EConsole data =>
      let! n := get in
      if consoleSocket (sol n) then consoleInputHandler data ;;; startHostConsole else ret tt
  | ESolServiceDisabled => stopAllPayloadInstance
  | ESolConf props => procSolConfChange props
  | EGuidChanged uuid => modify (fun n => n <| guid := getSystemGUID uuid |>)
  | EUsersChanged u => modify (fun n => n <| users := u |>)
  end.

(** One turn of the event loop at time [t], with the answers of the outside. *)
Record Input := { i_time : Z; i_answers : Answers; i_writes : list Z; i_event : Event }.
Definition step (i : Input) : M Net unit :=
  modify (fun n => n <| now := Z.max (now n) (i_time i) |> <| answers := i_answers i |>
                     <| writeResults := i_writes i |>) ;;;
  run_event (i_event i).

(** The daemon after [main] has set it up, and a run of events. *)
Definition boot (u : UserLayer) (g : option (list Z)) (t : Z) : outcome Net unit :=
  managerInit (initial_Net u (getSystemGUID g) t).
Definition run (inputs : list Input) : M Net unit := mfor inputs step.

Inductive reachable (u : UserLayer) (g : option (list Z)) (t : Z) : Net -> Prop :=
  | reachable_boot n : boot u g t = Ret tt n -> reachable u g t n
  | reachable_step n i n' : reachable u g t n -> step i n = Ret tt n' -> reachable u g t n'.
End Daemon.
