(* ===== verification/RmcpSample.v ===== *)
(** * A sample of the surroundings of the network daemon

    An executable instance of OpenSSL that satisfies its laws (a keyed checksum
    and an XOR cipher: the laws do not ask for strength), a user layer with one
    user, and a run of the daemon: the witnesses evaluate on them. *)
From Stdlib Require Import ZArith Lia String.
From stdpp Require Import base list gmap.
From S2P Require Import Prelude RmcpMessage RmcpCrypto RmcpState RmcpSession RmcpParser RmcpHandler.
From S2P Require Import RmcpSetup RmcpDaemon.
Local Open Scope Z_scope.

(** ** Cryptography *)
Definition mix (init mul : Z) (l : list Z) : Z :=
  foldr (fun b acc => (acc * mul + b + 7) mod 65521) init l.
Definition sample_mac (n : nat) (key msg : list Z) : list Z :=
  map (fun k => u8 (mix 3 31 key + mix 5 17 msg + Z.of_nat k * 37)) (seq 0 n).
Definition xor_with (key : list Z) (l : list Z) : list Z :=
  map (fun b => u8 (Z.lxor b (u8 (nth 0 key 0)))) l.

Definition whole_blocks (l : list Z) : list Z := take (length l / 16 * 16) l.

#[export] Instance sample_crypto : Crypto := {|
  HMAC d key msg := Some (sample_mac (digest_length d) key msg);
  aes_cbc_encrypt key iv x := Some (xor_with key x);
  aes_cbc_decrypt key iv x := Some (xor_with key (whole_blocks x));
  RAND_bytes k n := Some (replicate n (u8 (Z.of_nat k + 1))) |}.

Lemma xor_with_twice key l : bytes l -> xor_with key (xor_with key l) = l.
Proof.
  intros Hl. unfold xor_with. rewrite map_map. rewrite <- (map_id l) at 2.
  apply map_ext_in. intros b Hb. apply list_elem_of_In in Hb.
  pose proof (proj1 (Forall_forall _ _) Hl b Hb) as Hr. cbv beta.
  set (k := u8 (nth 0 key 0)).
  assert (forall z, u8 z = Z.land z (Z.ones 8)) as Hu by (intros; by rewrite Z.land_ones).
  apply Z.bits_inj'. intros i Hi. rewrite !Hu.
  rewrite !Z.land_spec, !Z.lxor_spec, Z.land_spec, Z.lxor_spec.
  destruct (Z.ltb_spec i 8).
  - rewrite Z.ones_spec_low by lia. by destruct (Z.testbit b i), (Z.testbit k i).
  - rewrite Z.ones_spec_high by lia. rewrite !andb_false_r.
    unfold is_byte in Hr. rewrite <- (Z.mod_small b (2 ^ 8)) by (change (2 ^ 8) with 256; lia).
    by rewrite Z.mod_pow2_bits_high by lia.
Qed.

Lemma map_u8_bytes {A} (f : A -> Z) (l : list A) : bytes (map (fun x => u8 (f x)) l).
Proof. apply Forall_fmap, Forall_forall. intros. apply u8_is_byte. Qed.

#[export] Instance sample_laws : CryptoLaws sample_crypto.
Proof.
  constructor; cbv [HMAC aes_cbc_encrypt aes_cbc_decrypt RAND_bytes sample_crypto].
  - intros ???? [= <-]. unfold sample_mac. by rewrite length_map, length_seq.
  - intros ???? [= <-]. apply map_u8_bytes.
  - intros ??? [= <-]. apply length_replicate.
  - intros ??? [= <-]. apply Forall_replicate, u8_is_byte.
  - intros ???? [= <-] _. apply length_map.
  - intros ???? [= <-]. unfold xor_with, whole_blocks. rewrite length_map, length_take.
    pose proof (Nat.Div0.mul_div_le (length x) 16) as Hd.
    lia.
  - intros ???? [= <-]. apply map_u8_bytes.
  - intros key iv x c Hm Hb [= <-]. unfold whole_blocks. rewrite take_ge; [by rewrite xor_with_twice|].
    unfold xor_with. rewrite length_map. pose proof (Nat.div_mod_eq (length x) 16) as Hd.
    lia.
Qed.

#[export] Instance sample_total : CryptoTotal sample_crypto.
Proof. constructor; cbn; eauto. Qed.

(** ** The build and the users *)
#[export] Instance sample_settings : Settings := {|
  initial_info := {| sessionHandle := 0; channelNum := 0; userID := 0; currentPrivilege := 0;
                     remoteIPAddr := 0; remotePort := 0; state := State.inactive |};
  getInterfaceIndex := 1; RMCP_PING := false; id_fuel := 64 |}.

(** User 2 is "a" with password "pw", an administrator; user 3 is "b" with
    password "qw", an operator. *)
Definition sample_users : UserLayer := {|
  ipmiUserGetUserId name :=
    if bool_decide (name = [97]) then 2 else if bool_decide (name = [98]) then 3 else 0xFF;
  ipmiUserCheckEnabled _ := true;
  ipmiUserGetPassword name := if bool_decide (name = [97]) then [112; 119] else [113; 119];
  ipmiUserPamAuthenticate _ _ := true;
  ipmiUserGetPrivilegeAccess id _ _ :=
    (0, {| privilege := if id =? 2 then Privilege.ADMIN else Privilege.OPERATOR;
           ipmiEnabled := true |});
  getChannelAccessData _ _ := (0, {| accessMode := 2; privLimit := Privilege.ADMIN |});
  ipmiUserGetUserPayloadAccess _ _ := (0, true); ipmiUserGetAllCounts := 2;
  isValidChannel _ := true; getChannelSessionSupport _ := 1; isValidPrivLimit _ := true;
  isValidPayloadType _ := true; doesDeviceExist _ := true;
  channelMediumType c := if c =? 1 then 4 else 0 |}.

Definition sample_channel : Channel := {| ch_port := 50000; ch_ipv4 := Some 0x0100007F |}.
Definition sample_answers : Answers :=
  {| connects := true; solProperties := None; cipherFile := None; sessionObjects := None |}.

(** ** Packets *)
Definition setup_packet (pt : Z) (pl : list Z) : list Z :=
  ipmi20parser.header_bytes pt 0 (to_ipmi32 0) (zlen pl) ++ pl.
Definition packet_input (t : Z) (packet : list Z) : Input :=
  {| i_time := t; i_answers := sample_answers; i_writes := [];
     i_event := EPacket sample_channel (Some packet) |}.
Definition open_request (rcID : Z) : list Z :=
  [9; 0; 0; 0] ++ to_ipmi32 rcID ++ [0; 0; 0; 8; 3; 0; 0; 0] ++ [1; 0; 0; 8; 4; 0; 0; 0]
  ++ [2; 0; 0; 8; 1; 0; 0; 0].
Definition rakp1_request (tag sid : Z) (rcRand : list Z) (priv : Z) (name : list Z) : list Z :=
  [tag; 0; 0; 0] ++ to_ipmi32 sid ++ rcRand ++ [priv; 0; 0; zlen name] ++ name.
Definition rakp3_request (tag sid : Z) (mac : list Z) : list Z :=
  [tag; 0; 0; 0] ++ to_ipmi32 sid ++ mac.

(** ** A run *)
Definition state_of {A} (o : outcome Net A) (d : Net) : Net :=
  match o with Ret _ n | Throw _ n => n | Undef _ => d end.
Definition net0 : Net := initial_Net sample_users canned_guid 1000.
Definition booted : Net := state_of (boot sample_users None 1000) net0.
Definition after (n : Net) (t : Z) (packet : list Z) : Net :=
  state_of (step (packet_input t packet) n) net0.
Definition opened : Net := after booted 2000 (setup_packet PayloadType.OPEN_SESSION_REQUEST (open_request 77)).
Definition opened_id : Z := 0x01010101.
Definition sample_key : list Z := resize USER_KEY_MAX_LENGTH [112; 119].
Definition console_rand : list Z := replicate 16 5.
Definition sample_role : Z := 0x14.
Definition challenged : Net :=
  after opened 3000
    (setup_packet PayloadType.RAKP1 (rakp1_request 9 opened_id console_rand sample_role [97])).
Definition bmc_rand : list Z := replicate 16 2.
Definition sample_proof : list Z :=
  default [] (HMAC SHA256 sample_key (rakp3_input bmc_rand 77 sample_role [97])).
Definition rakp3_packet : list Z :=
  setup_packet PayloadType.RAKP3 (rakp3_request 9 opened_id sample_proof).
Definition established : Net := after challenged 4000 rakp3_packet.
Definition sample_session (n : Net) : Session :=
  default (new_Session 0 0 0) (heap n !! 1%nat).

(** A message to the console of the session, under all its protections. *)
Definition protected_message (pl : list Z) : Message :=
  new_Message <| payloadType := PayloadType.IPMI |> <| rcSessionID := opened_id |>
              <| bmcSessionID := opened_id |> <| isPacketEncrypted := Some true |>
              <| isPacketAuthenticated := Some true |> <| payload := pl |>.
Definition flattened (n : Net) (m : Message) : list Z :=
  match parser.flatten m IPMI20 1 n with Ret l _ => l | _ => [] end.

(** A console that opened a serial session: [printed], the host wrote two bytes;
    [waiting], they were sent and wait for their acknowledgement. *)
Definition event_input (t : Z) (e : Event) : Input :=
  {| i_time := t; i_answers := sample_answers; i_writes := []; i_event := e |}.
Definition after_event (n : Net) (t : Z) (e : Event) : Net :=
  state_of (step (event_input t e) n) net0.
Definition app_message (cmd : Z) (data : list Z) : list Z :=
  [0x20; 0x18; 0xC8; 0x81; 0; cmd] ++ data ++ [0].
Definition activate_packet : list Z :=
  flattened established (protected_message (app_message 0x48 [1; 1; 0xC0; 0; 0; 0])).
Definition activated : Net := after established 5000 activate_packet.
Definition printed : Net := after_event activated 6000 (EConsole (Some [104; 105])).
Definition waiting : Net := after_event printed 200000 (EAccumulate 1).
Definition sample_context (n : Net) : Context :=
  default {| maxRetryCount := 0; retryCounter := 0; c_sendThreshold := 0; payloadInstance := 0;
             c_sessionID := 0; c_session := 0; expectedCharCount := 0; sol_in := 0; sol_out := 0;
             payloadCache := []; accumulateTimer := None; retryTimer := None |}
          (payloadMap (sol n) !! 1).
