(* ===== verification/RmcpParserSpec.v ===== *)
(** * Properties of the packet parser

    Round trip of [flatten] and [unflatten] for every state of protection of a
    session, what an accepted packet proves about its sender, which packets are
    undefined behaviour, and the checksums of the LAN payload. *)
From Stdlib Require Import ZArith Lia String.
From stdpp Require Import base list gmap.
From S2P Require Import Prelude IpmbFrame RmcpMessage RmcpCrypto RmcpState RmcpSession RmcpParser.
From S2P Require Import RmcpSample.
Local Open Scope Z_scope.

(** ** Buffers *)
Lemma zlen_app l1 l2 : zlen (l1 ++ l2) = zlen l1 + zlen l2.
Proof. unfold zlen. rewrite length_app. lia. Qed.
Lemma zlen_nonneg l : 0 <= zlen l.
Proof. unfold zlen. lia. Qed.

Lemma read_range_inv {S} v off n (s s' : S) r :
  0 <= off -> 0 <= n -> read_range v off n s = Ret r s' ->
  s' = s /\ r = take (Z.to_nat n) (drop (Z.to_nat off) v) /\ off + n <= zlen v.
Proof.
  intros Ho Hn. unfold read_range, zlen. destruct (Z.leb_spec (off + n) (Z.of_nat (length v))).
  - intros [= <- <-]. auto.
  - discriminate.
Qed.

Lemma rd32_inv {S} v off (s s' : S) z :
  0 <= off -> rd32 v off s = Ret z s' ->
  s' = s /\ z = le_value (take 4 (drop (Z.to_nat off) v)).
Proof.
  intros Ho Hr. apply bind_inv in Hr as (b & s1 & Hr & Hk).
  apply read_range_inv in Hr as (-> & -> & _); [|lia..]. by injection Hk as <- <-.
Qed.

Lemma land_bound z n : 0 <= n -> 0 <= Z.land z (2 ^ n - 1) < 2 ^ n.
Proof. intros Hn. rewrite land_mask by done. apply Z.mod_pos_bound. lia. Qed.

Lemma integrity_padding_range n : 1 <= ipmi20parser.integrity_padding n <= 4.
Proof.
  unfold ipmi20parser.integrity_padding. change 3 with (2 ^ 2 - 1).
  pose proof (land_bound (n + 2) 2 ltac:(lia)). change (2 ^ 2) with 4 in *. lia.
Qed.

(** ** The header of RMCP+ *)
Section Header.
Context `{Crypto}.
Import ipmi20parser.

Definition u32_range (z : Z) : Prop := 0 <= z < 2 ^ 32.

Lemma header_bytes_length pt sid seq len :
  length seq = 4%nat -> zlen (header_bytes pt sid seq len) = 16.
Proof.
  intros Hs. unfold header_bytes, zlen, to_ipmi32, to_ipmi16.
  rewrite !length_app, !le_bytes_length, Hs. reflexivity.
Qed.

Lemma rd32_u32 z : u32_range z -> le_value (to_ipmi32 z) = z.
Proof. intros Hz. by apply le_value_bytes. Qed.

Lemma header_read pt sid sq len rest (n : Net) :
  u32_range sid -> u32_range sq -> 0 <= len < 2 ^ 16 ->
  let pkt := header_bytes pt sid (to_ipmi32 sq) len ++ rest in
  rd32 pkt 6 n = Ret sid n /\ rd8 pkt 5 n = Ret pt n /\ rd32 pkt 10 n = Ret sq n /\
  rd8 pkt 3 n = Ret ClassOfMsg.IPMI n /\ rd16 pkt 14 n = Ret len n.
Proof.
  intros Hs Hq Hl pkt. subst pkt. unfold header_bytes. split_and!; [| done | | done |].
  - change 6 with (zlen (rmcp_header ClassOfMsg.IPMI ++ [session_header_byte IPMI20; pt])).
    rewrite <- !app_assoc, app_assoc. by apply rd32_at.
  - change 10 with (zlen (rmcp_header ClassOfMsg.IPMI ++ [session_header_byte IPMI20; pt]) + 4).
    replace (_ + 4) with (zlen ((rmcp_header ClassOfMsg.IPMI ++ [session_header_byte IPMI20; pt])
                               ++ to_ipmi32 sid))
      by (rewrite zlen_app; unfold to_ipmi32; unfold zlen at 2; by rewrite le_bytes_length).
    rewrite <- !app_assoc. rewrite (app_assoc _ _ (to_ipmi32 sid ++ _)), (app_assoc _ (to_ipmi32 sid)).
    by apply rd32_at.
  - change 14 with (zlen (rmcp_header ClassOfMsg.IPMI ++ [session_header_byte IPMI20; pt]) + 8).
    replace (_ + 8) with (zlen ((rmcp_header ClassOfMsg.IPMI ++ [session_header_byte IPMI20; pt])
                               ++ to_ipmi32 sid ++ to_ipmi32 sq))
      by (rewrite !zlen_app; unfold to_ipmi32; unfold zlen at 2 3; by rewrite !le_bytes_length).
    rewrite <- !app_assoc.
    rewrite (app_assoc (to_ipmi32 sid)), (app_assoc _ _ ((_ ++ _) ++ _)), (app_assoc _ (_ ++ _)).
    by apply rd16_at.
Qed.

(** What [unflatten] does once the header is read. *)
Definition checked_payload (pkt : list Z) (pt sid len : Z) (session : Session) : M Net (list Z) :=
  let encrypted := negb (Z.land pt PAYLOAD_ENCRYPT_MASK =? 0) in
  let authenticated := negb (Z.land pt PAYLOAD_AUTH_MASK =? 0) in
  if (len =? 0) || (zlen pkt <? sizeof_SessionHeader + len)
  then throw (RuntimeError "Invalid data length")
  else
    if negb (sid =? sessionZero)
       && (isIntegrityAlgoEnabled session && negb authenticated
           || isCryptAlgoEnabled session && negb encrypted)
    then throw (RuntimeError "unencrypted or unauthenticated message")
    else
      let! intact := if authenticated then verifyPacketIntegrity pkt len session else ret true in
      if negb intact then throw (RuntimeError "Packet Integrity check failed")
      else if encrypted then decryptPayload pkt len session
           else read_range pkt sizeof_SessionHeader len.

Definition received_message (pt sid sq : Z) (pl : list Z) : Message :=
  {| isPacketEncrypted := Some (negb (Z.land pt PAYLOAD_ENCRYPT_MASK =? 0));
     isPacketAuthenticated := Some (negb (Z.land pt PAYLOAD_AUTH_MASK =? 0));
     payloadType := Z.land pt 0x3F; rcSessionID := MESSAGE_INVALID_SESSION_ID;
     bmcSessionID := sid; sessionSeqNum := Some sq; rmcpMsgClass := ClassOfMsg.IPMI;
     asfMsgTag := None; payload := pl |}.

Lemma unflatten_header pt sid sq len rest (n : Net) p s :
  u32_range sid -> u32_range sq -> 0 <= len < 2 ^ 16 ->
  sessionsMap n !! sid = Some p -> heap n !! p = Some s ->
  let pkt := header_bytes pt sid (to_ipmi32 sq) len ++ rest in
  unflatten pkt n =
    bind (checked_payload pkt pt sid len s) (fun pl => ret (received_message pt sid sq pl)) n.
Proof.
  intros Hs Hq Hl Hm Hh pkt.
  assert (16 <= zlen pkt) as Hz.
  { unfold pkt. rewrite zlen_app, header_bytes_length by apply le_bytes_length.
    pose proof (zlen_nonneg rest). lia. }
  destruct (header_read pt sid sq len rest n Hs Hq Hl) as (R1 & R2 & R3 & R4 & R5). fold pkt in R1, R2, R3, R4, R5.
  unfold unflatten. unfold sizeof_SessionHeader at 1.
  destruct (Z.ltb_spec (zlen pkt) 16); [lia|].
  rewrite (bind_Ret _ _ _ _ _ R1).
  rewrite (bind_Ret (getSession sid) _ n p n) by (unfold getSession, bind, get; by rewrite Hm).
  rewrite (bind_Ret (obj p) _ n s n) by (unfold obj; by rewrite Hh).
  rewrite (bind_Ret _ _ _ _ _ R2), (bind_Ret _ _ _ _ _ R3), (bind_Ret _ _ _ _ _ R4),
    (bind_Ret _ _ _ _ _ R5).
  unfold checked_payload.
  destruct (_ || _); [done|]. destruct (_ && _); [done|].
  unfold bind at 1. unfold bind at 3. unfold bind at 2.
  destruct (if negb (Z.land pt PAYLOAD_AUTH_MASK =? 0) then _ else _) as [intact n1|e n1|f]; [|done..].
  destruct intact; [|done]. reflexivity.
Qed.
End Header.

(** ** Integrity data *)
Section Integrity.
Context `{Crypto} `{!CryptoTotal _, !CryptoLaws _}.
Import ipmi20parser.

Definition integrity_ok (i : IntegrityAlgo) : Prop :=
  authCodeLength i = AUTHCODE_LENGTH (intDigest i).

Definition integrity_trailer (len : Z) : list Z :=
  replicate (Z.to_nat (integrity_padding len)) 0xFF
  ++ [integrity_padding len; RMCP_MESSAGE_CLASS_IPMI].

Lemma integrity_trailer_length len : zlen (integrity_trailer len) = integrity_padding len + 2.
Proof.
  unfold integrity_trailer, zlen. rewrite length_app, length_replicate. cbn [length].
  pose proof (integrity_padding_range len). lia.
Qed.

Lemma AUTHCODE_LENGTH_le d : (AUTHCODE_LENGTH d <= digest_length d)%nat.
Proof. apply Nat.leb_le. by destruct d. Qed.

Lemma integrity_generateHMAC_Ret {S} i input (s : S) :
  integrity_ok i -> exists mac,
    integrity_generateHMAC i input s = Ret mac s /\ length mac = authCodeLength i /\
    (exists o, HMAC (intDigest i) (k1 i) input = Some o /\ mac = resize (authCodeLength i) o).
Proof.
  intros Hi. unfold integrity_generateHMAC. destruct (HMAC_total (intDigest i) (k1 i) input) as [o Ho].
  rewrite Ho. exists (resize (authCodeLength i) o). split_and!; [done| |eauto].
  pose proof (HMAC_length _ _ _ _ Ho) as Hl.
  pose proof (AUTHCODE_LENGTH_le (intDigest i)).
  rewrite resize_le by (rewrite Hi, Hl; done). rewrite length_take, Hi, Hl. lia.
Qed.

(** What [generateIntegrityData] covers: everything but the RMCP header. *)
Lemma generateIntegrityData_covers {S} i packet (s : S) :
  4 <= zlen packet ->
  generateIntegrityData i packet s = integrity_generateHMAC i (drop 4 packet) s.
Proof.
  intros Hl. unfold generateIntegrityData, RMCP_SESSION_HEADER_SIZE, read_range, zlen in *.
  replace (_ <=? _) with true by (symmetry; apply Z.leb_le; lia).
  rewrite bind_ret_l. change (Z.to_nat 4) with 4%nat. f_equal.
  rewrite take_ge; [done|]. rewrite length_drop. lia.
Qed.

Lemma verifyIntegrityData_of {S} i body mac (s : S) :
  4 <= zlen body ->
  verifyIntegrityData i (body ++ mac) (zlen body - 4) mac s =
    bind (integrity_generateHMAC i (drop 4 body)) (fun o => ret (bool_decide (o = mac))) s.
Proof.
  intros Hl. unfold verifyIntegrityData, RMCP_SESSION_HEADER_SIZE.
  rewrite <- (take_drop 4 body) at 1. rewrite <- app_assoc.
  assert (length (take 4 body) = 4%nat) as Ht by (rewrite length_take; unfold zlen in Hl; lia).
  rewrite (bind_Ret _ _ s (drop 4 body) s); [done|].
  apply read_range_app; unfold zlen in *; [lia|]. rewrite length_drop. lia.
Qed.

Lemma integrity_roundtrip i (n n' : Net) packet len s :
  integrityAlgoInterface s = Some i -> integrity_ok i -> 0 <= len -> zlen packet = 16 + len ->
  exists mac, length mac = authCodeLength i /\
    addIntegrityData packet len s n = Ret (packet ++ integrity_trailer len ++ mac) n /\
    verifyPacketIntegrity (packet ++ integrity_trailer len ++ mac) len s n' = Ret true n'.
Proof.
  intros Hi Hok Hlen Hz.
  set (body := packet ++ integrity_trailer len).
  assert (zlen body = 16 + len + integrity_padding len + 2) as Hb.
  { unfold body. rewrite zlen_app, integrity_trailer_length. lia. }
  pose proof (integrity_padding_range len) as Hp.
  destruct (integrity_generateHMAC_Ret (S := Net) i (drop 4 body) n Hok) as (mac & Hm & Hl & o & Ho & ->).
  exists (resize (authCodeLength i) o). split; [done|]. split.
  - unfold addIntegrityData, getIntegrityAlgo. rewrite Hi, bind_ret_l.
    fold (integrity_trailer len). fold body.
    rewrite (bind_Ret _ _ n (resize (authCodeLength i) o) n).
    + unfold body. by rewrite <- !app_assoc.
    + rewrite generateIntegrityData_covers by lia. exact Hm.
  - rewrite app_assoc. fold body. unfold verifyPacketIntegrity.
    set (mac := resize (authCodeLength i) o) in *.
    assert (zlen (body ++ mac) = 16 + len + integrity_padding len + 2 + Z.of_nat (authCodeLength i))
      as Hzb by (rewrite zlen_app, Hb; unfold zlen; lia).
    unfold sizeof_SessionHeader, sizeof_SessionTrailer. rewrite Hzb.
    replace (_ <? _) with false by (symmetry; apply Z.ltb_ge; lia).
    assert ((body ++ mac) !! Z.to_nat (16 + len + integrity_padding len) = Some (integrity_padding len)) as Hpad.
    { rewrite lookup_app_l by (unfold zlen in Hb; lia).
      unfold body, integrity_trailer. rewrite app_assoc, lookup_app_r;
        rewrite length_app, length_replicate; unfold zlen in *; [|lia].
      replace (_ - _)%nat with 0%nat by lia. reflexivity. }
    rewrite (bind_Ret _ _ n' (integrity_padding len) n') by (apply idx_Ret, Hpad).
    rewrite Z.eqb_refl. unfold negb at 1, getIntegrityAlgo. rewrite Hi, bind_ret_l.
    replace (_ =? Z.of_nat (authCodeLength i)) with true by (symmetry; apply Z.eqb_eq; lia).
    unfold negb at 1, RMCP_SESSION_HEADER_SIZE.
    replace (drop _ (body ++ mac)) with mac.
    2: { replace (Z.to_nat _) with (length body) by (unfold zlen in Hb; lia).
         by rewrite drop_app_length. }
    replace (16 + len + integrity_padding len + 2 + Z.of_nat (authCodeLength i)
             - Z.of_nat (authCodeLength i) - 4) with (zlen body - 4) by lia.
    rewrite verifyIntegrityData_of by lia.
    unfold integrity_generateHMAC. rewrite Ho, bind_ret_l. fold mac.
    by rewrite bool_decide_eq_true_2.
Qed.
End Integrity.

(** ** Encryption *)
Section Encryption.
Context `{Crypto} `{!CryptoTotal _, !CryptoLaws _}.

Lemma read_key {S} k2 (s : S) : (16 <= length k2)%nat -> read_range k2 0 16 s = Ret (take 16 k2) s.
Proof. intros Hk. unfold read_range. by rewrite (proj2 (Z.leb_le _ _)) by lia. Qed.

(** What stripping the padding of a payload gives: 16 bytes of padding are
    compared with a table of 15. *)
Definition stripped (pl : list Z) : M Net (list Z) :=
  if ((length pl + 1) mod 16 =? 0)%nat then undef OutOfBounds else ret pl.

Lemma strip_padding pl (s : Net) :
  bind (of_option OutOfBounds (last (pad_payload pl))) (fun confPadLength =>
    let padLength := Nat.min (length (pad_payload pl) - 1) (Z.to_nat confPadLength) in
    let plainLen := (length (pad_payload pl) - padLength - 1)%nat in
    let! ok := equal_range (slice (pad_payload pl) plainLen padLength) confPadBytes in
    if ok then ret (resize plainLen (pad_payload pl))
    else throw (RuntimeError "Confidentiality pad bytes check failed")) s = stripped pl s.
Proof.
  destruct (conf_padding_spec (length pl)) as [Hp _].
  pose proof (conf_padding_16 (length pl)) as H16.
  set (k := conf_padding (length pl)) in *.
  assert (length (pad_payload pl) = length pl + k + 1)%nat as Hl.
  { unfold pad_payload. rewrite !length_app, iota_length. fold k. cbn [length]. lia. }
  assert (last (pad_payload pl) = Some (Z.of_nat k)) as Hlast.
  { unfold pad_payload. rewrite app_assoc. apply last_snoc. }
  rewrite Hlast. cbn [of_option]. rewrite bind_ret_l, Hl, Nat2Z.id.
  replace (Nat.min _ k) with k by lia.
  replace (length pl + k + 1 - k - 1)%nat with (length pl) by lia.
  replace (slice (pad_payload pl) (length pl) k) with (iota k).
  2: { unfold slice, pad_payload. fold k. rewrite drop_app_length.
       rewrite take_app_le by (rewrite iota_length; lia).
       rewrite take_ge by (rewrite iota_length; lia). done. }
  unfold stripped. destruct (Nat.eqb_spec ((length pl + 1) mod 16) 0) as [He|Hne].
  - rewrite (proj2 H16 He). reflexivity.
  - rewrite iota_confPadBytes by lia.
    rewrite (bind_Ret _ _ s true s).
    + rewrite resize_le by lia. unfold pad_payload. by rewrite take_app_length.
    + rewrite <- (take_drop k confPadBytes) at 2. apply equal_range_prefix.
Qed.

Lemma encryption_roundtrip k2 iv pl pre post (n n' : Net) :
  (16 <= length k2)%nat -> length iv = 16%nat -> bytes pl ->
  exists c, length c = length (pad_payload pl) /\
    aes_encryptPayload k2 (Some iv) pl n = Ret (iv ++ c) n /\
    aes_decryptPayload k2 (pre ++ (iv ++ c) ++ post) (zlen pre) (zlen (iv ++ c)) n' = stripped pl n'.
Proof.
  intros Hk Hiv Hb.
  destruct (encrypt_total (take 16 k2) iv (pad_payload pl)) as [c Hc].
  assert (length c = length (pad_payload pl)) as Hl
    by (eapply encrypt_length; [exact Hc | apply pad_payload_length]).
  exists c. split; [done|]. split.
  - unfold aes_encryptPayload, encryptData. rewrite (bind_Ret _ _ n (take 16 k2) n) by by apply read_key.
    by rewrite Hc.
  - unfold aes_decryptPayload. change (Z.of_nat (length ?l)) with (zlen l).
    assert (zlen (iv ++ c) = 16 + zlen c) as Hz by (rewrite zlen_app; unfold zlen; lia).
    rewrite !zlen_app. pose proof (zlen_nonneg post). pose proof (zlen_nonneg c).
    rewrite zlen_app in Hz. unfold AESCBC128ConfHeader.
    rewrite Hz. rewrite (proj2 (Z.ltb_ge _ _)) by lia. rewrite (proj2 (Z.ltb_ge _ _)) by lia.
    cbn [orb]. rewrite <- app_assoc.
    rewrite (bind_Ret _ _ n' iv n') by (apply read_range_app; unfold zlen in *; lia).
    rewrite app_assoc.
    rewrite (bind_Ret _ _ n' c n').
    2: { apply read_range_app; unfold zlen in *; rewrite ?length_app; lia. }
    unfold decryptData.
    rewrite (bind_Ret _ _ n' (pad_payload pl) n').
    2: { rewrite (bind_Ret _ _ n' (take 16 k2) n') by by apply read_key.
         by rewrite (decrypt_encrypt _ _ _ _ (pad_payload_length _) (pad_payload_bytes _ Hb) Hc). }
    apply strip_padding.
Qed.
End Encryption.

(** ** Round trip *)
Section RoundTrip.
Context `{Crypto, Settings} `{!CryptoTotal _, !CryptoLaws _}.
Import ipmi20parser.

Definition type_byte (pt : Z) (e a : bool) : Z :=
  let pt := if e then Z.lor pt PAYLOAD_ENCRYPT_MASK else pt in
  if a then Z.lor pt PAYLOAD_AUTH_MASK else pt.

Lemma type_byte_fields pt e a :
  0 <= pt < 64 ->
  Z.land (type_byte pt e a) 0x3F = pt /\
  negb (Z.land (type_byte pt e a) PAYLOAD_ENCRYPT_MASK =? 0) = e /\
  negb (Z.land (type_byte pt e a) PAYLOAD_AUTH_MASK =? 0) = a.
Proof.
  intros Hp.
  set (f := fun k e a => let pt := Z.of_nat k in
    (Z.land (type_byte pt e a) 0x3F =? pt)
    && Bool.eqb (negb (Z.land (type_byte pt e a) PAYLOAD_ENCRYPT_MASK =? 0)) e
    && Bool.eqb (negb (Z.land (type_byte pt e a) PAYLOAD_AUTH_MASK =? 0)) a).
  assert (forallb (fun k => f k true true && f k true false && f k false true && f k false false)
                  (seq 0 64) = true) as Hf by (vm_compute; reflexivity).
  rewrite forallb_forall in Hf. specialize (Hf (Z.to_nat pt)).
  assert (In (Z.to_nat pt) (seq 0 64)) as Hin by (apply in_seq; lia).
  specialize (Hf Hin). rewrite !andb_true_iff in Hf. destruct Hf as [[[H1 H2] H3] H4].
  assert (f (Z.to_nat pt) e a = true) as Hr by (destruct e, a; assumption).
  unfold f in Hr. rewrite Z2Nat.id in Hr by lia. rewrite !andb_true_iff in Hr.
  destruct Hr as [[Ha Hb] Hc]. apply Z.eqb_eq in Ha. apply Bool.eqb_prop in Hb, Hc. auto.
Qed.

(** A session whose keys fit its algorithms. *)
Definition keys_ok (s : Session) : Prop :=
  (forall i, integrityAlgoInterface s = Some i -> integrity_ok i) /\
  (forall k, cryptAlgoInterface s = Some k -> (16 <= length k)%nat).

(** A message that is protected with everything its session has. *)
Definition protected_for (s : Session) (m : Message) : Prop :=
  isPacketEncrypted m = Some (isCryptAlgoEnabled s) /\
  isPacketAuthenticated m = Some (isIntegrityAlgoEnabled s).

Definition sendable (s : Session) (m : Message) : Prop :=
  protected_for s m /\ 0 <= payloadType m < 64 /\ bytes (payload m) /\
  (0 < length (payload m))%nat /\ zlen (payload m) < 65000.

(** The number the packet carries. *)
Definition next_seq (sid : Z) (s : Session) : Z :=
  if sid =? sessionZero then 0 else seq_out (seq_increment (sequenceNums s)).

Definition counted (sid : Z) (p : nat) (n : Net) : Net :=
  if sid =? sessionZero then n
  else n <| heap := alter (fun s => s <| sequenceNums := seq_increment (sequenceNums s) |>) p (heap n) |>.

Lemma addSequenceNumber_Ret sid p n s :
  heap n !! p = Some s ->
  addSequenceNumber sid p n = Ret (to_ipmi32 (next_seq sid s)) (counted sid p n) /\
  exists s', heap (counted sid p n) !! p = Some s' /\
    integrityAlgoInterface s' = integrityAlgoInterface s /\
    cryptAlgoInterface s' = cryptAlgoInterface s.
Proof.
  intros Hs. unfold addSequenceNumber, next_seq, counted. destruct (sid =? sessionZero); [eauto|].
  set (n' := n <| heap := alter _ p (heap n) |>).
  assert (heap n' !! p = Some (s <| sequenceNums := seq_increment (sequenceNums s) |>)) as Hp.
  { unfold n'. cbn. by rewrite lookup_alter_eq, Hs. }
  split; [|eexists; split; [exact Hp|done]].
  unfold on_obj. rewrite (bind_Ret _ _ n tt n') by done.
  rewrite (bind_Ret (obj p) _ n' (s <| sequenceNums := seq_increment (sequenceNums s) |>) n')
    by (unfold obj; by rewrite Hp). reflexivity.
Qed.

(** The payload as it travels, and the inverse on the receiving side. *)
Lemma payload_roundtrip m s s' (n : Net) :
  sendable s m -> keys_ok s -> cryptAlgoInterface s' = cryptAlgoInterface s ->
  exists pl n1, (if isCryptAlgoEnabled s then encryptPayload m s' else ret (payload m)) n = Ret pl n1 /\
    heap n1 = heap n /\ 0 < zlen pl < 65536 /\
    forall pre post (t : Net), zlen pre = 16 ->
      (if isCryptAlgoEnabled s then decryptPayload (pre ++ pl ++ post) (zlen pl) s
       else read_range (pre ++ pl ++ post) 16 (zlen pl)) t =
        (if isCryptAlgoEnabled s then stripped (payload m) else ret (payload m)) t.
Proof.
  intros (_ & _ & Hb & Hpos & Hlen) [_ Hk] Heq.
  unfold isCryptAlgoEnabled in *. destruct (cryptAlgoInterface s) as [k2|] eqn:Hc.
  - rewrite bool_decide_eq_true_2 by eauto. specialize (Hk _ eq_refl).
    destruct (RAND_total (rng n) AESCBC128ConfHeader) as [iv Hiv].
    pose proof (RAND_length _ _ _ Hiv) as Hivl.
    set (n1 := n <| rng := S (rng n) |>).
    destruct (encryption_roundtrip k2 iv (payload m) [] [] n1 n1 Hk Hivl Hb) as (c & Hcl & He & _).
    assert (0 < zlen c < 65200) as Hcb.
    { unfold zlen in *. rewrite Hcl. unfold pad_payload. rewrite !length_app, iota_length.
      cbn [length]. destruct (conf_padding_spec (length (payload m))). lia. }
    exists (iv ++ c), n1. split_and!; [| done | | |].
    + unfold encryptPayload, getCryptAlgo. rewrite Heq, bind_ret_l.
      rewrite (bind_Ret (rand_bytes AESCBC128ConfHeader) _ n (Some iv) n1)
        by (unfold rand_bytes; by rewrite Hiv). exact He.
    + rewrite zlen_app. pose proof (zlen_nonneg iv). lia.
    + rewrite zlen_app. unfold zlen at 1. rewrite Hivl. unfold AESCBC128ConfHeader. lia.
    + intros pre post t Hpre.
      destruct (encryption_roundtrip k2 iv (payload m) pre post n1 t Hk Hivl Hb)
        as (c' & _ & He' & Hd).
      rewrite He in He'. injection He' as He'. apply app_inv_head in He'. subst c'.
      unfold decryptPayload, getCryptAlgo. rewrite Hc, bind_ret_l.
      unfold sizeof_SessionHeader. by rewrite <- Hpre.
  - rewrite bool_decide_eq_false_2 by (intros [? ?]; discriminate).
    exists (payload m), n. split_and!; [done|done|unfold zlen; lia|lia|].
    intros pre post t Hpre. by apply read_range_app.
Qed.

Lemma trailer_roundtrip s s' r packet len (n : Net) :
  keys_ok s -> integrityAlgoInterface s' = integrityAlgoInterface s ->
  integrityAlgoInterface r = integrityAlgoInterface s -> 0 <= len -> zlen packet = 16 + len ->
  exists post,
    (if isIntegrityAlgoEnabled s then addIntegrityData packet len s' else ret packet) n
      = Ret (packet ++ post) n /\
    forall t : Net, (if isIntegrityAlgoEnabled s then verifyPacketIntegrity (packet ++ post) len r
               else ret true) t = Ret true t.
Proof.
  intros [Hi _] Hs' Hr Hlen Hz. unfold isIntegrityAlgoEnabled.
  destruct (integrityAlgoInterface s) as [i|] eqn:Hs.
  - rewrite bool_decide_eq_true_2 by eauto.
    destruct (integrity_roundtrip i n n packet len s' Hs' (Hi _ eq_refl) Hlen Hz) as (mac & _ & Ha & _).
    exists (integrity_trailer len ++ mac). split; [exact Ha|]. intros t.
    destruct (integrity_roundtrip i n t packet len r Hr (Hi _ eq_refl) Hlen Hz) as (mac' & _ & Ha' & Hv).
    assert (addIntegrityData packet len r n = addIntegrityData packet len s' n) as He.
    { unfold addIntegrityData, getIntegrityAlgo. by rewrite Hs', Hr. }
    rewrite He, Ha in Ha'. injection Ha' as Hm. apply app_inv_head, app_inv_head in Hm. by subst mac'.
  - rewrite bool_decide_eq_false_2 by (intros [? ?]; discriminate).
    exists []. by rewrite app_nil_r.
Qed.

Lemma dispatch_ipmi20 pt sid seq len rest (t : Net) :
  parser.unflatten (header_bytes pt sid seq len ++ rest) t =
    bind (unflatten (header_bytes pt sid seq len ++ rest)) (fun m => ret (m, IPMI20)) t.
Proof.
  unfold parser.unflatten. rewrite (proj2 (Z.ltb_ge _ _)); [reflexivity|].
  rewrite zlen_app. unfold header_bytes. rewrite !zlen_app. change (zlen (rmcp_header _)) with 4.
  pose proof (zlen_nonneg [session_header_byte IPMI20; pt]). pose proof (zlen_nonneg (to_ipmi32 sid)).
  pose proof (zlen_nonneg seq). pose proof (zlen_nonneg (to_ipmi16 len)). pose proof (zlen_nonneg rest). lia.
Qed.

(** Sending and receiving, whatever the padding. *)
Lemma transmit (n t : Net) p q s r m :
  heap n !! p = Some s -> keys_ok s -> sendable s m -> u32_range (rcSessionID m) ->
  sessionsMap t !! rcSessionID m = Some q -> heap t !! q = Some r ->
  integrityAlgoInterface r = integrityAlgoInterface s ->
  cryptAlgoInterface r = cryptAlgoInterface s ->
  exists packet n',
    parser.flatten m IPMI20 p n = Ret packet n' /\
    parser.unflatten packet t =
      bind (if isCryptAlgoEnabled s then stripped (payload m) else ret (payload m))
        (fun pl => ret (received_message
             (type_byte (payloadType m) (isCryptAlgoEnabled s) (isIntegrityAlgoEnabled s))
             (rcSessionID m) (next_seq (rcSessionID m) s) pl, IPMI20)) t.
Proof.
  intros Hs Hk Hm Hsid Hq Hr Hri Hrc.
  destruct Hm as ([He Ha] & Hpt & Hb & Hpos & Hlen).
  destruct (addSequenceNumber_Ret (rcSessionID m) p n s Hs) as (Hseq & s' & Hs' & Hi' & Hc').
  set (n1 := counted (rcSessionID m) p n) in *.
  set (sq := next_seq (rcSessionID m) s).
  assert (u32_range sq) as Hsq.
  { unfold sq, next_seq. destruct (_ =? _); unfold u32_range; [lia|].
    cbn. unfold u32. pose proof (Z.mod_pos_bound (seq_out (sequenceNums s) + 1) 4294967296). lia. }
  assert (sendable s m) as Hm by (unfold sendable, protected_for; tauto).
  destruct (payload_roundtrip m s s' n1 Hm Hk Hc') as (pl & n2 & Hpl & Hh2 & Hzl & Hback).
  set (e := isCryptAlgoEnabled s) in *. set (a := isIntegrityAlgoEnabled s) in *.
  set (pt := type_byte (payloadType m) e a).
  set (hdr := header_bytes pt (rcSessionID m) (to_ipmi32 sq) (zlen pl)).
  assert (zlen (hdr ++ pl) = 16 + zlen pl) as Hzh.
  { rewrite zlen_app. unfold hdr. by rewrite header_bytes_length by apply le_bytes_length. }
  destruct (trailer_roundtrip s s' r (hdr ++ pl) (zlen pl) n2 Hk Hi' Hri ltac:(lia) Hzh)
    as (post & Hpost & Hver). fold a in Hpost, Hver.
  exists ((hdr ++ pl) ++ post), n2. split.
  - cbn [parser.flatten]. unfold flatten. rewrite (bind_Ret _ _ _ _ _ Hseq).
    rewrite (bind_Ret (obj p) _ n1 s' n1) by (unfold obj; by rewrite Hs').
    rewrite He. cbn [init_read of_option]. rewrite bind_ret_l.
    rewrite (bind_Ret _ _ _ _ _ Hpl), Ha. cbn [init_read of_option]. rewrite bind_ret_l.
    rewrite <- Hpost. unfold hdr, pt, type_byte. by destruct a, e.
  - rewrite <- app_assoc. unfold hdr. rewrite dispatch_ipmi20. fold hdr.
    unfold bind at 1. unfold hdr. rewrite (unflatten_header pt (rcSessionID m) sq (zlen pl) (pl ++ post) t q r)
      by (assumption || lia). fold hdr.
    enough (checked_payload ((hdr ++ pl) ++ post) pt (rcSessionID m) (zlen pl) r t =
            (if e then stripped (payload m) else ret (payload m)) t) as Hcp.
    { rewrite <- app_assoc in Hcp. unfold bind. rewrite Hcp.
      by destruct ((if e then stripped (payload m) else ret (payload m)) t). }
    destruct (type_byte_fields (payloadType m) e a Hpt) as (_ & Fe & Fa). fold pt in Fe, Fa.
    unfold checked_payload. rewrite Fe, Fa.
    rewrite (proj2 (Z.eqb_neq _ _)) by lia. unfold sizeof_SessionHeader.
    rewrite (zlen_app _ post), Hzh. pose proof (zlen_nonneg post).
    rewrite (proj2 (Z.ltb_ge _ _)) by lia. cbn [orb].
    assert (isIntegrityAlgoEnabled r = a) as -> by (unfold isIntegrityAlgoEnabled; by rewrite Hri).
    assert (isCryptAlgoEnabled r = e) as -> by (unfold isCryptAlgoEnabled; by rewrite Hrc).
    replace (a && negb a || e && negb e) with false by (destruct a, e; done).
    rewrite andb_false_r, (bind_Ret _ _ _ _ _ (Hver t)). cbn [negb].
    rewrite <- app_assoc. specialize (Hback hdr post t).
    assert (decryptPayload (hdr ++ pl ++ post) (zlen pl) r = decryptPayload (hdr ++ pl ++ post) (zlen pl) s)
      as -> by (unfold decryptPayload, getCryptAlgo; by rewrite Hrc).
    apply Hback. unfold hdr. apply header_bytes_length, le_bytes_length.
Qed.
(** C11. What one side of a session sends, the other side that
    holds the same keys under the session id receives: [flatten] of any
    message protected with everything its session has produces a packet, and
    [unflatten] of that packet returns the payload type, the flags, the
    session id, the incremented sequence number and the payload, and leaves the
    receiver unchanged.  With encryption the payload length must not be 15
    modulo 16. *)
Theorem rmcp_roundtrip (n t : Net) p q s r m :
  heap n !! p = Some s -> keys_ok s -> sendable s m -> u32_range (rcSessionID m) ->
  sessionsMap t !! rcSessionID m = Some q -> heap t !! q = Some r ->
  integrityAlgoInterface r = integrityAlgoInterface s ->
  cryptAlgoInterface r = cryptAlgoInterface s ->
  (isCryptAlgoEnabled s = true -> (length (payload m) + 1) mod 16 <> 0)%nat ->
  exists packet n',
    parser.flatten m IPMI20 p n = Ret packet n' /\
    parser.unflatten packet t =
      Ret (received_message
             (type_byte (payloadType m) (isCryptAlgoEnabled s) (isIntegrityAlgoEnabled s))
             (rcSessionID m) (next_seq (rcSessionID m) s) (payload m), IPMI20) t.
Proof.
  intros Hs Hk Hm Hsid Hq Hr Hri Hrc Hpad.
  destruct (transmit n t p q s r m Hs Hk Hm Hsid Hq Hr Hri Hrc) as (packet & n' & Hf & Hu).
  exists packet, n'. split; [exact Hf|]. rewrite Hu.
  destruct (isCryptAlgoEnabled s); [|done].
  unfold stripped. by rewrite (proj2 (Nat.eqb_neq _ _)) by (by apply Hpad).
Qed.

(** A payload that fills its last cipher block but for
    the length byte gets 16 bytes of padding, not none as the comment says
    ("0 to 15 bytes"), and the receiver compares them with a table of 15 bytes:
    [unflatten] of the packet this very code sends is undefined behaviour. *)
Theorem full_padding_overruns (n t : Net) p q s r m :
  heap n !! p = Some s -> keys_ok s -> sendable s m -> u32_range (rcSessionID m) ->
  sessionsMap t !! rcSessionID m = Some q -> heap t !! q = Some r ->
  integrityAlgoInterface r = integrityAlgoInterface s ->
  cryptAlgoInterface r = cryptAlgoInterface s ->
  isCryptAlgoEnabled s = true -> ((length (payload m) + 1) mod 16 = 0)%nat ->
  exists packet n',
    parser.flatten m IPMI20 p n = Ret packet n' /\ parser.unflatten packet t = Undef OutOfBounds.
Proof.
  intros Hs Hk Hm Hsid Hq Hr Hri Hrc Hc Hpad.
  destruct (transmit n t p q s r m Hs Hk Hm Hsid Hq Hr Hri Hrc) as (packet & n' & Hf & Hu).
  exists packet, n'. split; [exact Hf|]. rewrite Hu, Hc.
  unfold stripped. by rewrite Hpad.
Qed.
End RoundTrip.

(** ** What an accepted packet proves *)
Section Accepted.
Context `{Crypto, Settings}.
Import ipmi20parser.

Lemma rd8_inv {S} v i (s s' : S) z : rd8 v i s = Ret z s' -> s' = s /\ v !! i = Some z.
Proof.
  unfold rd8, idx. destruct (v !! i) as [b|]; [|discriminate]. by intros [= <- <-].
Qed.
Lemma rd16_inv {S} v off (s s' : S) z :
  0 <= off -> rd16 v off s = Ret z s' ->
  s' = s /\ z = le_value (take 2 (drop (Z.to_nat off) v)).
Proof.
  intros Ho Hr. apply bind_inv in Hr as (b & s1 & Hr & Hk).
  apply read_range_inv in Hr as (-> & -> & _); [|lia..]. by injection Hk as <- <-.
Qed.
Lemma getSession_inv sid n n' p : getSession sid n = Ret p n' -> n' = n /\ sessionsMap n !! sid = Some p.
Proof.
  unfold getSession, bind, get. destruct (sessionsMap n !! sid) as [q|]; [|discriminate].
  by intros [= <- <-].
Qed.
Lemma obj_inv p n n' s : obj p n = Ret s n' -> n' = n /\ heap n !! p = Some s.
Proof. unfold obj, deref. destruct (heap n !! p); [|discriminate]. by intros [= <- <-]. Qed.
Lemma getIntegrityAlgo_inv {S} s (n n' : S) i :
  getIntegrityAlgo s n = Ret i n' -> n' = n /\ integrityAlgoInterface s = Some i.
Proof. unfold getIntegrityAlgo. destruct (integrityAlgoInterface s); [|discriminate]. by intros [= <- <-]. Qed.
Lemma getCryptAlgo_inv {S} s (n n' : S) i :
  getCryptAlgo s n = Ret i n' -> n' = n /\ cryptAlgoInterface s = Some i.
Proof. unfold getCryptAlgo. destruct (cryptAlgoInterface s); [|discriminate]. by intros [= <- <-]. Qed.

(** [packet] ends in the MAC of everything before it but the RMCP header. *)
Definition authentic (i : IntegrityAlgo) (packet : list Z) : Prop :=
  exists body mac o, packet = body ++ mac /\ length mac = authCodeLength i /\
    HMAC (intDigest i) (k1 i) (drop 4 body) = Some o /\ mac = resize (authCodeLength i) o.

Lemma verifyPacketIntegrity_inv packet len s (n n' : Net) :
  0 <= len -> verifyPacketIntegrity packet len s n = Ret true n' ->
  n' = n /\ exists i, integrityAlgoInterface s = Some i /\ authentic i packet.
Proof.
  intros Hlen Hv. unfold verifyPacketIntegrity in Hv.
  pose proof (integrity_padding_range len) as Hp.
  unfold sizeof_SessionHeader, sizeof_SessionTrailer, RMCP_SESSION_HEADER_SIZE in Hv.
  destruct (Z.ltb_spec (zlen packet) (16 + len + integrity_padding len + 2)); [discriminate|].
  apply bind_inv in Hv as (b & n1 & Hb & Hv). apply rd8_inv in Hb as [-> _].
  destruct (negb (b =? integrity_padding len)); [discriminate|].
  apply bind_inv in Hv as (i & n1 & Hi & Hv). apply getIntegrityAlgo_inv in Hi as [-> Hi].
  destruct (Z.eqb_spec (zlen packet - (16 + len + integrity_padding len) - 2)
              (Z.of_nat (authCodeLength i))) as [He|]; [|discriminate].
  cbn [negb] in Hv. unfold verifyIntegrityData in Hv.
  apply bind_inv in Hv as (input & n1 & Hin & Hv).
  apply read_range_inv in Hin as (-> & -> & _); [|unfold RMCP_SESSION_HEADER_SIZE; lia..].
  apply bind_inv in Hv as (o & n1 & Ho & Hv). injection Hv as Heq ->.
  apply bool_decide_eq_true_1 in Heq. unfold integrity_generateHMAC in Ho.
  destruct (HMAC _ _ _) as [o'|] eqn:Hm; [|discriminate]. injection Ho as Ho ->.
  split; [done|]. exists i. split; [done|].
  set (k := Z.to_nat (16 + len + integrity_padding len + 2)) in *.
  assert (length packet = k + authCodeLength i)%nat as Hl by (unfold zlen in *; lia).
  exists (take k packet), (drop k packet), o'. split_and!.
  - by rewrite take_drop.
  - rewrite length_drop. lia.
  - rewrite <- Hm. f_equal. unfold RMCP_SESSION_HEADER_SIZE. change (Z.to_nat 4) with 4%nat.
    rewrite skipn_firstn_comm. f_equal. unfold zlen in *. lia.
  - by rewrite <- Heq.
Qed.

Lemma unflatten20_inv packet (n n' : Net) m :
  unflatten packet n = Ret m n' ->
  exists pt sid sq cls len p s, sessionsMap n !! sid = Some p /\ heap n !! p = Some s /\
    packet !! 5%nat = Some pt /\ len = le_value (take 2 (drop 14 packet)) /\
    m = (received_message pt sid sq (payload m)) <| rmcpMsgClass := cls |> /\
    checked_payload packet pt sid len s n = Ret (payload m) n'.
Proof.
  intros Hu. unfold unflatten in Hu.
  destruct (zlen packet <? sizeof_SessionHeader); [discriminate|].
  apply bind_inv in Hu as (sid & n1 & Hr & Hu). apply rd32_inv in Hr as [-> _]; [|lia].
  apply bind_inv in Hu as (p & n1 & Hr & Hu). apply getSession_inv in Hr as [-> Hp].
  apply bind_inv in Hu as (s & n1 & Hr & Hu). apply obj_inv in Hr as [-> Hs].
  apply bind_inv in Hu as (pt & n1 & Hr & Hu). apply rd8_inv in Hr as [-> Hpt].
  apply bind_inv in Hu as (sq & n1 & Hr & Hu). apply rd32_inv in Hr as [-> _]; [|lia].
  apply bind_inv in Hu as (cls & n1 & Hr & Hu). apply rd8_inv in Hr as [-> _].
  apply bind_inv in Hu as (len & n1 & Hr & Hu). apply rd16_inv in Hr as [-> Hlen]; [|lia].
  exists pt, sid, sq, cls, len, p, s. split_and!; [done..| |].
  - destruct (_ || _); [discriminate|]. destruct (_ && _); [discriminate|].
    apply bind_inv in Hu as (intact & n2 & _ & Hu). destruct (negb intact); [discriminate|].
    apply bind_inv in Hu as (pl & n3 & _ & Hu). by injection Hu as <- _.
  - unfold checked_payload. destruct (_ || _); [discriminate|]. destruct (_ && _); [discriminate|].
    apply bind_inv in Hu as (intact & n2 & Hi & Hu). rewrite (bind_Ret _ _ _ _ _ Hi).
    destruct (negb intact); [discriminate|].
    apply bind_inv in Hu as (pl & n3 & Hp' & Hu). injection Hu as <- <-. exact Hp'.
Qed.

Lemma pure_decrypt k2 packet h len (n n' : Net) pl :
  0 <= h -> aes_decryptPayload k2 packet h len n = Ret pl n' -> n' = n.
Proof.
  intros Hh Hd. unfold aes_decryptPayload in Hd.
  destruct (_ || (len <? _)) eqn:Hc; [discriminate|]. apply orb_false_iff in Hc as [_ Hc].
  apply Z.ltb_ge in Hc. unfold AESCBC128ConfHeader in Hc.
  apply bind_inv in Hd as (iv & n1 & Hr & Hd). apply read_range_inv in Hr as (-> & _ & _); [|lia..].
  apply bind_inv in Hd as (inp & n1 & Hr & Hd). apply read_range_inv in Hr as (-> & _ & _); [|lia..].
  apply bind_inv in Hd as (x & n1 & Hr & Hd).
  assert (n1 = n) as ->.
  { unfold decryptData in Hr. apply bind_inv in Hr as (k & n2 & Hk & Hr).
    apply read_range_inv in Hk as (-> & _ & _); [|lia..].
    destruct (aes_cbc_decrypt k iv inp); [|discriminate]. by injection Hr as _ <-. }
  clear Hr.
  apply bind_inv in Hd as (c & n1 & Hr & Hd).
  assert (n1 = n) as -> by (destruct (last x); [by injection Hr as _ <-|discriminate]).
  clear Hr.
  apply bind_inv in Hd as (ok & n1 & Hr & Hd).
  destruct ok; [|discriminate]. apply equal_range_true in Hr as [-> _]. by injection Hd as _ <-.
Qed.

(** Whatever [unflatten] returns leaves the daemon unchanged and names a session
    of the table; outside session zero, a session with an integrity algorithm
    accepts only packets that end in the MAC of their contents under its key,
    and a session with a confidentiality algorithm only packets marked as
    encrypted.  IPMI 1.5 packets belong to session zero. *)
Lemma accepted_packet packet (n n' : Net) m h :
  parser.unflatten packet n = Ret (m, h) n' -> bytes packet ->
  rmcpMsgClass m <> ClassOfMsg.ASF ->
  n' = n /\
  match h with
  | IPMI15 => bmcSessionID m = sessionZero
  | IPMI20 =>
      exists p s, sessionsMap n !! bmcSessionID m = Some p /\ heap n !! p = Some s /\
        (bmcSessionID m <> sessionZero ->
         (forall i, integrityAlgoInterface s = Some i -> authentic i packet) /\
         (is_Some (cryptAlgoInterface s) -> isPacketEncrypted m = Some true))
  end.
Proof.
  intros Hu Hbytes Hasf. unfold parser.unflatten in Hu.
  destruct (zlen packet <? 4); [discriminate|].
  apply bind_inv in Hu as (v & n1 & Hr & Hu). apply rd8_inv in Hr as [-> _].
  apply bind_inv in Hu as (sq & n1 & Hr & Hu). apply rd8_inv in Hr as [-> _].
  apply bind_inv in Hu as (c & n1 & Hr & Hu). apply rd8_inv in Hr as [-> _].
  destruct (_ || _ || _); [discriminate|].
  destruct (c =? ClassOfMsg.ASF).
  { destruct RMCP_PING; [|discriminate]. apply bind_inv in Hu as (m1 & n1 & Hr & Hu).
    injection Hu as <- <- <-. apply bind_inv in Hr as (tag & n2 & Ht & Hr).
    injection Hr as <- _. by cbn in Hasf. }
  apply bind_inv in Hu as (ft & n1 & Hr & Hu). apply rd8_inv in Hr as [-> _].
  destruct (ft =? session_header_byte IPMI15).
  - apply bind_inv in Hu as (m1 & n1 & Hr & Hu). injection Hu as <- <- <-.
    unfold ipmi15parser.unflatten in Hr.
    destruct (_ <? _); [discriminate|].
    apply bind_inv in Hr as (sid & n2 & Hd & Hr). apply rd32_inv in Hd as [-> _]; [|lia].
    destruct (negb _); [discriminate|].
    apply bind_inv in Hr as (sq' & n2 & Hd & Hr). apply rd32_inv in Hd as [-> _]; [|lia].
    apply bind_inv in Hr as (cls & n2 & Hd & Hr). apply rd8_inv in Hd as [-> _].
    apply bind_inv in Hr as (len & n2 & Hd & Hr). apply rd8_inv in Hd as [-> Hlen].
    destruct (_ || _); [discriminate|].
    apply bind_inv in Hr as (pl & n2 & Hd & Hr).
    apply read_range_inv in Hd as (-> & _); [by injection Hr as <- <-|unfold ipmi15parser.sizeof_SessionHeader; lia|].
    pose proof (Forall_lookup_1 _ _ _ _ Hbytes Hlen) as Hb. unfold is_byte in Hb. lia.
  - destruct (ft =? session_header_byte IPMI20); [|discriminate].
    apply bind_inv in Hu as (m1 & n1 & Hr & Hu). injection Hu as <- <- <-.
    apply unflatten20_inv in Hr as (pt & sid & sq' & cls & len & p & s & Hp & Hs & Hpt & Hlen & Hm & Hc).
    assert (0 <= len) as Hlen0.
    { rewrite Hlen. apply le_value_range. by apply Forall_take, Forall_drop. }
    assert (bmcSessionID m1 = sid) as Hsid by by rewrite Hm.
    assert (isPacketEncrypted m1 = Some (negb (Z.land pt PAYLOAD_ENCRYPT_MASK =? 0))) as Henc by by rewrite Hm.
    unfold checked_payload in Hc.
    destruct (_ || _); [discriminate|].
    destruct (negb (sid =? sessionZero) && _) eqn:Hpol; [discriminate|].
    apply bind_inv in Hc as (intact & n2 & Hi & Hc).
    destruct intact; [|discriminate]. cbn [negb] in Hc.
    assert (n2 = n /\ (negb (Z.land pt PAYLOAD_AUTH_MASK =? 0) = true ->
              exists i, integrityAlgoInterface s = Some i /\ authentic i packet)) as [-> Hauth].
    { destruct (negb (Z.land pt PAYLOAD_AUTH_MASK =? 0)).
      - apply verifyPacketIntegrity_inv in Hi as [-> Hi]; [auto|done].
      - injection Hi as <-. by split. }
    split.
    { destruct (negb (Z.land pt PAYLOAD_ENCRYPT_MASK =? 0)).
      - apply bind_inv in Hc as (k2 & n3 & Hk & Hc). apply getCryptAlgo_inv in Hk as [-> _].
        apply pure_decrypt in Hc; [done|unfold sizeof_SessionHeader; lia].
      - apply read_range_inv in Hc as (-> & _); [done|unfold sizeof_SessionHeader; lia|done]. }
    rewrite Hsid, Henc. exists p, s. split; [done|]. split; [done|]. intros Hnz.
    apply andb_false_iff in Hpol as [Hz|Hpol].
    { apply negb_false_iff, Z.eqb_eq in Hz. done. }
    apply orb_false_iff in Hpol as [Hpi Hpc]. split.
    + intros i Hi'. unfold isIntegrityAlgoEnabled in Hpi.
      rewrite bool_decide_eq_true_2 in Hpi by eauto. cbn [andb] in Hpi.
      apply negb_false_iff in Hpi. destruct (Hauth Hpi) as (i' & Hi'' & Ha). congruence.
    + intros Hcr. unfold isCryptAlgoEnabled in Hpc.
      rewrite bool_decide_eq_true_2 in Hpc by done. cbn [andb] in Hpc.
      apply negb_false_iff in Hpc. by rewrite Hpc.
Qed.
End Accepted.

(** ** Replay *)
Section Replay.
Context `{Crypto, Settings}.
Import ipmi20parser.

Lemma stateless_rd8 v i : stateless (rd8 v i : M Net Z).
Proof. unfold rd8, idx. auto with stateless. Qed.
Lemma stateless_rd32 v o : stateless (rd32 v o : M Net Z).
Proof. unfold rd32. stateless_with idtac. Qed.
Lemma stateless_rd16 v o : stateless (rd16 v o : M Net Z).
Proof. unfold rd16. stateless_with idtac. Qed.
#[local] Hint Resolve stateless_rd8 stateless_rd32 stateless_rd16 : stateless.

Lemma stateless_equal_range a b : stateless (equal_range a b : M Net bool).
Proof.
  revert b. induction a as [|x a IH]; intros [|y b]; cbn; auto with stateless.
  destruct (x =? y); auto with stateless.
Qed.
Lemma stateless_getIntegrityAlgo s : stateless (getIntegrityAlgo s : M Net IntegrityAlgo).
Proof. unfold getIntegrityAlgo. stateless_with idtac. Qed.
Lemma stateless_getCryptAlgo s : stateless (getCryptAlgo s : M Net (list Z)).
Proof. unfold getCryptAlgo. stateless_with idtac. Qed.
#[local] Hint Resolve stateless_equal_range stateless_getIntegrityAlgo stateless_getCryptAlgo : stateless.

Lemma stateless_verify packet len s : stateless (verifyPacketIntegrity packet len s).
Proof.
  unfold verifyPacketIntegrity, verifyIntegrityData, integrity_generateHMAC.
  stateless_with idtac.
Qed.
Lemma stateless_decrypt packet len s : stateless (decryptPayload packet len s).
Proof. unfold decryptPayload, aes_decryptPayload, decryptData. stateless_with idtac. Qed.
#[local] Hint Resolve stateless_verify stateless_decrypt : stateless.

Lemma stateless_ipmi15 packet : stateless (ipmi15parser.unflatten packet).
Proof. unfold ipmi15parser.unflatten. stateless_with idtac. Qed.

(** Both daemons hold the same keys under the same ids. *)
Definition same_keys (n t : Net) : Prop := forall id p s,
  sessionsMap n !! id = Some p -> heap n !! p = Some s ->
  exists q r, sessionsMap t !! id = Some q /\ heap t !! q = Some r /\
    integrityAlgoInterface r = integrityAlgoInterface s /\
    cryptAlgoInterface r = cryptAlgoInterface s.

Lemma checked_payload_keys packet pt sid len s r :
  integrityAlgoInterface r = integrityAlgoInterface s ->
  cryptAlgoInterface r = cryptAlgoInterface s ->
  checked_payload packet pt sid len r = checked_payload packet pt sid len s.
Proof.
  intros Hi Hc. unfold checked_payload, isIntegrityAlgoEnabled, isCryptAlgoEnabled,
    verifyPacketIntegrity, decryptPayload, getIntegrityAlgo, getCryptAlgo. by rewrite Hi, Hc.
Qed.

(** [stateless_Ret] as a step: the head of a computation that returned on [n]
    returns the same on [t]. *)
Ltac replay_step lem :=
  match goal with
  | Hu : bind ?m ?k ?n = Ret _ _ |- bind ?m _ ?t = _ =>
      let x := fresh "x" in let n1 := fresh "n" in let Hr := fresh "Hr" in let Ht := fresh "Ht" in
      apply bind_inv in Hu as (x & n1 & Hr & Hu);
      destruct (stateless_Ret m x n n1 lem Hr) as [-> Ht];
      rewrite (bind_Ret _ _ _ _ _ (Ht t)); clear Hr Ht
  end.

Lemma replay20 packet (n t n' : Net) m :
  unflatten packet n = Ret m n' -> same_keys n t -> unflatten packet t = Ret m t.
Proof.
  intros Hu Hk. unfold unflatten in *.
  destruct (zlen packet <? sizeof_SessionHeader); [discriminate|].
  replay_step (stateless_rd32 packet 6).
  apply bind_inv in Hu as (p & n1 & Hp & Hu). apply getSession_inv in Hp as [-> Hp].
  apply bind_inv in Hu as (s & n1 & Hs & Hu). apply obj_inv in Hs as [-> Hs].
  destruct (Hk _ _ _ Hp Hs) as (q & r & Hq & Hr & Hi & Hc).
  rewrite (bind_Ret (getSession x) _ t q t) by (unfold getSession, bind, get; by rewrite Hq).
  rewrite (bind_Ret (obj q) _ t r t) by (unfold obj; by rewrite Hr). clear Hr.
  replay_step (stateless_rd8 packet 5). replay_step (stateless_rd32 packet 10).
  replay_step (stateless_rd8 packet 3). replay_step (stateless_rd16 packet 14).
  assert (isIntegrityAlgoEnabled r = isIntegrityAlgoEnabled s /\
          isCryptAlgoEnabled r = isCryptAlgoEnabled s) as [-> ->]
    by (unfold isIntegrityAlgoEnabled, isCryptAlgoEnabled; by rewrite Hi, Hc).
  destruct (_ || _); [discriminate|]. destruct (_ && _); [discriminate|].
  assert (forall len, verifyPacketIntegrity packet len r = verifyPacketIntegrity packet len s) as ->
    by (intros; unfold verifyPacketIntegrity, getIntegrityAlgo; by rewrite Hi).
  assert (forall len, decryptPayload packet len r = decryptPayload packet len s) as ->
    by (intros; unfold decryptPayload, getCryptAlgo; by rewrite Hc).
  match goal with Hu : ?k n = Ret _ _ |- ?k t = _ => assert (stateless k) as Hst end.
  { stateless_with idtac. }
  by apply (stateless_Ret _ _ _ _ Hst Hu).
Qed.

(** Session sequence numbers do not stop replays: whether and
    how a packet is accepted depends on the packet and on the keys of its
    session only, so a packet that was accepted once is accepted again, with the
    same message, in every later state in which its session still has its keys. *)
Theorem replay_accepted packet (n t n' : Net) m h :
  parser.unflatten packet n = Ret (m, h) n' -> same_keys n t ->
  parser.unflatten packet t = Ret (m, h) t.
Proof.
  intros Hu Hk. unfold parser.unflatten in *.
  destruct (zlen packet <? 4); [discriminate|].
  replay_step (stateless_rd8 packet 0). replay_step (stateless_rd8 packet 2).
  replay_step (stateless_rd8 packet 3).
  destruct (_ || _ || _); [discriminate|].
  destruct (_ =? ClassOfMsg.ASF).
  - match goal with Hu : ?k n = Ret _ _ |- ?k t = _ => assert (stateless k) as Hst end.
    { unfold asfparser.unflatten. stateless_with idtac. }
    by apply (stateless_Ret _ _ _ _ Hst Hu).
  - replay_step (stateless_rd8 packet 4).
    destruct (_ =? session_header_byte IPMI15).
    + replay_step (stateless_ipmi15 packet). by injection Hu as <- <- _.
    + destruct (_ =? session_header_byte IPMI20); [|discriminate].
      apply bind_inv in Hu as (m1 & n1 & Hm & Hu). injection Hu as <- <- _.
      by rewrite (bind_Ret _ _ _ _ _ (replay20 _ _ _ _ _ Hm Hk)).
Qed.
End Replay.

(** ** The LAN payload *)
Section Lan.

Lemma checksum_sum {S} (l : list Z) (s : S) :
  checksum_loop l (length l) 0 s = Ret (u8 (sum l)) s.
Proof.
  change 0 with (u8 0) at 1. rewrite checksum_loop_sum by done. by rewrite take_ge.
Qed.

Lemma crc8bit_validates {S} (l : list Z) (s : S) :
  ipmbChecksumValidate (l ++ [crc8bit l]) (zlen l + 1) s = Ret true s.
Proof.
  unfold ipmbChecksumValidate, zlen.
  replace (Z.to_nat _) with (length (l ++ [crc8bit l])) by (rewrite length_app; cbn [length]; lia).
  rewrite (bind_Ret _ _ _ _ _ (checksum_sum _ s)). unfold crc8bit.
  rewrite sum_app. cbn [sum]. rewrite Z.add_0_r, u8_add_r.
  by replace (sum l + (0x100 - sum l)) with 256 by lia.
Qed.

(** The checksum of the network daemon is the one of
    the IPMB bridge: on any bytes [crc8bit], which adds in an [int] and
    subtracts from 256, and [ipmbChecksumCompute], which adds in a byte and
    complements, agree, and appending it makes [ipmbChecksumValidate] succeed. *)
Theorem crc8bit_is_ipmb_checksum {S} (l : list Z) (s : S) :
  ipmbChecksumCompute l (zlen l) s = Ret (crc8bit l) s /\
  ipmbChecksumValidate (l ++ [crc8bit l]) (zlen l + 1) s = Ret true s.
Proof.
  split; [|apply crc8bit_validates].
  unfold ipmbChecksumCompute, zlen. rewrite Nat2Z.id, (bind_Ret _ _ _ _ _ (checksum_sum _ s)).
  unfold ret, crc8bit. f_equal. unfold u8, Z.lnot.
  replace (Z.pred (- (sum l mod 256)) + 1) with (0 - sum l mod 256) by lia.
  rewrite Zminus_mod_idemp_r. replace (0x100 - sum l) with (0 - sum l + 1 * 256) by lia.
  by rewrite Z.mod_add by lia.
Qed.

(** Every response to an IPMI request whose payload
    holds a LAN header passes both checksum tests of the IPMB bridge and answers
    that request: requester and responder are as in the request, the network
    function is marked as a response, sequence number and command are those of
    the request, and the data is the output of the command. *)
Theorem lan_response_wellformed {S} (m : Message) rs netfn cs rq seq cmd rest output (s : S) :
  payloadType m = PayloadType.IPMI -> payload m = [rs; netfn; cs; rq; seq; cmd] ++ rest ->
  exists r c1 c2, createResponse m output s = Ret (Some r) s /\
    payload r = [rq; u8 (Z.lor netfn 4); c1; rs; seq; cmd] ++ output ++ [c2] /\
    payloadType r = PayloadType.IPMI /\ rcSessionID r = rcSessionID m /\
    isPacketEncrypted r = isPacketEncrypted m /\
    isPacketAuthenticated r = isPacketAuthenticated m /\
    ipmbChecksumValidate (payload r) 3 s = Ret true s /\
    ipmbChecksumValidate (drop 3 (payload r)) (zlen (payload r) - 3) s = Ret true s.
Proof.
  intros Ht Hp. unfold createResponse. rewrite Ht, Hp.
  set (nf := u8 (Z.lor netfn 4)). set (h := [rq; nf]). set (body := [rs; seq; cmd] ++ output).
  eexists _, (crc8bit h), (crc8bit body). split; [reflexivity|]. cbn [payload].
  split; [unfold body; by rewrite <- app_assoc|]. split_and!; [done..| |].
  - change (ipmbChecksumValidate ([rq; nf; crc8bit h] ++ body ++ [crc8bit body]) 3 s = Ret true s).
    rewrite <- (crc8bit_validates h s). reflexivity.
  - change (ipmbChecksumValidate (body ++ [crc8bit body])
              (zlen ([rq; nf; crc8bit h] ++ body ++ [crc8bit body]) - 3) s = Ret true s).
    rewrite <- (crc8bit_validates body s). f_equal. rewrite !zlen_app.
    change (zlen [rq; nf; crc8bit h]) with 3. change (zlen [crc8bit body]) with 1. lia.
Qed.
End Lan.

(** ** The theorems on the sample session *)
Section Witnesses.

Lemma sample_heap : heap established !! 1%nat = Some (sample_session established).
Proof. vm_compute. reflexivity. Defined.
Lemma sample_table : sessionsMap established !! opened_id = Some 1%nat.
Proof. vm_compute. reflexivity. Defined.

Lemma sample_keys_ok : keys_ok (sample_session established).
Proof.
  split; intros k Hk; vm_compute in Hk; injection Hk as <-; [reflexivity|].
  apply Nat.leb_le. reflexivity.
Defined.

Lemma sample_sendable pl :
  bytes pl -> (0 < length pl)%nat -> zlen pl < 65000 ->
  sendable (sample_session established) (protected_message pl).
Proof.
  intros Hb Hp Hl. split; [split; vm_compute; reflexivity|].
  split; [cbn; unfold PayloadType.IPMI; lia|]. split; [exact Hb|]. by split.
Defined.

Lemma sample_id_range pl : u32_range (rcSessionID (protected_message pl)).
Proof. unfold u32_range. cbn. unfold opened_id. lia. Defined.

Lemma rmcp_roundtrip_witness : exists packet n',
  parser.flatten (protected_message [1; 2; 3]) IPMI20 1 established = Ret packet n' /\
  parser.unflatten packet established =
    Ret (received_message 0xC0 opened_id 1 [1; 2; 3], IPMI20) established.
Proof.
  apply (rmcp_roundtrip established established 1 1 (sample_session established)
           (sample_session established) (protected_message [1; 2; 3])).
  - exact sample_heap.
  - exact sample_keys_ok.
  - apply sample_sendable; [apply (bool_decide_unpack _); reflexivity | cbn; lia | vm_compute; reflexivity].
  - apply sample_id_range.
  - exact sample_table.
  - exact sample_heap.
  - reflexivity.
  - reflexivity.
  - cbn. lia.
Defined.

Lemma full_padding_overruns_witness : exists packet n',
  parser.flatten (protected_message (replicate 15 7)) IPMI20 1 established = Ret packet n' /\
  parser.unflatten packet established = Undef OutOfBounds.
Proof.
  apply (full_padding_overruns established established 1 1 (sample_session established)
           (sample_session established) (protected_message (replicate 15 7))).
  - exact sample_heap.
  - exact sample_keys_ok.
  - apply sample_sendable; [apply (bool_decide_unpack _); reflexivity | cbn; lia | vm_compute; reflexivity].
  - apply sample_id_range.
  - exact sample_table.
  - exact sample_heap.
  - reflexivity.
  - reflexivity.
  - vm_compute. reflexivity.
  - reflexivity.
Defined.

Definition sample_request : list Z := [0x20; 0x18; 0xC8; 0x81; 4; 1; 0x7A].
Definition sample_packet : list Z := flattened established (protected_message sample_request).
Definition sample_message : Message := received_message 0xC0 opened_id 1 sample_request.

Lemma sample_accepted :
  parser.unflatten sample_packet established = Ret (sample_message, IPMI20) established.
Proof. vm_compute. reflexivity. Defined.

Lemma sample_ids id p : sessionsMap established !! id = Some p ->
  (id = opened_id /\ p = 1%nat) \/ (id = 0 /\ p = 0%nat).
Proof.
  intros Hp. apply elem_of_map_to_list in Hp. revert Hp.
  replace (map_to_list (sessionsMap established)) with [(opened_id, 1%nat); (0, 0%nat)]
    by (vm_compute; reflexivity).
  rewrite !elem_of_cons, elem_of_nil, !pair_equal_spec. tauto.
Defined.

Lemma replay_accepted_witness :
  parser.unflatten sample_packet (after established 5000 sample_packet) =
    Ret (sample_message, IPMI20) (after established 5000 sample_packet).
Proof.
  apply (replay_accepted sample_packet established (after established 5000 sample_packet) established
           sample_message IPMI20 sample_accepted).
  intros id p s Hp Hs.
  apply sample_ids in Hp as [[-> ->]|[-> ->]].
  - rewrite sample_heap in Hs. apply (inj Some) in Hs. subst s.
    exists 1%nat, (sample_session (after established 5000 sample_packet)).
    split; [vm_compute; reflexivity|]. split; vm_compute; auto.
  - exists 0%nat. eexists. split; [vm_compute; reflexivity|].
    split; [vm_compute; reflexivity|]. vm_compute in Hs. injection Hs as <-. vm_compute. auto.
Defined.

Lemma lan_response_wellformed_witness : exists r c1 c2,
  createResponse (protected_message sample_request) [0; 7] tt =
    Ret (Some r) tt /\
  payload r = [0x81; 0x1C; c1; 0x20; 4; 1] ++ [0; 7] ++ [c2] /\
  ipmbChecksumValidate (payload r) 3 tt = Ret true tt.
Proof.
  destruct (lan_response_wellformed (protected_message sample_request)
              0x20 0x18 0xC8 0x81 4 1 [0x7A] [0; 7] tt eq_refl eq_refl)
    as (r & c1 & c2 & Hr & Hp & _ & _ & _ & _ & Hc & _).
  exists r, c1, c2. split; [exact Hr|]. split; [exact Hp | exact Hc].
Defined.
End Witnesses.
