(* ===== verification/RmcpSessionSpec.v ===== *)
(** * The session table

    The invariant of the network daemon: the table, the handles and the session
    objects agree, whatever packets, timers and replies arrive.  [evolves R]
    says that a computation keeps the invariant and changes each object only as
    [R] allows: [tame] for everything but the last message of the key exchange,
    [sound] for every computation. *)
From Stdlib Require Import ZArith Lia String.
From stdpp Require Import base list gmap.
From S2P Require Import Prelude RmcpMessage RmcpCrypto RmcpState RmcpSession RmcpParser RmcpHandler.
From S2P Require Import Sol RmcpSetup RmcpCommands RmcpDaemon RmcpSample RmcpParserSpec.
Local Open Scope Z_scope.

(** ** What a session object must satisfy *)
Definition identity (s : Session) : Z * Z * Z :=
  (s_bmcSessionID s, remoteConsoleSessionID s, sessionHandle (info s)).
Definition algorithms (s : Session) : option (Digest * Z * Z) :=
  (fun a => (authDigest a, intAlgo a, cryptAlgo a)) <$> authAlgoInterface s.
Definition keys (s : Session) : option IntegrityAlgo * option (list Z) :=
  (integrityAlgoInterface s, cryptAlgoInterface s).
Definition active_session (s : Session) : Prop := state (info s) = State.active.
Definition keyed (s : Session) : Prop :=
  is_Some (integrityAlgoInterface s) /\ is_Some (cryptAlgoInterface s).

(** The only algorithms that Open Session accepts are recorded, keys fit
    them, and an active session has all its keys. *)
Record object_ok (s : Session) : Prop := {
  oo_algorithms : s_bmcSessionID s <> 0 ->
    algorithms s = Some (SHA256, HMAC_SHA256_128, AES_CBC_128);
  oo_keys : keys_ok s;
  oo_active : active_session s -> s_bmcSessionID s <> 0 /\ keyed s }.

(** ** What a session object may become *)
Definition tame (s s' : Session) : Prop :=
  identity s' = identity s /\ algorithms s' = algorithms s /\ keys s' = keys s /\
  (active_session s' -> active_session s).
Definition sound (s s' : Session) : Prop :=
  identity s' = identity s /\ (object_ok s -> object_ok s') /\ (keyed s -> keyed s').

#[export] Instance tame_preorder : PreOrder tame.
Proof.
  split; [by intros s|]. intros s1 s2 s3 (I1 & A1 & K1 & H1) (I2 & A2 & K2 & H2).
  split_and!; [congruence..|auto].
Qed.
#[export] Instance sound_preorder : PreOrder sound.
Proof.
  split; [by intros s|]. intros s1 s2 s3 (I1 & A1 & H1) (I2 & A2 & H2).
  split_and!; [congruence|auto..].
Qed.

Lemma tame_sound s s' : tame s s' -> sound s s'.
Proof.
  intros (Hi & Ha & Hk & Hact). injection Hi as Hid Hrc Hh. injection Hk as Hki Hkc.
  unfold sound. split; [unfold identity; congruence|]. split.
  - intros [A K V]. constructor.
    + rewrite Hid, Ha. exact A.
    + unfold keys_ok in *. by rewrite Hki, Hkc.
    + intros Hs. unfold keyed in *. rewrite Hid, Hki, Hkc. by apply V, Hact.
  - unfold keyed. by rewrite Hki, Hkc.
Qed.

(** ** The table *)
(** The slot and the handle of a session. *)
Definition registered (n : Net) (s : Session) : Prop :=
  u32_range (s_bmcSessionID s) /\ s_bmcSessionID s / 2 ^ 30 = ipmiNetworkInstance n /\
  exists i, (1 <= i < maxSessionHandles)%nat /\
    sessionHandleMap n !! i = Some (s_bmcSessionID s) /\
    sessionHandle (info s) = 64 * ipmiNetworkInstance n + Z.of_nat i.

Record table_ok (n : Net) : Prop := {
  t_instance : 0 <= ipmiNetworkInstance n < maxNetworkInstanceSupported;
  t_length : length (sessionHandleMap n) = maxSessionHandles;
  t_fresh : forall p, (nextObject n <= p)%nat -> heap n !! p = None;
  t_objects : forall p s, heap n !! p = Some s -> object_ok s;
  t_zero : is_Some (sessionsMap n !! sessionZero);
  t_table : forall id p, sessionsMap n !! id = Some p ->
    exists s, heap n !! p = Some s /\ s_bmcSessionID s = id /\ (id <> 0 -> registered n s);
  t_slots : forall i id, (1 <= i)%nat -> sessionHandleMap n !! i = Some id -> id <> 0 ->
    is_Some (sessionsMap n !! id);
  t_unique : forall i j id, (1 <= i)%nat -> (1 <= j)%nat ->
    sessionHandleMap n !! i = Some id -> sessionHandleMap n !! j = Some id -> id <> 0 -> i = j }.

Definition heap_evolves (R : Session -> Session -> Prop) (n n' : Net) : Prop :=
  forall p s, heap n !! p = Some s -> exists s', heap n' !! p = Some s' /\ R s s'.

Definition evolves (R : Session -> Session -> Prop) (n n' : Net) : Prop :=
  table_ok n -> table_ok n' /\ heap_evolves R n n'.

#[export] Instance evolves_preorder R `{!PreOrder R} : PreOrder (evolves R).
Proof.
  split.
  - intros n T. split; [done|]. intros p s Hs. by exists s.
  - intros n1 n2 n3 H12 H23 T1. destruct (H12 T1) as [T2 E12]. destruct (H23 T2) as [T3 E23].
    split; [done|]. intros p s Hs. destruct (E12 _ _ Hs) as (s2 & Hs2 & R12).
    destruct (E23 _ _ Hs2) as (s3 & Hs3 & R23). exists s3. split; [done|by etransitivity].
Qed.

Lemma evolves_mono (R R' : Session -> Session -> Prop) n n' :
  (forall s s', R s s' -> R' s s') -> evolves R n n' -> evolves R' n n'.
Proof.
  intros HR He T. destruct (He T) as [T' E]. split; [done|]. intros p s Hs.
  destruct (E _ _ Hs) as (s' & Hs' & H). eauto.
Qed.

(** The tables of two states are the same. *)
Definition same_tables (n n' : Net) : Prop :=
  sessionsMap n' = sessionsMap n /\ sessionHandleMap n' = sessionHandleMap n /\
  ipmiNetworkInstance n' = ipmiNetworkInstance n /\ nextObject n' = nextObject n.

(** Objects change soundly under unchanged tables. *)
Lemma evolves_objects (R : Session -> Session -> Prop) n n' :
  (forall s s', R s s' -> sound s s') -> same_tables n n' -> heap_evolves R n n' ->
  (forall p, heap n !! p = None -> heap n' !! p = None) -> evolves R n n'.
Proof.
  intros HR (Hm & Hh & Hi & Hx) He Hn T. split; [|done]. destruct T.
  assert (forall p s', heap n' !! p = Some s' -> exists s, heap n !! p = Some s /\ sound s s') as Hback.
  { intros p s' Hs'. destruct (heap n !! p) as [s|] eqn:Hs; [|by rewrite (Hn _ Hs) in Hs'].
    destruct (He _ _ Hs) as (s2 & Hs2 & H2). rewrite Hs2 in Hs'. injection Hs' as <-. eauto. }
  constructor; rewrite ?Hm, ?Hh, ?Hi, ?Hx; eauto.
  - intros p s' Hs'. destruct (Hback _ _ Hs') as (s & Hs & _ & Hok & _). eauto.
  - intros id p Hp. destruct (t_table0 _ _ Hp) as (s & Hs & Hid & Hreg).
    destruct (He _ _ Hs) as (s' & Hs' & H'). exists s'. split; [done|].
    destruct (HR _ _ H') as (E & _). injection E as E1 E2 E3. split; [congruence|].
    intros Hz. specialize (Hreg Hz). unfold registered in *. by rewrite Hi, Hh, E1, E3.
Qed.

Section Evolves.
Context (R : Session -> Session -> Prop) `{!PreOrder R}.
Hypothesis R_tame : forall s s', tame s s' -> R s s'.
Hypothesis R_sound : forall s s', R s s' -> sound s s'.

Lemma evolves_frame n n' : same_tables n n' -> heap n' = heap n -> evolves R n n'.
Proof.
  intros Ht Hh. apply evolves_objects; [done|done| |by rewrite Hh].
  intros p s Hs. exists s. by rewrite Hh.
Qed.

Lemma evolves_alter n p f :
  (forall s, heap n !! p = Some s -> R s (f s)) -> evolves R n (n <| heap := alter f p (heap n) |>).
Proof.
  intros Hf. apply evolves_objects; [done|by split| |].
  - intros q s Hs. cbn. destruct (decide (q = p)) as [->|Hne].
    + rewrite lookup_alter_eq, Hs. eauto.
    + rewrite lookup_alter_ne by done. by exists s.
  - intros q Hq. cbn. rewrite lookup_alter_None. done.
Qed.
End Evolves.

(** Closing the leaves: a state update that no table sees, and an update of an
    object that [tame] allows. *)
Ltac same_heap := apply evolves_frame; [(assumption || exact _)..|by split|reflexivity].
Ltac tame_update :=
  let s := fresh "s" in intros s; unfold tame, identity, algorithms, keys, active_session; cbn;
  split_and!; try reflexivity; try done; try (by destruct (authAlgoInterface s)).

(** ** Computations that keep the tables *)
Section Leaves.
Context `{Crypto, Settings} (R : Session -> Session -> Prop) `{!PreOrder R}.
Hypothesis R_tame : forall s s', tame s s' -> R s s'.
Hypothesis R_sound : forall s s', R s s' -> sound s s'.

Lemma evolves_on_obj p f : (forall s, tame s (f s)) -> preserves (evolves R) (on_obj p f).
Proof. intros Hf. apply preserves_modify. intros n. apply evolves_alter; [(assumption || exact _)..|]. auto. Qed.
Lemma evolves_on_info p f :
  (forall i, sessionHandle (f i) = sessionHandle i /\
             (state (f i) = State.active -> state i = State.active)) ->
  preserves (evolves R) (on_info p f).
Proof.
  intros Hf. apply evolves_on_obj. intros s. destruct (Hf (info s)) as [Hh Ha].
  unfold tame, identity, algorithms, keys, active_session. cbn. by rewrite Hh.
Qed.
Lemma evolves_on_sol f : preserves (evolves R) (on_sol f).
Proof. apply preserves_modify. intros n. same_heap. Qed.
Lemma evolves_on_ctx i f : preserves (evolves R) (on_ctx i f).
Proof. apply evolves_on_sol. Qed.
Lemma evolves_obj p : preserves (evolves R) (obj p).
Proof. apply preserves_pure; [exact _|]. intros n. unfold obj. by destruct (heap n !! p). Qed.
Lemma evolves_get_ctx i : preserves (evolves R) (get_ctx i).
Proof. apply preserves_pure; [exact _|]. intros n. unfold get_ctx. by destruct (payloadMap (sol n) !! i). Qed.
Lemma evolves_rand k : preserves (evolves R) (rand_bytes k).
Proof. intros n. cbn. same_heap. Qed.
Lemma evolves_channel_write ch packet : preserves (evolves R) (channel_write ch packet).
Proof.
  intros n. unfold channel_write. destruct (writeResults n) as [|r rs]; [same_heap|].
  destruct (r <? 0); same_heap.
Qed.
End Leaves.
#[export] Hint Resolve evolves_on_sol evolves_on_ctx evolves_obj evolves_get_ctx evolves_rand
  evolves_channel_write : preserves.

Ltac leaf :=
  first [ apply preserves_modify; intros ?; same_heap
        | apply evolves_on_obj; [(assumption || exact _)..|tame_update]
        | apply evolves_on_info; [(assumption || exact _)..|intros ?; by split] ].
Ltac keeps := preserve_with leaf.

Section Quiet.
Context `{Crypto, Settings} (R : Session -> Session -> Prop) `{!PreOrder R}.
Hypothesis R_tame : forall s s', tame s s' -> R s s'.
Hypothesis R_sound : forall s s', R s s' -> sound s s'.

Lemma evolves_rd8 v i : preserves (evolves R) (rd8 v i).
Proof. unfold rd8. keeps. Qed.
Lemma evolves_rd16 v i : preserves (evolves R) (rd16 v i).
Proof. unfold rd16. keeps. Qed.
Lemma evolves_rd32 v i : preserves (evolves R) (rd32 v i).
Proof. unfold rd32. keeps. Qed.
Lemma evolves_getSession id : preserves (evolves R) (getSession id).
Proof. unfold getSession. keeps. Qed.
Lemma evolves_touch p : preserves (evolves R) (updateLastTransactionTime p).
Proof. unfold updateLastTransactionTime. keeps. Qed.
Lemma evolves_schedule w : preserves (evolves R) (scheduleSessionCleaner w).
Proof. unfold scheduleSessionCleaner. keeps. Qed.
Lemma evolves_getAuthAlgo s : preserves (evolves R) (getAuthAlgo s).
Proof. unfold getAuthAlgo. keeps. Qed.
Lemma evolves_stop id : preserves (evolves R) (stopSession id).
Proof. unfold stopSession. keeps. Qed.
#[local] Hint Resolve evolves_rd8 evolves_rd16 evolves_rd32 evolves_getSession evolves_touch
  evolves_schedule evolves_getAuthAlgo evolves_stop : preserves.

Lemma stateless_evolves {A} (m : M Net A) : stateless m -> preserves (evolves R) m.
Proof.
  intros Hm. apply preserves_pure; [exact _|]. intros n. specialize (Hm n n).
  destruct (m n); [by destruct Hm..|done].
Qed.

(** *** Packets *)
Lemma evolves_verify packet len s : preserves (evolves R) (ipmi20parser.verifyPacketIntegrity packet len s).
Proof. apply stateless_evolves, stateless_verify. Qed.
Lemma evolves_decrypt packet len s : preserves (evolves R) (ipmi20parser.decryptPayload packet len s).
Proof. apply stateless_evolves, stateless_decrypt. Qed.
Lemma evolves_ipmi15 packet : preserves (evolves R) (ipmi15parser.unflatten packet).
Proof. apply stateless_evolves, stateless_ipmi15. Qed.
#[local] Hint Resolve evolves_verify evolves_decrypt evolves_ipmi15 : preserves.

Lemma evolves_unflatten packet : preserves (evolves R) (parser.unflatten packet).
Proof. unfold parser.unflatten, asfparser.unflatten, ipmi20parser.unflatten. keeps. Qed.
Lemma evolves_flatten m h p : preserves (evolves R) (parser.flatten m h p).
Proof.
  unfold parser.flatten, ipmi15parser.flatten, ipmi20parser.flatten,
    ipmi20parser.addSequenceNumber, ipmi20parser.addIntegrityData, ipmi20parser.encryptPayload,
    generateIntegrityData, integrity_generateHMAC, aes_encryptPayload, encryptData,
    getIntegrityAlgo, getCryptAlgo. keeps.
Qed.
#[local] Hint Resolve evolves_unflatten evolves_flatten : preserves.

(** *** Handlers *)
Lemma evolves_writeData h packet : preserves (evolves R) (writeData h packet).
Proof. unfold writeData. keeps. Qed.
Lemma evolves_new_Handler ch id : preserves (evolves R) (new_Handler ch id).
Proof. unfold new_Handler. keeps. Qed.
#[local] Hint Resolve evolves_writeData evolves_new_Handler : preserves.
Lemma evolves_send h m : preserves (evolves R) (send h m).
Proof. unfold send. keeps. Qed.
Lemma evolves_session_message h pt pl : preserves (evolves R) (session_message h pt pl).
Proof. unfold session_message. keeps. Qed.
#[local] Hint Resolve evolves_send evolves_session_message : preserves.
Lemma evolves_sendSOL h l : preserves (evolves R) (sendSOLPayload h l).
Proof. unfold sendSOLPayload. keeps. Qed.
Lemma evolves_sendUnsolicited h netfn cmd l :
  preserves (evolves R) (sendUnsolicitedIPMIPayload h netfn cmd l).
Proof. unfold sendUnsolicitedIPMIPayload. keeps. Qed.
Lemma evolves_destroy h : preserves (evolves R) (destroy h).
Proof. unfold destroy, sendASF, createResponse. keeps. Qed.
Lemma evolves_setChannel h : preserves (evolves R) (setChannelInSession h).
Proof. unfold setChannelInSession. keeps. Qed.
#[local] Hint Resolve evolves_sendSOL evolves_sendUnsolicited evolves_destroy evolves_setChannel
  : preserves.

(** *** Serial over LAN *)
Lemma evolves_accumulate i on : preserves (evolves R) (enableAccumulateTimer i on).
Proof. unfold enableAccumulateTimer. keeps. Qed.
Lemma evolves_retry i on : preserves (evolves R) (enableRetryTimer i on).
Proof. unfold enableRetryTimer. keeps. Qed.
Lemma evolves_console l b : preserves (evolves R) (writeConsoleSocket l b).
Proof. unfold writeConsoleSocket. keeps. Qed.
#[local] Hint Resolve evolves_accumulate evolves_retry evolves_console : preserves.
Lemma evolves_sendPayload i l : preserves (evolves R) (sendPayload i l).
Proof. unfold sendPayload. keeps. Qed.
Lemma evolves_cache i a c nack : preserves (evolves R) (cache_payload i a c nack).
Proof. unfold cache_payload. keeps. Qed.
#[local] Hint Resolve evolves_sendPayload evolves_cache : preserves.
Lemma evolves_resend i b : preserves (evolves R) (resendPayload i b).
Proof. unfold resendPayload. keeps. Qed.
#[local] Hint Resolve evolves_resend : preserves.
Lemma evolves_inbound i sq a c st br l :
  preserves (evolves R) (processInboundPayload i sq a c st br l).
Proof. unfold processInboundPayload, acknowledge, host_output, prepareResponse. keeps. Qed.
Lemma evolves_charAcc i : preserves (evolves R) (charAccTimerHandler i).
Proof. unfold charAccTimerHandler, sendOutboundPayload. keeps. Qed.
Lemma evolves_retryHandler i : preserves (evolves R) (retryTimerHandler i).
Proof. unfold retryTimerHandler. keeps. Qed.
Lemma evolves_startConsole : preserves (evolves R) startHostConsole.
Proof. unfold startHostConsole. keeps. Qed.
Lemma evolves_startPayload k id : preserves (evolves R) (startPayloadInstance k id).
Proof. unfold startPayloadInstance, startHostConsole, stopHostConsole, new_Context. keeps. Qed.
Lemma evolves_stopPayload k : preserves (evolves R) (stopPayloadInstance k).
Proof. unfold stopPayloadInstance, clear_console, stopHostConsole. keeps. Qed.
Lemma evolves_stopAll : preserves (evolves R) stopAllPayloadInstance.
Proof. unfold stopAllPayloadInstance, clear_console, stopHostConsole. keeps. Qed.
#[local] Hint Resolve evolves_inbound evolves_charAcc evolves_retryHandler evolves_startConsole
  evolves_startPayload evolves_stopPayload evolves_stopAll : preserves.
Lemma evolves_payloadHandler l h : preserves (evolves R) (payloadHandler l h).
Proof. unfold payloadHandler, getContext. keeps. Qed.
Lemma evolves_activate l h : preserves (evolves R) (activatePayload l h).
Proof. unfold activatePayload, updateSOLParameter, procSolConfChange. keeps. Qed.
Lemma evolves_deactivate l h : preserves (evolves R) (deactivatePayload l h).
Proof. unfold deactivatePayload, activating. keeps. Qed.
Lemma evolves_payloadStatus l h : preserves (evolves R) (getPayloadStatus l h).
Proof. unfold getPayloadStatus. keeps. Qed.
Lemma evolves_payloadInfo l h : preserves (evolves R) (getPayloadInfo l h).
Proof. unfold getPayloadInfo. keeps. Qed.
#[local] Hint Resolve evolves_payloadHandler evolves_activate evolves_deactivate
  evolves_payloadStatus evolves_payloadInfo : preserves.

(** *** Commands *)
Lemma evolves_setPrivilege l h : preserves (evolves R) (setSessionPrivilegeLevel l h).
Proof. unfold setSessionPrivilegeLevel. keeps. Qed.
Lemma evolves_close_matching objs id hd pr : preserves (evolves R) (close_matching objs id hd pr).
Proof. induction objs as [|o objs IH]; cbn; unfold setSessionState; keeps. Qed.
#[local] Hint Resolve evolves_close_matching : preserves.
Lemma evolves_closeSession l h : preserves (evolves R) (closeSession l h).
Proof.
  unfold closeSession, closeMyNetInstanceSession, closeOtherNetInstanceSession,
    getSessionIDbyHandle. keeps.
Qed.
Lemma evolves_capabilities l : preserves (evolves R) (GetChannelCapabilities l).
Proof. unfold GetChannelCapabilities. keeps. Qed.
Lemma evolves_cipherSuites l : preserves (evolves R) (getChannelCipherSuites l).
Proof. unfold getChannelCipherSuites, getCipherRecords. keeps. Qed.

(** *** RAKP message 1 *)
Lemma evolves_RAKP12 l : preserves (evolves R) (RAKP12 l).
Proof. unfold RAKP12, rakp1_grant, rakp1_user, on_auth. keeps. Qed.
End Quiet.
#[export] Hint Resolve evolves_obj evolves_rd8 evolves_rd16 evolves_rd32 evolves_getSession
  evolves_touch evolves_stop evolves_getAuthAlgo evolves_unflatten evolves_destroy
  evolves_RAKP12 evolves_capabilities evolves_cipherSuites evolves_setPrivilege
  evolves_closeSession evolves_payloadHandler evolves_activate evolves_deactivate
  evolves_payloadStatus evolves_payloadInfo evolves_charAcc evolves_retryHandler
  evolves_startConsole evolves_stopAll evolves_on_ctx evolves_on_sol : preserves.

(** ** Slots *)
Lemma find_slot_Some f i l j :
  find_slot f i l = Some j -> exists z, (i <= j)%nat /\ l !! (j - i)%nat = Some z /\ f z = true.
Proof.
  revert i. induction l as [|z l IH]; intros i Hf; cbn in Hf; [discriminate|].
  destruct (f z) eqn:Hz.
  - injection Hf as <-. exists z. by rewrite Nat.sub_diag.
  - destruct (IH _ Hf) as (z' & Hle & Hl & Hf'). exists z'. split; [lia|]. split; [|done].
    by replace (j - i)%nat with (S (j - S i)) by lia.
Qed.

Lemma find_slot_None f i l : find_slot f i l = None -> Forall (fun z => f z = false) l.
Proof.
  revert i. induction l as [|z l IH]; intros i Hf; cbn in Hf; [constructor|].
  destruct (f z) eqn:Hz; [discriminate|]. constructor; [done|by eapply IH].
Qed.

(** The slots that are searched are those from 1 on. *)
Lemma find_tail_Some f l j :
  find_slot f 1 (drop 1 l) = Some j -> exists z, (1 <= j)%nat /\ l !! j = Some z /\ f z = true.
Proof.
  intros Hf. apply find_slot_Some in Hf as (z & Hj & Hl & Hz). exists z. split; [done|].
  rewrite lookup_drop in Hl. by replace (1 + (j - 1))%nat with j in Hl by lia.
Qed.
Lemma find_tail_None f l j z :
  find_slot f 1 (drop 1 l) = None -> (1 <= j)%nat -> l !! j = Some z -> f z = false.
Proof.
  intros Hf Hj Hl. apply find_slot_None in Hf.
  refine (Forall_lookup_1 (fun z => f z = false) _ (j - 1)%nat z Hf _). rewrite lookup_drop.
  by replace (1 + (j - 1))%nat with j by lia.
Qed.

(** A registered session is found under its slot. *)
Lemma getSessionHandle_slot n id i :
  table_ok n -> (1 <= i)%nat -> sessionHandleMap n !! i = Some id -> id <> 0 ->
  getSessionHandle n id = Z.of_nat i.
Proof.
  intros T Hi Hl Hz. unfold getSessionHandle.
  destruct (find_slot (Z.eqb id) 1 _) as [j|] eqn:Hf.
  - apply find_tail_Some in Hf as (z & Hj & Hjl & He). apply Z.eqb_eq in He. subst z.
    by rewrite (t_unique n T i j id Hi Hj Hl Hjl Hz).
  - pose proof (find_tail_None _ _ _ _ Hf Hi Hl) as He. by rewrite Z.eqb_refl in He.
Qed.

(** ** How many sessions there are *)
Lemma table_size n : table_ok n -> (size (sessionsMap n) <= maxSessionHandles)%nat.
Proof.
  intros T. rewrite <- length_map_to_list, <- (length_fmap fst).
  transitivity (length (sessionZero :: drop 1 (sessionHandleMap n))).
  - apply submseteq_length, NoDup_submseteq; [apply NoDup_fst_map_to_list|].
    intros id Hid. apply list_elem_of_fmap in Hid as ([id' p] & -> & Hp).
    apply elem_of_map_to_list in Hp. cbn. destruct (decide (id' = 0)) as [->|Hz]; [left|right].
    destruct (t_table n T _ _ Hp) as (s & _ & <- & Hreg).
    destruct (Hreg Hz) as (_ & _ & i & Hi & Hl & _).
    apply list_elem_of_lookup. exists (i - 1)%nat. rewrite lookup_drop.
    by replace (1 + (i - 1))%nat with i by lia.
  - cbn [length]. rewrite length_drop, (t_length n T). change maxSessionHandles with 63%nat. lia.
Qed.

(** Session zero is never active. *)
Lemma active_count n : table_ok n ->
  0 <= getActiveSessionCount n < Z.of_nat (size (sessionsMap n)).
Proof.
  intros T. pose proof (table_size n T) as Hs. unfold getActiveSessionCount.
  destruct (t_zero n T) as [p0 Hp0].
  assert (length (filter (fun kp => is_active n kp) (map_to_list (sessionsMap n)))
          < length (map_to_list (sessionsMap n)))%nat as Hf.
  { apply (length_filter_lt _ _ (sessionZero, p0)); [by apply elem_of_map_to_list|].
    destruct (t_table n T _ _ Hp0) as (s & Hh & Hid & _). unfold is_active. cbn. rewrite Hh.
    destruct (Z.eqb_spec (state (info s)) State.active) as [Ha|]; [|by intros []].
    destruct (oo_active s (t_objects n T _ _ Hh) Ha) as [Hz _]. by destruct Hz. }
  rewrite length_map_to_list in Hf.
  change maxSessionHandles with 63%nat in Hs. unfold u8. rewrite Z.mod_small; lia.
Qed.

(** ** Grace periods *)
Definition overload (count limit : Z) : Z := Z.max 0 (count - limit) + 1.

Lemma overflow_of_small count limit :
  0 <= count < 1000 -> 0 <= limit < 1000 -> overflow_of count limit = Z.max 0 (count - limit).
Proof.
  intros Hc Hl. unfold overflow_of. f_equal. set (d := count - limit).
  assert (-1000 < d < 1000) as Hd by lia. clearbody d. unfold sext, u64.
  change (2 ^ 32) with 4294967296. change (32 - 1) with 31.
  destruct (Z_lt_le_dec d 0).
  - assert ((d mod 18446744073709551616) mod 4294967296 = d + 4294967296) as ->
      by (Z.to_euclidean_division_equations; lia).
    rewrite (proj2 (Z.testbit_true (d + 4294967296) 31 ltac:(lia))); [lia|].
    change (2 ^ 31) with 2147483648. Z.to_euclidean_division_equations. lia.
  - assert ((d mod 18446744073709551616) mod 4294967296 = d) as ->
      by (Z.to_euclidean_division_equations; lia).
    rewrite (proj2 (Z.testbit_false d 31 ltac:(lia))); [done|].
    change (2 ^ 31) with 2147483648. Z.to_euclidean_division_equations. lia.
Qed.

Lemma idle_divisor_Ret {S} count limit (s : S) :
  0 <= count < 1000 -> 0 <= limit < 1000 ->
  idle_divisor count limit s = Ret (overload count limit ^ 3) s.
Proof.
  intros Hc Hl. unfold idle_divisor, overload. rewrite overflow_of_small by done.
  set (d := Z.max 0 (count - limit) + 1). assert (1 <= d < 1001) as Hd by lia.
  unfold sint. assert (forall z, 0 <= z < 2000000000 -> int_ok z = true) as Hok.
  { intros z Hz. unfold int_ok. apply andb_true_intro. change (2 ^ 31) with 2147483648.
    split; [apply Z.leb_le | apply Z.ltb_lt]; lia. }
  rewrite Hok by lia. rewrite bind_ret_l, Hok by nia. rewrite bind_ret_l, Hok by nia.
  unfold ret. f_equal. ring.
Qed.

Lemma graces_Ret n : table_ok n ->
  graces n n = Ret (baseIdleMicros / overload (getActiveSessionCount n) maxSessionCountPerChannel ^ 3,
                    Z.min maxSetupMicros
                      (baseIdleMicros / overload (Z.of_nat (size (sessionsMap n)))
                                                 (maxSessionCountPerChannel + 1) ^ 3)) n.
Proof.
  intros T. pose proof (table_size n T) as Hs. pose proof (active_count n T) as Ha.
  change maxSessionHandles with 63%nat in Hs. unfold graces, maxSessionCountPerChannel.
  rewrite (bind_Ret _ _ n _ n (idle_divisor_Ret (getActiveSessionCount n) 15 n ltac:(lia) ltac:(lia))).
  set (k := Z.of_nat (size (sessionsMap n))) in *. assert (0 <= k < 1000) as Hk by lia.
  rewrite (bind_Ret _ _ n _ n (idle_divisor_Ret k (15 + 1) n Hk ltac:(lia))).
  assert (forall c l, 0 < overload c l ^ 3) as Hpos
    by (intros; unfold overload; apply Z.pow_pos_nonneg; lia).
  assert (0 <= baseIdleMicros) as Hb by (unfold baseIdleMicros; lia).
  by rewrite !Z.quot_div_nonneg by (done || apply Hpos).
Qed.

Lemma grace_range c l :
  0 <= c <= l + 47 -> 542 <= baseIdleMicros / overload c l ^ 3 <= baseIdleMicros.
Proof.
  intros Hc. assert (1 <= overload c l <= 48) as Hd by (unfold overload; lia).
  change 542 with (baseIdleMicros / 48 ^ 3). split.
  - apply Z.div_le_compat_l; [unfold baseIdleMicros; lia|].
    split; [apply Z.pow_pos_nonneg; lia | apply Z.pow_le_mono_l; lia].
  - rewrite <- (Z.div_1_r baseIdleMicros) at 2.
    apply Z.div_le_compat_l; [unfold baseIdleMicros; lia|].
    pose proof (Z.pow_le_mono_l 1 (overload c l) 3). rewrite Z.pow_1_l in *; lia.
Qed.

Lemma grace_full c l : c <= l -> baseIdleMicros / overload c l ^ 3 = baseIdleMicros.
Proof. intros Hc. unfold overload. rewrite Z.max_l by lia. apply Z.div_1_r. Qed.

(** The grace periods are always defined (the cubes fit an
    [int]: there are at most 63 entries in the table) and lie between 542
    microseconds and 60 seconds for active sessions, 3 seconds for sessions in
    setup.  Up to 15 active sessions keep the full 60 seconds, however many
    sessions are being set up: a flood of setups cannot shorten them. *)
Theorem grace_bounds n : table_ok n -> exists activeGrace setupGrace,
  graces n n = Ret (activeGrace, setupGrace) n /\
  542 <= activeGrace <= 60000000 /\ 542 <= setupGrace <= 3000000 /\
  (getActiveSessionCount n <= 15 -> activeGrace = 60000000) /\
  (Z.of_nat (size (sessionsMap n)) <= 16 -> setupGrace = 3000000).
Proof.
  intros T. eexists _, _. split; [by apply graces_Ret|].
  pose proof (table_size n T) as Hs. pose proof (active_count n T) as Ha.
  change maxSessionHandles with 63%nat in Hs. unfold maxSessionCountPerChannel.
  change 60000000 with baseIdleMicros. change 3000000 with maxSetupMicros.
  split; [apply grace_range; lia|].
  set (k := Z.of_nat (size (sessionsMap n))) in *. assert (0 <= k <= 16 + 47) as Hk by lia.
  pose proof (grace_range k 16 Hk) as Hg.
  split; [change (15 + 1) with 16; unfold maxSetupMicros; lia|].
  split; intros Hn; rewrite grace_full by lia; reflexivity.
Qed.

(** ** Removing sessions *)
Definition drop_entry (id : Z) (n : Net) : Net :=
  n <| sessionHandleMap := <[Z.to_nat (getSessionHandle n id) := 0]> (sessionHandleMap n) |>
    <| sessionsMap := delete id (sessionsMap n) |>.

(** Everything but the two tables. *)
Definition same_rest (n n' : Net) : Prop :=
  n' = n <| sessionHandleMap := sessionHandleMap n' |> <| sessionsMap := sessionsMap n' |>.

#[export] Instance same_rest_preorder : PreOrder same_rest.
Proof.
  split; unfold same_rest; [intros n; destruct n; reflexivity|]. intros n1 n2 n3 H1 H2. rewrite H2, H1. reflexivity.
Qed.
Lemma same_rest_heap n n' : same_rest n n' -> heap n' = heap n /\ now n' = now n.
Proof. intros ->. done. Qed.

Lemma drop_entry_ok id p n :
  table_ok n -> sessionsMap n !! id = Some p -> id <> 0 -> table_ok (drop_entry id n).
Proof.
  intros T Hp Hz. destruct (t_table n T _ _ Hp) as (s & Hs & Hid & Hreg).
  destruct (Hreg Hz) as (_ & _ & k & Hk & Hl & _). rewrite Hid in Hl.
  unfold drop_entry. rewrite (getSessionHandle_slot n id k T) by (done || lia). rewrite Nat2Z.id.
  assert (forall i j, sessionHandleMap n !! i = Some j -> j <> id \/ (i = 0)%nat ->
                      i <> k) as Hother.
  { intros i j Hi Hj ->. destruct Hj as [Hj| ->]; [|lia]. congruence. }
  assert (forall i j, (1 <= i)%nat -> <[k:=0]> (sessionHandleMap n) !! i = Some j -> j <> 0 ->
            i <> k /\ sessionHandleMap n !! i = Some j) as Hins.
  { intros i j Hi Hj Hjz. destruct (decide (i = k)) as [->|Hne].
    - rewrite list_lookup_insert_eq in Hj by (rewrite (t_length n T); lia). congruence.
    - by rewrite list_lookup_insert_ne in Hj. }
  constructor; cbn.
  - apply (t_instance n T).
  - rewrite length_insert. apply (t_length n T).
  - apply (t_fresh n T).
  - apply (t_objects n T).
  - rewrite lookup_delete_ne by done. apply (t_zero n T).
  - intros id' p' Hp'. apply lookup_delete_Some in Hp' as [Hne Hp'].
    destruct (t_table n T _ _ Hp') as (s' & Hs' & Hid' & Hreg').
    exists s'. split; [done|]. split; [done|]. intros Hz'.
    destruct (Hreg' Hz') as (Hr & Hi & j & Hj & Hjl & Hh).
    split; [done|]. split; [done|]. exists j. split; [done|]. split; [|done].
    cbn. rewrite list_lookup_insert_ne; [done|]. apply not_eq_sym.
    apply (Hother _ _ Hjl). left. congruence.
  - intros i j Hi Hj Hjz. destruct (Hins _ _ Hi Hj Hjz) as [Hne Hj'].
    rewrite lookup_delete_ne; [by eapply (t_slots n T)|].
    intros Heq. subst j. apply Hne. apply (t_unique n T i k id); done || lia.
  - intros i j x Hi Hj Hix Hjx Hx.
    destruct (Hins _ _ Hi Hix Hx) as [_ Hi']. destruct (Hins _ _ Hj Hjx Hx) as [_ Hj'].
    by apply (t_unique n T i j x).
Qed.

(** The sessions a cleaning pass keeps. *)
Definition kept (n : Net) (activeGrace setupGrace : Z) (id : Z) (p : nat) : Prop :=
  id = sessionZero \/
  exists s, heap n !! p = Some s /\ isSessionActive s (now n) activeGrace setupGrace = true.

Lemma clean_entry_Ret n ag sg id p :
  table_ok n -> sessionsMap n !! id = Some p -> exists n',
    clean_entry ag sg (id, p) n = Ret tt n' /\ table_ok n' /\ same_rest n n' /\
    (forall id' p', sessionsMap n' !! id' = Some p' <->
       sessionsMap n !! id' = Some p' /\ (id' = id -> kept n ag sg id p)).
Proof.
  intros T Hp. destruct (t_table n T _ _ Hp) as (s & Hs & Hid & _).
  unfold clean_entry. cbn [fst snd]. rewrite (bind_Ret (obj p) _ n s n) by (unfold obj; by rewrite Hs).
  rewrite Hid. destruct (Z.eqb_spec id sessionZero) as [->|Hz].
  { exists n. split_and!; [done|done|reflexivity|]. intros. split; [|tauto]. split; [done|]. by left. }
  unfold bind at 1. cbn [get]. destruct (isSessionActive s (now n) ag sg) eqn:Ha.
  { exists n. split_and!; [done|done|reflexivity|]. intros. split; [|tauto]. split; [done|]. right. eauto. }
  exists (drop_entry id n). split; [done|]. split; [by eapply drop_entry_ok|]. split; [done|].
  intros id' p'. cbn. rewrite lookup_delete_Some. split.
  - intros [Hne Hp']. split; [done|]. by intros ->.
  - intros [Hp' Hk]. split; [|done]. intros <-.
    destruct (Hk eq_refl) as [?|(s' & Hs' & Ha')]; [done|]. rewrite Hs in Hs'.
    injection Hs' as <-. by rewrite Ha in Ha'.
Qed.

Lemma clean_all_Ret ag sg l : forall n,
  table_ok n -> NoDup l.*1 -> (forall id p, (id, p) ∈ l -> sessionsMap n !! id = Some p) ->
  exists n', mfor l (clean_entry ag sg) n = Ret tt n' /\ table_ok n' /\ same_rest n n' /\
    (forall id p, sessionsMap n' !! id = Some p <->
       sessionsMap n !! id = Some p /\ ((id, p) ∈ l -> kept n ag sg id p)).
Proof.
  induction l as [|[id p] l IH]; intros n T Hnd Hl.
  - exists n. split_and!; [done|done|reflexivity|]. intros id p. rewrite elem_of_nil. tauto.
  - cbn [fmap list_fmap fst] in Hnd. apply NoDup_cons in Hnd as [Hni Hnd].
    pose proof (Hl id p ltac:(left)) as Hp.
    destruct (clean_entry_Ret n ag sg id p T Hp) as (n1 & H1 & T1 & R1 & M1).
    assert (forall id' p', (id', p') ∈ l -> sessionsMap n1 !! id' = Some p') as Hl1.
    { intros id' p' Hin. apply M1. split; [apply Hl; by right|]. intros ->. destruct Hni.
      by apply (list_elem_of_fmap_2 fst _ (id, p')). }
    destruct (IH n1 T1 Hnd Hl1) as (n2 & H2 & T2 & R2 & M2).
    exists n2. split; [cbn [mfor]; by rewrite (bind_Ret _ _ _ _ _ H1)|]. split; [done|].
    split; [by etransitivity|]. intros id' p'. rewrite M2, M1, elem_of_cons.
    destruct (same_rest_heap _ _ R1) as [Hh Hn]. unfold kept in *. rewrite Hh, Hn.
    split.
    + intros [[Hp' Hk] Hk']. split; [done|]. intros [Heq|Hin]; [|auto].
      injection Heq as -> ->. auto.
    + intros [Hp' Hk]. split; [split; [done|]|auto]. intros ->. rewrite Hp in Hp'.
      injection Hp' as <-. auto.
Qed.

Lemma same_tables_schedule w n : exists n', scheduleSessionCleaner w n = Ret tt n' /\
  same_tables n n' /\ heap n' = heap n /\ now n' = now n.
Proof.
  unfold scheduleSessionCleaner. unfold bind, get. destruct (_ && _); by eexists.
Qed.

Lemma table_ok_frame n n' : same_tables n n' -> heap n' = heap n -> table_ok n -> table_ok n'.
Proof.
  intros Ht Hh T. by apply (evolves_frame tame tame_sound n n' Ht Hh).
Qed.

Lemma cleanStaleEntries_Ret n : table_ok n -> exists ag sg n',
  graces n n = Ret (ag, sg) n /\ cleanStaleEntries n = Ret tt n' /\ table_ok n' /\
  heap n' = heap n /\ now n' = now n /\ nextObject n' = nextObject n /\
  ipmiNetworkInstance n' = ipmiNetworkInstance n /\
  (forall id p, sessionsMap n' !! id = Some p <->
     sessionsMap n !! id = Some p /\ kept n ag sg id p).
Proof.
  intros T. pose proof (graces_Ret n T) as Hg.
  match type of Hg with _ = Ret (?a, ?b) _ => set (ag := a) in *; set (sg := b) in * end.
  destruct (clean_all_Ret ag sg (map_to_list (sessionsMap n)) n T) as (n1 & H1 & T1 & R1 & M1).
  { apply NoDup_fst_map_to_list. }
  { intros id p Hin. by apply elem_of_map_to_list in Hin. }
  assert (exists n2, (let! n0 := get in
            if 1 <? Z.of_nat (size (sessionsMap n0))
            then scheduleSessionCleaner (Z.min sg maxCleanupDelay) else ret tt) n1 = Ret tt n2 /\
            same_tables n1 n2 /\ heap n2 = heap n1 /\ now n2 = now n1) as (n2 & H2 & S2 & Hh2 & Hn2).
  { unfold bind at 1. cbn [get]. destruct (1 <? _); [apply same_tables_schedule|]. by exists n1. }
  exists ag, sg, n2. split; [done|]. split.
  { unfold cleanStaleEntries. unfold bind at 1. cbn [get].
    rewrite (bind_Ret _ _ _ _ _ Hg), (bind_Ret _ _ _ _ _ H1). exact H2. }
  split; [by eapply table_ok_frame|]. destruct (same_rest_heap _ _ R1) as [Hh1 Hn1].
  destruct S2 as (Hm & _ & Hi & Hx).
  split; [congruence|]. split; [congruence|].
  split; [rewrite Hx; by rewrite R1|]. split; [rewrite Hi; by rewrite R1|].
  intros id p. rewrite Hm, M1, elem_of_map_to_list. tauto.
Qed.

(** A slot holds its session as long as the session is in the table. *)
Lemma slot_follows n n' i id :
  table_ok n -> table_ok n' -> heap n' = heap n -> ipmiNetworkInstance n' = ipmiNetworkInstance n ->
  (forall id p, sessionsMap n' !! id = Some p -> sessionsMap n !! id = Some p) ->
  (1 <= i)%nat -> sessionHandleMap n !! i = Some id -> is_Some (sessionsMap n' !! id) -> id <> 0 ->
  sessionHandleMap n' !! i = Some id.
Proof.
  intros T T' Hh Hinst Hsub Hi Hl [p Hp'] Hz. pose proof (Hsub _ _ Hp') as Hp.
  destruct (t_table n T _ _ Hp) as (s & Hs & Hid & Hreg).
  destruct (t_table n' T' _ _ Hp') as (s' & Hs' & _ & Hreg').
  rewrite Hh, Hs in Hs'. injection Hs' as <-.
  destruct (Hreg Hz) as (_ & _ & j & Hj & Hjl & Hjh).
  destruct (Hreg' Hz) as (_ & _ & k & Hk & Hkl & Hkh).
  rewrite Hid in Hjl, Hkl. rewrite Hinst in Hkh.
  assert (k = j) as -> by lia.
  by rewrite (t_unique n T i j id Hi ltac:(lia) Hl Hjl Hz).
Qed.

(** A cleaning pass removes exactly the sessions that
    are not entitled to stay: it always completes; afterwards a session is in
    the table if and only if it was before and is session zero or was used
    within the grace period of its state; no session object changes; every slot
    of a removed session is free again and no other slot is touched. *)
Theorem cleaner_removes_exactly_stale n : table_ok n -> exists activeGrace setupGrace n',
  graces n n = Ret (activeGrace, setupGrace) n /\
  cleanStaleEntries n = Ret tt n' /\ table_ok n' /\ heap n' = heap n /\
  (forall id p, sessionsMap n' !! id = Some p <->
     sessionsMap n !! id = Some p /\ kept n activeGrace setupGrace id p) /\
  (forall i id, (1 <= i)%nat -> sessionHandleMap n !! i = Some id ->
     sessionHandleMap n' !! i = Some (if bool_decide (is_Some (sessionsMap n' !! id)) then id else 0)).
Proof.
  intros T. destruct (cleanStaleEntries_Ret n T)
    as (ag & sg & n' & Hg & Hc & T' & Hh & _ & _ & Hinst & Hm).
  exists ag, sg, n'. do 5 (split; [done|]). intros i id Hi Hl.
  assert (forall id p, sessionsMap n' !! id = Some p -> sessionsMap n !! id = Some p) as Hsub
    by (intros ?? Hq; by apply Hm in Hq as [? _]).
  assert (i < length (sessionHandleMap n'))%nat as Hlt.
  { rewrite (t_length n' T'), <- (t_length n T). by apply lookup_lt_Some in Hl. }
  apply lookup_lt_is_Some in Hlt as [id' Hl'].
  assert (id' <> 0 -> id' = id) as Hsame.
  { intros Hz'. destruct (t_slots n' T' _ _ Hi Hl' Hz') as [p' Hp'].
    pose proof (Hsub _ _ Hp') as Hp. destruct (t_table n T _ _ Hp) as (s & Hs & Hid & Hreg).
    destruct (Hreg Hz') as (_ & _ & j & Hj & Hjl & Hjh). rewrite Hid in Hjl.
    assert (is_Some (sessionsMap n' !! id')) as Hin by eauto.
    pose proof (slot_follows n n' j id' T T' Hh Hinst Hsub ltac:(lia) Hjl Hin Hz') as Hj'.
    rewrite (t_unique n' T' i j id' Hi ltac:(lia) Hl' Hj' Hz') in Hl. congruence. }
  rewrite Hl'. f_equal. destruct (sessionsMap n' !! id) as [p|] eqn:Hp;
    [rewrite bool_decide_eq_true_2 by eauto | rewrite bool_decide_eq_false_2 by by intros []].
  - destruct (decide (id = 0)) as [->|Hz].
    + destruct (decide (id' = 0)) as [|Hz']; [done|by apply Hsame].
    + assert (is_Some (sessionsMap n' !! id)) as Hin by eauto.
      pose proof (slot_follows n n' i id T T' Hh Hinst Hsub Hi Hl Hin Hz). congruence.
  - destruct (decide (id' = 0)) as [|Hz']; [done|]. rewrite (Hsame Hz') in Hl'.
    destruct (t_slots n' T' _ _ Hi Hl') as [p' Hp']; [|congruence]. rewrite <- Hsame by done. done.
Qed.

(** ** Adding a session *)
Section Start.
Context `{Crypto, Settings}.
Hypothesis initial_inactive : state initial_info <> State.active.

Lemma candidate_id_range inst draw :
  0 <= inst < 4 -> u32_range (candidate_id inst draw) /\ candidate_id inst draw / 2 ^ 30 = inst.
Proof.
  intros Hi. unfold candidate_id, multiIntfaceSessionIDMask, u32.
  change 0x3FFFFFFF with (2 ^ 30 - 1). pose proof (land_bound draw 30 ltac:(lia)) as Hl.
  set (l := Z.land draw (2 ^ 30 - 1)) in *. change (2 ^ 30) with 1073741824 in Hl.
  assert (0 <= Z.shiftl inst 30 < 4294967296) as Hs.
  { rewrite Z.shiftl_mul_pow2 by lia. change (2 ^ 30) with 1073741824. lia. }
  rewrite Z.mod_small by done. rewrite Z.lor_comm, lor_shiftl_add by (change (2 ^ 30) with 1073741824; lia).
  unfold u32_range. change (2 ^ 30) with 1073741824. change (2 ^ 32) with 4294967296.
  split; [lia|]. Z.to_euclidean_division_equations. lia.
Qed.

(** The state after some draws. *)
Definition drawn (n n' : Net) : Prop := exists k, n' = n <| rng := (rng n + k)%nat |>.

Lemma drawn_frame n n' : drawn n n' -> same_tables n n' /\ heap n' = heap n /\ now n' = now n.
Proof. intros [k ->]. done. Qed.

Lemma draw_id_spec fuel : forall n, 0 <= ipmiNetworkInstance n < 4 ->
  match draw_id fuel n with
  | Ret id n' => drawn n n' /\ sessionsMap n !! id = None /\
                 exists draw, id = candidate_id (ipmiNetworkInstance n) draw
  | Throw _ _ => False
  | Undef _ => True
  end.
Proof.
  induction fuel as [|fuel IH]; intros n Hi; [done|]. cbn [draw_id].
  unfold prng_rand, rand_bytes, bind at 1, bind at 1.
  destruct (RAND_bytes (rng n) 4) as [l|] eqn:Hl; [|done].
  set (n1 := n <| rng := S (rng n) |>). cbn [init_read of_option].
  rewrite bind_ret_l. unfold ret at 1, bind, get.
  change (sessionsMap n1) with (sessionsMap n). change (ipmiNetworkInstance n1) with (ipmiNetworkInstance n).
  destruct (sessionsMap n !! candidate_id (ipmiNetworkInstance n) (le_value l)) as [q|] eqn:Hq.
  - specialize (IH n1 Hi). destruct (draw_id fuel n1) as [id n'| |]; [|done..].
    destruct IH as ([k ->] & Hn & Hd). split; [|done]. exists (S k).
    by replace (rng n + S k)%nat with (S (rng n) + k)%nat by lia.
  - unfold ret. split; [exists 1%nat; unfold n1; by rewrite Nat.add_1_r|]. eauto.
Qed.

(** The state with one more session, in slot [i]. *)
Definition with_session (i : nat) (s : Session) (n : Net) : Net :=
  n <| sessionHandleMap := <[i:=s_bmcSessionID s]> (sessionHandleMap n) |>
    <| heap := <[nextObject n:=s]> (heap n) |>
    <| nextObject := S (nextObject n) |>
    <| sessionsMap := <[s_bmcSessionID s:=nextObject n]> (sessionsMap n) |>.

Lemma with_session_ok i s n :
  table_ok n -> sessionsMap n !! s_bmcSessionID s = None ->
  (1 <= i)%nat -> sessionHandleMap n !! i = Some 0 -> object_ok s ->
  u32_range (s_bmcSessionID s) -> s_bmcSessionID s / 2 ^ 30 = ipmiNetworkInstance n ->
  sessionHandle (info s) = 64 * ipmiNetworkInstance n + Z.of_nat i ->
  table_ok (with_session i s n).
Proof.
  intros T Hn Hi Hl Hok Hr Hinst Hh. set (id := s_bmcSessionID s) in *.
  assert (i < maxSessionHandles)%nat as Hlt by (rewrite <- (t_length n T); by eapply lookup_lt_Some).
  assert (forall j x, sessionHandleMap n !! j = Some x -> x <> 0 ->
            <[i:=id]> (sessionHandleMap n) !! j = Some x) as Hins.
  { intros j x Hj Hx. rewrite list_lookup_insert_ne; [done|]. congruence. }
  assert (forall j x, <[i:=id]> (sessionHandleMap n) !! j = Some x -> x <> 0 ->
            j = i /\ x = id \/ j <> i /\ sessionHandleMap n !! j = Some x) as Hinv.
  { intros j x Hj Hx. destruct (decide (j = i)) as [->|Hne].
    - rewrite list_lookup_insert_eq in Hj by (by rewrite (t_length n T)).
      injection Hj as <-. by left.
    - rewrite list_lookup_insert_ne in Hj by done. by right. }
  assert (forall j, (1 <= j)%nat -> sessionHandleMap n !! j = Some id -> id <> 0 -> False) as Hfree.
  { intros j Hj Hjl Hz. destruct (t_slots n T _ _ Hj Hjl Hz) as [p Hp]. congruence. }
  constructor; cbn; fold id.
  - apply (t_instance n T).
  - rewrite length_insert. apply (t_length n T).
  - intros p Hp. rewrite lookup_insert_ne by lia. apply (t_fresh n T). lia.
  - intros p s' Hs'. destruct (decide (nextObject n = p)) as [<-|Hne].
    + rewrite lookup_insert_eq in Hs'. by injection Hs' as <-.
    + rewrite lookup_insert_ne in Hs' by done. by eapply (t_objects n T).
  - destruct (t_zero n T) as [p0 Hp0]. exists p0. rewrite lookup_insert_ne; [done|]. congruence.
  - intros id' p Hp. destruct (decide (id = id')) as [<-|Hne].
    + rewrite lookup_insert_eq in Hp. injection Hp as <-. exists s.
      rewrite lookup_insert_eq. split; [done|]. split; [done|]. intros _.
      split; [done|]. split; [done|]. exists i. cbn. fold id.
      split; [lia|]. split; [|done]. apply list_lookup_insert_eq. by rewrite (t_length n T).
    + rewrite lookup_insert_ne in Hp by done.
      destruct (t_table n T _ _ Hp) as (s' & Hs' & Hid' & Hreg). exists s'.
      assert (p <> nextObject n).
      { intros ->. by rewrite (t_fresh n T) in Hs' by lia. }
      rewrite lookup_insert_ne by done. split; [done|]. split; [done|]. intros Hz.
      destruct (Hreg Hz) as (Hr' & Hi' & j & Hj & Hjl & Hjh).
      split; [done|]. split; [done|]. exists j. split; [done|]. split; [|done].
      apply Hins; [done|]. by rewrite Hid'.
  - intros j x Hj Hjx Hx. destruct (Hinv _ _ Hjx Hx) as [[-> ->]|[_ Hjx']].
    + rewrite lookup_insert_eq. eauto.
    + rewrite lookup_insert_is_Some. right.
      assert (id <> x) by (intros ->; by eapply Hfree). split; [done|]. by eapply (t_slots n T).
  - intros j k x Hj Hk Hjx Hkx Hx.
    destruct (Hinv _ _ Hjx Hx) as [[-> ->]|[_ Hjx']], (Hinv _ _ Hkx Hx) as [[-> E]|[_ Hkx']];
      try done; try (by destruct (Hfree _ Hk Hkx' Hx)).
    + subst x. by destruct (Hfree _ Hj Hjx' Hx).
    + by apply (t_unique n T j k x).
Qed.

Lemma session_handle inst i :
  0 <= inst < 4 -> (i < maxSessionHandles)%nat ->
  u8 (Z.lor (Z.land (Z.of_nat i) multiIntfaceSessionHandleMask) (Z.shiftl inst 6)) =
    64 * inst + Z.of_nat i.
Proof.
  intros Hi Hn. change maxSessionHandles with 63%nat in Hn. unfold multiIntfaceSessionHandleMask.
  change 0x3F with (2 ^ 6 - 1). rewrite land_mask by lia. change (2 ^ 6) with 64.
  rewrite Z.mod_small by lia. rewrite Z.lor_comm, lor_shiftl_add by (change (2 ^ 6) with 64; lia).
  change (2 ^ 6) with 64. unfold u8. rewrite Z.mod_small; lia.
Qed.

(** A new session of the algorithms that Open Session lets through. *)
Definition opened_session (rc bmc priv handle : Z) : Session :=
  (new_Session rc bmc priv)
    <| authAlgoInterface := Some (new_AuthAlgo SHA256 HMAC_SHA256_128 AES_CBC_128) |>
    <| info := initial_info <| sessionHandle := handle |> |>.

Lemma opened_session_ok rc bmc priv handle : object_ok (opened_session rc bmc priv handle).
Proof. constructor; [done| |by intros ?]. by split. Qed.

(** The search for a slot. *)
Lemma storeSessionHandle_spec n id :
  (exists i, (1 <= i)%nat /\ sessionHandleMap n !! i = Some 0 /\
     storeSessionHandle id n =
       Ret (Z.of_nat i) (n <| sessionHandleMap := <[i:=id]> (sessionHandleMap n) |>)) \/
  storeSessionHandle id n = Ret 0 n /\
    forall i z, (1 <= i)%nat -> sessionHandleMap n !! i = Some z -> z <> 0.
Proof.
  unfold storeSessionHandle, bind, get.
  destruct (find_slot (Z.eqb 0) 1 (drop 1 (sessionHandleMap n))) as [i|] eqn:Hf.
  - left. apply find_tail_Some in Hf as (z & Hi & Hl & Hz). apply Z.eqb_eq in Hz. subst z.
    exists i. by split_and!.
  - right. split; [done|]. intros i z Hi Hl ->.
    pose proof (find_tail_None _ _ _ _ Hf Hi Hl) as Hz. done.
Qed.

(** The check of the number of sessions never refuses: the slots run out
    first. *)
Lemma sessions_below_limit n : table_ok n ->
  u64 (Z.of_nat (size (sessionsMap n)) - maxSessionlessCount) < Z.of_nat maxSessionHandles.
Proof.
  intros T. pose proof (table_size n T) as Hs. destruct (t_zero n T) as [p0 Hp0].
  assert (size (sessionsMap n) <> 0%nat) as Hne
    by (intros E; apply map_size_empty_inv in E; by rewrite E in Hp0).
  unfold u64. change maxSessionHandles with 63%nat in *. change maxSessionlessCount with 1.
  rewrite Z.mod_small; lia.
Qed.

(** No slot for a session is free. *)
Definition slots_taken (n : Net) : Prop :=
  forall i z, (1 <= i)%nat -> sessionHandleMap n !! i = Some z -> z <> 0.

(** [startSession] either adds a session of its own to the cleaned table, or
    leaves the cleaned table because it has no free slot. *)
Lemma startSession_spec n rc priv : table_ok n ->
  match startSession rc priv RAKP_HMAC_SHA256 HMAC_SHA256_128 AES_CBC_128 n with
  | Ret p n' => exists n1 i s, table_ok n1 /\ heap n1 = heap n /\ p = nextObject n1 /\
      nextObject n1 = nextObject n /\ now n1 = now n /\
      n' = with_session i s n1 /\ table_ok n' /\ s_bmcSessionID s <> 0 /\
      s = opened_session rc (s_bmcSessionID s) priv (sessionHandle (info s))
  | Throw _ n' => table_ok n' /\ heap n' = heap n /\ slots_taken n'
  | Undef _ => True
  end.
Proof.
  intros T. unfold startSession.
  destruct (cleanStaleEntries_Ret n T) as (ag & sg & n1 & _ & Hc & T1 & Hh1 & Hn1 & Hx1 & _ & _).
  rewrite (bind_Ret _ _ _ _ _ Hc).
  destruct (same_tables_schedule (1 * 1000 * 1000) n1) as (n2 & Hs2 & S2 & Hh2 & Hn2).
  rewrite (bind_Ret _ _ _ _ _ Hs2). unfold bind at 1. cbn [get].
  pose proof (table_ok_frame _ _ S2 Hh2 T1) as T2.
  rewrite (proj2 (Z.ltb_lt _ _) (sessions_below_limit n2 T2)).
  pose proof (draw_id_spec id_fuel n2 (t_instance n2 T2)) as Hd. unfold bind at 1.
  destruct (draw_id id_fuel n2) as [id n3| |]; [|done..]. destruct Hd as (Hdr & Hfree & draw & Hid).
  destruct (drawn_frame _ _ Hdr) as (S3 & Hh3 & Hn3).
  pose proof (table_ok_frame _ _ S3 Hh3 T2) as T3. pose proof S3 as (Hm3 & _ & Hi3 & Hx3).
  destruct (candidate_id_range (ipmiNetworkInstance n2) draw (t_instance n2 T2)) as [Hr Hinst].
  rewrite <- Hid in Hr, Hinst. rewrite <- Hm3 in Hfree. rewrite <- Hi3 in Hinst.
  destruct (storeSessionHandle_spec n3 id) as [(i & Hi & Hl & Hst)|[Hst Htaken]];
    rewrite (bind_Ret _ _ _ _ _ Hst).
  2: { rewrite Z.eqb_refl. cbn. split; [done|]. split; [congruence|exact Htaken]. }
  rewrite (proj2 (Z.eqb_neq _ _)) by lia. unfold bind at 1. cbn [get]. cbn -[Z.land Z.lor u8].
  assert (i < maxSessionHandles)%nat as Hlt
    by (rewrite <- (t_length n3 T3); by eapply lookup_lt_Some).
  rewrite session_handle by (exact (t_instance n3 T3) || exact Hlt).
  set (s := opened_session rc id priv (64 * ipmiNetworkInstance n3 + Z.of_nat i)).
  assert (id <> 0) as Hz.
  { intros ->. destruct (t_zero n3 T3) as [p0 Hp0]. unfold sessionZero in Hp0. congruence. }
  exists n3, i, s. split; [done|]. split; [congruence|]. split; [done|].
  split; [destruct S2 as (_ & _ & _ & Hx2); congruence|]. split; [congruence|].
  match goal with |- ?b = _ /\ _ => assert (b = with_session i s n3) as Hb end.
  { unfold with_session. cbn. rewrite alter_insert_eq. reflexivity. }
  split; [done|]. split; [|by split]. rewrite Hb.
  by apply with_session_ok; [..|apply opened_session_ok| | |].
Qed.

Section Evolving.
Context (R : Session -> Session -> Prop) `{!PreOrder R}.
Hypothesis R_tame : forall s s', tame s s' -> R s s'.
Hypothesis R_sound : forall s s', R s s' -> sound s s'.

Lemma evolves_cleaner : preserves (evolves R) cleanStaleEntries.
Proof.
  intros n. destruct (cleanStaleEntries n) as [u n'|e n'|] eqn:Hc; [| |done]; intros T;
    destruct (cleanStaleEntries_Ret n T) as (ag & sg & n1 & _ & Hc' & T' & Hh & _);
    rewrite Hc in Hc'; [|discriminate].
  injection Hc' as _ <-. split; [done|]. intros p s Hs. exists s. by rewrite Hh.
Qed.

Lemma evolves_startSession rc priv :
  preserves (evolves R) (startSession rc priv RAKP_HMAC_SHA256 HMAC_SHA256_128 AES_CBC_128).
Proof.
  intros n. pose proof (fun T => startSession_spec n rc priv T) as Hs.
  destruct (startSession _ _ _ _ _ n) as [p n'|e n'|]; [| |done]; intros T; specialize (Hs T).
  - destruct Hs as (n1 & i & s & T1 & Hh & -> & Hx & _ & -> & T' & _). split; [done|].
    intros q r Hq. cbn. exists r. split; [|done]. rewrite lookup_insert_ne; [by rewrite Hh|].
    intros <-. by rewrite (t_fresh n T) in Hq by lia.
  - destruct Hs as (T' & Hh & _). split; [done|]. intros q r Hq. exists r. by rewrite Hh.
Qed.

Lemma evolves_openSession l : preserves (evolves R) (openSession l).
Proof.
  assert (forall rc priv a i c, auth_isAlgorithmSupported a = true ->
    integrity_isAlgorithmSupported i = true -> crypt_isAlgorithmSupported c = true ->
    preserves (evolves R) (startSession rc priv a i c)) as Hst.
  { intros rc priv a i c Ha Hi Hc. apply Z.eqb_eq in Ha, Hi, Hc. subst.
    apply evolves_startSession. }
  unfold openSession. destruct (negb _); [keeps|].
  do 12 (apply preserves_bind; [exact _|keeps|intros ?]).
  destruct (auth_isAlgorithmSupported _) eqn:Ha; cbn [negb]; [|keeps].
  destruct (integrity_isAlgorithmSupported _) eqn:Hi; cbn [negb]; [|keeps].
  destruct (crypt_isAlgorithmSupported _) eqn:Hc; cbn [negb]; [|keeps].
  apply preserves_bind; [exact _| |intros [p|]; keeps].
  apply preserves_try; [exact _| |intros ?; keeps].
  apply preserves_bind; [exact _|by apply Hst|intros ?; keeps].
Qed.
End Evolving.
End Start.

(** ** The last message of the key exchange *)
Section Establish.
Context `{Crypto, Settings} `{!CryptoLaws _}.

Lemma generateKn_length {S} d sik c (n n' : S) k :
  generateKn d sik c n = Ret k n' -> n' = n /\ (digest_length d <= length k)%nat.
Proof.
  unfold generateKn. destruct (HMAC d sik c) as [o|] eqn:Ho; [|discriminate].
  destruct (Nat.leb_spec (length o) (length sik)); [|discriminate]. intros [= <- <-].
  split; [done|]. pose proof (HMAC_length _ _ _ _ Ho). unfold resize.
  rewrite length_app, length_take, length_replicate. lia.
Qed.

Lemma generateKn_state {S} d sik c (n : S) :
  match generateKn d sik c n with Ret _ n' | Throw _ n' => n' = n | Undef _ => True end.
Proof. unfold generateKn. destruct (HMAC d sik c); [|done]. by destruct (_ <=? _)%nat. Qed.

(** [obj] and [getSession] on a known session. *)
Lemma obj_Ret p n s : heap n !! p = Some s -> obj p n = Ret s n.
Proof. intros Hs. unfold obj. by rewrite Hs. Qed.
Lemma getSession_Ret id n p : sessionsMap n !! id = Some p -> getSession id n = Ret p n.
Proof. intros Hp. unfold getSession, bind, get. by rewrite Hp. Qed.

Lemma find_session id n :
  try (let! p := getSession id in ret (Some p)) (fun _ => ret None) n = Ret (sessionsMap n !! id) n.
Proof. unfold try, getSession, bind, get. by destruct (sessionsMap n !! id). Qed.

Definition setup_algorithms (s : Session) : Prop :=
  algorithms s = Some (SHA256, HMAC_SHA256_128, AES_CBC_128).
Lemma setup_algorithms_inv s : setup_algorithms s -> exists a, authAlgoInterface s = Some a /\
  authDigest a = SHA256 /\ intAlgo a = HMAC_SHA256_128 /\ cryptAlgo a = AES_CBC_128.
Proof.
  unfold setup_algorithms, algorithms. destruct (authAlgoInterface s) as [a|]; [|discriminate].
  intros [= H1 H2 H3]. eauto.
Qed.

Lemma applyIntegrityAlgo_spec n id p s :
  sessionsMap n !! id = Some p -> heap n !! p = Some s -> setup_algorithms s ->
  match applyIntegrityAlgo id n with
  | Ret _ n' => exists i, integrity_ok i /\ intDigest i = SHA256 /\
      n' = n <| heap := alter (fun s => s <| integrityAlgoInterface := Some i |>) p (heap n) |>
  | Throw _ n' => n' = n
  | Undef _ => True
  end.
Proof.
  intros Hp Hs Ha. destruct (setup_algorithms_inv s Ha) as (a & Hauth & _ & Hint & _).
  unfold applyIntegrityAlgo. rewrite (bind_Ret _ _ _ _ _ (getSession_Ret _ _ _ Hp)).
  rewrite (bind_Ret _ _ _ _ _ (obj_Ret _ _ _ Hs)). unfold getAuthAlgo. rewrite Hauth, bind_ret_l, Hint.
  change (HMAC_SHA256_128 =? HMAC_SHA1_96) with false. rewrite Z.eqb_refl.
  unfold new_IntegrityAlgo, bind.
  pose proof (generateKn_state SHA256 (sessionIntegrityKey a) const_1 n) as Hst.
  destruct (generateKn _ _ _ n) as [k n1| |]; [|done..]. subst n1.
  eexists. split; [|split; [|reflexivity]]; done.
Qed.

Lemma applyCryptAlgo_spec n id p s i :
  sessionsMap n !! id = Some p -> heap n !! p = Some s -> setup_algorithms s ->
  integrityAlgoInterface s = Some i ->
  match applyCryptAlgo id n with
  | Ret _ n' => exists k, (16 <= length k)%nat /\
      n' = n <| heap := alter (fun s => s <| cryptAlgoInterface := Some k |>) p (heap n) |>
  | Throw _ n' => n' = n
  | Undef _ => True
  end.
Proof.
  intros Hp Hs Ha Hi. destruct (setup_algorithms_inv s Ha) as (a & Hauth & _ & _ & Hcr).
  unfold applyCryptAlgo. rewrite (bind_Ret _ _ _ _ _ (getSession_Ret _ _ _ Hp)).
  rewrite (bind_Ret _ _ _ _ _ (obj_Ret _ _ _ Hs)). unfold getAuthAlgo. rewrite Hauth, bind_ret_l, Hcr, Z.eqb_refl.
  unfold getIntegrityAlgo. rewrite Hi, bind_ret_l. unfold bind.
  pose proof (generateKn_state (intDigest i) (sessionIntegrityKey a) const_2 n) as Hst.
  destruct (generateKn _ _ _ n) as [k n1| |] eqn:Hk; [|done..]. subst n1.
  apply generateKn_length in Hk as [_ Hl]. eexists. split; [|reflexivity].
  assert (16 <= digest_length (intDigest i))%nat as Hd
    by (destruct (intDigest i); apply Nat.leb_le; reflexivity).
  lia.
Qed.

Lemma sound_integrity s i : integrity_ok i -> sound s (s <| integrityAlgoInterface := Some i |>).
Proof.
  intros Hi. split; [done|]. split.
  - intros [A [_ K] V]. constructor; [exact A|split; [by intros ? [= <-]|exact K]|].
    intros Hs. destruct (V Hs) as [Hz [_ Hc]]. split; [done|]. split; [cbn; eauto|exact Hc].
  - intros [_ Hc]. split; [cbn; eauto|exact Hc].
Qed.
Lemma sound_crypt s k : (16 <= length k)%nat -> sound s (s <| cryptAlgoInterface := Some k |>).
Proof.
  intros Hk. split; [done|]. split.
  - intros [A [K _] V]. constructor; [exact A|split; [exact K|by intros ? [= <-]]|].
    intros Hs. destruct (V Hs) as [Hz [Hi _]]. split; [done|]. split; [exact Hi|cbn; eauto].
  - intros [Hi _]. split; [exact Hi|cbn; eauto].
Qed.
Lemma sound_active s : s_bmcSessionID s <> 0 -> keyed s ->
  sound s (s <| info := (info s) <| state := State.active |> |>).
Proof.
  intros Hz Hk. split; [done|]. split; [|done]. intros [A K V]. by constructor.
Qed.

(** A session object that is in the table under its id. *)
Definition enrolled (n : Net) (p : nat) (s : Session) : Prop :=
  heap n !! p = Some s /\ sessionsMap n !! s_bmcSessionID s = Some p /\ s_bmcSessionID s <> 0.

Lemma generateICV_state {S} a input (n : S) :
  match generateICV a input n with Ret _ n' | Throw _ n' => n' = n | Undef _ => True end.
Proof.
  unfold generateICV, bind. destruct (authDigest a); [|done].
  unfold read_range. by destruct (_ <=? _).
Qed.

(** The integrity and confidentiality keys, then the activation. *)
Definition activate_session (id : Z) (p : nat) : M Net unit :=
  applyIntegrityAlgo id ;;; applyCryptAlgo id ;;;
  on_info p (fun i => i <| state := State.active |>).

Lemma heap_alter_eq n p (f : Session -> Session) s :
  heap n !! p = Some s -> heap (n <| heap := alter f p (heap n) |>) !! p = Some (f s).
Proof. intros Hs. cbn. by rewrite lookup_alter_eq, Hs. Qed.

(** Only object [p] changes, and soundly. *)
Definition evolves_at (p : nat) (n n' : Net) : Prop :=
  evolves sound n n' /\ forall q, q <> p -> heap n' !! q = heap n !! q.
#[local] Instance evolves_at_preorder p : PreOrder (evolves_at p).
Proof.
  split; [by intros n|]. intros n1 n2 n3 [E1 O1] [E2 O2]. split; [by transitivity n2|].
  intros q Hq. by rewrite O2, O1.
Qed.
Lemma evolves_at_alter n p f :
  (forall s, heap n !! p = Some s -> sound s (f s)) ->
  evolves_at p n (n <| heap := alter f p (heap n) |>).
Proof.
  intros Hf. split; [by apply evolves_alter; [exact _|done|]|].
  intros q Hq. cbn. by rewrite lookup_alter_ne.
Qed.

Lemma activate_session_spec n p s :
  table_ok n -> enrolled n p s ->
  match activate_session (s_bmcSessionID s) p n with
  | Ret _ n' => evolves_at p n n' /\ exists s', heap n' !! p = Some s' /\
      active_session s' /\ keyed s' /\ authAlgoInterface s' = authAlgoInterface s
  | Throw _ n' => evolves_at p n n'
  | Undef _ => True
  end.
Proof.
  intros T (Hs & Hp & Hz). pose proof (oo_algorithms s (t_objects n T _ _ Hs) Hz) as Ha.
  set (id := s_bmcSessionID s) in *. unfold activate_session. unfold bind at 1.
  pose proof (applyIntegrityAlgo_spec n id p s Hp Hs Ha) as HI.
  destruct (applyIntegrityAlgo id n) as [u n1|e n1|]; [|by subst n1|done].
  destruct HI as (i & Hi & _ & Hn1).
  assert (evolves_at p n n1) as E1.
  { rewrite Hn1. apply evolves_at_alter. intros s0 _. by apply sound_integrity. }
  set (s1 := s <| integrityAlgoInterface := Some i |>).
  assert (heap n1 !! p = Some s1) as Hs1 by (rewrite Hn1; by rewrite (heap_alter_eq _ _ _ _ Hs)).
  assert (sessionsMap n1 !! id = Some p) as Hp1 by by rewrite Hn1.
  unfold bind. pose proof (applyCryptAlgo_spec n1 id p s1 i Hp1 Hs1 Ha eq_refl) as HC.
  destruct (applyCryptAlgo id n1) as [u' n2|e n2|]; [|by subst n2|done].
  destruct HC as (k & Hk & Hn2).
  assert (evolves_at p n1 n2) as E2.
  { rewrite Hn2. apply evolves_at_alter. intros s0 _. by apply sound_crypt. }
  set (s2 := s1 <| cryptAlgoInterface := Some k |>).
  assert (heap n2 !! p = Some s2) as Hs2 by (rewrite Hn2; by rewrite (heap_alter_eq _ _ _ _ Hs1)).
  cbn [on_info on_obj modify]. unfold on_info, on_obj, modify. split.
  - transitivity n2; [by transitivity n1|]. apply evolves_at_alter.
    intros s0 Hs0. rewrite Hs2 in Hs0. injection Hs0 as <-. apply sound_active; [exact Hz|].
    split; cbn; eauto.
  - eexists. split; [apply (heap_alter_eq _ _ _ _ Hs2)|].
    split; [done|]. split; [split; cbn; eauto|done].
Qed.

(** [establish] is: extend the key, compute the check value, activate. *)
Lemma establish_shape p tag bmcRand name n s :
  heap n !! p = Some s ->
  establish p tag bmcRand name n =
    bind (getAuthAlgo s) (fun a => bind (init_read (rcRandomNum a)) (fun rcRand =>
      let sik := auth_generateHMAC a (sik_input rcRand bmcRand (u8 (reqMaxPrivLevel s)) name) in
      let a' := a <| sessionIntegrityKey := sik ++ sessionIntegrityKey a |> in
      on_auth p (fun a => a <| sessionIntegrityKey := sik ++ sessionIntegrityKey a |>) ;;;
      bind (generateICV a' (icv_input rcRand (s_bmcSessionID s) (guid n))) (fun icv =>
        activate_session (s_bmcSessionID s) p ;;;
        ret (rakp4_response tag RAKP_ReturnCode.NO_ERROR (remoteConsoleSessionID s) ++ icv)))) n.
Proof.
  intros Hs. unfold establish. rewrite (bind_Ret _ _ _ _ _ (obj_Ret _ _ _ Hs)).
  unfold getAuthAlgo at 1 3. destruct (authAlgoInterface s) as [a|] eqn:Ha; [|done].
  rewrite !bind_ret_l. destruct (rcRandomNum a) as [rcRand|]; [|done].
  cbn [init_read of_option]. rewrite !bind_ret_l.
  set (f := fun a : AuthAlgo => _). set (n1 := n <| heap := alter (fun s => s <| authAlgoInterface := f <$> authAlgoInterface s |>) p (heap n) |>).
  rewrite !(bind_Ret (on_auth p f) _ n tt n1) by done.
  assert (heap n1 !! p = Some (s <| authAlgoInterface := Some (f a) |>)) as Hs1.
  { unfold n1. rewrite (heap_alter_eq _ _ _ _ Hs). by rewrite Ha. }
  rewrite (bind_Ret _ _ _ _ _ (obj_Ret _ _ _ Hs1)). unfold getAuthAlgo, update at 1. cbn [authAlgoInterface].
  rewrite bind_ret_l. unfold bind at 1. cbn [get]. change (guid n1) with (guid n).
  unfold activate_session, bind.
  destruct (generateICV _ _ n1) as [icv n2| |]; [|done..].
  change (s_bmcSessionID (update _ _ s)) with (s_bmcSessionID s).
  destruct (applyIntegrityAlgo _ n2) as [[] n3| |]; [|done..].
  by destruct (applyCryptAlgo _ n3) as [[] n4| |].
Qed.

Lemma establish_spec p tag bmcRand name n s :
  table_ok n -> enrolled n p s ->
  match establish p tag bmcRand name n with
  | Ret _ n' => evolves_at p n n' /\ exists s', heap n' !! p = Some s' /\
      active_session s' /\ keyed s'
  | Throw _ n' => evolves_at p n n'
  | Undef _ => True
  end.
Proof.
  intros T Hen. pose proof Hen as (Hs & Hp & Hz). rewrite (establish_shape _ _ _ _ _ _ Hs).
  unfold getAuthAlgo. destruct (authAlgoInterface s) as [a|] eqn:Ha; [|cbn; reflexivity].
  rewrite bind_ret_l. destruct (rcRandomNum a) as [rcRand|]; [|done].
  cbn [init_read of_option]. rewrite bind_ret_l.
  set (f := fun a : AuthAlgo => _).
  set (n1 := n <| heap := alter (fun s => s <| authAlgoInterface := f <$> authAlgoInterface s |>) p (heap n) |>).
  rewrite (bind_Ret (on_auth p f) _ n tt n1) by done.
  assert (evolves_at p n n1) as E1.
  { apply evolves_at_alter. intros s0 _. apply tame_sound. revert s0. tame_update. }
  assert (enrolled n1 p (s <| authAlgoInterface := f <$> authAlgoInterface s |>)) as Hen1.
  { split; [|by split].
    exact (heap_alter_eq n p (fun s => s <| authAlgoInterface := f <$> authAlgoInterface s |>) s Hs). }
  unfold bind at 1. pose proof (generateICV_state (f a) (icv_input rcRand (s_bmcSessionID s) (guid n)) n1) as Hst.
  fold (f a). destruct (generateICV _ _ n1) as [icv n2|e n2|]; [|by subst n2|done]. subst n2.
  pose proof (activate_session_spec n1 p _ (proj1 (proj1 E1 T)) Hen1) as HA.
  change (s_bmcSessionID (update _ _ s)) with (s_bmcSessionID s) in HA. unfold bind.
  destruct (activate_session _ p n1) as [[] n3|e n3|]; [|by transitivity n1|done].
  destruct HA as [E3 (s' & Hs' & Hact & Hk & _)]. split; [by transitivity n1|]. eauto.
Qed.

(** The console proved in message 3 that it knows the user's key: the rest of
    the message is the MAC over the challenge of this session. *)
Definition proves_key (l : list Z) (s : Session) : Prop :=
  exists a bmcRand, authAlgoInterface s = Some a /\ bmcRandomNum a = Some bmcRand /\
    le_value (take 4 (drop 4 l)) = s_bmcSessionID s /\
    drop sizeof_RAKP3request l = auth_generateHMAC a
      (rakp3_input bmcRand (remoteConsoleSessionID s) (u8 (reqMaxPrivLevel s))
         (take (Z.to_nat (u8 (zlen (userName s)))) (userName s))).

Lemma RAKP34_cases l n : table_ok n ->
  match RAKP34 l n with
  | Ret _ n' | Throw _ n' =>
      evolves tame n n' \/
      exists p s, enrolled n p s /\ proves_key l s /\ evolves_at p n n'
  | Undef _ => True
  end.
Proof.
  intros T. assert (forall A (m : M Net A), preserves (evolves tame) m ->
    match m n with Ret _ n' | Throw _ n' => evolves tame n n' \/
      exists p s, enrolled n p s /\ proves_key l s /\ evolves_at p n n' | Undef _ => True end) as Hq.
  { intros A m Hm. specialize (Hm n). destruct (m n); auto. }
  unfold RAKP34. destruct (_ <? _)%nat; [left; reflexivity|].
  unfold rd8, idx. destruct (l !! 0%nat) as [tag|]; [|done]. cbn [of_option]. rewrite bind_ret_l.
  unfold bind at 1. destruct (rd32 l 4 n) as [sid n1|e n1|] eqn:Hr.
  2: { exfalso. revert Hr. unfold rd32, read_range, bind. by destruct (_ <=? _). }
  2: done.
  apply rd32_inv in Hr as [-> Hsid]; [|lia]. change (Z.to_nat 4) with 4%nat in Hsid.
  destruct (Z.eqb_spec sid sessionZero) as [|Hz]; [left; reflexivity|].
  rewrite (bind_Ret _ _ _ _ _ (find_session sid n)).
  destruct (sessionsMap n !! sid) as [p|] eqn:Hp; [|left; reflexivity].
  destruct (t_table n T _ _ Hp) as (s & Hs & Hid & _).
  set (n1 := n <| heap := alter (fun s => s <| lastTime := now n |>) p (heap n) |>).
  rewrite (bind_Ret (updateLastTransactionTime p) _ n tt n1) by done.
  assert (evolves tame n n1) as E1 by (apply evolves_alter; [exact _|exact tame_sound|intros; done]).
  set (s1 := s <| lastTime := now n |>).
  assert (heap n1 !! p = Some s1) as Hs1 by exact (heap_alter_eq n p (fun s => s <| lastTime := now n |>) s Hs).
  rewrite (bind_Ret _ _ _ _ _ (obj_Ret _ _ _ Hs1)). unfold getAuthAlgo.
  change (authAlgoInterface s1) with (authAlgoInterface s).
  destruct (authAlgoInterface s) as [a|] eqn:Ha; [|by left]. rewrite bind_ret_l.
  destruct (bmcRandomNum a) as [bmcRand|] eqn:Hb; [|done]. cbn [init_read of_option]. rewrite bind_ret_l.
  case_bool_decide as Hmac.
  - assert (enrolled n1 p s1) as Hen by (split; [done|]; cbn; rewrite Hid; by split).
    pose proof (establish_spec p tag bmcRand (take (Z.to_nat (u8 (zlen (userName s1)))) (userName s1))
                  n1 s1 (proj1 (E1 T)) Hen) as HE.
    assert (evolves_at p n n1) as E1' by (apply evolves_at_alter; intros; by apply tame_sound).
    assert (enrolled n p s /\ proves_key l s) as [Hen0 Hpk].
    { split; [by split; [|rewrite Hid; split]|].
      exists a, bmcRand. split_and!; [done|done|congruence|exact Hmac]. }
    destruct (establish _ _ _ _ n1) as [r n2|e n2|]; [| |done]; right; exists p, s;
      (split; [done|split; [done|]]); transitivity n1; try done; apply HE.
  - unfold bind.
    pose proof (evolves_stop tame (fun _ _ x => x) tame_sound (s_bmcSessionID s1) n1) as HS.
    destruct (stopSession _ n1) as [b n2|e n2|]; [| |done]; left; cbn; by transitivity n1.
Qed.

Lemma RAKP34_sound l : preserves (evolves sound) (RAKP34 l).
Proof.
  intros n. pose proof (RAKP34_cases l n) as HC.
  destruct (RAKP34 l n) as [r n'|e n'|]; [| |done]; intros T; destruct (HC T) as [E|(p & s & _ & _ & E & _)];
    by eapply (evolves_mono tame sound _ _ tame_sound E) || by apply E.
Qed.
End Establish.

(** ** Every event keeps the table *)

(** The two premises of the lemmas above, for [sound] itself. *)
Ltac sound_facts :=
  pose proof tame_sound; assert (forall s s', sound s s' -> sound s s') by auto.

Section Events.
Context `{Crypto, Settings} `{!CryptoLaws _}.
Hypothesis initial_inactive : state initial_info <> State.active.

Section Generic.
Context (R : Session -> Session -> Prop) `{!PreOrder R}.
Hypothesis R_tame : forall s s', tame s s' -> R s s'.
Hypothesis R_sound : forall s s', R s s' -> sound s s'.

Lemma evolves_functor f data h : f <> F_RAKP34 -> preserves (evolves R) (run_functor f data h).
Proof.
  intros Hf. destruct f; cbn [run_functor]; try done;
    solve [by apply evolves_openSession | eauto with preserves].
Qed.

Lemma evolves_other_event e : (forall ch packet, e <> EPacket ch packet) ->
  preserves (evolves R) (run_event e).
Proof.
  intros He. destruct e as [ch packet|call response| | | | | | | |]; cbn [run_event]; [by destruct (He ch packet)|..];
    unfold host_reply, timer_event, consoleInputHandler, procSolConfChange;
    try solve [keeps].
  apply preserves_bind; [exact _|keeps|intros n]. destruct (_ && _); [|keeps].
  apply preserves_bind; [exact _|keeps|intros _]. by apply evolves_cleaner.
Qed.

Lemma evolves_updSessionData h m : preserves (evolves R) (updSessionData h m).
Proof. unfold updSessionData. keeps. Qed.
Lemma evolves_receive h packet : preserves (evolves R) (receive h packet).
Proof. unfold receive. keeps. Qed.
End Generic.

Lemma sound_functor f data h : preserves (evolves sound) (run_functor f data h).
Proof.
  destruct (decide (f = F_RAKP34)) as [->|Hf]; [apply RAKP34_sound|].
  apply evolves_functor; [exact _|exact tame_sound|done|done].
Qed.
#[local] Hint Resolve sound_functor tame_sound : preserves.

Lemma sound_execute c data h : preserves (evolves sound) (executeCommand c data h).
Proof.
  sound_facts. unfold executeCommand, entry_executeCommand, forward. keeps.
Qed.
#[local] Hint Resolve sound_execute evolves_updSessionData evolves_receive : preserves.

Lemma sound_packet ch packet : preserves (evolves sound) (handleRmcpPacket ch packet).
Proof.
  sound_facts.
  unfold handleRmcpPacket, attempt, handler_executeCommand, getCommand. keeps.
Qed.

Lemma sound_step i : preserves (evolves sound) (step i).
Proof.
  sound_facts.
  unfold step. apply preserves_bind; [exact _|keeps|intros _].
  destruct (i_event i) eqn:He; [apply sound_packet|..];
    apply evolves_other_event; (assumption || exact _ || done).
Qed.
End Events.

Lemma Ret_inj {S A} (a b : A) (s t : S) : Ret a s = Ret b t -> a = b /\ s = t.
Proof. intros [= -> ->]. done. Qed.

(** ** Start and reachable states *)
Section Reachable.
Context `{Crypto, Settings} `{!CryptoLaws _}.
Hypothesis initial_inactive : state initial_info <> State.active.

Lemma scan_channels_spec medium chs : forall index (n : Net),
  0 <= index -> 0 <= ipmiNetworkInstance n < maxNetworkInstanceSupported ->
  exists k, scan_channels medium chs index n = Ret tt (n <| ipmiNetworkInstance := k |>) /\
    0 <= k < maxNetworkInstanceSupported.
Proof.
  induction chs as [|ch chs IH]; intros index n Hi Hn; cbn [scan_channels].
  - exists (ipmiNetworkInstance n). split; [by destruct n|done].
  - destruct (Z.ltb_spec index maxNetworkInstanceSupported).
    2: { exists (ipmiNetworkInstance n). split; [by destruct n|done]. }
    destruct (medium ch =? lan8032); [|by apply IH].
    destruct (getInterfaceIndex =? ch).
    + destruct (IH (index + 1) (n <| ipmiNetworkInstance := index |>)) as (k & Hk & Hr);
        [lia|by cbn|]. exists k. by rewrite (bind_Ret _ _ n tt (n <| ipmiNetworkInstance := index |>)).
    + destruct (IH (index + 1) n) as (k & Hk & Hr); [lia|done|]. exists k. by rewrite bind_ret_l.
Qed.

Lemma boot_table_ok u g t n : boot u g t = Ret tt n -> table_ok n.
Proof.
  unfold boot, managerInit. set (n0 := initial_Net u (getSystemGUID g) t).
  destruct (scan_channels_spec (channelMediumType (users n0)) (map Z.of_nat (seq 1 15)) 0 n0)
    as (k & Hk & Hr); [lia|done|].
  rewrite (bind_Ret setNetworkInstance _ n0 tt (n0 <| ipmiNetworkInstance := k |>)) by exact Hk.
  set (n1 := n0 <| ipmiNetworkInstance := k |> <| heap := <[0%nat := new_Session 0 0 0]> ∅ |>
                <| nextObject := 1%nat |> <| sessionsMap := <[0 := 0%nat]> ∅ |>).
  rewrite (bind_Ret (add_session 0 _) _ _ 0%nat n1) by done.
  destruct (same_tables_schedule (3 * 1000 * 1000) n1) as (n2 & H2 & S2 & Hh2 & _).
  rewrite H2. intros [= <-]. apply (table_ok_frame n1); [done..|].
  assert (forall i x, sessionHandleMap n1 !! i = Some x -> x = 0) as Hzero.
  { intros i x Hx. apply lookup_replicate in Hx as [-> _]. done. }
  constructor; cbn -[lookup].
  - exact Hr.
  - reflexivity.
  - intros p Hp. rewrite lookup_insert_ne by lia. apply lookup_empty.
  - intros p s Hs. apply lookup_insert_Some in Hs as [[_ <-]|[_ Hs]].
    + constructor; [done|by split|by intros ?].
    + by rewrite lookup_empty in Hs.
  - exists 0%nat. apply lookup_insert_eq.
  - intros id p Hp. apply lookup_insert_Some in Hp as [[<- <-]|[_ Hp]].
    + eexists. split; [apply lookup_insert_eq|]. by split.
    + by rewrite lookup_empty in Hp.
  - intros i id _ Hi Hz. destruct Hz. by apply (Hzero i).
  - intros i j id _ _ Hi _ Hz. destruct Hz. by apply (Hzero i).
Qed.

Lemma reachable_table_ok u g t n : reachable u g t n -> table_ok n.
Proof.
  induction 1 as [n Hb|n i n' _ IH Hs]; [by eapply boot_table_ok|].
  apply (preserves_Ret (evolves sound)) in Hs; [by apply Hs|by apply sound_step].
Qed.

(** C12. In every state the daemon reaches, the
    session table is well formed: at most 63 entries; every session but session
    zero is stored under its own nonzero id, whose two top bits are the network
    instance; it owns exactly one of the slots 1 to 62, its handle is the
    instance and that slot, and looking the handle up finds the session; an
    active session has integrity and confidentiality keys. *)
Theorem reachable_sessions_wellformed u g t n :
  reachable u g t n ->
  (size (sessionsMap n) <= 63)%nat /\
  forall id p, sessionsMap n !! id = Some p -> id <> sessionZero ->
    exists s i, heap n !! p = Some s /\ s_bmcSessionID s = id /\
      id / 2 ^ 30 = ipmiNetworkInstance n /\ 0 < id < 2 ^ 32 /\
      (1 <= i <= 62)%nat /\ (forall j, (1 <= j)%nat -> sessionHandleMap n !! j = Some id <-> j = i) /\
      sessionHandle (info s) = 64 * ipmiNetworkInstance n + Z.of_nat i /\
      getSessionIDbyHandle (Z.land (sessionHandle (info s)) multiIntfaceSessionHandleMask) n = Ret id n /\
      (active_session s -> keyed s /\ keys_ok s).
Proof.
  intros Hreach. pose proof (reachable_table_ok _ _ _ _ Hreach) as T.
  split; [by apply table_size|]. intros id p Hp Hz.
  destruct (t_table n T _ _ Hp) as (s & Hs & Hid & Hreg). unfold sessionZero in Hz.
  destruct (Hreg Hz) as (Hr & Hi & i & Hib & Hl & Hh). rewrite Hid in *.
  change maxSessionHandles with 63%nat in Hib. exists s, i. unfold u32_range in Hr.
  split; [done|]. split; [done|]. split; [done|]. split; [lia|]. split; [lia|].
  split; [|split; [done|split]].
  - intros j Hj. split; [|by intros ->]. intros Hlj. apply (t_unique n T j i id); done || lia.
  - rewrite Hh. unfold multiIntfaceSessionHandleMask. change 0x3F with (2 ^ 6 - 1).
    rewrite land_mask by lia. change (2 ^ 6) with 64.
    replace ((64 * ipmiNetworkInstance n + Z.of_nat i) mod 64) with (Z.of_nat i)
      by (Z.to_euclidean_division_equations; lia).
    unfold getSessionIDbyHandle, bind, get. change (Z.of_nat maxSessionHandles) with 63.
    rewrite (proj2 (Z.ltb_lt _ _)) by lia. unfold idx. by rewrite Nat2Z.id, Hl.
  - intros Ha. destruct (t_objects n T _ _ Hs) as [_ K V]. split; [by apply V|done].
Qed.
End Reachable.

(** ** The theorems on the sample run *)
Section SampleRun.
Abbreviation sample_reachable := (reachable sample_users None 1000).

Lemma sample_inactive : state initial_info <> State.active.
Proof. discriminate. Defined.

Lemma reachable_after n t packet :
  sample_reachable n ->
  (if step (packet_input t packet) n is Ret _ _ then true else false) = true ->
  sample_reachable (after n t packet).
Proof.
  intros Hn Hs. apply (reachable_step _ _ _ n (packet_input t packet)); [exact Hn|].
  unfold after. destruct (step (packet_input t packet) n) as [[] n'| |]; done.
Defined.

Lemma booted_reachable : sample_reachable booted.
Proof. apply reachable_boot. vm_compute. reflexivity. Defined.
Lemma opened_reachable : sample_reachable opened.
Proof. apply reachable_after; [exact booted_reachable|]. vm_compute. reflexivity. Defined.
Lemma challenged_reachable : sample_reachable challenged.
Proof. apply reachable_after; [exact opened_reachable|]. vm_compute. reflexivity. Defined.
Lemma established_reachable : sample_reachable established.
Proof. apply reachable_after; [exact challenged_reachable|]. vm_compute. reflexivity. Defined.

Lemma challenged_ok : table_ok challenged.
Proof. exact (reachable_table_ok sample_inactive _ _ _ _ challenged_reachable). Defined.
Lemma established_ok : table_ok established.
Proof. exact (reachable_table_ok sample_inactive _ _ _ _ established_reachable). Defined.

Lemma grace_bounds_witness : exists activeGrace setupGrace,
  graces established established = Ret (activeGrace, setupGrace) established /\
  activeGrace = 60000000 /\ setupGrace = 3000000.
Proof.
  destruct (grace_bounds established established_ok) as (ag & sg & Hg & _ & _ & Ha & Hs).
  exists ag, sg. split; [exact Hg|]. split.
  - apply Ha. vm_compute. discriminate.
  - apply Hs. vm_compute. discriminate.
Defined.

(** A minute later the session is gone. *)
Definition idle : Net := established <| now := 60004001 |>.
Lemma later_ok n t : table_ok n -> table_ok (n <| now := t |>).
Proof. by apply table_ok_frame. Defined.
Lemma idle_ok : table_ok idle.
Proof. exact (later_ok established 60004001 established_ok). Defined.

Lemma cleaner_removes_exactly_stale_witness : exists n',
  cleanStaleEntries idle = Ret tt n' /\ sessionsMap n' !! opened_id = None /\
  sessionHandleMap n' !! 1%nat = Some 0.
Proof.
  destruct (cleaner_removes_exactly_stale idle idle_ok) as (ag & sg & n' & Hg & Hc & _ & _ & Hm & Hslot).
  exists n'. split; [exact Hc|].
  assert (sessionsMap n' !! opened_id = None) as Hgone.
  { destruct (sessionsMap n' !! opened_id) as [p|] eqn:Hp; [|reflexivity]. exfalso.
    apply Hm in Hp as [Hp [Hz|(s & Hs & Ha)]]; [discriminate Hz|].
    assert (sessionsMap idle !! opened_id = Some 1%nat) as Hp1 by (vm_compute; reflexivity).
    rewrite Hp1 in Hp. apply (inj Some) in Hp. subst p.
    assert (heap idle !! 1%nat = Some (sample_session established)) as Hs1 by (vm_compute; reflexivity).
    rewrite Hs1 in Hs. apply (inj Some) in Hs. subst s.
    assert (graces idle idle = Ret (60000000, 3000000) idle) as Hg1 by (vm_compute; reflexivity).
    rewrite Hg1 in Hg. apply Ret_inj in Hg as [Hg _]. apply pair_equal_spec in Hg as [<- <-].
    revert Ha. vm_compute. discriminate. }
  split; [exact Hgone|].
  rewrite (Hslot 1%nat opened_id); [|lia|vm_compute; reflexivity]. rewrite Hgone. reflexivity.
Defined.

Lemma reachable_sessions_wellformed_witness : exists s i,
  heap established !! 1%nat = Some s /\ s_bmcSessionID s = opened_id /\ (1 <= i <= 62)%nat /\
  sessionHandleMap established !! i = Some opened_id /\ keyed s.
Proof.
  destruct (proj2 (reachable_sessions_wellformed sample_inactive sample_users None 1000 established
                     established_reachable) opened_id 1%nat) as (s & i & Hs & Hid & _ & _ & Hi & Hslot & _ & _ & Hk).
  - vm_compute. reflexivity.
  - discriminate.
  - exists s, i. split; [exact Hs|]. split; [exact Hid|]. split; [exact Hi|].
    split; [exact (proj2 (Hslot i (proj1 Hi)) eq_refl)|].
    apply Hk.
    assert (heap established !! 1%nat = Some (sample_session established)) as Hs1
      by (vm_compute; reflexivity).
    rewrite Hs1 in Hs. apply (inj Some) in Hs. subst s. vm_compute. reflexivity.
Defined.
End SampleRun.
