(* ===== verification/RmcpSetupSpec.v ===== *)
(** * Properties of the session setup

    What activates a session, what an active session accepts, the handshake
    from both sides, and the privilege a session can reach. *)
From Stdlib Require Import ZArith Lia String.
From stdpp Require Import base list gmap.
From S2P Require Import Prelude RmcpMessage RmcpCrypto RmcpState RmcpSession RmcpParser RmcpHandler.
From S2P Require Import Sol RmcpSetup RmcpCommands RmcpDaemon RmcpSample RmcpParserSpec.
From S2P Require Import RmcpSessionSpec.
Local Open Scope Z_scope.

(** ** Outcomes *)

(** [osat P o]: whatever the outcome, the state it leaves satisfies [P]. *)
Definition osat {S A} (P : S -> Prop) (o : outcome S A) : Prop :=
  match o with Ret _ s | Throw _ s => P s | Undef _ => True end.

Lemma osat_bind {S A B} (P : S -> Prop) (m : M S A) (k : A -> M S B) s :
  (forall a s1, m s = Ret a s1 -> osat P (k a s1)) ->
  (forall e s1, m s = Throw e s1 -> P s1) -> osat P (bind m k s).
Proof.
  intros Hr Ht. unfold bind. destruct (m s) as [a s1|e s1|]; [by apply Hr|by eapply Ht|done].
Qed.

Lemma osat_preserves {S A} (R : S -> S -> Prop) (m : M S A) s :
  preserves R m -> osat (R s) (m s).
Proof. intros Hm. exact (Hm s). Qed.

Lemma osat_mono {S A} (P Q : S -> Prop) (o : outcome S A) :
  (forall s, P s -> Q s) -> osat P o -> osat Q o.
Proof. intros Hi. destruct o; cbn; auto. Qed.

(** ** Computations that leave the daemon as it is *)
Definition unchanged (n n' : Net) : Prop := n' = n.
#[export] Instance unchanged_preorder : PreOrder unchanged.
Proof. split; [by intros n|]. unfold unchanged. intros ???; congruence. Qed.

Section Unchanged.
Context `{Crypto, Settings}.

Lemma stateless_unchanged {A} (m : M Net A) : stateless m -> preserves unchanged m.
Proof.
  intros Hm n. specialize (Hm n n). destruct (m n); [by destruct Hm..|done].
Qed.
Lemma unchanged_obj p : preserves unchanged (obj p).
Proof. intros n. unfold obj. by destruct (heap n !! p). Qed.
Lemma unchanged_getSession id : preserves unchanged (getSession id).
Proof. intros n. unfold getSession, bind, get. by destruct (sessionsMap n !! id). Qed.
#[local] Hint Resolve unchanged_obj unchanged_getSession : preserves.

Lemma unchanged_unflatten packet : preserves unchanged (parser.unflatten packet).
Proof.
  pose proof (fun len s => stateless_unchanged _ (stateless_verify packet len s)).
  pose proof (fun len s => stateless_unchanged _ (stateless_decrypt packet len s)).
  pose proof (stateless_unchanged _ (stateless_ipmi15 packet)).
  unfold parser.unflatten, asfparser.unflatten, ipmi20parser.unflatten, rd8, rd16, rd32.
  preserve_with idtac.
Qed.

(** A received payload is made of bytes. *)
Lemma resize_bytes k l : bytes l -> bytes (resize k l).
Proof.
  intros Hl. unfold resize. apply bytes_app. split; [by apply Forall_take|].
  apply Forall_replicate. unfold is_byte. lia.
Qed.

Lemma decrypt_bytes_inv `{!CryptoLaws _} k2 packet h len (n n' : Net) pl :
  aes_decryptPayload k2 packet h len n = Ret pl n' -> bytes pl.
Proof.
  intros Hd. unfold aes_decryptPayload in Hd. destruct (_ || _); [discriminate|].
  apply bind_inv in Hd as (iv & n1 & _ & Hd). apply bind_inv in Hd as (inp & n2 & _ & Hd).
  apply bind_inv in Hd as (x & n3 & Hx & Hd). apply bind_inv in Hd as (c & n4 & _ & Hd).
  apply bind_inv in Hd as (ok & n5 & _ & Hd). destruct ok; [|discriminate].
  injection Hd as <- _. apply resize_bytes.
  unfold decryptData in Hx. apply bind_inv in Hx as (k & n6 & _ & Hx).
  destruct (aes_cbc_decrypt k iv inp) as [o|] eqn:Ho; [|discriminate].
  injection Hx as <- _. by eapply decrypt_bytes.
Qed.

Lemma unflatten_bytes `{!CryptoLaws _} packet (n n' : Net) m h :
  bytes packet -> parser.unflatten packet n = Ret (m, h) n' -> bytes (payload m).
Proof.
  intros Hb Hu. unfold parser.unflatten in Hu. destruct (_ <? _); [discriminate|].
  apply bind_inv in Hu as (v & n1 & _ & Hu). apply bind_inv in Hu as (sq & n2 & _ & Hu).
  apply bind_inv in Hu as (c & n3 & _ & Hu). destruct (_ || _); [discriminate|].
  destruct (c =? ClassOfMsg.ASF).
  { destruct RMCP_PING; [|discriminate]. apply bind_inv in Hu as (m1 & n4 & Hr & Hu).
    injection Hu as <- _ _. apply bind_inv in Hr as (tag & n5 & _ & Hr). injection Hr as <- _.
    constructor. }
  apply bind_inv in Hu as (ft & n4 & _ & Hu).
  destruct (ft =? session_header_byte IPMI15).
  - apply bind_inv in Hu as (m1 & n5 & Hr & Hu). injection Hu as <- _ _.
    unfold ipmi15parser.unflatten in Hr. destruct (_ <? _); [discriminate|].
    apply bind_inv in Hr as (sid & n6 & _ & Hr). destruct (negb _); [discriminate|].
    apply bind_inv in Hr as (s & n7 & _ & Hr). apply bind_inv in Hr as (cls & n8 & _ & Hr).
    apply bind_inv in Hr as (len & n9 & _ & Hr). destruct (_ || _); [discriminate|].
    apply bind_inv in Hr as (pl & n10 & Hp & Hr). injection Hr as <- _. cbn [payload].
    unfold read_range in Hp. destruct (_ <=? _); [|discriminate]. injection Hp as <- _.
    by apply Forall_take, Forall_drop.
  - destruct (ft =? session_header_byte IPMI20); [|discriminate].
    apply bind_inv in Hu as (m1 & n5 & Hr & Hu). injection Hu as <- _ _.
    apply unflatten20_inv in Hr as (pt & sid & sq' & cls & len & p & s & _ & _ & _ & _ & _ & Hc).
    unfold checked_payload in Hc. destruct (_ || _); [discriminate|].
    destruct (_ && _); [discriminate|]. apply bind_inv in Hc as (i & n6 & _ & Hc).
    destruct (negb i); [discriminate|]. destruct (negb _).
    + apply bind_inv in Hc as (k2 & n7 & _ & Hc). by eapply decrypt_bytes_inv.
    + unfold read_range in Hc. destruct (_ <=? _); [|discriminate]. injection Hc as <- _.
      by apply Forall_take, Forall_drop.
Qed.
End Unchanged.

(** ** What activates a session *)
Section Activation.
Context `{Crypto, Settings} `{!CryptoLaws _}.
Hypothesis initial_inactive : state initial_info <> State.active.

(** What the proof of the console depends on. *)
Definition same_proof (s s' : Session) : Prop :=
  authAlgoInterface s' = authAlgoInterface s /\
  remoteConsoleSessionID s' = remoteConsoleSessionID s /\
  reqMaxPrivLevel s' = reqMaxPrivLevel s /\ userName s' = userName s /\
  s_bmcSessionID s' = s_bmcSessionID s.

#[local] Instance same_proof_preorder : PreOrder same_proof.
Proof. split; [by intros s|]. unfold same_proof. intros ???; intuition congruence. Qed.
#[local] Instance heap_evolves_preorder : PreOrder (heap_evolves same_proof).
Proof.
  split; [intros n p s Hs; by exists s|]. intros n1 n2 n3 H12 H23 p s Hs.
  destruct (H12 _ _ Hs) as (s2 & Hs2 & R12). destruct (H23 _ _ Hs2) as (s3 & Hs3 & R23).
  exists s3. split; [done|by transitivity s2].
Qed.

Lemma proves_key_same l s s' : same_proof s s' -> proves_key l s' -> proves_key l s.
Proof.
  intros (Ha & Hr & Hp & Hu & Hi) (a & r & H1 & H2 & H3 & H4).
  exists a, r. rewrite <- Ha, <- Hr, <- Hp, <- Hu, <- Hi. auto.
Qed.

Definition quietly (n n' : Net) : Prop := evolves tame n n' /\ heap_evolves same_proof n n'.

Lemma quietly_frame n n' : same_tables n n' -> heap n' = heap n -> quietly n n'.
Proof.
  intros Ht Hh. split; [apply evolves_frame; (exact _ || exact tame_sound || done)|].
  intros p s Hs. exists s. by rewrite Hh.
Qed.

Lemma proof_alter p f :
  (forall s, same_proof s (f s)) -> preserves (heap_evolves same_proof) (on_obj p f).
Proof.
  intros Hf n q s Hs. cbn. destruct (decide (q = p)) as [->|Hne].
  - rewrite lookup_alter_eq, Hs. cbn. eauto.
  - rewrite lookup_alter_ne by done. by exists s.
Qed.

Lemma quietly_updSessionData h m n : osat (quietly n) (updSessionData h m n).
Proof.
  assert (preserves (evolves tame) (updSessionData h m)) as H1
    by (apply evolves_updSessionData; (exact _ || exact tame_sound || done)).
  assert (preserves (heap_evolves same_proof) (updSessionData h m)) as H2.
  { unfold updSessionData, getSession, updateLastTransactionTime, on_info.
    preserve_with ltac:(idtac; first
      [ apply proof_alter; by intros
      | intros n'; unfold obj; destruct (heap n' !! _); cbn; reflexivity ]). }
  specialize (H1 n). specialize (H2 n). unfold osat, quietly. destruct (updSessionData h m n); auto.
Qed.

(** [n'] is [n] with at most one session activated, by a message of [D]. *)
Definition explained (D : list Z -> Prop) (n n' : Net) : Prop :=
  table_ok n -> evolves tame n n' \/
  exists n1 n2 p s data, quietly n n1 /\ D data /\ enrolled n1 p s /\ proves_key data s /\
    evolves_at p n1 n2 /\ evolves tame n2 n'.

Lemma explained_tame D n n' : evolves tame n n' -> explained D n n'.
Proof. by left. Qed.
Lemma explained_pre D n n1 n' : quietly n n1 -> explained D n1 n' -> explained D n n'.
Proof.
  intros [E S] Hx T. destruct (Hx (proj1 (E T))) as [E'|(n2 & n3 & p & s & d & [E2 S2] & Hr)].
  - left. by transitivity n1.
  - right. exists n2, n3, p, s, d. split; [|done]. split; [by transitivity n1|by transitivity n1].
Qed.
Lemma explained_post D n n1 n' : explained D n n1 -> evolves tame n1 n' -> explained D n n'.
Proof.
  intros Hx E T. destruct (Hx T) as [E'|(n2 & n3 & p & s & d & H1 & H2 & H3 & H4 & H5 & H6)].
  - left. by transitivity n1.
  - right. exists n2, n3, p, s, d. split_and!; try done. by transitivity n1.
Qed.

(** A session becomes active only by a proof of the key. *)
Lemma explained_activation D n n' p s s' :
  table_ok n -> explained D n n' -> heap n !! p = Some s -> heap n' !! p = Some s' ->
  active_session s' -> ~ active_session s -> exists data, D data /\ proves_key data s.
Proof.
  intros T Hx Hs Hs' Ha' Ha. assert (forall m m' r r' q, evolves tame m m' -> table_ok m ->
    heap m !! q = Some r -> heap m' !! q = Some r' -> active_session r' -> active_session r) as Htame.
  { intros m m' r r' q E Tm Hr Hr' Har. destruct (proj2 (E Tm) _ _ Hr) as (r2 & Hr2 & _ & _ & _ & Hact).
    rewrite Hr2 in Hr'. injection Hr' as ->. auto. }
  destruct (Hx T) as [E|(n1 & n2 & q & r & d & [E1 S1] & Hd & (Hr & _) & Hp & [E2 O2] & E3)].
  - destruct Ha. by eapply Htame.
  - exists d. split; [done|]. destruct (E1 T) as [T1 HE1]. destruct (E2 T1) as [T2 HE2].
    destruct (HE1 _ _ Hs) as (s1 & Hs1 & _). destruct (HE2 _ _ Hs1) as (s2 & Hs2 & _).
    assert (active_session s2) as Ha2 by (by eapply Htame).
    destruct (S1 _ _ Hs) as (s1' & Hs1' & Hsp). rewrite Hs1 in Hs1'. injection Hs1' as <-.
    destruct (decide (p = q)) as [->|Hne].
    + rewrite Hs1 in Hr. injection Hr as ->. by eapply proves_key_same.
    + rewrite (O2 _ Hne), Hs1 in Hs2. injection Hs2 as ->. destruct Ha. by eapply (Htame n n1).
Qed.

(** RAKP message 3 has one command number. *)
Definition rakp3_command : Z := payload_command PayloadType.RAKP3.
Lemma rakp34_command c e :
  commandTable !! c = Some e -> e_functor e = F_RAKP34 -> c = rakp3_command.
Proof.
  intros Hc Hf. apply elem_of_map_to_list in Hc.
  assert (Forall (fun ce => e_functor ce.2 = F_RAKP34 -> ce.1 = rakp3_command)
            (map_to_list commandTable)) as Hall.
  { apply (bool_decide_unpack _). vm_compute. reflexivity. }
  rewrite Forall_forall in Hall. by apply (Hall (c, e)).
Qed.

Lemma tame_attempt {A} (m : M Net A) : preserves (evolves tame) m -> preserves (evolves tame) (attempt m).
Proof. intros Hm. unfold attempt. preserve_with ltac:(exact Hm). Qed.

Lemma explained_execute c data h n :
  osat (explained (fun d => d = data /\ c = rakp3_command) n) (executeCommand c data h n).
Proof.
  pose proof tame_sound. assert (forall s s', tame s s' -> tame s s') by auto.
  unfold executeCommand. destruct (commandTable !! c) as [e|] eqn:Hc.
  2: { eapply osat_mono; [intros ?; apply explained_tame|]. apply osat_preserves.
       clear Hc. unfold forward. keeps. }
  assert (e_functor e = F_RAKP34 -> c = rakp3_command) as Hrk by exact (rakp34_command c e Hc).
  clear Hc. apply osat_bind.
  2: { intros e1 n1. destruct (_ =? _); [discriminate|]. intros Ht. apply explained_tame.
       assert (preserves unchanged (let! p := getSession (h_sessionID h) in let! session := obj p in
         ret ((state (info session) =? State.setupInProgress) || (state (info session) =? State.active)))) as Hu.
       { preserve_with ltac:(first [apply unchanged_getSession | apply unchanged_obj]). }
       specialize (Hu n). rewrite Ht in Hu. unfold unchanged in Hu. by subst n1. }
  intros open n1 Ho. assert (n1 = n) as ->.
  { destruct (_ =? _); [by injection Ho as _ ->|].
    apply bind_inv in Ho as (p & n2 & Hp & Ho). apply getSession_inv in Hp as [-> _].
    apply bind_inv in Ho as (s & n2 & Hs & Ho). apply obj_inv in Hs as [-> _].
    by injection Ho as _ ->. }
  destruct (negb open); [apply explained_tame; reflexivity|].
  assert (osat (explained (fun d => d = data /\ c = rakp3_command) n) (entry_executeCommand e data h n)) as Hx.
  { unfold entry_executeCommand. destruct (_ && _); [apply explained_tame; reflexivity|].
    destruct (decide (e_functor e = F_RAKP34)) as [Hf|Hf].
    - rewrite Hf. cbn [run_functor]. pose proof (RAKP34_cases data n) as HR.
      destruct (RAKP34 data n) as [r n'|e1 n'|]; [| |done]; intros T; (destruct (HR T) as
        [E|(p & s & Hen & Hp & E)]; [by left|right]); exists n, n', p, s, data;
        (split; [by apply quietly_frame|]); (split; [split; [done|by apply Hrk]|]);
        (split; [done|]); (split; [done|]); (split; [done|reflexivity]).
    - eapply osat_mono; [intros ?; apply explained_tame|]. apply osat_preserves.
      apply evolves_functor; (assumption || exact _). }
  apply osat_bind; intros r n1 Hr; rewrite Hr in Hx; exact Hx.
Qed.

Lemma rakp3_payload (m : Message) (n n' : Net) :
  bytes (payload m) -> getCommand m n = Ret rakp3_command n' ->
  payloadType m = PayloadType.RAKP3.
Proof.
  intros Hb Hg. unfold getCommand in Hg.
  destruct (Z.eqb_spec (payloadType m) PayloadType.IPMI) as [Ht|Ht].
  - exfalso. apply bind_inv in Hg as (netfn & n1 & H1 & Hg). apply rd8_inv in H1 as [_ H1].
    apply bind_inv in Hg as (cmd & n2 & H2 & Hg). apply rd8_inv in H2 as [_ H2].
    injection Hg as Hg _. apply (Forall_lookup_1 _ _ _ _ Hb) in H1, H2. unfold is_byte in *.
    rewrite Ht in Hg. change (Z.shiftl PayloadType.IPMI 16) with 0 in Hg. rewrite Z.lor_0_l in Hg.
    rewrite lor_shiftl_add in Hg by (change (2 ^ 8) with 256; lia).
    change (2 ^ 8) with 256 in Hg. change rakp3_command with 1310720 in Hg. lia.
  - injection Hg as Hg _. rewrite Z.shiftl_mul_pow2 in Hg by lia.
    change (2 ^ 16) with 65536 in Hg. change rakp3_command with 1310720 in Hg.
    change PayloadType.RAKP3 with 20. lia.
Qed.

Lemma explained_handler h m n :
  inMessage h = Some m -> bytes (payload m) ->
  osat (explained (fun d => d = payload m /\ payloadType m = PayloadType.RAKP3) n)
       (handler_executeCommand h n).
Proof.
  intros Hm Hb. unfold handler_executeCommand. rewrite Hm. cbn [deref of_option].
  rewrite bind_ret_l. apply osat_bind.
  2: { intros e n1. unfold getCommand, rd8, idx, bind, ret, of_option, undef.
       destruct (_ =? _); [|done].
       destruct (payload m !! 1%nat); [|done]. by destruct (payload m !! 5%nat). }
  intros c n1 Hc. assert (n1 = n) as ->.
  { unfold getCommand, rd8, idx, bind, ret, of_option, undef in Hc.
    destruct (_ =? _); [|by injection Hc as _ ->].
    destruct (payload m !! 1%nat); [|done]. destruct (payload m !! 5%nat); [|done].
    by injection Hc as _ ->. }
  destruct (Z.eqb_spec (payloadType m) PayloadType.IPMI) as [Ht|Ht].
  - (* an IPMI payload never carries message 3 *)
    assert (c = rakp3_command -> False) as Hne.
    { intros ->. pose proof (rakp3_payload m n n Hb Hc) as Hr. rewrite Ht in Hr. discriminate. }
    apply osat_bind; intros x n2 Hx.
    + assert (n2 = n) as ->.
      { destruct (_ =? _); [by injection Hx as _ ->|].
        apply bind_inv in Hx as (p & n3 & Hp & Hx). unfold deref, of_option in Hp.
        destruct (h_session h); [|discriminate]. injection Hp as _ <-.
        apply bind_inv in Hx as (s & n3 & Hs & Hx). apply obj_inv in Hs as [-> _].
        by injection Hx as _ ->. }
      destruct x; [|apply explained_tame; reflexivity].
      destruct (_ <? _); [apply explained_tame; reflexivity|].
      eapply osat_mono; [|apply explained_execute]. intros n' Hx' T.
      destruct (Hx' T) as [E|(n3 & n4 & p & s & d & _ & [_ Hd] & _)]; [by left|]. by destruct Hne.
    + destruct (_ =? _); [discriminate|]. unfold bind, deref, of_option in Hx.
      destruct (h_session h) as [p|]; [|discriminate]. cbn in Hx.
      unfold obj, deref, of_option in Hx. by destruct (heap n !! p).
  - eapply osat_mono; [|apply explained_execute]. intros n' Hx T.
    destruct (Hx T) as [E|(n3 & n4 & p & s & d & Hq & [-> Hcr] & Hr)]; [by left|right].
    exists n3, n4, p, s, (payload m). split; [done|]. split; [|done].
    split; [done|]. apply (rakp3_payload m n n Hb). by rewrite <- Hcr.
Qed.

Definition carries_rakp3 (packet : list Z) (n : Net) (d : list Z) : Prop :=
  exists m h, parser.unflatten packet n = Ret (m, h) n /\
    payloadType m = PayloadType.RAKP3 /\ d = payload m.

Lemma explained_destroy D h n n1 : explained D n n1 -> osat (explained D n) (destroy h n1).
Proof.
  intros Hx. eapply osat_mono; [intros n'; by apply explained_post|].
  apply (osat_preserves (evolves tame)). apply evolves_destroy; (exact _ || exact tame_sound || done).
Qed.

Lemma explained_packet ch packet n :
  bytes packet -> osat (explained (carries_rakp3 packet n) n) (handleRmcpPacket ch (Some packet) n).
Proof.
  intros Hb. assert (forall n', n' = n -> explained (carries_rakp3 packet n) n n') as Hrefl
    by (intros ? ->; apply explained_tame; reflexivity).
  pose proof (unchanged_unflatten packet n) as Hu.
  unfold handleRmcpPacket. unfold bind at 1, attempt at 1, try, receive, bind at 1 2.
  destruct (parser.unflatten packet n) as [[m hd] n1|e n1|] eqn:Hun; [| |done]; unfold unchanged in Hu; subst n1.
  2: { cbn. by apply explained_destroy, Hrefl. }
  cbn [fst snd ret]. set (h := (receive_Handler ch) <| inMessage := Some m |> <| sessionHeader := hd |>).
  change (osat (explained (carries_rakp3 packet n) n) ((let! m0 := deref (inMessage h) in
    if RMCP_PING && (ClassOfMsg.ASF =? rmcpMsgClass m0) then destroy h
    else let! r := attempt (let! h0 := updSessionData h m0 in handler_executeCommand h0) in
      match r with inl _ => destroy h | inr (h0, waits) => if waits then ret tt else destroy h0 end) n)).
  change (inMessage h) with (Some m). cbn [deref of_option]. rewrite bind_ret_l.
  destruct (RMCP_PING && _); [by apply explained_destroy, Hrefl|].
  pose proof (unflatten_bytes _ _ _ _ _ Hb Hun) as Hpb.
  assert (osat (explained (carries_rakp3 packet n) n)
            ((let! h0 := updSessionData h m in handler_executeCommand h0) n)) as Hcore.
  { pose proof (quietly_updSessionData h m n) as Hq. apply osat_bind; intros h1 n1 Hup; rewrite Hup in Hq.
    - assert (exists m1, inMessage h1 = Some m1 /\ payload m1 = payload m /\
                payloadType m1 = payloadType m) as (m1 & Hm1 & Hpl & Hpt).
      { unfold updSessionData in Hup. apply bind_inv in Hup as (p & n2 & _ & Hup).
        apply bind_inv in Hup as (s & n3 & _ & Hup). apply bind_inv in Hup as (u1 & n4 & _ & Hup).
        apply bind_inv in Hup as (u2 & n5 & _ & Hup). apply bind_inv in Hup as (c & n6 & _ & Hup).
        apply bind_inv in Hup as (u3 & n7 & _ & Hup). injection Hup as <- _. eexists. by split_and!. }
      eapply osat_mono; [|apply explained_handler; [exact Hm1|by rewrite Hpl]].
      intros n' Hx. apply (explained_pre _ _ n1); [exact Hq|]. intros T.
      destruct (Hx T) as [E|(n2 & n3 & p & s & d & Hq' & [-> Ht] & Hr)]; [by left|right].
      exists n2, n3, p, s, (payload m1). split; [done|]. split; [|done].
      exists m, hd. by rewrite Hpl, <- Hpt.
    - apply explained_tame. apply Hq. }
  unfold bind at 1, attempt, try. unfold bind at 1.
  destruct ((let! h0 := updSessionData h m in handler_executeCommand h0) n) as [[h1 waits] n1|e n1|]; [| |done]; cbn.
  - destruct waits; [exact Hcore|by apply explained_destroy].
  - by apply explained_destroy.
Qed.

(** The daemon when the event of [i] is handled. *)
Definition arrive (i : Input) (n : Net) : Net :=
  n <| now := Z.max (now n) (i_time i) |> <| answers := i_answers i |> <| writeResults := i_writes i |>.

(** C3. No session becomes active without proof of the
    user's key: if a session is active after an event and was not before, the
    event is a packet that parses as RAKP message 3, names this session, and
    ends in the MAC, under the user key stored in the session, of the random
    challenge this daemon drew for it, the console's session id, the role and
    the user name. *)
Theorem activation_requires_proof n i n' p s s' :
  table_ok n -> step i n = Ret tt n' ->
  (forall ch packet, i_event i = EPacket ch (Some packet) -> bytes packet) ->
  heap n !! p = Some s -> heap n' !! p = Some s' -> active_session s' -> ~ active_session s ->
  exists ch packet m h, i_event i = EPacket ch (Some packet) /\
    parser.unflatten packet (arrive i n) = Ret (m, h) (arrive i n) /\
    payloadType m = PayloadType.RAKP3 /\ proves_key (payload m) s.
Proof.
  intros T Hst Hb Hs Hs' Ha' Ha. set (n0 := arrive i n).
  assert (quietly n n0) as Hq by by apply quietly_frame.
  assert (run_event (i_event i) n0 = Ret tt n') as Hrun by exact Hst.
  assert (evolves tame n0 n' -> False) as Hno.
  { intros E. destruct (explained_activation (fun _ => False) n n' p s s' T) as (? & [] & _); try done.
    apply (explained_pre _ _ n0); [done|by apply explained_tame]. }
  assert (forall e, i_event i = e -> (forall ch packet, e <> EPacket ch packet) -> False) as Hother.
  { intros e He Hne. apply Hno. rewrite He in Hrun.
    apply (preserves_Ret (evolves tame)) in Hrun; [done|].
    apply evolves_other_event; (assumption || exact _ || exact tame_sound || auto). }
  destruct (i_event i) as [ch [packet|]| | | | | | | | |] eqn:He; 
    try (exfalso; by apply (Hother _ eq_refl)).
  2: { destruct Hno. change (destroy (receive_Handler ch) n0 = Ret tt n') in Hrun.
       apply (preserves_Ret (evolves tame)) in Hrun; [done|].
       apply evolves_destroy; (exact _ || exact tame_sound || auto). }
  pose proof (explained_packet ch packet n0 (Hb _ _ eq_refl)) as Hx. cbn [run_event] in Hrun.
  rewrite Hrun in Hx. cbn [osat] in Hx.
  destruct (explained_activation _ n n' p s s' T (explained_pre _ _ _ _ Hq Hx) Hs Hs' Ha' Ha)
    as (d & (m & h & Hu & Ht & ->) & Hp).
  exists ch, packet, m, h. by split_and!.
Qed.
End Activation.

(** ** What an active session accepts *)
Section Accepting.
Context `{Crypto, Settings} `{!CryptoLaws _}.

(** C7. In every reachable state, a packet that is
    accepted for an active session is an RMCP+ packet, ends in the MAC of
    everything before it but the RMCP header, under the session's integrity
    key, and is marked as encrypted; parsing it changes nothing. *)
Theorem active_sessions_are_protected u g t n n' packet m h p s :
  state initial_info <> State.active -> reachable u g t n ->
  parser.unflatten packet n = Ret (m, h) n' -> bytes packet -> rmcpMsgClass m <> ClassOfMsg.ASF ->
  sessionsMap n !! bmcSessionID m = Some p -> heap n !! p = Some s -> active_session s ->
  n' = n /\ h = IPMI20 /\ isPacketEncrypted m = Some true /\
  exists i k2, integrityAlgoInterface s = Some i /\ cryptAlgoInterface s = Some k2 /\
    authentic i packet.
Proof.
  intros Hi Hr Hu Hb Hc Hp Hs Ha. pose proof (reachable_table_ok Hi _ _ _ _ Hr) as T.
  destruct (accepted_packet _ _ _ _ _ Hu Hb Hc) as [-> Hacc].
  destruct (t_table n T _ _ Hp) as (s' & Hs' & Hid & _). rewrite Hs in Hs'. injection Hs' as <-.
  destruct (oo_active s (t_objects n T _ _ Hs) Ha) as [Hz [[i Hint] [k2 Hcr]]].
  destruct h; [unfold sessionZero in Hacc; congruence|]. destruct Hacc as (q & r & Hq & Hr' & Hprot).
  rewrite Hp in Hq. injection Hq as <-. rewrite Hs in Hr'. injection Hr' as <-.
  destruct Hprot as [Hauth Henc]; [unfold sessionZero; congruence|].
  split_and!; [done|done|by apply Henc|]. exists i, k2. auto.
Qed.
End Accepting.

(** ** The key exchange, from both sides *)

(** The state in which object [p] is [s]. *)
Definition set_obj (p : nat) (s : Session) (n : Net) : Net := n <| heap := <[p:=s]> (heap n) |>.

Section SetObj.
Context `{Crypto}.
Lemma set_obj_self p s n : heap n !! p = Some s -> n = set_obj p s n.
Proof. intros Hs. unfold set_obj. rewrite insert_id by done. by destruct n. Qed.
Lemma obj_set p s n : obj p (set_obj p s n) = Ret s (set_obj p s n).
Proof. apply obj_Ret. cbn. apply lookup_insert_eq. Qed.
Lemma on_obj_set p f s n : on_obj p f (set_obj p s n) = Ret tt (set_obj p (f s) n).
Proof. unfold on_obj, modify, set_obj. cbn. by rewrite alter_insert_eq. Qed.
Lemma on_info_set p f s n :
  on_info p f (set_obj p s n) = Ret tt (set_obj p (s <| info := f (info s) |>) n).
Proof. exact (on_obj_set p (fun s => s <| info := f (info s) |>) s n). Qed.
Lemma on_auth_set p f s n :
  on_auth p f (set_obj p s n) =
    Ret tt (set_obj p (s <| authAlgoInterface := f <$> authAlgoInterface s |>) n).
Proof. exact (on_obj_set p (fun s => s <| authAlgoInterface := f <$> authAlgoInterface s |>) s n). Qed.
Lemma touch_set p s n :
  updateLastTransactionTime p (set_obj p s n) = Ret tt (set_obj p (s <| lastTime := now n |>) n).
Proof. exact (on_obj_set p (fun s => s <| lastTime := now n |>) s n). Qed.
Lemma rand_set k p s n :
  rand_bytes k (set_obj p s n) = Ret (RAND_bytes (rng n) k) (set_obj p s (n <| rng := S (rng n) |>)).
Proof. done. Qed.
Lemma getAuthAlgo_Ret {S} s a (n : S) : authAlgoInterface s = Some a -> getAuthAlgo s n = Ret a n.
Proof. intros Ha. unfold getAuthAlgo. by rewrite Ha. Qed.
End SetObj.

Section Exchange.
Context `{Crypto, Settings}.

(** The user layer lets [name] in, in the given role. *)
Record granted (u : UserLayer) (chNum role : Z) (name passwd : list Z)
    (acc : PrivAccess) (ca : ChannelAccess) : Prop := {
  g_user : ipmiUserGetUserId u name <> invalidUserId;
  g_enabled : ipmiUserCheckEnabled u (ipmiUserGetUserId u name) = true;
  g_passwd : ipmiUserGetPassword u name = passwd;
  g_length : (0 < length passwd <= USER_KEY_MAX_LENGTH)%nat;
  g_pam : ipmiUserPamAuthenticate u name passwd = true;
  g_acc a : ipmiUserGetPrivilegeAccess u (ipmiUserGetUserId u name) chNum a = (IPMI_CC_OK, acc);
  g_chan c : getChannelAccessData u chNum c = (IPMI_CC_OK, ca);
  g_mode : accessMode ca <> 0;
  g_level : privilege acc <= Privilege.OEM;
  g_role : Privilege.CALLBACK < Z.land role reqMaxPrivMask;
  g_lookup : Z.land role userNameOnlyLookupMask = userNamePrivLookup ->
             Z.land role reqMaxPrivMask = privilege acc }.

(** The session after its challenge. *)
Definition challenged_session (s : Session) (a : AuthAlgo) (n : Net) (role : Z)
    (name passwd rcRand bmcRand : list Z) (acc : PrivAccess) (ca : ChannelAccess) : Session :=
  let s := s <| userName := name |> <| lastTime := now n |>
             <| authAlgoInterface := Some (a <| rcRandomNum := Some rcRand |>
                  <| userKey := resize USER_KEY_MAX_LENGTH passwd |>
                  <| bmcRandomNum := Some bmcRand |>) |>
             <| reqMaxPrivLevel := role |>
             <| sessionUserPrivAccess := acc |> <| sessionChannelAccess := ca |> in
  s <| info := (info s)
         <| currentPrivilege := Z.min Privilege.USER (Z.min (privLimit ca) (privilege acc)) |>
         <| channelNum := u8 getInterfaceIndex |>
         <| userID := ipmiUserGetUserId (users n) name |> |>.

Lemma rakp1_user_grants p s n role name passwd acc ca :
  granted (users n) (u8 getInterfaceIndex) role name passwd acc ca ->
  currentPrivilege (info s) = Privilege.USER ->
  rakp1_user p name (set_obj p s n) =
    Ret (inr passwd) (set_obj p (s <| sessionUserPrivAccess := acc |> <| sessionChannelAccess := ca |>
      <| info := (info s) <| channelNum := u8 getInterfaceIndex |>
           <| userID := ipmiUserGetUserId (users n) name |>
           <| currentPrivilege := Z.min Privilege.USER (Z.min (privLimit ca) (privilege acc)) |> |>) n).
Proof.
  intros G Hc. unfold rakp1_user. unfold bind at 1. cbn [get].
  change (users (set_obj p s n)) with (users n).
  rewrite (proj2 (Z.eqb_neq _ _) (g_user _ _ _ _ _ _ _ G)), (g_enabled _ _ _ _ _ _ _ G).
  rewrite (g_passwd _ _ _ _ _ _ _ G). cbn [negb].
  rewrite (proj2 (Nat.eqb_neq _ _)) by (pose proof (g_length _ _ _ _ _ _ _ G); lia).
  rewrite (g_pam _ _ _ _ _ _ _ G). cbn [negb].
  rewrite (bind_Ret _ _ _ _ _ (obj_set p s n)), (g_acc _ _ _ _ _ _ _ G).
  rewrite (bind_Ret _ _ _ _ _ (on_obj_set p _ s n)). cbn [Z.eqb negb].
  change (IPMI_CC_OK =? IPMI_CC_OK) with true. cbn [negb].
  rewrite (g_chan _ _ _ _ _ _ _ G).
  rewrite (bind_Ret _ _ _ _ _ (on_obj_set p _ _ n)).
  change (IPMI_CC_OK =? IPMI_CC_OK) with true. cbn [negb].
  unfold isChannelAccessModeEnabled. rewrite (proj2 (Z.eqb_neq _ _) (g_mode _ _ _ _ _ _ _ G)).
  cbn [negb]. rewrite (proj2 (Z.ltb_ge _ _) (g_level _ _ _ _ _ _ _ G)).
  rewrite (bind_Ret _ _ _ _ _ (on_info_set p _ _ n)).
  rewrite (bind_Ret _ _ _ _ _ (obj_set p _ n)).
  set (s1 := update info _ _).
  assert (min_priv s1 = Z.min (privLimit ca) (privilege acc)) as Hm.
  { unfold min_priv, s1. cbn. destruct (Z.ltb_spec (privLimit ca) (privilege acc)); lia. }
  rewrite Hm. change (currentPrivilege (info s1)) with (currentPrivilege (info s)). rewrite Hc.
  set (m := Z.min (privLimit ca) (privilege acc)).
  destruct (Z.ltb_spec m Privilege.USER).
  - rewrite (bind_Ret _ _ _ _ _ (on_info_set p _ _ n)). rewrite (Z.min_r _ m) by lia. reflexivity.
  - rewrite bind_ret_l. unfold ret. rewrite Z.min_l by lia. unfold s1. rewrite <- Hc.
    by destruct s as [[]].
Qed.

Lemma lookup_after {A} (l1 l2 : list A) i k : i = (length l1 + k)%nat -> (l1 ++ l2) !! i = l2 !! k.
Proof. intros ->. rewrite lookup_app_r by lia. f_equal. lia. Qed.

Lemma rakp1_request_fields {S} tag sid rcRand role name (n : S) :
  u32_range sid -> length rcRand = 16%nat ->
  let l := rakp1_request tag sid rcRand role name in
  length l = (28 + length name)%nat /\
  rd8 l 0 n = Ret tag n /\ rd32 l 4 n = Ret sid n /\ read_range l 8 16 n = Ret rcRand n /\
  rd8 l 24 n = Ret role n /\ rd8 l 27 n = Ret (zlen name) n /\
  read_range l 28 (zlen name) n = Ret name n.
Proof.
  intros Hs Hr l. unfold l, rakp1_request.
  assert (length (to_ipmi32 sid) = 4%nat) as H4 by apply le_bytes_length.
  set (pre := [tag; 0; 0; 0]) in *.
  assert (length (pre ++ to_ipmi32 sid ++ rcRand) = 24%nat) as H24
    by (rewrite !length_app, H4, Hr; reflexivity).
  split; [rewrite !length_app, H4, Hr; change (length pre) with 4%nat; cbn [length]; lia|].
  split; [done|]. split; [by apply (rd32_at pre)|]. split.
  { rewrite app_assoc. apply read_range_app; [|unfold zlen; lia].
    unfold zlen. rewrite length_app, H4. reflexivity. }
  assert (forall k, (pre ++ to_ipmi32 sid ++ rcRand ++ [role; 0; 0; zlen name] ++ name) !! (24 + k)%nat
            = ([role; 0; 0; zlen name] ++ name) !! k) as Hk.
  { intros k. rewrite (app_assoc (to_ipmi32 sid)), (app_assoc pre). apply lookup_after. by rewrite H24. }
  split; [apply idx_Ret, (Hk 0%nat)|]. split; [apply idx_Ret, (Hk 3%nat)|].
  rewrite <- (app_nil_r name) at 2. rewrite (app_assoc rcRand), (app_assoc (to_ipmi32 sid)), (app_assoc pre).
  apply read_range_app; [|done]. unfold zlen. rewrite !length_app, H4, Hr. reflexivity.
Qed.

(** The response to message 1, and the session it leaves. *)
Definition rakp2_response (tag : Z) (s : Session) (a : AuthAlgo) (guid : list Z)
    (rcRand bmcRand : list Z) (role : Z) (name : list Z) : list Z :=
  [tag; RAKP_ReturnCode.NO_ERROR; 0; 0] ++ to_ipmi32 (remoteConsoleSessionID s) ++ bmcRand ++ guid
  ++ auth_generateHMAC a
       (rakp2_input (remoteConsoleSessionID s) (s_bmcSessionID s) rcRand bmcRand guid role name).

(** The session once the user is granted the role. *)
Definition granted_session (s : Session) (a : AuthAlgo) (u : UserLayer) (role : Z)
    (name passwd bmcRand : list Z) (acc : PrivAccess) (ca : ChannelAccess) : Session :=
  s <| authAlgoInterface := Some (a <| userKey := resize USER_KEY_MAX_LENGTH passwd |>
                                    <| bmcRandomNum := Some bmcRand |>) |>
    <| reqMaxPrivLevel := role |>
    <| sessionUserPrivAccess := acc |> <| sessionChannelAccess := ca |>
    <| info := (info s)
         <| currentPrivilege := Z.min Privilege.USER (Z.min (privLimit ca) (privilege acc)) |>
         <| channelNum := u8 getInterfaceIndex |>
         <| userID := ipmiUserGetUserId u name |> |>.

Lemma rakp1_grant_grants p s a n tag rcRand bmcRand role name passwd acc ca :
  granted (users n) (u8 getInterfaceIndex) role name passwd acc ca ->
  authAlgoInterface s = Some a -> zlen name <> 0 ->
  rakp1_grant p tag rcRand bmcRand role name (set_obj p s n) =
    Ret (rakp2_response tag s (a <| userKey := resize USER_KEY_MAX_LENGTH passwd |>) (guid n)
           rcRand bmcRand role name)
        (set_obj p (granted_session s a (users n) role name passwd bmcRand acc ca) n).
Proof.
  intros G Ha Hn. unfold rakp1_grant.
  rewrite (bind_Ret _ _ _ _ _ (on_info_set p _ _ n)), (bind_Ret _ _ _ _ _ (on_obj_set p _ _ n)).
  rewrite (proj2 (Z.eqb_neq _ _) Hn).
  set (s1 := update reqMaxPrivLevel _ _).
  assert (currentPrivilege (info s1) = Privilege.USER /\ authAlgoInterface s1 = Some a) as [Hc1 Ha1]
    by by split.
  assert (s1 = (s <| info := (info s) <| currentPrivilege := Privilege.USER |> |>)
                 <| reqMaxPrivLevel := role |>) as Hs1 by reflexivity.
  clearbody s1.
  rewrite (bind_Ret _ _ _ _ _ (rakp1_user_grants p s1 n role name passwd acc ca G Hc1)).
  set (s2 := update info _ _).
  assert (authAlgoInterface s2 = Some a /\ privilege (sessionUserPrivAccess s2) = privilege acc)
    as [Ha2 Hp2] by by split.
  assert (s2 = s1 <| sessionUserPrivAccess := acc |> <| sessionChannelAccess := ca |>
      <| info := (info s1) <| channelNum := u8 getInterfaceIndex |>
           <| userID := ipmiUserGetUserId (users n) name |>
           <| currentPrivilege := Z.min Privilege.USER (Z.min (privLimit ca) (privilege acc)) |> |>)
    as Hs2 by reflexivity.
  clearbody s2. cbv beta iota.
  rewrite (bind_Ret _ _ _ _ _ (obj_set p s2 n)).
  replace (_ && _) with false.
  2: { symmetry. destruct (Z.eqb_spec (Z.land role userNameOnlyLookupMask) userNamePrivLookup); [|done].
       cbn. apply negb_false_iff, Z.eqb_eq. rewrite Hp2. by apply (g_lookup _ _ _ _ _ _ _ G). }
  rewrite (proj2 (Nat.ltb_ge _ _)) by (pose proof (g_length _ _ _ _ _ _ _ G); lia).
  rewrite (bind_Ret _ _ _ _ _ (on_auth_set p _ s2 n)), Ha2.
  set (a' := a <| userKey := resize USER_KEY_MAX_LENGTH passwd |> <| bmcRandomNum := Some bmcRand |>).
  set (s3 := update authAlgoInterface _ s2).
  rewrite (bind_Ret _ _ _ _ _ (obj_set p s3 n)).
  assert (authAlgoInterface s3 = Some a') as Ha3 by reflexivity.
  rewrite (bind_Ret _ _ _ _ _ (getAuthAlgo_Ret s3 a' (set_obj p s3 n) Ha3)).
  assert (s3 = granted_session s a (users n) role name passwd bmcRand acc ca) as ->.
  { unfold s3, granted_session. rewrite Hs2, Hs1. by destruct s as [[]]. }
  reflexivity.
Qed.

(** Message 1 up to the grant: the session remembers the name and the number. *)
Definition asked_session (s : Session) (a : AuthAlgo) (n : Net) (rcRand name : list Z) : Session :=
  s <| userName := name |> <| lastTime := now n |>
    <| authAlgoInterface := Some (a <| rcRandomNum := Some rcRand |>) |>.
Lemma RAKP12_asks p s a n tag rcRand role name bmcRand :
  enrolled n p s -> u32_range (s_bmcSessionID s) -> authAlgoInterface s = Some a ->
  length rcRand = 16%nat -> (0 < length name <= userNameMaxLen)%nat ->
  Privilege.CALLBACK < Z.land role reqMaxPrivMask ->
  RAND_bytes (rng n) BMC_RANDOM_NUMBER_LEN = Some bmcRand ->
  RAKP12 (rakp1_request tag (s_bmcSessionID s) rcRand role name) n =
    rakp1_grant p tag rcRand bmcRand role name
      (set_obj p (asked_session s a n rcRand name) (n <| rng := S (rng n) |>)).
Proof.
  intros (Hs & Hp & Hz) Hu Ha Hrc Hname Hrole Hrand.
  destruct (rakp1_request_fields tag (s_bmcSessionID s) rcRand role name n Hu Hrc)
    as (Hlen & R0 & R4 & R8 & R24 & R27 & R28).
  set (l := rakp1_request tag (s_bmcSessionID s) rcRand role name) in *.
  unfold userNameMaxLen in Hname.
  unfold RAKP12. rewrite (proj2 (Nat.ltb_ge _ _)) by (rewrite Hlen; cbn; lia).
  rewrite (bind_Ret _ _ _ _ _ R0), (bind_Ret _ _ _ _ _ R4), (bind_Ret _ _ _ _ _ R8),
    (bind_Ret _ _ _ _ _ R24), (bind_Ret _ _ _ _ _ R27).
  rewrite (proj2 (Z.eqb_neq _ _)) by exact Hz.
  rewrite (bind_Ret _ _ _ _ _ (find_session _ n)), Hp.
  replace (_ || _) with false.
  2: { symmetry. apply orb_false_intro; [apply Z.ltb_ge; unfold userNameMaxLen, zlen; lia|].
       apply negb_false_iff, Z.eqb_eq. unfold zlen. lia. }
  rewrite (bind_Ret _ _ _ _ _ R28). rewrite (set_obj_self p s n Hs) at 1.
  rewrite (bind_Ret _ _ _ _ _ (on_obj_set p _ s n)), (bind_Ret _ _ _ _ _ (touch_set p _ n)),
    (bind_Ret _ _ _ _ _ (obj_set p _ n)).
  erewrite (bind_Ret (getAuthAlgo _)) by (apply getAuthAlgo_Ret; exact Ha).
  rewrite (bind_Ret _ _ _ _ _ (on_auth_set p _ _ n)), (bind_Ret _ _ _ _ _ (rand_set _ p _ n)), Hrand.
  rewrite (proj2 (Z.ltb_lt _ _) Hrole). cbn [negb].
  set (s1 := update authAlgoInterface _ _). assert (s1 = asked_session s a n rcRand name) as ->; [|done].
  unfold s1, asked_session. cbn. by rewrite Ha.
Qed.
Lemma RAKP12_grants p s a n tag rcRand role name passwd acc ca bmcRand :
  enrolled n p s -> u32_range (s_bmcSessionID s) -> authAlgoInterface s = Some a ->
  length rcRand = 16%nat -> (0 < length name <= userNameMaxLen)%nat ->
  granted (users n) (u8 getInterfaceIndex) role name passwd acc ca ->
  RAND_bytes (rng n) BMC_RANDOM_NUMBER_LEN = Some bmcRand ->
  let s' := challenged_session s a n role name passwd rcRand bmcRand acc ca in
  RAKP12 (rakp1_request tag (s_bmcSessionID s) rcRand role name) n =
    Ret (rakp2_response tag s (a <| userKey := resize USER_KEY_MAX_LENGTH passwd |>) (guid n)
           rcRand bmcRand role name)
        (set_obj p s' (n <| rng := S (rng n) |>)).
Proof.
  intros He Hu Ha Hrc Hname G Hrand s'.
  rewrite (RAKP12_asks p s a n tag rcRand role name bmcRand He Hu Ha Hrc Hname (g_role _ _ _ _ _ _ _ G) Hrand).
  etransitivity.
  - eapply rakp1_grant_grants; [exact G|done|unfold zlen; lia].
  - unfold s', challenged_session, asked_session. by destruct s as [[]].
Qed.
(** A name the user layer does not know. *)
Lemma RAKP12_refuses p s a n tag rcRand role name bmcRand :
  enrolled n p s -> u32_range (s_bmcSessionID s) -> authAlgoInterface s = Some a ->
  length rcRand = 16%nat -> (0 < length name <= userNameMaxLen)%nat ->
  Privilege.CALLBACK < Z.land role reqMaxPrivMask ->
  RAND_bytes (rng n) BMC_RANDOM_NUMBER_LEN = Some bmcRand ->
  ipmiUserGetUserId (users n) name = invalidUserId ->
  exists n' s', RAKP12 (rakp1_request tag (s_bmcSessionID s) rcRand role name) n =
      Ret (rakp2_error RAKP_ReturnCode.UNAUTH_NAME) n' /\
    heap n' !! p = Some s' /\ authAlgoInterface s' = Some (a <| rcRandomNum := Some rcRand |>).
Proof.
  intros He Hu Ha Hrc Hname Hrole Hrand Hid.
  rewrite (RAKP12_asks p s a n tag rcRand role name bmcRand) by done. set (s1 := asked_session _ _ _ _ _).
  set (n1 := n <| rng := S (rng n) |>). unfold rakp1_grant.
  rewrite (bind_Ret _ _ _ _ _ (on_info_set p _ _ n1)), (bind_Ret _ _ _ _ _ (on_obj_set p _ _ n1)).
  rewrite (proj2 (Z.eqb_neq _ _)) by (unfold zlen; lia). set (s2 := update reqMaxPrivLevel _ _).
  exists (set_obj p s2 n1), s2. split; [|split; [apply lookup_insert_eq|done]].
  rewrite (bind_Ret (rakp1_user p name) _ _ (inl RAKP_ReturnCode.UNAUTH_NAME) (set_obj p s2 n1)); [done|].
  unfold rakp1_user, bind at 1. cbn [get]. change (users (set_obj p s2 n1)) with (users n). by rewrite Hid, Z.eqb_refl.
Qed.

(** *** Messages 3 and 4 *)
Context `{!CryptoLaws _} `{!CryptoTotal _}.

Lemma generateKn_Ret {S} sik c (n : S) : length sik = 32%nat -> exists k,
  HMAC SHA256 sik c = Some k /\ length k = 32%nat /\ generateKn SHA256 sik c n = Ret k n.
Proof.
  intros Hl. destruct (HMAC_total SHA256 sik c) as [k Hk]. pose proof (HMAC_length _ _ _ _ Hk) as Hlen.
  exists k. split; [done|]. split; [done|]. unfold generateKn. rewrite Hk.
  change (length k = 32%nat) in Hlen.
  rewrite Hl, Hlen. cbn [Nat.leb]. unfold ret. by rewrite resize_id.
Qed.

(** What both sides compute from the user key and the random numbers. *)
Definition session_key (key rcRand bmcRand : list Z) (role : Z) (name : list Z) : list Z :=
  default [] (HMAC SHA256 key (sik_input rcRand bmcRand role name)).
Definition console_proof (key bmcRand : list Z) (rcID role : Z) (name : list Z) : list Z :=
  default [] (HMAC SHA256 key (rakp3_input bmcRand rcID role name)).
Definition check_value (sik rcRand : list Z) (sid : Z) (guid : list Z) : list Z :=
  resize 16 (default [] (HMAC SHA256 sik (icv_input rcRand sid guid))).

(** The session with the keys derived from [sik], active. *)
Definition established_session (s : Session) (a : AuthAlgo) (sik k1 k2 : list Z) : Session :=
  s <| authAlgoInterface := Some (a <| sessionIntegrityKey := sik |>) |>
    <| integrityAlgoInterface := Some {| intDigest := SHA256; authCodeLength := 16; k1 := k1 |} |>
    <| cryptAlgoInterface := Some k2 |>
    <| info := (info s) <| state := State.active |> |>.

Lemma activate_session_Ret n p s a :
  sessionsMap n !! s_bmcSessionID s = Some p -> authAlgoInterface s = Some a ->
  intAlgo a = HMAC_SHA256_128 -> cryptAlgo a = AES_CBC_128 ->
  length (sessionIntegrityKey a) = 32%nat ->
  exists k1 k2, HMAC SHA256 (sessionIntegrityKey a) const_1 = Some k1 /\
    HMAC SHA256 (sessionIntegrityKey a) const_2 = Some k2 /\
    activate_session (s_bmcSessionID s) p (set_obj p s n) =
      Ret tt (set_obj p (established_session s a (sessionIntegrityKey a) k1 k2) n).
Proof.
  intros Hp Ha Hi Hc Hl. set (sik := sessionIntegrityKey a) in *. set (id := s_bmcSessionID s) in *.
  destruct (generateKn_Ret (S := Net) sik const_1 (set_obj p s n) Hl) as (k1 & H1 & Hl1 & G1).
  set (i := {| intDigest := SHA256; authCodeLength := 16; k1 := k1 |}).
  set (s1 := s <| integrityAlgoInterface := Some i |>).
  destruct (generateKn_Ret (S := Net) sik const_2 (set_obj p s1 n) Hl) as (k2 & H2 & Hl2 & G2).
  exists k1, k2. split; [done|]. split; [done|]. unfold activate_session.
  assert (forall r, sessionsMap (set_obj p r n) !! id = Some p) as Hq by done.
  assert (applyIntegrityAlgo id (set_obj p s n) = Ret tt (set_obj p s1 n)) as E1.
  { unfold applyIntegrityAlgo. rewrite (bind_Ret _ _ _ _ _ (getSession_Ret _ _ _ (Hq s))),
      (bind_Ret _ _ _ _ _ (obj_set p s n)), (bind_Ret _ _ _ _ _ (getAuthAlgo_Ret s a _ Ha)), Hi.
    change (HMAC_SHA256_128 =? HMAC_SHA1_96) with false. rewrite Z.eqb_refl.
    unfold new_IntegrityAlgo. fold sik. unfold bind. rewrite G1. cbn [ret].
    apply on_obj_set. }
  rewrite (bind_Ret _ _ _ _ _ E1).
  assert (applyCryptAlgo id (set_obj p s1 n) = Ret tt (set_obj p (s1 <| cryptAlgoInterface := Some k2 |>) n)) as E2.
  { unfold applyCryptAlgo. rewrite (bind_Ret _ _ _ _ _ (getSession_Ret _ _ _ (Hq s1))),
      (bind_Ret _ _ _ _ _ (obj_set p s1 n)), (bind_Ret _ _ _ _ _ (getAuthAlgo_Ret s1 a _ Ha)), Hc, Z.eqb_refl.
    rewrite (bind_Ret (getIntegrityAlgo s1) _ (set_obj p s1 n) i (set_obj p s1 n)) by reflexivity.
    fold sik. change (intDigest i) with SHA256. rewrite (bind_Ret _ _ _ _ _ G2).
    apply on_obj_set. }
  rewrite (bind_Ret _ _ _ _ _ E2), on_info_set. f_equal. f_equal.
  unfold established_session. destruct s as [[]], a. cbn in Ha. by subst.
Qed.

Lemma RAKP34_establishes p s a n tag rcRand bmcRand :
  enrolled n p s -> u32_range (s_bmcSessionID s) -> authAlgoInterface s = Some a ->
  authDigest a = SHA256 -> intAlgo a = HMAC_SHA256_128 -> cryptAlgo a = AES_CBC_128 ->
  sessionIntegrityKey a = [] -> rcRandomNum a = Some rcRand -> bmcRandomNum a = Some bmcRand ->
  zlen (userName s) < 256 -> is_byte (reqMaxPrivLevel s) ->
  let role := reqMaxPrivLevel s in
  let sik := session_key (userKey a) rcRand bmcRand role (userName s) in
  exists k1 k2, HMAC SHA256 sik const_1 = Some k1 /\ HMAC SHA256 sik const_2 = Some k2 /\
    RAKP34 (rakp3_request tag (s_bmcSessionID s)
              (console_proof (userKey a) bmcRand (remoteConsoleSessionID s) role (userName s))) n =
      Ret (rakp4_response tag RAKP_ReturnCode.NO_ERROR (remoteConsoleSessionID s)
           ++ check_value sik rcRand (s_bmcSessionID s) (guid n))
          (set_obj p (established_session (s <| lastTime := now n |>) a sik k1 k2) n).
Proof.
  intros (Hs & Hp & Hz) Hu Ha Hd Hi Hc Hk Hrc Hbr Hn Hrole role sik.
  set (s0 := s <| lastTime := now n |>).
  set (a1 := a <| sessionIntegrityKey := sik |>). set (s1 := s0 <| authAlgoInterface := Some a1 |>).
  assert (length sik = 32%nat) as Hsl.
  { unfold sik, session_key. destruct (HMAC_total SHA256 (userKey a) (sik_input rcRand bmcRand role (userName s))) as [o Ho].
    rewrite Ho. exact (HMAC_length _ _ _ _ Ho). }
  destruct (activate_session_Ret n p s1 a1 Hp eq_refl Hi Hc Hsl) as (k1 & k2 & H1 & H2 & HA).
  exists k1, k2. split; [done|]. split; [done|].
  unfold RAKP34. set (l := rakp3_request _ _ _).
  assert (rd8 l 0 n = Ret tag n) as R0 by reflexivity.
  assert (rd32 l 4 n = Ret (s_bmcSessionID s) n) as R4
    by (apply (rd32_at [tag; 0; 0; 0]); exact Hu).
  assert ((length l <? sizeof_RAKP3request)%nat = false) as ->.
  { apply Nat.ltb_ge. unfold l, rakp3_request. rewrite !length_app.
    unfold to_ipmi32. rewrite le_bytes_length. unfold sizeof_RAKP3request. cbn [length]. lia. }
  rewrite (bind_Ret _ _ _ _ _ R0), (bind_Ret _ _ _ _ _ R4), (proj2 (Z.eqb_neq _ sessionZero) Hz).
  rewrite (bind_Ret _ _ _ _ _ (find_session _ n)), Hp. rewrite (set_obj_self p s n Hs) at 1.
  rewrite (bind_Ret _ _ _ _ _ (touch_set p s n)). fold s0.
  rewrite (bind_Ret _ _ _ _ _ (obj_set p s0 n)).
  rewrite (bind_Ret _ _ _ _ _ (getAuthAlgo_Ret s0 a _ Ha)), Hbr.
  cbn [init_read of_option]. rewrite bind_ret_l.
  change (userName s0) with (userName s). change (reqMaxPrivLevel s0) with role.
  change (remoteConsoleSessionID s0) with (remoteConsoleSessionID s).
  assert (u8 role = role) as -> by (apply Z.mod_small; exact Hrole).
  assert (take (Z.to_nat (u8 (zlen (userName s)))) (userName s) = userName s) as ->.
  { unfold u8. rewrite Z.mod_small by (unfold zlen in *; lia). unfold zlen. rewrite Nat2Z.id. by apply take_ge. }
  rewrite bool_decide_eq_true_2.
  2: { unfold auth_generateHMAC. rewrite Hd. reflexivity. }
  rewrite (establish_shape p tag bmcRand (userName s) (set_obj p s0 n) s0) by (cbn; apply lookup_insert_eq).
  rewrite (bind_Ret _ _ _ _ _ (getAuthAlgo_Ret s0 a _ Ha)), Hrc.
  cbn [init_read of_option]. rewrite bind_ret_l. change (reqMaxPrivLevel s0) with role.
  assert (u8 role = role) as -> by (apply Z.mod_small; exact Hrole).
  assert (auth_generateHMAC a (sik_input rcRand bmcRand role (userName s)) = sik) as ->
    by (unfold auth_generateHMAC; by rewrite Hd).
  rewrite (bind_Ret _ _ _ _ _ (on_auth_set p _ s0 n)).
  change (authAlgoInterface s0) with (authAlgoInterface s). rewrite Ha. cbn [fmap option_fmap option_map].
  rewrite Hk, app_nil_r. fold a1 s1.
  change (s_bmcSessionID s0) with (s_bmcSessionID s1). change (guid (set_obj p s0 n)) with (guid n).
  rewrite (bind_Ret (generateICV a1 (icv_input rcRand (s_bmcSessionID s1) (guid n))) _ (set_obj p s1 n)
             (check_value sik rcRand (s_bmcSessionID s) (guid n)) (set_obj p s1 n)).
  2: { unfold generateICV. change (authDigest a1) with (authDigest a). rewrite Hd. reflexivity. }
  rewrite (bind_Ret _ _ _ _ _ HA). reflexivity.
Qed.
End Exchange.

(** ** The theorems of the key exchange *)
Section ExchangeTheorems.
Context `{Crypto, Settings} `{!CryptoLaws _} `{!CryptoTotal _}.

(** C2. For every session of the table whose key is not yet
    set, in every well-formed state, and every user the user layer lets in: the
    daemon answers message 1 with its random numbers and a MAC under the user
    key; a console that knows the password and answers with its proof gets
    message 4 with the check value it expects, and from then on the session is
    active with exactly the integrity and confidentiality keys the console
    derives. *)
Theorem key_exchange_agrees n p s tag rcRand role name passwd acc ca :
  table_ok n -> enrolled n p s ->
  (forall a, authAlgoInterface s = Some a -> sessionIntegrityKey a = []) ->
  length rcRand = 16%nat -> is_byte role -> (0 < length name <= userNameMaxLen)%nat ->
  granted (users n) (u8 getInterfaceIndex) role name passwd acc ca ->
  let sid := s_bmcSessionID s in
  let rc := remoteConsoleSessionID s in
  let key := resize USER_KEY_MAX_LENGTH passwd in
  exists bmcRand n1 n2 s' k1 k2,
    let sik := session_key key rcRand bmcRand role name in
    RAKP12 (rakp1_request tag sid rcRand role name) n =
      Ret ([tag; RAKP_ReturnCode.NO_ERROR; 0; 0] ++ to_ipmi32 rc ++ bmcRand ++ guid n ++
           default [] (HMAC SHA256 key (rakp2_input rc sid rcRand bmcRand (guid n) role name))) n1 /\
    length bmcRand = 16%nat /\
    RAKP34 (rakp3_request tag sid (console_proof key bmcRand rc role name)) n1 =
      Ret ([tag; RAKP_ReturnCode.NO_ERROR; 0; 0] ++ to_ipmi32 rc ++
           check_value sik rcRand sid (guid n)) n2 /\
    HMAC SHA256 sik const_1 = Some k1 /\ HMAC SHA256 sik const_2 = Some k2 /\
    heap n2 !! p = Some s' /\ active_session s' /\
    integrityAlgoInterface s' = Some {| intDigest := SHA256; authCodeLength := 16; k1 := k1 |} /\
    cryptAlgoInterface s' = Some k2 /\ userName s' = name /\ sessionsMap n2 !! sid = Some p.
Proof.
  intros T Hen Hsik Hrc Hrole Hname G sid rc key. pose proof Hen as (Hs & Hp & Hz).
  destruct (t_table n T _ _ Hp) as (s0 & Hs0 & _ & Hreg). rewrite Hs in Hs0. injection Hs0 as <-.
  destruct (Hreg Hz) as (Hu & _).
  destruct (setup_algorithms_inv s (oo_algorithms s (t_objects n T _ _ Hs) Hz)) as (a & Ha & Hd & Hi & Hc).
  destruct (RAND_total (rng n) BMC_RANDOM_NUMBER_LEN) as [bmcRand Hrand].
  pose proof (RAKP12_grants p s a n tag rcRand role name passwd acc ca bmcRand Hen Hu Ha Hrc Hname G Hrand) as H1.
  set (s1 := challenged_session s a n role name passwd rcRand bmcRand acc ca) in H1.
  set (a1 := a <| rcRandomNum := Some rcRand |> <| userKey := key |> <| bmcRandomNum := Some bmcRand |>).
  set (n1 := set_obj p s1 (n <| rng := S (rng n) |>)) in H1.
  assert (enrolled n1 p s1) as Hen1 by (split; [apply lookup_insert_eq|by split]).
  destruct (RAKP34_establishes p s1 a1 n1 tag rcRand bmcRand Hen1 Hu eq_refl Hd Hi Hc (Hsik _ Ha)
              eq_refl eq_refl) as (k1 & k2 & Hk1 & Hk2 & H2).
  { change (userName s1) with name. unfold zlen, userNameMaxLen in *. lia. }
  { exact Hrole. }
  exists bmcRand, n1. eexists _, _, k1, k2. split.
  { etransitivity; [exact H1|]. unfold rakp2_response, auth_generateHMAC.
    change (authDigest (update _ _ a)) with (authDigest a). by rewrite Hd. }
  split; [by apply (RAND_length _ _ _ Hrand)|].
  split; [exact H2|]. split; [exact Hk1|]. split; [exact Hk2|].
  split; [apply lookup_insert_eq|]. by split_and!.
Qed.

(** Message 3 with any other proof is refused and tears the
    session down: no key changes and the reply says that the integrity value is
    invalid.  This is so in every state of the session: nothing asks whether
    the key exchange is still running, so a packet outside any session with the
    id of an active session ends that session. *)
Theorem wrong_proof_tears_down n p s a bmcRand l :
  enrolled n p s -> authAlgoInterface s = Some a -> bmcRandomNum a = Some bmcRand ->
  (sizeof_RAKP3request <= length l)%nat ->
  le_value (take 4 (drop 4 l)) = s_bmcSessionID s -> ~ proves_key l s ->
  exists tag, l !! 0%nat = Some tag /\
    RAKP34 l n =
      Ret (rakp4_response tag RAKP_ReturnCode.INVALID_INTEGRITY_VALUE (remoteConsoleSessionID s))
          (set_obj p (s <| lastTime := now n |>
             <| info := (info s) <| state := State.tearDownInProgress |> |>) n).
Proof.
  intros (Hs & Hp & Hz) Ha Hb Hlen Hsid Hno.
  destruct (lookup_lt_is_Some_2 l 0) as [tag Ht0]; [unfold sizeof_RAKP3request in Hlen; lia|].
  exists tag. split; [done|].
  unfold RAKP34. rewrite (proj2 (Nat.ltb_ge _ _) Hlen).
  assert (rd8 l 0 n = Ret tag n) as R0 by by apply idx_Ret.
  assert (rd32 l 4 n = Ret (s_bmcSessionID s) n) as R4.
  { unfold rd32, read_range. unfold sizeof_RAKP3request in Hlen.
    rewrite (proj2 (Z.leb_le _ _)) by lia. rewrite bind_ret_l. by rewrite <- Hsid. }
  rewrite (bind_Ret _ _ _ _ _ R0), (bind_Ret _ _ _ _ _ R4), (proj2 (Z.eqb_neq _ sessionZero) Hz).
  rewrite (bind_Ret _ _ _ _ _ (find_session _ n)), Hp. rewrite (set_obj_self p s n Hs) at 1.
  rewrite (bind_Ret _ _ _ _ _ (touch_set p s n)). set (s0 := s <| lastTime := now n |>).
  rewrite (bind_Ret _ _ _ _ _ (obj_set p s0 n)), (bind_Ret _ _ _ _ _ (getAuthAlgo_Ret s0 a _ Ha)), Hb.
  cbn [init_read of_option]. rewrite bind_ret_l, bool_decide_eq_false_2.
  2: { intros Hmac. apply Hno. exists a, bmcRand. by split_and!. }
  rewrite (bind_Ret (stopSession _) _ (set_obj p s0 n) true
             (set_obj p (s0 <| info := (info s0) <| state := State.tearDownInProgress |> |>) n)); [done|].
  unfold stopSession, bind, get. change (sessionsMap (set_obj p s0 n)) with (sessionsMap n).
  change (s_bmcSessionID s0) with (s_bmcSessionID s). rewrite Hp. by rewrite on_info_set.
Qed.

(** A packet outside any session changes the
    user of an active session: message 1 with the session's id and another
    user's name, for which no password is needed, leaves the session active
    under its old keys and gives it that user and that user's privilege; its
    console can then raise the session to every level that the new user may
    have. *)
Theorem rakp1_rebinds_active_session n p s tag rcRand role name passwd acc ca :
  table_ok n -> enrolled n p s -> active_session s ->
  length rcRand = 16%nat -> (0 < length name <= userNameMaxLen)%nat ->
  granted (users n) (u8 getInterfaceIndex) role name passwd acc ca ->
  exists reply n' s',
    RAKP12 (rakp1_request tag (s_bmcSessionID s) rcRand role name) n = Ret reply n' /\
    heap n' !! p = Some s' /\ active_session s' /\ keys s' = keys s /\
    userName s' = name /\ sessionUserPrivAccess s' = acc /\
    forall h level, h_sessionID h = s_bmcSessionID s -> Privilege.USER <= level <= Privilege.OEM ->
      level <= Z.land role reqMaxPrivMask -> level <= privilege acc -> level <= privLimit ca ->
      exists n2, setSessionPrivilegeLevel [level] h n' = Ret [IPMI_CC_OK; level] n2 /\
        exists s2, heap n2 !! p = Some s2 /\ currentPrivilege (info s2) = level.
Proof.
  intros T Hen Hact Hrc Hname G. pose proof Hen as (Hs & Hp & Hz).
  destruct (t_table n T _ _ Hp) as (s0 & Hs0 & _ & Hreg). rewrite Hs in Hs0. injection Hs0 as <-.
  destruct (Hreg Hz) as (Hu & _).
  destruct (setup_algorithms_inv s (oo_algorithms s (t_objects n T _ _ Hs) Hz)) as (a & Ha & _).
  destruct (RAND_total (rng n) BMC_RANDOM_NUMBER_LEN) as [bmcRand Hrand].
  pose proof (RAKP12_grants p s a n tag rcRand role name passwd acc ca bmcRand Hen Hu Ha Hrc Hname G Hrand) as H1.
  set (s1 := challenged_session s a n role name passwd rcRand bmcRand acc ca) in H1.
  set (n0 := n <| rng := S (rng n) |>) in H1.
  eexists _, _, s1. split; [exact H1|]. split; [apply lookup_insert_eq|].
  do 4 (split; [done|]). intros h level Hh Hl1 Hl2 Hl3 Hl4.
  unfold Privilege.USER, Privilege.OEM in Hl1. unfold setSessionPrivilegeLevel. cbn [length Nat.eqb negb].
  rewrite (bind_Ret (rd8 [level] 0) _ _ level (set_obj p s1 n0)) by done.
  assert (Z.shiftr level 4 = 0 /\ Z.land level 0xF = level) as [-> ->].
  { split; [rewrite Z.shiftr_div_pow2 by lia; apply Z.div_small; cbn; lia|].
    change 0xF with (2 ^ 4 - 1). rewrite land_mask by lia. apply Z.mod_small. cbn. lia. }
  cbn [Z.eqb negb]. rewrite Hh.
  rewrite (bind_Ret (getSession _) _ _ p (set_obj p s1 n0)) by by apply getSession_Ret.
  rewrite (bind_Ret _ _ _ _ _ (obj_set p s1 n0)).
  rewrite (proj2 (Z.eqb_neq level 0)) by lia.
  rewrite (proj2 (Z.eqb_neq level Privilege.CALLBACK)) by (unfold Privilege.CALLBACK; lia).
  rewrite (proj2 (Z.ltb_ge Privilege.OEM level)) by (unfold Privilege.OEM; lia). cbn [orb].
  change (reqMaxPrivLevel s1) with role. rewrite (proj2 (Z.ltb_ge (Z.land role reqMaxPrivMask) level)) by lia.
  assert (min_priv s1 = Z.min (privLimit ca) (privilege acc)) as ->.
  { unfold min_priv. change (sessionChannelAccess s1) with ca. change (sessionUserPrivAccess s1) with acc.
    destruct (Z.ltb_spec (privLimit ca) (privilege acc)); lia. }
  rewrite (proj2 (Z.ltb_ge _ level)) by lia.
  rewrite (bind_Ret _ _ _ _ _ (on_info_set p _ s1 n0)).
  eexists. split; [reflexivity|]. eexists. split; [apply lookup_insert_eq|done].
Qed.
End ExchangeTheorems.

(** ** Open Session *)
Section Opening.
Context `{Crypto, Settings} `{!CryptoTotal _}.
Hypothesis initial_inactive : state initial_info <> State.active.

(** The [j]-th call of [RAND_bytes] gives an id that is not in use. *)
Definition fresh_draw (n : Net) (j : nat) : Prop :=
  exists l, RAND_bytes j 4 = Some l /\
    sessionsMap n !! candidate_id (ipmiNetworkInstance n) (le_value l) = None.

Lemma draw_id_total fuel : forall n,
  (exists k, (k < fuel)%nat /\ fresh_draw n (rng n + k)) -> exists id n', draw_id fuel n = Ret id n'.
Proof.
  induction fuel as [|fuel IH]; intros n (k & Hk & Hf); [lia|]. cbn [draw_id].
  destruct (RAND_total (rng n) 4) as [l Hl]. set (n1 := n <| rng := S (rng n) |>).
  rewrite (bind_Ret prng_rand _ n (le_value l) n1) by (unfold prng_rand, rand_bytes, bind; by rewrite Hl).
  unfold bind at 1. cbn [get]. change (sessionsMap n1) with (sessionsMap n).
  change (ipmiNetworkInstance n1) with (ipmiNetworkInstance n).
  destruct (sessionsMap n !! _) as [q|] eqn:Hq; [|by eexists _, _].
  apply IH. destruct k as [|k].
  - destruct Hf as (l' & Hl' & Hn). rewrite Nat.add_0_r, Hl in Hl'. injection Hl' as <-. congruence.
  - exists k. split; [lia|]. change (rng n1) with (S (rng n)).
    by replace (S (rng n) + k)%nat with (rng n + S k)%nat by lia.
Qed.

(** The ids that the next [id_fuel] draws of the random source make. *)
Definition drawn_ids (n : Net) : list Z :=
  omap (fun k => (fun l => candidate_id (ipmiNetworkInstance n) (le_value l)) <$> RAND_bytes k 4)
    (seq (rng n) id_fuel).

(** A random source that makes more different ids than the table has room for
    makes one that is not in use: the table cannot hold them all. *)
Lemma drawn_fresh n : table_ok n ->
  (maxSessionHandles < size (list_to_set (C := gset Z) (drawn_ids n)))%nat ->
  exists k, (k < id_fuel)%nat /\ fresh_draw n (rng n + k).
Proof.
  intros T Hsize.
  destruct (decide (Exists (fun id => sessionsMap n !! id = None) (drawn_ids n))) as [He|He].
  - apply Exists_exists in He as (id & Hin & Hfree). apply list_elem_of_omap in Hin as (k & Hk & E).
    apply elem_of_seq in Hk. exists (k - rng n)%nat. split; [lia|].
    replace (rng n + (k - rng n))%nat with k by lia.
    destruct (RAND_bytes k 4) as [l|] eqn:Hl; [|done]. injection E as <-. by exists l.
  - exfalso. assert (list_to_set (drawn_ids n) ⊆ dom (sessionsMap n)) as Hsub.
    { intros id Hin. apply elem_of_list_to_set in Hin. apply elem_of_dom.
      destruct (sessionsMap n !! id) eqn:E; [by eexists|]. exfalso. apply He, Exists_exists. eauto. }
    apply subseteq_size in Hsub. rewrite size_dom in Hsub. pose proof (table_size n T). lia.
Qed.

Definition same_rng (n n' : Net) : Prop := rng n' = rng n.
#[local] Instance same_rng_preorder : PreOrder same_rng.
Proof. split; [by intros n|]. unfold same_rng. intros ???; congruence. Qed.

Lemma same_rng_cleaner : preserves same_rng cleanStaleEntries.
Proof.
  unfold cleanStaleEntries, graces, idle_divisor, sint, scheduleSessionCleaner.
  preserve_with ltac:(idtac; first
    [ by apply preserves_modify
    | apply preserves_mfor; [exact _|]; intros kp; unfold clean_entry, obj, deref, of_option;
      intros n; unfold bind, get, ret, modify, undef;
      destruct (heap n !! kp.2); [|done]; cbn;
      destruct (_ =? _); [done|]; by destruct (isSessionActive _ _ _ _) ]).
Qed.

Lemma startSession_defined n rc priv f :
  table_ok n -> (exists k, (k < id_fuel)%nat /\ fresh_draw n (rng n + k)) ->
  startSession rc priv RAKP_HMAC_SHA256 HMAC_SHA256_128 AES_CBC_128 n <> Undef f.
Proof.
  intros T (k & Hk & l & Hl & Hfree). unfold startSession.
  destruct (cleanStaleEntries_Ret n T) as (ag & sg & n1 & _ & Hc & T1 & _ & _ & _ & Hi1 & Hm1).
  rewrite (bind_Ret _ _ _ _ _ Hc).
  pose proof (preserves_Ret same_rng _ _ _ _ same_rng_cleaner Hc) as Hr1. unfold same_rng in Hr1.
  destruct (same_tables_schedule (1 * 1000 * 1000) n1) as (n2 & Hs2 & (Hm2 & _ & Hi2 & _) & _ & _).
  assert (rng n2 = rng n1) as Hr2.
  { revert Hs2. unfold scheduleSessionCleaner, bind, get. destruct (_ && _); by intros [= <-]. }
  rewrite (bind_Ret _ _ _ _ _ Hs2). unfold bind at 1. cbn [get].
  destruct (u64 _ <? _); [|done].
  destruct (draw_id_total id_fuel n2) as (id & n3 & Hd).
  { exists k. split; [done|]. exists l. rewrite Hr2, Hr1. split; [done|]. rewrite Hm2, Hi2, Hi1.
    destruct (sessionsMap n1 !! _) as [q|] eqn:Hq; [|done]. apply Hm1 in Hq as [Hq _]. congruence. }
  rewrite (bind_Ret _ _ _ _ _ Hd).
  destruct (storeSessionHandle_spec n3 id) as [(i & Hi & _ & Hst)|[Hst _]];
    rewrite (bind_Ret _ _ _ _ _ Hst); [|done].
  rewrite (proj2 (Z.eqb_neq _ _)) by lia. done.
Qed.

(** The fields of the request. *)
Definition ask_tag (l : list Z) : Z := l !!! 0%nat.
Definition ask_role (l : list Z) : Z := Z.land (l !!! 1%nat) 0xF.
Definition ask_console (l : list Z) : list Z := take 4 (drop 4 l).

(** The first of the three proposals that the daemon does not support decides
    the status. *)
Definition proposal_error (l : list Z) : option Z :=
  if negb (Z.land (l !!! 12%nat) 0x3F =? RAKP_HMAC_SHA256) then Some RAKP_ReturnCode.INVALID_AUTH_ALGO
  else if negb (Z.land (l !!! 20%nat) 0x3F =? HMAC_SHA256_128) then Some RAKP_ReturnCode.INVALID_INTEGRITY_ALGO
  else if negb (Z.land (l !!! 28%nat) 0x3F =? AES_CBC_128) then Some RAKP_ReturnCode.INVALID_CONF_ALGO
  else None.

(** The privilege a session is started with, the reply, and its start. *)
Definition asked_priv (role : Z) : Z := if role =? 0 then Privilege.ADMIN else role.
Definition open_reply (l : list Z) (s : Session) : list Z :=
  [ask_tag l; RAKP_ReturnCode.NO_ERROR; Z.land (reqMaxPrivLevel s) 0xF; 0] ++ ask_console l
  ++ to_ipmi32 (s_bmcSessionID s)
  ++ algo_payload (l !!! 8%nat) (l !!! 11%nat) RAKP_HMAC_SHA256
  ++ algo_payload (l !!! 16%nat) (l !!! 19%nat) HMAC_SHA256_128
  ++ algo_payload (l !!! 24%nat) (l !!! 27%nat) AES_CBC_128.
Definition start_asked (l : list Z) :=
  startSession (le_value (ask_console l)) (asked_priv (ask_role l)) RAKP_HMAC_SHA256 HMAC_SHA256_128 AES_CBC_128.

Lemma openSession_length n l : length l <> sizeof_OpenSessionRequest ->
  openSession l n = Ret [IPMI_CC_REQ_DATA_LEN_INVALID] n.
Proof. intros Hl. unfold openSession. by rewrite (proj2 (Nat.eqb_neq _ _) Hl). Qed.

(** What follows the start of a session. *)
Definition answer_started (l : list Z) (reply : Session -> list Z) (started : option nat) : M Net (list Z) :=
  match started with
  | None => ret (open_error (ask_tag l) RAKP_ReturnCode.INSUFFICIENT_RESOURCE (ask_console l))
  | Some p =>
      let! s := obj p in
      updateLastTransactionTime p ;;;
      on_info p (fun i => i <| state := State.setupInProgress |>) ;;;
      ret (reply s)
  end.

Lemma openSession_shape n l : length l = sizeof_OpenSessionRequest ->
  openSession l n =
    match proposal_error l with
    | Some status => Ret (open_error (ask_tag l) status (ask_console l)) n
    | None =>
        bind (try (let! p := start_asked l in ret (Some p)) (fun _ => ret None))
          (answer_started l (open_reply l)) n
    end.
Proof.
  intros Hl. set (A := Z.land (l !!! 12%nat) 0x3F). set (I := Z.land (l !!! 20%nat) 0x3F).
  set (C := Z.land (l !!! 28%nat) 0x3F).
  assert (openSession l n =
    (if negb (A =? RAKP_HMAC_SHA256) then ret (open_error (ask_tag l) RAKP_ReturnCode.INVALID_AUTH_ALGO (ask_console l))
     else if negb (I =? HMAC_SHA256_128)
     then ret (open_error (ask_tag l) RAKP_ReturnCode.INVALID_INTEGRITY_ALGO (ask_console l))
     else if negb (C =? AES_CBC_128)
     then ret (open_error (ask_tag l) RAKP_ReturnCode.INVALID_CONF_ALGO (ask_console l))
     else bind (try (let! p := startSession (le_value (ask_console l)) (asked_priv (ask_role l)) A I C in ret (Some p))
                    (fun _ => ret None))
            (answer_started l (fun s =>
               [ask_tag l; RAKP_ReturnCode.NO_ERROR; Z.land (reqMaxPrivLevel s) 0xF; 0] ++ ask_console l
               ++ to_ipmi32 (s_bmcSessionID s)
               ++ algo_payload (l !!! 8%nat) (l !!! 11%nat) A ++ algo_payload (l !!! 16%nat) (l !!! 19%nat) I
               ++ algo_payload (l !!! 24%nat) (l !!! 27%nat) C))) n) as ->.
  { subst A I C. unfold sizeof_OpenSessionRequest in Hl. do 32 (destruct l as [|? l]; [discriminate Hl|]).
    destruct l; [|discriminate Hl]. reflexivity. }
  unfold proposal_error. fold A I C.
  destruct (Z.eqb_spec A RAKP_HMAC_SHA256) as [->|]; cbn [negb]; [|reflexivity].
  destruct (Z.eqb_spec I HMAC_SHA256_128) as [->|]; cbn [negb]; [|reflexivity].
  destruct (Z.eqb_spec C AES_CBC_128) as [->|]; cbn [negb]; reflexivity.
Qed.

Lemma openSession_refused n n1 e l : length l = sizeof_OpenSessionRequest -> proposal_error l = None ->
  start_asked l n = Throw e n1 ->
  openSession l n = Ret (open_error (ask_tag l) RAKP_ReturnCode.INSUFFICIENT_RESOURCE (ask_console l)) n1.
Proof.
  intros Hl Hp E. rewrite openSession_shape by done. rewrite Hp. unfold bind at 1, try. unfold bind at 1. by rewrite E.
Qed.
Lemma openSession_created n n1 p s l : length l = sizeof_OpenSessionRequest -> proposal_error l = None ->
  start_asked l n = Ret p n1 -> heap n1 !! p = Some s ->
  openSession l n =
    Ret (open_reply l s) (set_obj p (s <| lastTime := now n1 |> <| info := (info s) <| state := State.setupInProgress |> |>) n1).
Proof.
  intros Hl Hpr E Hp. rewrite openSession_shape by done. rewrite Hpr. unfold answer_started.
  unfold bind at 1, try. unfold bind at 1. rewrite E. unfold ret at 1.
  rewrite (set_obj_self p s n1 Hp) at 1. rewrite (bind_Ret _ _ _ _ _ (obj_set p s n1)).
  rewrite (bind_Ret _ _ _ _ _ (touch_set p s n1)), (bind_Ret _ _ _ _ _ (on_info_set p _ _ n1)). reflexivity.
Qed.

Lemma asked_priv_small l : Z.land (asked_priv (ask_role l)) 0xF = asked_priv (ask_role l).
Proof.
  unfold asked_priv, ask_role. destruct (_ =? _); [reflexivity|].
  rewrite <- Z.land_assoc. reflexivity.
Qed.

(** A session created for the request [l]: a new object, entered in the table
    under an id of its own, in setup, without keys, with the console's id and
    the role that was asked for. *)
Definition session_opened (l : list Z) (n n' : Net) (s : Session) : Prop :=
  exists p a, heap n !! p = None /\ enrolled n' p s /\
    (forall q, q <> p -> heap n' !! q = heap n !! q) /\
    state (info s) = State.setupInProgress /\ remoteConsoleSessionID s = le_value (ask_console l) /\
    authAlgoInterface s = Some a /\ sessionIntegrityKey a = [] /\ keys s = (None, None) /\
    reqMaxPrivLevel s = asked_priv (ask_role l).

(** C37. Open Session always answers, whatever arrives, when the
    random source makes more different ids within the fuel of the draw than
    the session table has room for.  A request of another length and one that
    proposes an algorithm the daemon does not support are refused and change
    nothing; any other request is refused only if, after the idle sessions
    were removed, no slot is free, and then changes no session object; or it
    creates a session of its own: a new object, entered in the table under the
    id the reply gives, in setup, without keys, with the console's id and the
    role it asked for (administrator if it asked for the highest). *)
Theorem open_session_answers n l :
  table_ok n -> (maxSessionHandles < size (list_to_set (C := gset Z) (drawn_ids n)))%nat ->
  exists reply n', openSession l n = Ret reply n' /\ table_ok n' /\
    if negb (length l =? sizeof_OpenSessionRequest)%nat
    then reply = [IPMI_CC_REQ_DATA_LEN_INVALID] /\ n' = n
    else match proposal_error l with
    | Some status => reply = open_error (ask_tag l) status (ask_console l) /\ n' = n
    | None =>
        reply = open_error (ask_tag l) RAKP_ReturnCode.INSUFFICIENT_RESOURCE (ask_console l) /\
          heap n' = heap n /\ slots_taken n' \/
        exists s, session_opened l n n' s /\
          reply = [ask_tag l; RAKP_ReturnCode.NO_ERROR; reqMaxPrivLevel s; 0] ++ ask_console l ++
                  to_ipmi32 (s_bmcSessionID s) ++
                  algo_payload (l !!! 8%nat) (l !!! 11%nat) RAKP_HMAC_SHA256 ++
                  algo_payload (l !!! 16%nat) (l !!! 19%nat) HMAC_SHA256_128 ++
                  algo_payload (l !!! 24%nat) (l !!! 27%nat) AES_CBC_128
    end.
Proof.
  intros T Hsize. pose proof (drawn_fresh n T Hsize) as Hfresh.
  destruct (Nat.eqb_spec (length l) sizeof_OpenSessionRequest) as [Hl|Hl]; cbn [negb].
  2: { eexists _, n. split; [by apply openSession_length|]. by split. }
  destruct (proposal_error l) as [status|] eqn:Hpr.
  { eexists _, n. split; [rewrite openSession_shape, Hpr by done; reflexivity|]. by split. }
  pose proof (evolves_openSession initial_inactive tame (fun _ _ x => x) tame_sound l n) as Hev.
  pose proof (startSession_spec initial_inactive n (le_value (ask_console l)) (asked_priv (ask_role l)) T) as HS.
  fold (start_asked l) in HS. destruct (start_asked l n) as [p n1|e n1|f] eqn:Hst.
  3: { by destruct (startSession_defined n (le_value (ask_console l)) (asked_priv (ask_role l)) f T Hfresh). }
  2: { destruct HS as (T1 & Hh1 & Htaken). eexists _, n1. split; [by apply openSession_refused with e|].
       split; [done|by left]. }
  destruct HS as (n0 & i & s & T0 & Hh0 & Hp0 & Hx0 & Hn0 & Hn1 & T1 & Hz & Hs).
  assert (heap n1 !! p = Some s) as Hps by (subst n1 p; apply lookup_insert_eq).
  pose proof (openSession_created n n1 p s l Hl Hpr Hst Hps) as Hf. set (s2 := s <| lastTime := _ |> <| info := _ |>) in Hf.
  rewrite Hf in Hev. destruct (Hev T) as [T2 _].
  exists (open_reply l s), (set_obj p s2 n1). split; [exact Hf|]. split; [exact T2|]. right.
  assert (reqMaxPrivLevel s = asked_priv (ask_role l) /\ remoteConsoleSessionID s = le_value (ask_console l) /\
    keys s = (None, None) /\ authAlgoInterface s = Some (new_AuthAlgo SHA256 HMAC_SHA256_128 AES_CBC_128))
    as (Hreq & Hrem & Hkeys & Hauth) by (rewrite Hs; by split_and!).
  exists s2. split.
  - exists p, (new_AuthAlgo SHA256 HMAC_SHA256_128 AES_CBC_128).
    split; [rewrite Hp0, Hx0; by apply (t_fresh n T)|].
    split. { split; [apply lookup_insert_eq|]. split; [subst n1 p; apply lookup_insert_eq|exact Hz]. }
    split. { intros q Hq. cbn. rewrite lookup_insert_ne by done. rewrite Hn1. cbn.
             rewrite lookup_insert_ne by congruence. by rewrite Hh0. }
    by split_and!.
  - unfold open_reply. change (reqMaxPrivLevel s2) with (reqMaxPrivLevel s).
    change (s_bmcSessionID s2) with (s_bmcSessionID s). do 2 f_equal. by rewrite Hreq, asked_priv_small.
Qed.
End Opening.

(** ** The theorems on the sample run *)
Section SampleRun.

Lemma heap_challenged : heap challenged !! 1%nat = Some (sample_session challenged).
Proof. vm_compute. reflexivity. Defined.
Lemma heap_established : heap established !! 1%nat = Some (sample_session established).
Proof. vm_compute. reflexivity. Defined.
Lemma heap_opened : heap opened !! 1%nat = Some (sample_session opened).
Proof. vm_compute. reflexivity. Defined.

Lemma opened_ok : table_ok opened.
Proof. exact (reachable_table_ok sample_inactive _ _ _ _ opened_reachable). Defined.

Lemma sample_enrolled n :
  heap n !! 1%nat = Some (sample_session n) ->
  sessionsMap n !! s_bmcSessionID (sample_session n) = Some 1%nat ->
  s_bmcSessionID (sample_session n) <> 0 -> enrolled n 1 (sample_session n).
Proof. intros H1 H2 H3. exact (conj H1 (conj H2 H3)). Defined.

Lemma activation_requires_proof_witness : exists ch packet m h,
  i_event (packet_input 4000 rakp3_packet) = EPacket ch (Some packet) /\
  parser.unflatten packet (arrive (packet_input 4000 rakp3_packet) challenged) =
    Ret (m, h) (arrive (packet_input 4000 rakp3_packet) challenged) /\
  payloadType m = PayloadType.RAKP3 /\ proves_key (payload m) (sample_session challenged).
Proof.
  apply (activation_requires_proof sample_inactive challenged (packet_input 4000 rakp3_packet) established
           1 (sample_session challenged) (sample_session established)).
  - exact challenged_ok.
  - vm_compute. reflexivity.
  - intros ch packet He. cbn [i_event packet_input] in He. injection He as _ <-.
    apply (bool_decide_unpack _). vm_compute. reflexivity.
  - exact heap_challenged.
  - exact heap_established.
  - vm_compute. reflexivity.
  - vm_compute. discriminate.
Defined.

Lemma active_sessions_are_protected_witness : exists i k2,
  integrityAlgoInterface (sample_session established) = Some i /\
  cryptAlgoInterface (sample_session established) = Some k2 /\ authentic i sample_packet.
Proof.
  destruct (active_sessions_are_protected sample_users None 1000 established established sample_packet
              sample_message IPMI20 1 (sample_session established))
    as (_ & _ & _ & i & k2 & Hi & Hk & Ha).
  - exact sample_inactive.
  - exact established_reachable.
  - exact sample_accepted.
  - apply (bool_decide_unpack _). vm_compute. reflexivity.
  - discriminate.
  - vm_compute. reflexivity.
  - exact heap_established.
  - vm_compute. reflexivity.
  - exists i, k2. split; [exact Hi|]. split; [exact Hk|exact Ha].
Defined.

Lemma sample_granted n name :
  users n = sample_users -> name = [97] \/ name = [98] ->
  granted (users n) (u8 getInterfaceIndex) 0x13 name
    (ipmiUserGetPassword sample_users name)
    {| privilege := if bool_decide (name = [97]) then Privilege.ADMIN else Privilege.OPERATOR;
       ipmiEnabled := true |}
    {| accessMode := 2; privLimit := Privilege.ADMIN |}.
Proof.
  intros -> [->| ->]; constructor; try (vm_compute; reflexivity); try (vm_compute; discriminate);
    intros; try (vm_compute; reflexivity); apply Nat.leb_le || split; try apply Nat.leb_le; reflexivity.
Defined.

Lemma opened_enrolled : enrolled opened 1 (sample_session opened).
Proof.
  exact (sample_enrolled opened heap_opened ltac:(vm_compute; reflexivity) ltac:(vm_compute; discriminate)).
Defined.
Lemma established_enrolled : enrolled established 1 (sample_session established).
Proof.
  exact (sample_enrolled established heap_established ltac:(vm_compute; reflexivity)
           ltac:(vm_compute; discriminate)).
Defined.

Lemma key_exchange_agrees_witness : exists bmcRand n1 n2 s' reply2 reply4,
  RAKP12 (rakp1_request 9 (s_bmcSessionID (sample_session opened)) console_rand 0x13 [97]) opened
    = Ret reply2 n1 /\
  RAKP34 (rakp3_request 9 (s_bmcSessionID (sample_session opened))
            (console_proof (resize USER_KEY_MAX_LENGTH [112; 119]) bmcRand
               (remoteConsoleSessionID (sample_session opened)) 0x13 [97])) n1 = Ret reply4 n2 /\
  heap n2 !! 1%nat = Some s' /\ active_session s'.
Proof.
  destruct (key_exchange_agrees opened 1 (sample_session opened) 9 console_rand 0x13 [97] [112; 119]
      {| privilege := Privilege.ADMIN; ipmiEnabled := true |}
      {| accessMode := 2; privLimit := Privilege.ADMIN |} opened_ok opened_enrolled)
    as (bmcRand & n1 & n2 & s' & k1 & k2 & H1 & _ & H2 & _ & _ & Hs & Ha & _).
  - intros a Ha. vm_compute in Ha. apply (inj Some) in Ha. subst a. reflexivity.
  - reflexivity.
  - split; [discriminate|reflexivity].
  - split; apply Nat.leb_le; reflexivity.
  - exact (sample_granted opened [97] ltac:(vm_compute; reflexivity) (or_introl eq_refl)).
  - exists bmcRand, n1, n2, s'. eexists _, _.
    exact (conj H1 (conj H2 (conj Hs Ha))).
Defined.

Definition auth_of (s : Session) : AuthAlgo := default (new_AuthAlgo SHA1 0 0) (authAlgoInterface s).

Lemma wrong_proof_tears_down_witness : exists n' s',
  RAKP34 (rakp3_request 9 opened_id [0]) established =
    Ret (rakp4_response 9 RAKP_ReturnCode.INVALID_INTEGRITY_VALUE 77) n' /\
  active_session (sample_session established) /\
  heap n' !! 1%nat = Some s' /\ state (info s') = State.tearDownInProgress.
Proof.
  destruct (wrong_proof_tears_down established 1 (sample_session established)
              (auth_of (sample_session established)) bmc_rand (rakp3_request 9 opened_id [0]))
    as (tag & Ht & Hr).
  - exact established_enrolled.
  - vm_compute. reflexivity.
  - vm_compute. reflexivity.
  - apply Nat.leb_le. reflexivity.
  - vm_compute. reflexivity.
  - intros (a & r & _ & _ & _ & Hm). apply (f_equal length) in Hm. revert Hm.
    unfold auth_generateHMAC. destruct (authDigest a); discriminate.
  - apply (inj Some) in Ht. subst tag. eexists _, _. split; [exact Hr|].
    split; [vm_compute; reflexivity|]. split; [apply lookup_insert_eq|reflexivity].
Defined.

Lemma rakp1_rebinds_active_session_witness : exists reply n' s',
  RAKP12 (rakp1_request 9 (s_bmcSessionID (sample_session established)) console_rand 0x13 [98])
    established = Ret reply n' /\
  heap n' !! 1%nat = Some s' /\ active_session s' /\ userName s' = [98] /\
  userName (sample_session established) = [97].
Proof.
  destruct (rakp1_rebinds_active_session established 1 (sample_session established) 9 console_rand 0x13
      [98] [113; 119] {| privilege := Privilege.OPERATOR; ipmiEnabled := true |}
      {| accessMode := 2; privLimit := Privilege.ADMIN |} established_ok established_enrolled)
    as (reply & n' & s' & Hr & Hs & Ha & _ & Hu & _).
  - vm_compute. reflexivity.
  - reflexivity.
  - split; apply Nat.leb_le; reflexivity.
  - exact (sample_granted established [98] ltac:(vm_compute; reflexivity) (or_intror eq_refl)).
  - exists reply, n', s'. split; [exact Hr|]. split; [exact Hs|]. split; [exact Ha|].
    split; [exact Hu|]. vm_compute. reflexivity.
Defined.

Lemma booted_ok : table_ok booted.
Proof. exact (reachable_table_ok sample_inactive _ _ _ _ booted_reachable). Defined.

(** The request of a console for the algorithms of the daemon. *)
Definition sample_open_request : list Z :=
  [9; 4; 0; 0; 77; 0; 0; 0] ++ algo_payload 0 8 RAKP_HMAC_SHA256 ++ algo_payload 1 8 HMAC_SHA256_128
  ++ algo_payload 2 8 AES_CBC_128.

Lemma open_session_answers_witness :
  (exists reply n', openSession sample_open_request booted = Ret reply n' /\ table_ok n' /\
     take 4 reply = [9; 0; 4; 0]) /\
  exists reply, openSession [9; 4; 0] booted = Ret reply booted.
Proof.
  assert (maxSessionHandles < size (list_to_set (C := gset Z) (drawn_ids booted)))%nat as Hsize
    by (apply Nat.ltb_lt; vm_compute; reflexivity).
  split.
  - destruct (open_session_answers sample_inactive booted sample_open_request booted_ok Hsize)
      as (reply & n' & Hr & Ht & H).
    exists reply, n'. split; [exact Hr|]. split; [exact Ht|].
    destruct H as [(_ & _ & Hfull)|(s & (p & a & _ & _ & _ & _ & _ & _ & _ & _ & Hq) & ->)].
    + exfalso. revert Hr. vm_compute. intros [= _ <-]. apply (Hfull 2%nat 0); [lia|reflexivity|done].
    + rewrite Hq. reflexivity.
  - destruct (open_session_answers sample_inactive booted [9; 4; 0] booted_ok Hsize)
      as (reply & n' & Hr & _ & _ & ->). by exists reply.
Defined.
End SampleRun.
