(* ===== verification/SolSpec.v ===== *)
(** * Properties of serial over LAN

    The console buffer is a queue.  At most one packet of it is outstanding: the
    packet kept for retries is a header and a prefix of the buffer, in every
    reachable state; an acknowledgement removes exactly that prefix; what the
    host writes is appended; nothing else touches the buffer while a payload
    instance exists. *)
From Stdlib Require Import ZArith Lia String.
From stdpp Require Import base list gmap.
From S2P Require Import Prelude RmcpMessage RmcpCrypto RmcpState RmcpSession RmcpParser RmcpHandler.
From S2P Require Import Sol RmcpSetup RmcpCommands RmcpDaemon RmcpSample RmcpParserSpec.
From S2P Require Import RmcpSessionSpec RmcpSetupSpec.
Local Open Scope Z_scope.

#[local] Hint Constants Opaque : preserves.

(** ** The invariant *)

(** No packet is outstanding, or the cached one holds the sequence number last
    used and the first [expectedCharCount] bytes of the buffer [b]. *)
Definition outstanding (b : list Z) (c : Context) : Prop :=
  (payloadCache c = [] /\ expectedCharCount c = 0%nat) \/
  exists ack count op,
    payloadCache c = [sol_out c; ack; count; op] ++ take (expectedCharCount c) b /\
    (expectedCharCount c <= length b)%nat /\ (expectedCharCount c <= SOL_MAX_PAYLOAD_SIZE)%nat /\
    1 <= sol_out c.

Record context_ok (b : list Z) (c : Context) : Prop := {
  co_outstanding : outstanding b c;
  co_in : 1 <= sol_in c < MAX_SOL_SEQUENCE_NUMBER;
  co_out : 0 <= sol_out c < MAX_SOL_SEQUENCE_NUMBER }.

(** The only payload instance is 1. *)
Definition sol_ok (m : SolManager) : Prop := forall i c,
  payloadMap m !! i = Some c -> i = 1 /\ context_ok (dataBuffer m) c.

Definition keeps_sol (n n' : Net) : Prop := sol_ok (sol n) -> sol_ok (sol n').
#[export] Instance keeps_sol_preorder : PreOrder keeps_sol.
Proof. split; [intros n Hn; exact Hn|]. unfold keeps_sol. intros ???; auto. Qed.

Lemma next_sol_seq_range z : 0 <= z < MAX_SOL_SEQUENCE_NUMBER ->
  1 <= next_sol_seq z < MAX_SOL_SEQUENCE_NUMBER.
Proof.
  unfold next_sol_seq, MAX_SOL_SEQUENCE_NUMBER, u8. intros Hz. rewrite Z.mod_small by lia.
  destruct (Z.eqb_spec (z + 1) 16); lia.
Qed.

(** ** Updates of the manager and of a context *)
Section Updates.

Lemma sol_alter n i f :
  (forall c, payloadMap (sol n) !! i = Some c -> context_ok (dataBuffer (sol n)) c ->
     context_ok (dataBuffer (sol n)) (f c)) ->
  keeps_sol n (n <| sol := (sol n) <| payloadMap := alter f i (payloadMap (sol n)) |> |>).
Proof.
  intros Hf Hok j c Hj. cbn in Hj. destruct (decide (j = i)) as [->|Hne].
  - rewrite lookup_alter_eq in Hj. destruct (payloadMap (sol n) !! i) as [c0|] eqn:Hc; [|discriminate].
    injection Hj as <-. destruct (Hok _ _ Hc) as [-> Hc0]. split; [done|]. by apply Hf.
  - rewrite lookup_alter_ne in Hj by done. by apply Hok.
Qed.

Lemma sol_on_ctx i f :
  (forall b c, context_ok b c -> context_ok b (f c)) -> preserves keeps_sol (on_ctx i f).
Proof. intros Hf. apply preserves_modify. intros n. apply sol_alter. intros. by apply Hf. Qed.

(** Timers and counters. *)
Lemma sol_on_timers i f :
  (forall c, (payloadCache (f c), expectedCharCount (f c), sol_in (f c), sol_out (f c)) =
             (payloadCache c, expectedCharCount c, sol_in c, sol_out c)) ->
  preserves keeps_sol (on_ctx i f).
Proof.
  intros Hf. apply sol_on_ctx. intros b c [O I U]. specialize (Hf c). injection Hf as E1 E2 E3 E4.
  constructor; unfold outstanding in *; congruence || (rewrite E1, E2, E4; exact O).
Qed.

(** Settings, the socket and what was written to it. *)
Lemma sol_on_sol f :
  (forall m, payloadMap (f m) = payloadMap m /\ dataBuffer (f m) = dataBuffer m) ->
  preserves keeps_sol (on_sol f).
Proof.
  intros Hf. apply preserves_modify. intros n Hok i c Hc. cbn in *. destruct (Hf (sol n)) as [E1 E2].
  rewrite E1 in Hc. rewrite E2. by apply Hok.
Qed.

Lemma context_append b l c : context_ok b c -> context_ok (b ++ l) c.
Proof.
  intros [O I U]. constructor; [|done..]. destruct O as [O|(a & k & op & E & H1 & H2 & H3)]; [by left|right].
  exists a, k, op. rewrite E, take_app_le by done. rewrite length_app. split_and!; try done; lia.
Qed.

Lemma set_sol_property_frame m p :
  payloadMap (set_sol_property m p) = payloadMap m /\
  dataBuffer (set_sol_property m p) = dataBuffer m.
Proof. by destruct p. Qed.

Lemma sol_procSolConfChange l : preserves keeps_sol (procSolConfChange l).
Proof.
  apply sol_on_sol. intros m. revert m. induction l as [|p l IH]; intros m; cbn; [done|].
  destruct (IH (set_sol_property m p)) as [-> ->]. apply set_sol_property_frame.
Qed.
End Updates.
#[export] Hint Resolve sol_procSolConfChange : preserves.

Ltac sol_leaf :=
  idtac; lazymatch goal with
  | |- preserves _ (modify _) => apply preserves_modify; intros ? Hs; exact Hs
  | |- preserves _ (on_ctx _ _) => apply sol_on_timers; by intros
  | |- preserves _ (on_sol _) => apply sol_on_sol; by intros
  | |- preserves _ (on_obj _ _) => apply preserves_modify; intros ? Hs; exact Hs
  end.
Ltac keeps_sol_tac := preserve_with sol_leaf.

(** ** The operations of serial over LAN *)
Section Operations.
Context `{Crypto, Settings}.

Lemma unchanged_keeps_sol {A} (m : M Net A) : preserves unchanged m -> preserves keeps_sol m.
Proof. intros Hm n. specialize (Hm n). destruct (m n); [rewrite Hm; reflexivity..|done]. Qed.
Lemma sol_obj p : preserves keeps_sol (obj p).
Proof. apply unchanged_keeps_sol, unchanged_obj. Qed.
Lemma sol_get_ctx i : preserves keeps_sol (get_ctx i).
Proof. intros n. unfold get_ctx. destruct (payloadMap (sol n) !! i); [cbn; reflexivity|done]. Qed.
Lemma sol_rand k : preserves keeps_sol (rand_bytes k).
Proof. intros n Hs. exact Hs. Qed.
Lemma sol_getSession id : preserves keeps_sol (getSession id).
Proof. apply unchanged_keeps_sol, unchanged_getSession. Qed.
Lemma sol_channel_write ch packet : preserves keeps_sol (channel_write ch packet).
Proof.
  intros n. unfold channel_write. destruct (writeResults n) as [|r rs]; [by intros Hs|].
  destruct (r <? 0); by intros Hs.
Qed.
Lemma sol_unflatten packet : preserves keeps_sol (parser.unflatten packet).
Proof. apply unchanged_keeps_sol, unchanged_unflatten. Qed.
#[local] Hint Resolve sol_obj sol_get_ctx sol_rand sol_getSession sol_channel_write sol_unflatten
  : preserves.

Lemma sol_send h m : preserves keeps_sol (send h m).
Proof.
  unfold send, writeData, parser.flatten, ipmi15parser.flatten, ipmi20parser.flatten,
    ipmi20parser.addSequenceNumber, ipmi20parser.addIntegrityData, ipmi20parser.encryptPayload,
    generateIntegrityData, integrity_generateHMAC, aes_encryptPayload, encryptData,
    getIntegrityAlgo, getCryptAlgo, on_obj. keeps_sol_tac.
Qed.
#[local] Hint Resolve sol_send : preserves.
Lemma sol_destroy h : preserves keeps_sol (destroy h).
Proof. unfold destroy, sendASF, writeData, createResponse, rd8, idx. keeps_sol_tac. Qed.
Lemma sol_sendPayload i l : preserves keeps_sol (sendPayload i l).
Proof. unfold sendPayload, new_Handler, sendSOLPayload, session_message. keeps_sol_tac. Qed.
Lemma sol_accumulate i on : preserves keeps_sol (enableAccumulateTimer i on).
Proof. unfold enableAccumulateTimer. keeps_sol_tac. Qed.
Lemma sol_retry i on : preserves keeps_sol (enableRetryTimer i on).
Proof. unfold enableRetryTimer. keeps_sol_tac. Qed.
Lemma sol_console l b : preserves keeps_sol (writeConsoleSocket l b).
Proof. unfold writeConsoleSocket. keeps_sol_tac. Qed.
#[local] Hint Resolve sol_destroy sol_sendPayload sol_accumulate sol_retry sol_console : preserves.

(** A first step taken in a known state. *)
Lemma osat_step {A B} (m : M Net A) (k : A -> M Net B) n :
  osat (keeps_sol n) (m n) -> (forall a, preserves keeps_sol (k a)) -> osat (keeps_sol n) (bind m k n).
Proof.
  intros Hm Hk. unfold bind. destruct (m n) as [a n1|e n1|]; [|done..].
  specialize (Hk a n1). unfold osat in *. destruct (k a n1); [by transitivity n1..|done].
Qed.
Lemma get_ctx_Ret n i c : payloadMap (sol n) !! i = Some c -> get_ctx i n = Ret c n.
Proof. intros Hc. unfold get_ctx. by rewrite Hc. Qed.

Lemma sol_cache i a c nack : preserves keeps_sol (cache_payload i a c nack).
Proof.
  intros n. unfold cache_payload. unfold bind at 1. cbn [get].
  destruct (payloadMap (sol n) !! i) as [x|] eqn:Hx.
  2: { unfold bind, get_ctx. by rewrite Hx. }
  rewrite (bind_Ret _ _ _ _ _ (get_ctx_Ret _ _ _ Hx)).
  apply osat_step; [|intros _; keeps_sol_tac]. cbn. apply sol_alter.
  intros c0 Hc0 [O I U]. rewrite Hx in Hc0. injection Hc0 as <-.
  pose proof (next_sol_seq_range _ U) as Hseq. constructor; cbn -[next_sol_seq MAX_SOL_SEQUENCE_NUMBER]; [|done|lia].
  right. eexists a, c, (out_operation nack). cbn -[next_sol_seq].
  split_and!; [reflexivity|lia|lia|lia].
Qed.

Lemma context_cleared b b' c : context_ok b c ->
  context_ok b' (c <| payloadCache := [] |> <| expectedCharCount := 0%nat |>).
Proof. intros [O I U]. constructor; [by left|done..]. Qed.

Lemma console_erase_0 b : console_erase b 0 = b.
Proof. unfold console_erase. by rewrite Nat.min_0_r. Qed.

(** Giving up on a packet forgets the packet and keeps the data. *)
Lemma forget_packet n i c :
  payloadMap (sol n) !! i = Some c ->
  (on_ctx i (fun c => c <| payloadCache := [] |> <| expectedCharCount := 0%nat |>) ;;;
   let! c := get_ctx i in
   on_sol (fun m => m <| dataBuffer := console_erase (dataBuffer m) (expectedCharCount c) |>)) n =
  Ret tt (n <| sol := (sol n) <| payloadMap :=
    alter (fun c => c <| payloadCache := [] |> <| expectedCharCount := 0%nat |>) i (payloadMap (sol n)) |> |>).
Proof.
  intros Hc. set (f := fun c : Context => _).
  set (n1 := n <| sol := (sol n) <| payloadMap := alter f i (payloadMap (sol n)) |> |>).
  rewrite (bind_Ret (on_ctx i f) _ n tt n1) by done.
  assert (payloadMap (sol n1) !! i = Some (f c)) as Hc1 by (cbn; by rewrite lookup_alter_eq, Hc).
  rewrite (bind_Ret _ _ _ _ _ (get_ctx_Ret _ _ _ Hc1)).
  change (expectedCharCount (f c)) with 0%nat. unfold on_sol, modify. f_equal.
  rewrite console_erase_0. unfold n1. destruct n as [? ? ? ? ? ? ? ? ? ? ? ? ? ? ? ? ? ? ? m]. by destruct m.
Qed.

Lemma sol_forget i : preserves keeps_sol
  (on_ctx i (fun c => c <| payloadCache := [] |> <| expectedCharCount := 0%nat |>) ;;;
   let! c := get_ctx i in
   on_sol (fun m => m <| dataBuffer := console_erase (dataBuffer m) (expectedCharCount c) |>)).
Proof.
  intros n. destruct (payloadMap (sol n) !! i) as [c|] eqn:Hc.
  - rewrite (forget_packet n i c Hc). apply sol_alter. intros c0 _ H0'. by eapply context_cleared.
  - unfold bind at 1. cbn. unfold bind, get_ctx. cbn. by rewrite lookup_alter_eq, Hc.
Qed.
#[local] Hint Resolve sol_cache sol_forget : preserves.

Lemma sol_resend i b : preserves keeps_sol (resendPayload i b).
Proof.
  unfold resendPayload. do 2 (apply preserves_bind; [exact _|keeps_sol_tac|intros ?]).
  destruct b; [apply sol_forget|apply preserves_ret; exact _].
Qed.

Lemma alter_twice (f g : Context -> Context) i (m : gmap Z Context) :
  alter f i (alter g i m) = alter (fun c => f (g c)) i m.
Proof.
  apply map_eq. intros j. destruct (decide (j = i)) as [->|Hne].
  - rewrite !lookup_alter_eq. by destruct (m !! i).
  - by rewrite !lookup_alter_ne.
Qed.

(** The state after the acknowledgement of [count] bytes. *)
Definition acknowledged (i count : Z) (m : SolManager) : SolManager :=
  m <| dataBuffer := console_erase (dataBuffer m) (Z.to_nat count) |>
    <| payloadMap := alter (fun c => c <| retryTimer := None |> <| retryCounter := maxRetryCount c |>
         <| expectedCharCount := 0%nat |> <| payloadCache := [] |>) i (payloadMap m) |>.

Lemma acknowledge_Ret i count n :
  acknowledge i count n = Ret tt (n <| sol := acknowledged i count (sol n) |>).
Proof.
  unfold acknowledge, enableRetryTimer, armed, on_ctx, on_sol, modify, bind, get. f_equal.
  unfold acknowledged. destruct n as [? ? ? ? ? ? ? ? ? ? ? ? ? ? ? ? ? ? ? m].
  unfold update. cbn -[console_erase alter]. do 2 f_equal. exact (alter_twice
    (fun c => c <| retryCounter := maxRetryCount c |> <| expectedCharCount := 0%nat |>
                <| payloadCache := [] |>) (fun c => c <| retryTimer := None |>) i (payloadMap m)).
Qed.

Lemma sol_acknowledge i count n :
  is_Some (payloadMap (sol n) !! i) -> osat (keeps_sol n) (acknowledge i count n).
Proof.
  intros [c0 Hc]. rewrite acknowledge_Ret. intros Hok j c Hj. cbn in Hj.
  destruct (Hok _ _ Hc) as [-> [O I U]]. destruct (decide (j = 1)) as [->|Hne].
  - rewrite lookup_alter_eq, Hc in Hj. injection Hj as <-. split; [done|].
    constructor; [by left|done..].
  - rewrite lookup_alter_ne in Hj by done. by destruct (Hok _ _ Hj).
Qed.

#[local] Hint Resolve sol_resend : preserves.

Lemma osat_preserves_at {A} (m : M Net A) n : preserves keeps_sol m -> osat (keeps_sol n) (m n).
Proof. intros Hm. exact (Hm n). Qed.

Lemma sol_inbound i sq a c st br l : preserves keeps_sol (processInboundPayload i sq a c st br l).
Proof.
  intros n. unfold processInboundPayload.
  destruct (payloadMap (sol n) !! i) as [x|] eqn:Hx.
  2: { unfold bind at 1, get_ctx. by rewrite Hx. }
  rewrite (bind_Ret _ _ _ _ _ (get_ctx_Ret _ _ _ Hx)).
  destruct (_ && _); [cbn; reflexivity|]. destruct (_ && _); [cbn; reflexivity|].
  destruct (_ || _); [apply osat_preserves_at; keeps_sol_tac|].
  apply osat_step.
  - destruct (_ && _); [apply sol_acknowledge; eauto|cbn; reflexivity].
  - intros _. unfold host_output, prepareResponse.
    assert (preserves keeps_sol (on_ctx i (fun c => c <| sol_in := next_sol_seq (sol_in c) |>))) as Hin.
    { apply sol_on_ctx. intros b x0 [O I U]. constructor; [done| |done].
      apply next_sol_seq_range. unfold MAX_SOL_SEQUENCE_NUMBER in *. lia. }
    keeps_sol_tac.
Qed.

Lemma sol_charAcc i : preserves keeps_sol (charAccTimerHandler i).
Proof. unfold charAccTimerHandler, sendOutboundPayload. keeps_sol_tac. Qed.
Lemma sol_retryHandler i : preserves keeps_sol (retryTimerHandler i).
Proof. unfold retryTimerHandler. keeps_sol_tac. Qed.
Lemma sol_startConsole : preserves keeps_sol startHostConsole.
Proof. unfold startHostConsole. keeps_sol_tac. Qed.
#[local] Hint Resolve sol_inbound sol_charAcc sol_retryHandler sol_startConsole : preserves.

Lemma sol_startPayload id : preserves keeps_sol (startPayloadInstance 1 id).
Proof.
  unfold startPayloadInstance, stopHostConsole, new_Context.
  do 2 (apply preserves_bind; [exact _|keeps_sol_tac|intros ?]).
  intros n. cbv [bind getSession get ret throw on_sol modify].
  destruct (sessionsMap n !! id) as [p|]; [|reflexivity]. intros Hok i c Hc. cbn in Hc.
  destruct (payloadMap (sol n) !! 1) as [c1|] eqn:H1; [by apply Hok|].
  cbn in Hc. apply lookup_insert_Some in Hc as [[<- <-]|[_ Hc]]; [|by apply Hok].
  split; [done|]. constructor; cbn; [by left|unfold MAX_SOL_SEQUENCE_NUMBER; lia..].
Qed.

(** Without instances the buffer is free. *)
Lemma sol_clear n : payloadMap (sol n) = ∅ -> osat (keeps_sol n) (clear_console n).
Proof. intros He. cbn. intros Hok i c Hc. cbn in Hc. by rewrite He, lookup_empty in Hc. Qed.

Lemma sol_stopPayload i : preserves keeps_sol (stopPayloadInstance i).
Proof.
  intros n. unfold stopPayloadInstance. unfold bind at 1. cbn [get].
  destruct (payloadMap (sol n) !! i) as [c|] eqn:Hc; [|cbn; reflexivity].
  set (n1 := n <| sol := (sol n) <| payloadMap := delete i (payloadMap (sol n)) |> |>).
  rewrite (bind_Ret (on_sol _) _ n tt n1) by done. unfold bind at 1. cbn [get].
  assert (keeps_sol n n1) as H1.
  { intros Hok j x Hx. cbn in Hx. apply lookup_delete_Some in Hx as [_ Hx]. by apply Hok. }
  case_bool_decide as He; [|exact H1].
  pose proof (sol_clear n1 He) as H2. unfold osat in H2.
  destruct (clear_console n1); [by transitivity n1..|done].
Qed.

Lemma sol_stopAll : preserves keeps_sol stopAllPayloadInstance.
Proof. intros n _ i c Hc. cbn in Hc. by rewrite lookup_empty in Hc. Qed.

Lemma sol_consoleInput data : preserves keeps_sol (consoleInputHandler data).
Proof.
  destruct data as [l|]; [|apply preserves_ret; exact _]. apply preserves_modify.
  intros n Hok i c Hc. cbn in *. destruct (Hok _ _ Hc) as [-> Hx]. split; [done|].
  by apply context_append.
Qed.
#[local] Hint Resolve sol_stopPayload sol_stopAll sol_consoleInput : preserves.

(** *** Commands *)
Lemma sol_payloadHandler l h : preserves keeps_sol (payloadHandler l h).
Proof. unfold payloadHandler, getContext, rd8, idx. keeps_sol_tac. Qed.

Lemma sol_activate l h : preserves keeps_sol (activatePayload l h).
Proof.
  unfold activatePayload, updateSOLParameter, rd8, idx, setChannelInSession, on_obj.
  destruct (negb _); [keeps_sol_tac|].
  do 3 (apply preserves_bind; [exact _|keeps_sol_tac|intros ?]).
  destruct (negb _); [keeps_sol_tac|].
  do 2 (apply preserves_bind; [exact _|keeps_sol_tac|intros ?]).
  destruct (negb _); [keeps_sol_tac|].
  destruct (Z.eqb_spec (Z.land a0 0xF) 1) as [->|]; cbn [negb]; [|keeps_sol_tac].
  pose proof sol_startPayload. keeps_sol_tac.
Qed.

Lemma sol_deactivate l h : preserves keeps_sol (deactivatePayload l h).
Proof.
  unfold deactivatePayload, activating, new_Handler, sendUnsolicitedIPMIPayload, session_message,
    rd8, idx. keeps_sol_tac.
Qed.
End Operations.
#[export] Hint Resolve sol_obj sol_get_ctx sol_rand sol_getSession sol_channel_write sol_unflatten
  sol_destroy sol_payloadHandler sol_activate sol_deactivate sol_charAcc sol_retryHandler
  sol_startConsole sol_stopAll sol_consoleInput : preserves.

(** ** Every event keeps the invariant *)
Section SolEvents.
Context `{Crypto, Settings}.

Lemma sol_cleaner : preserves keeps_sol cleanStaleEntries.
Proof.
  unfold cleanStaleEntries, graces, idle_divisor, sint, scheduleSessionCleaner.
  preserve_with ltac:(idtac; first
    [ sol_leaf
    | apply preserves_mfor; [exact _|]; intros kp; unfold clean_entry; keeps_sol_tac ]).
Qed.

Lemma sol_startSession rc pr a i c : preserves keeps_sol (startSession rc pr a i c).
Proof.
  pose proof sol_cleaner.
  assert (forall fuel, preserves keeps_sol (draw_id fuel)) as Hd.
  { induction fuel as [|fuel IH]; cbn [draw_id]; unfold prng_rand; keeps_sol_tac. }
  assert (forall id s, preserves keeps_sol (add_session id s)) as Ha by (intros id s n Hs; exact Hs).
  unfold startSession, scheduleSessionCleaner, storeSessionHandle, start_auth, on_info, on_obj.
  keeps_sol_tac.
Qed.

Lemma sol_RAKP34 l : preserves keeps_sol (RAKP34 l).
Proof.
  unfold RAKP34, establish, applyIntegrityAlgo, applyCryptAlgo, new_IntegrityAlgo, generateKn,
    generateICV, stopSession, updateLastTransactionTime, getAuthAlgo, getIntegrityAlgo, on_auth,
    on_info, on_obj, rd8, rd32, idx. keeps_sol_tac.
Qed.

Lemma sol_rd8 v i : preserves keeps_sol (rd8 v i).
Proof. apply unchanged_keeps_sol, stateless_unchanged, stateless_rd8. Qed.
Lemma sol_rd32 v i : preserves keeps_sol (rd32 v i).
Proof. apply unchanged_keeps_sol, stateless_unchanged, stateless_rd32. Qed.
Lemma sol_schedule w : preserves keeps_sol (scheduleSessionCleaner w).
Proof. unfold scheduleSessionCleaner. keeps_sol_tac. Qed.
Lemma sol_on_obj p f : preserves keeps_sol (on_obj p f).
Proof. unfold on_obj. keeps_sol_tac. Qed.
Lemma sol_on_info p f : preserves keeps_sol (on_info p f).
Proof. apply sol_on_obj. Qed.
Lemma sol_on_auth p f : preserves keeps_sol (on_auth p f).
Proof. apply sol_on_obj. Qed.
Lemma sol_touch p : preserves keeps_sol (updateLastTransactionTime p).
Proof. unfold updateLastTransactionTime, on_obj. keeps_sol_tac. Qed.
Lemma sol_getAuthAlgo s : preserves keeps_sol (getAuthAlgo s).
Proof. unfold getAuthAlgo. keeps_sol_tac. Qed.
#[local] Hint Resolve sol_rd8 sol_rd32 sol_schedule sol_on_obj sol_on_info sol_on_auth sol_touch
  sol_getAuthAlgo sol_startSession sol_RAKP34 : preserves.

Lemma sol_openSession l : preserves keeps_sol (openSession l).
Proof. unfold openSession. keeps_sol_tac. Qed.
Lemma sol_rakp1_user p name : preserves keeps_sol (rakp1_user p name).
Proof. unfold rakp1_user. keeps_sol_tac. Qed.
#[local] Hint Resolve sol_openSession sol_rakp1_user : preserves.
Lemma sol_RAKP12 l : preserves keeps_sol (RAKP12 l).
Proof. unfold RAKP12, rakp1_grant. keeps_sol_tac. Qed.
Lemma sol_setPrivilege l h : preserves keeps_sol (setSessionPrivilegeLevel l h).
Proof. unfold setSessionPrivilegeLevel. keeps_sol_tac. Qed.
Lemma sol_close_matching objs id hd pr : preserves keeps_sol (close_matching objs id hd pr).
Proof. induction objs as [|o objs IH]; cbn; unfold setSessionState; keeps_sol_tac. Qed.
#[local] Hint Resolve sol_RAKP12 sol_setPrivilege sol_close_matching : preserves.
Lemma sol_idbyHandle handle : preserves keeps_sol (getSessionIDbyHandle handle).
Proof. unfold getSessionIDbyHandle. keeps_sol_tac. Qed.
Lemma sol_stopSession id : preserves keeps_sol (stopSession id).
Proof. unfold stopSession. keeps_sol_tac. Qed.
#[local] Hint Resolve sol_idbyHandle sol_stopSession : preserves.
Lemma sol_closeMy id hd pr : preserves keeps_sol (closeMyNetInstanceSession id hd pr).
Proof. unfold closeMyNetInstanceSession. keeps_sol_tac. Qed.
Lemma sol_closeOther id hd pr : preserves keeps_sol (closeOtherNetInstanceSession id hd pr).
Proof. unfold closeOtherNetInstanceSession. keeps_sol_tac. Qed.
#[local] Hint Resolve sol_closeMy sol_closeOther : preserves.
Lemma sol_closeSession l h : preserves keeps_sol (closeSession l h).
Proof. unfold closeSession. keeps_sol_tac. Qed.
Lemma sol_capabilities l : preserves keeps_sol (GetChannelCapabilities l).
Proof. unfold GetChannelCapabilities. keeps_sol_tac. Qed.
Lemma sol_cipherSuites l : preserves keeps_sol (getChannelCipherSuites l).
Proof. unfold getChannelCipherSuites, getCipherRecords. keeps_sol_tac. Qed.
Lemma sol_payloadStatus l h : preserves keeps_sol (getPayloadStatus l h).
Proof. unfold getPayloadStatus. keeps_sol_tac. Qed.
Lemma sol_payloadInfo l h : preserves keeps_sol (getPayloadInfo l h).
Proof. unfold getPayloadInfo. keeps_sol_tac. Qed.
#[local] Hint Resolve sol_closeSession sol_capabilities sol_cipherSuites sol_payloadStatus
  sol_payloadInfo : preserves.

Lemma sol_functor f data h : preserves keeps_sol (run_functor f data h).
Proof. destruct f; cbn [run_functor]; eauto with preserves. Qed.

Lemma sol_packet ch packet : preserves keeps_sol (handleRmcpPacket ch packet).
Proof.
  pose proof sol_functor.
  assert (forall c data h, preserves keeps_sol (executeCommand c data h)).
  { intros. unfold executeCommand, entry_executeCommand, forward. keeps_sol_tac. }
  unfold handleRmcpPacket, attempt, receive, handler_executeCommand, getCommand, updSessionData.
  keeps_sol_tac.
Qed.

Lemma sol_step i : preserves keeps_sol (step i).
Proof.
  pose proof sol_packet. pose proof sol_cleaner.
  unfold step, run_event, host_reply, timer_event. keeps_sol_tac.
Qed.

Lemma reachable_sol_ok u g t n : reachable u g t n -> sol_ok (sol n).
Proof.
  induction 1 as [n Hb|n i n' _ IH Hs].
  - revert Hb. unfold boot, managerInit. set (n0 := initial_Net u (getSystemGUID g) t).
    destruct (scan_channels_spec (channelMediumType (users n0)) (map Z.of_nat (seq 1 15)) 0 n0)
      as (k & Hk & _); [lia|done|].
    rewrite (bind_Ret setNetworkInstance _ n0 tt (n0 <| ipmiNetworkInstance := k |>)) by exact Hk.
    set (n1 := n0 <| ipmiNetworkInstance := k |> <| heap := <[0%nat := new_Session 0 0 0]> ∅ |>
                 <| nextObject := 1%nat |> <| sessionsMap := <[0 := 0%nat]> ∅ |>).
    rewrite (bind_Ret (add_session 0 _) _ _ 0%nat n1) by done. intros Hb.
    apply (preserves_Ret keeps_sol) in Hb; [|apply sol_schedule]. apply Hb.
    intros i c Hc. cbn in Hc. by rewrite lookup_empty in Hc.
  - apply (preserves_Ret keeps_sol) in Hs; [by apply Hs|apply sol_step].
Qed.
End SolEvents.

(** ** The two streams

    What the console has not yet acknowledged, what was written to the host, and
    the sequence number expected next. *)
Definition streams (i : Z) (n : Net) : option Z * list Z * list (list Z * bool) * bool :=
  (sol_in <$> payloadMap (sol n) !! i, dataBuffer (sol n), consoleWrites (sol n), consoleSocket (sol n)).
Definition keeps_streams (i : Z) (n n' : Net) : Prop := streams i n' = streams i n.
#[export] Instance keeps_streams_preorder i : PreOrder (keeps_streams i).
Proof. split; [by intros n|]. unfold keeps_streams. intros ???; congruence. Qed.

Definition same_sol (n n' : Net) : Prop := sol n' = sol n.
#[export] Instance same_sol_preorder : PreOrder same_sol.
Proof. split; [by intros n|]. unfold same_sol. intros ???; congruence. Qed.

Section Streams.
Context `{Crypto}.

Lemma unchanged_same_sol {A} (m : M Net A) : preserves unchanged m -> preserves same_sol m.
Proof. intros Hm n. specialize (Hm n). destruct (m n); [by rewrite Hm..|done]. Qed.
Lemma same_sol_obj p : preserves same_sol (obj p).
Proof. apply unchanged_same_sol, unchanged_obj. Qed.
Lemma same_sol_getSession id : preserves same_sol (getSession id).
Proof. apply unchanged_same_sol, unchanged_getSession. Qed.
Lemma same_sol_get_ctx i : preserves same_sol (get_ctx i).
Proof. intros n. unfold get_ctx. destruct (payloadMap (sol n) !! i); by cbn. Qed.
Lemma same_sol_rand k : preserves same_sol (rand_bytes k).
Proof. by intros n. Qed.
Lemma same_sol_write ch packet : preserves same_sol (channel_write ch packet).
Proof. intros n. unfold channel_write. destruct (writeResults n) as [|r rs]; [done|]. by destruct (r <? 0). Qed.
#[local] Hint Resolve same_sol_obj same_sol_getSession same_sol_get_ctx same_sol_rand same_sol_write
  : preserves.
Lemma same_sol_sendPayload i l : preserves same_sol (sendPayload i l).
Proof.
  unfold sendPayload, new_Handler, sendSOLPayload, session_message, send, writeData, parser.flatten,
    ipmi15parser.flatten, ipmi20parser.flatten, ipmi20parser.addSequenceNumber,
    ipmi20parser.addIntegrityData, ipmi20parser.encryptPayload, generateIntegrityData,
    integrity_generateHMAC, aes_encryptPayload, encryptData, getIntegrityAlgo, getCryptAlgo, on_obj.
  preserve_with ltac:(idtac; lazymatch goal with
    | |- preserves _ (modify _) => apply preserves_modify; by intros end).
Qed.

Lemma streams_sendPayload i j l : preserves (keeps_streams i) (sendPayload j l).
Proof.
  intros n. pose proof (same_sol_sendPayload j l n) as Hs. unfold keeps_streams, streams, same_sol in *.
  destruct (sendPayload j l n); [by rewrite Hs..|done].
Qed.
Lemma streams_on_ctx i j f :
  (forall c, sol_in (f c) = sol_in c) -> preserves (keeps_streams i) (on_ctx j f).
Proof.
  intros Hf. apply preserves_modify. intros n. unfold keeps_streams, streams. cbn.
  do 3 f_equal. change (fmap sol_in (alter f j (payloadMap (sol n)) !! i) =
                        fmap sol_in (payloadMap (sol n) !! i)).
  destruct (decide (i = j)) as [->|Hne]; [|by rewrite lookup_alter_ne].
  rewrite lookup_alter_eq. destruct (payloadMap (sol n) !! j) as [c|]; [|done]. cbn. by rewrite Hf.
Qed.
Lemma streams_get_ctx i j : preserves (keeps_streams i) (get_ctx j).
Proof. intros n. unfold get_ctx. destruct (payloadMap (sol n) !! j); by cbn. Qed.
#[local] Hint Resolve streams_sendPayload streams_get_ctx : preserves.
Ltac streams_tac := preserve_with ltac:(idtac; lazymatch goal with
  | |- preserves _ (on_ctx _ _) => apply streams_on_ctx; by intros end).
Lemma streams_accumulate i j on : preserves (keeps_streams i) (enableAccumulateTimer j on).
Proof. unfold enableAccumulateTimer. streams_tac. Qed.
Lemma streams_retry i j on : preserves (keeps_streams i) (enableRetryTimer j on).
Proof. unfold enableRetryTimer. streams_tac. Qed.
#[local] Hint Resolve streams_accumulate streams_retry : preserves.
Lemma streams_cache i j a k nack : preserves (keeps_streams i) (cache_payload j a k nack).
Proof. unfold cache_payload. streams_tac. Qed.
#[local] Hint Resolve streams_cache : preserves.
Lemma streams_prepare i j a k nack : preserves (keeps_streams i) (prepareResponse j a k nack).
Proof. unfold prepareResponse. streams_tac. Qed.
Lemma streams_resend_keep i j : preserves (keeps_streams i) (resendPayload j false).
Proof. unfold resendPayload. streams_tac. Qed.
#[local] Hint Resolve streams_prepare streams_resend_keep : preserves.
Lemma streams_resent i j :
  preserves (keeps_streams i) (resendPayload j false ;;; enableRetryTimer j false ;;; enableRetryTimer j true).
Proof. streams_tac. Qed.
End Streams.

(** ** The protocol of the inbound side

    A packet is accepted when its number is 0 or the one expected, what it
    acknowledges is nothing or the packet last sent with all its bytes, and it
    is not a NACK. *)
Definition sol_accepts (c : Context) (seqNum ackSeqNum count : Z) (status : bool) : bool :=
  ((seqNum =? 0) || (seqNum =? sol_in c)) &&
  ((ackSeqNum =? 0) || ((ackSeqNum =? sol_out c) && (count =? Z.of_nat (expectedCharCount c)))) &&
  negb status.

(** What reaches the host, newest first, when the writes have the results [rs]. *)
Definition accepted_write (rs : list Z) : bool := match rs with [] => true | r :: _ => r =? 0 end.
Definition host_written (rs : list Z) (isBreak : bool) (input : list Z) : list (list Z * bool) :=
  (if negb (length input =? 0)%nat && accepted_write (if isBreak then tail rs else rs)
   then [(input, false)] else []) ++
  (if isBreak && accepted_write rs then [([72], true)] else []).

Section Inbound.
Context `{Crypto}.

Lemma console_erase_drop b k : console_erase b k = drop k b.
Proof.
  unfold console_erase. destruct (Nat.le_ge_cases (length b) k).
  - rewrite Nat.min_l, !drop_ge by done. done.
  - by rewrite Nat.min_r.
Qed.

(** The break first, then the characters. *)
Definition host_ran (seqNum : Z) (isBreak : bool) (input : list Z) (n n' : Net) : Prop :=
  payloadMap (sol n') = payloadMap (sol n) /\ dataBuffer (sol n') = dataBuffer (sol n) /\
  consoleSocket (sol n') = consoleSocket (sol n) /\
  consoleWrites (sol n') =
    (if seqNum =? 0 then [] else host_written (writeResults n) isBreak input) ++ consoleWrites (sol n).

Lemma host_output_ran seqNum isBreak input n :
  match host_output seqNum isBreak input n with
  | Ret _ n' => host_ran seqNum isBreak input n n'
  | Throw _ _ => False
  | Undef _ => True
  end.
Proof.
  unfold host_output, host_ran, host_written, writeConsoleSocket, bind, get.
  destruct n as [? ? ? ? ? ? ? ? ? ? ? ? w ? ? ? ? ? ? m], m as [? ? ? ? ? ? ? ? ? ? ? [] ?]; cbn -[Z.eqb].
  2: { destruct (seqNum =? 0), isBreak, input; cbn; try done. }
  destruct (seqNum =? 0), isBreak, input as [|x input]; cbn -[Z.eqb]; try (repeat split; reflexivity);
    destruct w as [|r1 w]; cbn -[Z.eqb]; try (repeat split; reflexivity);
    destruct (r1 =? 0) eqn:E1; cbn -[Z.eqb]; rewrite ?E1; cbn -[Z.eqb];
    try (repeat split; reflexivity);
    destruct w as [|r2 w]; cbn -[Z.eqb]; try (repeat split; reflexivity);
    destruct (r2 =? 0) eqn:E2; cbn -[Z.eqb]; rewrite ?E2; cbn -[Z.eqb]; repeat split; reflexivity.
Qed.

(** What the model of the console expects of a packet. *)
Definition streams_after (n : Net) (i : Z) (c : Context) (seqNum ackSeqNum count : Z)
    (status isBreak : bool) (input : list Z) : option Z * list Z * list (list Z * bool) * bool :=
  if sol_accepts c seqNum ackSeqNum count status
  then (Some (if seqNum =? 0 then sol_in c else next_sol_seq (sol_in c)),
        (if ackSeqNum =? 0 then dataBuffer (sol n)
         else drop (expectedCharCount c) (dataBuffer (sol n))),
        (if seqNum =? 0 then [] else host_written (writeResults n) isBreak input)
          ++ consoleWrites (sol n),
        consoleSocket (sol n))
  else streams i n.

Lemma inbound_accepted n i c seqNum ackSeqNum count isBreak input n1 :
  payloadMap (sol n) !! i = Some c ->
  sol_in <$> payloadMap (sol n1) !! i = Some (sol_in c) -> writeResults n1 = writeResults n ->
  consoleWrites (sol n1) = consoleWrites (sol n) -> consoleSocket (sol n1) = consoleSocket (sol n) ->
  dataBuffer (sol n1) = (if ackSeqNum =? 0 then dataBuffer (sol n)
                         else drop (expectedCharCount c) (dataBuffer (sol n))) ->
  sol_accepts c seqNum ackSeqNum count false = true ->
  osat (fun n' => streams i n' = streams_after n i c seqNum ackSeqNum count false isBreak input)
    ((let! r := host_output seqNum isBreak input in
      let '(respAckSeqNum, acceptedCount, nack) := r in
      if negb (seqNum =? 0) then
        on_ctx i (fun c => c <| sol_in := next_sol_seq (sol_in c) |>) ;;;
        prepareResponse i respAckSeqNum acceptedCount nack
      else enableAccumulateTimer i true) n1).
Proof.
  intros Hc Hi Hw Hcw Hcs Hb Hacc. unfold streams_after. rewrite Hacc.
  pose proof (host_output_ran seqNum isBreak input n1) as Hh.
  destruct (host_output seqNum isBreak input n1) as [r n2|e n2|] eqn:Hrun; [|done|].
  2: { unfold bind. by rewrite Hrun. }
  rewrite (bind_Ret _ _ _ _ _ Hrun). destruct Hh as (H1 & H2 & H3 & H4), r as [[ra rk] rn].
  rewrite Hw in H4.
  assert (streams i n2 = (Some (sol_in c), if ackSeqNum =? 0 then dataBuffer (sol n)
            else drop (expectedCharCount c) (dataBuffer (sol n)), consoleWrites (sol n2),
            consoleSocket (sol n))) as E.
  { unfold streams. by rewrite H1, H2, H3, Hi, Hb, Hcs. }
  rewrite H4, Hcw in E. clear H4 Hrun Hb. destruct (seqNum =? 0); cbn [negb].
  - rewrite <- E. exact (streams_accumulate i i true n2).
  - set (n3 := n2 <| sol := (sol n2) <| payloadMap :=
      alter (fun c => c <| sol_in := next_sol_seq (sol_in c) |>) i (payloadMap (sol n2)) |> |>).
    rewrite (bind_Ret (on_ctx i _) _ n2 tt n3) by done.
    assert (streams i n3 = (Some (next_sol_seq (sol_in c)), if ackSeqNum =? 0 then dataBuffer (sol n)
            else drop (expectedCharCount c) (dataBuffer (sol n)),
            host_written (writeResults n) isBreak input ++ consoleWrites (sol n),
            consoleSocket (sol n))) as <-.
    { unfold streams in *. unfold n3. cbn. injection E as E1 E2 E3 E4. rewrite E2, E3, E4.
      do 3 f_equal. rewrite lookup_alter_eq. rewrite H1 in *.
      destruct (payloadMap (sol n1) !! i) as [c1|]; [|discriminate].
      cbn in *. by injection E1 as ->. }
    exact (streams_prepare i i ra rk rn n3).
Qed.
End Inbound.

Section InboundWhole.
Context `{Crypto}.

Lemma inbound_streams n i c seqNum ackSeqNum count status isBreak input :
  payloadMap (sol n) !! i = Some c ->
  osat (fun n' => streams i n' = streams_after n i c seqNum ackSeqNum count status isBreak input)
    (processInboundPayload i seqNum ackSeqNum count status isBreak input n).
Proof.
  intros Hc. unfold processInboundPayload.
  rewrite (bind_Ret _ _ _ _ _ (get_ctx_Ret _ _ _ Hc)).
  set (late := negb (seqNum =? 0) && negb (seqNum =? sol_in c)).
  set (stray := negb (ackSeqNum =? 0) && negb (ackSeqNum =? sol_out c)).
  set (again := status || (negb (count =? Z.of_nat (expectedCharCount c)) && negb (ackSeqNum =? 0))).
  assert (sol_accepts c seqNum ackSeqNum count status = negb late && negb stray && negb again) as Hacc.
  { unfold sol_accepts, late, stray, again.
    by destruct (seqNum =? 0), (seqNum =? sol_in c), (ackSeqNum =? 0), (ackSeqNum =? sol_out c),
      (count =? Z.of_nat (expectedCharCount c)), status. }
  assert (sol_accepts c seqNum ackSeqNum count status = false ->
    streams_after n i c seqNum ackSeqNum count status isBreak input = streams i n) as Hno.
  { intros Hf. unfold streams_after. by rewrite Hf. }
  destruct late eqn:Hlate; [cbn; by rewrite Hno|]. destruct stray eqn:Hstray; [cbn; by rewrite Hno|].
  destruct again eqn:Hagain.
  { rewrite Hno by done. exact (streams_resent i i n). }
  assert (status = false) as -> by (unfold again in Hagain; by destruct status).
  cbn [negb andb] in Hacc. clear Hno late stray Hlate Hstray.
  destruct (ackSeqNum =? 0) eqn:Ha; cbn [negb].
  - rewrite andb_false_r, (bind_Ret (ret tt) _ n tt n) by done.
    apply inbound_accepted; try done; [by rewrite Hc|by rewrite Ha].
  - assert (count = Z.of_nat (expectedCharCount c)) as Hk.
    { unfold again in Hagain. rewrite andb_true_r in Hagain.
      by destruct (Z.eqb_spec count (Z.of_nat (expectedCharCount c))). }
    subst count. rewrite Z.eqb_refl. cbn [andb]. rewrite (bind_Ret _ _ _ _ _ (acknowledge_Ret i _ n)).
    apply inbound_accepted; try done; cbn.
    + by rewrite lookup_alter_eq, Hc.
    + rewrite Nat2Z.id, console_erase_drop. by rewrite Ha.
Qed.
End InboundWhole.

(** ** Theorems *)
Section SolTheorems.
Context `{Crypto, Settings}.

(** In every reachable state there is at most payload
    instance 1, its sequence numbers are between 1 and 15 (outbound: 0 before
    the first packet), and the packet kept for retries is empty or its sequence
    number is the last one used and its data is a prefix of the console buffer
    of at most 255 bytes. *)
Theorem sol_packet_is_prefix u g t n i c :
  reachable u g t n -> payloadMap (sol n) !! i = Some c ->
  i = 1 /\ 1 <= sol_in c <= 15 /\ 0 <= sol_out c <= 15 /\
  (payloadCache c = [] \/
   exists ack count op rest,
     payloadCache c = [sol_out c; ack; count; op] ++ take (expectedCharCount c) (dataBuffer (sol n)) /\
     dataBuffer (sol n) = take (expectedCharCount c) (dataBuffer (sol n)) ++ rest /\
     length (take (expectedCharCount c) (dataBuffer (sol n))) = expectedCharCount c /\
     (expectedCharCount c <= 255)%nat /\ 1 <= sol_out c).
Proof.
  intros Hr Hc. destruct (reachable_sol_ok _ _ _ _ Hr _ _ Hc) as [-> [O I U]].
  unfold MAX_SOL_SEQUENCE_NUMBER, SOL_MAX_PAYLOAD_SIZE in *. split; [done|]. split; [lia|]. split; [lia|].
  destruct O as [[O _]|(a & k & op & E & Hl & Hm & Ho)]; [by left|right].
  exists a, k, op, (drop (expectedCharCount c) (dataBuffer (sol n))).
  split; [done|]. split; [by rewrite take_drop|]. split; [by apply length_take_le|]. by split.
Qed.
End SolTheorems.

Section SolProtocol.
Context `{Crypto, Settings}.

(** C28. What a SOL packet does to the two streams is the
    stop-and-wait protocol: an accepted packet with a number reaches the host
    once, break before characters, and advances the number expected next; one
    that acknowledges the outstanding packet with all its bytes removes exactly
    those bytes from the console buffer; any other packet (out of sequence, a
    NACK, a partial count) changes neither stream. *)
Theorem sol_inbound_effect n i c seqNum ackSeqNum count status isBreak input :
  payloadMap (sol n) !! i = Some c ->
  match processInboundPayload i seqNum ackSeqNum count status isBreak input n with
  | Ret _ n' | Throw _ n' =>
      streams i n' = streams_after n i c seqNum ackSeqNum count status isBreak input
  | Undef _ => True
  end.
Proof. apply inbound_streams. Qed.

Lemma next_sol_seq_ne z : 1 <= z < MAX_SOL_SEQUENCE_NUMBER -> next_sol_seq z <> z.
Proof.
  unfold next_sol_seq, MAX_SOL_SEQUENCE_NUMBER, u8. intros Hz. rewrite Z.mod_small by lia.
  destruct (Z.eqb_spec (z + 1) 16); lia.
Qed.

(** After a packet with a number was accepted, a packet
    with the same number does nothing: its characters are not written to the
    host again, and it is not answered either, even when the answer to the first
    was lost or was a NACK because the host refused the characters. *)
Theorem sol_packet_taken_once u g t n i c seqNum ackSeqNum count isBreak input n' :
  reachable u g t n -> payloadMap (sol n) !! i = Some c -> seqNum <> 0 ->
  sol_accepts c seqNum ackSeqNum count false = true ->
  processInboundPayload i seqNum ackSeqNum count false isBreak input n = Ret tt n' ->
  forall ackSeqNum count status isBreak input,
    processInboundPayload i seqNum ackSeqNum count status isBreak input n' = Ret tt n'.
Proof.
  intros Hr Hc Hs Hacc Hrun a k st br l. destruct (reachable_sol_ok _ _ _ _ Hr _ _ Hc) as [_ [_ Hin _]].
  pose proof (inbound_streams n i c seqNum ackSeqNum count false isBreak input Hc) as Hst.
  rewrite Hrun in Hst. cbn [osat] in Hst. unfold streams_after in Hst. rewrite Hacc in Hst.
  unfold streams in Hst. apply (f_equal (fun x => x.1.1.1)) in Hst. cbn [fst] in Hst.
  rewrite (proj2 (Z.eqb_neq _ _) Hs) in Hst.
  destruct (payloadMap (sol n') !! i) as [c'|] eqn:Hc'; [|discriminate]. apply (inj Some) in Hst as Hin'; cbn in Hin'.
  assert (seqNum = sol_in c) as ->.
  { unfold sol_accepts in Hacc. rewrite (proj2 (Z.eqb_neq _ _) Hs) in Hacc.
    by destruct (Z.eqb_spec seqNum (sol_in c)). }
  unfold processInboundPayload. rewrite (bind_Ret _ _ _ _ _ (get_ctx_Ret _ _ _ Hc')).
  rewrite (proj2 (Z.eqb_neq _ _) Hs), Hin'.
  rewrite (proj2 (Z.eqb_neq (sol_in c) _)) by (pose proof (next_sol_seq_ne _ Hin); lia). done.
Qed.

Definition retries_reset (n : Net) (i : Z) : Net :=
  n <| sol := (sol n) <| payloadMap :=
    alter (fun c => c <| retryCounter := maxRetryCount c |>) i (payloadMap (sol n)) |> |>.

(** When the retries are used up the packet is sent
    once more and forgotten, but its characters stay at the head of the console
    buffer: no packet is outstanding, the retry timer is off, the accumulate
    timer runs, and the same characters will go out under the next number. *)
Theorem exhausted_retries_keep_data n i c n2 :
  payloadMap (sol n) !! i = Some c -> retryCounter c = 0 ->
  sendPayload i (payloadCache c) (retries_reset n i) = Ret tt n2 ->
  exists n' c',
    retryTimerHandler i n = Ret tt n' /\ dataBuffer (sol n') = dataBuffer (sol n) /\
    payloadMap (sol n') !! i = Some c' /\ payloadCache c' = [] /\ expectedCharCount c' = 0%nat /\
    retryCounter c' = maxRetryCount c /\ retryTimer c' = None /\
    accumulateTimer c' = Some (now n2 + accumulateInterval (sol n)).
Proof.
  intros Hc Hz Hsend. unfold retryTimerHandler, try.
  pose proof (preserves_Ret same_sol _ _ _ _ (same_sol_sendPayload i (payloadCache c)) Hsend) as Hsol.
  unfold same_sol in Hsol.
  rewrite (bind_Ret _ _ _ _ _ (get_ctx_Ret _ _ _ Hc)), Hz. cbn [Z.eqb negb].
  rewrite (bind_Ret (on_ctx i _) _ n tt (retries_reset n i)) by done.
  assert (payloadMap (sol (retries_reset n i)) !! i = Some (c <| retryCounter := maxRetryCount c |>)) as Hc1
    by (cbn; by rewrite lookup_alter_eq, Hc).
  assert (resendPayload i true (retries_reset n i) = Ret tt
    (n2 <| sol := (sol n2) <| payloadMap :=
       alter (fun c => c <| payloadCache := [] |> <| expectedCharCount := 0%nat |>) i
         (payloadMap (sol n2)) |> |>)) as Hre.
  { unfold resendPayload. rewrite (bind_Ret _ _ _ _ _ (get_ctx_Ret _ _ _ Hc1)).
    rewrite (bind_Ret (sendPayload _ _) _ _ tt n2) by exact Hsend.
    eapply forget_packet. by rewrite Hsol. }
  rewrite (bind_Ret _ _ _ _ _ Hre). rewrite Hsol in *. clear Hre Hsend.
  eexists _, _. split; [reflexivity|]. cbn -[lookup].
  split; [reflexivity|].
  split; [by rewrite !lookup_alter_eq, Hc|]. done.
Qed.

(** A SOL packet of a session that has no payload
    instance has undefined behaviour when the session id is above 22: the message
    of the error is computed by adding the id to the address of a literal. *)
Theorem sol_without_context_undefined n h packet :
  context_of_session n (h_sessionID h) = None -> 22 < h_sessionID h -> (4 <= length packet)%nat ->
  payloadHandler packet h n = Undef OutOfBounds.
Proof.
  intros Hno Hid Hl. destruct packet as [|a [|b [|c [|d packet]]]]; cbn in Hl; try lia.
  unfold payloadHandler, try. cbn. unfold getContext, bind, get, try. cbn. rewrite Hno.
  by rewrite (proj2 (Z.leb_gt _ _)) by lia.
Qed.
End SolProtocol.

(** ** The theorems on a run *)
Section SolRun.
Abbreviation sample_reachable := (reachable sample_users None 1000).

Lemma reachable_event n t e :
  sample_reachable n -> match step (event_input t e) n with Ret _ _ => true | _ => false end = true ->
  sample_reachable (after_event n t e).
Proof.
  intros Hn Hs. apply (reachable_step _ _ _ n (event_input t e)); [exact Hn|].
  unfold after_event. destruct (step (event_input t e) n) as [[] n'| |]; done.
Defined.

Lemma activated_reachable : sample_reachable activated.
Proof. apply reachable_after; [exact established_reachable|]. vm_compute. reflexivity. Defined.
Lemma printed_reachable : sample_reachable printed.
Proof. apply reachable_event; [exact activated_reachable|]. vm_compute. reflexivity. Defined.
Lemma waiting_reachable : sample_reachable waiting.
Proof. apply reachable_event; [exact printed_reachable|]. vm_compute. reflexivity. Defined.
Lemma waiting_context : payloadMap (sol waiting) !! 1 = Some (sample_context waiting).
Proof. vm_compute. reflexivity. Defined.

Lemma sol_packet_is_prefix_witness :
  payloadCache (sample_context waiting) = [1; 0; 0; 0; 104; 105] /\
  exists ack count op rest,
    payloadCache (sample_context waiting) = [1; ack; count; op] ++ take 2 (dataBuffer (sol waiting)) /\
    dataBuffer (sol waiting) = take 2 (dataBuffer (sol waiting)) ++ rest.
Proof.
  destruct (sol_packet_is_prefix sample_users None 1000 waiting 1 (sample_context waiting)
              waiting_reachable waiting_context)
    as (_ & _ & _ & [Hn|(a & k & o & r & H1 & H2 & _)]).
  - exfalso. revert Hn. vm_compute. discriminate.
  - split; [vm_compute; reflexivity|]. exists a, k, o, r. exact (conj H1 H2).
Defined.

(** The console acknowledges both bytes and sends two of its own. *)
Definition console_reply (n : Net) : outcome Net unit :=
  processInboundPayload 1 1 1 2 false false [120; 121] n.
Definition answered : Net := state_of (console_reply waiting) net0.

Lemma sol_inbound_effect_witness :
  streams 1 answered = (Some 2, [], [([120; 121], false)], true).
Proof.
  pose proof (sol_inbound_effect waiting 1 (sample_context waiting) 1 1 2 false false [120; 121]
                waiting_context) as Hs.
  assert (processInboundPayload 1 1 1 2 false false [120; 121] waiting = Ret tt answered) as E
    by (vm_compute; reflexivity).
  rewrite E in Hs. rewrite Hs. vm_compute. reflexivity.
Defined.

Lemma sol_packet_taken_once_witness : console_reply answered = Ret tt answered.
Proof.
  apply (sol_packet_taken_once sample_users None 1000 waiting 1 (sample_context waiting) 1 1 2 false
           [120; 121] answered waiting_reachable waiting_context).
  - discriminate.
  - vm_compute. reflexivity.
  - vm_compute. reflexivity.
Defined.

(** [waiting] after its seventh retry. *)
Definition exhausted : Net :=
  waiting <| sol := (sol waiting) <| payloadMap :=
    alter (fun c => c <| retryCounter := 0 |>) 1 (payloadMap (sol waiting)) |> |>.

Lemma exhausted_retries_keep_data_witness : exists n' c',
  retryTimerHandler 1 exhausted = Ret tt n' /\ dataBuffer (sol n') = [104; 105] /\
  payloadMap (sol n') !! 1 = Some c' /\ payloadCache c' = [].
Proof.
  destruct (exhausted_retries_keep_data exhausted 1 (sample_context exhausted)
              (state_of (sendPayload 1 (payloadCache (sample_context exhausted))
                           (retries_reset exhausted 1)) net0))
    as (n' & c' & H1 & H2 & H3 & H4 & _).
  - vm_compute. reflexivity.
  - vm_compute. reflexivity.
  - vm_compute. reflexivity.
  - exists n', c'. split; [exact H1|]. split; [rewrite H2; vm_compute; reflexivity|].
    exact (conj H3 H4).
Defined.

Definition console_handler : Handler :=
  (receive_Handler sample_channel) <| h_sessionID := opened_id |> <| h_session := Some 1%nat |>.
Lemma sol_without_context_undefined_witness :
  payloadHandler [0; 0; 0; 0] console_handler established = Undef OutOfBounds.
Proof.
  apply (sol_without_context_undefined established console_handler [0; 0; 0; 0]).
  - vm_compute. reflexivity.
  - reflexivity.
  - apply Nat.leb_le. reflexivity.
Defined.
End SolRun.
