(* ===== verification/IpmiMessage.v ===== *)
(** * The message layer of the IPMI host service

    [include/ipmid/message.hpp], [message/pack.hpp], [message/unpack.hpp]: the
    payload as a stream of bits, and the overloads of [PackSingle] and
    [UnpackSingle], which C++ chooses by type, as functions of a type of the
    universe [ty].  The parameter pack of [pack] and [unpack] is a [tys]. *)
From Stdlib Require Import ZArith Lia String.
From stdpp Require Import base list.
From S2P Require Import Prelude.
Local Open Scope Z_scope.

(** ** Payload *)
Definition CHAR_BIT : nat := 8.
Definition bitStreamSize : nat := (8 + 1) * CHAR_BIT.

Record Payload := {
  bitStream : Z; bitCount : nat; raw : list Z; rawIndex : nat;
  trailingOk : bool; unpackCheck : bool; unpackError : bool }.
#[export] Instance Payload_fields : Fields Payload := fun p =>
  {| bitStream := bitStream p; bitCount := bitCount p; raw := raw p; rawIndex := rawIndex p;
     trailingOk := trailingOk p; unpackCheck := unpackCheck p; unpackError := unpackError p |}.
Definition new_Payload (data : list Z) : Payload :=
  {| bitStream := 0; bitCount := 0; raw := data; rawIndex := 0;
     trailingOk := true; unpackCheck := false; unpackError := false |}.

(** Arithmetic of [fixed_uint_t<bitStreamSize>] wraps around. *)
Definition stream_or (p : Payload) (bits : Z) : Z :=
  Z.lor (bitStream p) (Z.shiftl bits (Z.of_nat (bitCount p)) mod 2 ^ Z.of_nat bitStreamSize).

(** ** Packing *)
Fixpoint drain_loop (fuel : nat) (wholeBytesOnly : bool) (p : Payload) : Payload :=
  match fuel with
  | O => p
  | S fuel =>
      if (bitCount p =? 0)%nat || ((bitCount p <? CHAR_BIT)%nat && wholeBytesOnly) then p
      else
        let bitsOut := Nat.min CHAR_BIT (bitCount p) in
        drain_loop fuel wholeBytesOnly
          (p <| raw := raw p ++ [u8 (bitStream p)] |>
             <| bitStream := Z.shiftr (bitStream p) (Z.of_nat bitsOut) |>
             <| bitCount := (bitCount p - bitsOut)%nat |>)
  end.
Definition drain (wholeBytesOnly : bool) (p : Payload) : Payload :=
  drain_loop (bitCount p) wholeBytesOnly p.

Definition append (l : list Z) (p : Payload) : Payload :=
  let p := drain false p in p <| raw := raw p ++ l |>.
Definition appendBits (count : nat) (bits : Z) (p : Payload) : Payload :=
  let p := drain true p in
  drain true (p <| bitStream := stream_or p bits |> <| bitCount := (bitCount p + count)%nat |>).

(** [prepend] of another payload; the result is not 0 on failure. *)
Definition prepend (q : Payload) (p : Payload) : bool * Payload :=
  if negb (bitCount p =? 0)%nat || negb (bitCount q =? 0)%nat then (false, p)
  else (true, p <| raw := raw q ++ raw p |>).

(** ** The types *)
Inductive ty : Set :=
  | TUInt (width : nat)        (* uint8_t .. uint64_t: width in bytes *)
  | TInt (width : nat)         (* int8_t .. int64_t *)
  | TFixed (n : nat)           (* fixed_uint_t<n> *)
  | TBool
  | TBitset (n : nat)
  | TString                    (* std::string, length first *)
  | TBytes (n : nat)           (* std::array<uint8_t, n> *)
  | TByteVec                   (* std::vector<uint8_t>, SecureBuffer *)
  | TOpt (t : ty)
  | TArray (n : nat) (t : ty)  (* of any other element type *)
  | TVec (t : ty)
  | TTuple (l : tys)
  | TPayload
with tys : Set :=
  | TNil
  | TCons (t : ty) (l : tys).

Fixpoint interp (t : ty) : Type :=
  match t with
  | TUInt _ | TInt _ | TFixed _ | TBitset _ => Z
  | TBool => bool
  | TString | TBytes _ | TByteVec => list Z
  | TOpt t => option (interp t)
  | TArray _ t | TVec t => list (interp t)
  | TTuple l => interps l
  | TPayload => Payload
  end
with interps (l : tys) : Type :=
  match l with TNil => unit | TCons t l => (interp t * interps l)%type end.

(** ** PackSingle *)
Definition le_byte (z : Z) (k : nat) : Z := u8 (Z.shiftr z (8 * Z.of_nat k)).
Definition PackInt (width : nat) (z : Z) (p : Payload) : Payload :=
  if (bitCount p =? 0)%nat
  then p <| raw := raw p ++ map (le_byte z) (seq 0 width) |>
  else foldl (fun p k => appendBits CHAR_BIT (le_byte z k) p) p (seq 0 width).
Fixpoint PackBits (fuel count : nat) (bits : Z) (p : Payload) : Payload :=
  match fuel with
  | O => p
  | S fuel =>
      if (count =? 0)%nat then p
      else
        let appendCount := Nat.min count CHAR_BIT in
        PackBits fuel (count - appendCount) (Z.shiftr bits 8) (appendBits appendCount (u8 bits) p)
  end.
Definition PackRaw (l : list Z) (p : Payload) : bool * Payload :=
  if negb (bitCount p =? 0)%nat then (false, p)
  else (true, p <| raw := raw p ++ l |>).

(** The result is [false] where the C++ returns an error; arrays and vectors
    stop at an element that fails and still return 0, since the [ret] they
    return is not the one the loop assigns. *)
Fixpoint PackSingle (t : ty) : interp t -> Payload -> bool * Payload :=
  match t return interp t -> Payload -> bool * Payload with
  | TUInt w | TInt w => fun z p => (true, PackInt w z p)
  | TFixed n | TBitset n => fun z p => (true, PackBits n n z p)
  | TBool => fun b p => (true, appendBits 1 (Z.b2z b) p)
  | TString => fun l p =>
      if (255 <? length l)%nat then (false, p)
      else (true, append l (PackInt 1 (Z.of_nat (length l)) p))
  | TBytes n => fun l p => (true, foldl (fun p b => PackInt 1 b p) p l)
  | TByteVec => PackRaw
  | TOpt t => fun o p => match o with Some v => PackSingle t v p | None => (true, p) end
  | TArray _ t | TVec t => fun l p =>
      (true, snd (foldl (fun (s : bool * Payload) v => if fst s then PackSingle t v (snd s) else s) (true, p) l))
  | TTuple l => pack l
  | TPayload => fun q p =>
      if negb (bitCount p =? 0)%nat || negb (bitCount q =? 0)%nat then (false, p)
      else (true, p <| raw := raw p ++ raw q |>)
  end
with pack (l : tys) : interps l -> Payload -> bool * Payload :=
  match l return interps l -> Payload -> bool * Payload with
  | TNil => fun _ p => (true, p)
  | TCons t l => fun (v : interp t * interps l) p =>
      let r := PackSingle t (fst v) p in
      if fst r then let r := pack l (snd v) (snd r) in (fst r, drain false (snd r)) else r
  end.

(** ** Unpacking *)
Definition unpack_fail {A} : M Payload (option A) := ret None.
Definition set_error : M Payload unit := modify (fun p => p <| unpackError := true |>).

Fixpoint fill_loop (fuel count : nat) : M Payload bool :=
  match fuel with
  | O => undef OutOfFuel
  | S fuel =>
      let! p := get in
      if (bitCount p <? count)%nat then
        if (rawIndex p <? length (raw p))%nat then
          let! b := idx (raw p) (rawIndex p) in
          modify (fun p => p <| bitStream := stream_or p b |> <| rawIndex := S (rawIndex p) |>
                             <| bitCount := (bitCount p + CHAR_BIT)%nat |>) ;;;
          fill_loop fuel count
        else set_error ;;; ret true
      else ret false
  end.
(** The result is [unpackError]: whether the bits are missing. *)
Definition fillBits (count : nat) : M Payload bool :=
  if (bitStreamSize - CHAR_BIT <? count)%nat then set_error ;;; ret true
  else fill_loop (S count) count.

Definition consume (count : nat) : M Payload unit :=
  modify (fun p => p <| bitStream := Z.shiftr (bitStream p) (Z.of_nat count) |>
                     <| bitCount := (bitCount p - count)%nat |>).
Definition popBits (count : nat) : M Payload Z :=
  let! p := get in
  if (bitCount p <? count)%nat then set_error ;;; ret 0
  else
    let bits := Z.land (u8 (bitStream p)) (2 ^ Z.of_nat count - 1) in
    consume count ;;; ret bits.

Definition discardBits (p : Payload) : Payload := p <| bitStream := 0 |> <| bitCount := 0%nat |>.
Definition reset (p : Payload) : Payload :=
  (discardBits p) <| rawIndex := 0%nat |> <| unpackError := false |>.

(** [None]: the null range. *)
Definition pop (count : nat) : M Payload (option (list Z)) :=
  modify (fun p => if (bitCount p =? 0)%nat then p else discardBits p) ;;;
  let! p := get in
  if (count <=? length (raw p) - rawIndex p)%nat
  then modify (fun p => p <| rawIndex := (rawIndex p + count)%nat |>) ;;;
       ret (Some (take count (drop (rawIndex p) (raw p))))
  else set_error ;;; ret None.

Definition fullyUnpacked : M Payload bool :=
  modify (fun p => p <| unpackCheck := true |>) ;;;
  let! p := get in
  ret ((length (raw p) =? rawIndex p)%nat && (bitCount p =? 0)%nat && negb (unpackError p)).

(** Back to the stream of [q], as tuples and optionals do on failure. *)
Definition roll_back (q p : Payload) : Payload :=
  p <| rawIndex := rawIndex q |> <| bitStream := bitStream q |> <| bitCount := bitCount q |>.

(** ** UnpackSingle

    [None] where the C++ returns an error; what is left in the variable then
    is used nowhere. *)
Definition UnpackBytes (width : nat) (l : list Z) : Z :=
  foldl (fun acc kb => Z.lor acc (Z.shiftl (snd kb) (8 * Z.of_nat (fst kb)))) 0
        (zip (seq 0 width) l).
Fixpoint UnpackBytesUnaligned (width : nat) : M Payload (list Z) :=
  match width with
  | O => ret []
  | S width => let! b := popBits CHAR_BIT in let! l := UnpackBytesUnaligned width in ret (b :: l)
  end.
Definition UnpackInt (width : nat) : M Payload (option Z) :=
  let! p := get in
  if negb (bitCount p =? 0)%nat then
    let! e := fillBits (CHAR_BIT * width) in
    if e then unpack_fail
    else let! l := UnpackBytesUnaligned width in ret (Some (UnpackBytes width l))
  else if (length (raw p) <? rawIndex p + width)%nat then unpack_fail
  else
    modify (fun p => p <| rawIndex := (rawIndex p + width)%nat |>) ;;;
    ret (Some (UnpackBytes width (take width (drop (rawIndex p) (raw p))))).

(** The low [count] bits of the stream, after [fillBits]. *)
Definition take_bits (count : nat) : M Payload (option Z) :=
  let! e := fillBits count in
  if e then unpack_fail
  else
    let! p := get in
    consume count ;;; ret (Some (Z.land (bitStream p) (2 ^ Z.of_nat count - 1))).

(** The mask of a [fixed_uint_t] is computed in an [int]. *)
Definition UnpackFixed (n : nat) : M Payload (option Z) :=
  let! e := fillBits n in
  if e then unpack_fail
  else if (30 <? n)%nat then undef SignedOverflow
  else
    let! p := get in
    consume n ;;; ret (Some (Z.land (bitStream p) (2 ^ Z.of_nat n - 1))).

(** [raw.size() - 1] wraps around when [raw] is empty. *)
Definition UnpackString : M Payload (option (list Z)) :=
  let! p := get in
  if negb (length (raw p) =? 0)%nat && (length (raw p) - 1 <? rawIndex p)%nat then unpack_fail
  else
    let! len := idx (raw p) (rawIndex p) in
    modify (fun p => p <| rawIndex := S (rawIndex p) |>) ;;;
    let! range := pop (Z.to_nat len) in
    match range with
    | None | Some [] => unpack_fail
    | Some l => ret (Some l)
    end.

Definition UnpackByteArray (n : nat) : M Payload (option (list Z)) :=
  let! p := get in
  if (length (raw p) - rawIndex p <? n)%nat then unpack_fail
  else
    modify (fun p => p <| rawIndex := (rawIndex p + n)%nat |>) ;;;
    ret (Some (take n (drop (rawIndex p) (raw p)))).
Definition UnpackRest : M Payload (option (list Z)) :=
  let! p := get in
  modify (fun p => p <| rawIndex := length (raw p) |>) ;;;
  ret (Some (drop (rawIndex p) (raw p))).

Section Containers.
Context {A : Type} (op : M Payload (option A)).

Definition UnpackOpt : M Payload (option (option A)) :=
  let! q := get in
  let! r := op in
  match r with
  | Some v => ret (Some (Some v))
  | None => modify (fun p => (roll_back q p) <| unpackError := unpackError q |>) ;;; ret (Some None)
  end.

Fixpoint array_loop (n : nat) : M Payload (option (list A)) :=
  match n with
  | O => ret (Some [])
  | S n =>
      let! r := op in
      match r with
      | None => unpack_fail
      | Some v => let! rs := array_loop n in ret (cons v <$> rs)
      end
  end.
Definition UnpackArray (n : nat) : M Payload (option (list A)) :=
  let! q := get in
  let! r := array_loop n in
  match r with
  | None => modify (fun p => p <| rawIndex := rawIndex q |>) ;;; unpack_fail
  | Some l => ret (Some l)
  end.

(** A vector takes elements while bytes are left.  An element that succeeds
    without taking a bit makes the loop endless. *)
Fixpoint vec_loop (fuel : nat) : M Payload (list A) :=
  match fuel with
  | O => undef OutOfFuel
  | S fuel =>
      let! p := get in
      if (rawIndex p <? length (raw p))%nat then
        let! r := op in
        match r with
        | None => ret []
        | Some v => let! l := vec_loop fuel in ret (v :: l)
        end
      else ret []
  end.
Definition bits_left (p : Payload) : nat := 8 * (length (raw p) - rawIndex p) + bitCount p.
Definition UnpackVec : M Payload (option (list A)) :=
  let! p := get in
  let! l := vec_loop (S (bits_left p)) in ret (Some l).

Definition UnpackTuple : M Payload (option A) :=
  let! q := get in
  let! r := op in
  match r with
  | Some v => ret (Some v)
  | None => modify (fun p => (roll_back q p) <| unpackError := unpackError q |>) ;;; unpack_fail
  end.
End Containers.

Definition UnpackPayload : M Payload (option Payload) :=
  let! p := get in
  modify (fun p => p <| trailingOk := true |>) ;;; ret (Some p).

Fixpoint UnpackSingle (t : ty) : M Payload (option (interp t)) :=
  match t return M Payload (option (interp t)) with
  | TUInt w => UnpackInt w
  | TInt w => let! r := UnpackInt w in ret (sext (8 * Z.of_nat w) <$> r)
  | TFixed n => UnpackFixed n
  | TBool => let! r := take_bits 1 in ret ((fun z => z =? 1) <$> r)
  | TBitset n => take_bits n
  | TString => UnpackString
  | TBytes n => UnpackByteArray n
  | TByteVec => UnpackRest
  | TOpt t => UnpackOpt (UnpackSingle t)
  | TArray n t => UnpackArray (UnpackSingle t) n
  | TVec t => UnpackVec (UnpackSingle t)
  | TTuple l => UnpackTuple (unpack l)
  | TPayload => UnpackPayload
  end
with unpack (l : tys) : M Payload (option (interps l)) :=
  match l return M Payload (option (interps l)) with
  | TNil => ret (Some tt)
  | TCons t l =>
      let! r := UnpackSingle t in
      match r with
      | None => set_error ;;; unpack_fail
      | Some v =>
          let! rs := unpack l in
          ret ((fun vs => (v, vs)) <$> rs)
      end
  end.

(** ** Requests and responses *)
Definition ccSuccess : Z := 0x00.
Definition ccReqDataLenInvalid : Z := 0xC7.

(** [Request::unpack]: the completion code, and the arguments on success. *)
Definition Request_unpack (l : tys) : M Payload (Z + interps l) :=
  let! r := unpack l in
  match r with
  | None => ret (inl ccReqDataLenInvalid)
  | Some v =>
      let! p := get in
      if negb (trailingOk p) then
        let! full := fullyUnpacked in
        if full then ret (inr v) else ret (inl ccReqDataLenInvalid)
      else ret (inr v)
  end.
