(* ===== verification/IpmiMessageSpec.v ===== *)
(** * Properties of the message layer

    A payload is a string of bits, least significant bit of each byte first.
    Packing appends the bits of each field, unpacking takes them off, so what is
    packed by one side is what the other unpacks, for the parameter lists whose
    layout allows it. *)
From Stdlib Require Import ZArith Lia String.
From stdpp Require Import base list.
From S2P Require Import Prelude IpmiMessage.
Local Open Scope Z_scope.

(** ** Bit strings *)
Definition low_bits (n : nat) (z : Z) : list bool :=
  map (fun i => Z.testbit z (Z.of_nat i)) (seq 0 n).
Fixpoint of_bits (l : list bool) : Z :=
  match l with [] => 0 | b :: l => Z.b2z b + 2 * of_bits l end.
Definition byte_bits (l : list Z) : list bool := flat_map (low_bits 8) l.

Lemma length_low_bits n z : length (low_bits n z) = n.
Proof. unfold low_bits. by rewrite length_map, length_seq. Qed.
Lemma length_byte_bits l : length (byte_bits l) = (8 * length l)%nat.
Proof.
  induction l as [|b l IH]; [done|]. cbn [byte_bits flat_map].
  rewrite length_app, length_low_bits. fold (byte_bits l). rewrite IH. cbn [length]. lia.
Qed.
Lemma byte_bits_app l1 l2 : byte_bits (l1 ++ l2) = byte_bits l1 ++ byte_bits l2.
Proof. apply flat_map_app. Qed.

Lemma low_bits_add n m z :
  low_bits (n + m) z = low_bits n z ++ low_bits m (Z.shiftr z (Z.of_nat n)).
Proof.
  unfold low_bits. rewrite seq_app, map_app. f_equal.
  replace (seq (0 + n) m) with (map (Nat.add n) (seq 0 m))
    by (transitivity (seq (n + 0) m); [exact (fmap_add_seq n 0 m)|f_equal; lia]).
  rewrite map_map. apply map_ext. intros i. rewrite Z.shiftr_spec by lia. f_equal. lia.
Qed.

Lemma low_bits_ext n y z :
  (forall i, 0 <= i < Z.of_nat n -> Z.testbit y i = Z.testbit z i) -> low_bits n y = low_bits n z.
Proof.
  intros H. apply map_ext_in. intros i Hi. apply in_seq in Hi. apply H. lia.
Qed.

Lemma low_bits_mod n m z : (n <= m)%nat -> low_bits n (z mod 2 ^ Z.of_nat m) = low_bits n z.
Proof. intros Hn. apply low_bits_ext. intros i Hi. apply Z.mod_pow2_bits_low. lia. Qed.

Lemma low_bits_0 n : low_bits n 0 = replicate n false.
Proof.
  unfold low_bits. rewrite <- (length_seq n 0) at 2. generalize (seq 0 n). intros l.
  induction l as [|i l IH]; cbn [map length replicate]; [done|]. by rewrite Z.bits_0, IH.
Qed.

Lemma of_bits_app l1 l2 : of_bits (l1 ++ l2) = of_bits l1 + 2 ^ Z.of_nat (length l1) * of_bits l2.
Proof.
  induction l1 as [|b l1 IH]; cbn -[Z.pow Z.mul]; [lia|]. rewrite IH, Nat2Z.inj_succ, Z.pow_succ_r by lia. lia.
Qed.

Lemma of_low_bits n z : of_bits (low_bits n z) = z mod 2 ^ Z.of_nat n.
Proof.
  induction n as [|n IH] in z |- *; [by rewrite Z.mod_1_r|].
  change (S n) with (1 + n)%nat. rewrite low_bits_add, of_bits_app, length_low_bits, IH. clear IH.
  cbn [low_bits seq map of_bits]. rewrite Nat2Z.inj_add, Z.pow_add_r by lia. change (Z.of_nat 0) with 0.
  change (Z.of_nat 1) with 1. rewrite Z.bit0_mod, shiftr_div by lia. change (2 ^ 1) with 2.
  rewrite Z.rem_mul_r by lia. lia.
Qed.

Lemma of_low_bits_small n z : 0 <= z < 2 ^ Z.of_nat n -> of_bits (low_bits n z) = z.
Proof. intros H. by rewrite of_low_bits, Z.mod_small. Qed.

Lemma of_bits_range l : 0 <= of_bits l < 2 ^ Z.of_nat (length l).
Proof.
  induction l as [|b l IH]; cbn -[Z.pow Z.mul]; [lia|]. rewrite Nat2Z.inj_succ, Z.pow_succ_r by lia.
  destruct b; cbn [Z.b2z]; lia.
Qed.

Lemma low_of_bits l : low_bits (length l) (of_bits l) = l.
Proof.
  induction l as [|b l IH]; [done|]. cbn [length]. change (S (length l)) with (1 + length l)%nat.
  rewrite low_bits_add. cbn [low_bits seq map]. cbn [of_bits].
  change (Z.of_nat 0) with 0. change (Z.of_nat 1) with 1.
  rewrite Z.testbit_odd, Z.shiftr_0_r, Z.odd_add_mul_2. rewrite shiftr_div by lia. change (2 ^ 1) with 2.
  rewrite (Z.mul_comm 2), Z.div_add by lia.
  replace (Z.b2z b / 2) with 0 by (destruct b; done). rewrite Z.add_0_l, IH. by destruct b.
Qed.

(** Bytes of an integer, from the least significant on. *)
Lemma low_bits_byte z k : low_bits 8 (le_byte z k) = low_bits 8 (Z.shiftr z (8 * Z.of_nat k)).
Proof. unfold le_byte, u8. apply (low_bits_mod 8 8). lia. Qed.

Lemma byte_bits_le z w : byte_bits (map (le_byte z) (seq 0 w)) = low_bits (8 * w) z.
Proof.
  induction w as [|w IH]; [done|].
  rewrite seq_S, map_app, byte_bits_app, IH. cbn [map plus byte_bits flat_map]. rewrite app_nil_r.
  replace (8 * S w)%nat with (8 * w + 8)%nat by lia. rewrite low_bits_add, low_bits_byte.
  by rewrite Nat2Z.inj_mul.
Qed.

Lemma UnpackBytes_value w l : length l = w -> bytes l -> UnpackBytes w l = of_bits (byte_bits l).
Proof.
  revert w. induction l as [|b l IH] using rev_ind; intros w Hw Hb.
  { by subst w. }
  rewrite length_app in Hw. cbn in Hw. assert (w = S (length l)) as -> by lia.
  apply Forall_app in Hb as [Hl Hb]. apply Forall_cons_1 in Hb as [Hb _].
  unfold UnpackBytes. rewrite seq_S, zip_with_app by by rewrite length_seq.
  rewrite foldl_app. cbn [zip_with foldl fst snd plus].
  change (foldl _ 0 (zip (seq 0 (length l)) l)) with (UnpackBytes (length l) l).
  rewrite IH by done. rewrite byte_bits_app, of_bits_app, length_byte_bits.
  cbn [byte_bits flat_map]. rewrite app_nil_r, of_low_bits_small by exact Hb.
  pose proof (of_bits_range (byte_bits l)) as Hr. rewrite length_byte_bits in Hr.
  rewrite Z.lor_comm, (lor_shiftl_add b) by (rewrite ?Nat2Z.inj_mul in Hr; lia).
  rewrite Nat2Z.inj_mul. lia.
Qed.

(** ** What a payload holds *)

(** Everything packed so far, and what is left to unpack. *)
Definition contents (p : Payload) : list bool := byte_bits (raw p) ++ low_bits (bitCount p) (bitStream p).
Definition remaining (p : Payload) : list bool :=
  low_bits (bitCount p) (bitStream p) ++ byte_bits (drop (rawIndex p) (raw p)).

Record stream_ok (p : Payload) : Prop := {
  so_range : 0 <= bitStream p < 2 ^ Z.of_nat (bitCount p);
  so_bytes : bytes (raw p);
  so_index : (rawIndex p <= length (raw p))%nat }.
Record payload_ok (p : Payload) : Prop := {
  po_stream : stream_ok p; po_count : (bitCount p < 8)%nat }.

Lemma new_payload_ok l : bytes l -> payload_ok (new_Payload l).
Proof. intros H. repeat constructor; cbn; try lia. exact H. Qed.

Lemma shiftr_range s n k : 0 <= s < 2 ^ Z.of_nat n -> (k <= n)%nat ->
  0 <= Z.shiftr s (Z.of_nat k) < 2 ^ Z.of_nat (n - k).
Proof.
  intros Hs Hk. rewrite shiftr_div by lia.
  assert (2 ^ Z.of_nat n = 2 ^ Z.of_nat k * 2 ^ Z.of_nat (n - k)) as E
    by (rewrite <- Z.pow_add_r by lia; f_equal; lia).
  split; [apply Z.div_pos; lia|]. apply Z.div_lt_upper_bound; lia.
Qed.

(** ** Packing *)
Definition drained (p : Payload) (k : nat) : Payload :=
  p <| raw := raw p ++ [u8 (bitStream p)] |> <| bitStream := Z.shiftr (bitStream p) (Z.of_nat k) |>
    <| bitCount := (bitCount p - k)%nat |>.

Lemma drained_whole p : stream_ok p -> (8 <= bitCount p)%nat ->
  stream_ok (drained p 8) /\ contents (drained p 8) = contents p.
Proof.
  intros [R B I] Hc. split.
  - constructor; cbn -[Z.pow Z.shiftr]; [by apply shiftr_range|by apply Forall_app; split; [|repeat constructor; apply u8_is_byte]|].
    rewrite length_app. lia.
  - unfold contents, drained. cbn -[Z.shiftr low_bits byte_bits]. rewrite byte_bits_app, <- app_assoc. f_equal.
    replace (bitCount p) with (8 + (bitCount p - 8))%nat at 2 by lia. rewrite low_bits_add.
    cbn [byte_bits flat_map]. rewrite app_nil_r. f_equal. apply (low_bits_mod 8 8). lia.
Qed.

Lemma drain_loop_whole fuel : forall p, stream_ok p -> (bitCount p <= fuel)%nat ->
  payload_ok (drain_loop fuel true p) /\ contents (drain_loop fuel true p) = contents p.
Proof.
  induction fuel as [|fuel IH]; intros p Hp Hf; cbn [drain_loop].
  { split; [split; [done|lia]|done]. }
  unfold CHAR_BIT. destruct (Nat.eqb_spec (bitCount p) 0), (Nat.ltb_spec (bitCount p) 8); cbn [andb orb];
    try (split; [split; [done|lia]|done]).
  rewrite Nat.min_l by lia. destruct (drained_whole p Hp) as [H1 H2]; [lia|].
  change (_ <| bitCount := _ |>) with (drained p 8). rewrite <- H2. apply IH; [done|]. cbn. lia.
Qed.

Lemma drain_whole p : stream_ok p -> payload_ok (drain true p) /\ contents (drain true p) = contents p.
Proof. intros Hp. by apply drain_loop_whole. Qed.
Lemma drain_whole_id p : (bitCount p < 8)%nat -> drain true p = p.
Proof.
  intros Hp. unfold drain. destruct (bitCount p) as [|n] eqn:E; [done|]. cbn [drain_loop].
  rewrite E. unfold CHAR_BIT. rewrite (proj2 (Nat.ltb_lt (S n) 8)) by lia. by destruct (S n =? 0)%nat.
Qed.

(** Draining the rest pads it with zeros up to a byte. *)
Lemma drain_rest p : payload_ok p -> exists k,
  payload_ok (drain false p) /\ bitCount (drain false p) = 0%nat /\
  contents (drain false p) = contents p ++ replicate k false /\
  (k < 8)%nat /\ (bitCount p = 0%nat -> k = 0%nat).
Proof.
  intros [[R B I] C]. unfold drain. destruct (bitCount p) as [|n] eqn:E.
  { exists 0%nat. cbn. rewrite app_nil_r, E. split; [|by auto with lia].
    constructor; [constructor|]; rewrite ?E; auto. }
  exists (8 - S n)%nat. cbn [drain_loop]. rewrite E. unfold CHAR_BIT.
  rewrite Nat.min_r by lia. cbn [Nat.eqb andb orb]. rewrite andb_false_r.
  replace (S n - S n)%nat with 0%nat by lia.
  assert (Z.shiftr (bitStream p) (Z.of_nat (S n)) = 0) as ->
    by (rewrite shiftr_div by lia; by apply Z.div_small).
  assert (forall f q, bitCount q = 0%nat -> drain_loop f false q = q) as Hid.
  { intros [|f] q Hq; [done|]. cbn [drain_loop]. by rewrite Hq. }
  rewrite Hid by done. split.
  { constructor; [constructor|]; cbn; [lia| |rewrite length_app; lia|lia].
    apply Forall_app; split; [done|repeat constructor; apply u8_is_byte]. }
  split; [done|]. split; [|by split; lia].
  unfold contents. cbn -[low_bits byte_bits]. rewrite byte_bits_app, <- !app_assoc, E. f_equal.
  cbn [byte_bits flat_map]. change (low_bits 0 0) with (@nil bool). rewrite !app_nil_r.
  transitivity (low_bits 8 (bitStream p)); [apply (low_bits_mod 8 8); lia|].
  replace 8%nat with (S n + (8 - S n))%nat at 1 by lia. rewrite low_bits_add. f_equal.
  rewrite shiftr_div, Z.div_small by lia. apply low_bits_0.
Qed.

Lemma appendBits_contents p count b :
  payload_ok p -> (count <= 8)%nat -> 0 <= b < 2 ^ Z.of_nat count ->
  payload_ok (appendBits count b p) /\
  contents (appendBits count b p) = contents p ++ low_bits count b.
Proof.
  intros [[R B I] C] Hc Hb. unfold appendBits. rewrite (drain_whole_id p) by done.
  set (q := p <| bitStream := _ |> <| bitCount := _ |>).
  pose proof (proj1 (Z.mul_lt_mono_pos_r (2 ^ Z.of_nat (bitCount p)) b _ ltac:(lia)) (proj2 Hb)) as Hlt.
  assert (bitStream q = b * 2 ^ Z.of_nat (bitCount p) + bitStream p) as Eq.
  { unfold q, stream_or. cbn -[Z.pow Z.shiftl]. rewrite Z.mod_small.
    - rewrite Z.lor_comm. by apply lor_shiftl_add; [lia|].
    - rewrite Z.shiftl_mul_pow2 by lia. split; [lia|]. eapply Z.lt_le_trans; [exact Hlt|].
      rewrite <- Z.pow_add_r by lia. apply Z.pow_le_mono_r; lia. }
  assert (stream_ok q) as Hq.
  { constructor; [|done|done]. rewrite Eq. unfold q. cbn -[Z.pow]. rewrite Nat2Z.inj_add, Z.pow_add_r by lia.
    clear - R Hb. nia. }
  destruct (drain_whole q Hq) as [H1 H2]. split; [done|]. rewrite H2. unfold contents.
  change (raw q) with (raw p). rewrite <- app_assoc. f_equal. rewrite Eq.
  change (bitCount q) with (bitCount p + count)%nat. rewrite low_bits_add. f_equal.
  - rewrite <- (low_bits_mod _ (bitCount p)), Z.add_comm, Z.mod_add, Z.mod_small by lia. done.
  - f_equal. rewrite shiftr_div, Z.add_comm, Z.div_add, Z.div_small by lia. lia.
Qed.

Lemma PackBits_contents fuel : forall count z p,
  payload_ok p -> (count <= fuel)%nat -> 0 <= z < 2 ^ Z.of_nat count ->
  payload_ok (PackBits fuel count z p) /\
  contents (PackBits fuel count z p) = contents p ++ low_bits count z.
Proof.
  induction fuel as [|fuel IH]; intros count z p Hp Hf Hz; cbn [PackBits].
  { assert (count = 0%nat) as -> by lia. by rewrite app_nil_r. }
  destruct (Nat.eqb_spec count 0) as [->|Hc]; [by rewrite app_nil_r|].
  set (k := Nat.min count CHAR_BIT). assert (1 <= k <= count /\ k <= 8)%nat as Hk by (unfold k, CHAR_BIT; lia).
  assert (0 <= u8 z < 2 ^ Z.of_nat k) as Hu.
  { unfold k, CHAR_BIT. destruct (Nat.le_ge_cases count 8).
    - rewrite Nat.min_l by done. unfold u8. rewrite Z.mod_small; [done|].
      pose proof (Z.pow_le_mono_r 2 (Z.of_nat count) 8). change (2 ^ 8) with 256 in *. lia.
    - rewrite Nat.min_r by done. apply (u8_is_byte z). }
  destruct (appendBits_contents p k (u8 z) Hp) as [H1 E1]; [lia|done|].
  assert (Z.shiftr z 8 = Z.shiftr z (Z.of_nat k) \/ Z.shiftr z 8 = 0 /\ count = k) as Hsh.
  { unfold k, CHAR_BIT. destruct (Nat.le_ge_cases count 8); [right|left].
    - split; [|lia]. rewrite shiftr_div by lia. apply Z.div_small.
      pose proof (Z.pow_le_mono_r 2 (Z.of_nat count) 8). lia.
    - by rewrite Nat.min_r by done. }
  clearbody k. destruct (IH (count - k)%nat (Z.shiftr z 8) (appendBits k (u8 z) p) H1) as [H2 E2]; [lia| |].
  { destruct Hsh as [-> | [-> ->]]; [apply shiftr_range; [done|lia]|]. by rewrite Nat.sub_diag. }
  split; [done|]. rewrite E2, E1, <- app_assoc. f_equal.
  replace count with (k + (count - k))%nat at 2 by lia. rewrite low_bits_add. f_equal.
  - unfold u8. apply (low_bits_mod k 8). lia.
  - destruct Hsh as [-> | [_ ->]]; [done|]. by rewrite Nat.sub_diag.
Qed.

Lemma foldl_appendBits l : forall p, payload_ok p -> bytes l ->
  let q := foldl (fun p b => appendBits CHAR_BIT b p) p l in
  payload_ok q /\ bitCount q = bitCount p /\ contents q = contents p ++ byte_bits l.
Proof.
  induction l as [|b l IH]; intros p Hp Hl; cbn [foldl]; [by rewrite app_nil_r|].
  apply Forall_cons_1 in Hl as [Hb Hl].
  destruct (appendBits_contents p CHAR_BIT b Hp) as [H1 E1]; [done|exact Hb|].
  destruct (IH _ H1 Hl) as (H2 & C2 & E2). split; [done|].
  split; [|cbn zeta in E2; rewrite E2, E1, <- app_assoc; done].
  rewrite C2. apply (f_equal length) in E1. revert E1. unfold contents.
  rewrite !length_app, !length_byte_bits, !length_low_bits. destruct H1 as [_ H1], Hp as [_ Hp].
  unfold CHAR_BIT in *. intros. lia.
Qed.

Lemma PackInt_contents p w z : payload_ok p ->
  let q := PackInt w z p in
  payload_ok q /\ bitCount q = bitCount p /\ contents q = contents p ++ low_bits (8 * w) z.
Proof.
  intros Hp. unfold PackInt. assert (bytes (map (le_byte z) (seq 0 w))) as Hb
    by (apply Forall_fmap, Forall_forall; intros; apply u8_is_byte).
  rewrite <- byte_bits_le. destruct (Nat.eqb_spec (bitCount p) 0) as [E|E].
  - destruct Hp as [[R B I] C]. split.
    { constructor; [constructor|]; cbn -[Z.pow]; [done|by apply Forall_app|rewrite length_app; lia|done]. }
    split; [done|]. unfold contents. cbn -[low_bits byte_bits map]. rewrite E. cbn [low_bits seq map].
    by rewrite !app_nil_r, byte_bits_app.
  - destruct (foldl_appendBits (map (le_byte z) (seq 0 w)) p Hp Hb) as (H1 & H2 & H3).
    assert (foldl (fun p k => appendBits CHAR_BIT (le_byte z k) p) p (seq 0 w) =
            foldl (fun p b => appendBits CHAR_BIT b p) p (map (le_byte z) (seq 0 w))) as ->; [|done].
    clear. generalize p. induction (seq 0 w) as [|k l IH]; intros r; cbn [foldl map]; [done|apply IH].
Qed.

(** ** Layouts

    [layout last t off]: where a field of type [t] ends, counted in bits modulo
    8, when it starts at [off]; [None] if packing and unpacking do not agree on
    it.  Byte strings must start on a byte, a nested tuple must start and end
    on one, a vector of bytes must be the last field. *)
Definition guard_opt (b : bool) (n : nat) : option nat := if b then Some n else None.
Fixpoint iterate_layout (n : nat) (f : nat -> option nat) (off : nat) : option nat :=
  match n with O => Some off | S n => match f off with Some off => iterate_layout n f off | None => None end end.
Fixpoint layout (last : bool) (t : ty) (off : nat) : option nat :=
  match t with
  | TUInt w | TInt w => guard_opt ((1 <=? w) && (w <=? 8))%nat off
  | TFixed n => guard_opt (n <=? 30)%nat ((off + n) mod 8)
  | TBool => Some ((off + 1) mod 8)%nat
  | TBitset n => guard_opt (n <=? 64)%nat ((off + n) mod 8)
  | TString | TBytes _ => guard_opt (off =? 0)%nat 0
  | TByteVec => guard_opt (last && (off =? 0)%nat) 0
  | TOpt t => layout last t off
  | TArray n t => iterate_layout n (layout false t) off
  | TTuple l => if (off =? 0)%nat && bool_decide (layouts last l off = Some 0%nat) then Some 0%nat else None
  | TVec _ | TPayload => None
  end
with layouts (last : bool) (l : tys) (off : nat) : option nat :=
  match l with
  | TNil => Some off
  | TCons t l =>
      match layout (last && match l with TNil => true | _ => false end) t off with
      | Some off => layouts last l off
      | None => None
      end
  end.

(** The values of the C++ types. *)
Fixpoint valid (t : ty) : interp t -> Prop :=
  match t return interp t -> Prop with
  | TUInt w => fun z => 0 <= z < 2 ^ (8 * Z.of_nat w)
  | TInt w => fun z => - 2 ^ (8 * Z.of_nat w - 1) <= z < 2 ^ (8 * Z.of_nat w - 1)
  | TFixed n | TBitset n => fun z => 0 <= z < 2 ^ Z.of_nat n
  | TBool => fun _ => True
  | TString => fun l => bytes l /\ (1 <= length l <= 255)%nat
  | TBytes n => fun l => bytes l /\ length l = n
  | TByteVec => fun l => bytes l
  | TOpt t => fun o => match o with Some v => valid t v | None => False end
  | TArray n t => fun l => length l = n /\ Forall (valid t) l
  | TVec t => fun l => Forall (valid t) l
  | TTuple l => valids l
  | TPayload => fun p => payload_ok p
  end
with valids (l : tys) : interps l -> Prop :=
  match l return interps l -> Prop with
  | TNil => fun _ => True
  | TCons t l => fun (v : interp t * interps l) => valid t (fst v) /\ valids l (snd v)
  end.

(** The bits of a value. *)
Fixpoint encode (t : ty) : interp t -> list bool :=
  match t return interp t -> list bool with
  | TUInt w | TInt w => low_bits (8 * w)
  | TFixed n | TBitset n => low_bits n
  | TBool => fun b => [b]
  | TString => fun l => low_bits 8 (Z.of_nat (length l)) ++ byte_bits l
  | TBytes _ | TByteVec => byte_bits
  | TOpt t => fun o => match o with Some v => encode t v | None => [] end
  | TArray _ t | TVec t => fun l => flat_map (encode t) l
  | TTuple l => encodes l
  | TPayload => fun p => byte_bits (raw p)
  end
with encodes (l : tys) : interps l -> list bool :=
  match l return interps l -> list bool with
  | TNil => fun _ => []
  | TCons t l => fun (v : interp t * interps l) => encode t (fst v) ++ encodes l (snd v)
  end.

Scheme ty_tys_ind := Induction for ty Sort Prop
  with tys_ty_ind := Induction for tys Sort Prop.
Combined Scheme types_ind from ty_tys_ind, tys_ty_ind.

Lemma count_after p p' l : payload_ok p -> payload_ok p' -> contents p' = contents p ++ l ->
  bitCount p' = ((bitCount p + length l) mod 8)%nat.
Proof.
  intros [_ H1] [_ H2] E. apply (f_equal length) in E. revert E. unfold contents.
  rewrite !length_app, !length_byte_bits, !length_low_bits. intros E.
  apply (Nat.mod_unique _ _ (length (raw p') - length (raw p))); lia.
Qed.
Lemma count_same n : (n < 8)%nat -> (n mod 8 = n)%nat.
Proof. apply Nat.mod_small. Qed.

Lemma guard_opt_Some b n off : guard_opt b n = Some off -> b = true /\ off = n.
Proof. unfold guard_opt. destruct b; [|done]. by intros [= ->]. Qed.

(** ** Packing writes the bits of the values *)
Definition packs (t : ty) : Prop := forall last v p off,
  payload_ok p -> layout last t (bitCount p) = Some off -> valid t v ->
  exists p', PackSingle t v p = (true, p') /\ payload_ok p' /\ bitCount p' = off /\
    contents p' = contents p ++ encode t v.
Definition packs_all (l : tys) : Prop := forall last v p off,
  payload_ok p -> layouts last l (bitCount p) = Some off -> valids l v ->
  exists p' k, pack l v p = (true, p') /\ payload_ok p' /\
    contents p' = contents p ++ encodes l v ++ replicate k false /\
    (off = 0%nat -> k = 0%nat /\ bitCount p' = 0%nat).

Lemma packs_int w (z : Z) p : payload_ok p ->
  payload_ok (PackInt w z p) /\ bitCount (PackInt w z p) = bitCount p /\
  contents (PackInt w z p) = contents p ++ low_bits (8 * w) z.
Proof. apply PackInt_contents. Qed.

Lemma packs_bits n z p : payload_ok p -> 0 <= z < 2 ^ Z.of_nat n ->
  let p' := PackBits n n z p in
  payload_ok p' /\ bitCount p' = ((bitCount p + n) mod 8)%nat /\ contents p' = contents p ++ low_bits n z.
Proof.
  intros Hp Hz. destruct (PackBits_contents n n z p Hp (le_n n) Hz) as [H1 E1].
  split; [done|]. split; [|done]. rewrite (count_after p _ _ Hp H1 E1), length_low_bits. done.
Qed.

Lemma append_bytes p l : payload_ok p -> bitCount p = 0%nat -> bytes l ->
  let p' := p <| raw := raw p ++ l |> in
  payload_ok p' /\ bitCount p' = 0%nat /\ contents p' = contents p ++ byte_bits l.
Proof.
  intros [[R B I] C] E Hl. cbn. split; [|split; [done|]].
  - constructor; [constructor|]; cbn -[Z.pow]; [done|by apply Forall_app|rewrite length_app; lia|done].
  - unfold contents. cbn -[low_bits byte_bits]. rewrite E. cbn [low_bits seq map].
    by rewrite !app_nil_r, byte_bits_app.
Qed.

Lemma drain_aligned p b : bitCount p = 0%nat -> drain b p = p.
Proof. intros E. unfold drain. by rewrite E. Qed.

Lemma foldl_PackInt l : forall p, payload_ok p -> bytes l -> bitCount p = 0%nat ->
  let p' := foldl (fun p b => PackInt 1 b p) p l in
  payload_ok p' /\ bitCount p' = 0%nat /\ contents p' = contents p ++ byte_bits l.
Proof.
  induction l as [|b l IH]; intros p Hp Hl E; cbn [foldl]; [by rewrite app_nil_r|].
  apply Forall_cons_1 in Hl as [Hb Hl]. destruct (PackInt_contents p 1 b Hp) as (H1 & C1 & E1).
  destruct (IH _ H1 Hl ltac:(congruence)) as (H2 & C2 & E2). split; [done|]. split; [done|].
  cbn zeta in *. rewrite E2, E1, <- app_assoc. done.
Qed.

Lemma packs_array t n l : packs t -> forall p off, payload_ok p ->
  iterate_layout n (layout false t) (bitCount p) = Some off -> length l = n -> Forall (valid t) l ->
  exists p', foldl (fun (s : bool * Payload) v => if fst s then PackSingle t v (snd s) else s) (true, p) l = (true, p') /\
    payload_ok p' /\ bitCount p' = off /\ contents p' = contents p ++ flat_map (encode t) l.
Proof.
  intros Ht. revert n. induction l as [|v l IH]; intros n p off Hp Hl Hn Hv; cbn [foldl length] in *; subst n.
  { injection Hl as <-. exists p. by rewrite app_nil_r. }
  cbn [iterate_layout] in Hl. destruct (layout false t (bitCount p)) as [off1|] eqn:E; [|done].
  apply Forall_cons_1 in Hv as [Hv Hvs]. destruct (Ht false v p off1 Hp E Hv) as (p1 & P1 & O1 & C1 & E1).
  cbn [fst snd]. rewrite P1. rewrite <- C1 in Hl.
  destruct (IH _ p1 off O1 Hl eq_refl Hvs) as (p2 & P2 & O2 & C2 & E2).
  exists p2. split; [done|]. split; [done|]. split; [done|].
  rewrite E2, E1, <- app_assoc. done.
Qed.

Lemma packs_cons t l : packs t -> packs_all l -> packs_all (TCons t l).
Proof.
  intros Ht Hl last [v vs] p off Hp Hlay [Hv Hvs]. cbn [layouts] in Hlay. cbn [fst snd] in *.
  destruct (layout _ t (bitCount p)) as [off1|] eqn:E; [|done].
  destruct (Ht _ v p off1 Hp E Hv) as (p1 & P1 & O1 & C1 & E1). rewrite <- C1 in Hlay.
  destruct (Hl last vs p1 off O1 Hlay Hvs) as (p2 & k & P2 & O2 & E2 & Z2).
  destruct (drain_rest p2 O2) as (j & O3 & C3 & E3 & J & Z3).
  exists (drain false p2), (k + j)%nat. cbn [pack fst snd]. rewrite P1. cbn [fst snd]. rewrite P2. cbn [fst snd].
  split; [done|]. split; [done|]. split.
  - rewrite E3, E2, E1. cbn [encodes]. rewrite replicate_add, <- !app_assoc. done.
  - intros H0. destruct (Z2 H0) as [-> C2]. split; [|done]. by rewrite (Z3 C2).
Qed.

Ltac packs_start :=
  lazymatch goal with
  | |- packs _ => intros last v p off Hp Hlay Hv; cbn [layout PackSingle encode valid] in *
  | |- forall x, _ => intro; packs_start
  end.

Lemma pack_contents : (forall t, packs t) /\ (forall l, packs_all l).
Proof.
  apply types_ind.
  - packs_start. apply guard_opt_Some in Hlay as [_ ->]. eexists. split; [done|]. by apply packs_int.
  - packs_start. apply guard_opt_Some in Hlay as [_ ->]. eexists. split; [done|]. by apply packs_int.
  - packs_start. apply guard_opt_Some in Hlay as [_ ->]. eexists. split; [done|]. by apply packs_bits.
  - packs_start. injection Hlay as <-. eexists. split; [done|]. destruct (appendBits_contents p 1 (Z.b2z v) Hp) as [H1 E1].
    + lia.
    + by destruct v.
    + split; [done|]. assert (low_bits 1 (Z.b2z v) = [v]) as E by by destruct v. rewrite E in E1.
      by rewrite (count_after p _ _ Hp H1 E1).
  - packs_start. apply guard_opt_Some in Hlay as [_ ->]. eexists. split; [done|]. by apply packs_bits.
  - packs_start. apply guard_opt_Some in Hlay as [Hz ->]. apply Nat.eqb_eq in Hz. destruct Hv as [Hb Hlen].
    rewrite (proj2 (Nat.ltb_ge 255 _)) by lia. eexists. split; [done|].
    destruct (PackInt_contents p 1 (Z.of_nat (length v)) Hp) as (H1 & C1 & E1). rewrite Hz in C1.
    unfold append. rewrite (drain_aligned _ false C1).
    destruct (append_bytes _ v H1 C1 Hb) as (H2 & C2 & E2). cbn zeta in *.
    split; [done|]. split; [done|]. rewrite E2, E1, <- app_assoc. done.
  - packs_start. apply guard_opt_Some in Hlay as [Hz ->]. apply Nat.eqb_eq in Hz. destruct Hv as [Hb Hlen].
    eexists. split; [done|]. by apply foldl_PackInt.
  - packs_start. apply guard_opt_Some in Hlay as [Hz ->]. apply andb_true_iff in Hz as [_ Hz]. apply Nat.eqb_eq in Hz.
    unfold PackRaw. rewrite Hz. eexists. split; [done|]. by apply append_bytes.
  - intros t IH last [v|] p off Hp Hlay Hv; [|done]. by apply (IH last).
  - intros n t IH last v p off Hp Hlay [Hn Hv]. cbn [PackSingle layout encode] in *.
    destruct (packs_array _ _ v IH p off Hp Hlay Hn Hv) as (p' & P & O & C & E).
    rewrite P. eexists. split; [done|]. done.
  - done.
  - intros l IH last v p off Hp Hlay Hv. cbn [PackSingle layout encode] in *.
    destruct ((_ =? 0)%nat && _) eqn:Ez; [|done]. injection Hlay as <-.
    apply andb_true_iff in Ez as [_ Ez]. apply bool_decide_eq_true in Ez.
    destruct (IH last v p 0%nat Hp Ez Hv) as (p' & k & P & O & E & Z0). destruct (Z0 eq_refl) as [-> C].
    exists p'. rewrite app_nil_r in E. done.
  - done.
  - intros last v p off Hp Hlay _. exists p, 0%nat. cbn. rewrite app_nil_r. injection Hlay as <-. done.
  - intros t H1 l H2. by apply packs_cons.
Qed.

(** ** Taking bits off the stream *)
Definition same_flags (p p' : Payload) : Prop :=
  raw p' = raw p /\ trailingOk p' = trailingOk p /\ unpackError p' = unpackError p.
Lemma same_flags_refl p : same_flags p p.
Proof. done. Qed.
Lemma same_flags_trans p q r : same_flags p q -> same_flags q r -> same_flags p r.
Proof. unfold same_flags. intuition congruence. Qed.
#[local] Hint Resolve same_flags_refl same_flags_trans : core.

Lemma length_remaining p : length (remaining p) = bits_left p.
Proof. unfold remaining, bits_left. rewrite length_app, length_low_bits, length_byte_bits, length_drop. lia. Qed.

Definition filled (p : Payload) (b : Z) : Payload :=
  p <| bitStream := stream_or p b |> <| rawIndex := S (rawIndex p) |>
    <| bitCount := (bitCount p + CHAR_BIT)%nat |>.
Lemma filled_ok p b : stream_ok p -> raw p !! rawIndex p = Some b -> (bitCount p <= 64)%nat ->
  stream_ok (filled p b) /\ remaining (filled p b) = remaining p.
Proof.
  intros [R B I] Hb Hc.
  assert (is_byte b) as Rb by (eapply (Forall_lookup_1 is_byte); eauto).
  assert (bitStream (filled p b) = b * 2 ^ Z.of_nat (bitCount p) + bitStream p) as Eq.
  { unfold filled, stream_or. cbn -[Z.pow Z.shiftl bitStreamSize]. rewrite Z.mod_small.
    - rewrite Z.lor_comm. by apply lor_shiftl_add; [lia|].
    - rewrite Z.shiftl_mul_pow2 by lia. split; [unfold is_byte in Rb; lia|].
      change (2 ^ Z.of_nat bitStreamSize) with (256 * 2 ^ 64).
      unfold is_byte in Rb. pose proof (Z.pow_le_mono_r 2 (Z.of_nat (bitCount p)) 64). nia. }
  split.
  - constructor; [|done|].
    + rewrite Eq. unfold filled, CHAR_BIT. cbn -[Z.pow]. rewrite Nat2Z.inj_add, Z.pow_add_r by lia.
      change (2 ^ Z.of_nat 8) with 256. unfold is_byte in Rb. nia.
    + apply lookup_lt_Some in Hb. unfold filled. cbn. lia.
  - unfold remaining. rewrite Eq. change (bitCount (filled p b)) with (bitCount p + 8)%nat.
    change (raw (filled p b)) with (raw p). change (rawIndex (filled p b)) with (S (rawIndex p)).
    rewrite (drop_S _ _ _ Hb), low_bits_add, <- app_assoc. cbn [byte_bits flat_map]. f_equal; [|f_equal].
    + rewrite <- (low_bits_mod _ (bitCount p)), Z.add_comm, Z.mod_add, Z.mod_small by lia. done.
    + f_equal. rewrite shiftr_div, Z.add_comm, Z.div_add, Z.div_small by lia. lia.
Qed.

Lemma fill_loop_spec fuel : forall count p, stream_ok p -> (count <= 64)%nat ->
  (count <= bits_left p)%nat -> (1 <= fuel /\ count < fuel + bitCount p)%nat ->
  (bitCount p < count + 8 \/ bitCount p < 8)%nat ->
  exists p', fill_loop fuel count p = Ret false p' /\ stream_ok p' /\
    (count <= bitCount p' /\ bitCount p' - count < 8)%nat /\
    remaining p' = remaining p /\ same_flags p p'.
Proof.
  induction fuel as [|fuel IH]; intros count p Hp Hc Hl Hf Hb; [lia|]. cbn [fill_loop].
  unfold bind at 1. cbn [get]. destruct (Nat.ltb_spec (bitCount p) count) as [Hlt|Hge].
  - assert (rawIndex p < length (raw p))%nat as Hi by (unfold bits_left in Hl; lia).
    rewrite (proj2 (Nat.ltb_lt _ _) Hi). destruct (lookup_lt_is_Some_2 _ _ Hi) as [b Eb].
    unfold bind at 1. rewrite (idx_Ret _ _ _ _ Eb). unfold bind at 1. cbn [modify].
    change (_ <| bitCount := _ |>) with (filled p b).
    destruct (filled_ok p b Hp Eb ltac:(lia)) as [H1 E1].
    assert (bits_left (filled p b) = bits_left p) as El by by rewrite <- !length_remaining, E1.
    destruct (IH count (filled p b) H1 Hc) as (p' & E & ? & ? & R & S); try lia.
    1-2: unfold filled, CHAR_BIT; cbn [bitCount update]; cbn; lia.
    exists p'. rewrite R, E1. split; [done|]. split; [done|]. split; [done|]. split; [done|].
    eapply same_flags_trans; [|exact S]. done.
  - exists p. split; [done|]. split; [done|]. split; [|done]. lia.
Qed.

Lemma fillBits_spec count p : payload_ok p -> (count <= 64)%nat -> (count <= bits_left p)%nat ->
  exists p', fillBits count p = Ret false p' /\ stream_ok p' /\
    (count <= bitCount p' /\ bitCount p' - count < 8)%nat /\
    remaining p' = remaining p /\ same_flags p p'.
Proof.
  intros [Hp Hb] Hc Hl. unfold fillBits, bitStreamSize, CHAR_BIT.
  rewrite (proj2 (Nat.ltb_ge _ count)) by lia. apply fill_loop_spec; auto. lia.
Qed.

Definition consumed (p : Payload) (count : nat) : Payload :=
  p <| bitStream := Z.shiftr (bitStream p) (Z.of_nat count) |> <| bitCount := (bitCount p - count)%nat |>.
Lemma consumed_spec p count : stream_ok p -> (count <= bitCount p)%nat ->
  stream_ok (consumed p count) /\
  remaining p = low_bits count (bitStream p) ++ remaining (consumed p count).
Proof.
  intros [R B I] Hc. split; [constructor; [by apply shiftr_range|done|done]|].
  unfold remaining. rewrite app_assoc. f_equal. change (bitCount (consumed p count)) with (bitCount p - count)%nat.
  replace (bitCount p) with (count + (bitCount p - count))%nat at 1 by lia. apply low_bits_add.
Qed.

Lemma land_of_bits s n : Z.land s (2 ^ Z.of_nat n - 1) = of_bits (low_bits n s).
Proof. by rewrite land_mask, of_low_bits by lia. Qed.

Lemma app_inj_length {A} (l1 l2 m1 m2 : list A) :
  l1 ++ l2 = m1 ++ m2 -> length l1 = length m1 -> l1 = m1 /\ l2 = m2.
Proof. intros E H. by apply app_inj_1. Qed.

(** The state after [e] was taken off. *)
Definition taken (p p' : Payload) (rest : list bool) : Prop :=
  payload_ok p' /\ remaining p' = rest /\ same_flags p p'.

Lemma take_spec p n e rest : stream_ok p -> (n <= bitCount p)%nat -> (bitCount p - n < 8)%nat ->
  remaining p = e ++ rest -> length e = n ->
  taken p (consumed p n) rest /\ low_bits n (bitStream p) = e.
Proof.
  intros Hp Hn H8 E He. destruct (consumed_spec p n Hp Hn) as [H1 E1]. rewrite E in E1.
  apply app_inj_length in E1 as [-> E2]; [|by rewrite length_low_bits].
  split; [|done]. by split; [split|split].
Qed.

Lemma fill_take n p e rest : payload_ok p -> (n <= 64)%nat -> remaining p = e ++ rest -> length e = n ->
  exists q, fillBits n p = Ret false q /\ taken p (consumed q n) rest /\
    Z.land (bitStream q) (2 ^ Z.of_nat n - 1) = of_bits e.
Proof.
  intros Hp Hn E He. assert (n <= bits_left p)%nat as Hl
    by (rewrite <- length_remaining, E, length_app; lia).
  destruct (fillBits_spec n p Hp Hn Hl) as (q & Eq & Oq & [B1 B2] & Rq & Sq). exists q. split; [done|].
  rewrite <- Rq in E. destruct (take_spec q n e rest Oq B1 B2 E He) as [(O1 & R1 & S1) E1].
  split; [|by rewrite land_of_bits, E1]. split; [done|]. split; [done|]. eauto.
Qed.

Lemma take_bits_spec n p z rest : payload_ok p -> (n <= 64)%nat -> 0 <= z < 2 ^ Z.of_nat n ->
  remaining p = low_bits n z ++ rest ->
  exists p', take_bits n p = Ret (Some z) p' /\ taken p p' rest.
Proof.
  intros Hp Hn Hz E. destruct (fill_take n p _ rest Hp Hn E (length_low_bits n z)) as (q & Eq & T & V).
  exists (consumed q n). split; [|done]. unfold take_bits. rewrite (bind_Ret _ _ _ _ _ Eq).
  cbn [bind get ret consume modify]. by rewrite V, of_low_bits_small.
Qed.

Lemma UnpackFixed_spec n p z rest : payload_ok p -> (n <= 30)%nat -> 0 <= z < 2 ^ Z.of_nat n ->
  remaining p = low_bits n z ++ rest ->
  exists p', UnpackFixed n p = Ret (Some z) p' /\ taken p p' rest.
Proof.
  intros Hp Hn Hz E. destruct (take_bits_spec n p z rest Hp ltac:(lia) Hz E) as (p' & E' & T).
  exists p'. split; [|done]. rewrite <- E'. unfold UnpackFixed, take_bits.
  by rewrite (proj2 (Nat.ltb_ge 30 n) Hn).
Qed.

Lemma popBits_spec p b rest : stream_ok p -> (8 <= bitCount p)%nat ->
  remaining p = low_bits 8 b ++ rest -> is_byte b ->
  popBits CHAR_BIT p = Ret b (consumed p 8) /\ stream_ok (consumed p 8) /\ remaining (consumed p 8) = rest.
Proof.
  intros Hp H8 E Hb. destruct (consumed_spec p 8 Hp H8) as [H1 E1]. rewrite E in E1.
  apply app_inj_length in E1 as [E1 E2]; [|by rewrite !length_low_bits]. split; [|done].
  unfold popBits, CHAR_BIT. cbn [bind get]. rewrite (proj2 (Nat.ltb_ge _ 8) H8).
  cbn [bind consume modify ret]. f_equal. rewrite land_of_bits.
  replace (low_bits 8 (u8 (bitStream p))) with (low_bits 8 (bitStream p))
    by (symmetry; apply (low_bits_mod 8 8); lia).
  rewrite <- E1. by apply of_low_bits_small.
Qed.

Lemma UnpackBytesUnaligned_spec w : forall p l rest, stream_ok p -> bytes l -> length l = w ->
  (8 * w <= bitCount p)%nat -> remaining p = byte_bits l ++ rest ->
  exists p', UnpackBytesUnaligned w p = Ret l p' /\ stream_ok p' /\ remaining p' = rest /\
    (bitCount p' = bitCount p - 8 * w)%nat /\ same_flags p p'.
Proof.
  induction w as [|w IH]; intros p l rest Hp Hb Hl Hc E; cbn [UnpackBytesUnaligned].
  { apply nil_length_inv in Hl as ->. exists p. do 3 (split; [done|]). split; [lia|done]. }
  destruct l as [|b l]; [done|]. apply Forall_cons_1 in Hb as [Hb Hbs]. injection Hl as Hl.
  cbn [byte_bits flat_map] in E. rewrite <- app_assoc in E. fold (byte_bits l) in E.
  destruct (popBits_spec p b _ Hp ltac:(lia) E Hb) as (P1 & O1 & R1).
  destruct (IH (consumed p 8) l rest O1 Hbs Hl) as (p' & P2 & O2 & R2 & C2 & S2); [cbn; lia|done|].
  exists p'. rewrite (bind_Ret _ _ _ _ _ P1), (bind_Ret _ _ _ _ _ P2). split; [done|].
  split; [done|]. split; [done|]. split; [cbn in C2; lia|]. eapply same_flags_trans; [|exact S2]. done.
Qed.

(** On a byte boundary. *)
Lemma byte_bits_prefix l : forall m rest, bytes l -> bytes m -> byte_bits m = byte_bits l ++ rest ->
  exists l2, m = l ++ l2 /\ rest = byte_bits l2.
Proof.
  induction l as [|b l IH]; intros m rest Hl Hm E; [by exists m|].
  destruct m as [|c m]; [apply (f_equal length) in E; cbn in E; rewrite ?length_app in E; cbn in E; lia|].
  cbn [byte_bits flat_map] in E. rewrite <- app_assoc in E.
  apply app_inj_length in E as [E1 E2]; [|by rewrite !length_low_bits].
  apply Forall_cons_1 in Hl as [Hb Hl]. apply Forall_cons_1 in Hm as [Hc Hm].
  destruct (IH m rest Hl Hm E2) as (l2 & -> & ->). exists l2. split; [|done].
  cbn [app]. f_equal. apply (f_equal of_bits) in E1. by rewrite !of_low_bits_small in E1.
Qed.

Lemma aligned_bytes p l rest : payload_ok p -> bitCount p = 0%nat -> bytes l ->
  remaining p = byte_bits l ++ rest ->
  exists l2, drop (rawIndex p) (raw p) = l ++ l2 /\ rest = byte_bits l2.
Proof.
  intros [[R B I] C] E Hl Er. unfold remaining in Er. rewrite E in Er.
  apply byte_bits_prefix; [done|by apply Forall_drop|done].
Qed.

Definition skip (p : Payload) (n : nat) : Payload := p <| rawIndex := (rawIndex p + n)%nat |>.
Lemma skip_taken p l l2 : payload_ok p -> bitCount p = 0%nat ->
  drop (rawIndex p) (raw p) = l ++ l2 -> taken p (skip p (length l)) (byte_bits l2) /\ bitCount (skip p (length l)) = 0%nat.
Proof.
  intros [[R B I] C] E Ed. assert (length l <= length (raw p) - rawIndex p)%nat as Hl
    by (rewrite <- length_drop, Ed, length_app; lia).
  split; [|done]. split; [constructor; [constructor|]; cbn -[Z.pow]; [done|done|lia|done]|]. split; [|done].
  unfold remaining, skip. cbn -[low_bits byte_bits]. rewrite E. cbn [low_bits seq map app].
  by rewrite <- drop_drop, Ed, drop_app_length.
Qed.

Lemma bytes_le_byte z w : bytes (map (le_byte z) (seq 0 w)).
Proof. apply Forall_fmap, Forall_forall. intros. apply u8_is_byte. Qed.

Lemma UnpackInt_spec w p z rest : payload_ok p -> (w <= 8)%nat ->
  remaining p = low_bits (8 * w) z ++ rest ->
  exists p', UnpackInt w p = Ret (Some (z mod 2 ^ (8 * Z.of_nat w))) p' /\ taken p p' rest.
Proof.
  intros Hp Hw E. set (l := map (le_byte z) (seq 0 w)).
  assert (bytes l) as Hl by apply bytes_le_byte.
  assert (length l = w) as Ln by by unfold l; rewrite length_map, length_seq.
  assert (UnpackBytes w l = z mod 2 ^ (8 * Z.of_nat w)) as V.
  { rewrite (UnpackBytes_value w l Ln Hl). unfold l. by rewrite byte_bits_le, of_low_bits, Nat2Z.inj_mul. }
  rewrite <- byte_bits_le in E. fold l in E. unfold UnpackInt.
  rewrite (bind_Ret get _ p p p) by done. destruct (Nat.eqb_spec (bitCount p) 0) as [C|C]; cbn [negb].
  - destruct (aligned_bytes p l rest Hp C Hl E) as (l2 & Ed & ->).
    destruct (skip_taken p l l2 Hp C Ed) as [T _]. rewrite Ln in T.
    assert (w <= length (raw p) - rawIndex p)%nat as Hi by (rewrite <- length_drop, Ed, length_app; lia).
    destruct Hp as [[R B I] _]. rewrite (proj2 (Nat.ltb_ge _ _)) by lia.
    rewrite Ed, <- Ln, take_app_length, Ln, V. eexists. by split.
  - assert (8 * w <= bits_left p)%nat as Hb
      by (rewrite <- length_remaining, E, length_app, length_byte_bits; lia).
    destruct (fillBits_spec (8 * w) p Hp ltac:(lia) Hb) as (q & Eq & Oq & [B1 B2] & Rq & Sq).
    rewrite <- Rq in E.
    destruct (UnpackBytesUnaligned_spec w q l rest Oq Hl Ln B1 E) as (p' & P & O & R & C' & S).
    exists p'. change (CHAR_BIT * w)%nat with (8 * w)%nat. rewrite (bind_Ret _ _ _ _ _ Eq).
    rewrite (bind_Ret _ _ _ _ _ P), V. split; [done|].
    split; [by split; [done|lia]|]. split; [done|]. eauto.
Qed.

Lemma sext_mod w z : 0 < w -> - 2 ^ (w - 1) <= z < 2 ^ (w - 1) -> sext w (z mod 2 ^ w) = z.
Proof.
  intros Hw Hz. assert (2 ^ w = 2 * 2 ^ (w - 1)) as E by (rewrite <- Z.pow_succ_r by lia; f_equal; lia).
  unfold sext. rewrite Z.mod_mod by lia. destruct (Z.ltb_spec z 0) as [Hneg|Hpos].
  - assert (z mod 2 ^ w = z + 2 ^ w) as -> by (symmetry; apply (Z.mod_unique _ _ (-1)); lia).
    assert (Z.testbit (z + 2 ^ w) (w - 1) = true) as ->; [|lia].
    apply Z.testbit_true; [lia|].
    by rewrite <- (Z.div_unique (z + 2 ^ w) (2 ^ (w - 1)) 1 (z + 2 ^ (w - 1))) by lia.
  - rewrite (Z.mod_small z) by lia. destruct (Z.testbit z (w - 1)) eqn:T; [|done].
    apply Z.testbit_true in T; [|lia]. rewrite Z.div_small in T by lia. done.
Qed.

Lemma UnpackString_spec p l rest : payload_ok p -> bitCount p = 0%nat -> bytes l ->
  (1 <= length l <= 255)%nat ->
  remaining p = low_bits 8 (Z.of_nat (length l)) ++ byte_bits l ++ rest ->
  exists p', UnpackString p = Ret (Some l) p' /\ taken p p' rest /\ bitCount p' = 0%nat.
Proof.
  intros Hp C Hl Hn E. set (n := Z.of_nat (length l)).
  assert (is_byte n) as Hb by (unfold is_byte, n; lia).
  assert (remaining p = byte_bits (n :: l) ++ rest) as E'.
  { rewrite E. cbn [byte_bits flat_map]. by rewrite <- app_assoc. }
  destruct (aligned_bytes p (n :: l) rest Hp C (proj2 (bytes_cons n l) (conj Hb Hl)) E') as (l2 & Ed & ->).
  destruct (skip_taken p (n :: l) l2 Hp C Ed) as [T C'].
  assert (S (length l) <= length (raw p) - rawIndex p)%nat as Hi
    by (rewrite <- length_drop, Ed, length_app; cbn [length]; lia).
  assert (raw p !! rawIndex p = Some n) as En
    by (rewrite <- (Nat.add_0_r (rawIndex p)), <- lookup_drop, Ed; done).
  exists (skip p (length (n :: l))). split; [|done]. unfold UnpackString.
  rewrite (bind_Ret get _ p p p) by done. rewrite (proj2 (Nat.ltb_ge _ (rawIndex p))) by lia.
  rewrite andb_false_r. rewrite (bind_Ret _ _ _ _ _ (idx_Ret _ _ _ _ En)).
  set (q := p <| rawIndex := S (rawIndex p) |>).
  assert (pop (Z.to_nat n) q = Ret (Some l) (skip p (length (n :: l)))) as Ep; [|].
  { unfold n. rewrite Nat2Z.id. unfold pop. cbn [bind modify get].
    change (bitCount q) with (bitCount p). rewrite C. cbn [Nat.eqb].
    change (raw q) with (raw p). change (rawIndex q) with (S (rawIndex p)).
    rewrite (proj2 (Nat.leb_le _ _)) by lia. cbn [bind modify ret].
    replace (drop (S (rawIndex p)) (raw p)) with (l ++ l2)
      by (rewrite <- Nat.add_1_r, <- drop_drop, Ed; done).
    rewrite take_app_length. f_equal. unfold skip. cbn [length].
    by rewrite Nat.add_succ_r. }
  rewrite (bind_Ret (modify _) _ p tt q), (bind_Ret _ _ _ _ _ Ep) by done.
  destruct l; [cbn in Hn; lia|done].
Qed.

(** ** Unpacking reads the values back *)
Definition unpacks (t : ty) : Prop := forall last v p off0 off rest,
  payload_ok p -> layout last t off0 = Some off -> ((off0 + bitCount p) mod 8 = 0)%nat ->
  (off0 < 8)%nat -> valid t v -> remaining p = encode t v ++ rest -> (last = true -> rest = []) ->
  exists p', UnpackSingle t p = Ret (Some v) p' /\ taken p p' rest.
Definition unpacks_all (l : tys) : Prop := forall last v p off0 off rest,
  payload_ok p -> layouts last l off0 = Some off -> ((off0 + bitCount p) mod 8 = 0)%nat ->
  (off0 < 8)%nat -> valids l v -> remaining p = encodes l v ++ rest -> (last = true -> rest = []) ->
  exists p', unpack l p = Ret (Some v) p' /\ taken p p' rest.

(** Where the next field starts is what the layout says. *)
Lemma layout_size last t off off1 v : layout last t off = Some off1 -> (off < 8)%nat -> valid t v ->
  off1 = ((off + length (encode t v)) mod 8)%nat.
Proof.
  intros Hlay Ho Hv. set (p := (new_Payload []) <| bitCount := off |>).
  assert (payload_ok p) as Hp
    by (constructor; [constructor; cbn -[Z.pow]; [lia|apply Forall_nil; exact I|lia]|exact Ho]).
  destruct (proj1 pack_contents t last v p off1 Hp Hlay Hv) as (p' & _ & O & C & E).
  by rewrite <- C, (count_after p p' _ Hp O E).
Qed.

Lemma next_aligned last t off off1 v p p' rest : payload_ok p -> layout last t off = Some off1 ->
  (off < 8)%nat -> valid t v -> ((off + bitCount p) mod 8 = 0)%nat ->
  remaining p = encode t v ++ rest -> taken p p' rest ->
  ((off1 + bitCount p') mod 8 = 0 /\ off1 < 8)%nat.
Proof.
  intros [Hp Hc] Hlay Ho Hv Ha E ([Hp' Hc'] & <- & F). rewrite (layout_size last t off off1 v) by done.
  split; [|by apply Nat.mod_upper_bound]. apply (f_equal length) in E. revert E.
  rewrite length_app, !length_remaining. unfold bits_left. intros E.
  apply Nat.Div0.mod_divides in Ha as [k Ha]. rewrite Nat.Div0.add_mod_idemp_l.
  apply Nat.Div0.mod_divides.
  exists (k + (length (raw p) - rawIndex p) - (length (raw p') - rawIndex p'))%nat. lia.
Qed.

Lemma taken_trans p q r rest rest' : taken p q rest -> taken q r rest' -> taken p r rest'.
Proof. intros (_ & _ & F) (? & ? & F'). split; [done|]. split; [done|]. eauto. Qed.

Lemma unpacks_cons t l : unpacks t -> unpacks_all l -> unpacks_all (TCons t l).
Proof.
  intros Ht Hl last [v vs] p off0 off rest Hp Hlay Ha H8 [Hv Hvs] E Hlast.
  cbn [layouts encodes fst snd] in *. rewrite <- app_assoc in E.
  destruct (layout _ t off0) as [off1|] eqn:El; [|done].
  destruct (Ht _ v p off0 off1 _ Hp El Ha H8 Hv E) as (p1 & P1 & T1).
  { destruct l; [|by rewrite andb_false_r]. intros Hb. apply andb_true_iff in Hb as [Hb _]. by rewrite Hlast. }
  destruct (next_aligned _ t off0 off1 v p p1 _ Hp El H8 Hv Ha E T1) as [Ha1 H81].
  destruct T1 as (O1 & R1 & F1).
  destruct (Hl last vs p1 off1 off rest O1 Hlay Ha1 H81 Hvs R1 Hlast) as (p2 & P2 & T2).
  exists p2. cbn [unpack]. rewrite (bind_Ret _ _ _ _ _ P1), (bind_Ret _ _ _ _ _ P2).
  split; [done|]. by apply (taken_trans p p1 p2 (encodes l vs ++ rest)).
Qed.

Lemma unpacks_array t n : unpacks t -> forall l p off0 off rest, payload_ok p ->
  iterate_layout n (layout false t) off0 = Some off -> ((off0 + bitCount p) mod 8 = 0)%nat ->
  (off0 < 8)%nat -> length l = n -> Forall (valid t) l -> remaining p = flat_map (encode t) l ++ rest ->
  exists p', array_loop (UnpackSingle t) n p = Ret (Some l) p' /\ taken p p' rest.
Proof.
  intros Ht. induction n as [|n IH]; intros l p off0 off rest Hp Hlay Ha H8 Hn Hv E; cbn [array_loop].
  { apply nil_length_inv in Hn as ->. exists p. done. }
  destruct l as [|v l]; [done|]. injection Hn as Hn. apply Forall_cons_1 in Hv as [Hv Hvs].
  cbn [flat_map iterate_layout] in *. rewrite <- app_assoc in E.
  destruct (layout false t off0) as [off1|] eqn:El; [|done].
  destruct (Ht false v p off0 off1 _ Hp El Ha H8 Hv E) as (p1 & P1 & T1); [done|].
  destruct (next_aligned _ t off0 off1 v p p1 _ Hp El H8 Hv Ha E T1) as [Ha1 H81].
  destruct T1 as (O1 & R1 & F1).
  destruct (IH l p1 off1 off rest O1 Hlay Ha1 H81 Hn Hvs R1) as (p2 & P2 & T2).
  exists p2. rewrite (bind_Ret _ _ _ _ _ P1), (bind_Ret _ _ _ _ _ P2). split; [done|].
  by apply (taken_trans p p1 p2 (flat_map (encode t) l ++ rest)).
Qed.

Lemma aligned_count off p : (off = 0 -> (off + bitCount p) mod 8 = 0 -> payload_ok p -> bitCount p = 0)%nat.
Proof. intros -> H [_ Hc]. by rewrite Nat.mod_small in H. Qed.

Ltac unpacks_start :=
  lazymatch goal with
  | |- unpacks _ =>
      intros last v p off0 off rest Hp Hlay Ha H8 Hv E Hlast; cbn [layout UnpackSingle encode valid] in *
  | |- forall x, _ => intro; unpacks_start
  end.

Lemma UnpackByteArray_spec p l rest : payload_ok p -> bitCount p = 0%nat -> bytes l ->
  remaining p = byte_bits l ++ rest ->
  exists p', UnpackByteArray (length l) p = Ret (Some l) p' /\ taken p p' rest.
Proof.
  intros Hp C Hl E. destruct (aligned_bytes p l rest Hp C Hl E) as (l2 & Ed & ->).
  destruct (skip_taken p l l2 Hp C Ed) as [T _]. exists (skip p (length l)). split; [|done].
  unfold UnpackByteArray. rewrite (bind_Ret get _ p p p) by done.
  rewrite (proj2 (Nat.ltb_ge _ _)) by (rewrite <- length_drop, Ed, length_app; lia).
  by rewrite Ed, take_app_length.
Qed.

Lemma UnpackRest_spec p l : payload_ok p -> bitCount p = 0%nat -> bytes l ->
  remaining p = byte_bits l -> exists p', UnpackRest p = Ret (Some l) p' /\ taken p p' [].
Proof.
  intros Hp C Hl E. rewrite <- (app_nil_r (byte_bits l)) in E.
  destruct (aligned_bytes p l [] Hp C Hl E) as (l2 & Ed & E2).
  assert (l2 = []) as -> by (destruct l2; [done|]; apply (f_equal length) in E2; by rewrite length_byte_bits in E2).
  rewrite app_nil_r in Ed. exists (p <| rawIndex := length (raw p) |>).
  split; [unfold UnpackRest; cbn [bind get modify ret]; by rewrite Ed|].
  destruct Hp as [[R B I] ?]. split; [constructor; [constructor|]; cbn -[Z.pow]; auto|]. split; [|done].
  unfold remaining. cbn -[low_bits byte_bits]. by rewrite C, drop_all.
Qed.

Lemma unpack_reads : (forall t, unpacks t) /\ (forall l, unpacks_all l).
Proof.
  apply types_ind.
  - unpacks_start. apply guard_opt_Some in Hlay as [Hw ->]. apply andb_true_iff in Hw as [_ Hw].
    apply Nat.leb_le in Hw. destruct (UnpackInt_spec width p v rest Hp Hw E) as (p' & P & T).
    rewrite Z.mod_small in P by done. eauto.
  - unpacks_start. apply guard_opt_Some in Hlay as [Hw ->]. apply andb_true_iff in Hw as [Hw1 Hw].
    apply Nat.leb_le in Hw, Hw1. destruct (UnpackInt_spec width p v rest Hp Hw E) as (p' & P & T).
    exists p'. rewrite (bind_Ret _ _ _ _ _ P). split; [|done]. cbn. by rewrite sext_mod by lia.
  - unpacks_start. apply guard_opt_Some in Hlay as [Hn ->]. apply Nat.leb_le in Hn.
    by apply UnpackFixed_spec.
  - unpacks_start. destruct (take_bits_spec 1 p (Z.b2z v) rest Hp) as (p' & P & T);
      [lia|clear; by destruct v|rewrite E; clear; by destruct v|].
    exists p'. rewrite (bind_Ret _ _ _ _ _ P). split; [clear; by destruct v|done].
  - unpacks_start. apply guard_opt_Some in Hlay as [Hn ->]. apply Nat.leb_le in Hn.
    by apply take_bits_spec.
  - unpacks_start. apply guard_opt_Some in Hlay as [H0 ->]. apply Nat.eqb_eq in H0. destruct Hv as [Hb Hn].
    rewrite <- app_assoc in E.
    destruct (UnpackString_spec p v rest Hp (aligned_count off0 p H0 Ha Hp) Hb Hn E) as (p' & P & T & _). eauto.
  - unpacks_start. apply guard_opt_Some in Hlay as [H0 ->]. apply Nat.eqb_eq in H0. destruct Hv as [Hb Hn].
    pose proof (UnpackByteArray_spec p v rest Hp (aligned_count off0 p H0 Ha Hp) Hb E) as H.
    rewrite Hn in H. exact H.
  - unpacks_start. apply guard_opt_Some in Hlay as [H0 ->]. apply andb_true_iff in H0 as [Hl H0].
    apply Nat.eqb_eq in H0. rewrite (Hlast Hl) in *. rewrite app_nil_r in E.
    exact (UnpackRest_spec p v Hp (aligned_count off0 p H0 Ha Hp) Hv E).
  - intros t IH last [v|] p off0 off rest Hp Hlay Ha H8 Hv E Hlast; [|done].
    destruct (IH last v p off0 off rest Hp Hlay Ha H8 Hv E Hlast) as (p' & P & T). exists p'.
    cbn [UnpackSingle]. unfold UnpackOpt. rewrite (bind_Ret get _ p p p) by done.
    by rewrite (bind_Ret _ _ _ _ _ P).
  - intros n t IH last v p off0 off rest Hp Hlay Ha H8 [Hn Hv] E _.
    destruct (unpacks_array t n IH v p off0 off rest Hp Hlay Ha H8 Hn Hv E) as (p' & P & T). exists p'.
    cbn [UnpackSingle]. unfold UnpackArray. rewrite (bind_Ret get _ p p p) by done.
    by rewrite (bind_Ret _ _ _ _ _ P).
  - done.
  - intros l IH last v p off0 off rest Hp Hlay Ha H8 Hv E Hlast. cbn [layout] in Hlay.
    destruct ((_ =? 0)%nat && _) eqn:Ez; [|done].
    apply andb_true_iff in Ez as [E0 Ez]. apply bool_decide_eq_true in Ez. apply Nat.eqb_eq in E0.
    destruct (IH last v p off0 0%nat rest Hp Ez Ha H8 Hv E Hlast) as (p' & P & T). exists p'.
    cbn [UnpackSingle]. unfold UnpackTuple. rewrite (bind_Ret get _ p p p) by done.
    by rewrite (bind_Ret _ _ _ _ _ P).
  - done.
  - intros last [] p off0 off rest Hp _ _ _ _ E _. by exists p.
  - intros t H1 l H2. by apply unpacks_cons.
Qed.

(** A packed list of values, and what a request reads from its bits. *)
Lemma pack_encoded l v last p : payload_ok p -> layouts last l (bitCount p) = Some 0%nat -> valids l v ->
  exists p', pack l v p = (true, p') /\ payload_ok p' /\ bitCount p' = 0%nat /\
    byte_bits (raw p') = contents p ++ encodes l v.
Proof.
  intros Hp Hl Hv. destruct (proj2 pack_contents l last v p 0%nat Hp Hl Hv) as (p' & k & P & O & E & Z0).
  destruct (Z0 eq_refl) as [-> C]. exists p'. split; [done|]. split; [done|]. split; [done|].
  rewrite app_nil_r in E. rewrite <- E. unfold contents. by rewrite C, app_nil_r.
Qed.
Lemma unpack_encoded l v data : bytes data -> layouts true l 0 = Some 0%nat -> valids l v ->
  byte_bits data = encodes l v ->
  exists p', Request_unpack l ((new_Payload data) <| trailingOk := false |>) = Ret (inr v) p' /\
    unpackCheck p' = true.
Proof.
  intros Hb Hl Hv E. set (q := (new_Payload data) <| trailingOk := false |>).
  assert (payload_ok q) as Hq by (constructor; [constructor; [by cbn|exact Hb|cbn; lia]|cbn; lia]).
  assert (remaining q = encodes l v ++ []) as Eq by (rewrite app_nil_r; exact E).
  destruct (proj2 unpack_reads l true v q 0%nat 0%nat [] Hq Hl) as (p1 & P1 & O1 & R1 & F1 & F2 & F3); try done; [lia|].
  eexists. unfold Request_unpack. rewrite (bind_Ret _ _ _ _ _ P1).
  rewrite (bind_Ret get _ p1 p1 p1), F2 by done. cbn [q negb].
  assert (bits_left p1 = 0%nat) as B0 by by rewrite <- length_remaining, R1.
  unfold bits_left in B0. pose proof (so_index _ (po_stream _ O1)) as Hi.
  unfold fullyUnpacked. cbn [bind modify get ret]. cbn -[Nat.eqb length].
  rewrite (proj2 (Nat.eqb_eq _ _)) by lia. rewrite (proj2 (Nat.eqb_eq (bitCount p1) 0)) by lia.
  rewrite F3. cbn. done.
Qed.

(** ** The properties *)

(** Packing the arguments of a response writes exactly the
    bits of the values, one after the other, least significant bit of each byte
    first, for every list of types whose byte strings start on a byte; at the
    end nothing is left outside the bytes of the payload. *)
Theorem pack_writes_bits l v last p :
  payload_ok p -> layouts last l (bitCount p) = Some 0%nat -> valids l v ->
  exists p', pack l v p = (true, p') /\ bitCount p' = 0%nat /\
    byte_bits (raw p') = contents p ++ encodes l v.
Proof.
  intros Hp Hl Hv. destruct (pack_encoded l v last p Hp Hl Hv) as (p' & P & _ & C & E). by exists p'.
Qed.

(** A request with bit fields across bytes, a string, a nested tuple and a
    byte vector at the end. *)
Definition sample_types : tys :=
  TCons (TUInt 1) (TCons (TFixed 3) (TCons TBool (TCons (TUInt 2) (TCons (TFixed 4) (TCons TString
  (TCons (TTuple (TCons (TBitset 5) (TCons (TInt 2) (TCons (TFixed 3) TNil))))
  (TCons (TArray 2 (TOpt (TBitset 4))) (TCons TByteVec TNil)))))))).
Definition sample_values : interps sample_types :=
  (0xA5, (5, (true, (0x1234, (9, ([72; 105], ((17, (-300, (6, tt))),
   ([Some 3; Some 12], ([1; 2; 3], tt))))))))).

Lemma pack_writes_bits_witness : exists p',
  pack sample_types sample_values (new_Payload []) = (true, p') /\ bitCount p' = 0%nat /\
  byte_bits (raw p') = contents (new_Payload []) ++ encodes sample_types sample_values.
Proof.
  apply (pack_writes_bits sample_types sample_values true).
  - apply new_payload_ok. constructor.
  - vm_compute; reflexivity.
  - cbn. unfold bytes, is_byte. repeat first [split | constructor]; cbn; lia.
Defined.

(** C10. What one side packs into an empty payload the other side unpacks as a
    request, with no byte left over and the values it started from, for every
    list of types that satisfies [layouts] and all values that satisfy
    [valids]. The list ends on a byte; byte strings and nested tuples start on
    a byte, and nested tuples end on one; integers have 1 to 8 bytes, fixed
    integers at most 30 bits and bit sets at most 64; a vector of bytes comes
    last; there are no other vectors and no payloads among the types. The
    values are those of the types, with strings of 1 to 255 bytes and every
    optional present. *)
Theorem message_roundtrip l v :
  layouts true l 0 = Some 0%nat -> valids l v ->
  exists p p', pack l v (new_Payload []) = (true, p) /\
    Request_unpack l ((new_Payload (raw p)) <| trailingOk := false |>) = Ret (inr v) p' /\
    unpackCheck p' = true.
Proof.
  intros Hl Hv. assert (payload_ok (new_Payload [])) as H0 by (apply new_payload_ok; constructor).
  destruct (pack_encoded l v true _ H0 Hl Hv) as (p & P & O & C & E).
  destruct (unpack_encoded l v (raw p) (so_bytes _ (po_stream _ O)) Hl Hv E) as (p' & U & K).
  by exists p, p'.
Qed.
Lemma message_roundtrip_witness : exists p p',
  pack sample_types sample_values (new_Payload []) = (true, p) /\
  Request_unpack sample_types ((new_Payload (raw p)) <| trailingOk := false |>) = Ret (inr sample_values) p' /\
  unpackCheck p' = true.
Proof.
  apply (message_roundtrip sample_types sample_values).
  - vm_compute; reflexivity.
  - cbn. unfold bytes, is_byte. repeat first [split | constructor]; cbn; lia.
Defined.

(** ** Unpacking whatever arrives

    [takes str k op]: on every payload, which must have a byte when [str] is
    set, [op] returns, and takes at least [k] bits if it succeeds. *)
Definition takes (str : bool) {A} (R : Payload -> Payload -> Prop) (op : M Payload (option A)) : Prop :=
  forall p, (str = true -> raw p <> []) ->
  exists r p', op p = Ret r p' /\ raw p' = raw p /\ (forall v, r = Some v -> R p p').
Definition at_least (k : nat) (p p' : Payload) : Prop := (bits_left p' + k <= bits_left p)%nat.
Definition anyhow (p p' : Payload) : Prop := True.

(** Types without a mask too wide for an [int] and without a vector whose
    elements may take no bit; [flat] types take a bit at least. *)
Fixpoint flat (str : bool) (t : ty) : bool :=
  match t with
  | TUInt n | TInt n | TBitset n | TBytes n => (1 <=? n)%nat
  | TFixed n => ((1 <=? n) && (n <=? 30))%nat
  | TBool => true
  | TString => str
  | TTuple l => flats str l && negb (match l with TNil => true | _ => false end)
  | _ => false
  end
with flats (str : bool) (l : tys) : bool :=
  match l with TNil => true | TCons t l => flat str t && flats str l end.
Fixpoint parsable (str : bool) (t : ty) : bool :=
  match t with
  | TFixed n => (n <=? 30)%nat
  | TString => str
  | TOpt t | TArray _ t => parsable str t
  | TVec t => flat str t
  | TTuple l => all_parsable str l
  | _ => true
  end
with all_parsable (str : bool) (l : tys) : bool :=
  match l with TNil => true | TCons t l => parsable str t && all_parsable str l end.

Section Takes.
Context (str : bool).

Lemma takes_weaken {A} R (op : M Payload (option A)) : takes str R op -> takes str anyhow op.
Proof. intros H p Hp. destruct (H p Hp) as (r & p' & E & F & _). by exists r, p'. Qed.

Lemma takes_map {A B} R (f : A -> B) (op : M Payload (option A)) :
  takes str R op -> takes str R (let! r := op in ret (f <$> r)).
Proof.
  intros H p Hp. destruct (H p Hp) as (r & p' & E & F & G). exists (f <$> r), p'.
  rewrite (bind_Ret _ _ _ _ _ E). split; [done|]. split; [done|].
  intros v Ev. destruct r; [by eapply G|done].
Qed.

(** A fill takes nothing off. *)
Lemma fill_loop_total fuel : forall count p, (1 <= fuel /\ count < fuel + bitCount p)%nat ->
  exists e p', fill_loop fuel count p = Ret e p' /\ raw p' = raw p /\ bits_left p' = bits_left p /\
    (e = false -> count <= bitCount p')%nat.
Proof.
  induction fuel as [|fuel IH]; intros count p Hf; [lia|]. cbn [fill_loop].
  rewrite (bind_Ret get _ p p p) by done. destruct (Nat.ltb_spec (bitCount p) count) as [Hlt|Hge].
  - destruct (Nat.ltb_spec (rawIndex p) (length (raw p))) as [Hi|Hi].
    + destruct (lookup_lt_is_Some_2 _ _ Hi) as [b Eb]. rewrite (bind_Ret _ _ _ _ _ (idx_Ret _ _ _ _ Eb)).
      rewrite (bind_Ret (modify _) _ p tt (filled p b)) by done.
      destruct (IH count (filled p b)) as (e & p' & E & R & B & L).
      { unfold filled, CHAR_BIT. cbn. lia. }
      exists e, p'. split; [done|]. split; [done|]. split; [|done]. rewrite B. unfold bits_left, filled, CHAR_BIT. cbn -[Nat.mul Nat.sub].
      lia.
    + exists true, (p <| unpackError := true |>). done.
  - by exists false, p.
Qed.
Lemma fillBits_total count p : exists e p', fillBits count p = Ret e p' /\ raw p' = raw p /\
  bits_left p' = bits_left p /\ (e = false -> count <= bitCount p')%nat.
Proof.
  unfold fillBits. destruct (_ <? count)%nat; [|apply fill_loop_total; lia].
  by exists true, (p <| unpackError := true |>).
Qed.

Lemma takes_bits n : takes str (at_least n) (take_bits n).
Proof.
  intros p _. destruct (fillBits_total n p) as (e & q & E & F & B & L). unfold take_bits.
  rewrite (bind_Ret _ _ _ _ _ E). destruct e; [by exists None, q|].
  eexists _, (consumed q n). split; [done|]. split; [done|]. intros _ _. specialize (L eq_refl).
  unfold at_least. rewrite <- B. unfold bits_left, consumed. cbn -[Nat.mul Nat.sub]. lia.
Qed.
Lemma takes_fixed n : (n <= 30)%nat -> takes str (at_least n) (UnpackFixed n).
Proof.
  intros Hn p Hp. destruct (takes_bits n p Hp) as (r & p' & E & H). exists r, p'. split; [|done].
  rewrite <- E. unfold UnpackFixed, take_bits. by rewrite (proj2 (Nat.ltb_ge 30 n) Hn).
Qed.

Lemma popBits_total p : exists b p', popBits CHAR_BIT p = Ret b p' /\ raw p' = raw p /\
  (bits_left p' <= bits_left p)%nat /\ (8 <= bitCount p -> bits_left p' < bits_left p)%nat.
Proof.
  unfold popBits. rewrite (bind_Ret get _ p p p) by done.
  destruct (Nat.ltb_spec (bitCount p) CHAR_BIT) as [H|H]; unfold CHAR_BIT in H.
  - exists 0, (p <| unpackError := true |>). split; [done|]. split; [done|]. split; [done|]. lia.
  - eexists _, (consumed p 8). split; [done|]. split; [done|]. unfold bits_left, consumed. cbn -[Nat.mul Nat.sub]. lia.
Qed.
Lemma UnpackBytesUnaligned_total w : forall p, exists l p', UnpackBytesUnaligned w p = Ret l p' /\
  raw p' = raw p /\ (bits_left p' <= bits_left p)%nat /\
  (1 <= w -> 8 <= bitCount p -> bits_left p' < bits_left p)%nat.
Proof.
  induction w as [|w IH]; intros p; cbn [UnpackBytesUnaligned].
  { exists [], p. split; [done|]. split; [done|]. split; [done|]. lia. }
  destruct (popBits_total p) as (b & p1 & E1 & F1 & L1 & S1).
  destruct (IH p1) as (l & p2 & E2 & F2 & L2 & S2). exists (b :: l), p2.
  rewrite (bind_Ret _ _ _ _ _ E1), (bind_Ret _ _ _ _ _ E2). split; [done|]. split; [congruence|].
  split; [lia|]. intros _ H. specialize (S1 H). lia.
Qed.

Lemma takes_int w : takes str (at_least (Nat.min 1 w)) (UnpackInt w).
Proof.
  intros p _. unfold UnpackInt. rewrite (bind_Ret get _ p p p) by done.
  destruct (Nat.eqb_spec (bitCount p) 0) as [C|C]; cbn [negb].
  - destruct (Nat.ltb_spec (length (raw p)) (rawIndex p + w)); [by exists None, p|].
    eexists _, (skip p w). split; [done|]. split; [done|]. intros _ _.
    unfold at_least, bits_left, skip. cbn -[Nat.mul Nat.sub Nat.min]. lia.
  - destruct (fillBits_total (8 * w) p) as (e & q & E & F & B & L). rewrite (bind_Ret _ _ _ _ _ E).
    destruct e; [by exists None, q|].
    destruct (UnpackBytesUnaligned_total w q) as (l & p' & E' & F' & L' & S').
    rewrite (bind_Ret _ _ _ _ _ E'). eexists _, p'. split; [done|]. split; [congruence|]. intros _ _.
    specialize (L eq_refl). unfold at_least. destruct w; lia.
Qed.

Lemma pop_total n p : exists r p', pop n p = Ret r p' /\ raw p' = raw p /\ (bits_left p' <= bits_left p)%nat.
Proof.
  unfold pop. set (q := if (bitCount p =? 0)%nat then p else discardBits p).
  rewrite (bind_Ret (modify _) _ p tt q) by done. rewrite (bind_Ret get _ q q q) by done.
  assert (raw q = raw p /\ bits_left q <= bits_left p)%nat as [F B].
  { unfold q, discardBits. destruct (_ =? 0)%nat; [done|]. split; [done|].
    unfold bits_left. cbn -[Nat.mul Nat.sub]. lia. }
  destruct (n <=? _)%nat.
  - eexists _, (skip q n). split; [done|]. split; [done|].
    revert B. unfold bits_left, skip. cbn -[Nat.mul Nat.sub]. lia.
  - by exists None, (q <| unpackError := true |>).
Qed.

Lemma takes_string : str = true -> takes str (at_least 1) UnpackString.
Proof.
  intros Hs p Hp. specialize (Hp Hs). unfold UnpackString. rewrite (bind_Ret get _ p p p) by done.
  assert (length (raw p) <> 0)%nat as Hl by (intros H; by apply nil_length_inv in H).
  destruct (Nat.eqb_spec (length (raw p)) 0) as [|_]; [done|]. cbn [negb andb].
  destruct (Nat.ltb_spec (length (raw p) - 1) (rawIndex p)) as [H|H]; [by exists None, p|].
  destruct (lookup_lt_is_Some_2 (raw p) (rawIndex p)) as [n En]; [lia|].
  rewrite (bind_Ret _ _ _ _ _ (idx_Ret _ _ _ _ En)). set (q := p <| rawIndex := S (rawIndex p) |>).
  rewrite (bind_Ret (modify _) _ p tt q) by done.
  destruct (pop_total (Z.to_nat n) q) as (r & p' & E & F & B). rewrite (bind_Ret _ _ _ _ _ E).
  assert (bits_left p' + 1 <= bits_left p)%nat as B1.
  { revert B. unfold q at 1. unfold bits_left at 2 4. cbn -[Nat.mul Nat.sub]. lia. }
  exists (match r with None | Some [] => None | r => r end), p'.
  destruct r as [[|]|]; (split; [done|]; split; [exact F|]; by intros).
Qed.

Lemma takes_byte_array n : takes str (at_least (Nat.min 1 n)) (UnpackByteArray n).
Proof.
  intros p _. unfold UnpackByteArray. rewrite (bind_Ret get _ p p p) by done.
  destruct (Nat.ltb_spec (length (raw p) - rawIndex p) n) as [|H]; [by exists None, p|].
  eexists _, (skip p n). split; [done|]. split; [done|]. intros _ _.
  unfold at_least, bits_left, skip. cbn -[Nat.mul Nat.sub Nat.min]. lia.
Qed.
Lemma takes_rest : takes str anyhow UnpackRest.
Proof. intros p _. unfold UnpackRest. by eexists _, _. Qed.

Section Element.
Context {A : Type} (op : M Payload (option A)).

Lemma takes_tuple R : takes str R op -> takes str R (UnpackTuple op).
Proof.
  intros H p Hp. destruct (H p Hp) as (r & p' & E & F & G). unfold UnpackTuple.
  rewrite (bind_Ret get _ p p p) by done. rewrite (bind_Ret _ _ _ _ _ E).
  destruct r as [v|]; [by exists (Some v), p'|]. by eexists None, _.
Qed.
Lemma takes_opt : takes str anyhow op -> takes str anyhow (UnpackOpt op).
Proof.
  intros H p Hp. destruct (H p Hp) as (r & p' & E & F & G). unfold UnpackOpt.
  rewrite (bind_Ret get _ p p p) by done. rewrite (bind_Ret _ _ _ _ _ E).
  destruct r as [v|]; by eexists _, _.
Qed.
Lemma takes_array_loop n : takes str anyhow op -> takes str anyhow (array_loop op n).
Proof.
  intros H. induction n as [|n IH]; intros p Hp; cbn [array_loop]; [by eexists _, _|].
  destruct (H p Hp) as (r & p1 & E1 & F1 & _). rewrite (bind_Ret _ _ _ _ _ E1).
  destruct r as [v|]; [|by exists None, p1]. destruct (IH p1) as (r & p2 & E2 & F2 & _); [by rewrite F1|].
  rewrite (bind_Ret _ _ _ _ _ E2). eexists _, p2. split; [done|]. split; [congruence|done].
Qed.
Lemma takes_array n : takes str anyhow op -> takes str anyhow (UnpackArray op n).
Proof.
  intros H p Hp. destruct (takes_array_loop n H p Hp) as (r & p' & E & F & _). unfold UnpackArray.
  rewrite (bind_Ret get _ p p p) by done. rewrite (bind_Ret _ _ _ _ _ E).
  destruct r as [l|]; by eexists _, _.
Qed.

(** An element that takes a bit ends the loop of a vector. *)
Lemma vec_loop_total : takes str (at_least 1) op -> forall fuel p, (str = true -> raw p <> []) ->
  (bits_left p < fuel)%nat -> exists l p', vec_loop op fuel p = Ret l p' /\ raw p' = raw p.
Proof.
  intros H. induction fuel as [|fuel IH]; intros p Hp Hf; [lia|]. cbn [vec_loop].
  rewrite (bind_Ret get _ p p p) by done. destruct (_ <? _)%nat; [|by eexists _, _].
  destruct (H p Hp) as (r & p1 & E1 & F1 & G). rewrite (bind_Ret _ _ _ _ _ E1).
  destruct r as [v|]; [|by exists [], p1]. specialize (G v eq_refl). unfold at_least in G.
  destruct (IH p1) as (l & p2 & E2 & F2); [by rewrite F1|lia|].
  rewrite (bind_Ret _ _ _ _ _ E2). eexists _, p2. split; [done|]. congruence.
Qed.
Lemma takes_vec : takes str (at_least 1) op -> takes str anyhow (UnpackVec op).
Proof.
  intros H p Hp. destruct (vec_loop_total H (S (bits_left p)) p Hp) as (l & p' & E & F); [lia|].
  unfold UnpackVec. rewrite (bind_Ret get _ p p p) by done. rewrite (bind_Ret _ _ _ _ _ E).
  by eexists _, p'.
Qed.
End Element.

Lemma takes_cons {A B} (R1 R2 R : Payload -> Payload -> Prop) (op : M Payload (option A)) (ops : M Payload (option B)) :
  (forall p q r, R1 p q -> R2 q r -> R p r) ->
  takes str R1 op -> takes str R2 ops ->
  takes str R (let! r := op in
               match r with
               | None => set_error ;;; unpack_fail
               | Some v => let! rs := ops in ret ((fun vs => (v, vs)) <$> rs)
               end).
Proof.
  intros HR H1 H2 p Hp. destruct (H1 p Hp) as (r & p1 & E1 & F1 & G1). rewrite (bind_Ret _ _ _ _ _ E1).
  destruct r as [v|]; [|by eexists None, _].
  destruct (H2 p1) as (r & p2 & E2 & F2 & G2); [by rewrite F1|]. rewrite (bind_Ret _ _ _ _ _ E2).
  eexists _, p2. split; [done|]. split; [congruence|]. intros ? Ev.
  destruct r as [vs|]; [|done]. by eapply HR; [eapply G1|eapply G2].
Qed.
End Takes.

Lemma at_least_mono str {A} k k' (op : M Payload (option A)) : (k' <= k)%nat ->
  takes str (at_least k) op -> takes str (at_least k') op.
Proof.
  intros Hk H p Hp. destruct (H p Hp) as (r & p' & E & F & G). exists r, p'.
  split; [done|]. split; [done|]. intros v Ev. specialize (G v Ev). unfold at_least in *. lia.
Qed.

Definition nonempty (l : tys) : nat := match l with TNil => 0 | TCons _ _ => 1 end.
Lemma takes_flat str :
  (forall t, flat str t = true -> takes str (at_least 1) (UnpackSingle t)) /\
  (forall l, flats str l = true -> takes str (at_least (nonempty l)) (unpack l)).
Proof.
  apply types_ind; cbn [flat flats UnpackSingle]; try done; try (intros n Hn; apply Nat.leb_le in Hn).
  - eapply at_least_mono, takes_int. lia.
  - apply takes_map. eapply at_least_mono, takes_int. lia.
  - intros n Hn. apply andb_true_iff in Hn as [H1 H2]. apply Nat.leb_le in H1, H2.
    eapply at_least_mono, takes_fixed; done.
  - intros _. apply takes_map. apply takes_bits.
  - by eapply at_least_mono, takes_bits.
  - apply takes_string.
  - eapply at_least_mono, takes_byte_array. lia.
  - intros l IH H. apply andb_true_iff in H as [H1 H2]. apply takes_tuple.
    eapply at_least_mono, IH; [|done]. by destruct l.
  - intros _ p _. eexists _, p. split; [done|]. split; [done|]. intros _ _. unfold at_least, nonempty. lia.
  - intros t IHt l IHl H. apply andb_true_iff in H as [H1 H2]. cbn [unpack nonempty].
    eapply takes_cons; [|by apply IHt|by apply IHl]. unfold at_least. intros. lia.
Qed.

Lemma takes_parsable str :
  (forall t, parsable str t = true -> takes str anyhow (UnpackSingle t)) /\
  (forall l, all_parsable str l = true -> takes str anyhow (unpack l)).
Proof.
  apply types_ind; cbn [parsable all_parsable UnpackSingle].
  - intros w _. eapply takes_weaken, takes_int.
  - intros w _. eapply takes_map, takes_weaken, takes_int.
  - intros n Hn. apply Nat.leb_le in Hn. by eapply takes_weaken, takes_fixed.
  - intros _. eapply takes_map, takes_weaken, takes_bits.
  - intros n _. eapply takes_weaken, takes_bits.
  - intros H. by eapply takes_weaken, takes_string.
  - intros n _. eapply takes_weaken, takes_byte_array.
  - intros _. apply takes_rest.
  - intros t IH H. by apply takes_opt, IH.
  - intros n t IH H. by apply takes_array, IH.
  - intros t _ H. by apply takes_vec, takes_flat.
  - intros l IH H. by apply takes_tuple, IH.
  - intros _ p _. by eexists _, _.
  - intros _ p _. by eexists _, p.
  - intros t IHt l IHl H. apply andb_true_iff in H as [H1 H2]. cbn [unpack].
    eapply takes_cons; [|by apply IHt|by apply IHl]. done.
Qed.

(** C36. Whatever bytes arrive, unpacking a request returns: the arguments or
    the completion code for a wrong length, without undefined behaviour and
    without a loop that does not end, and leaves the bytes as they were. The
    parameters may be any types except fixed integers above 30 bits and
    vectors whose elements may take no bit, and when there is a string among
    them the payload must have a byte; without these conditions the code does
    read past the end or loop ([string_of_empty_request],
    [vector_of_optionals_loops]). *)
Theorem unpack_total str l p :
  all_parsable str l = true -> (str = true -> raw p <> []) ->
  exists r p', Request_unpack l p = Ret r p' /\ raw p' = raw p /\
    (forall cc, r = inl cc -> cc = ccReqDataLenInvalid).
Proof.
  intros Hl Hp. destruct (proj2 (takes_parsable str) l Hl p Hp) as (r & q & E & F & _).
  unfold Request_unpack. rewrite (bind_Ret _ _ _ _ _ E). destruct r as [v|].
  - rewrite (bind_Ret get _ q q q) by done. destruct (negb (trailingOk q)).
    + unfold fullyUnpacked. cbn [bind modify get ret]. set (full := _ && _ && _).
      destruct full; (eexists _, _; split; [done|]; split; [done|]; by intros ? [= <-]).
    + eexists _, _. split; [done|]. split; [done|]. done.
  - eexists _, _. split; [done|]. split; [done|]. by intros ? [= <-].
Qed.
Lemma unpack_total_witness : exists r p',
  Request_unpack sample_types (new_Payload [1; 2; 3]) = Ret r p' /\ raw p' = [1; 2; 3] /\
  (forall cc, r = inl cc -> cc = ccReqDataLenInvalid).
Proof. apply (unpack_total true); [vm_compute; reflexivity|done]. Defined.

(** The exceptions are real. *)
Example string_of_empty_request : unpack (TCons TString TNil) (new_Payload []) = Undef OutOfBounds.
Proof. reflexivity. Qed.
Example vector_of_optionals_loops :
  unpack (TCons (TVec (TOpt (TUInt 2))) TNil) (new_Payload [7]) = Undef OutOfFuel.
Proof. reflexivity. Qed.
Example vector_of_halves_loses_the_last :
  exists p, unpack (TCons (TVec (TFixed 4)) TNil) (new_Payload [0x21]) = Ret (Some ([1], tt)) p.
Proof. eexists. reflexivity. Qed.

(** The layout conditions are needed: a nested tuple drains its bits, so what
    [pack] writes for a tuple of four bits and four more is not what [unpack]
    reads. *)
Definition nested_types : tys := TCons (TTuple (TCons (TFixed 4) TNil)) (TCons (TFixed 4) TNil).
Example nested_tuple_mismatch :
  raw (snd (pack nested_types ((3, tt), (5, tt)) (new_Payload []))) = [3; 5] /\
  exists p, unpack nested_types (new_Payload [3; 5]) = Ret (Some ((3, tt), (0, tt))) p.
Proof. split; [reflexivity|]. eexists. reflexivity. Qed.

(** An array whose element does not fit the payload is cut short, and [pack]
    reports success. *)
Example array_error_is_swallowed :
  let q := (new_Payload []) <| bitCount := 1%nat |> in
  pack (TCons (TArray 2 TPayload) TNil) ([new_Payload [1]; q], tt) (new_Payload []) =
    (true, new_Payload [1]).
Proof. reflexivity. Qed.
