(* ===== verification/IpmiDispatch.v ===== *)
(** * The command queue of the IPMI host service

    [ipmid-new.cpp]: registration of handlers and filters, the choice of the
    handler of a request, privileges, the D-Bus method [execute], the channel a
    caller belongs to, the SEL reservation; [include/ipmid/handler.hpp]: the
    wrappers that unpack the arguments of a handler and pack its result.

    A handler is any computation on the state [W] of the service. *)
From Stdlib Require Import ZArith Lia String.
From stdpp Require Import base list gmap strings.
From S2P Require Import Prelude IpmiMessage.
Local Open Scope Z_scope.

(** ** Constants of api-types.hpp *)
Definition netFnTransport : Z := 0x0C.
Definition netFnGroup : Z := 0x2C.
Definition netFnOem : Z := 0x2E.
Definition netFnOemEight : Z := 0x3E.
Definition cmdWildcard : Z := 0xFF.
Definition ccInvalidCommand : Z := 0xC1.
Definition ccDestinationUnavailable : Z := 0xD3.
Definition ccInsufficientPrivilege : Z := 0xD4.
Definition ccUnspecifiedError : Z := 0xFF.
Definition Privilege_None : Z := 0.
Definition Privilege_Callback : Z := 1.
Definition Privilege_User : Z := 2.
Definition Privilege_Operator : Z := 3.
Definition Privilege_Admin : Z := 4.
Definition Privilege_Oem : Z := 5.
Definition prioOpenBmcBase : Z := 10.

(** ** Requests and responses *)
Record Context := {
  netFn : Z; lun : Z; cmd : Z; channel : Z; userId : Z; sessionId : Z; priv : Z; rqSA : Z; hostIdx : Z }.
Record Request := { req_payload : Payload; ctx : Context }.
#[export] Instance Request_fields : Fields Request := fun r =>
  {| req_payload := req_payload r; ctx := ctx r |}.
Record Response := { rsp_payload : Payload; rsp_cc : Z }.
#[export] Instance Response_fields : Fields Response := fun r =>
  {| rsp_payload := rsp_payload r; rsp_cc := rsp_cc r |}.

Definition makeResponse : Response := {| rsp_payload := new_Payload []; rsp_cc := ccSuccess |}.
Definition errorResponse (cc : Z) : Response := makeResponse <| rsp_cc := cc |>.
(** What [prepend] returns is not looked at. *)
Definition response_prepend (q : Payload) (r : Response) : Response :=
  r <| rsp_payload := snd (prepend q (rsp_payload r)) |>.

Definition makeCmdKey (cluster cmd : Z) : Z := Z.lor (u32 (Z.shiftl cluster 8)) cmd.

(** What a callback raises, by the [catch] clause that takes it. *)
Inductive thrown := HandlerException (cc : Z) | StdException | HandlerCompletion (cc : Z) | OtherException.
Definition error_code (t : thrown) : Z :=
  match t with HandlerException cc | HandlerCompletion cc => cc | StdException | OtherException => ccUnspecifiedError end.
Inductive callback_result (A : Type) := Returned (a : A) | Raised (t : thrown).
Arguments Returned {A} a.
Arguments Raised {A} t.

Section Queue.
Context {W : Type}.

Definition HandlerBase : Type := Request -> M W Response.
Definition FilterBase : Type := Request -> M W Z.

(** ** handler.hpp *)
Definition on_payload {A} (m : M Payload A) (r : Request) : M W (A * Request) := fun w =>
  match m (req_payload r) with
  | Ret a p => Ret (a, r <| req_payload := p |>) w
  | Throw e _ => Throw e w
  | Undef f => Undef f
  end.

Definition guarded {A} (m : M W (callback_result A)) : M W (callback_result A) :=
  try m (fun _ => ret (Raised StdException)).

Section Handler.
Context (args res : tys).
(** The callback: the request for the special first argument, and the
    arguments; it returns a completion code and perhaps values. *)
Context (body : Request -> interps args -> M W (callback_result (Z * option (interps res)))).

Definition executeCallback : HandlerBase := fun request =>
  let response := makeResponse in
  let request := request <| req_payload := (req_payload request) <| trailingOk := false |> |> in
  let! (unpacked, request) := on_payload (Request_unpack args) request in
  match unpacked with
  | inl unpackError => ret (response <| rsp_cc := unpackError |>)
  | inr unpackArgs =>
      let! result := guarded (body request unpackArgs) in
      match result with
      | Raised e => ret (errorResponse (error_code e))
      | Returned (cc, payload) =>
          let response := response <| rsp_cc := cc |> in
          match payload with
          | Some v =>
              ret (response <| rsp_payload :=
                     snd (pack (TCons (TTuple res) TNil) (v, tt) (rsp_payload response)) |>)
          | None => ret response
          end
      end
  end.
End Handler.

Definition maxLegacyBufferSize : nat := Z.to_nat (64 * 1024).
Definition resize (n : nat) (l : list Z) : list Z := take n l ++ replicate (n - length l) 0.

(** The legacy callbacks write into the response buffer and set its length. *)
Definition legacyCallback : Type := Z -> Z -> list Z -> list Z -> nat -> M W (callback_result (Z * (list Z * nat))).
Definition executeLegacyCallback (handler : legacyCallback) : HandlerBase := fun request =>
  let payload := req_payload request in
  let buffer := resize maxLegacyBufferSize [] in
  let len := (length (raw payload) - rawIndex payload)%nat in
  let! result := guarded (handler (netFn (ctx request)) (cmd (ctx request))
                            (drop (rawIndex payload) (raw payload)) buffer len) in
  match result with
  | Raised e => ret (errorResponse (error_code e))
  | Returned (ccRet, (buffer, len)) =>
      ret {| rsp_payload := new_Payload (resize len buffer); rsp_cc := ccRet |}
  end.

(** An OEM callback of the deprecated interface is not passed the net function. *)
Definition oemCallback : Type := Z -> list Z -> list Z -> nat -> M W (callback_result (Z * (list Z * nat))).
Definition executeOemCallback (handler : oemCallback) : HandlerBase :=
  executeLegacyCallback (fun _ => handler).

(** ** Registration *)
Record HandlerTuple := { ht_prio : Z; ht_priv : Z; ht_handler : HandlerBase }.
Record FilterTuple := { ft_prio : Z; ft_filter : FilterBase }.
Record Tables := {
  handlerMap : gmap Z HandlerTuple; groupHandlerMap : gmap Z HandlerTuple; oemHandlerMap : gmap Z HandlerTuple;
  filterList : list FilterTuple }.

#[export] Instance Tables_fields : Fields Tables := fun t =>
  {| handlerMap := handlerMap t; groupHandlerMap := groupHandlerMap t; oemHandlerMap := oemHandlerMap t;
     filterList := filterList t |}.
Definition no_tables : Tables :=
  {| handlerMap := ∅; groupHandlerMap := ∅; oemHandlerMap := ∅; filterList := [] |}.

Definition replaces (item : HandlerTuple) (old : option HandlerTuple) : bool :=
  match old with None => true | Some old => ht_prio old <=? ht_prio item end.
Definition put_handler (key : Z) (item : HandlerTuple) (m : gmap Z HandlerTuple) : bool * gmap Z HandlerTuple :=
  if replaces item (m !! key) then (true, <[key := item]> m) else (false, m).

Definition valid_netFn (netFn : Z) : bool :=
  negb (Z.testbit netFn 0 || (netFnTransport <? netFn) && (netFn <? netFnGroup) || (netFnOemEight <? netFn)).
Definition registerHandler (prio netFn cmd priv : Z) (handler : HandlerBase) (t : Tables) : bool * Tables :=
  if negb (valid_netFn netFn) then (false, t)
  else
    let r := put_handler (makeCmdKey netFn cmd) {| ht_prio := prio; ht_priv := priv; ht_handler := handler |}
               (handlerMap t) in
    (fst r, t <| handlerMap := snd r |>).
Definition registerGroupHandler (prio group cmd priv : Z) (handler : HandlerBase) (t : Tables) : bool * Tables :=
  let r := put_handler (makeCmdKey group cmd) {| ht_prio := prio; ht_priv := priv; ht_handler := handler |}
             (groupHandlerMap t) in
  (fst r, t <| groupHandlerMap := snd r |>).
Definition registerOemHandler (prio iana cmd priv : Z) (handler : HandlerBase) (t : Tables) : bool * Tables :=
  let r := put_handler (makeCmdKey iana cmd) {| ht_prio := prio; ht_priv := priv; ht_handler := handler |}
             (oemHandlerMap t) in
  (fst r, t <| oemHandlerMap := snd r |>).

(** [j] is the element before the place looked at. *)
Fixpoint place_after (item j : FilterTuple) (l : list FilterTuple) : list FilterTuple :=
  match l with
  | [] => [j; item]
  | i :: l' => if ft_prio item <? ft_prio i then j :: place_after item i l' else j :: item :: l
  end.
Definition insert_filter (item : FilterTuple) (l : list FilterTuple) : list FilterTuple :=
  match l with
  | [] => [item]
  | front :: l' =>
      if ft_prio front <? ft_prio item then item :: l
      else if ft_prio item <? ft_prio front then place_after item front l'
      else front :: item :: l'
  end.
Definition registerFilter (prio : Z) (filter : FilterBase) (t : Tables) : Tables :=
  t <| filterList := insert_filter {| ft_prio := prio; ft_filter := filter |} (filterList t) |>.

(** [ipmi_register_callback], for handlers of the deprecated interface. *)
Definition NETFUN_GRPEXT : Z := 0x2C.
Definition groupExtId : Z := 0xDC.
Definition legacy_priv (priv : Z) : Z :=
  if priv =? 0x01 then Privilege_Callback
  else if priv =? 0x02 then Privilege_User
  else if priv =? 0x03 then Privilege_Operator
  else if priv =? 0x04 then Privilege_Admin
  else if priv =? 0x05 then Privilege_Oem
  else Privilege_Admin.
Definition ipmi_register_callback (netFn cmd : Z) (handler : legacyCallback) (priv : Z) (t : Tables) : Tables :=
  let h := executeLegacyCallback handler in
  let realPriv := legacy_priv priv in
  snd (if netFn =? NETFUN_GRPEXT
       then registerGroupHandler prioOpenBmcBase groupExtId cmd realPriv h t
       else registerHandler prioOpenBmcBase netFn cmd realPriv h t).

(** ** Execution *)
Section Execute.
Context (t : Tables).

Fixpoint run_filters (l : list FilterTuple) (request : Request) : M W (option Response) :=
  match l with
  | [] => ret None
  | item :: l =>
      let! cc := ft_filter item request in
      if negb (ccSuccess =? cc) then ret (Some (errorResponse cc)) else run_filters l request
  end.
Definition filterIpmiCommand (request : Request) : M W (option Response) :=
  run_filters (filterList t) request.

(** A command that was found: the verdict of the filters, the privilege, the
    handler. *)
Definition run_chosen (chosen : HandlerTuple) (filterResponse : option Response) (request : Request) : M W Response :=
  match filterResponse with
  | Some response => ret response
  | None =>
      if priv (ctx request) <? ht_priv chosen
      then ret (errorResponse ccInsufficientPrivilege)
      else ht_handler chosen request
  end.
Definition executeIpmiCommandCommon (handlers : gmap Z HandlerTuple) (keyCommon : Z) (request : Request) : M W Response :=
  let! filterResponse := filterIpmiCommand request in
  match handlers !! makeCmdKey keyCommon (cmd (ctx request)) with
  | Some chosen => run_chosen chosen filterResponse request
  | None =>
      match handlers !! makeCmdKey keyCommon cmdWildcard with
      | Some chosen => run_chosen chosen filterResponse request
      | None => ret (errorResponse ccInvalidCommand)
      end
  end.

(** The first field of the data chooses the table of a group or of a
    manufacturer, and is the first field of the response. *)
Definition executePrefixed (t1 : ty) (key : interp t1 -> Z) (handlers : gmap Z HandlerTuple) (request : Request) : M W Response :=
  let! (bytes, request) := on_payload (unpack (TCons t1 TNil)) request in
  match bytes with
  | None => ret (errorResponse ccReqDataLenInvalid)
  | Some bytes =>
      let! response := executeIpmiCommandCommon handlers (key (fst bytes)) request in
      ret (response_prepend (snd (pack (TCons t1 TNil) bytes (new_Payload []))) response)
  end.
Definition executeIpmiGroupCommand : HandlerBase := executePrefixed (TUInt 1) id (groupHandlerMap t).
Definition executeIpmiOemCommand : HandlerBase := executePrefixed (TFixed 24) id (oemHandlerMap t).

Definition executeIpmiCommand : HandlerBase := fun request =>
  let f := netFn (ctx request) in
  if netFnGroup =? f then executeIpmiGroupCommand request
  else if netFnOem =? f then executeIpmiOemCommand request
  else executeIpmiCommandCommon (handlerMap t) f request.
End Execute.
End Queue.
Arguments HandlerBase : clear implicits.
Arguments FilterBase : clear implicits.
Arguments HandlerTuple : clear implicits.
Arguments FilterTuple : clear implicits.
Arguments Tables : clear implicits.
Arguments legacyCallback : clear implicits.
Arguments oemCallback : clear implicits.

(** The OEM router of the deprecated interface. *)
Definition LegacyRouter_registerHandler {W} (oen cmd : Z) (handler : oemCallback W) (t : Tables W) : Tables W :=
  snd (registerOemHandler prioOpenBmcBase oen cmd Privilege_Admin (executeOemCallback handler) t).

(** ** The channel of a caller *)
Definition invalidChannel : Z := 0xFF.
Definition ipmiDbusChannelMatch : string := "xyz.openbmc_project.Ipmi.Channel".
Definition intraBmcName : string := "INTRABMC".
Definition EChannelSessSupported_none : Z := 0x00.
Definition EChannelMediumType_ipmb : Z := 0x01.

(** What the channel layer answers; [getChannelByName] throws on [None]. *)
Record ChannelQueries := {
  getChannelByName : string -> option Z; getChannelSessionSupport : Z -> Z; mediumType : Z -> Z }.

(** [name.substr(std::strlen(ipmiDbusChannelMatch) + 1)] *)
Definition channel_name {S} (name : string) : M S string :=
  let pos := (String.length ipmiDbusChannelMatch + 1)%nat in
  if (String.length name <? pos)%nat then throw StdOutOfRange
  else ret (substring pos (String.length name - pos) name).

Definition Owners : Type := gmap string Z.
Definition map_owner (q : ChannelQueries) (chName owner : string) : M Owners unit :=
  match getChannelByName q chName with
  | Some channel => modify (fun m => <[owner := channel]> m)
  | None => ret tt
  end.
(** The reply to [GetNameOwner]; [None] is an error. *)
Definition updateOwners (q : ChannelQueries) (name : string) (nameOwner : option string) : M Owners unit :=
  match nameOwner with
  | None => ret tt
  | Some nameOwner => let! chName := channel_name name in map_owner q chName nameOwner
  end.
Definition starts_with_colon (s : string) : bool := String.prefix ":" s.
Definition nameChangeHandler (q : ChannelQueries) (name oldOwner newOwner : string) : M Owners unit :=
  (if negb (String.eqb oldOwner "") && starts_with_colon oldOwner
   then modify (fun m => delete oldOwner m) else ret tt) ;;;
  if negb (String.eqb newOwner "")
  then let! chName := channel_name name in map_owner q chName newOwner
  else ret tt.

Definition channelFromMessage (q : ChannelQueries) (owners : Owners) (sender : string) : Z :=
  match owners !! sender with
  | Some channel => channel
  | None => match getChannelByName q intraBmcName with Some c => c | None => invalidChannel end
  end.

(** ** The D-Bus method execute *)

(** The values of the options that the method looks at; anything else is
    [OtherValue]. *)
Inductive Value := IntValue (z : Z) | UintValue (z : Z) | OtherValue.
Definition as_int (v : Value) : option Z := match v with IntValue z => Some z | _ => None end.
Definition as_uint (v : Value) : option Z := match v with UintValue z => Some z | _ => None end.

Record Credentials := { c_priv : Z; c_user : Z; c_session : Z; c_rqSA : Z; c_host : Z }.
Definition int_option (name : string) (options : gmap string Value) : Z :=
  match options !! name with Some (IntValue z) => z | _ => 0 end.
(** [None]: an option is missing or of another type. *)
Definition credentials (q : ChannelQueries) (channel : Z) (options : gmap string Value) : option Credentials :=
  if negb (getChannelSessionSupport q channel =? EChannelSessSupported_none) then
    match options !! "privilege"%string ≫= as_int, options !! "userId"%string ≫= as_int,
          options !! "currentSessionId"%string ≫= as_uint with
    | Some p, Some u, Some s =>
        Some {| c_priv := u8 p; c_user := u8 u; c_session := u32 s; c_rqSA := 0; c_host := 0 |}
    | _, _, _ => None
    end
  else
    let ipmb := mediumType q channel =? EChannelMediumType_ipmb in
    Some {| c_priv := Privilege_Admin; c_user := 0; c_session := 0;
            c_rqSA := if ipmb then int_option "rqSA" options else 0;
            c_host := if ipmb then int_option "hostId" options else 0 |}.

(** The reply: net function, LUN, command, completion code, data. *)
Definition DbusResponse : Type := Z * Z * Z * Z * list Z.
Definition dbusResponse (netFn lun cmd cc : Z) (data : list Z) : DbusResponse :=
  (Z.lor netFn 0x01, lun, cmd, cc, data).

Definition executionEntry {W} (t : Tables W) (q : ChannelQueries) (owners : Owners) (sender : string)
    (netFn lun cmd : Z) (data : list Z) (options : gmap string Value) : M W DbusResponse :=
  let channel := channelFromMessage q owners sender in
  if channel =? invalidChannel then ret (dbusResponse netFn lun cmd ccDestinationUnavailable [])
  else
    match credentials q channel options with
    | None => ret (dbusResponse netFn lun cmd ccUnspecifiedError [])
    | Some c =>
        let ctx := {| netFn := netFn; lun := lun; cmd := cmd; channel := channel; userId := c_user c;
                      sessionId := c_session c; priv := c_priv c; rqSA := c_rqSA c; hostIdx := c_host c |} in
        let request := {| req_payload := new_Payload data; ctx := ctx |} in
        let! response := executeIpmiCommand t request in
        ret (dbusResponse netFn lun cmd (rsp_cc response) (raw (rsp_payload response)))
    end.

(** [handleLegacyIpmiCommand]: the signal of the deprecated interface carries
    no credentials; the arguments of the call [sendMessage] it makes. *)
Definition handleLegacyIpmiCommand {W} (t : Tables W) (seq netFn lun cmd : Z) (data : list Z) :
    M W (Z * (Z * Z * Z * Z * list Z)) :=
  let ctx := {| netFn := netFn; lun := lun; cmd := cmd; channel := 0; userId := 0; sessionId := 0;
                priv := Privilege_Admin; rqSA := 0; hostIdx := 0 |} in
  let! response := executeIpmiCommand t {| req_payload := new_Payload data; ctx := ctx |} in
  ret (seq, (Z.lor netFn 0x01, lun, cmd, rsp_cc response, raw (rsp_payload response))).

(** ** The SEL reservation *)
Record SelReservation := { selReservationID : Z; selReservationValid : bool }.
#[export] Instance SelReservation_fields : Fields SelReservation := fun s =>
  {| selReservationID := selReservationID s; selReservationValid := selReservationValid s |}.
Definition initial_reservation : SelReservation := {| selReservationID := 0xFFFF; selReservationValid := false |}.
Definition reserveSel : M SelReservation Z :=
  modify (fun s => s <| selReservationID := u16 (selReservationID s + 1) |>) ;;;
  modify (fun s => if selReservationID s =? 0 then s <| selReservationID := 1 |> else s) ;;;
  modify (fun s => s <| selReservationValid := true |>) ;;;
  let! s := get in ret (selReservationID s).
Definition checkSELReservation (id : Z) (s : SelReservation) : bool :=
  selReservationValid s && (selReservationID s =? id).
Definition cancelSELReservation : M SelReservation unit :=
  modify (fun s => s <| selReservationValid := false |>).
