(* ===== verification/WhitelistFilter.v ===== *)
(** * The whitelist filter

    [whitelist-filter.cpp]: commands from the system interface are refused
    unless they are on the whitelist, while the host is in restricted mode.  The
    mode of each host is read by asynchronous calls whose replies arrive in any
    order. *)
From Stdlib Require Import ZArith Lia String.
From stdpp Require Import base list gmap strings.
From S2P Require Import Prelude IpmiMessage IpmiDispatch.
Local Open Scope Z_scope.

Definition channelSystemIface : Z := 0x0F.

(** [std::binary_search] on pairs, ordered lexicographically. *)
Definition pair_lt (a b : Z * Z) : bool := (fst a <? fst b) || ((fst a =? fst b) && (snd a <? snd b)).
Fixpoint lower_bound (fuel first len : nat) (l : list (Z * Z)) (x : Z * Z) : nat :=
  match fuel with
  | O => first
  | S fuel =>
      match len with
      | O => first
      | _ =>
          let half := (len / 2)%nat in
          let middle := (first + half)%nat in
          if pair_lt (default (0, 0) (l !! middle)) x
          then lower_bound fuel (S middle) (len - half - 1) l x
          else lower_bound fuel first half l x
      end
  end.
Definition binary_search (l : list (Z * Z)) (x : Z * Z) : bool :=
  let i := lower_bound (length l) 0 (length l) l x in
  match l !! i with Some y => negb (pair_lt x y) | None => false end.

(** ** The filter

    [whitelist] is generated by the build; [convertModesFromString] is too: the
    result is whether the mode is [Whitelist], it throws on [None]. *)
Record FilterConfig := { whitelist : list (Z * Z); is_whitelist_mode : string -> option bool }.
Record WhitelistFilter := { restrictedMode : list bool; devices : list string }.
#[export] Instance WhitelistFilter_fields : Fields WhitelistFilter := fun f =>
  {| restrictedMode := restrictedMode f; devices := devices f |}.
Definition new_WhitelistFilter : WhitelistFilter := {| restrictedMode := []; devices := [] |}.

Definition mode_of {S} (c : FilterConfig) (mode : string) : M S bool :=
  match is_whitelist_mode c mode with Some b => ret b | None => throw InvalidArgument end.
Definition set_mode (i : nat) (b : bool) : M WhitelistFilter unit :=
  let! f := get in
  if (i <? length (restrictedMode f))%nat
  then modify (fun f => f <| restrictedMode := <[i := b]> (restrictedMode f) |>)
  else undef OutOfBounds.

(** The reply to the [Get] of device [index]: [None] is an error. *)
Definition mode_reply (c : FilterConfig) (index : nat) (v : option string) : M WhitelistFilter unit :=
  match v with
  | None => set_mode index true
  | Some mode =>
      let! restrictMode := mode_of c mode in
      modify (fun f => f <| restrictedMode := restrictedMode f ++ [restrictMode] |>)
  end.

(** The properties of a change: a name and, for a string, its value. *)
Definition device_index (path : string) (l : list string) : option nat :=
  fst <$> list_find (fun d => d = path) l.
Definition handleRestrictedModeChange (c : FilterConfig) (path : string)
    (propertyList : list (string * string)) : M WhitelistFilter unit :=
  let! f := get in
  let hostId := default 0%nat (device_index path (devices f)) in
  mfor propertyList (fun property =>
    if String.eqb (fst property) "RestrictionMode"
    then let! restrictMode := mode_of c (snd property) in set_mode hostId restrictMode
    else ret tt).

(** [postInit]: [None] where the object mapper has no such interface.  The
    calls of [cacheRestrictedMode] are issued here, one per device for which a
    service is known, up to the first that has none; the indices asked for. *)
Definition cacheRestrictedMode (has_service : string -> bool) (devices : list string) : list nat :=
  (fix calls (i : nat) (l : list string) : list nat :=
     match l with
     | [] => []
     | dev :: l => if has_service dev then i :: calls (S i) l else []
     end) 0%nat devices.
Definition postInit (has_service : string -> bool) (found : option (list string)) : M WhitelistFilter (list nat) :=
  match found with
  | None => ret []
  | Some l => modify (fun f => f <| devices := l |>) ;;; ret (cacheRestrictedMode has_service l)
  end.

Definition filterMessage (c : FilterConfig) (context : Context) : M WhitelistFilter Z :=
  if channel context =? channelSystemIface then
    let! f := get in
    let! restricted := of_option OutOfBounds
      (if hostIdx context <? 0 then None else restrictedMode f !! Z.to_nat (hostIdx context)) in
    if restricted && negb (binary_search (whitelist c) (netFn context, cmd context))
    then ret ccInsufficientPrivilege
    else ret ccSuccess
  else ret ccSuccess.
