(* ===== verification/IpmiDispatchSpec.v ===== *)
(** * Properties of the command queue and of the whitelist filter *)
From Stdlib Require Import ZArith Lia String Sorted.
From stdpp Require Import base list gmap strings sorting.
From S2P Require Import Prelude IpmiMessage IpmiMessageSpec IpmiDispatch WhitelistFilter.
Local Open Scope Z_scope.

(** ** Keys *)
Lemma makeCmdKey_value cluster cmd : 0 <= cluster < 2 ^ 24 -> is_byte cmd ->
  makeCmdKey cluster cmd = cluster * 256 + cmd.
Proof.
  intros Hc Hb. unfold makeCmdKey, u32.
  rewrite Z.mod_small by (rewrite Z.shiftl_mul_pow2; lia). by apply (lor_shiftl_add cluster cmd 8); [lia|].
Qed.
Lemma makeCmdKey_inj c1 c2 cmd1 cmd2 : 0 <= c1 < 2 ^ 24 -> 0 <= c2 < 2 ^ 24 -> is_byte cmd1 -> is_byte cmd2 ->
  makeCmdKey c1 cmd1 = makeCmdKey c2 cmd2 -> c1 = c2 /\ cmd1 = cmd2.
Proof.
  intros H1 H2 B1 B2. rewrite !makeCmdKey_value by done. unfold is_byte in *. lia.
Qed.

Section Queue.
Context {W : Type}.
Implicit Types (t : Tables W).

(** ** Registration *)

(** [item] is the last of the entries with the highest priority. *)
Definition chosen_of (l : list (HandlerTuple W)) (item : HandlerTuple W) : Prop := exists l1 l2,
  l = l1 ++ item :: l2 /\ Forall (fun i => ht_prio i <= ht_prio item) l1 /\
  Forall (fun i => ht_prio i < ht_prio item) l2.
Definition choice (l : list (HandlerTuple W)) (o : option (HandlerTuple W)) : Prop :=
  match o with Some item => chosen_of l item | None => l = [] end.

Lemma choice_snoc l o item : choice l o ->
  choice (l ++ [item]) (if replaces item o then Some item else o).
Proof.
  destruct o as [old|]; cbn [choice replaces]; [|intros ->; by exists [], []].
  intros (l1 & l2 & -> & H1 & H2). destruct (Z.leb_spec (ht_prio old) (ht_prio item)) as [H|H]; cbn [choice].
  - exists (l1 ++ old :: l2), []. split; [done|]. split; [|done]. apply Forall_app. split; [|constructor; [lia|]];
      (eapply Forall_impl; [eassumption|cbn; intros; lia]).
  - exists l1, (l2 ++ [item]). split; [by rewrite <- app_assoc|]. split; [done|].
    apply Forall_app. split; [done|]. by repeat constructor.
Qed.

(** The arguments of a registration; the cluster is the net function, the
    group or the number of the manufacturer. *)
Record Registration := { r_prio : Z; r_cluster : Z; r_cmd : Z; r_priv : Z; r_handler : HandlerBase W }.
Definition entry_of (r : Registration) : HandlerTuple W :=
  {| ht_prio := r_prio r; ht_priv := r_priv r; ht_handler := r_handler r |}.
Definition registration_ok (r : Registration) : Prop := 0 <= r_cluster r < 2 ^ 24 /\ is_byte (r_cmd r).
Definition for_command (cluster c : Z) (r : Registration) : bool :=
  (r_cluster r =? cluster) && (r_cmd r =? c).

(** The calls by which the libraries of the service register what they
    provide. *)
Inductive Registering :=
  | Standard (r : Registration)
  | Group (r : Registration)
  | Oem (r : Registration)
  | Filter (prio : Z) (filter : FilterBase W).
Definition registering_ok (e : Registering) : Prop :=
  match e with Standard r | Group r | Oem r => registration_ok r | Filter _ _ => True end.
Definition register (t : Tables W) (e : Registering) : Tables W :=
  match e with
  | Standard r => snd (registerHandler (r_prio r) (r_cluster r) (r_cmd r) (r_priv r) (r_handler r) t)
  | Group r => snd (registerGroupHandler (r_prio r) (r_cluster r) (r_cmd r) (r_priv r) (r_handler r) t)
  | Oem r => snd (registerOemHandler (r_prio r) (r_cluster r) (r_cmd r) (r_priv r) (r_handler r) t)
  | Filter prio filter => registerFilter prio filter t
  end.
Definition register_all (l : list Registering) (t : Tables W) : Tables W := foldl register t l.

(** The registrations of each kind; a net function the queue refuses does not
    count. *)
Definition standards (e : Registering) : option Registration :=
  match e with Standard r => if valid_netFn (r_cluster r) then Some r else None | _ => None end.
Definition groups (e : Registering) : option Registration :=
  match e with Group r => Some r | _ => None end.
Definition oems (e : Registering) : option Registration :=
  match e with Oem r => Some r | _ => None end.

Lemma put_handler_lookup k item (m : gmap Z (HandlerTuple W)) k' :
  snd (put_handler k item m) !! k' =
  if (k =? k') && replaces item (m !! k') then Some item else m !! k'.
Proof.
  unfold put_handler. destruct (Z.eqb_spec k k') as [<-|Hk]; cbn [andb].
  - destruct (replaces item _); cbn [snd]; [by rewrite lookup_insert_eq|done].
  - destruct (replaces item _); cbn [snd]; [by rewrite lookup_insert_ne|done].
Qed.

(** A table that takes the registrations of one kind. *)
Definition takes (sel : Registering -> option Registration) (table : Tables W -> gmap Z (HandlerTuple W)) : Prop :=
  forall t e, table (register t e) =
    match sel e with
    | Some r => snd (put_handler (makeCmdKey (r_cluster r) (r_cmd r)) (entry_of r) (table t))
    | None => table t
    end.
Lemma takes_standards : takes standards handlerMap.
Proof.
  intros t [r|r|r|prio filter]; try done. cbn [register standards]. unfold registerHandler.
  by destruct (valid_netFn (r_cluster r)).
Qed.
Lemma takes_groups : takes groups groupHandlerMap.
Proof.
  intros t [r|r|r|prio filter]; try done. cbn [register groups]. unfold registerHandler.
  by destruct (valid_netFn (r_cluster r)).
Qed.
Lemma takes_oems : takes oems oemHandlerMap.
Proof.
  intros t [r|r|r|prio filter]; try done. cbn [register oems]. unfold registerHandler.
  by destruct (valid_netFn (r_cluster r)).
Qed.

Lemma table_choice sel table l k c :
  takes sel table -> (forall e r, sel e = Some r -> registering_ok e -> registration_ok r) ->
  table no_tables = ∅ -> Forall registering_ok l -> 0 <= k < 2 ^ 24 -> is_byte c ->
  choice (map entry_of (List.filter (for_command k c) (omap sel l)))
         (table (register_all l no_tables) !! makeCmdKey k c).
Proof.
  intros Ht Hs H0 Hl Hk Hc. induction l as [|e l IH] using rev_ind.
  { cbn. by rewrite H0, lookup_empty. }
  apply Forall_app in Hl as [Hl H1]. apply Forall_cons_1 in H1 as [He _]. specialize (IH Hl).
  unfold register_all in *. rewrite foldl_app. cbn [foldl]. rewrite Ht, omap_app. cbn [omap list_omap].
  destruct (sel e) as [r|] eqn:Er; [|by rewrite app_nil_r].
  destruct (Hs _ _ Er He) as [B1 B2]. rewrite put_handler_lookup, List.filter_app, map_app. cbn [List.filter].
  assert (for_command k c r = (makeCmdKey (r_cluster r) (r_cmd r) =? makeCmdKey k c)) as ->.
  { unfold for_command. apply Bool.eq_true_iff_eq. rewrite andb_true_iff, !Z.eqb_eq.
    split; [by intros [-> ->]|]. intros E. apply makeCmdKey_inj in E; auto. }
  destruct (_ =? _); cbn [andb]; [|by rewrite app_nil_r]. cbn [map]. by apply choice_snoc.
Qed.

(** The handler [o] that the registrations [regs] leave for a command: the
    last of the highest priority for exactly this command, and if there is
    none the last of the highest priority for all commands of the cluster. *)
Definition leaves (regs : list Registration) (k c : Z) (o : option (HandlerTuple W)) : Prop :=
  exists exact wild,
    choice (map entry_of (List.filter (for_command k c) regs)) exact /\
    choice (map entry_of (List.filter (for_command k cmdWildcard) regs)) wild /\
    o = match exact with Some _ => exact | None => wild end.

(** What a request may meet in [o]: the filters see it first; an unknown
    command is refused as such, then a request the filters refuse, then a
    caller with too little privilege; otherwise the handler runs. *)
Definition run_handler (t : Tables W) (o : option (HandlerTuple W)) (request : Request) : M W Response :=
  let! verdict := filterIpmiCommand t request in
  match o, verdict with
  | None, _ => ret (errorResponse ccInvalidCommand)
  | Some _, Some refusal => ret refusal
  | Some h, None =>
      if priv (ctx request) <? ht_priv h then ret (errorResponse ccInsufficientPrivilege)
      else ht_handler h request
  end.

Lemma common_chosen t handlers k request w :
  executeIpmiCommandCommon t handlers k request w =
  run_handler t (match handlers !! makeCmdKey k (cmd (ctx request)) with
                 | Some h => Some h
                 | None => handlers !! makeCmdKey k cmdWildcard
                 end) request w.
Proof.
  unfold executeIpmiCommandCommon, run_handler, run_chosen, bind.
  destruct (filterIpmiCommand t request w) as [[v|] w'| |]; try done;
    destruct (handlers !! makeCmdKey k (cmd (ctx request))); try done;
    by destruct (handlers !! makeCmdKey k cmdWildcard).
Qed.

Lemma common_leaves sel table l k request w :
  takes sel table -> (forall e r, sel e = Some r -> registering_ok e -> registration_ok r) ->
  table no_tables = ∅ -> Forall registering_ok l -> 0 <= k < 2 ^ 24 -> is_byte (cmd (ctx request)) ->
  let t := register_all l no_tables in
  exists o, leaves (omap sel l) k (cmd (ctx request)) o /\
    executeIpmiCommandCommon t (table t) k request w = run_handler t o request w.
Proof.
  intros Ht Hs H0 Hl Hk Hc t. eexists. split; [|apply common_chosen].
  exists (table t !! makeCmdKey k (cmd (ctx request))), (table t !! makeCmdKey k cmdWildcard).
  split; [by apply table_choice|]. split; [|by destruct (table t !! _)].
  apply table_choice; try done; unfold is_byte, cmdWildcard; lia.
Qed.

(** A request whose data starts with its cluster. *)
Lemma prefixed_run t (field : ty) key handlers request (v : interp field) p w (m : M W Response) :
  unpack (TCons field TNil) (req_payload request) = Ret (Some (v, tt)) p ->
  executeIpmiCommandCommon t handlers (key v) (request <| req_payload := p |>) w = m w ->
  executePrefixed t field key handlers request w =
    (let! response := m in
     ret (response_prepend (snd (pack (TCons field TNil) (v, tt) (new_Payload []))) response)) w.
Proof.
  intros U E. unfold executePrefixed, on_payload. unfold bind at 1. rewrite U.
  cbn [fst]. unfold bind. by rewrite E.
Qed.

(** C35. However handlers and filters are registered, a
    request runs, after the filters and the check of its privilege, the last
    of the highest priority among the handlers registered for its command in
    the table its net function selects, and without such a handler the last
    of the highest priority among those registered for all commands; if there
    is none the command is refused as invalid.  The group net function
    selects the handlers of the group the data starts with, the OEM net
    function those of the manufacturer the data starts with, and the reply
    starts with the same field; every other net function selects the standard
    handlers that were registered for it, if the queue accepts it. *)
Theorem registration_chooses l request w :
  Forall registering_ok l -> is_byte (cmd (ctx request)) -> is_byte (netFn (ctx request)) ->
  let t := register_all l no_tables in
  let f := netFn (ctx request) in
  (f <> netFnGroup -> f <> netFnOem ->
   exists o, leaves (omap standards l) f (cmd (ctx request)) o /\
     executeIpmiCommand t request w = run_handler t o request w) /\
  (f = netFnGroup -> forall g p, is_byte g ->
   unpack (TCons (TUInt 1) TNil) (req_payload request) = Ret (Some (g, tt)) p ->
   exists o, leaves (omap groups l) g (cmd (ctx request)) o /\
     executeIpmiCommand t request w =
       (let! response := run_handler t o (request <| req_payload := p |>) in
        ret (response_prepend (snd (pack (TCons (TUInt 1) TNil) (g, tt) (new_Payload []))) response)) w) /\
  (f = netFnOem -> forall iana p, 0 <= iana < 2 ^ 24 ->
   unpack (TCons (TFixed 24) TNil) (req_payload request) = Ret (Some (iana, tt)) p ->
   exists o, leaves (omap oems l) iana (cmd (ctx request)) o /\
     executeIpmiCommand t request w =
       (let! response := run_handler t o (request <| req_payload := p |>) in
        ret (response_prepend (snd (pack (TCons (TFixed 24) TNil) (iana, tt) (new_Payload []))) response)) w).
Proof.
  intros Hl Hc Hf t f. unfold executeIpmiCommand. fold f. split_and!.
  - intros H1 H2. rewrite (proj2 (Z.eqb_neq netFnGroup f)), (proj2 (Z.eqb_neq netFnOem f)) by congruence.
    apply common_leaves; auto using takes_standards; [|unfold is_byte in *; fold f in Hf; lia].
    intros [r|r|r|] r' H; try done. cbn in H. destruct (valid_netFn _); [by injection H as <-|done].
  - intros -> g p Hg U.
    destruct (common_leaves groups groupHandlerMap l g (request <| req_payload := p |>) w) as (o & Ho & E);
      auto using takes_groups; [by intros [r|r|r|] r' [= <-]|unfold is_byte in *; lia|].
    exists o. split; [exact Ho|]. exact (prefixed_run t (TUInt 1) id _ _ _ _ _ _ U E).
  - intros -> iana p Hi U.
    destruct (common_leaves oems oemHandlerMap l iana (request <| req_payload := p |>) w) as (o & Ho & E);
      auto using takes_oems; [by intros [r|r|r|] r' [= <-]|].
    exists o. split; [exact Ho|]. exact (prefixed_run t (TFixed 24) id _ _ _ _ _ _ U E).
Qed.

(** ** Filters *)
Definition before (a b : FilterTuple W) : Prop := ft_prio b <= ft_prio a.

Lemma place_after_perm (item j : FilterTuple W) l : place_after item j l ≡ₚ item :: j :: l.
Proof.
  revert j. induction l as [|i l IH]; intros j; cbn [place_after]; [apply perm_swap|].
  destruct (_ <? _); [|apply perm_swap]. rewrite IH. by rewrite (perm_swap item j).
Qed.
Lemma insert_filter_perm (item : FilterTuple W) l : insert_filter item l ≡ₚ item :: l.
Proof.
  destruct l as [|front l]; cbn [insert_filter]; [done|].
  destruct (_ <? _); [done|]. destruct (_ <? _); [apply place_after_perm|apply perm_swap].
Qed.

Lemma below_head (item i : FilterTuple W) l : ft_prio i <= ft_prio item ->
  StronglySorted before (i :: l) -> Forall (before item) (i :: l).
Proof.
  intros H Hs. inversion Hs as [|? ? _ Hall]; subst. constructor; [done|].
  eapply Forall_impl; [exact Hall|]. unfold before. cbn. intros. lia.
Qed.

Lemma place_after_sorted (item j : FilterTuple W) l : ft_prio item <= ft_prio j ->
  StronglySorted before (j :: l) -> StronglySorted before (place_after item j l).
Proof.
  revert j. induction l as [|i l IH]; intros j Hj Hs; cbn [place_after].
  { repeat constructor; done. }
  inversion Hs as [|? ? Hs' Hall]; subst. destruct (Z.ltb_spec (ft_prio item) (ft_prio i)) as [H|H].
  - constructor; [apply IH; [lia|done]|]. rewrite place_after_perm.
    apply Forall_cons_1 in Hall as [Hi Hall]. repeat constructor; done.
  - constructor; [constructor; [done|by apply below_head]|by constructor].
Qed.

(** Registering a filter adds it to the list of filters,
    keeps every other, and keeps the list in descending order of priority,
    which is the order in which the filters see a request. *)
Theorem filters_by_priority prio filter t :
  StronglySorted before (filterList t) ->
  let item := {| ft_prio := prio; ft_filter := filter |} in
  StronglySorted before (filterList (registerFilter prio filter t)) /\
  filterList (registerFilter prio filter t) ≡ₚ item :: filterList t.
Proof.
  intros Hs item. change (filterList (registerFilter prio filter t)) with (insert_filter item (filterList t)).
  split; [|apply insert_filter_perm]. destruct (filterList t) as [|front l]; [by repeat constructor|].
  cbn [insert_filter]. destruct (Z.ltb_spec (ft_prio front) (ft_prio item)) as [H|H].
  { constructor; [done|]. by apply below_head; [lia|]. }
  destruct (Z.ltb_spec (ft_prio item) (ft_prio front)) as [H'|H']; [by apply place_after_sorted; [lia|]|].
  inversion Hs as [|? ? Hs' Hall]; subst. constructor; [|constructor; [unfold before; lia|done]].
  constructor; [done|]. eapply Forall_impl; [exact Hall|]. unfold before. intros x. cbv beta. lia.
Qed.

(** ** Privileges *)

(** Two tables that differ at most in what handlers do that need more than
    privilege [p]. *)
Definition same_handler (p : Z) (h1 h2 : HandlerTuple W) : Prop :=
  ht_priv h1 = ht_priv h2 /\
  (ht_priv h1 <= p -> forall request w, ht_handler h1 request w = ht_handler h2 request w).
Definition agree (p : Z) (m1 m2 : gmap Z (HandlerTuple W)) : Prop :=
  forall k, match m1 !! k, m2 !! k with
            | Some h1, Some h2 => same_handler p h1 h2
            | None, None => True
            | _, _ => False
            end.
Record agree_up_to (p : Z) (t1 t2 : Tables W) : Prop := {
  au_handlers : agree p (handlerMap t1) (handlerMap t2);
  au_groups : agree p (groupHandlerMap t1) (groupHandlerMap t2);
  au_oem : agree p (oemHandlerMap t1) (oemHandlerMap t2);
  au_filters : filterList t1 = filterList t2 }.

Lemma run_chosen_agree p h1 h2 f request w : same_handler p h1 h2 -> priv (ctx request) = p ->
  run_chosen h1 f request w = run_chosen h2 f request w.
Proof.
  intros [Hp H] <-. unfold run_chosen. destruct f; [done|]. rewrite Hp.
  destruct (Z.ltb_spec (priv (ctx request)) (ht_priv h2)); [done|]. apply H. lia.
Qed.

Lemma common_agree p t1 t2 m1 m2 key request w : agree p m1 m2 -> filterList t1 = filterList t2 ->
  priv (ctx request) = p ->
  executeIpmiCommandCommon t1 m1 key request w = executeIpmiCommandCommon t2 m2 key request w.
Proof.
  intros Hm Hf Hp. unfold executeIpmiCommandCommon, filterIpmiCommand, bind. rewrite Hf.
  destruct (run_filters _ _ w) as [o w'| |]; [|done..].
  pose proof (Hm (makeCmdKey key (cmd (ctx request)))) as H1. pose proof (Hm (makeCmdKey key cmdWildcard)) as H2.
  destruct (m1 !! makeCmdKey key (cmd (ctx request))), (m2 !! makeCmdKey key (cmd (ctx request))); try done.
  { by apply (run_chosen_agree p). }
  destruct (m1 !! makeCmdKey key cmdWildcard), (m2 !! makeCmdKey key cmdWildcard); try done.
  by apply (run_chosen_agree p).
Qed.

Lemma prefixed_agree p t1 t2 (ty1 : ty) key m1 m2 request w : agree p m1 m2 -> filterList t1 = filterList t2 ->
  priv (ctx request) = p ->
  executePrefixed t1 ty1 key m1 request w = executePrefixed t2 ty1 key m2 request w.
Proof.
  intros Hm Hf Hp. unfold executePrefixed, on_payload, bind at 1 3.
  destruct (unpack _ (req_payload request)) as [[v|] q| |]; try done. unfold bind.
  by erewrite common_agree.
Qed.

(** C27. What a request does, on the state of the service and
    in its response, does not depend on the handlers that need a higher
    privilege than the request has: whatever is registered in their place, as
    long as it needs the same privilege, nothing changes. *)
Theorem privilege_isolates t1 t2 request w :
  agree_up_to (priv (ctx request)) t1 t2 ->
  executeIpmiCommand t1 request w = executeIpmiCommand t2 request w.
Proof.
  intros [H1 H2 H3 H4]. unfold executeIpmiCommand. destruct (_ =? _); [by eapply prefixed_agree|].
  destruct (_ =? _); [by eapply prefixed_agree|by eapply common_agree].
Qed.

(** ** The path of a command *)
Section Call.
Context (t : Tables W) (q : ChannelQueries) (owners : Owners) (sender : string).
Context (f l c : Z) (options : gmap string Value) (args res : tys).
Context (body : Request -> interps args -> M W (callback_result (Z * option (interps res)))).

Definition call_context (cr : Credentials) : Context :=
  {| netFn := f; lun := l; cmd := c; channel := channelFromMessage q owners sender; userId := c_user cr;
     sessionId := c_session cr; priv := c_priv cr; rqSA := c_rqSA cr; hostIdx := c_host cr |}.

(** A handler that is found, allowed and given what was packed: the request is
    answered with its result. *)
Lemma command_runs cr prio pv v o cc data w w1 w2 :
  channelFromMessage q owners sender <> invalidChannel ->
  credentials q (channelFromMessage q owners sender) options = Some cr ->
  f <> netFnGroup -> f <> netFnOem ->
  handlerMap t !! makeCmdKey f c =
    Some {| ht_prio := prio; ht_priv := pv; ht_handler := executeCallback args res body |} ->
  pv <= c_priv cr ->
  layouts true args 0 = Some 0%nat -> valids args v ->
  pack args v (new_Payload []) = (true, data) ->
  (forall p, run_filters (filterList t) {| req_payload := p; ctx := call_context cr |} w = Ret None w1) ->
  (forall p, body {| req_payload := p; ctx := call_context cr |} v w1 = Ret (Returned (cc, o)) w2) ->
  executionEntry t q owners sender f l c (raw data) options w =
    Ret (Z.lor f 1, l, c, cc,
         match o with
         | Some r => raw (snd (pack (TCons (TTuple res) TNil) (r, tt) (new_Payload [])))
         | None => []
         end) w2.
Proof.
  intros Hch Hcr Hg Ho Hh Hpv La Va Hd Hf Hb.
  assert (payload_ok (new_Payload [])) as P0 by (apply new_payload_ok; constructor).
  destruct (pack_encoded args v true _ P0 La Va) as (d & Ed & Od & Cd & Bd).
  rewrite Hd in Ed. injection Ed as <-.
  destruct (unpack_encoded args v (raw data) (so_bytes _ (po_stream _ Od)) La Va Bd) as (pa & Ua & _).
  unfold executionEntry. rewrite (proj2 (Z.eqb_neq _ _) Hch), Hcr. fold (call_context cr).
  set (request := {| req_payload := new_Payload (raw data); ctx := call_context cr |}).
  set (rsp := match o with
              | Some r => {| rsp_payload := snd (pack (TCons (TTuple res) TNil) (r, tt) (new_Payload [])); rsp_cc := cc |}
              | None => {| rsp_payload := new_Payload []; rsp_cc := cc |}
              end).
  assert (executeIpmiCommand t request w = Ret rsp w2) as E; [|rewrite (bind_Ret _ _ _ _ _ E); by destruct o].
  unfold executeIpmiCommand. change (netFn (ctx request)) with f.
  rewrite (proj2 (Z.eqb_neq netFnGroup f)), (proj2 (Z.eqb_neq netFnOem f)) by congruence.
  assert (run_filters (filterList t) request w = Ret None w1) as Ef by apply Hf.
  unfold executeIpmiCommandCommon, filterIpmiCommand. rewrite (bind_Ret _ _ _ _ _ Ef).
  change (cmd (ctx request)) with c. rewrite Hh. unfold run_chosen. change (priv (ctx request)) with (c_priv cr).
  cbn [ht_priv ht_handler]. rewrite (proj2 (Z.ltb_ge _ _) Hpv). unfold executeCallback, on_payload.
  unfold bind at 1. change (req_payload (request <| req_payload := ?p |>)) with p.
  change (req_payload request) with (new_Payload (raw data)). rewrite Ua.
  assert (guarded (body {| req_payload := pa; ctx := call_context cr |} v) w1 = Ret (Returned (cc, o)) w2) as Eg
    by (unfold guarded, try; by rewrite Hb).
  rewrite (bind_Ret _ _ _ _ _ Eg). by destruct o.
Qed.
(** The values a reply carries are read back from it. *)
Lemma reply_read r : layouts true res 0 = Some 0%nat -> valids res r ->
  exists p', Request_unpack res
    ((new_Payload (raw (snd (pack (TCons (TTuple res) TNil) (r, tt) (new_Payload []))))) <| trailingOk := false |>) =
    Ret (inr r) p'.
Proof.
  intros Lr Vr. assert (payload_ok (new_Payload [])) as P0 by (apply new_payload_ok; constructor).
  destruct (pack_encoded (TCons (TTuple res) TNil) (r, tt) true (new_Payload []) P0) as (pr & Ep & Or & Cr & Br).
  { cbn [layouts layout andb bitCount new_Payload]. rewrite bool_decide_eq_true_2; [done|exact Lr]. }
  { done. }
  cbn [encodes encode fst snd] in Br. rewrite app_nil_r in Br. rewrite Ep. cbn [snd].
  destruct (unpack_encoded res r (raw pr) (so_bytes _ (po_stream _ Or)) Lr Vr Br) as (pu & Uu & _). by exists pu.
Qed.

(** C4. A request on a known channel, for a net function other than the group
    and OEM ones, that no filter refuses, for a command whose registered
    handler needs no more privilege than the caller has: the handler runs, and
    no other, on exactly the arguments that were packed, and the caller reads
    from the reply the completion code and exactly the values the handler
    returned; the reply carries the response net function, the LUN and the
    command. The arguments and results are of the types and values that
    packing and unpacking agree on ([layouts] and [valids], as in
    [message_roundtrip]). *)
Theorem command_roundtrip cr prio pv v r cc data w w1 w2 :
  channelFromMessage q owners sender <> invalidChannel ->
  credentials q (channelFromMessage q owners sender) options = Some cr ->
  f <> netFnGroup -> f <> netFnOem ->
  handlerMap t !! makeCmdKey f c =
    Some {| ht_prio := prio; ht_priv := pv; ht_handler := executeCallback args res body |} ->
  pv <= c_priv cr ->
  layouts true args 0 = Some 0%nat -> valids args v ->
  layouts true res 0 = Some 0%nat -> valids res r ->
  pack args v (new_Payload []) = (true, data) ->
  (forall p, run_filters (filterList t) {| req_payload := p; ctx := call_context cr |} w = Ret None w1) ->
  (forall p, body {| req_payload := p; ctx := call_context cr |} v w1 = Ret (Returned (cc, Some r)) w2) ->
  exists reply p', executionEntry t q owners sender f l c (raw data) options w =
      Ret (Z.lor f 1, l, c, cc, reply) w2 /\
    Request_unpack res ((new_Payload reply) <| trailingOk := false |>) = Ret (inr r) p'.
Proof.
  intros Hch Hcr Hg Ho Hh Hpv La Va Lr Vr Hd Hf Hb. destruct (reply_read r Lr Vr) as [p' Hp'].
  eexists _, p'. split; [by eapply (command_runs cr prio pv v (Some r))|exact Hp'].
Qed.
End Call.

(** The reply to a group command starts with the group, if its handler packed
    whole bytes. *)
Lemma group_reply t g rest p request w response w' : req_payload request = p -> raw p = g :: rest ->
  rawIndex p = 0%nat -> bitCount p = 0%nat -> is_byte g ->
  executeIpmiCommandCommon t (groupHandlerMap t) g
    (request <| req_payload := p <| rawIndex := 1%nat |> |>) w = Ret response w' ->
  bitCount (rsp_payload response) = 0%nat ->
  exists response', executeIpmiGroupCommand t request w = Ret response' w' /\
    rsp_cc response' = rsp_cc response /\
    raw (rsp_payload response') = g :: raw (rsp_payload response).
Proof.
  intros Ep Er Ei Eb Hg Ex Hb. unfold executeIpmiGroupCommand, executePrefixed, on_payload.
  assert (unpack (TCons (TUInt 1) TNil) p = Ret (Some (g, tt)) (p <| rawIndex := 1%nat |>)) as U.
  { cbn [unpack UnpackSingle]. unfold UnpackInt, bind at 1. unfold bind at 1. cbn [get].
    rewrite Eb. cbn [Nat.eqb negb]. rewrite Er, Ei. cbn [length Nat.add Nat.ltb Nat.leb].
    cbn [bind modify ret drop take]. rewrite Ei. cbn. done. }
  unfold bind at 1. rewrite Ep, U. cbn [fst id]. rewrite (bind_Ret _ _ _ _ _ Ex).
  eexists. split; [done|]. unfold response_prepend, prepend. cbn [rsp_payload rsp_cc].
  assert (snd (pack (TCons (TUInt 1) TNil) (g, tt) (new_Payload [])) = new_Payload [g]) as ->.
  { cbn. unfold PackInt. cbn -[u8]. unfold le_byte. rewrite Z.shiftr_0_r, u8_small by done. done. }
  rewrite Hb. cbn. done.
Qed.

(** A handler registered under the group or the OEM net function as a standard
    command is accepted and never called. *)
Definition with_handlers (m : gmap Z (HandlerTuple W)) (t : Tables W) : Tables W :=
  {| handlerMap := m; groupHandlerMap := groupHandlerMap t; oemHandlerMap := oemHandlerMap t;
     filterList := filterList t |}.
Lemma standard_map_not_used t m request w : netFn (ctx request) = netFnGroup \/ netFn (ctx request) = netFnOem ->
  executeIpmiCommand (with_handlers m t) request w = executeIpmiCommand t request w.
Proof. unfold executeIpmiCommand. by intros [-> | ->]. Qed.
Lemma group_netFn_is_registered prio cmd priv h t : (forall k, handlerMap t !! k = None) ->
  fst (registerHandler prio netFnGroup cmd priv h t) = true.
Proof. intros H. unfold registerHandler, put_handler. cbn [negb]. by rewrite H. Qed.
End Queue.
Arguments Registration : clear implicits.
Arguments Registering : clear implicits.

(** ** Witnesses *)
Section Sample.

(** A service that counts: a command adds its argument, another reads. *)
Definition add_handler : HandlerBase Z :=
  executeCallback (TCons (TUInt 2) TNil) (TCons (TUInt 4) TNil)
    (fun _ v => fun w => Ret (Returned (ccSuccess, Some (w + fst v, tt))) (w + fst v)).
Definition reset_handler : HandlerBase Z :=
  executeCallback TNil TNil (fun _ _ => fun _ => Ret (Returned (ccSuccess, None)) 0).
Definition sample_registrations : list (Registering Z) :=
  [ Standard {| r_prio := 10; r_cluster := 0x30; r_cmd := 1; r_priv := 2; r_handler := reset_handler |};
    Standard {| r_prio := 20; r_cluster := 0x30; r_cmd := 1; r_priv := 2; r_handler := add_handler |};
    Standard {| r_prio := 10; r_cluster := 0x30; r_cmd := 2; r_priv := 4; r_handler := reset_handler |} ].
Definition allow : FilterBase Z := fun _ => ret ccSuccess.
Definition sample_tables : Tables Z :=
  registerFilter prioOpenBmcBase allow (register_all sample_registrations no_tables).
Definition sample_queries : ChannelQueries :=
  {| getChannelByName s := if String.eqb s "IPMB" then Some 0 else None;
     getChannelSessionSupport _ := 0; mediumType _ := 1 |}.
Definition sample_owners : Owners := {[ "one"%string := 0 ]}.
End Sample.

Lemma filters_by_priority_witness :
  StronglySorted before (filterList (registerFilter 20 allow sample_tables)) /\
  filterList (registerFilter 20 allow sample_tables) ≡ₚ {| ft_prio := 20; ft_filter := allow |} :: filterList sample_tables.
Proof.
  apply (filters_by_priority 20 allow sample_tables).
  unfold sample_tables. repeat constructor.
Defined.

(** A table in which the command that resets needs more privilege than a user
    has, and one in which it does something else. *)
Definition other_tables : Tables Z :=
  snd (registerHandler 10 0x30 2 4 (fun _ => undef OutOfFuel) sample_tables).
Lemma sample_agree : agree_up_to 2 sample_tables other_tables.
Proof.
  assert (forall k, makeCmdKey 0x30 2 <> k -> handlerMap other_tables !! k = handlerMap sample_tables !! k) as Hne
    by (intros k Hk; by apply lookup_insert_ne).
  constructor; [|by intros k; cbn; rewrite lookup_empty..|done].
  intros k. destruct (decide (makeCmdKey 0x30 2 = k)) as [<-|Hk].
  - vm_compute. split; [done|]. intros H. by exfalso; apply H.
  - rewrite (Hne k Hk). by destruct (handlerMap sample_tables !! k).
Qed.
Definition user_request (cmd : Z) : Request :=
  {| req_payload := new_Payload [5; 0];
     ctx := {| netFn := 0x30; lun := 0; cmd := cmd; channel := 0; userId := 1; sessionId := 0;
               priv := 2; rqSA := 0; hostIdx := 0 |} |}.
(** A group of handlers beside the standard ones, in the order in which the
    later of two of the same priority wins, and one for all commands. *)
Definition group_registrations : list (Registering Z) :=
  sample_registrations ++
  [ Filter prioOpenBmcBase allow;
    Group {| r_prio := 10; r_cluster := 0xDC; r_cmd := 1; r_priv := 2; r_handler := add_handler |};
    Group {| r_prio := 10; r_cluster := 0xDC; r_cmd := 1; r_priv := 2; r_handler := reset_handler |};
    Group {| r_prio := 10; r_cluster := 0xDC; r_cmd := cmdWildcard; r_priv := 2; r_handler := add_handler |} ].
Definition group_request (cmd : Z) : Request :=
  {| req_payload := new_Payload [0xDC; 5; 0];
     ctx := {| netFn := netFnGroup; lun := 0; cmd := cmd; channel := 0; userId := 1; sessionId := 0;
               priv := 2; rqSA := 0; hostIdx := 0 |} |}.
Lemma group_registrations_ok : Forall registering_ok group_registrations.
Proof.
  repeat (apply Forall_cons; split;
    [unfold registering_ok, registration_ok, is_byte, cmdWildcard; cbn [r_cluster r_cmd]; first [exact I|lia]|]).
  constructor.
Qed.

Lemma registration_chooses_witness :
  (exists o, leaves (omap standards group_registrations) 0x30 1 o /\
     executeIpmiCommand (register_all group_registrations no_tables) (user_request 1) 7 =
     run_handler (register_all group_registrations no_tables) o (user_request 1) 7) /\
  (exists o p, leaves (omap groups group_registrations) 0xDC 9 o /\
     executeIpmiCommand (register_all group_registrations no_tables) (group_request 9) 7 =
     (let! response := run_handler (register_all group_registrations no_tables) o
                         ((group_request 9) <| req_payload := p |>) in
      ret (response_prepend (new_Payload [0xDC]) response)) 7).
Proof.
  split.
  - destruct (registration_chooses group_registrations (user_request 1) 7 group_registrations_ok)
      as (H & _); [unfold is_byte; cbn; unfold netFnGroup; lia..|]. apply H; discriminate.
  - destruct (registration_chooses group_registrations (group_request 9) 7 group_registrations_ok)
      as (_ & H & _); [unfold is_byte; cbn; unfold netFnGroup; lia..|].
    destruct (H eq_refl 0xDC ((new_Payload [0xDC; 5; 0]) <| rawIndex := 1%nat |>)) as (o & Ho & E);
      [split; lia|reflexivity|]. exists o, ((new_Payload [0xDC; 5; 0]) <| rawIndex := 1%nat |>).
    split; [exact Ho|exact E].
Defined.

Lemma privilege_isolates_witness :
  executeIpmiCommand sample_tables (user_request 2) 7 = executeIpmiCommand other_tables (user_request 2) 7 /\
  executeIpmiCommand sample_tables (user_request 1) 7 = executeIpmiCommand other_tables (user_request 1) 7.
Proof. split; apply (privilege_isolates sample_tables other_tables); exact sample_agree. Defined.

Lemma command_roundtrip_witness : exists reply p',
  executionEntry sample_tables sample_queries sample_owners "one" 0x30 0 1 [5; 0] ∅ 7 =
    Ret (0x31, 0, 1, ccSuccess, reply) 12 /\
  Request_unpack (TCons (TUInt 4) TNil) ((new_Payload reply) <| trailingOk := false |>) = Ret (inr (12, tt)) p'.
Proof.
  apply (command_roundtrip sample_tables sample_queries sample_owners "one" 0x30 0 1 ∅ (TCons (TUInt 2) TNil)
    (TCons (TUInt 4) TNil)
    (fun _ v => fun w => Ret (Returned (ccSuccess, Some (w + fst v, tt))) (w + fst v))
    {| c_priv := Privilege_Admin; c_user := 0; c_session := 0; c_rqSA := 0; c_host := 0 |}
    20 2 (5, tt) (12, tt) ccSuccess (new_Payload [5; 0]) 7 7 12).
  - vm_compute; discriminate.
  - reflexivity.
  - discriminate.
  - discriminate.
  - reflexivity.
  - vm_compute; discriminate.
  - vm_compute; reflexivity.
  - split; [split; vm_compute; [discriminate|reflexivity]|exact I].
  - vm_compute; reflexivity.
  - split; [split; vm_compute; [discriminate|reflexivity]|exact I].
  - vm_compute; reflexivity.
  - reflexivity.
  - reflexivity.
Defined.

(** Filters of equal priority run in an order that depends on what else is
    registered. *)
Example equal_filters (f g h : FilterBase Z) :
  map ft_filter (filterList (registerFilter 10 h (registerFilter 10 g (registerFilter 10 f no_tables)))) = [f; h; g] /\
  map ft_filter (filterList (registerFilter 10 h (registerFilter 10 g (registerFilter 20 f no_tables)))) = [f; h; g] /\
  map ft_filter (filterList (registerFilter 10 g (registerFilter 10 f no_tables))) = [f; g].
Proof. by repeat split. Qed.

(** The SEL reservation. *)
Lemma reserve_valid s : 0 <= selReservationID s < 65536 -> exists id s', reserveSel s = Ret id s' /\
  checkSELReservation id s' = true /\ id <> 0 /\ id <> selReservationID s /\ 0 <= selReservationID s' < 65536.
Proof.
  intros Hs. unfold reserveSel. cbn [bind modify get ret]. unfold u16. eexists _, _. split; [done|].
  unfold checkSELReservation.
  destruct (Z.eq_dec (selReservationID s) 65535) as [E|E].
  - replace ((selReservationID s + 1) mod 65536) with 0 by (rewrite E; reflexivity). cbn. lia.
  - cbn -[Z.modulo]. rewrite (Z.mod_small (_ + 1)) by lia. destruct (Z.eqb_spec (selReservationID s + 1) 0); [lia|].
    cbn. rewrite Z.eqb_refl. lia.
Qed.

(** ** The whitelist *)
Definition lt_pair (a b : Z * Z) : Prop := pair_lt a b = true.
Lemma pair_lt_spec a b : pair_lt a b = true <-> fst a < fst b \/ (fst a = fst b /\ snd a < snd b).
Proof.
  unfold pair_lt. rewrite orb_true_iff, andb_true_iff, !Z.ltb_lt, Z.eqb_eq. done.
Qed.

Lemma sorted_lookup l i j a b : StronglySorted lt_pair l -> (i < j)%nat -> l !! i = Some a -> l !! j = Some b ->
  lt_pair a b.
Proof.
  intros Hs. revert i j. induction Hs as [|x l Hs IH Hall]; intros i j Hij Ha Hb; [done|].
  destruct j as [|j]; [lia|]. cbn in Hb. destruct i as [|i].
  - injection Ha as <-. by eapply (Forall_lookup_1 (lt_pair x)); eauto.
  - apply (IH i j); [lia|done|done].
Qed.

(** The search ends between the smaller and the other elements. *)
Lemma lower_bound_spec l x : StronglySorted lt_pair l -> forall fuel first len,
  (len <= fuel)%nat -> (first + len <= length l)%nat ->
  (forall i a, (i < first)%nat -> l !! i = Some a -> pair_lt a x = true) ->
  (forall i a, (first + len <= i)%nat -> l !! i = Some a -> pair_lt a x = false) ->
  let r := lower_bound fuel first len l x in
  (r <= length l)%nat /\ (forall i a, (i < r)%nat -> l !! i = Some a -> pair_lt a x = true) /\
  (forall i a, (r <= i)%nat -> l !! i = Some a -> pair_lt a x = false).
Proof.
  intros Hs. induction fuel as [|fuel IH]; intros first len Hf Hl Hlo Hhi; cbn [lower_bound].
  { assert (len = 0%nat) as -> by lia. rewrite Nat.add_0_r in *. done. }
  destruct len as [|n]; [rewrite Nat.add_0_r in *; done|]. set (len := S n) in *.
  set (half := (len / 2)%nat). assert (half < len)%nat as Hh by (apply Nat.div_lt; lia).
  destruct (lookup_lt_is_Some_2 l (first + half)) as [m Em]; [lia|]. rewrite Em.
  change (default (0, 0) (Some m)) with m.
  destruct (pair_lt m x) eqn:Hm; apply IH; try lia.
  - intros i a Hi Ha. destruct (decide (i = first + half)%nat) as [->|Hne]; [congruence|].
    assert (lt_pair a m) as Ham by (eapply (sorted_lookup l i (first + half)); eauto; lia).
    unfold lt_pair in Ham. rewrite pair_lt_spec in *. lia.
  - intros i a Hi. apply Hhi. lia.
  - exact Hlo.
  - intros i a Hi Ha. destruct (decide (i = first + half)%nat) as [->|Hne]; [congruence|].
    assert (lt_pair m a) as Ham by (eapply (sorted_lookup l (first + half) i); eauto; lia).
    unfold lt_pair in Ham. apply not_true_iff_false. apply not_true_iff_false in Hm.
    rewrite pair_lt_spec in *. lia.
Qed.

Lemma binary_search_elem l x : StronglySorted lt_pair l -> binary_search l x = bool_decide (x ∈ l).
Proof.
  intros Hs. unfold binary_search.
  destruct (lower_bound_spec l x Hs (length l) 0 (length l)) as (Hr & Hlo & Hhi); try done; [lia| |].
  { intros i a Hi Ha. apply lookup_lt_Some in Ha. lia. }
  set (r := lower_bound _ _ _ _ _) in *. destruct (l !! r) as [y|] eqn:Ey.
  - destruct (bool_decide_reflect (x ∈ l)) as [Hx|Hx].
    + apply list_elem_of_lookup in Hx as [i Hi]. destruct (decide (i < r)%nat) as [H|H].
      { pose proof (Hlo i x H Hi) as H'. rewrite pair_lt_spec in H'. lia. }
      destruct (decide (i = r)) as [->|Hne].
      { assert (y = x) as -> by congruence. apply negb_true_iff, not_true_iff_false. rewrite pair_lt_spec. lia. }
      assert (lt_pair y x) as H' by (eapply (sorted_lookup l r i); eauto; lia).
      pose proof (Hhi r y (le_n r) Ey) as H2. unfold lt_pair in H'. congruence.
    + pose proof (Hhi r y (le_n r) Ey) as H2. destruct (pair_lt x y) eqn:H3; [done|]. exfalso.
      apply Hx. apply list_elem_of_lookup. exists r. rewrite Ey. f_equal.
      apply not_true_iff_false in H2, H3. rewrite pair_lt_spec in H2, H3.
      destruct x, y. cbn in *. f_equal; lia.
  - symmetry. apply bool_decide_eq_false. intros Hx. apply list_elem_of_lookup in Hx as [i Hi].
    apply lookup_ge_None in Ey. pose proof (lookup_lt_Some _ _ _ Hi).
    pose proof (Hlo i x ltac:(lia) Hi) as H'. rewrite pair_lt_spec in H'. lia.
Qed.

(** C38. Once the mode of its host is known, a request from the
    system interface is refused, with the code for insufficient privilege,
    exactly if the host is in restricted mode and the command is not on the
    whitelist (which is sorted); requests from every other channel pass. *)
Theorem whitelist_exact c context f restricted :
  StronglySorted lt_pair (whitelist c) ->
  0 <= hostIdx context -> restrictedMode f !! Z.to_nat (hostIdx context) = Some restricted ->
  filterMessage c context f =
    Ret (if bool_decide (channel context = channelSystemIface /\ restricted = true /\
                         (netFn context, cmd context) ∉ whitelist c)
         then ccInsufficientPrivilege else ccSuccess) f.
Proof.
  intros Hs Hh Hm. unfold filterMessage. destruct (Z.eqb_spec (channel context) channelSystemIface) as [E|E].
  - unfold bind at 1. cbn [get]. rewrite (proj2 (Z.ltb_ge _ _) Hh), Hm. cbn [of_option bind ret].
    rewrite binary_search_elem by done.
    destruct restricted, (bool_decide_reflect ((netFn context, cmd context) ∈ whitelist c)); cbn [andb negb];
      [rewrite bool_decide_eq_false_2|rewrite bool_decide_eq_true_2|rewrite bool_decide_eq_false_2..]; try done;
      (intros (_ & ? & ?); done).
  - rewrite bool_decide_eq_false_2; [done|]. by intros (? & _).
Qed.
Definition sample_filter_config : FilterConfig :=
  {| whitelist := [(0x06, 0x01); (0x06, 0x37); (0x0A, 0x20)];
     is_whitelist_mode m := if String.eqb m "Whitelist" then Some true
                            else if String.eqb m "None" then Some false else None |}.
Definition system_context (f c : Z) : Context :=
  {| netFn := f; lun := 0; cmd := c; channel := channelSystemIface; userId := 0; sessionId := 0;
     priv := 4; rqSA := 0; hostIdx := 0 |}.
Definition one_host : WhitelistFilter := {| restrictedMode := [true]; devices := ["/host0"%string] |}.
Lemma whitelist_exact_witness :
  filterMessage sample_filter_config (system_context 0x06 0x37) one_host = Ret ccSuccess one_host /\
  filterMessage sample_filter_config (system_context 0x06 0x38) one_host = Ret ccInsufficientPrivilege one_host.
Proof.
  assert (StronglySorted lt_pair (whitelist sample_filter_config)) as Hs by (repeat constructor).
  split; (etransitivity; [apply (whitelist_exact _ _ one_host true Hs); [cbn; lia|reflexivity]|reflexivity]).
Defined.

(** Before the first reply, and for a host whose reply is missing, a request
    from the system interface reads past the end of the vector; so does an
    error reply of the first device asked, which means to fail safe. *)
Example whitelist_before_replies f c : filterMessage sample_filter_config (system_context f c) new_WhitelistFilter = Undef OutOfBounds.
Proof. reflexivity. Qed.
Example whitelist_error_reply c : mode_reply c 0 None new_WhitelistFilter = Undef OutOfBounds.
Proof. reflexivity. Qed.

(** The replies fill the vector in the order they come, whatever they answer. *)
Definition replies (c : FilterConfig) (l : list (nat * string)) : M WhitelistFilter unit :=
  mfor l (fun r => mode_reply c (fst r) (Some (snd r))).
Example whitelist_swapped_replies : exists f,
  replies sample_filter_config [(1%nat, "None"); (0%nat, "Whitelist")]
    {| restrictedMode := []; devices := ["/host0"; "/host1"]%string |} = Ret tt f /\
  restrictedMode f = [false; true].
Proof. eexists. split; reflexivity. Qed.

Lemma replies_in_order c (mode : string -> string) l : forall k f,
  (forall d, d ∈ l -> is_Some (is_whitelist_mode c (mode d))) ->
  exists f', replies c (imap (fun i d => ((k + i)%nat, mode d)) l) f = Ret tt f' /\
    devices f' = devices f /\
    restrictedMode f' = restrictedMode f ++ omap (fun d => is_whitelist_mode c (mode d)) l.
Proof.
  induction l as [|d l IH]; intros k f Hm.
  { exists f. cbn. by rewrite app_nil_r. }
  destruct (Hm d) as [b Eb]; [by left|].
  destruct (IH (S k) (f <| restrictedMode := restrictedMode f ++ [b] |>)) as (f' & E & D & R).
  { intros d' Hd. apply Hm. by right. }
  exists f'. split; [|split; [exact D|]].
  - rewrite <- E. cbn [imap]. unfold replies. cbn [mfor fst snd]. unfold mode_reply at 1, mode_of. rewrite Eb.
    cbn [bind ret modify]. f_equal. apply imap_ext. intros i x _. cbn. f_equal. lia.
  - cbn [omap list_omap]. rewrite Eb. etransitivity; [exact R|].
    symmetry. exact (app_assoc (restrictedMode f) [b] _).
Qed.
Lemma omap_total {A B} (f : A -> option B) l : (forall d, d ∈ l -> is_Some (f d)) ->
  length (omap f l) = length l /\ forall i d, l !! i = Some d -> omap f l !! i = f d.
Proof.
  induction l as [|d l IH]; intros H; [done|]. destruct (H d) as [b Eb]; [by left|].
  destruct IH as [L N]; [intros; apply H; by right|]. cbn [omap list_omap]. rewrite Eb. split; [cbn; by rewrite L|].
  intros [|i] x Hx; [injection Hx as <-; by rewrite Eb|by apply N].
Qed.

(** When the replies come in the order of the
    devices, each host has its own mode, and a change signalled for a device
    updates exactly that host. *)
Theorem restricted_mode_tracks c f0 (mode : string -> string) :
  restrictedMode f0 = [] -> NoDup (devices f0) ->
  (forall d, d ∈ devices f0 -> is_Some (is_whitelist_mode c (mode d))) ->
  exists f, replies c (imap (fun i d => (i, mode d)) (devices f0)) f0 = Ret tt f /\
    devices f = devices f0 /\
    (forall i d, devices f0 !! i = Some d -> restrictedMode f !! i = is_whitelist_mode c (mode d)) /\
    forall i d m b, devices f0 !! i = Some d -> is_whitelist_mode c m = Some b ->
      exists f', handleRestrictedModeChange c d [("RestrictionMode"%string, m)] f = Ret tt f' /\
        devices f' = devices f0 /\ restrictedMode f' = <[i := b]> (restrictedMode f).
Proof.
  intros H0 Hnd Hm.
  destruct (replies_in_order c mode (devices f0) 0 f0 Hm) as (f & E & D & R). rewrite H0 in R. cbn [app] in R.
  destruct (omap_total (fun d => is_whitelist_mode c (mode d)) (devices f0) Hm) as [L N]. rewrite <- R in L, N.
  exists f. split; [exact E|]. split; [done|]. split; [exact N|].
  intros i d m b Hd Hb. unfold handleRestrictedModeChange. rewrite (bind_Ret get _ f f f) by done.
  assert (device_index d (devices f) = Some i) as ->.
  { rewrite D. unfold device_index. assert (list_find (fun x => x = d) (devices f0) = Some (i, d)) as ->; [|done].
    apply list_find_Some. split; [done|]. split; [done|]. intros j y Hy Hj ->.
    eapply (NoDup_lookup _ i j) in Hnd; eauto. lia. }
  apply lookup_lt_Some in Hd as Hlt.
  assert (set_mode i b f = Ret tt (f <| restrictedMode := <[i:=b]> (restrictedMode f) |>)) as Es
    by (unfold set_mode; cbn [bind get]; by rewrite (proj2 (Nat.ltb_lt _ _)) by lia).
  cbn [mfor fst snd]. rewrite String.eqb_refl. unfold mode_of. rewrite Hb.
  change (default 0%nat (Some i)) with i. unfold bind. cbn [ret]. rewrite Es.
  eexists. split; [done|]. done.
Qed.

Lemma restricted_mode_tracks_witness : exists f,
  replies sample_filter_config (imap (fun i d => (i, (fun d => if String.eqb d "/host0" then "Whitelist" else "None") d))
      ["/host0"; "/host1"]%string) {| restrictedMode := []; devices := ["/host0"; "/host1"]%string |} = Ret tt f.
Proof.
  destruct (restricted_mode_tracks sample_filter_config
    {| restrictedMode := []; devices := ["/host0"; "/host1"]%string |}
    (fun d => if String.eqb d "/host0" then "Whitelist" else "None")%string) as (f & E & _).
  - reflexivity.
  - cbn. repeat constructor; set_solver.
  - cbn. intros d _. destruct (String.eqb d "/host0"); by eexists.
  - exists f. exact E.
Defined.

(** A change signalled for a device that was not found at the start goes to
    host 0. *)
Example change_of_unknown_device :
  handleRestrictedModeChange sample_filter_config "/host7" [("RestrictionMode"%string, "None"%string)] one_host =
    Ret tt {| restrictedMode := [false]; devices := ["/host0"%string] |}.
Proof. reflexivity. Qed.

(** The owner of the bare prefix of the channel names ends the service. *)
Example bare_channel_name q owners :
  nameChangeHandler q ipmiDbusChannelMatch "" ":1.7" owners = Throw StdOutOfRange owners.
Proof. reflexivity. Qed.
