(* ===== verification/PasswdMgr.v ===== *)
(** * The password file of the IPMI users

    [user_channel/passwd_mgr.cpp]: the encrypted file that keeps the passwords
    of network users in the clear, its reader, the rewriting of one entry when
    a user is renamed or removed, and the map in memory that follows the file
    by its time stamp.  OpenSSL with padding is the class [PaddedCrypto] on top
    of [Crypto].  The target is a 32-bit ARM: a [size_t] has 4 bytes. *)
From Stdlib Require Import ZArith Lia String.
From stdpp Require Import base list gmap.
From S2P Require Import Prelude CxxStd RmcpMessage RmcpCrypto.
Local Open Scope Z_scope.

Definition EIO : Z := 5.
Definition EINVAL : Z := 22.
Definition EBADMSG : Z := 74.
Definition maxKeySize : nat := 8.
Definition META_PASSWD_SIG : list Z := bytes_of_string "=OPENBMC=" ++ [0].
Definition EVP_MAX_MD_SIZE : nat := 64.
Definition AES_BLOCK : nat := 16.
Definition SHA256_BLOCK : nat := 64.

(** [EVP_aes_128_cbc] with padding: key, IV, data. *)
Class PaddedCrypto := {
  evp_encrypt : list Z -> list Z -> list Z -> option (list Z);
  evp_decrypt : list Z -> list Z -> list Z -> option (list Z) }.
Class PaddedLaws (P : PaddedCrypto) := {
  evp_encrypt_length key iv x c : evp_encrypt key iv x = Some c ->
    (length x <= length c <= length x + AES_BLOCK)%nat;
  evp_encrypt_bytes key iv x c : evp_encrypt key iv x = Some c -> bytes c;
  evp_decrypt_encrypt key iv x c : bytes x -> evp_encrypt key iv x = Some c -> evp_decrypt key iv c = Some x }.

(** ** Files and the manager *)

(** [passwdFile]: modification time in seconds, contents.  [tmpFails]: making
    or writing the temporary file, or renaming it, fails.  [macBytes]: what the
    array [mac] holds before anything is written to it. *)
Record PasswdState := {
  keyFile : option (list Z); passwdFile : option (Z * list Z); clock : Z; tmpFails : bool;
  randoms : nat; macBytes : list Z;
  passwdMapList : gmap (list Z) (list Z); fileLastUpdatedTime : Z }.
#[export] Instance PasswdState_fields : Fields PasswdState := fun s =>
  {| keyFile := keyFile s; passwdFile := passwdFile s; clock := clock s; tmpFails := tmpFails s;
     randoms := randoms s; macBytes := macBytes s;
     passwdMapList := passwdMapList s; fileLastUpdatedTime := fileLastUpdatedTime s |}.

(** ** Text *)

(** A [char*] ends at the first NUL. *)
Fixpoint c_str (l : list Z) : list Z :=
  match l with [] => [] | c :: l => if c =? 0 then [] else c :: c_str l end.
Definition flush (token : list Z) : list (list Z) := match token with [] => [] | _ => [token] end.
(** The tokens of [strtok_r] with the separator "\n". *)
Fixpoint tokens (token l : list Z) : list (list Z) :=
  match l with
  | [] => flush token
  | c :: l => if c =? 10 then flush token ++ tokens [] l else tokens (token ++ [c]) l
  end.
Definition lines (data : list Z) : list (list Z) := tokens [] (c_str data).
Definition colon : Z := 58.
Fixpoint split_colon (l : list Z) : option (list Z * list Z) :=
  match l with
  | [] => None
  | c :: l => if c =? colon then Some ([], l)
              else match split_colon l with Some (a, b) => Some (c :: a, b) | None => None end
  end.

(** ** Layout of the file ([MetaPassStruct]) *)
Record MetaPassStruct := { hashSize : Z; ivSize : Z; dataSize : Z; padSize : Z; macSize : Z }.
Definition sizeof_meta : Z := 32.
Definition le32 (z : Z) : list Z := map (fun k => u8 (Z.shiftr z (8 * Z.of_nat k))) (seq 0 4).
Definition of_le32 (l : list Z) : Z :=
  match l with
  | [a; b; c; d] => a + 256 * b + 65536 * c + 16777216 * d
  | _ => 0
  end.
Definition meta_bytes (m : MetaPassStruct) : list Z :=
  META_PASSWD_SIG ++ [0; 0] ++ le32 (hashSize m) ++ le32 (ivSize m) ++ le32 (dataSize m) ++
  le32 (padSize m) ++ le32 (macSize m).

(** [strncmp(metaData->signature, META_PASSWD_SIG, 10)]: it stops at the first
    difference, or after the NUL. *)
Fixpoint strncmp_sig {S} (i : nat) (input sig : list Z) : M S bool :=
  match sig with
  | [] => ret true
  | c :: sig =>
      let! b := idx input i in
      if negb (b =? c) then ret false else if c =? 0 then ret true else strncmp_sig (i + 1) input sig
  end.
Definition size_at {S} (input : list Z) (off : Z) : M S Z :=
  let! l := read_range input off 4 in ret (of_le32 l).
Definition read_meta {S} (input : list Z) : M S MetaPassStruct :=
  let! h := size_at input 12 in let! i := size_at input 16 in let! d := size_at input 20 in
  let! p := size_at input 24 in let! m := size_at input 28 in
  ret {| hashSize := h; ivSize := i; dataSize := d; padSize := p; macSize := m |}.

Section Manager.
Context {C : Crypto} {P : PaddedCrypto}.

(** ** encryptDecryptData

    The key is 32 bytes, of which the cipher uses 16. *)
Definition cipher_key (key : list Z) : list Z := take 16 key.
(** IV, data and MAC are ranges of the file read. *)
Definition decryptData {S} (key input : list Z) (iv ivLen inBytes inBytesLen mac macLen : Z) :
    M S (Z + list Z) :=
  if (inBytesLen =? 0) || (ivLen <? Z.of_nat AES_BLOCK) then ret (inl (- EINVAL))
  else
    let! data := read_range input inBytes inBytesLen in
    match HMAC SHA256 key data with
    | None => ret (inl (- EIO))
    | Some calMac =>
        let! same := if Z.of_nat (length calMac) =? macLen
                     then let! m := read_range input mac macLen in ret (bool_decide (calMac = m))
                     else ret false in
        if negb same then ret (inl (- EBADMSG))
        else
          let! ivBytes := read_range input iv (Z.of_nat AES_BLOCK) in
          match evp_decrypt (cipher_key key) ivBytes data with
          | Some x => ret (inr x)
          | None => ret (inl (- EIO))
          end
    end.
(** The encrypted data and its MAC. *)
Definition encryptData (key iv inBytes : list Z) : Z + (list Z * list Z) :=
  if (length inBytes =? 0)%nat then inl (- EINVAL)
  else
    match evp_encrypt (cipher_key key) iv inBytes with
    | None => inl (- EIO)
    | Some outBytes =>
        match HMAC SHA256 key outBytes with Some mac => inr (outBytes, mac) | None => inl (- EIO) end
    end.

(** ** Reading *)
Definition read_key : M PasswdState (option (list Z)) :=
  let! s := get in
  ret (match keyFile s with
       | Some k => if (maxKeySize <=? length k)%nat then Some (take maxKeySize k) else None
       | None => None
       end).

Definition readPasswdFileData : M PasswdState (Z + list Z) :=
  let! key := read_key in
  match key with
  | None => ret (inl (- EIO))
  | Some keyBuff =>
      let! s := get in
      match passwdFile s with
      | None => ret (inl (- EIO))
      | Some (_, input) =>
          let! ok := strncmp_sig 0 input META_PASSWD_SIG in
          if negb ok then ret (inl (- EBADMSG))
          else
            let! meta := read_meta input in
            let inBytesLen := u32 (dataSize meta + padSize meta) in
            if inBytesLen =? 0 then ret (inr [])
            else
              let! hash := read_range input sizeof_meta (hashSize meta) in
              match HMAC SHA256 keyBuff hash with
              | None => ret (inl (- EIO))
              | Some key =>
                  let iv := sizeof_meta + hashSize meta in
                  let inBytes := iv + ivSize meta in
                  let mac := inBytes + inBytesLen in
                  let! r := decryptData key input iv (ivSize meta) inBytes inBytesLen mac (macSize meta) in
                  match r with inl _ => ret (inl (- EIO)) | inr x => ret (inr x) end
              end
      end
  end.

Definition getUpdatedFileTime : M PasswdState Z :=
  let! s := get in ret (match passwdFile s with Some (t, _) => t | None => - EIO end).

(** [emplace] keeps the first password of a name. *)
Definition emplace (m : gmap (list Z) (list Z)) (e : list Z * list Z) : gmap (list Z) (list Z) :=
  match m !! fst e with Some _ => m | None => <[fst e := snd e]> m end.
Definition entries (data : list Z) : list (list Z * list Z) := omap split_colon (lines data).
Definition initPasswordMap : M PasswdState unit :=
  let! r := readPasswdFileData in
  match r with
  | inl _ => ret tt
  | inr dataBuf =>
      modify (fun s => s <| passwdMapList := foldl emplace (passwdMapList s) (entries dataBuf) |>) ;;;
      let! t := getUpdatedFileTime in
      modify (fun s => s <| fileLastUpdatedTime := t |>)
  end.

Definition checkAndReload : M PasswdState unit :=
  let! updatedTime := getUpdatedFileTime in
  let! s := get in
  if negb (fileLastUpdatedTime s =? updatedTime) && negb (updatedTime =? -1)
  then modify (fun s => s <| passwdMapList := ∅ |>) ;;; initPasswordMap
  else ret tt.
Definition getPasswdByUserName (userName : list Z) : M PasswdState (list Z) :=
  checkAndReload ;;;
  let! s := get in ret (default [] (passwdMapList s !! userName)).

(** ** Rewriting an entry *)

(** [snprintf(&inBytes[0] + pos, size - pos, "%s", text)], [size] being that of
    the buffer: past the end the difference wraps around. *)
Definition snprintf_at {S} (text : list Z) (b : list Z * nat) : M S (list Z * nat) :=
  let '(buf, pos) := b in
  if (length buf <? pos)%nat then undef OutOfBounds
  else
    let room := (length buf - pos)%nat in
    let written := if (room =? 0)%nat then [] else take (room - 1) text ++ [0] in
    ret (take pos buf ++ written ++ drop (pos + length written) buf, (pos + length text)%nat).

(** The line to write for a line read; [None] where it is left out. *)
Definition is_entry_of (userName line : list Z) : bool :=
  match split_colon line with Some (name, _) => bool_decide (userName = name) | None => false end.
Definition new_line (userName newUserName line : list Z) : option (list Z) :=
  match split_colon line with
  | None => None
  | Some (name, password) =>
      if bool_decide (userName = name)
      then match newUserName with
           | [] => None
           | _ => Some (c_str newUserName ++ colon :: password ++ [10])
           end
      else Some (line ++ [10])
  end.
Fixpoint write_lines {S} (userName newUserName : list Z) (l : list (list Z)) (b : list Z * nat) :
    M S (list Z * nat) :=
  match l with
  | [] => ret b
  | line :: l =>
      let! b := match new_line userName newUserName line with
                | Some text => snprintf_at text b
                | None => ret b
                end in
      write_lines userName newUserName l b
  end.

(** The bytes of the new file: random hash and IV, encrypted data, MAC.  With
    no entry left nothing is encrypted, and the MAC is what the array holds. *)
Definition new_file (keyBuff inBytes : list Z) : M PasswdState (Z + list Z) :=
  let! s := get in
  let k := randoms s in
  modify (fun s => s <| randoms := (k + 2)%nat |>) ;;;
  match RAND_bytes k SHA256_BLOCK with
  | None => ret (inl (- EIO))
  | Some hash =>
      match HMAC SHA256 keyBuff hash with
      | None => ret (inl (- EIO))
      | Some key =>
          match RAND_bytes (k + 1) AES_BLOCK with
          | None => ret (inl (- EIO))
          | Some iv =>
              let bytesWritten := Z.of_nat (length inBytes) in
              let r := if (length inBytes =? 0)%nat then inr ([], macBytes s) else encryptData key iv inBytes in
              match r with
              | inl _ => ret (inl (- EIO))
              | inr (outBytes, mac) =>
                  let metaData := {| hashSize := Z.of_nat SHA256_BLOCK; ivSize := Z.of_nat AES_BLOCK;
                                     dataSize := bytesWritten;
                                     padSize := u32 (Z.of_nat (length outBytes) - bytesWritten);
                                     macSize := Z.of_nat (length mac) |} in
                  ret (inr (meta_bytes metaData ++ hash ++ iv ++ outBytes ++ mac))
              end
          end
      end
  end.

Definition updatePasswdSpecialFile (userName newUserName : list Z) : M PasswdState Z :=
  let! r := readPasswdFileData in
  match r with
  | inl _ => ret (- EIO)
  | inr dataBuf =>
      let inBytesLen := if (length dataBuf =? 0)%nat then 0%nat
                        else (length dataBuf + length newUserName + AES_BLOCK)%nat in
      let! (buf, bytesWritten) := write_lines userName newUserName (lines dataBuf) (replicate inBytesLen 0, 0%nat) in
      if negb (existsb (is_entry_of userName) (lines dataBuf)) then ret 0
      else
        let! key := read_key in
        match key with
        | None => ret (- EIO)
        | Some keyBuff =>
            let! s := get in
            if tmpFails s then ret (- EIO)
            else
              let! inBytes := read_range (buf ++ [0]) 0 (Z.of_nat bytesWritten) in
              let! file := new_file keyBuff inBytes in
              match file with
              | inl e => ret e
              | inr file => modify (fun s => s <| passwdFile := Some (clock s, file) |>) ;;; ret 0
              end
        end
  end.

Definition updateUserEntry (userName newUserName : list Z) : M PasswdState Z :=
  let! updatedTime := getUpdatedFileTime in
  let! s := get in
  if (fileLastUpdatedTime s =? updatedTime) && negb (updatedTime =? - EIO) &&
     bool_decide (passwdMapList s !! userName = None)
  then ret 0
  else
    let! r := updatePasswdSpecialFile userName newUserName in
    if negb (r =? 0) then ret (- EIO) else ret 0.

(** The constructor; the object is a global, so its members start as 0. *)
Definition new_PasswdMgr : M PasswdState unit := initPasswordMap.
End Manager.
