(* ===== verification/PasswdMgrSpec.v ===== *)
(** * Properties of the password file

    What the manager writes it reads back; renaming or removing a user changes
    exactly this user's entry, in the file and, unless the clock stands still,
    in the passwords handed out. *)
From Stdlib Require Import ZArith Lia String.
From stdpp Require Import base list gmap.
From S2P Require Import Prelude CxxStd RmcpMessage RmcpCrypto RmcpSample PasswdMgr.
Local Open Scope Z_scope.

(** ** Lines *)
Definition plain_char (c : Z) : Prop := c <> 0 /\ c <> 10.
Definition plain (l : list Z) : Prop := l <> [] /\ Forall plain_char l.

Lemma flush_Forall (Q : list Z -> Prop) token : (token <> [] -> Q token) -> Forall Q (flush token).
Proof. destruct token; cbn [flush]; intros H; [constructor|]. constructor; [by apply H|constructor]. Qed.
Lemma tokens_plain l : forall token, Forall plain_char token ->
  Forall (fun c => c <> 0) l -> Forall plain (tokens token l).
Proof.
  induction l as [|c l IH]; intros token Ht Hl; cbn [tokens].
  - apply flush_Forall. by intros.
  - apply Forall_cons_1 in Hl as [Hc Hl]. destruct (Z.eqb_spec c 10) as [->|Hn].
    + apply Forall_app. split; [apply flush_Forall; by intros|]. by apply IH.
    + apply IH; [|done]. apply Forall_app. split; [done|]. by repeat constructor.
Qed.
Lemma c_str_no_nul l : Forall (fun c => c <> 0) (c_str l).
Proof.
  induction l as [|c l IH]; cbn [c_str]; [constructor|].
  destruct (Z.eqb_spec c 0); constructor; done.
Qed.
Lemma lines_plain data : Forall plain (lines data).
Proof. apply tokens_plain; [constructor|apply c_str_no_nul]. Qed.

Lemma tokens_cons_nl token l rest : Forall plain_char l ->
  tokens token (l ++ 10 :: rest) = flush (token ++ l) ++ tokens [] rest.
Proof.
  revert token. induction l as [|c l IH]; intros token Hl; cbn [app tokens]; [by rewrite app_nil_r|].
  apply Forall_cons_1 in Hl as [[_ Hc] Hl]. destruct (Z.eqb_spec c 10); [done|].
  rewrite IH by done. by rewrite <- app_assoc.
Qed.
Definition joined (L : list (list Z)) : list Z := flat_map (fun l => l ++ [10]) L.
Lemma tokens_joined L : Forall plain L -> tokens [] (joined L) = L.
Proof.
  induction 1 as [|l L [Hn Hl] _ IH]; cbn [joined flat_map]; [done|].
  rewrite <- app_assoc. cbn [app]. rewrite tokens_cons_nl by done. fold (joined L). rewrite IH.
  by destruct l.
Qed.
Lemma c_str_id l : Forall (fun c => c <> 0) l -> c_str l = l.
Proof. induction 1 as [|c l Hc _ IH]; cbn [c_str]; [done|]. destruct (Z.eqb_spec c 0); [done|]. by rewrite IH. Qed.
Lemma lines_joined L : Forall plain L -> lines (joined L) = L.
Proof.
  intros H. unfold lines. rewrite c_str_id; [by apply tokens_joined|].
  induction H as [|l L [_ Hl] _ IH]; cbn [joined flat_map]; [constructor|].
  apply Forall_app. split; [|exact IH]. apply Forall_app. split; [|by repeat constructor].
  eapply Forall_impl; [exact Hl|]. by intros c [? ?].
Qed.

Lemma joined_bytes L : Forall bytes L -> bytes (joined L).
Proof.
  induction 1 as [|l L Hl _ IH]; cbn [joined flat_map]; [constructor|].
  apply Forall_app. split; [|exact IH]. apply Forall_app. split; [done|]. repeat constructor; unfold is_byte; lia.
Qed.
Lemma tokens_bytes l : forall token, bytes token -> bytes l -> Forall bytes (tokens token l).
Proof.
  induction l as [|c l IH]; intros token Ht Hl; cbn [tokens].
  - apply flush_Forall. by intros.
  - apply Forall_cons_1 in Hl as [Hc Hl]. destruct (c =? 10).
    + apply Forall_app. split; [apply flush_Forall; by intros|]. apply IH; [by apply Forall_nil|done].
    + apply IH; [|done]. apply Forall_app. split; [done|]. by apply Forall_singleton.
Qed.
Lemma c_str_bytes l : bytes l -> bytes (c_str l).
Proof. induction 1 as [|c l Hc _ IH]; cbn [c_str]; [constructor|]. destruct (c =? 0); constructor; done. Qed.

Lemma length_tokens l : forall token,
  (length (joined (tokens token l)) <= length token + length l + 1)%nat.
Proof.
  induction l as [|c l IH]; intros token; cbn [tokens].
  - destruct token; cbn [flush joined flat_map]; rewrite ?app_nil_r, ?length_app; cbn [length]; lia.
  - destruct (c =? 10).
    + unfold joined. rewrite flat_map_app, length_app. specialize (IH []). unfold joined in IH.
      destruct token; cbn [flush flat_map length] in *; rewrite ?app_nil_r, ?length_app; cbn [length] in *; lia.
    + specialize (IH (token ++ [c])). rewrite length_app in IH. cbn [length] in *. lia.
Qed.
Lemma length_c_str l : (length (c_str l) <= length l)%nat.
Proof. induction l as [|c l IH]; cbn [c_str]; [done|]. destruct (c =? 0); cbn [length]; lia. Qed.
Lemma length_lines data : (length (joined (lines data)) <= length data + 1)%nat.
Proof.
  unfold lines. pose proof (length_tokens (c_str data) []). pose proof (length_c_str data). cbn [length] in *. lia.
Qed.

(** ** Entries *)
Lemma split_colon_spec l name password : split_colon l = Some (name, password) ->
  l = name ++ colon :: password /\ colon ∉ name.
Proof.
  revert name. induction l as [|c l IH]; intros name H; [done|]. cbn [split_colon] in H.
  destruct (Z.eqb_spec c colon) as [->|Hc].
  - injection H as <- <-. split; [done|]. clear. set_solver.
  - destruct (split_colon l) as [[a b]|]; [|done]. injection H as <- <-.
    destruct (IH a eq_refl) as [-> Ha]. split; [done|]. clear IH. set_solver.
Qed.
Lemma split_colon_app name password : colon ∉ name -> split_colon (name ++ colon :: password) = Some (name, password).
Proof.
  induction name as [|c name IH]; intros H; cbn [app split_colon]; [by rewrite Z.eqb_refl|].
  destruct (Z.eqb_spec c colon) as [->|_]; [set_solver|]. rewrite IH; [done|set_solver].
Qed.

(** The entry of a user renamed, or removed if the new name is empty. *)
Definition rename_entry (old new : list Z) (e : list Z * list Z) : option (list Z * list Z) :=
  if bool_decide (old = fst e) then match new with [] => None | _ => Some (new, snd e) end else Some e.
Definition rename_entries (old new : list Z) (es : list (list Z * list Z)) : list (list Z * list Z) :=
  omap (rename_entry old new) es.

(** A name that can be written. *)
Definition clean_name (l : list Z) : Prop := bytes l /\ Forall plain_char l /\ colon ∉ l.
Definition line_of (e : list Z * list Z) : list Z := fst e ++ colon :: snd e.

Lemma new_line_entry old new line : clean_name new ->
  new_line old new line =
  match split_colon line with
  | None => None
  | Some e => match rename_entry old new e with Some e' => Some (line_of e' ++ [10]) | None => None end
  end.
Proof.
  intros (_ & Hn & _). unfold new_line, rename_entry. destruct (split_colon line) as [[name pw]|] eqn:E; [|done].
  cbn [fst snd]. destruct (bool_decide (old = name)).
  - destruct new as [|c new]; [done|]. unfold line_of. cbn [fst snd]. rewrite c_str_id.
    + by rewrite <- app_assoc.
    + eapply Forall_impl; [exact Hn|]. by intros x [? ?].
  - apply split_colon_spec in E as [-> _]. done.
Qed.

Definition new_lines (old new : list Z) (L : list (list Z)) : list (list Z) :=
  map line_of (rename_entries old new (omap split_colon L)).
Lemma new_lines_cons old new line L : clean_name new ->
  match new_line old new line with
  | Some text => joined (new_lines old new (line :: L)) = text ++ joined (new_lines old new L)
  | None => joined (new_lines old new (line :: L)) = joined (new_lines old new L)
  end.
Proof.
  intros Hn. rewrite new_line_entry by done. unfold new_lines, rename_entries. cbn [omap list_omap].
  destruct (split_colon line) as [e|]; [|done]. cbn [omap list_omap].
  by destruct (rename_entry old new e) as [e'|].
Qed.

Lemma new_lines_plain old new L : clean_name new -> Forall plain L -> Forall plain (new_lines old new L).
Proof.
  intros (_ & Hn & _) HL. unfold new_lines, rename_entries. induction HL as [|line L [Hl1 Hl2] _ IH]; [constructor|].
  cbn [omap list_omap]. destruct (split_colon line) as [e|] eqn:E; [|exact IH]. cbn [omap list_omap].
  destruct (rename_entry old new e) as [e'|] eqn:R; [|exact IH]. cbn [map]. constructor; [|exact IH].
  destruct e as [name pw]. apply split_colon_spec in E as [-> _]. unfold rename_entry in R. cbn [fst snd] in R.
  apply Forall_app in Hl2 as [H1 H2].
  destruct (bool_decide (old = name)); [destruct new as [|c new]; [done|]|]; injection R as <-;
    (split; [unfold line_of; cbn; by destruct name|]); apply Forall_app; done.
Qed.
Lemma new_lines_entries old new L : clean_name new ->
  omap split_colon (new_lines old new L) = rename_entries old new (omap split_colon L).
Proof.
  intros (_ & _ & Hn). unfold new_lines, rename_entries.
  assert (Forall (fun e => colon ∉ fst e) (omap split_colon L)) as H.
  { induction L as [|line L IH]; cbn [omap list_omap]; [constructor|].
    destruct (split_colon line) as [[name pw]|] eqn:E; [|exact IH]. constructor; [|exact IH].
    by apply split_colon_spec in E as [_ ?]. }
  revert H. generalize (omap split_colon L). intros es. induction 1 as [|e es He _ IH]; [done|].
  cbn [omap list_omap]. destruct (rename_entry old new e) as [e'|] eqn:R; [|exact IH].
  cbn [map omap list_omap]. unfold line_of at 1. rewrite split_colon_app, IH.
  - by destruct e'.
  - unfold rename_entry in R. destruct (bool_decide _); [destruct new as [|c new]; [done|]|]; by injection R as <-.
Qed.
Lemma new_lines_bytes old new L : clean_name new -> Forall bytes L -> Forall bytes (new_lines old new L).
Proof.
  intros (Hn & _ & _) HL. unfold new_lines, rename_entries. induction HL as [|line L Hl _ IH]; [constructor|].
  cbn [omap list_omap]. destruct (split_colon line) as [e|] eqn:E; [|exact IH]. cbn [omap list_omap].
  destruct (rename_entry old new e) as [e'|] eqn:R; [|exact IH]. cbn [map]. constructor; [|exact IH].
  destruct e as [name pw]. apply split_colon_spec in E as [-> _]. unfold rename_entry in R. cbn [fst snd] in R.
  apply Forall_app in Hl as [H1 H2].
  destruct (bool_decide (old = name)); [destruct new as [|c new]; [done|]|]; injection R as <-;
    apply Forall_app; done.
Qed.

(** ** Writing the lines into the buffer *)
Lemma snprintf_at_fits {S} text buf pos (s : S) : (pos + length text < length buf)%nat ->
  exists buf', snprintf_at text (buf, pos) s = Ret (buf', (pos + length text)%nat) s /\
    length buf' = length buf /\ take (pos + length text) buf' = take pos buf ++ text.
Proof.
  intros H. unfold snprintf_at. rewrite (proj2 (Nat.ltb_ge _ pos)) by lia.
  destruct (Nat.eqb_spec (length buf - pos) 0) as [|_]; [lia|].
  rewrite (take_ge text) by lia. eexists. split; [done|].
  assert (length (take pos buf) = pos) as Hp by (rewrite length_take; lia).
  split.
  - rewrite !length_app, Hp, length_drop. cbn [length]. lia.
  - rewrite <- (app_assoc text), app_assoc. apply take_app_length'. rewrite length_app, Hp. done.
Qed.

Lemma write_lines_fits {S} old new L : clean_name new -> forall buf pos (s : S),
  (pos + length (joined (new_lines old new L)) < length buf)%nat ->
  exists buf', write_lines old new L (buf, pos) s =
      Ret (buf', (pos + length (joined (new_lines old new L)))%nat) s /\
    length buf' = length buf /\
    take (pos + length (joined (new_lines old new L))) buf' = take pos buf ++ joined (new_lines old new L).
Proof.
  intros Hn. induction L as [|line L IH]; intros buf pos s H; cbn [write_lines].
  { exists buf. change (joined (new_lines old new [])) with (@nil Z). cbn [length].
    by rewrite Nat.add_0_r, app_nil_r. }
  pose proof (new_lines_cons old new line L Hn) as E. destruct (new_line old new line) as [text|]; rewrite E in *.
  - rewrite length_app in *. destruct (snprintf_at_fits text buf pos s) as (b1 & W1 & L1 & T1); [lia|].
    rewrite (bind_Ret _ _ _ _ _ W1).
    destruct (IH b1 (pos + length text)%nat s) as (b2 & W2 & L2 & T2); [lia|].
    exists b2. rewrite Nat.add_assoc. split; [done|]. split; [lia|]. by rewrite T2, T1, app_assoc.
  - rewrite bind_ret_l. by apply IH.
Qed.

(** ** The file *)
Lemma read_range_at {S} (pre x post : list Z) (s : S) :
  read_range (pre ++ x ++ post) (Z.of_nat (length pre)) (Z.of_nat (length x)) s = Ret x s.
Proof. by apply read_range_app. Qed.
Lemma length_le32 z : length (le32 z) = 4%nat.
Proof. done. Qed.
Lemma of_le32_le32 z : 0 <= z < 2 ^ 32 -> of_le32 (le32 z) = z.
Proof.
  intros Hz. unfold le32, u8. cbn [map seq of_le32]. rewrite !shiftr_div by lia.
  change (2 ^ (8 * Z.of_nat 0)) with 1. change (2 ^ (8 * Z.of_nat 1)) with 256.
  change (2 ^ (8 * Z.of_nat 2)) with 65536. change (2 ^ (8 * Z.of_nat 3)) with 16777216.
  change (2 ^ 32) with 4294967296 in Hz. Z.div_mod_to_equations. lia.
Qed.
Definition meta_ok (m : MetaPassStruct) : Prop :=
  0 <= hashSize m < 2 ^ 32 /\ 0 <= ivSize m < 2 ^ 32 /\ 0 <= dataSize m < 2 ^ 32 /\
  0 <= padSize m < 2 ^ 32 /\ 0 <= macSize m < 2 ^ 32.
Lemma length_meta m : length (meta_bytes m) = 32%nat.
Proof. done. Qed.
Lemma size_at_app {S} (pre post : list Z) z (s : S) off : 0 <= z < 2 ^ 32 -> off = Z.of_nat (length pre) ->
  size_at (pre ++ le32 z ++ post) off s = Ret z s.
Proof.
  intros Hz ->. unfold size_at. change 4 with (Z.of_nat (length (le32 z))).
  rewrite (bind_Ret _ _ _ _ _ (read_range_at pre (le32 z) post s)). by rewrite of_le32_le32.
Qed.
Lemma read_meta_bytes {S} m rest (s : S) : meta_ok m -> read_meta (meta_bytes m ++ rest) s = Ret m s.
Proof.
  intros (H1 & H2 & H3 & H4 & H5). unfold read_meta, meta_bytes. rewrite <- !app_assoc.
  set (a := META_PASSWD_SIG). set (b := [0; 0]).
  rewrite (app_assoc a b). rewrite (bind_Ret _ _ _ _ _ (size_at_app (a ++ b) _ _ s 12 H1 eq_refl)).
  rewrite (app_assoc (a ++ b)).
  rewrite (bind_Ret _ _ _ _ _ (size_at_app ((a ++ b) ++ le32 (hashSize m)) _ _ s 16 H2 eq_refl)).
  rewrite (app_assoc ((a ++ b) ++ le32 (hashSize m))).
  rewrite (bind_Ret _ _ _ _ _ (size_at_app (((a ++ b) ++ le32 (hashSize m)) ++ le32 (ivSize m)) _ _ s 20 H3 eq_refl)).
  rewrite (app_assoc (((a ++ b) ++ le32 (hashSize m)) ++ le32 (ivSize m))).
  rewrite (bind_Ret _ _ _ _ _ (size_at_app ((((a ++ b) ++ le32 (hashSize m)) ++ le32 (ivSize m)) ++ le32 (dataSize m)) _ _ s 24 H4 eq_refl)).
  rewrite (app_assoc ((((a ++ b) ++ le32 (hashSize m)) ++ le32 (ivSize m)) ++ le32 (dataSize m))).
  rewrite (bind_Ret _ _ _ _ _ (size_at_app (((((a ++ b) ++ le32 (hashSize m)) ++ le32 (ivSize m)) ++ le32 (dataSize m)) ++ le32 (padSize m)) _ _ s 28 H5 eq_refl)).
  by destruct m.
Qed.
Lemma signature_ok {S} m rest (s : S) : strncmp_sig 0 (meta_bytes m ++ rest) META_PASSWD_SIG s = Ret true s.
Proof. reflexivity. Qed.

Section Crypto.
Context {C : Crypto} {CL : CryptoLaws C} {P : PaddedCrypto} {PL : PaddedLaws P}.

(** The state after a new file was put in place. *)
Definition with_file (file : list Z) (s : PasswdState) : PasswdState :=
  s <| passwdFile := Some (clock s, file) |>.

Lemma decryptData_spec {S} key pre iv mid outBytes post mac x (s : S) :
  length iv = 16%nat -> length outBytes <> 0%nat -> length mac = 32%nat ->
  HMAC SHA256 key outBytes = Some mac -> evp_decrypt (cipher_key key) iv outBytes = Some x ->
  mid = pre ++ iv ->
  decryptData key (mid ++ outBytes ++ mac ++ post) (Z.of_nat (length pre)) 16 (Z.of_nat (length mid))
    (Z.of_nat (length outBytes)) (Z.of_nat (length mid) + Z.of_nat (length outBytes)) 32 s = Ret (inr x) s.
Proof.
  intros Hiv Ho Hm Hh Hd Emid. unfold decryptData.
  destruct (Z.eqb_spec (Z.of_nat (length outBytes)) 0) as [|_]; [lia|].
  change (false || (16 <? Z.of_nat AES_BLOCK)) with false. cbn iota.
  rewrite (bind_Ret _ _ _ _ _ (read_range_at mid outBytes (mac ++ post) s)), Hh, Hm.
  assert (read_range (mid ++ outBytes ++ mac ++ post) (Z.of_nat (length mid) + Z.of_nat (length outBytes)) 32 s = Ret mac s) as Rm.
  { rewrite app_assoc, <- Nat2Z.inj_add, <- length_app. change 32 with (Z.of_nat 32). rewrite <- Hm. apply read_range_at. }
  assert (read_range (mid ++ outBytes ++ mac ++ post) (Z.of_nat (length pre)) (Z.of_nat AES_BLOCK) s = Ret iv s) as Ri.
  { rewrite Emid, <- app_assoc. unfold AES_BLOCK. rewrite <- Hiv. apply read_range_at. }
  change (Z.of_nat 32 =? 32) with true. cbn iota. unfold bind. rewrite Rm. cbn [ret].
  rewrite bool_decide_eq_true_2 by done. cbn [negb]. by rewrite Ri, Hd.
Qed.

(** The encrypted data and the MAC of a new file. *)
Lemma encrypted_cases key iv inBytes junk outBytes mac :
  (if (length inBytes =? 0)%nat then inr ([], junk) else encryptData key iv inBytes) = inr (outBytes, mac) ->
  (length inBytes = 0 /\ outBytes = [] /\ mac = junk)%nat \/
  (length inBytes <> 0 /\ length inBytes <= length outBytes <= length inBytes + 16 /\ length mac = 32 /\
   evp_encrypt (cipher_key key) iv inBytes = Some outBytes /\ HMAC SHA256 key outBytes = Some mac)%nat.
Proof.
  intros Er. destruct (Nat.eqb_spec (length inBytes) 0) as [E|E]; [left; by injection Er as <- <-|right].
  unfold encryptData in Er. rewrite (proj2 (Nat.eqb_neq _ _) E) in Er.
  destruct (evp_encrypt _ iv inBytes) as [o|] eqn:Ee; [|done].
  destruct (HMAC SHA256 key o) as [m|] eqn:Hm; [|done]. injection Er as <- <-.
  split; [done|]. split; [by eapply evp_encrypt_length|]. split; [by apply HMAC_length in Hm|done].
Qed.

(** What is written is read back. *)
Lemma new_file_read keyBuff inBytes s file s1 : bytes inBytes -> Z.of_nat (length inBytes) + 16 < 2 ^ 32 ->
  Z.of_nat (length (macBytes s)) < 2 ^ 32 ->
  read_key s = Ret (Some keyBuff) s -> new_file keyBuff inBytes s = Ret (inr file) s1 ->
  forall s2, keyFile s2 = keyFile s -> (exists t, passwdFile s2 = Some (t, file)) ->
  readPasswdFileData s2 = Ret (inr inBytes) s2.
Proof.
  intros Hb Hlen Hmac Hk Hnew s2 Ek [t Ef]. unfold new_file in Hnew. cbn [bind get modify] in Hnew.
  destruct (RAND_bytes (randoms s) SHA256_BLOCK) as [hash|] eqn:R1; [|done].
  destruct (HMAC SHA256 keyBuff hash) as [key|] eqn:H1; [|done].
  destruct (RAND_bytes (randoms s + 1) AES_BLOCK) as [iv|] eqn:R2; [|done].
  apply RAND_length in R1, R2.
  assert (read_key s2 = Ret (Some keyBuff) s2) as Hk2.
  { revert Hk. unfold read_key, bind, get, ret. rewrite Ek. intros E.
    apply (f_equal (fun o => match o with Ret a _ => a | _ => None end)) in E. by rewrite E. }
  unfold readPasswdFileData. rewrite (bind_Ret _ _ _ _ _ Hk2), (bind_Ret get _ s2 s2 s2), Ef by done.
  destruct (if (length inBytes =? 0)%nat then _ else _) as [e|[outBytes mac]] eqn:Er; [done|].
  set (meta := {| hashSize := _; ivSize := _; dataSize := _; padSize := _; macSize := _ |}) in Hnew.
  assert (file = meta_bytes meta ++ hash ++ iv ++ outBytes ++ mac) as ->
    by (unfold ret in Hnew; congruence).
  clear Hnew.
  rewrite (bind_Ret _ _ _ _ _ (signature_ok meta _ s2)). cbn [negb].
  pose proof (encrypted_cases _ _ _ _ _ _ Er) as Hcase.
  assert (u32 (Z.of_nat (length outBytes) - Z.of_nat (length inBytes)) =
          Z.of_nat (length outBytes) - Z.of_nat (length inBytes)) as Epad
    by (unfold u32; apply Z.mod_small; destruct Hcase as [(? & -> & _)|(? & ? & _)]; cbn [length]; lia).
  assert (meta_ok meta) as Hmeta.
  { unfold meta_ok, meta. cbn [hashSize ivSize dataSize padSize macSize]. rewrite Epad.
    unfold SHA256_BLOCK, AES_BLOCK.
    destruct Hcase as [(? & -> & ->)|(? & ? & ? & _)]; cbn [length]; change (2 ^ 32) with 4294967296 in *; lia. }
  rewrite (bind_Ret _ _ _ _ _ (read_meta_bytes meta _ s2 Hmeta)).
  assert (u32 (dataSize meta + padSize meta) = Z.of_nat (length outBytes)) as ->.
  { unfold meta. cbn [dataSize padSize]. rewrite Epad. unfold u32. rewrite Z.mod_small; [lia|].
    destruct Hcase as [(? & -> & _)|(? & ? & _)]; cbn [length]; lia. }
  destruct Hcase as [(E & -> & _)|(E & Hl & Hm & Ee & Hh)].
  { cbn. by apply nil_length_inv in E as ->. }
  destruct (Z.eqb_spec (Z.of_nat (length outBytes)) 0) as [|_]; [lia|].
  change sizeof_meta with (Z.of_nat (length (meta_bytes meta))).
  assert (hashSize meta = Z.of_nat (length hash)) as Eh by (rewrite R1; done).
  rewrite Eh, (bind_Ret _ _ _ _ _ (read_range_at (meta_bytes meta) hash _ s2)), H1.
  rewrite <- Nat2Z.inj_add, <- length_app. set (pre := meta_bytes meta ++ hash).
  assert (decryptData key ((pre ++ iv) ++ outBytes ++ mac ++ []) (Z.of_nat (length pre)) 16
    (Z.of_nat (length (pre ++ iv))) (Z.of_nat (length outBytes))
    (Z.of_nat (length (pre ++ iv)) + Z.of_nat (length outBytes)) 32 s2 = Ret (inr inBytes) s2) as D.
  { apply (decryptData_spec key pre iv); auto; [lia|]. by apply (evp_decrypt_encrypt _ _ _ _ Hb). }
  change (ivSize meta) with 16. change (macSize meta) with (Z.of_nat (length mac)). rewrite Hm.
  rewrite app_nil_r, length_app, R2, Nat2Z.inj_add in D.
  assert ((pre ++ iv) ++ outBytes ++ mac = meta_bytes meta ++ hash ++ iv ++ outBytes ++ mac) as Ein
    by (unfold pre; by rewrite <- !app_assoc).
  rewrite Ein in D. rewrite (bind_Ret _ _ _ _ _ D). done.
Qed.

(** OpenSSL does not fail. *)
Definition openssl_works : Prop :=
  (forall k n, is_Some (RAND_bytes k n)) /\ (forall k x, is_Some (HMAC SHA256 k x)) /\
  (forall k iv x, is_Some (evp_encrypt k iv x)).
Lemma new_file_total keyBuff inBytes s : openssl_works ->
  exists file, new_file keyBuff inBytes s = Ret (inr file) (s <| randoms := (randoms s + 2)%nat |>).
Proof.
  intros (R & H & E). unfold new_file. cbn [bind get modify].
  destruct (R (randoms s) SHA256_BLOCK) as [hash ->]. destruct (H keyBuff hash) as [key ->].
  destruct (R (randoms s + 1)%nat AES_BLOCK) as [iv ->].
  destruct (Nat.eqb_spec (length inBytes) 0) as [|Hn]; [by eexists|].
  unfold encryptData. rewrite (proj2 (Nat.eqb_neq _ _) Hn).
  destruct (E (cipher_key key) iv inBytes) as [o ->]. destruct (H key o) as [m ->]. by eexists.
Qed.

(** A file that the manager can read and replace. *)
Record file_good (s : PasswdState) (data : list Z) : Prop := {
  fg_read : forall s2, keyFile s2 = keyFile s -> passwdFile s2 = passwdFile s ->
            readPasswdFileData s2 = Ret (inr data) s2;
  fg_key : exists k, read_key s = Ret (Some k) s;
  fg_tmp : tmpFails s = false;
  fg_data : bytes data;
  fg_mac : Z.of_nat (length (macBytes s)) < 2 ^ 32 }.

Definition has_entry (name : list Z) (data : list Z) : bool := existsb (is_entry_of name) (lines data).

(** How much longer the text gets. *)
Definition growth (old new data : list Z) : Prop :=
  (length (joined (new_lines old new (lines data))) < length data + length new + 16)%nat.

Lemma update_file s old new data : openssl_works -> file_good s data -> clean_name new ->
  growth old new data -> Z.of_nat (length data + length new) + 32 < 2 ^ 32 -> has_entry old data = true ->
  exists s' data', updatePasswdSpecialFile old new s = Ret 0 s' /\
    s' = s <| randoms := randoms s' |> <| passwdFile := passwdFile s' |> /\
    (exists file, passwdFile s' = Some (clock s, file)) /\
    file_good s' data' /\ entries data' = rename_entries old new (entries data) /\
    data' = joined (new_lines old new (lines data)).
Proof.
  intros Ho [Hr [k Hk] Ht Hb Hm] Hn Hg Hsz He. unfold updatePasswdSpecialFile.
  rewrite (bind_Ret _ _ _ _ _ (Hr s eq_refl eq_refl)).
  assert (length data <> 0)%nat as Hd by (intros E; apply nil_length_inv in E; subst data; done).
  rewrite (proj2 (Nat.eqb_neq _ _) Hd). set (size := (length data + length new + AES_BLOCK)%nat).
  set (text := joined (new_lines old new (lines data))).
  destruct (write_lines_fits old new (lines data) Hn (replicate size 0) 0%nat s) as (buf & W & L & T).
  { rewrite length_replicate. exact Hg. }
  rewrite (bind_Ret _ _ _ _ _ W). fold text in T |- *. cbn [Nat.add] in T |- *.
  change (existsb (is_entry_of old) (lines data)) with (has_entry old data). rewrite He. cbn [negb].
  rewrite (bind_Ret _ _ _ _ _ Hk), (bind_Ret get _ s s s), Ht by done.
  rewrite length_replicate in L. unfold growth in Hg. fold text in Hg.
  assert (read_range (buf ++ [0]) 0 (Z.of_nat (length text)) s = Ret text s) as Rr.
  { rewrite <- (take_drop (length text) buf), T, <- app_assoc. cbn [take app]. apply (read_range_at []). }
  rewrite (bind_Ret _ _ _ _ _ Rr). destruct (new_file_total k text s Ho) as [file Ef].
  rewrite (bind_Ret _ _ _ _ _ Ef). set (s1 := s <| randoms := _ |>).
  exists (s1 <| passwdFile := Some (clock s, file) |>), text.
  split; [done|]. split; [done|]. split; [by eexists|].
  assert (bytes text) as Htb.
  { apply joined_bytes, new_lines_bytes; [done|]. apply tokens_bytes; [by apply Forall_nil|by apply c_str_bytes]. }
  split.
  - constructor; [| |exact Ht|exact Htb|exact Hm].
    + intros s2 E1 E2. apply (new_file_read k text s file s1 Htb); [lia|exact Hm|exact Hk|exact Ef|done|].
      exists (clock s). by rewrite E2.
    + exists k. revert Hk. unfold read_key, bind, get, ret. intros E.
      apply (f_equal (fun o => match o with Ret a _ => a | _ => None end)) in E.
      exact (f_equal (fun a => Ret a _) E).
  - split; [|done]. unfold entries, text. rewrite lines_joined by (apply new_lines_plain; [done|apply lines_plain]).
    by rewrite new_lines_entries.
Qed.

(** The renamed text of at most one entry of this user is longer by at most the
    new name, so it always fits. *)
Lemma length_new_lines old new data : clean_name new -> NoDup (map fst (entries data)) ->
  (length (joined (new_lines old new (lines data))) <= length (joined (lines data)) + length new)%nat.
Proof.
  intros Hn Hd. revert Hd. unfold entries. induction (lines data) as [|line L IH]; intros Hd; [cbn; lia|].
  pose proof (new_lines_cons old new line L Hn) as E. rewrite new_line_entry in E by done.
  change (joined (line :: L)) with ((line ++ [10]) ++ joined L). rewrite !length_app. cbn [omap list_omap] in Hd.
  destruct (split_colon line) as [[name pw]|] eqn:Es; [|rewrite E; specialize (IH Hd); cbn [length]; lia].
  apply split_colon_spec in Es as [-> _]. cbn [map] in Hd. apply NoDup_cons in Hd as [Hnin Hd].
  unfold rename_entry in E. cbn [fst snd] in E, Hnin. destruct (bool_decide_reflect (old = name)) as [->|Hne].
  - assert (new_lines name new L = map line_of (omap split_colon L)) as Erest.
    { unfold new_lines, rename_entries. f_equal. clear -Hnin. induction (omap split_colon L) as [|e es IH]; [done|].
      cbn [map] in Hnin. cbn [omap list_omap]. unfold rename_entry at 1. rewrite bool_decide_eq_false_2 by set_solver.
      by rewrite IH by set_solver. }
    assert (length (joined (map line_of (omap split_colon L))) <= length (joined L))%nat as Hle.
    { clear. induction L as [|line L IH]; [done|]. cbn [omap list_omap].
      change (joined (line :: L)) with ((line ++ [10]) ++ joined L). rewrite length_app.
      destruct (split_colon line) as [[n p]|] eqn:Es; [|lia]. apply split_colon_spec in Es as [-> _]. cbn [map].
      change (joined (?x :: ?l)) with ((x ++ [10]) ++ joined l). rewrite length_app. unfold line_of at 1. cbn [fst snd]. lia. }
    destruct new as [|c new].
    + rewrite E, Erest, !length_app. cbn [length]. lia.
    + rewrite E, Erest, !length_app. unfold line_of at 1. cbn [fst snd]. rewrite length_app. cbn [length]. lia.
  - rewrite E, !length_app. unfold line_of at 1. cbn [fst snd]. rewrite length_app. specialize (IH Hd). lia.
Qed.
Lemma growth_single old new data : clean_name new -> NoDup (map fst (entries data)) -> growth old new data.
Proof.
  intros Hn Hd. unfold growth. pose proof (length_lines data). pose proof (length_new_lines old new data Hn Hd).
  unfold AES_BLOCK in *. lia.
Qed.

(** ** The passwords in memory *)
Definition passwords (data : list Z) : gmap (list Z) (list Z) := foldl emplace ∅ (entries data).

Lemma foldl_emplace es : forall m n p, NoDup (map fst es) -> (forall e, e ∈ es -> m !! fst e = None) ->
  foldl emplace m es !! n = Some p <-> m !! n = Some p \/ (n, p) ∈ es.
Proof.
  induction es as [|[n1 p1] es IH]; intros m n p Hd Hm; cbn [foldl]; [set_solver|].
  cbn [map fst] in Hd. apply NoDup_cons in Hd as [Hn Hd].
  pose proof (Hm (n1, p1) ltac:(by left)) as H1. cbn [fst] in H1.
  assert (emplace m (n1, p1) = <[n1 := p1]> m) as -> by (unfold emplace; cbn [fst snd]; by rewrite H1).
  rewrite IH; [|done|].
  - rewrite lookup_insert_Some, elem_of_cons. split.
    + intros [[[-> ->]|[? ?]]|?]; auto.
    + intros [H|[H|?]]; [|injection H as -> ->; auto|auto].
      left. right. split; [|done]. intros ->. congruence.
  - intros e He. rewrite lookup_insert_ne; [apply Hm; by right|]. intros ->. apply Hn.
    apply list_elem_of_fmap. by exists e.
Qed.
Lemma passwords_lookup data n p : NoDup (map fst (entries data)) ->
  passwords data !! n = Some p <-> (n, p) ∈ entries data.
Proof.
  intros Hd. unfold passwords. rewrite foldl_emplace; [|done|intros; apply lookup_empty].
  split; [intros [H|H]; [by rewrite lookup_empty in H|done]|by right].
Qed.

(** What the map in memory holds when it is in step with the file. *)
Definition loaded (s : PasswdState) (data : list Z) : Prop :=
  forall t file, passwdFile s = Some (t, file) -> fileLastUpdatedTime s = t -> passwdMapList s = passwords data.

Lemma file_time s t file : passwdFile s = Some (t, file) -> getUpdatedFileTime s = Ret t s.
Proof. intros E. unfold getUpdatedFileTime. rewrite (bind_Ret get _ s s s) by done. by rewrite E. Qed.

Lemma reloads_password s data t file user :
  (forall s2, keyFile s2 = keyFile s -> passwdFile s2 = passwdFile s -> readPasswdFileData s2 = Ret (inr data) s2) -> passwdFile s = Some (t, file) ->
  fileLastUpdatedTime s <> t -> t <> -1 ->
  exists s', getPasswdByUserName user s = Ret (default [] (passwords data !! user)) s' /\
    passwdMapList s' = passwords data.
Proof.
  intros Hr Ef Hne Ht.
  set (s1 := s <| passwdMapList := ∅ |>).
  set (s2 := s1 <| passwdMapList := passwords data |>).
  assert (initPasswordMap s1 = Ret tt (s2 <| fileLastUpdatedTime := t |>)) as Ei.
  { unfold initPasswordMap. rewrite (bind_Ret _ _ _ _ _ (Hr s1 eq_refl eq_refl)).
    rewrite (bind_Ret (modify _) _ s1 tt s2) by done. by rewrite (bind_Ret _ _ _ _ _ (file_time s2 t file Ef)). }
  exists (s2 <| fileLastUpdatedTime := t |>). split; [|done].
  assert (checkAndReload s = Ret tt (s2 <| fileLastUpdatedTime := t |>)) as Ec.
  { unfold checkAndReload. rewrite (bind_Ret _ _ _ _ _ (file_time s t file Ef)), (bind_Ret get _ s s s) by done.
    rewrite (proj2 (Z.eqb_neq _ _) Hne), (proj2 (Z.eqb_neq _ _) Ht). cbn [negb andb].
    by rewrite (bind_Ret (modify _) _ s tt s1). }
  unfold getPasswdByUserName. by rewrite (bind_Ret _ _ _ _ _ Ec).
Qed.
Lemma getPasswd_reloads s data t file user : file_good s data -> passwdFile s = Some (t, file) ->
  fileLastUpdatedTime s <> t -> t <> -1 ->
  exists s', getPasswdByUserName user s = Ret (default [] (passwords data !! user)) s' /\
    passwdMapList s' = passwords data.
Proof. intros [Hr _ _ _ _]. by apply reloads_password. Qed.

Lemma rename_entries_In old new es n p : (n, p) ∈ rename_entries old new es <->
  exists n0, (n0, p) ∈ es /\ ((n0 = old /\ new <> [] /\ n = new) \/ (n0 <> old /\ n = n0)).
Proof.
  unfold rename_entries. rewrite list_elem_of_omap. split.
  - intros ([n0 p0] & He & R). unfold rename_entry in R. cbn [fst snd] in R.
    destruct (bool_decide_reflect (old = n0)) as [->|Hne].
    + destruct new; [done|]. injection R as <- <-. exists n0. split; [done|]. left. by split_and!.
    + injection R as <- <-. exists n0. split; [done|]. right. split; [congruence|done].
  - intros (n0 & He & H). exists (n0, p). split; [done|]. unfold rename_entry. cbn [fst snd].
    destruct H as [(-> & Hn & ->)|[Hne ->]].
    + rewrite bool_decide_eq_true_2 by done. by destruct new.
    + rewrite bool_decide_eq_false_2 by congruence. done.
Qed.
Lemma rename_entries_NoDup old new es : NoDup (map fst es) -> (new <> [] -> new ∉ map fst es) -> NoDup (map fst (rename_entries old new es)).
Proof.
  intros Hd Hn. induction es as [|[n p] es IH]; [constructor|]. cbn [map fst] in *.
  apply NoDup_cons in Hd as [Hn1 Hd]. assert (new <> [] -> new ∉ map fst es) as Hn2 by set_solver.
  specialize (IH Hd Hn2). unfold rename_entries in *. cbn [omap list_omap].
  unfold rename_entry at 1. cbn [fst snd]. destruct (bool_decide_reflect (old = n)) as [->|Hne].
  - destruct new as [|c new]; [done|]. cbn [map fst]. apply NoDup_cons. split; [|done].
    intros H. apply list_elem_of_fmap in H as ([n' p'] & E & H). cbn [fst] in E. subst n'.
    apply rename_entries_In in H as (n0 & He & [(-> & _)|[_ <-]]).
    + apply Hn1, list_elem_of_fmap. by exists (n, p').
    + apply (Hn2 ltac:(done)), list_elem_of_fmap. by exists (c :: new, p').
  - cbn [map fst]. apply NoDup_cons. split; [|done].
    intros H. apply list_elem_of_fmap in H as ([n' p'] & E & H). cbn [fst] in E. subst n'.
    apply rename_entries_In in H as (n0 & He & [(-> & Hw & ->)|[_ <-]]).
    + apply (Hn Hw). by left.
    + apply Hn1, list_elem_of_fmap. by exists (n, p').
Qed.

(** The password a user has after a rename or a removal. *)
Definition renamed_password (old new : list Z) (data user : list Z) : list Z :=
  if bool_decide (user = new /\ new <> []) then default [] (passwords data !! old)
  else if bool_decide (user = old) then []
  else default [] (passwords data !! user).

Lemma renamed_lookup old new data data' user : NoDup (map fst (entries data)) ->
  (new <> [] -> new ∉ map fst (entries data)) ->
  entries data' = rename_entries old new (entries data) ->
  default [] (passwords data' !! user) = renamed_password old new data user.
Proof.
  intros Hd Hn E. assert (NoDup (map fst (entries data'))) as Hd' by (rewrite E; by apply rename_entries_NoDup).
  assert (forall p, passwords data' !! user = Some p <->
    exists n0, (n0, p) ∈ entries data /\ ((n0 = old /\ new <> [] /\ user = new) \/ (n0 <> old /\ user = n0))) as H.
  { intros p. rewrite passwords_lookup by done. by rewrite E, rename_entries_In. }
  assert (new <> [] -> passwords data !! new = None) as Hnew.
  { intros Hne. apply eq_None_not_Some. intros [p Hp]. apply passwords_lookup in Hp; [|done].
    apply (Hn Hne), list_elem_of_fmap. by exists (new, p). }
  unfold renamed_password. case_bool_decide as H1; [destruct H1 as [-> H1]|case_bool_decide as H2; [subst user|]].
  - f_equal. apply option_eq. intros p. rewrite H, passwords_lookup by done. split.
    + intros (n0 & He & [(-> & _)|[_ ->]]); [done|]. exfalso. apply (Hn H1), list_elem_of_fmap. by exists (n0, p).
    + intros He. exists old. auto.
  - assert (passwords data' !! old = None) as ->; [|done]. apply eq_None_not_Some. intros [p Hp].
    apply H in Hp as (n0 & He & [(-> & Hne & E2)|[Hne E2]]); [by apply H1|congruence].
  - f_equal. apply option_eq. intros p. rewrite H, passwords_lookup by done. split.
    + intros (n0 & He & [(-> & Hne & ->)|[_ ->]]); [by destruct H1|done].
    + intros He. exists user. auto.
Qed.

Lemma has_entry_In old data : has_entry old data = true -> exists p, (old, p) ∈ entries data.
Proof.
  unfold has_entry, entries. rewrite existsb_exists. intros (line & Hin & H). unfold is_entry_of in H.
  destruct (split_colon line) as [[n p]|] eqn:E; [|done]. apply bool_decide_eq_true in H as ->.
  exists p. apply list_elem_of_omap. exists line. split; [by apply list_elem_of_In|done].
Qed.
Lemma no_entry_In old data : has_entry old data = false -> old ∉ map fst (entries data).
Proof.
  intros H Hin. apply list_elem_of_fmap in Hin as ([n p] & -> & Hin).
  apply list_elem_of_omap in Hin as (line & Hl & E). apply not_true_iff_false in H. apply H.
  apply existsb_exists. exists line. split; [by apply list_elem_of_In|]. unfold is_entry_of. rewrite E.
  by apply bool_decide_eq_true.
Qed.
Lemma rename_entries_absent old new es : old ∉ map fst es -> rename_entries old new es = es.
Proof.
  induction es as [|e es IH]; intros H; [done|]. cbn [map] in H. unfold rename_entries. cbn [omap list_omap].
  unfold rename_entry at 1. rewrite bool_decide_eq_false_2 by set_solver. f_equal. apply IH. set_solver.
Qed.
(** In step with the file, the manager knows the user. *)
Lemma update_goes_on s data old : loaded s data -> NoDup (map fst (entries data)) -> has_entry old data = true ->
  forall t, getUpdatedFileTime s = Ret t s ->
  (fileLastUpdatedTime s =? t) && negb (t =? - EIO) && bool_decide (passwdMapList s !! old = None) = false.
Proof.
  intros Hl Hd He t Et. destruct (Z.eqb_spec (fileLastUpdatedTime s) t) as [E|]; [|done].
  destruct (Z.eqb_spec t (- EIO)) as [|Hne]; [done|]. cbn [andb negb]. apply bool_decide_eq_false. intros Hnone.
  unfold getUpdatedFileTime in Et. rewrite (bind_Ret get _ s s s) in Et by done.
  destruct (passwdFile s) as [[t' file]|] eqn:Ef; [|unfold ret in Et; congruence].
  assert (t' = t) as -> by (unfold ret in Et; congruence).
  destruct (has_entry_In old data He) as [p Hp]. apply passwords_lookup in Hp; [|done].
  rewrite (Hl t file Ef E) in Hnone. congruence.
Qed.

(** A manager that can load and replace its file, in step with it, whose clock
    does not stand at the second of the last load. *)
Record passwords_ready (s : PasswdState) (data : list Z) : Prop := {
  pr_openssl : openssl_works;
  pr_file : file_good s data;
  pr_there : exists t file, passwdFile s = Some (t, file) /\ t <> -1;
  pr_loaded : loaded s data;
  pr_distinct : NoDup (map fst (entries data));
  pr_clock : clock s <> fileLastUpdatedTime s /\ clock s <> -1 }.

Lemma getPasswd_ready s data user : passwords_ready s data ->
  exists s', getPasswdByUserName user s = Ret (default [] (passwords data !! user)) s'.
Proof.
  intros [_ Hf (t & file & Ef & Ht) Hl _ _]. destruct (Z.eq_dec (fileLastUpdatedTime s) t) as [E|Hne].
  - exists s. unfold getPasswdByUserName, checkAndReload.
    rewrite (bind_Ret _ _ s tt s).
    + rewrite (bind_Ret get _ s s s) by done. by rewrite (Hl t file Ef E).
    + rewrite (bind_Ret _ _ _ _ _ (file_time s t file Ef)), (bind_Ret get _ s s s) by done.
      by rewrite E, Z.eqb_refl.
  - destruct (getPasswd_reloads s data t file user Hf Ef Hne Ht) as (s' & G & _). by exists s'.
Qed.

(** Without an entry for the user nothing is written. *)
Lemma update_no_entry s data old new : file_good s data -> clean_name new -> growth old new data ->
  has_entry old data = false -> updateUserEntry old new s = Ret 0 s.
Proof.
  intros [Hr _ _ _ _] Hn Hg He. unfold updateUserEntry.
  assert (exists t, getUpdatedFileTime s = Ret t s) as [t Et] by by eexists.
  rewrite (bind_Ret _ _ _ _ _ Et), (bind_Ret get _ s s s) by done. destruct (_ && _); [done|].
  rewrite (bind_Ret _ _ s 0 s); [done|]. unfold updatePasswdSpecialFile.
  rewrite (bind_Ret _ _ _ _ _ (Hr s eq_refl eq_refl)).
  change (existsb (is_entry_of old) (lines data)) with (has_entry old data). rewrite He.
  destruct (Nat.eqb_spec (length data) 0) as [E|Hd].
  { apply nil_length_inv in E. subst data. done. }
  destruct (write_lines_fits old new (lines data) Hn (replicate (length data + length new + AES_BLOCK) 0) 0%nat s)
    as (buf & W & _); [by rewrite length_replicate|].
  by rewrite (bind_Ret _ _ _ _ _ W).
Qed.

(** When the manager renames a user, or removes it (renames it to nothing), the
    new name gets exactly the old password, the old name has none any more, and
    every other user keeps its own, also for a manager that is started later:
    the file is decrypted, the one line is rewritten within the buffer,
    encrypted and put in place, and the next question for a password reads it
    again. *)
Lemma passwords_renamed s data old new : passwords_ready s data ->
  Z.of_nat (length data + length new) + 32 < 2 ^ 32 -> clean_name new ->
  (new <> [] -> new ∉ map fst (entries data)) ->
  exists s', updateUserEntry old new s = Ret 0 s' /\
    (exists data', file_good s' data' /\ entries data' = rename_entries old new (entries data)) /\
    (exists t file, passwdFile s' = Some (t, file) /\ t <> -1) /\
    forall user, exists s'', getPasswdByUserName user s' = Ret (renamed_password old new data user) s''.
Proof.
  intros Hpr Hsz Hn Hnew. pose proof Hpr as [Ho Hg _ Hl Hd [Hc Hc1]].
  pose proof (growth_single old new data Hn Hd) as Hgr.
  destruct (has_entry old data) eqn:He.
  - destruct (update_file s old new data Ho Hg Hn) as (s' & data' & U & Es & [file Ef] & Hg' & Ee & _); auto.
    exists s'. split; [|split; [|split]].
    + unfold updateUserEntry. assert (exists t, getUpdatedFileTime s = Ret t s) as [t Et] by by eexists.
      rewrite (bind_Ret _ _ _ _ _ Et), (bind_Ret get _ s s s) by done.
      rewrite (update_goes_on s data old Hl Hd He t Et). by rewrite (bind_Ret _ _ _ _ _ U).
    + by exists data'.
    + by exists (clock s), file.
    + intros user. destruct (getPasswd_reloads s' data' (clock s) file user Hg' Ef) as (s'' & G & _).
      * rewrite Es. cbn. congruence.
      * done.
      * exists s''. by rewrite G, (renamed_lookup old new data).
  - pose proof (no_entry_In old data He) as Hno. exists s. split; [by eapply update_no_entry|]. split; [|split].
    + exists data. split; [done|]. by rewrite rename_entries_absent.
    + exact (pr_there _ _ Hpr).
    + intros user. destruct (getPasswd_ready s data user Hpr) as [s' G]. exists s'. rewrite G.
      by rewrite <- (renamed_lookup old new data data user Hd Hnew) by (by rewrite rename_entries_absent).
Qed.

(** Within the second of the last load the manager keeps the map it has: a
    removed user keeps its password. *)
Lemma stale_password s data old new : openssl_works -> file_good s data -> NoDup (map fst (entries data)) ->
  Z.of_nat (length data + length new) + 32 < 2 ^ 32 -> clean_name new -> has_entry old data = true ->
  passwdMapList s !! old <> None -> clock s = fileLastUpdatedTime s ->
  exists s', updateUserEntry old new s = Ret 0 s' /\
    getPasswdByUserName old s' = Ret (default [] (passwdMapList s !! old)) s'.
Proof.
  intros Ho Hg Hd Hsz Hn He Hm Hc.
  destruct (update_file s old new data Ho Hg Hn) as (s' & data' & U & Es & [file Ef] & Hg' & Ee & _); auto.
  { by apply growth_single. }
  exists s'. split.
  - unfold updateUserEntry. assert (exists t, getUpdatedFileTime s = Ret t s) as [t Et] by by eexists.
    rewrite (bind_Ret _ _ _ _ _ Et), (bind_Ret get _ s s s) by done.
    rewrite (bool_decide_eq_false_2 (passwdMapList s !! old = None)), andb_false_r by done.
    by rewrite (bind_Ret _ _ _ _ _ U).
  - unfold getPasswdByUserName, checkAndReload.
    assert (fileLastUpdatedTime s' = clock s) as E1 by (rewrite Es; done).
    assert (passwdMapList s' = passwdMapList s) as E2 by (rewrite Es; done).
    assert ((let! updatedTime := getUpdatedFileTime in
             let! s := get in
             if negb (fileLastUpdatedTime s =? updatedTime) && negb (updatedTime =? -1)
             then modify (fun s => s <| passwdMapList := ∅ |>) ;;; initPasswordMap
             else ret tt) s' = Ret tt s') as Ec.
    { rewrite (bind_Ret _ _ _ _ _ (file_time s' _ _ Ef)), (bind_Ret get _ s' s' s') by done.
      by rewrite E1, Z.eqb_refl. }
    rewrite (bind_Ret _ _ _ _ _ Ec). by rewrite (bind_Ret get _ s' s' s'), E2.
Qed.

(** ** What the manager promises its clients *)

(** In the states of [Ready] a user's password can be removed, always again. *)
Definition answers (old new : list Z) (p p' : PasswdState) : Prop := exists r, updateUserEntry old new p = Ret r p'.
Class PasswordService (Ready : PasswdState -> Prop) : Prop :=
  clear_answers : forall old p, Ready p -> exists p', answers old [] p p' /\ Ready p'.

(** Without a file. *)
Definition no_file (p : PasswdState) : Prop := passwdFile p = None.
#[export] Instance no_file_service : PasswordService no_file.
Proof.
  intros old p Hp. exists p. split; [|done]. assert (exists t, getUpdatedFileTime p = Ret t p) as [t Et] by by eexists.
  unfold answers, updateUserEntry. rewrite (bind_Ret _ _ _ _ _ Et), (bind_Ret get _ p p p) by done.
  destruct (_ && _); [by eexists|]. assert (readPasswdFileData p = Ret (inl (- EIO)) p) as R.
  { unfold readPasswdFileData. assert (exists k, read_key p = Ret k p) as [[k|] Ek] by by eexists.
    - rewrite (bind_Ret _ _ _ _ _ Ek), (bind_Ret get _ p p p), Hp by done. done.
    - by rewrite (bind_Ret _ _ _ _ _ Ek). }
  assert (updatePasswdSpecialFile old [] p = Ret (- EIO) p) as U
    by (unfold updatePasswdSpecialFile; by rewrite (bind_Ret _ _ _ _ _ R)).
  rewrite (bind_Ret _ _ _ _ _ U). by eexists.
Qed.

(** With a file it can read and replace. *)
Record file_ready (p : PasswdState) (data : list Z) : Prop := {
  fr_file : file_good p data;
  fr_distinct : NoDup (map fst (entries data));
  fr_size : Z.of_nat (length data) + 32 < 2 ^ 32;
  fr_lines : Z.of_nat (length (joined (lines data))) + 32 < 2 ^ 32 }.
Lemma clean_nil : clean_name [].
Proof. split_and!; [constructor|constructor|apply not_elem_of_nil]. Qed.
Lemma file_service : openssl_works -> PasswordService (fun p => exists data, file_ready p data).
Proof.
  intros Ho old p (data & [Hf Hd Hs Hl]). pose proof (growth_single old [] data clean_nil Hd) as Hg.
  destruct (has_entry old data) eqn:He.
  - destruct (update_file p old [] data Ho Hf clean_nil Hg) as (p' & data' & U & _ & _ & Hf' & Ee & Ed);
      [cbn [length]; lia|done|].
    unfold answers, updateUserEntry. assert (exists t, getUpdatedFileTime p = Ret t p) as [t Et] by by eexists.
    rewrite (bind_Ret _ _ _ _ _ Et), (bind_Ret get _ p p p) by done. destruct (_ && _); [exists p; eauto using Build_file_ready|].
    rewrite (bind_Ret _ _ _ _ _ U). exists p'. split; [by eexists|]. exists data'.
    pose proof (length_new_lines old [] data clean_nil Hd) as Hle. cbn [length] in Hle. rewrite <- Ed in Hle.
    constructor; [done|rewrite Ee; by apply rename_entries_NoDup|lia|]. rewrite Ed, lines_joined, <- Ed; [lia|].
    apply new_lines_plain; [apply clean_nil|apply lines_plain].
  - exists p. split; [exists 0; by eapply update_no_entry; [|apply clean_nil| |]|]. eauto using Build_file_ready.
Qed.
End Crypto.

(** ** A sample file *)
#[export] Instance sample_padded : PaddedCrypto := {|
  evp_encrypt key iv x := Some (xor_with key (x ++ [16]));
  evp_decrypt key iv x := Some (removelast (xor_with key x)) |}.
#[export] Instance sample_padded_laws : PaddedLaws sample_padded.
Proof.
  constructor; cbv [evp_encrypt evp_decrypt sample_padded].
  - intros ???? [= <-]. unfold xor_with, AES_BLOCK. rewrite length_map, length_app. cbn [length]. lia.
  - intros ???? [= <-]. apply map_u8_bytes.
  - intros ???? Hb [= <-]. rewrite xor_with_twice; [by rewrite removelast_last|].
    apply Forall_app. split; [done|]. apply Forall_singleton. unfold is_byte. lia.
Qed.
Lemma sample_openssl : openssl_works.
Proof. split_and!; intros; by eexists. Qed.

Definition sample_text : list Z := bytes_of_string "ann:pw1" ++ [10] ++ bytes_of_string "bob:secret" ++ [10].
Definition sample_key : list Z := [1; 2; 3; 4; 5; 6; 7; 8].
Definition empty_state : PasswdState :=
  {| keyFile := Some sample_key; passwdFile := None; clock := 100; tmpFails := false; randoms := 0;
     macBytes := replicate 64 0; passwdMapList := ∅; fileLastUpdatedTime := 0 |}.
Definition sample_file : list Z :=
  match new_file sample_key sample_text empty_state with Ret (inr f) _ => f | _ => [] end.
Definition sample_state : PasswdState :=
  empty_state <| passwdFile := Some (50, sample_file) |> <| passwdMapList := passwords sample_text |>
              <| fileLastUpdatedTime := 50 |>.
Lemma sample_text_bytes : bytes sample_text.
Proof. unfold bytes. apply Forall_forall. intros x Hx. assert (forallb (fun b => (0 <=? b) && (b <? 256)) sample_text = true) as H by reflexivity.
  rewrite forallb_forall in H. apply list_elem_of_In in Hx. apply H in Hx. unfold is_byte. lia.
Qed.
Lemma sample_file_good : file_good sample_state sample_text.
Proof.
  constructor; [|by exists sample_key|done|exact sample_text_bytes|done].
  intros s2 E1 E2. destruct (new_file_total sample_key sample_text empty_state sample_openssl) as [f Ef].
  apply (new_file_read sample_key sample_text empty_state f _ sample_text_bytes ltac:(done) ltac:(done) ltac:(done) Ef);
    [exact E1|]. exists 50. rewrite E2. unfold sample_state, sample_file. rewrite Ef. done.
Qed.

Lemma sample_ready : passwords_ready sample_state sample_text.
Proof.
  constructor; [exact sample_openssl|exact sample_file_good|by eexists _, _|by intros t file _ _| |by split].
  apply (bool_decide_unpack _). vm_compute. exact I.
Qed.

(** ** What the code does not check *)

(** The sizes in the header are used as they are. *)
Definition state_with (file : list Z) : PasswdState := sample_state <| passwdFile := Some (60, file) |>.
Example header_sizes_unchecked :
  readPasswdFileData (state_with (meta_bytes {| hashSize := 1000; ivSize := 16; dataSize := 16; padSize := 0; macSize := 32 |})) =
  Undef OutOfBounds.
Proof. vm_compute. reflexivity. Qed.
Example truncated_file : readPasswdFileData (state_with META_PASSWD_SIG) = Undef OutOfBounds.
Proof. vm_compute. reflexivity. Qed.

(** A file that is gone clears the passwords in memory. *)
Example missing_file_clears : exists s',
  getPasswdByUserName (bytes_of_string "ann") (sample_state <| passwdFile := None |>) = Ret [] s' /\
  passwdMapList s' = ∅.
Proof. eexists. split; [vm_compute; reflexivity|reflexivity]. Qed.

(** Three lines of one user and a long new name overrun the buffer. *)
Definition triple_text : list Z := flat_map (fun _ => bytes_of_string "a:b" ++ [10]) [1; 2; 3]%nat.
Definition triple_file : list Z :=
  match new_file sample_key triple_text empty_state with Ret (inr f) _ => f | _ => [] end.
Example duplicate_lines_overrun :
  updatePasswdSpecialFile (bytes_of_string "a") (bytes_of_string "sixteen_letters_") (state_with triple_file) =
  Undef OutOfBounds.
Proof. vm_compute. reflexivity. Qed.
