(* ===== verification/Json.v ===== *)
(** * JSON values

    The services read and write their files with [nlohmann::json], which is not
    part of the repository: its accessors are the operations of [JsonLib], what
    the services rely on is [JsonLaws].  A file is taken as the value its text
    stands for (a text that is no JSON is [JDiscarded]); numbers are integers;
    the members of an object are in the order of their keys. *)
From Stdlib Require Import ZArith Lia String.
From stdpp Require Import base list strings.
From S2P Require Import Prelude CxxStd.
Local Open Scope Z_scope.

Inductive Json :=
  | JNull | JDiscarded | JBool (b : bool) | JNumber (z : Z) | JString (s : list Z) | JArray (l : list Json)
  | JObject (l : list (string * Json)).
Fixpoint json_find (k : string) (l : list (string * Json)) : option Json :=
  match l with [] => None | (k', v) :: l => if String.eqb k' k then Some v else json_find k l end.
Definition is_null (j : Json) : bool := match j with JNull => true | _ => false end.

(** The accessors; [inl] is the exception an accessor throws.  [lib_index] is
    [j[key]], [lib_index_const] the same on a const value (a missing key is
    undefined: [None]), [lib_at] is [at] ([None]: out of range), [lib_nth] is
    [j[i]]; [lib_elements], what [get] makes of a vector or an array;
    [lib_members], the iteration with keys; [lib_value], [value(key, default)]
    ([None]: the default). *)
Class JsonLib := {
  lib_index : Json -> string -> exn + Json;
  lib_index_const : Json -> string -> exn + option Json;
  lib_at : Json -> string -> exn + option Json;
  lib_nth : Json -> nat -> exn + Json;
  lib_elements : Json -> exn + list Json;
  lib_members : Json -> exn + list (string * Json);
  lib_value : Json -> string -> exn + option Json;
  lib_string : Json -> exn + list Z;
  lib_bool : Json -> exn + bool;
  lib_size_t : Json -> exn + Z;
  lib_int : Json -> exn + Z;
  lib_size : Json -> nat;
  lib_empty : Json -> bool;
  lib_count : Json -> string -> bool }.
Class JsonLaws (J : JsonLib) : Prop := {
  law_index : forall l k v, json_find k l = Some v -> lib_index (JObject l) k = inr v;
  law_index_const : forall l k v, json_find k l = Some v -> lib_index_const (JObject l) k = inr (Some v);
  law_at : forall l k v, json_find k l = Some v -> lib_at (JObject l) k = inr (Some v);
  law_nth : forall l i v, l !! i = Some v -> lib_nth (JArray l) i = inr v;
  law_elements : forall l, lib_elements (JArray l) = inr l;
  law_members : forall l, lib_members (JObject l) = inr l;
  law_string : forall s, lib_string (JString s) = inr s;
  law_bool : forall b, lib_bool (JBool b) = inr b;
  law_size : forall l, lib_size (JArray l) = length l }.

Section Accessors.
Context {J : JsonLib}.
Definition answer {S A} (r : exn + A) : M S A := match r with inl e => throw e | inr a => ret a end.
Definition json_key {S} (j : Json) (k : string) : M S Json := answer (lib_index j k).
Definition json_nth {S} (j : Json) (i : nat) : M S Json := answer (lib_nth j i).
Definition json_members {S} (j : Json) : M S (list (string * Json)) := answer (lib_members j).
Definition json_string {S} (j : Json) : M S (list Z) := answer (lib_string j).
Definition json_bool {S} (j : Json) : M S bool := answer (lib_bool j).
Definition json_size_t {S} (j : Json) : M S Z := answer (lib_size_t j).
Definition json_int {S} (j : Json) : M S Z := answer (lib_int j).
Definition json_vector {S A} (get1 : Json -> M S A) (j : Json) : M S (list A) :=
  let! l := answer (lib_elements j) in mmap get1 l.
Definition json_value {S} (get1 : Json -> M S Z) (j : Json) (k : string) (d : Z) : M S Z :=
  let! v := answer (lib_value j k) in match v with Some v => get1 v | None => ret d end.

(** ** Reading what was written *)
Section Laws.
Context {JL : JsonLaws J} {S : Type}.
Lemma json_key_Ret l k v (s : S) : json_find k l = Some v -> json_key (JObject l) k s = Ret v s.
Proof. intros H. unfold json_key. by rewrite (law_index _ _ _ H). Qed.
Lemma json_nth_Ret l i v (s : S) : l !! i = Some v -> json_nth (JArray l) i s = Ret v s.
Proof. intros H. unfold json_nth. by rewrite (law_nth _ _ _ H). Qed.
Lemma json_members_Ret l (s : S) : json_members (JObject l) s = Ret l s.
Proof. unfold json_members. by rewrite law_members. Qed.
Lemma json_string_Ret v (s : S) : json_string (JString v) s = Ret v s.
Proof. unfold json_string. by rewrite law_string. Qed.
Lemma json_bool_Ret b (s : S) : json_bool (JBool b) s = Ret b s.
Proof. unfold json_bool. by rewrite law_bool. Qed.
Lemma json_vector_Ret {A} (get1 : Json -> M S A) l vs s :
  mmap get1 l s = Ret vs s -> json_vector get1 (JArray l) s = Ret vs s.
Proof. intros H. unfold json_vector. rewrite law_elements. exact H. Qed.
End Laws.

(** ** Reading leaves the state alone *)
Section Reading.
Context {S : Type} (R : S -> S -> Prop) `{!PreOrder R}.
Lemma preserves_answer {A} (r : exn + A) : preserves R (answer r : M S A).
Proof. unfold answer. preserve_with idtac. Qed.
Lemma preserves_json_key j k : preserves R (json_key j k).
Proof. apply preserves_answer. Qed.
Lemma preserves_json_nth j i : preserves R (json_nth j i).
Proof. apply preserves_answer. Qed.
Lemma preserves_json_members j : preserves R (json_members j).
Proof. apply preserves_answer. Qed.
Lemma preserves_json_string j : preserves R (json_string j).
Proof. apply preserves_answer. Qed.
Lemma preserves_json_bool j : preserves R (json_bool j).
Proof. apply preserves_answer. Qed.
Lemma preserves_json_vector {A} (f : Json -> M S A) j : (forall x, preserves R (f x)) -> preserves R (json_vector f j).
Proof.
  intros H. unfold json_vector. apply preserves_bind; [exact _|apply preserves_answer|]. intros l. by apply preserves_mmap.
Qed.
End Reading.
End Accessors.
#[export] Hint Resolve preserves_answer preserves_json_key preserves_json_nth preserves_json_members preserves_json_string
  preserves_json_bool : preserves.

(** ** An example of the library, with the exceptions it documents *)
Definition type_error : exn := RuntimeError "json type_error".
Definition on_object {A} (f : list (string * Json) -> A) (j : Json) : exn + A :=
  match j with JObject l => inr (f l) | _ => inl type_error end.
Definition sample_json : JsonLib := {|
  lib_index j k := match j with JNull => inr JNull | _ => on_object (fun l => default JNull (json_find k l)) j end;
  lib_index_const j k := on_object (json_find k) j;
  lib_at j k := on_object (json_find k) j;
  lib_nth j i := match j with JArray l => inr (default JNull (l !! i)) | JNull => inr JNull | _ => inl type_error end;
  lib_elements j := match j with JArray l => inr l | _ => inl type_error end;
  lib_members j := match j with JObject l => inr l | JNull | JArray [] => inr [] | _ => inl type_error end;
  lib_value j k := on_object (json_find k) j;
  lib_string j := match j with JString s => inr s | _ => inl type_error end;
  lib_bool j := match j with JBool b => inr b | _ => inl type_error end;
  lib_size_t j := match j with JNumber z => inr (u64 z) | _ => inl type_error end;
  lib_int j := match j with JNumber z => inr (sext 32 z) | JBool b => inr (Z.b2z b) | _ => inl type_error end;
  lib_size j := match j with JNull => 0 | JArray l => length l | JObject l => length l | _ => 1 end%nat;
  lib_empty j := match j with JNull | JArray [] | JObject [] => true | _ => false end;
  lib_count j k := match j with JObject l => if json_find k l then true else false | _ => false end |}.
Lemma sample_json_laws : JsonLaws sample_json.
Proof. constructor; intros; cbn; try done; by rewrite H. Qed.
