(* ===== verification/UserMgmt.v ===== *)
(** * IPMI users

    [user_channel/user_mgmt.cpp] and [user_layer.cpp]: the table of the 15 IPMI
    users, the file that keeps it, its synchronisation with the system's user
    manager on D-Bus, and the functions the rest of the service calls.

    A name is the bytes before the first NUL of its array.  The file holds the
    JSON value that [nlohmann::json] prints and parses; a number of fields the
    code never reads is left out of D-Bus replies.  The calls of the user
    manager are answered by [UserBus] and recorded, newest first. *)
From Stdlib Require Import ZArith Lia String.
From stdpp Require Import base list gmap strings.
From S2P Require Import Prelude CxxStd RmcpCrypto Json IpmiMessage IpmiDispatch PasswdMgr.
Local Open Scope Z_scope.

Definition invalidUserId : Z := 0xFF.
Definition reservedUserId : Z := 0x0.
Definition ipmiMaxUserName : nat := 16.
Definition ipmiMaxUsers : nat := 15.
Definition ipmiMaxChannels : nat := 16.
Definition maxIpmi20PasswordSize : nat := 20.
Definition payloadsPerByte : nat := 8.
Definition SOL_payload : nat := 1.
Definition privNoAccess : Z := 0xF.
Definition privMask : Z := 0xF.
Definition PRIVILEGE_USER : Z := 2.
Definition PRIVILEGE_OEM : Z := 5.
Definition ccParmOutOfRange : Z := 0xC9.
Definition ccInvalidFieldRequest : Z := 0xCC.
Definition ipmiGrpName : list Z := bytes_of_string "ipmi".
Definition root_name : list Z := bytes_of_string "root".

(** ** The table *)
Record UserPrivAccess := { privilege : Z; ipmiEnabled : bool; linkAuthEnabled : bool; accessCallback : bool }.
#[export] Instance UserPrivAccess_fields : Fields UserPrivAccess := fun a =>
  {| privilege := privilege a; ipmiEnabled := ipmiEnabled a; linkAuthEnabled := linkAuthEnabled a;
     accessCallback := accessCallback a |}.
(** The bit sets of a payload access; the reserved ones stay 0. *)
Record PayloadAccess := { stdPayloadEnables1 : Z; oemPayloadEnables1 : Z }.
#[export] Instance PayloadAccess_fields : Fields PayloadAccess := fun a =>
  {| stdPayloadEnables1 := stdPayloadEnables1 a; oemPayloadEnables1 := oemPayloadEnables1 a |}.
Record UserInfo := {
  userName : list Z; userPrivAccess : list UserPrivAccess; userEnabled : bool; userInSystem : bool;
  fixedUserName : bool; payloadAccess : list PayloadAccess }.
#[export] Instance UserInfo_fields : Fields UserInfo := fun u =>
  {| userName := userName u; userPrivAccess := userPrivAccess u; userEnabled := userEnabled u;
     userInSystem := userInSystem u; fixedUserName := fixedUserName u; payloadAccess := payloadAccess u |}.
Definition zero_access : UserPrivAccess :=
  {| privilege := 0; ipmiEnabled := false; linkAuthEnabled := false; accessCallback := false |}.
Definition zero_payload : PayloadAccess := {| stdPayloadEnables1 := 0; oemPayloadEnables1 := 0 |}.
Definition zero_user : UserInfo :=
  {| userName := []; userPrivAccess := replicate ipmiMaxChannels zero_access; userEnabled := false;
     userInSystem := false; fixedUserName := false; payloadAccess := replicate ipmiMaxChannels zero_payload |}.
Notation UsersTbl := (list UserInfo).
Definition zero_table : UsersTbl := replicate (ipmiMaxUsers + 1) zero_user.

(** ** State *)

(** A user object of the user manager: the properties of its interface for
    user attributes, those present. *)
Record UserProps := { up_priv : option (list Z); up_groups : option (list (list Z)); up_enabled : option bool }.
(** What the user manager answers: its objects (the properties are [None]
    where the object has no such interface), whether a call succeeds, its
    groups, all properties of a user; [None] is an error.  [pam] is the result
    of changing a password. *)
Record UserBus := {
  managedObjects : option (list (list Z * option UserProps));
  deleteOk : bool; createOk : bool; renameOk : bool; setPropertyOk : bool;
  managerGroups : option (list (list Z)); userProperties : option UserProps;
  pam : list Z -> list Z -> Z }.
Inductive UserCall :=
  | DeleteUser (name : list Z) | CreateUser (name : list Z) (groups : list (list Z))
  | RenameUser (old new : list Z) | SetEnabled (name : list Z) (b : bool)
  | SetPrivilege (name : list Z) (priv : list Z).

(** [userFile]: modification time, contents.  [writeOk]: the temporary file can
    be made, written and renamed.  [syncIndex]: the channel whose privileges are
    the system's ([getUsrMgmtSyncIndex]). *)
Record UserState := {
  usersTbl : UsersTbl; fileUpdated : Z; userFile : option (Z * Json); availableGroups : list (list Z);
  now : Z; writeOk : bool; syncIndex : nat; userBus : UserBus; userCalls : list UserCall;
  passwdMgr : PasswdState }.
#[export] Instance UserState_fields : Fields UserState := fun s =>
  {| usersTbl := usersTbl s; fileUpdated := fileUpdated s; userFile := userFile s;
     availableGroups := availableGroups s; now := now s; writeOk := writeOk s; syncIndex := syncIndex s;
     userBus := userBus s; userCalls := userCalls s; passwdMgr := passwdMgr s |}.

Definition modify_user (i : nat) (f : UserInfo -> UserInfo) : M UserState unit :=
  let! s := get in
  match usersTbl s !! i with
  | Some u => put (s <| usersTbl := <[i := f u]> (usersTbl s) |>)
  | None => undef OutOfBounds
  end.
Definition user_at (i : nat) : M UserState UserInfo :=
  let! s := get in of_option OutOfBounds (usersTbl s !! i).
Definition user_indices : list nat := seq 1 ipmiMaxUsers.

(** ** Privileges *)
Definition ipmiPrivIndex : list (list Z) :=
  map bytes_of_string ["priv-reserved"; "priv-callback"; "priv-user"; "priv-operator"; "priv-admin"; "priv-custom"]%string.
Definition convertToIPMIPrivilege {S} (value : list Z) : M S Z :=
  match list_find (fun p => p = value) ipmiPrivIndex with
  | Some (i, _) => ret (Z.of_nat i)
  | None => match value with [] => ret privNoAccess | _ => throw StdOutOfRange end
  end.
Definition convertToSystemPrivilege {S} (value : Z) : M S (list Z) :=
  if value =? privNoAccess then ret []
  else match (if value <? 0 then None else ipmiPrivIndex !! Z.to_nat value) with
       | Some p => ret p
       | None => throw StdOutOfRange
       end.

(** ** The file *)
Definition IosFailure : exn := RuntimeError "ios_base::failure".
Definition payload_names (k : nat) : string * string :=
  let d := String (Ascii.ascii_of_nat (48 + k)) "" in ("std_payload" ++ d, "OEM_payload" ++ d)%string.
Definition readPayloadAccessFromUserInfo (part : PayloadAccess -> Z) (u : UserInfo) (k : nat) : list bool :=
  map (fun a => Z.testbit (part a) (Z.of_nat k)) (payloadAccess u).
Definition constructJsonPayloadEnables (u : UserInfo) : Json :=
  JObject (flat_map (fun k =>
    [(fst (payload_names k), JArray (map JBool (readPayloadAccessFromUserInfo stdPayloadEnables1 u k)));
     (snd (payload_names k), JArray (map JBool (readPayloadAccessFromUserInfo oemPayloadEnables1 u k)))])
    (seq 0 payloadsPerByte)).
(** Only the SOL payload is kept; [sol] is [stdPayload[SOL]]. *)
Definition updatePayloadAccessInUserInfo (sol : list bool) (u : UserInfo) : UserInfo :=
  u <| payloadAccess := map (fun b : bool => {| stdPayloadEnables1 := if b then 2 else 0; oemPayloadEnables1 := 0 |}) sol |>.

Definition user_json (u : UserInfo) : M UserState Json :=
  let! privs := mmap (fun a => convertToSystemPrivilege (privilege a)) (userPrivAccess u) in
  let bools (f : UserPrivAccess -> bool) := JArray (map (fun a => JBool (f a)) (userPrivAccess u)) in
  ret (JObject [("user_name", JString (take ipmiMaxUserName (userName u)));
                ("privilege", JArray (map JString privs));
                ("ipmi_enabled", bools ipmiEnabled);
                ("link_auth_enabled", bools linkAuthEnabled);
                ("access_callback", bools accessCallback);
                ("user_enabled", JBool (userEnabled u));
                ("user_in_system", JBool (userInSystem u));
                ("fixed_user_name", JBool (fixedUserName u));
                ("payload_enabled", constructJsonPayloadEnables u)])%string.

Definition getUpdatedFileTime : M UserState Z :=
  let! s := get in ret (match userFile s with Some (t, _) => t | None => 0 end).
Definition writeUserData : M UserState unit :=
  let! s := get in
  let! users := mmap (fun i => let! u := user_at i in user_json u) user_indices in
  if negb (writeOk s) then throw IosFailure
  else
    modify (fun s => s <| userFile := Some (now s, JArray users) |>) ;;;
    let! t := getUpdatedFileTime in modify (fun s => s <| fileUpdated := t |>).

(** What follows reads with the JSON library. *)
Section Library.
Context {J : JsonLib}.

(** [get<std::array<bool, 16>>]: [None] is [out_of_range], for too few
    elements; more are ignored. *)
Fixpoint channel_bools (n : nat) (l : list Json) : M UserState (option (list bool)) :=
  match n, l with
  | O, _ => ret (Some [])
  | S n, v :: l => let! b := json_bool v in let! r := channel_bools n l in ret (cons b <$> r)
  | S n, [] => ret None
  end.
Definition json_channel_bools (j : Json) : M UserState (option (list bool)) :=
  let! l := answer (lib_elements j) in channel_bools ipmiMaxChannels l.
(** [jsonPayloadEnabled[key]] on a const object: a missing key is undefined. *)
Definition const_key (j : Json) (k : string) : M UserState Json :=
  let! v := answer (lib_index_const j k) in of_option NullDeref v.
(** The payloads of the user, from number [k] on; [None] on [out_of_range]. *)
Fixpoint read_payloads (n k : nat) (j : Json) (sol : list bool) : M UserState (option (list bool)) :=
  match n with
  | O => ret (Some sol)
  | S n =>
      let! sj := const_key j (fst (payload_names k)) in
      let! std := json_channel_bools sj in
      match std with
      | None => ret None
      | Some std =>
          let sol := if (k =? SOL_payload)%nat then std else sol in
          let! oj := const_key j (snd (payload_names k)) in
          let! oem := json_channel_bools oj in
          match oem with None => ret None | Some _ => read_payloads n (S k) j sol end
      end
  end.
Definition read_sol (userInfo : Json) : M UserState (list bool) :=
  let all := replicate ipmiMaxChannels true in
  let! v := answer (lib_at userInfo "payload_enabled") in
  match v with
  | None => ret all
  | Some j =>
      let! r := read_payloads payloadsPerByte 0 j (replicate ipmiMaxChannels false) in
      ret (default all r)
  end.

Definition read_user (i : nat) (userInfo : Json) : M UserState unit :=
  if is_null userInfo then throw (RuntimeError "Corrupted IPMI user data file - invalid user info")
  else
      let! j := json_key userInfo "user_name" in
      let! name := json_string j in
      modify_user i (fun u => u <| userName := take ipmiMaxUserName (c_str name) |>) ;;;
      let! j := json_key userInfo "privilege" in let! privs := json_vector json_string j in
      let! j := json_key userInfo "ipmi_enabled" in let! enabled := json_vector json_bool j in
      let! j := json_key userInfo "link_auth_enabled" in let! link := json_vector json_bool j in
      let! j := json_key userInfo "access_callback" in let! callback := json_vector json_bool j in
      let! sol := read_sol userInfo in
      if negb ((length privs =? ipmiMaxChannels) && (length enabled =? ipmiMaxChannels) &&
               (length link =? ipmiMaxChannels) && (length callback =? ipmiMaxChannels))%nat
      then throw (RuntimeError "Corrupted IPMI user data file - properties")
      else
        mfor (seq 0 ipmiMaxChannels) (fun ch =>
          let! p := convertToIPMIPrivilege (default [] (privs !! ch)) in
          modify_user i (fun u => u <| userPrivAccess := <[ch := {|
             privilege := p; ipmiEnabled := default false (enabled !! ch);
             linkAuthEnabled := default false (link !! ch);
             accessCallback := default false (callback !! ch) |}]> (userPrivAccess u) |>)) ;;;
        modify_user i (updatePayloadAccessInUserInfo sol) ;;;
        let! j := json_key userInfo "user_enabled" in let! b := json_bool j in
        modify_user i (fun u => u <| userEnabled := b |>) ;;;
        let! j := json_key userInfo "user_in_system" in let! b := json_bool j in
        modify_user i (fun u => u <| userInSystem := b |>) ;;;
        let! j := json_key userInfo "fixed_user_name" in let! b := json_bool j in
        modify_user i (fun u => u <| fixedUserName := b |>).

Definition readUserData : M UserState unit :=
  let! s := get in
  match userFile s with
  | None => throw IosFailure
  | Some (_, j) =>
      if negb (lib_size j =? ipmiMaxUsers)%nat
      then throw (RuntimeError "Corrupted IPMI user data file - invalid user count")
      else
        mfor user_indices (fun i => let! userInfo := json_nth j (i - 1) in read_user i userInfo) ;;;
        let! t := getUpdatedFileTime in modify (fun s => s <| fileUpdated := t |>)
  end.

Definition checkAndReloadUserData : M UserState unit :=
  let! updateTime := getUpdatedFileTime in
  let! s := get in
  if negb (updateTime =? fileUpdated s) || (updateTime =? 0)
  then modify (fun s => s <| usersTbl := zero_table |>) ;;; readUserData
  else ret tt.

(** ** The user manager *)
Definition call (c : UserCall) (ok : UserBus -> bool) : M UserState bool :=
  modify (fun s => s <| userCalls := c :: userCalls s |>) ;;;
  let! s := get in ret (ok (userBus s)).
Definition setDbusProperty (c : UserCall) : M UserState unit :=
  let! ok := call c setPropertyOk in if ok then ret tt else throw DBusError.
Definition getSystemPrivAndGroups : M UserState unit :=
  modify (fun s => match managerGroups (userBus s) with
                   | Some g => s <| availableGroups := g |>
                   | None => s
                   end).
Definition in_groups (g : list (list Z)) : bool := bool_decide (ipmiGrpName ∈ g).
Definition isIpmiInAvailableGroupList : M UserState bool :=
  let! s := get in
  if in_groups (availableGroups s) then ret true
  else match availableGroups s with
       | [] => getSystemPrivAndGroups ;;; let! s := get in ret (in_groups (availableGroups s))
       | _ => ret false
       end.

Definition in_range (lo hi c : Z) : bool := (lo <=? c) && (c <=? hi).
(** The regular expression [a-zA-z_][a-zA-Z_0-9]* : its first range ends in a
    small z. *)
Definition first_char (c : Z) : bool := in_range 97 122 c || in_range 65 122 c || (c =? 95).
Definition later_char (c : Z) : bool :=
  in_range 97 122 c || in_range 65 90 c || (c =? 95) || in_range 48 57 c.
Definition name_matches (l : list Z) : bool :=
  match c_str l with [] => false | c :: l => first_char c && forallb later_char l end.
Definition isValidUserName (name : list Z) : M UserState bool :=
  match name with
  | [] => ret false
  | _ =>
      if negb (name_matches name) then ret false
      else if bool_decide (name = root_name) then ret false
      else
        let! s := get in
        match managedObjects (userBus s) with
        | None => ret false
        | Some objs => ret (negb (existsb (fun o => bool_decide (fst o = name)) objs))
        end
  end.

Section Users.
Context {C : Crypto} {P : PaddedCrypto}.

(** ** Passwords ([user_layer.cpp]) *)
Definition passwd_do {A} (m : M PasswdState A) : M UserState A :=
  zoom passwdMgr (fun p s => s <| passwdMgr := p |>) m.
Definition ipmiUserGetPassword (name : list Z) : M UserState (list Z) := passwd_do (getPasswdByUserName name).
Definition ipmiClearUserEntryPassword (name : list Z) : M UserState Z :=
  let! r := passwd_do (updateUserEntry name []) in ret (if r =? 0 then ccSuccess else ccUnspecifiedError).
Definition ipmiRenameUserEntryPassword (name new : list Z) : M UserState Z :=
  let! r := passwd_do (updateUserEntry name new) in ret (if r =? 0 then ccSuccess else ccUnspecifiedError).

(** ** Entries *)
Definition isValidChannel (chNum : Z) : bool := chNum <? Z.of_nat ipmiMaxChannels.
Definition isValidUserId (userId : Z) : bool :=
  (userId <=? Z.of_nat ipmiMaxUsers) && negb (userId =? reservedUserId).
Definition getUsersTblPtr : M UserState UsersTbl :=
  checkAndReloadUserData ;;; let! s := get in ret (usersTbl s).
Definition getUserInfo (userId : Z) : M UserState UserInfo :=
  checkAndReloadUserData ;;; user_at (Z.to_nat userId).

(** The index of the first entry with a name. *)
Definition find_user (name : list Z) (t : UsersTbl) : option nat :=
  snd <$> list_find (fun i => userName (default zero_user (t !! i)) = name) user_indices.

Definition all_privileges (p : Z) (u : UserInfo) : UserInfo :=
  u <| userPrivAccess := map (fun a => a <| privilege := p |>) (userPrivAccess u) |>.

Definition free_slot (u : UserInfo) : bool := negb (userInSystem u) && bool_decide (userName u = []).
Definition addUserEntry (name sysPriv : list Z) (enabled : bool) : M UserState bool :=
  let! t := getUsersTblPtr in
  match find_user name t with
  | Some _ => ret false
  | None =>
      match list_find (fun i => Is_true (free_slot (default zero_user (t !! i)))) user_indices with
      | None => ret false
      | Some (_, freeIndex) =>
          modify_user freeIndex (fun u => u <| userName := take ipmiMaxUserName (c_str name) |>) ;;;
          let! p := convertToIPMIPrivilege sysPriv in
          let priv := Z.land (u8 p) privMask in
          modify_user freeIndex (fun u =>
            u <| userPrivAccess := map (fun _ => {| privilege := priv; ipmiEnabled := true; linkAuthEnabled := true;
                                                   accessCallback := true |}) (userPrivAccess u) |>
              <| userInSystem := true |> <| userEnabled := enabled |>) ;;;
          ret true
      end
  end.

Definition no_access : UserPrivAccess :=
  {| privilege := privNoAccess; ipmiEnabled := false; linkAuthEnabled := false; accessCallback := false |}.
Definition clear_user (u : UserInfo) : UserInfo :=
  u <| userName := [] |> <| userPrivAccess := map (fun _ => no_access) (userPrivAccess u) |>
    <| userInSystem := false |> <| userEnabled := false |>.
Definition deleteUserIndex (usrIdx : nat) : M UserState unit :=
  let! t := getUsersTblPtr in
  let! u := user_at usrIdx in
  ipmiClearUserEntryPassword (userName u) ;;;
  modify_user usrIdx clear_user.

(** ** Operations *)
Definition getUserId (name : list Z) : M UserState Z :=
  let! t := getUsersTblPtr in
  ret (match find_user name t with Some i => Z.of_nat i | None => invalidUserId end).
(** The completion code and the name. *)
Definition getUserName (userId : Z) : M UserState (Z * list Z) :=
  if negb (isValidUserId userId) then ret (ccParmOutOfRange, [])
  else let! u := getUserInfo userId in ret (ccSuccess, userName u).

(** [writeUserData] with its exceptions mapped to a completion code. *)
Definition write_cc : M UserState Z :=
  try (writeUserData ;;; ret ccSuccess) (fun _ => ret ccUnspecifiedError).

(** [memcpy] of the name into its array, cleared before. *)
Definition copy_name (i : nat) (name : list Z) : M UserState unit :=
  if (ipmiMaxUserName <? length name)%nat then undef OutOfBounds
  else modify_user i (fun u => u <| userName := c_str name |>).

Definition setUserName (userId : Z) (name : list Z) : M UserState Z :=
  if negb (isValidUserId userId) then ret ccParmOutOfRange
  else
    let i := Z.to_nat userId in
    let! (_, oldUser) := getUserName userId in
    if bool_decide (oldUser = name) then ret ccSuccess
    else
      let! validUser := isValidUserName name in
      getUserInfo userId ;;;
      match oldUser, name with
      | _ :: _, [] =>
          let! ok := call (DeleteUser oldUser) deleteOk in
          if negb ok then ret ccUnspecifiedError else deleteUserIndex i ;;; write_cc
      | [], _ =>
          if validUser then
            let! available := isIpmiInAvailableGroupList in
            if negb available then ret ccUnspecifiedError
            else
              let! s := get in
              let! ok := call (CreateUser (c_str name) (availableGroups s)) createOk in
              if negb ok then ret ccUnspecifiedError
              else
                copy_name i name ;;;
                modify_user i (fun u => all_privileges PRIVILEGE_USER (u <| userInSystem := true |>)) ;;;
                write_cc
          else ret ccInvalidFieldRequest
      | _, _ =>
          if validUser then
            let! ok := call (RenameUser oldUser (c_str name)) renameOk in
            if negb ok then ret ccUnspecifiedError
            else
              copy_name i name ;;;
              ipmiRenameUserEntryPassword oldUser name ;;;
              modify_user i (fun u => u <| userInSystem := true |>) ;;;
              write_cc
          else ret ccInvalidFieldRequest
      end.

Definition setUserEnabledState (userId : Z) (enabledState : bool) : M UserState Z :=
  if negb (isValidUserId userId) then ret ccParmOutOfRange
  else
    let! u := getUserInfo userId in
    match userName u with
    | [] => ret ccUnspecifiedError
    | _ =>
        if negb (Bool.eqb (userEnabled u) enabledState) then
          setDbusProperty (SetEnabled (userName u) enabledState) ;;;
          modify_user (Z.to_nat userId) (fun u => u <| userEnabled := enabledState |>) ;;;
          write_cc
        else ret ccSuccess
    end.

Definition clear_bits (a mask : Z) : Z := Z.land a (255 - mask).
Definition setUserPayloadAccess (chNum operation userId : Z) (p : PayloadAccess) : M UserState Z :=
  if negb (isValidChannel chNum) then ret ccInvalidFieldRequest
  else if negb (isValidUserId userId) then ret ccParmOutOfRange
  else if negb (operation =? 0) && negb (operation =? 1) then ret ccInvalidFieldRequest
  else
    getUserInfo userId ;;;
    let update (a : PayloadAccess) :=
      if operation =? 0 then
        {| stdPayloadEnables1 := Z.lor (stdPayloadEnables1 a) (stdPayloadEnables1 p);
           oemPayloadEnables1 := Z.lor (oemPayloadEnables1 a) (oemPayloadEnables1 p) |}
      else
        {| stdPayloadEnables1 := clear_bits (stdPayloadEnables1 a) (stdPayloadEnables1 p);
           oemPayloadEnables1 := clear_bits (oemPayloadEnables1 a) (oemPayloadEnables1 p) |} in
    modify_user (Z.to_nat userId) (fun u => u <| payloadAccess := alter update (Z.to_nat chNum) (payloadAccess u) |>) ;;;
    write_cc.

Definition setUserPrivilegeAccess (userId chNum : Z) (a : UserPrivAccess) (otherPrivUpdates : bool) : M UserState Z :=
  if negb (isValidChannel chNum) then ret ccInvalidFieldRequest
  else if negb (isValidUserId userId) then ret ccParmOutOfRange
  else
    let! u := getUserInfo userId in
    match userName u with
    | [] => ret ccUnspecifiedError
    | _ =>
        let! priv := convertToSystemPrivilege (privilege a) in
        let! s := get in
        let ch := Z.to_nat chNum in
        (if (ch =? syncIndex s)%nat &&
            negb (privilege a =? privilege (default zero_access (userPrivAccess u !! syncIndex s)))
         then setDbusProperty (SetPrivilege (userName u) priv) else ret tt) ;;;
        modify_user (Z.to_nat userId) (fun u =>
          u <| userPrivAccess := alter (fun old =>
             if otherPrivUpdates then a else old <| privilege := privilege a |>) ch (userPrivAccess u) |>) ;;;
        write_cc
    end.

Definition PAM_SUCCESS : Z := 0.
Definition PAM_AUTHTOK_ERR : Z := 20.
Definition setUserPassword (userId : Z) (userPassword : list Z) : M UserState Z :=
  let! (cc, name) := getUserName userId in
  if negb (cc =? ccSuccess) then ret ccParmOutOfRange
  else
    let! s := get in
    let retval := pam (userBus s) (c_str name) (take maxIpmi20PasswordSize (c_str userPassword)) in
    ret (if retval =? PAM_SUCCESS then ccSuccess
         else if retval =? PAM_AUTHTOK_ERR then ccInvalidFieldRequest else ccUnspecifiedError).

(** ** The layer's queries *)
Definition ipmiUserSetUserName (userId : Z) (name : list Z) : M UserState Z :=
  setUserName userId (take ipmiMaxUserName name).
(** Users, enabled users, fixed users. *)
Definition ipmiUserGetAllCounts : M UserState (Z * Z * Z) :=
  let! t := getUsersTblPtr in
  let count (f : UserInfo -> bool) :=
    Z.of_nat (length (List.filter (fun i => f (default zero_user (t !! i))) user_indices)) in
  ret (Z.of_nat ipmiMaxUsers, count userEnabled, count fixedUserName).
Definition ipmiUserCheckEnabled (userId : Z) : M UserState (Z * bool) :=
  if negb (isValidUserId userId) then ret (ccParmOutOfRange, false)
  else let! u := getUserInfo userId in ret (ccSuccess, userEnabled u).
Definition ipmiUserGetPrivilegeAccess (userId chNum : Z) : M UserState (Z * UserPrivAccess) :=
  if negb (isValidChannel chNum) then ret (ccInvalidFieldRequest, zero_access)
  else if negb (isValidUserId userId) then ret (ccParmOutOfRange, zero_access)
  else let! u := getUserInfo userId in
       ret (ccSuccess, default zero_access (userPrivAccess u !! Z.to_nat chNum)).
Definition ipmiUserGetUserPayloadAccess (chNum userId : Z) : M UserState (Z * PayloadAccess) :=
  if negb (isValidChannel chNum) then ret (ccInvalidFieldRequest, zero_payload)
  else if negb (isValidUserId userId) then ret (ccParmOutOfRange, zero_payload)
  else let! u := getUserInfo userId in
       ret (ccSuccess, default zero_payload (payloadAccess u !! Z.to_nat chNum)).
End Users.
End Library.
