(* ===== verification/UserSync.v ===== *)
(** * Synchronisation of the IPMI users with the system's users

    The rest of [user_channel/user_mgmt.cpp]: the signals of the user manager
    ([userUpdatedSignalHandler], [userUpdateHelper]) and the start of the
    service ([cacheUserDataFile]). *)
From Stdlib Require Import ZArith Lia String.
From stdpp Require Import base list gmap strings.
From S2P Require Import Prelude CxxStd RmcpCrypto Json IpmiMessage IpmiDispatch PasswdMgr UserMgmt.
Local Open Scope Z_scope.

Inductive UserUpdateEvent :=
  | userCreated | userDeleted | userRenamed | userPrivUpdated | userStateUpdated.

(** One changed property; others are not looked at. *)
Inductive UserProp :=
  | PrivChanged (priv : list Z) | GroupsChanged (groups : list (list Z)) | EnabledChanged (b : bool) | OtherChanged.
(** A signal: the name is the last component of the object path. *)
Inductive UserSignal :=
  | InterfacesAdded (name : list Z) (props : option UserProps)
  | InterfacesRemoved (name : list Z)
  | UserRenamed (name newName : list Z)
  | PropertiesChanged (name : list Z) (props : list UserProp)
  | UnknownSignal.

(** The variables of the handler that [getUserProperties] assigns. *)
Record SignalVars := { v_groups : list (list Z); v_priv : list Z; v_enabled : bool }.
Definition no_vars : SignalVars := {| v_groups := []; v_priv := []; v_enabled := false |}.
Definition getUserProperties (p : UserProps) (v : SignalVars) : SignalVars :=
  {| v_groups := default (v_groups v) (up_groups p); v_priv := default (v_priv v) (up_priv p);
     v_enabled := default (v_enabled v) (up_enabled p) |}.
(** [None]: the object has no such interface. *)
Definition getUserObjProperties (o : option UserProps) (v : SignalVars) : option SignalVars :=
  match o with Some p => Some (getUserProperties p v) | None => None end.

Section Signals.
Context {J : JsonLib} {C : Crypto} {P : PaddedCrypto}.

(** What [userUpdateHelper] does to the entry found. *)
Definition update_entry (e : UserUpdateEvent) (i : nat) (name priv : list Z) (enabled : bool) (newName : list Z) :
    M UserState unit :=
  match e with
  | userDeleted => deleteUserIndex i
  | userPrivUpdated =>
      let! p := convertToIPMIPrivilege priv in
      let userPriv := Z.land (u8 p) privMask in
      let! s := get in
      modify_user i (fun u =>
        if privilege (default zero_access (userPrivAccess u !! syncIndex s)) =? userPriv
        then u else all_privileges userPriv u)
  | userRenamed =>
      modify_user i (fun u => u <| userName := take ipmiMaxUserName (c_str newName) |>) ;;;
      ipmiRenameUserEntryPassword name newName ;;; ret tt
  | userStateUpdated => modify_user i (fun u => u <| userEnabled := enabled |>)
  | userCreated => ret tt
  end.
Definition userUpdateHelper (e : UserUpdateEvent) (name priv : list Z) (enabled : bool) (newName : list Z) :
    M UserState unit :=
  let! t := getUsersTblPtr in
  match e with
  | userCreated =>
      let! added := addUserEntry name priv enabled in
      if added then writeUserData else ret tt
  | _ =>
      match find_user name t with
      | None => ret tt
      | Some i => update_entry e i name priv enabled newName ;;; writeUserData
      end
  end.

(** The loop over the changed properties; the result is [false] where the
    handler returns. *)
Fixpoint changed_properties (name : list Z) (props : list UserProp) (v : SignalVars) : M UserState unit :=
  match props with
  | [] => ret tt
  | PrivChanged priv :: props =>
      let v := {| v_groups := v_groups v; v_priv := priv; v_enabled := v_enabled v |} in
      userUpdateHelper userPrivUpdated name (v_priv v) (v_enabled v) [] ;;; changed_properties name props v
  | EnabledChanged b :: props =>
      let v := {| v_groups := v_groups v; v_priv := v_priv v; v_enabled := b |} in
      userUpdateHelper userStateUpdated name (v_priv v) (v_enabled v) [] ;;; changed_properties name props v
  | GroupsChanged groups :: props =>
      let v := {| v_groups := groups; v_priv := v_priv v; v_enabled := v_enabled v |} in
      if negb (in_groups groups) then
        userUpdateHelper userDeleted name (v_priv v) (v_enabled v) [] ;;; changed_properties name props v
      else
        let! s := get in
        match userProperties (userBus s) with
        | None => ret tt
        | Some p =>
            let v := getUserProperties p v in
            userUpdateHelper userCreated name (v_priv v) (v_enabled v) [] ;;; changed_properties name props v
        end
  | OtherChanged :: props => changed_properties name props v
  end.

Definition userUpdatedSignalHandler (sig : UserSignal) : M UserState unit :=
  match sig with
  | InterfacesAdded name props =>
      match getUserObjProperties props no_vars with
      | None => ret tt
      | Some v =>
          if negb (in_groups (v_groups v)) || bool_decide (name = []) then ret tt
          else checkAndReloadUserData ;;; userUpdateHelper userCreated name (v_priv v) (v_enabled v) []
      end
  | InterfacesRemoved name =>
      if bool_decide (name = []) then ret tt
      else checkAndReloadUserData ;;; userUpdateHelper userDeleted name [] false []
  | UserRenamed name newName =>
      if bool_decide (name = []) || bool_decide (newName = []) then ret tt
      else checkAndReloadUserData ;;; userUpdateHelper userRenamed name [] false newName
  | PropertiesChanged name props =>
      if bool_decide (name = []) then ret tt
      else checkAndReloadUserData ;;; changed_properties name props no_vars
  | UnknownSignal => ret tt
  end.

(** ** The start of the service *)
Definition initial_user : UserInfo :=
  zero_user <| userPrivAccess := replicate ipmiMaxChannels (zero_access <| privilege := privNoAccess |>) |>
            <| payloadAccess := replicate ipmiMaxChannels {| stdPayloadEnables1 := 2; oemPayloadEnables1 := 0 |} |>.
Definition initial_table : UsersTbl := zero_user :: replicate ipmiMaxUsers initial_user.
Definition init_file : M UserState unit :=
  modify (fun s => s <| usersTbl := initial_table |>) ;;; writeUserData.
Definition is_ios_failure (e : exn) : bool :=
  match e with RuntimeError what => String.eqb what "ios_base::failure" | _ => false end.

Definition ManagedObjs : Type := list (list Z * option UserProps).
Definition take_object (name : list Z) (objs : ManagedObjs) : option (option UserProps * ManagedObjs) :=
  match list_find (fun o => fst o = name) objs with
  | Some (_, o) => Some (snd o, List.filter (fun o => negb (bool_decide (fst o = name))) objs)
  | None => None
  end.

(** The entries, one after the other: those whose user is gone, or has left the
    group, are deleted, the others follow the system.  The result: whether the
    file must be written, and the objects not seen. *)
Definition sync_entry (i : nat) (objs : ManagedObjs) : M UserState (bool * ManagedObjs) :=
  let! u := user_at i in
  if userInSystem u && negb (bool_decide (userName u = [])) then
    match take_object (userName u) objs with
    | None => deleteUserIndex i ;;; ret (true, objs)
    | Some (o, objs) =>
        let v := default no_vars (getUserObjProperties o no_vars) in
        if negb (in_groups (v_groups v)) then deleteUserIndex i ;;; ret (true, objs)
        else
          let! p := convertToIPMIPrivilege (v_priv v) in
          let priv := Z.land p privMask in
          let! s := get in
          let privChanged := negb (privilege (default zero_access (userPrivAccess u !! syncIndex s)) =? priv) in
          (if privChanged then modify_user i (all_privileges priv) else ret tt) ;;;
          let stateChanged := negb (Bool.eqb (userEnabled u) (v_enabled v)) in
          (if stateChanged then modify_user i (fun u => u <| userEnabled := v_enabled v |>) else ret tt) ;;;
          ret (privChanged || stateChanged, objs)
    end
  else ret (false, objs).
Fixpoint sync_entries (l : list nat) (updateRequired : bool) (objs : ManagedObjs) : M UserState (bool * ManagedObjs) :=
  match l with
  | [] => ret (updateRequired, objs)
  | i :: l =>
      let! (changed, objs) := sync_entry i objs in sync_entries l (updateRequired || changed) objs
  end.
(** The objects not seen: the users of the group are added, up to the first that
    cannot be. *)
Fixpoint add_objects (objs : ManagedObjs) (updateRequired : bool) : M UserState bool :=
  match objs with
  | [] => ret updateRequired
  | (name, o) :: objs =>
      let v := default no_vars (getUserObjProperties o no_vars) in
      if in_groups (v_groups v) then
        let! added := addUserEntry name (v_priv v) (v_enabled v) in
        if added then add_objects objs true else ret true
      else add_objects objs updateRequired
  end.

Definition cacheUserDataFile : M UserState unit :=
  try readUserData (fun e => if is_ios_failure e then init_file else throw e) ;;;
  let! s := get in
  match managedObjects (userBus s) with
  | None => ret tt
  | Some objs =>
      let! (updateRequired, objs) := sync_entries user_indices false objs in
      let! updateRequired := add_objects objs updateRequired in
      if updateRequired then writeUserData else ret tt
  end.
Definition new_UserAccess : M UserState unit := cacheUserDataFile ;;; getSystemPrivAndGroups.
End Signals.
