(* ===== verification/UserMgmtSpec.v ===== *)
(** * Properties of the IPMI users

    The file keeps the table; naming, renaming and removing a user changes
    exactly this entry and keeps the names distinct and known to the system; a
    removed user is found no more, and has no password. *)
From Stdlib Require Import ZArith Lia String.
From stdpp Require Import base list gmap strings.
From S2P Require Import Prelude CxxStd RmcpMessage RmcpCrypto RmcpSample Json IpmiMessage IpmiDispatch PasswdMgr PasswdMgrSpec UserMgmt.
Local Open Scope Z_scope.

(** ** Well-formed tables *)
Definition valid_privilege (p : Z) : Prop := 0 <= p < 6 \/ p = privNoAccess.
Definition name_fits (l : list Z) : Prop :=
  bytes l /\ (length l <= ipmiMaxUserName)%nat /\ Forall (fun c => c <> 0) l.
Record user_ok (u : UserInfo) : Prop := {
  uo_name : name_fits (userName u);
  uo_access : length (userPrivAccess u) = ipmiMaxChannels;
  uo_privs : Forall (fun a => valid_privilege (privilege a)) (userPrivAccess u);
  uo_payloads : length (payloadAccess u) = ipmiMaxChannels }.
Definition table_ok (t : UsersTbl) : Prop := length t = S ipmiMaxUsers /\ Forall user_ok t.

Lemma name_fits_nil : name_fits [].
Proof. split_and!; [constructor|cbn; lia|constructor]. Qed.
Lemma name_fits_take l : bytes l -> name_fits (take ipmiMaxUserName (c_str l)).
Proof.
  intros H. split_and!; [by apply Forall_take, c_str_bytes|rewrite length_take; lia|].
  apply Forall_take, c_str_no_nul.
Qed.
Lemma zero_user_ok : user_ok zero_user.
Proof.
  constructor; [apply name_fits_nil|done| |done].
  apply Forall_replicate. left. cbn. lia.
Qed.
Lemma zero_table_ok : table_ok zero_table.
Proof. split; [done|]. apply Forall_replicate, zero_user_ok. Qed.

Lemma table_lookup t i : table_ok t -> (i <= ipmiMaxUsers)%nat -> exists u, t !! i = Some u /\ user_ok u.
Proof.
  intros [Hl Ht] Hi. destruct (lookup_lt_is_Some_2 t i ltac:(lia)) as [u Hu].
  exists u. split; [done|]. by eapply Forall_lookup_1.
Qed.
Lemma table_insert t i u : table_ok t -> user_ok u -> table_ok (<[i := u]> t).
Proof. intros [Hl Ht] Hu. split; [by rewrite length_insert|by apply Forall_insert]. Qed.
Lemma valid_index userId : is_byte userId -> isValidUserId userId = true ->
  (1 <= Z.to_nat userId <= ipmiMaxUsers)%nat /\ Z.of_nat (Z.to_nat userId) = userId.
Proof.
  unfold isValidUserId, reservedUserId, is_byte, ipmiMaxUsers. intros Hb H. apply andb_prop in H as [H1 H2].
  apply Z.leb_le in H1. apply negb_true_iff, Z.eqb_neq in H2. lia.
Qed.

(** ** The file *)
Definition sys_priv (p : Z) : list Z := if p =? privNoAccess then [] else default [] (ipmiPrivIndex !! Z.to_nat p).
Lemma to_system {S} p (s : S) : valid_privilege p -> convertToSystemPrivilege p s = Ret (sys_priv p) s.
Proof.
  unfold convertToSystemPrivilege, sys_priv. intros [Hp| ->]; [|done].
  rewrite (proj2 (Z.eqb_neq _ _)) by (unfold privNoAccess; lia). destruct (Z.ltb_spec p 0); [lia|].
  destruct (lookup_lt_is_Some_2 ipmiPrivIndex (Z.to_nat p)) as [x ->]; [cbn; lia|done].
Qed.
Lemma to_ipmi {S} p (s : S) : valid_privilege p -> convertToIPMIPrivilege (sys_priv p) s = Ret p s.
Proof.
  intros [Hp| ->]; [|done].
  assert (p = 0 \/ p = 1 \/ p = 2 \/ p = 3 \/ p = 4 \/ p = 5) as H by lia.
  by destruct H as [->|[->|[->|[->|[->| ->]]]]].
Qed.
(** What [user_json] builds from a well-formed entry. *)
Definition json_of (u : UserInfo) : Json :=
  let bools (f : UserPrivAccess -> bool) := JArray (map (fun a => JBool (f a)) (userPrivAccess u)) in
  JObject [("user_name", JString (userName u));
           ("privilege", JArray (map (fun a => JString (sys_priv (privilege a))) (userPrivAccess u)));
           ("ipmi_enabled", bools ipmiEnabled);
           ("link_auth_enabled", bools linkAuthEnabled);
           ("access_callback", bools accessCallback);
           ("user_enabled", JBool (userEnabled u));
           ("user_in_system", JBool (userInSystem u));
           ("fixed_user_name", JBool (fixedUserName u));
           ("payload_enabled", constructJsonPayloadEnables u)]%string.
Lemma user_json_of u s : user_ok u -> user_json u s = Ret (json_of u) s.
Proof.
  intros [(_ & Hn & _) _ Hp _]. unfold user_json, json_of.
  rewrite (bind_Ret _ _ _ (map (fun a => sys_priv (privilege a)) (userPrivAccess u)) s).
  - rewrite take_ge by exact Hn. by rewrite map_map.
  - apply mmap_Ret. intros a Ha%list_elem_of_In. apply to_system. by eapply (proj1 (Forall_forall _ _) Hp).
Qed.

Definition table_json (t : UsersTbl) : Json :=
  JArray (map (fun i => json_of (default zero_user (t !! i))) user_indices).
Definition written (s : UserState) : UserState :=
  s <| userFile := Some (now s, table_json (usersTbl s)) |> <| fileUpdated := now s |>.
Lemma user_at_Ret i s u : usersTbl s !! i = Some u -> user_at i s = Ret u s.
Proof. intros H. unfold user_at. rewrite (bind_Ret get _ s s s) by done. unfold of_option. by rewrite H. Qed.
Lemma in_user_indices i : i ∈ user_indices <-> (1 <= i <= ipmiMaxUsers)%nat.
Proof. unfold user_indices. rewrite elem_of_seq. lia. Qed.
Lemma writeUserData_cases s : table_ok (usersTbl s) ->
  writeUserData s = if writeOk s then Ret tt (written s) else Throw IosFailure s.
Proof.
  intros Ht. unfold writeUserData. rewrite (bind_Ret get _ s s s) by done.
  rewrite (bind_Ret _ _ _ (map (fun i => json_of (default zero_user (usersTbl s !! i))) user_indices) s).
  - destruct (writeOk s); done.
  - apply mmap_Ret. intros i Hi%list_elem_of_In. apply in_user_indices in Hi.
    destruct (table_lookup _ i Ht) as (u & Hu & Ho); [lia|].
    rewrite (bind_Ret _ _ _ _ _ (user_at_Ret _ _ _ Hu)), Hu. by apply user_json_of.
Qed.

(** What the file keeps of an entry: of the payloads only SOL. *)
Definition kept_payload (a : PayloadAccess) : PayloadAccess :=
  {| stdPayloadEnables1 := if Z.testbit (stdPayloadEnables1 a) 1 then 2 else 0; oemPayloadEnables1 := 0 |}.
Definition kept (u : UserInfo) : UserInfo := u <| payloadAccess := map kept_payload (payloadAccess u) |>.

Lemma modify_user_Ret i f s u : usersTbl s !! i = Some u ->
  modify_user i f s = Ret tt (s <| usersTbl := <[i := f u]> (usersTbl s) |>).
Proof. intros H. unfold modify_user. rewrite (bind_Ret get _ s s s) by done. by rewrite H. Qed.

Section Library.
Context {J : JsonLib} {JL : JsonLaws J}.
Lemma channel_bools_map bs s : length bs = ipmiMaxChannels ->
  json_channel_bools (JArray (map JBool bs)) s = Ret (Some bs) s.
Proof.
  unfold json_channel_bools. rewrite law_elements. intros <-. unfold answer. rewrite bind_ret_l.
  induction bs as [|b bs IH]; [done|]. cbn [length map channel_bools].
  by rewrite (bind_Ret _ _ _ _ _ (json_bool_Ret b s)), (bind_Ret _ _ _ _ _ IH).
Qed.
Lemma json_vector_map {A B} (get1 : Json -> M UserState B) (f : A -> Json) (g : A -> B) l s :
  (forall x, get1 (f x) s = Ret (g x) s) -> json_vector get1 (JArray (map f l)) s = Ret (map g l) s.
Proof.
  intros H. apply json_vector_Ret. induction l as [|x l IH]; cbn [map mmap]; [done|].
  by rewrite (bind_Ret _ _ _ _ _ (H x)), (bind_Ret _ _ _ _ _ IH).
Qed.

(** The elements of the file, read back. *)
Lemma const_key_Ret l k v (s : UserState) : json_find k l = Some v -> const_key (JObject l) k s = Ret v s.
Proof. intros H. unfold const_key. by rewrite (law_index_const _ _ _ H). Qed.
Definition payload_bits (part : PayloadAccess -> Z) (u : UserInfo) (k : nat) : Json :=
  JArray (map JBool (readPayloadAccessFromUserInfo part u k)).
Lemma payload_keys u k : (k < payloadsPerByte)%nat -> exists l, constructJsonPayloadEnables u = JObject l /\
  json_find (fst (payload_names k)) l = Some (payload_bits stdPayloadEnables1 u k) /\
  json_find (snd (payload_names k)) l = Some (payload_bits oemPayloadEnables1 u k).
Proof.
  intros Hk. eexists. split; [reflexivity|]. unfold payloadsPerByte in Hk.
  assert (k = 0 \/ k = 1 \/ k = 2 \/ k = 3 \/ k = 4 \/ k = 5 \/ k = 6 \/ k = 7)%nat as H by lia.
  by destruct H as [->|[->|[->|[->|[->|[->|[->| ->]]]]]]].
Qed.
Lemma payload_bits_read part u k s : length (payloadAccess u) = ipmiMaxChannels ->
  json_channel_bools (payload_bits part u k) s = Ret (Some (readPayloadAccessFromUserInfo part u k)) s.
Proof. intros H. apply channel_bools_map. unfold readPayloadAccessFromUserInfo. by rewrite length_map. Qed.
Lemma read_payloads_Ret u s : length (payloadAccess u) = ipmiMaxChannels ->
  forall n k sol, (n + k <= payloadsPerByte)%nat ->
  read_payloads n k (constructJsonPayloadEnables u) sol s =
  Ret (Some (if (k <=? SOL_payload)%nat && (SOL_payload <? n + k)%nat
             then readPayloadAccessFromUserInfo stdPayloadEnables1 u SOL_payload else sol)) s.
Proof.
  intros Hu. induction n as [|n IH]; intros k sol Hn; cbn [read_payloads].
  - destruct (_ && _) eqn:E; [|done]. apply andb_prop in E as [E1 E2].
    apply Nat.leb_le in E1. apply Nat.ltb_lt in E2. lia.
  - destruct (payload_keys u k) as (l & El & Hs & Ho); [lia|]. rewrite El in IH |- *.
    rewrite (bind_Ret _ _ _ _ _ (const_key_Ret l _ _ s Hs)), (bind_Ret _ _ _ _ _ (payload_bits_read _ u k s Hu)).
    rewrite (bind_Ret _ _ _ _ _ (const_key_Ret l _ _ s Ho)), (bind_Ret _ _ _ _ _ (payload_bits_read _ u k s Hu)).
    rewrite IH by lia. unfold SOL_payload. do 2 f_equal.
    destruct (Nat.eqb_spec k 1) as [->|]; [cbn; by destruct n as [|[]]|].
    destruct (Nat.leb_spec (S k) 1), (Nat.leb_spec k 1); cbn [andb]; try lia; try done.
    by rewrite Nat.add_succ_r.
Qed.
Lemma read_sol_Ret u s : length (payloadAccess u) = ipmiMaxChannels ->
  read_sol (json_of u) s = Ret (readPayloadAccessFromUserInfo stdPayloadEnables1 u SOL_payload) s.
Proof.
  intros Hu. unfold read_sol, json_of. erewrite law_at by reflexivity. unfold answer. rewrite bind_ret_l.
  by rewrite (bind_Ret _ _ _ _ _ (read_payloads_Ret u s Hu payloadsPerByte 0 _ ltac:(done))).
Qed.

Lemma insert_next {A} (l tgt : list A) k a : length l = length tgt -> take k l = take k tgt -> tgt !! k = Some a ->
  take (S k) (<[k := a]> l) = take (S k) tgt.
Proof.
  intros Hl Ht Ha. pose proof (lookup_lt_Some _ _ _ Ha) as Hk.
  rewrite (take_S_r tgt k a) by done.
  rewrite (take_S_r _ k a) by (apply list_lookup_insert_eq; lia). rewrite take_insert_ge by lia. by rewrite Ht.
Qed.
Definition user_entry (i : nat) (u : UserInfo) (s : UserState) : UserState :=
  s <| usersTbl := <[i := u]> (usersTbl s) |>.
Lemma user_entry_lookup i u s u0 : usersTbl s !! i = Some u0 -> usersTbl (user_entry i u s) !! i = Some u.
Proof. intros H. apply list_lookup_insert_eq. by eapply lookup_lt_Some. Qed.
Lemma user_entry_twice i u v s : user_entry i u (user_entry i v s) = user_entry i u s.
Proof. unfold user_entry. cbn. by rewrite list_insert_insert_eq. Qed.
Lemma modify_entry i f s u v : usersTbl s !! i = Some v ->
  modify_user i f (user_entry i u s) = Ret tt (user_entry i (f u) s).
Proof.
  intros H. rewrite (modify_user_Ret i f _ u) by (by eapply user_entry_lookup).
  fold (user_entry i (f u) (user_entry i u s)). by rewrite user_entry_twice.
Qed.

Lemma mfor_channels (body : nat -> M UserState unit) i tgt s v :
  usersTbl s !! i = Some v ->
  (forall ch a t, tgt !! ch = Some a ->
    body ch t = modify_user i (fun u => u <| userPrivAccess := <[ch := a]> (userPrivAccess u) |>) t) ->
  forall n k u, length tgt = (k + n)%nat -> length (userPrivAccess u) = length tgt ->
  take k (userPrivAccess u) = take k tgt ->
  mfor (seq k n) body (user_entry i u s) = Ret tt (user_entry i (u <| userPrivAccess := tgt |>) s).
Proof.
  intros Hi Hbody. induction n as [|n IH]; intros k u Hk Hu Ht; cbn [seq mfor].
  - rewrite !take_ge in Ht by lia. unfold ret. do 2 f_equal. rewrite <- Ht. by destruct u.
  - destruct (lookup_lt_is_Some_2 tgt k ltac:(lia)) as [a Ha].
    set (u1 := u <| userPrivAccess := <[k := a]> (userPrivAccess u) |>).
    assert (body k (user_entry i u s) = Ret tt (user_entry i u1 s)) as E
      by (rewrite (Hbody k a) by done; exact (modify_entry i _ s u v Hi)).
    rewrite (bind_Ret _ _ _ _ _ E), (IH (S k) u1); [done|lia| |].
    + cbn. by rewrite length_insert.
    + by apply insert_next.
Qed.

Lemma kept_sol u :
  map (fun b : bool => {| stdPayloadEnables1 := if b then 2 else 0; oemPayloadEnables1 := 0 |})
    (readPayloadAccessFromUserInfo stdPayloadEnables1 u SOL_payload) = map kept_payload (payloadAccess u).
Proof. unfold readPayloadAccessFromUserInfo. by rewrite map_map. Qed.

Lemma lookup_map {A B} (f : A -> B) l i : map f l !! i = f <$> l !! i.
Proof. apply list_lookup_fmap. Qed.
(** One member of the object read, by [tac]. *)
Ltac member tac :=
  erewrite bind_Ret; [|by apply json_key_Ret]; erewrite bind_Ret; [|tac].
Lemma read_user_Ret i u s v : user_ok u -> usersTbl s !! i = Some v -> length (userPrivAccess v) = ipmiMaxChannels ->
  read_user i (json_of u) s = Ret tt (user_entry i (kept u) s).
Proof.
  intros [(_ & Hn & Hz) Ha Hp Hl] Hi Hv.
  set (privs := map (fun a => sys_priv (privilege a)) (userPrivAccess u)).
  assert (forall (f : UserPrivAccess -> bool) t,
    json_vector json_bool (JArray (map (fun a => JBool (f a)) (userPrivAccess u))) t
    = Ret (map f (userPrivAccess u)) t) as Hb by (intros; apply json_vector_map; intros; apply json_bool_Ret).
  assert (forall t, json_vector json_string (JArray (map (fun a => JString (sys_priv (privilege a))) (userPrivAccess u))) t
    = Ret privs t) as Hs by (intros; apply json_vector_map; intros; apply json_string_Ret).
  set (v1 := v <| userName := userName u |>).
  set (tgt := userPrivAccess u).
  assert (take ipmiMaxUserName (c_str (userName u)) = userName u) as En
    by (rewrite (PasswdMgrSpec.c_str_id _ Hz); by apply take_ge).
  unfold read_user, json_of. cbn [is_null]; cbv iota beta.
  member ltac:(apply json_string_Ret). rewrite En.
  rewrite (bind_Ret (modify_user _ _) _ s tt (user_entry i v1 s)) by (by apply modify_user_Ret).
  member ltac:(apply Hs). do 3 (member ltac:(apply Hb)).
  fold (json_of u). rewrite (bind_Ret _ _ _ _ _ (read_sol_Ret u _ Hl)).
  unfold privs. rewrite !length_map, Ha. cbn [negb andb Nat.eqb ipmiMaxChannels].
  set (v2 := v1 <| userPrivAccess := tgt |>).
  rewrite (bind_Ret _ _ _ tt (user_entry i v2 s)); [unfold json_of|].
  - rewrite (bind_Ret _ _ _ _ _ (modify_entry i _ s v2 v Hi)). unfold updatePayloadAccessInUserInfo. rewrite kept_sol.
    member ltac:(apply json_bool_Ret). rewrite (bind_Ret _ _ _ _ _ (modify_entry i _ s _ v Hi)).
    member ltac:(apply json_bool_Ret). rewrite (bind_Ret _ _ _ _ _ (modify_entry i _ s _ v Hi)).
    member ltac:(apply json_bool_Ret). rewrite (modify_entry i _ s _ v Hi). by destruct u, v.
  - apply (mfor_channels _ i tgt s v Hi); [|exact Ha|exact (eq_trans Hv (eq_sym Ha))|done].
    intros ch a t Hc. rewrite !lookup_map. fold tgt. rewrite Hc. cbn [fmap option_fmap option_map default].
    rewrite (bind_Ret _ _ t (privilege a) t); [by destruct a|].
    apply to_ipmi. by eapply (Forall_lookup_1 _ _ _ _ Hp).
Qed.

(** The table that the file of [t] gives back, read into [t0]. *)
Definition restored (t0 t : UsersTbl) : UsersTbl := take 1 t0 ++ map kept (drop 1 t).
Definition channels_ok (u : UserInfo) : Prop := length (userPrivAccess u) = ipmiMaxChannels.
Lemma mfor_users (body : nat -> M UserState unit) tgt :
  (forall i u s v, (0 < i)%nat -> tgt !! i = Some u -> usersTbl s !! i = Some v -> channels_ok v ->
     body i s = Ret tt (user_entry i u s)) ->
  forall n k s, (0 < k)%nat -> length tgt = (k + n)%nat -> length (usersTbl s) = length tgt ->
  take k (usersTbl s) = take k tgt -> Forall channels_ok (drop k (usersTbl s)) ->
  mfor (seq k n) body s = Ret tt (s <| usersTbl := tgt |>).
Proof.
  intros Hbody. induction n as [|n IH]; intros k s Hk Hl Hs Ht Hc; cbn [seq mfor].
  - rewrite !take_ge in Ht by lia. rewrite <- Ht. by destruct s.
  - destruct (lookup_lt_is_Some_2 tgt k ltac:(lia)) as [u Hu].
    destruct (lookup_lt_is_Some_2 (usersTbl s) k ltac:(lia)) as [v Hv].
    rewrite (drop_S _ v) in Hc by done. apply Forall_cons_1 in Hc as [Hcv Hc].
    rewrite (bind_Ret _ _ _ _ _ (Hbody k u s v Hk Hu Hv Hcv)), (IH (S k) (user_entry k u s)); [done|lia|lia| | |].
    + cbn. by rewrite length_insert.
    + by apply insert_next.
    + cbn. by rewrite drop_insert_lt by lia.
Qed.

Lemma length_restored t0 t : length t0 = S ipmiMaxUsers -> length t = S ipmiMaxUsers -> length (restored t0 t) = S ipmiMaxUsers.
Proof. intros H1 H2. unfold restored. rewrite length_app, length_take, length_map, length_drop, H1, H2. done. Qed.
Lemma restored_lookup t0 t i u : length t0 = S ipmiMaxUsers -> (0 < i)%nat -> restored t0 t !! i = Some u ->
  exists v, t !! i = Some v /\ u = kept v.
Proof.
  intros H1 Hi. unfold restored. rewrite lookup_app_r by (rewrite length_take; lia).
  rewrite length_take, H1, lookup_map, lookup_drop. replace (1 + (i - 1 `min` S ipmiMaxUsers))%nat with i by (cbn; lia).
  destruct (t !! i) as [v|]; [|done]. intros [= <-]. by exists v.
Qed.
Lemma readUserData_Ret s t time : table_ok t -> length (usersTbl s) = S ipmiMaxUsers ->
  Forall channels_ok (drop 1 (usersTbl s)) -> userFile s = Some (time, table_json t) ->
  readUserData s = Ret tt (s <| usersTbl := restored (usersTbl s) t |> <| fileUpdated := time |>).
Proof.
  intros Ht Hl Hc Hf. unfold readUserData. rewrite (bind_Ret get _ s s s), Hf by done.
  assert (lib_size (table_json t) = ipmiMaxUsers) as -> by (unfold table_json; by rewrite law_size). rewrite Nat.eqb_refl. cbn [negb].
  unfold table_json. cbv beta iota.
  set (s1 := s <| usersTbl := restored (usersTbl s) t |>).
  rewrite (bind_Ret _ _ s tt s1).
  - unfold getUpdatedFileTime. rewrite (bind_Ret (bind get _) _ s1 time s1); [done|].
    rewrite (bind_Ret get _ s1 s1 s1) by done.
    change (userFile s1) with (userFile s). by rewrite Hf.
  - apply mfor_users; [|lia|by rewrite length_restored by (done || apply Ht)| | |done].
    + intros i u s2 v Hi Hu Hv Hcv. pose proof (lookup_lt_Some _ _ _ Hu) as Hlt.
      rewrite length_restored in Hlt by (done || apply Ht).
      destruct (restored_lookup _ _ _ _ Hl Hi Hu) as (w & Hw & ->).
      erewrite bind_Ret; [|apply json_nth_Ret; rewrite lookup_map; unfold user_indices; rewrite lookup_seq_lt by lia; reflexivity].
      replace (1 + (i - 1))%nat with i by lia. rewrite Hw. apply (read_user_Ret i w s2 v); [|done|done].
      eapply Forall_lookup_1; [apply Ht|done].
    + by rewrite length_restored by (done || apply Ht).
    + unfold restored. rewrite take_app_le by (rewrite length_take; lia). by rewrite take_take.
Qed.

(** ** A table in step with its file *)
Definition settled (s : UserState) : Prop := exists j, userFile s = Some (fileUpdated s, j) /\ fileUpdated s <> 0.
Lemma settled_written s : now s <> 0 -> settled (written s).
Proof. intros H. by eexists. Qed.
Lemma settled_reload s : settled s -> checkAndReloadUserData s = Ret tt s.
Proof.
  intros (j & Hf & Ht). unfold checkAndReloadUserData.
  rewrite (bind_Ret _ _ s (fileUpdated s) s).
  - rewrite (bind_Ret get _ s s s), Z.eqb_refl, (proj2 (Z.eqb_neq _ _) Ht) by done. done.
  - unfold getUpdatedFileTime. rewrite (bind_Ret get _ s s s), Hf by done. done.
Qed.
Lemma getUsersTblPtr_Ret s : settled s -> getUsersTblPtr s = Ret (usersTbl s) s.
Proof. intros H. unfold getUsersTblPtr. by rewrite (bind_Ret _ _ _ _ _ (settled_reload s H)). Qed.
Lemma getUserInfo_Ret s id u : settled s -> usersTbl s !! Z.to_nat id = Some u -> getUserInfo id s = Ret u s.
Proof.
  intros H Hu. unfold getUserInfo. rewrite (bind_Ret _ _ _ _ _ (settled_reload s H)). by apply user_at_Ret.
Qed.
Lemma getUserName_Ret s id u : settled s -> isValidUserId id = true -> usersTbl s !! Z.to_nat id = Some u ->
  getUserName id s = Ret (ccSuccess, userName u) s.
Proof.
  intros H Hv Hu. unfold getUserName. rewrite Hv. cbn [negb]. by rewrite (bind_Ret _ _ _ _ _ (getUserInfo_Ret s id u H Hu)).
Qed.
Lemma write_cc_Ret s : table_ok (usersTbl s) ->
  write_cc s = if writeOk s then Ret ccSuccess (written s) else Ret ccUnspecifiedError s.
Proof.
  intros Ht. unfold write_cc, try. pose proof (writeUserData_cases s Ht) as E. destruct (writeOk s).
  - by rewrite (bind_Ret _ _ _ _ _ E).
  - unfold bind at 1. by rewrite E.
Qed.

(** ** The directory: the names of the entries *)
Definition name_at (t : UsersTbl) (i : nat) : list Z := userName (default zero_user (t !! i)).
Definition distinct_names (t : UsersTbl) : Prop :=
  forall i j, i ∈ user_indices -> j ∈ user_indices -> name_at t i = name_at t j -> name_at t i <> [] -> i = j.
(** A table in step with the system's users [sys]. *)
Record directory (sys : gset (list Z)) (s : UserState) : Prop := {
  dir_table : table_ok (usersTbl s);
  dir_settled : settled s;
  dir_distinct : distinct_names (usersTbl s);
  dir_known : forall i, i ∈ user_indices -> name_at (usersTbl s) i <> [] -> name_at (usersTbl s) i ∈ sys }.
Definition bus_lists (s : UserState) (sys : gset (list Z)) : Prop :=
  exists objs, managedObjects (userBus s) = Some objs /\ list_to_set (map fst objs) = sys.
(** What a call changes in the system. *)
Definition apply_call (b : UserBus) (c : UserCall) (sys : gset (list Z)) : gset (list Z) :=
  match c with
  | DeleteUser n => if deleteOk b then sys ∖ {[n]} else sys
  | CreateUser n _ => if createOk b then {[n]} ∪ sys else sys
  | RenameUser old n => if renameOk b then {[n]} ∪ sys ∖ {[old]} else sys
  | SetEnabled _ _ | SetPrivilege _ _ => sys
  end.

Lemma name_at_insert t i j u : i ∈ user_indices -> length t = S ipmiMaxUsers ->
  name_at (<[i := u]> t) j = if decide (j = i) then userName u else name_at t j.
Proof.
  intros Hi Hl. apply in_user_indices in Hi. unfold name_at. case_decide as E; [subst j|].
  - by rewrite list_lookup_insert_eq by lia.
  - by rewrite list_lookup_insert_ne by congruence.
Qed.
Lemma name_at_lookup t i u : t !! i = Some u -> name_at t i = userName u.
Proof. intros H. unfold name_at. by rewrite H. Qed.
Lemma find_user_Some t name i : distinct_names t -> name <> [] ->
  find_user name t = Some i <-> i ∈ user_indices /\ name_at t i = name.
Proof.
  intros Hd Hn. unfold find_user. rewrite fmap_Some. split.
  - intros ([k x] & H & ->). apply list_find_Some in H as (Hx & Hq & _).
    split; [by eapply list_elem_of_lookup_2|done].
  - intros [Hi Ha]. destruct (list_find (fun i => userName (default zero_user (t !! i)) = name) user_indices)
      as [[k x]|] eqn:E.
    + exists (k, x). split; [done|]. apply list_find_Some in E as (Hx & Hq & _).
      apply Hd; [done|by eapply list_elem_of_lookup_2| |by rewrite Ha]. by rewrite Ha.
    + apply list_find_None in E. by destruct (proj1 (Forall_forall _ _) E i Hi).
Qed.
Lemma find_user_None t name :
  find_user name t = None <-> forall i, i ∈ user_indices -> name_at t i <> name.
Proof.
  unfold find_user. rewrite fmap_None, list_find_None, Forall_forall. done.
Qed.
Lemma getUserId_Ret s name : settled s ->
  getUserId name s = Ret (match find_user name (usersTbl s) with Some i => Z.of_nat i | None => invalidUserId end) s.
Proof. intros H. unfold getUserId. by rewrite (bind_Ret _ _ _ _ _ (getUsersTblPtr_Ret s H)). Qed.

(** ** Names *)
Lemma isValidUserName_Ret s name sys : bus_lists s sys -> exists b, isValidUserName name s = Ret b s /\
  (b = true -> name <> [] /\ name_matches name = true /\ name ∉ sys).
Proof.
  intros (objs & Ho & <-). unfold isValidUserName. destruct name as [|c name]; [by exists false|].
  destruct (name_matches _) eqn:Em; [|by exists false]. cbn [negb].
  destruct (bool_decide _); [by exists false|]. rewrite (bind_Ret get _ s s s), Ho by done.
  eexists. split; [reflexivity|]. intros Hb. split_and!; [done|done|].
  rewrite elem_of_list_to_set, list_elem_of_fmap. intros (o & Eo & Hin).
  apply negb_true_iff, not_true_iff_false in Hb. apply Hb, existsb_exists. exists o.
  split; [by apply list_elem_of_In|]. by apply bool_decide_eq_true.
Qed.
(** Characters of a valid name. *)
Lemma later_char_plain c : later_char c = true -> is_byte c /\ plain_char c /\ c <> colon.
Proof.
  unfold later_char, in_range. rewrite !orb_true_iff, !andb_true_iff, !Z.leb_le, Z.eqb_eq.
  unfold is_byte, plain_char, colon. lia.
Qed.
Lemma first_char_plain c : first_char c = true -> is_byte c /\ plain_char c /\ c <> colon.
Proof.
  unfold first_char, in_range. rewrite !orb_true_iff, !andb_true_iff, !Z.leb_le, Z.eqb_eq.
  unfold is_byte, plain_char, colon. lia.
Qed.
Lemma matching_name_clean name : Forall (fun c => c <> 0) name -> name_matches name = true -> clean_name name.
Proof.
  intros Hz. unfold name_matches. rewrite (PasswdMgrSpec.c_str_id _ Hz). destruct name as [|c l]; [done|].
  intros H. apply andb_prop in H as [Hc Hl].
  assert (Forall (fun c => is_byte c /\ plain_char c /\ c <> colon) (c :: l)) as F.
  { constructor; [by apply first_char_plain|]. apply Forall_forall. intros x Hx.
    apply later_char_plain. by eapply forallb_forall, list_elem_of_In. }
  split_and!; [by eapply Forall_impl; [exact F|]; intros ? (? & ? & ?)..|].
  intros Hin. by destruct (proj1 (Forall_forall _ _) F _ Hin) as (_ & _ & ?).
Qed.

Section Operations.
Context {C : Crypto} {P : PaddedCrypto}.

Lemma ipmiRename_Ret old new s p' : answers old new (passwdMgr s) p' ->
  exists cc, ipmiRenameUserEntryPassword old new s = Ret cc (s <| passwdMgr := p' |>).
Proof.
  intros [r Hr]. unfold ipmiRenameUserEntryPassword, passwd_do.
  rewrite (bind_Ret _ _ s r (s <| passwdMgr := p' |>)); [by eexists|]. unfold zoom. by rewrite Hr.
Qed.
Lemma deleteUserIndex_Ret i s u p' : settled s -> usersTbl s !! i = Some u -> answers (userName u) [] (passwdMgr s) p' ->
  deleteUserIndex i s = Ret tt (user_entry i (clear_user u) (s <| passwdMgr := p' |>)).
Proof.
  intros H Hu Hp. unfold deleteUserIndex.
  rewrite (bind_Ret _ _ _ _ _ (getUsersTblPtr_Ret s H)), (bind_Ret _ _ _ _ _ (user_at_Ret _ _ _ Hu)).
  destruct (ipmiRename_Ret _ _ _ _ Hp) as [cc E].
  rewrite (bind_Ret (ipmiClearUserEntryPassword _) _ s cc _ E). by rewrite (modify_user_Ret i _ _ u) by done.
Qed.
Lemma groups_Ret s : exists b g, isIpmiInAvailableGroupList s = Ret b (s <| availableGroups := g |>).
Proof.
  unfold isIpmiInAvailableGroupList. rewrite (bind_Ret get _ s s s) by done.
  destruct (in_groups _); [exists true, (availableGroups s); by destruct s|].
  destruct (availableGroups s) eqn:E; [|exists false, (availableGroups s); by destruct s].
  unfold getSystemPrivAndGroups. destruct (managerGroups (userBus s)) as [g|] eqn:Eg.
  - rewrite (bind_Ret (modify _) _ s tt (s <| availableGroups := g |>)) by (unfold modify; by rewrite Eg).
    by exists (in_groups g), g.
  - rewrite (bind_Ret (modify _) _ s tt s) by (unfold modify; by rewrite Eg).
    exists (in_groups (availableGroups s)), (availableGroups s). by destruct s.
Qed.

(** The call of the user manager that gives an entry its new name. *)
Inductive Renames (b : UserBus) (sys : gset (list Z)) : list Z -> list Z -> UserCall -> Prop :=
  | Renames_delete old : old <> [] -> deleteOk b = true -> Renames b sys old [] (DeleteUser old)
  | Renames_create name groups : name <> [] -> name ∉ sys -> createOk b = true ->
      Renames b sys [] name (CreateUser name groups)
  | Renames_rename old name : old <> [] -> name <> [] -> name ∉ sys -> renameOk b = true ->
      Renames b sys old name (RenameUser old name).

(** The three ways [setUserName] can go. *)
Inductive SetName (s : UserState) (sys : gset (list Z)) (i : nat) (old name : list Z) : Z -> UserState -> Prop :=
  | SetName_same : old = name -> SetName s sys i old name ccSuccess s
  | SetName_refused cc s' calls : cc <> ccSuccess -> usersTbl s' = usersTbl s -> userBus s' = userBus s -> settled s' ->
      userCalls s' = calls ++ userCalls s -> foldr (apply_call (userBus s)) sys calls = sys ->
      SetName s sys i old name cc s'
  | SetName_done u' c s' : user_ok u' -> userName u' = name -> usersTbl s' = <[i := u']> (usersTbl s) ->
      userBus s' = userBus s -> settled s' -> userCalls s' = c :: userCalls s -> Renames (userBus s) sys old name c ->
      (old <> [] -> answers old name (passwdMgr s) (passwdMgr s')) ->
      (old <> [] -> name <> [] -> forall u, usersTbl s !! i = Some u -> u' = u <| userName := name |> <| userInSystem := true |>) ->
      (writeOk s = true -> userFile s' = Some (now s, table_json (usersTbl s'))) ->
      SetName s sys i old name (if writeOk s then ccSuccess else ccUnspecifiedError) s'.

(** The end of each branch: the entry is written. *)
Lemma write_done s sys i old name c s2 u' : table_ok (usersTbl s2) -> settled s2 -> now s <> 0 -> now s2 = now s -> writeOk s2 = writeOk s ->
  user_ok u' -> userName u' = name -> usersTbl s2 = <[i := u']> (usersTbl s) -> userBus s2 = userBus s ->
  userCalls s2 = c :: userCalls s -> Renames (userBus s) sys old name c ->
  (old <> [] -> answers old name (passwdMgr s) (passwdMgr s2)) ->
  (old <> [] -> name <> [] -> forall u, usersTbl s !! i = Some u -> u' = u <| userName := name |> <| userInSystem := true |>) ->
  exists cc s', write_cc s2 = Ret cc s' /\ SetName s sys i old name cc s'.
Proof.
  intros Ht Hs Hn Hn2 Hw Hu En Et Eb Ec Hr Ha Hk. rewrite write_cc_Ret by done. rewrite Hw.
  pose proof (SetName_done s sys i old name u' c s2) as D.
  pose proof (SetName_done s sys i old name u' c (written s2)) as D'.
  destruct (writeOk s); eexists _, _; (split; [reflexivity|]).
  - apply D'; try done; [apply settled_written; congruence|]. intros _. cbn. by rewrite Hn2.
  - by apply D.
Qed.

Lemma user_ok_clear u : user_ok u -> user_ok (clear_user u).
Proof.
  intros [Hn Ha Hp Hl]. constructor; cbn; [apply name_fits_nil|by rewrite length_map| |done].
  apply Forall_map. eapply Forall_impl; [exact Hp|]. intros ? _. by right.
Qed.
Lemma user_ok_named u name b : user_ok u -> name_fits name ->
  user_ok (u <| userName := name |> <| userInSystem := b |>).
Proof. intros [Hn Ha Hp Hl] Hf. by constructor. Qed.
Lemma user_ok_privileges u p : user_ok u -> valid_privilege p -> user_ok (all_privileges p u).
Proof.
  intros [Hn Ha Hp Hl] Hv. constructor; cbn; [done|by rewrite length_map| |done].
  apply Forall_map, Forall_forall. by intros.
Qed.
Lemma copy_name_Ret i name s u : name_fits name -> usersTbl s !! i = Some u ->
  copy_name i name s = Ret tt (user_entry i (u <| userName := name |>) s).
Proof.
  intros (_ & Hn & Hz) Hu. unfold copy_name. rewrite (proj2 (Nat.ltb_ge _ _)), (PasswdMgrSpec.c_str_id _ Hz) by done.
  by rewrite (modify_user_Ret i _ _ u) by done.
Qed.
Lemma call_Ret c ok s : call c ok s = Ret (ok (userBus s)) (s <| userCalls := c :: userCalls s |>).
Proof. reflexivity. Qed.

Section SetName.
Variables (s : UserState) (sys : gset (list Z)) (id : Z) (name : list Z) (u : UserInfo) (p' : PasswdState).
Hypothesis Htable : table_ok (usersTbl s).
Hypothesis Hsettled : settled s.
Hypothesis Hnow : now s <> 0.
Hypothesis Hbus : bus_lists s sys.
Hypothesis Hvalid : isValidUserId id = true.
Hypothesis Hu : usersTbl s !! Z.to_nat id = Some u.
Hypothesis Hname : name_fits name.
Hypothesis Hanswers : answers (userName u) name (passwdMgr s) p'.

Let i := Z.to_nat id.
Let Hok : user_ok u.
Proof. eapply Forall_lookup_1; [apply Htable|exact Hu]. Qed.

Lemma delete_branch : name = [] -> userName u <> [] -> exists cc s',
  (let! ok := call (DeleteUser (userName u)) deleteOk in
   if negb ok then ret ccUnspecifiedError else deleteUserIndex i ;;; write_cc) s = Ret cc s' /\
  SetName s sys i (userName u) name cc s'.
Proof.
  intros -> Ho. set (c := DeleteUser (userName u)). set (s1 := s <| userCalls := c :: userCalls s |>).
  rewrite (bind_Ret _ _ _ _ _ (call_Ret c deleteOk s)). fold s1.
  destruct (deleteOk (userBus s)) eqn:Ed; cbn [negb].
  - rewrite (bind_Ret _ _ _ _ _ (deleteUserIndex_Ret i s1 u p' Hsettled Hu Hanswers)).
    apply (write_done _ _ _ _ _ c _ (clear_user u)); try done; [by apply table_insert, user_ok_clear|by apply user_ok_clear|by constructor].
  - eexists _, _. split; [reflexivity|]. apply (SetName_refused _ _ _ _ _ _ _ [c]); try done. cbn. by rewrite Ed.
Qed.

Lemma create_branch : name <> [] -> name ∉ sys -> userName u = [] -> exists cc s',
  (let! available := isIpmiInAvailableGroupList in
   if negb available then ret ccUnspecifiedError
   else
     let! s := get in
     let! ok := call (CreateUser (c_str name) (availableGroups s)) createOk in
     if negb ok then ret ccUnspecifiedError
     else
       copy_name i name ;;;
       modify_user i (fun u => all_privileges PRIVILEGE_USER (u <| userInSystem := true |>)) ;;;
       write_cc) s = Ret cc s' /\
  SetName s sys i (userName u) name cc s'.
Proof.
  intros Hn Hsys Ho. rewrite (PasswdMgrSpec.c_str_id name (proj2 (proj2 Hname))). destruct (groups_Ret s) as (b & g & E). rewrite (bind_Ret _ _ _ _ _ E).
  set (s0 := s <| availableGroups := g |>). destruct b; cbn [negb].
  - set (c := CreateUser name g). set (s1 := s0 <| userCalls := c :: userCalls s |>).
    rewrite (bind_Ret get _ s0 s0 s0), (bind_Ret _ _ _ _ _ (call_Ret c createOk s0)) by done. fold s1.
    change (userBus s0) with (userBus s). destruct (createOk (userBus s)) eqn:Ec; cbn [negb].
    + rewrite (bind_Ret _ _ _ _ _ (copy_name_Ret i name s1 u Hname Hu)).
      rewrite (bind_Ret _ _ _ _ _ (modify_entry i _ s1 _ u Hu)). set (u' := all_privileges _ _).
      assert (user_ok u') by (apply user_ok_privileges; [by apply user_ok_named|left; unfold PRIVILEGE_USER; lia]).
      apply (write_done _ _ _ _ _ c _ u'); try done; [by apply table_insert|rewrite Ho; by constructor].
    + eexists _, _. split; [reflexivity|]. apply (SetName_refused _ _ _ _ _ _ _ [c]); try done. cbn. by rewrite Ec.
  - eexists _, _. split; [reflexivity|]. by apply (SetName_refused _ _ _ _ _ _ _ []).
Qed.

Lemma rename_branch : name <> [] -> name ∉ sys -> userName u <> [] -> exists cc s',
  (let! ok := call (RenameUser (userName u) (c_str name)) renameOk in
   if negb ok then ret ccUnspecifiedError
   else
     copy_name i name ;;;
     ipmiRenameUserEntryPassword (userName u) name ;;;
     modify_user i (fun u => u <| userInSystem := true |>) ;;;
     write_cc) s = Ret cc s' /\
  SetName s sys i (userName u) name cc s'.
Proof.
  intros Hn Hsys Ho. rewrite (PasswdMgrSpec.c_str_id name (proj2 (proj2 Hname))). set (c := RenameUser (userName u) name). set (s1 := s <| userCalls := c :: userCalls s |>).
  rewrite (bind_Ret _ _ _ _ _ (call_Ret c renameOk s)). fold s1.
  destruct (renameOk (userBus s)) eqn:Er; cbn [negb].
  - rewrite (bind_Ret _ _ _ _ _ (copy_name_Ret i name s1 u Hname Hu)).
    destruct (ipmiRename_Ret _ _ (user_entry i (u <| userName := name |>) s1) p' Hanswers) as [cc E].
    rewrite (bind_Ret _ _ _ _ _ E). set (s2 := s1 <| passwdMgr := p' |>).
    change ((user_entry i _ s1) <| passwdMgr := p' |>) with (user_entry i (u <| userName := name |>) s2).
    rewrite (bind_Ret _ _ _ _ _ (modify_entry i _ s2 _ u Hu)).
    set (u' := _ <| userInSystem := true |>). assert (user_ok u') by (by apply user_ok_named).
    apply (write_done _ _ _ _ _ c _ u'); try done; [by apply table_insert|by constructor|]. intros _ _ v Hv. fold i in Hu. rewrite Hv in Hu. by injection Hu as ->.
  - eexists _, _. split; [reflexivity|]. apply (SetName_refused _ _ _ _ _ _ _ [c]); try done. cbn. by rewrite Er.
Qed.

Lemma setUserName_cases : exists cc s', setUserName id name s = Ret cc s' /\ SetName s sys i (userName u) name cc s'.
Proof.
  unfold setUserName. rewrite Hvalid. cbn [negb].
  rewrite (bind_Ret _ _ _ _ _ (getUserName_Ret s id u Hsettled Hvalid Hu)). cbv beta iota.
  destruct (bool_decide_reflect (userName u = name)) as [E|Hne].
  { eexists _, _. split; [reflexivity|]. by constructor. }
  destruct (isValidUserName_Ret s name sys Hbus) as (b & E & Hb). rewrite (bind_Ret _ _ _ _ _ E).
  rewrite (bind_Ret _ _ _ _ _ (getUserInfo_Ret s id u Hsettled Hu)).
  assert (forall cc, cc <> ccSuccess -> exists cc' s', ret cc s = Ret cc' s' /\ SetName s sys i (userName u) name cc' s') as R.
  { intros cc Hcc. eexists _, _. split; [reflexivity|]. by apply (SetName_refused _ _ _ _ _ _ _ []). }
  specialize (R ccInvalidFieldRequest ltac:(done)). revert Hne Hb R.
  generalize create_branch delete_branch rename_branch. clear -Hu.
  destruct (userName u) as [|oc ol], name as [|nc nl]; intros Hc Hd Hr Hne Hb R; [done| |by apply Hd|].
  - destruct b; [|exact R]. destruct Hb as (? & _ & ?); auto.
  - destruct b; [|exact R]. destruct Hb as (? & _ & ?); auto.
Qed.
End SetName.

Lemma foldr_calls b calls sys : calls = [] -> foldr (apply_call b) sys calls = sys.
Proof. by intros ->. Qed.
(** A new name in one entry, known to the system from then on. *)
Lemma directory_renamed sys s s' i u' c old : directory sys s -> i ∈ user_indices -> name_at (usersTbl s) i = old ->
  user_ok u' -> usersTbl s' = <[i := u']> (usersTbl s) -> settled s' -> Renames (userBus s) sys old (userName u') c ->
  directory (apply_call (userBus s) c sys) s'.
Proof.
  intros [Ht Hs Hd Hk] Hi Ho Hu Et Hs' Hr.
  assert (forall j, name_at (usersTbl s') j = if decide (j = i) then userName u' else name_at (usersTbl s) j) as En
    by (intros j; rewrite Et; by apply name_at_insert, Ht).
  assert (forall j, j ∈ user_indices -> j <> i -> name_at (usersTbl s) j <> [] ->
    name_at (usersTbl s) j <> userName u' /\ name_at (usersTbl s) j <> old) as Hother.
  { intros j Hj Hji Hne. split; [|intros E; apply Hji, Hd; [done|done|congruence|done]].
    intros E. destruct Hr as [| | ]; [by rewrite E in Hne|by apply Hk in Hne; [rewrite E in Hne|]..]. }
  constructor; [rewrite Et; by apply table_insert|done| |].
  - intros j k Hj Hk'. rewrite !En. case_decide as E1; case_decide as E2; [congruence| | |by apply Hd].
    + intros E Hne. destruct (Hother k); [done|done|congruence|congruence].
    + intros E Hne. destruct (Hother j); [done|done|done|congruence].
  - intros j Hj. rewrite En. case_decide as E.
    + intros Hne. destruct Hr as [|? ? ? ? Hb|? ? ? ? ? Hb]; [done| |]; cbn [apply_call]; rewrite Hb; set_solver.
    + intros Hne. destruct (Hother j Hj E Hne) as [H1 H2]. specialize (Hk j Hj Hne).
      destruct Hr as [? ? Hb|? ? ? ? Hb|? ? ? ? ? Hb]; cbn [apply_call]; rewrite Hb; set_solver.
Qed.
Lemma SetName_directory sys s i old name cc s' : directory sys s -> i ∈ user_indices -> name_at (usersTbl s) i = old ->
  SetName s sys i old name cc s' -> exists calls, userCalls s' = calls ++ userCalls s /\
    directory (foldr (apply_call (userBus s)) sys calls) s'.
Proof.
  intros Hdir Hi Ho [E|cc' s1 calls Hcc Et Eb Hs Ec Ef|u' c s1 Hu En Et Eb Hs Ec Hr _ _ _].
  - by exists [].
  - exists calls. split; [done|]. rewrite Ef. destruct Hdir as [H1 H2 H3 H4]. by constructor; rewrite ?Et.
  - exists [c]. split; [done|]. cbn [foldr]. subst name. by eapply directory_renamed.
Qed.
(** The names after a success. *)
Lemma SetName_names sys s i old name s' : table_ok (usersTbl s) -> i ∈ user_indices -> name_at (usersTbl s) i = old ->
  SetName s sys i old name ccSuccess s' ->
  settled s -> settled s' /\ forall j, name_at (usersTbl s') j = if decide (j = i) then name else name_at (usersTbl s) j.
Proof.
  intros Ht Hi Ho H Hs. inversion H as [E|? ? ? Hcc|u' c ? ? En Et ? Hs' ? ? ? ? ? Ecc]; subst.
  - split; [done|]. intros j. by case_decide; [subst|].
  - done.
  - split; [done|]. intros j. rewrite Et. by apply name_at_insert, Ht.
Qed.

(** Setting, changing or removing a user's name, on
    every branch: the call returns; the names stay distinct and each one is a
    user of the system as the calls made on it leave the system; on success
    exactly this entry has the new name; on an error, unless it is the file that
    could not be written, the table is as it was. *)
Theorem naming_keeps_directory sys s id name p' :
  directory sys s -> now s <> 0 -> bus_lists s sys -> is_byte id -> name_fits name ->
  answers (name_at (usersTbl s) (Z.to_nat id)) name (passwdMgr s) p' ->
  exists cc s' calls, setUserName id name s = Ret cc s' /\ userCalls s' = calls ++ userCalls s /\
    directory (foldr (apply_call (userBus s)) sys calls) s' /\
    (cc = ccSuccess -> forall j, name_at (usersTbl s') j = if decide (j = Z.to_nat id) then name else name_at (usersTbl s) j) /\
    (cc <> ccSuccess -> writeOk s = true -> usersTbl s' = usersTbl s).
Proof.
  intros Hd Hn Hb Hid Hname Ha. destruct (isValidUserId id) eqn:Hv.
  - destruct (valid_index id Hid Hv) as [Hi _]. pose proof Hd as [Ht Hs _ _].
    destruct (table_lookup _ _ Ht (proj2 Hi)) as (u & Hu & _). rewrite (name_at_lookup _ _ _ Hu) in Ha.
    destruct (setUserName_cases s sys id name u p' Ht Hs Hn Hb Hv Hu Hname Ha) as (cc & s' & E & H).
    apply in_user_indices in Hi. pose proof (name_at_lookup _ _ _ Hu) as Ho.
    destruct (SetName_directory _ _ _ _ _ _ _ Hd Hi Ho H) as (calls & Ec & Hd').
    exists cc, s', calls. split_and!; [done|done|done| |].
    + intros ->. by destruct (SetName_names _ _ _ _ _ _ Ht Hi Ho H Hs).
    + intros Hcc Hw. destruct H as [|cc' s1 ? ? Et|u' c s1]; [done|done|]. by rewrite Hw in Hcc.
  - exists ccParmOutOfRange, s, []. split_and!; [unfold setUserName; by rewrite Hv|done|done|done|done].
Qed.

(** After a name is set, the number of every name is
    what it was, except that the new name has the entry's number and the old one
    no number any more (0xFF, which no command accepts); the entry's number
    gives back the new name. *)
Theorem lookup_follows_name sys s id name p' s' :
  directory sys s -> now s <> 0 -> bus_lists s sys -> is_byte id -> isValidUserId id = true -> name_fits name ->
  answers (name_at (usersTbl s) (Z.to_nat id)) name (passwdMgr s) p' ->
  setUserName id name s = Ret ccSuccess s' ->
  getUserName id s' = Ret (ccSuccess, name) s' /\
  forall n k, n <> [] -> getUserId n s = Ret k s ->
    getUserId n s' = Ret (if decide (n = name) then id
                          else if decide (n = name_at (usersTbl s) (Z.to_nat id)) then invalidUserId else k) s'.
Proof.
  intros Hd Hn Hb Hid Hv Hname Ha E. destruct (valid_index id Hid Hv) as [Hi Hz]. pose proof Hd as [Ht Hs Hdist _].
  destruct (table_lookup _ _ Ht (proj2 Hi)) as (u & Hu & _). pose proof (name_at_lookup _ _ _ Hu) as Ho.
  rewrite Ho in Ha. apply in_user_indices in Hi.
  destruct (setUserName_cases s sys id name u p' Ht Hs Hn Hb Hv Hu Hname Ha) as (cc & s1 & E1 & H).
  rewrite E in E1. injection E1 as <- <-.
  destruct (SetName_directory _ _ _ _ _ _ _ Hd Hi Ho H) as (calls & _ & [Ht' Hs' Hdist' _]).
  destruct (SetName_names _ _ _ _ _ _ Ht Hi Ho H Hs) as [_ Hnames]. split.
  - destruct (table_lookup (usersTbl s') (Z.to_nat id) Ht') as (v & Hv' & _); [by apply in_user_indices in Hi; lia|].
    rewrite (getUserName_Ret s' id v Hs' Hv Hv'). pose proof (Hnames (Z.to_nat id)) as Hnm.
    rewrite (name_at_lookup _ _ _ Hv'), decide_True in Hnm by done. by rewrite Hnm.
  - intros n k Hne. rewrite !getUserId_Ret by done. intros Ek. injection Ek as <-. f_equal.
    pose proof (find_user_Some (usersTbl s') n) as F'. pose proof (find_user_Some (usersTbl s) n) as F.
    case_decide as Hnn; [|case_decide as Hno].
    + rewrite (proj2 (F' (Z.to_nat id) Hdist' Hne)); [by rewrite Hz|]. split; [done|]. by rewrite Hnames, decide_True.
    + rewrite (proj2 (find_user_None _ _)); [done|]. intros j Hj. rewrite Hnames. case_decide; [congruence|].
      intros Ej. assert (j = Z.to_nat id); [|done]. apply Hdist; [done|done|congruence|congruence].
    + destruct (find_user n (usersTbl s)) as [j|] eqn:Ef.
      * destruct (proj1 (F j Hdist Hne) eq_refl) as [Hj Ej]. rewrite (proj2 (F' j Hdist' Hne)); [done|].
        split; [done|]. rewrite Hnames. case_decide; [congruence|done].
      * rewrite (proj2 (find_user_None _ _)); [done|]. intros j Hj. rewrite Hnames.
        rewrite find_user_None in Ef. case_decide; [congruence|by apply Ef].
Qed.

(** C13. When the command layer renames a user or removes
    it, the new name gets exactly the old password, the old name has none any
    more, and every other user keeps its own: the password file is decrypted,
    the one line is rewritten within the buffer, encrypted and put in place, and
    the next question for a password reads it again. *)
Theorem password_follows_user {CL : CryptoLaws C} {PL : PaddedLaws P} sys s id name data s' :
  directory sys s -> now s <> 0 -> bus_lists s sys -> is_byte id -> isValidUserId id = true ->
  name_fits name -> clean_name name -> passwords_ready (passwdMgr s) data ->
  Z.of_nat (length data + length name) + 32 < 2 ^ 32 ->
  (name <> [] -> name ∉ map fst (entries data)) ->
  setUserName id name s = Ret ccSuccess s' ->
  let old := name_at (usersTbl s) (Z.to_nat id) in
  old <> [] -> old <> name ->
  forall user, exists s'', ipmiUserGetPassword user s' = Ret (renamed_password old name data user) s''.
Proof.
  intros Hd Hn Hb Hid Hv Hname Hc Hp Hsz Hnew E old Hne Hno user.
  destruct (valid_index id Hid Hv) as [Hi _]. pose proof Hd as [Ht Hs _ _].
  destruct (table_lookup _ _ Ht (proj2 Hi)) as (u & Hu & _). pose proof (name_at_lookup _ _ _ Hu) as Ho.
  fold old in Ho.
  destruct (passwords_renamed (passwdMgr s) data old name Hp Hsz Hc Hnew) as (p' & U & _ & _ & G).
  assert (answers (userName u) name (passwdMgr s) p') as Ha by (exists 0; by rewrite <- Ho).
  destruct (setUserName_cases s sys id name u p' Ht Hs Hn Hb Hv Hu Hname Ha) as (cc & s1 & E1 & H).
  rewrite E in E1. injection E1 as <- <-.
  inversion H as [|? ? ? Hcc|u' c s2 ? ? ? ? ? ? ? Hans ? ? Ecc]; subst; [congruence|done|].
  destruct (Hans ltac:(congruence)) as [r Hr]. rewrite <- Ho, U in Hr. injection Hr as _ Ep.
  destruct (G user) as [p2 G2]. unfold ipmiUserGetPassword, passwd_do, zoom. rewrite <- Ep, G2. by eexists.
Qed.
End Operations.

(** A process that has not loaded this file yet loads it at its next look. *)
Lemma reader_reloads t time s2 : table_ok t -> userFile s2 = Some (time, table_json t) -> fileUpdated s2 <> time ->
  time <> 0 -> exists s3, checkAndReloadUserData s2 = Ret tt s3 /\ settled s3 /\ passwdMgr s3 = passwdMgr s2 /\
    forall i, i ∈ user_indices -> usersTbl s3 !! i = kept <$> t !! i.
Proof.
  intros Ht Hf Hne Hn. set (s0 := s2 <| usersTbl := zero_table |>).
  pose proof (readUserData_Ret s0 t time Ht) as R.
  set (s3 := s0 <| usersTbl := restored zero_table t |> <| fileUpdated := time |>) in R.
  assert (readUserData s0 = Ret tt s3) as R'.
  { apply R; [done| |exact Hf]. apply Forall_forall. intros x Hx.
    apply (Forall_forall (fun u => channels_ok u) (drop 1 zero_table)); [by repeat constructor|done]. }
  exists s3. split; [|split; [|split; [done|]]].
  - unfold checkAndReloadUserData, getUpdatedFileTime.
    rewrite (bind_Ret (bind get _) _ s2 time s2) by (rewrite (bind_Ret get _ s2 s2 s2), Hf by done; done).
    rewrite (bind_Ret get _ s2 s2 s2) by done. rewrite (proj2 (Z.eqb_neq time (fileUpdated s2))) by congruence.
    cbn [negb orb]. by rewrite (bind_Ret (modify _) _ s2 tt s0).
  - exists (table_json t). by split.
  - intros i Hi. apply in_user_indices in Hi. change (usersTbl s3) with (restored zero_table t).
    unfold restored. rewrite lookup_app_r by (cbn; lia). rewrite lookup_map, lookup_drop.
    by replace (1 + (i - length (take 1 zero_table)))%nat with i by (cbn; lia).
Qed.

(** What is written is what the next start reads: after
    [writeUserData], any process that sees this file and has not loaded it yet
    gets, at its next look at the table, exactly the entries written, with all
    names, privileges per channel and flags, and of the payloads SOL. *)
Theorem users_survive_restart s s2 : table_ok (usersTbl s) -> writeOk s = true -> now s <> 0 ->
  exists s1, writeUserData s = Ret tt s1 /\
    (userFile s2 = userFile s1 -> fileUpdated s2 <> now s ->
     exists s3, getUsersTblPtr s2 = Ret (usersTbl s3) s3 /\ settled s3 /\
       forall i, i ∈ user_indices -> usersTbl s3 !! i = kept <$> usersTbl s !! i).
Proof.
  intros Ht Hw Hn. exists (written s). split; [by rewrite writeUserData_cases, Hw|]. intros Hf Hne.
  destruct (reader_reloads (usersTbl s) (now s) s2 Ht Hf Hne Hn) as (s3 & E & Hs & _ & Hk). exists s3. split; [|done].
  unfold getUsersTblPtr. by rewrite (bind_Ret _ _ _ _ _ E).
Qed.

End Library.

(** ** A sample *)
#[local] Existing Instances sample_json sample_json_laws.

Definition ann : list Z := bytes_of_string "ann".
Definition bob : list Z := bytes_of_string "bob".
Definition cat : list Z := bytes_of_string "cat".
Definition sample_user (name : list Z) : UserInfo :=
  zero_user <| userName := name |> <| userInSystem := true |> <| userEnabled := true |>
            <| userPrivAccess := replicate ipmiMaxChannels
                 {| privilege := 4; ipmiEnabled := true; linkAuthEnabled := true; accessCallback := false |} |>
            <| payloadAccess := replicate ipmiMaxChannels {| stdPayloadEnables1 := 2; oemPayloadEnables1 := 0 |} |>.
Definition sample_table : UsersTbl := <[3%nat := sample_user bob]> (<[1%nat := sample_user ann]> zero_table).
Definition group_member (priv : list Z) (enabled : bool) : option UserProps :=
  Some {| up_priv := Some priv; up_groups := Some [ipmiGrpName]; up_enabled := Some enabled |}.
Definition priv_admin : list Z := bytes_of_string "priv-admin".
Definition sample_bus : UserBus :=
  {| managedObjects := Some [(root_name, None); (ann, group_member priv_admin true); (bob, group_member priv_admin true)];
     deleteOk := true; createOk := true; renameOk := true; setPropertyOk := true;
     managerGroups := Some [ipmiGrpName]; userProperties := None; pam := fun _ _ => PAM_SUCCESS |}.
Definition sample_users : UserState :=
  {| usersTbl := sample_table; fileUpdated := 7; userFile := Some (7, table_json sample_table); availableGroups := [];
     now := 9; writeOk := true; syncIndex := 1; userBus := sample_bus; userCalls := []; passwdMgr := sample_state |}.
Definition sample_system : gset (list Z) := {[root_name; ann; bob]}.

Lemma sample_user_ok name : name_fits name -> user_ok (sample_user name).
Proof. intros H. constructor; [exact H|done| |done]. apply Forall_replicate. left. cbn. lia. Qed.
Ltac fits := unfold name_fits, clean_name, bytes, is_byte, plain_char; apply (bool_decide_unpack _); vm_compute; exact I.
Lemma sample_table_ok : table_ok sample_table.
Proof. apply table_insert, sample_user_ok; [|fits]. apply table_insert, sample_user_ok; [|fits]. apply zero_table_ok. Qed.
Lemma sample_names i : name_at sample_table i = if decide (i = 3%nat) then bob else if decide (i = 1%nat) then ann else [].
Proof.
  assert (1%nat ∈ user_indices /\ 3%nat ∈ user_indices) as [H1 H3]
    by (rewrite !in_user_indices; unfold ipmiMaxUsers; lia).
  unfold sample_table. rewrite (name_at_insert _ 3%nat) by done. case_decide; [done|].
  rewrite (name_at_insert _ 1%nat) by done. case_decide; [done|]. unfold name_at, zero_table.
  destruct (replicate _ _ !! i) as [u|] eqn:E; [|done]. by apply lookup_replicate_1 in E as [-> _].
Qed.
Lemma sample_directory : directory sample_system sample_users.
Proof.
  constructor; [apply sample_table_ok|by eexists| |].
  - intros i j _ _. change (usersTbl sample_users) with sample_table. rewrite !sample_names.
    repeat case_decide; subst; try done.
  - intros i _. change (usersTbl sample_users) with sample_table. rewrite sample_names.
    repeat case_decide; unfold sample_system; intros; [set_solver..|done].
Qed.
Lemma sample_bus_lists : bus_lists sample_users sample_system.
Proof. eexists. split; [reflexivity|]. unfold sample_system. cbn [map fst list_to_set foldr]. set_solver. Qed.

(** The manager's state after bob is renamed, and after ann is removed. *)
Definition passwd_after (old new : list Z) : PasswdState :=
  match updateUserEntry old new sample_state with Ret _ p => p | _ => sample_state end.
Lemma sample_rename_answers : answers bob cat sample_state (passwd_after bob cat).
Proof.
  destruct (passwords_renamed sample_state sample_text bob cat sample_ready) as (p' & E & _);
    [vm_compute; reflexivity|fits|intros _; apply (bool_decide_unpack _); vm_compute; exact I|].
  exists 0. unfold passwd_after. by rewrite E.
Qed.

Lemma naming_keeps_directory_witness : exists cc s' calls,
  setUserName 3 cat sample_users = Ret cc s' /\ userCalls s' = calls ++ [] /\
  directory (foldr (apply_call sample_bus) sample_system calls) s' /\
  (cc = ccSuccess -> forall j, name_at (usersTbl s') j = if decide (j = 3%nat) then cat else name_at sample_table j) /\
  (cc <> ccSuccess -> true = true -> usersTbl s' = sample_table).
Proof.
  apply (naming_keeps_directory sample_system sample_users 3 cat (passwd_after bob cat)).
  - exact sample_directory.
  - discriminate.
  - exact sample_bus_lists.
  - unfold is_byte. lia.
  - fits.
  - exact sample_rename_answers.
Defined.

(** The state after bob is renamed. *)
Definition sample_renamed : UserState := match setUserName 3 cat sample_users with Ret _ s => s | _ => sample_users end.
Lemma sample_renamed_run : setUserName 3 cat sample_users = Ret ccSuccess sample_renamed.
Proof.
  destruct (setUserName_cases sample_users sample_system 3 cat (sample_user bob) (passwd_after bob cat)) as (cc & s' & E & H).
  - exact sample_table_ok.
  - by eexists.
  - discriminate.
  - exact sample_bus_lists.
  - reflexivity.
  - reflexivity.
  - fits.
  - exact sample_rename_answers.
  - assert (match setUserName 3 cat sample_users with Ret cc _ => cc | _ => 1 end = 0) as Ecc by (vm_compute; reflexivity).
    unfold sample_renamed. rewrite E in Ecc |- *. by rewrite Ecc.
Qed.
Lemma lookup_follows_name_witness : getUserName 3 sample_renamed = Ret (ccSuccess, cat) sample_renamed /\
  forall n k, n <> [] -> getUserId n sample_users = Ret k sample_users ->
    getUserId n sample_renamed =
    Ret (if decide (n = cat) then 3 else if decide (n = name_at sample_table 3) then invalidUserId else k) sample_renamed.
Proof.
  apply (lookup_follows_name sample_system sample_users 3 cat (passwd_after bob cat)).
  - exact sample_directory.
  - discriminate.
  - exact sample_bus_lists.
  - unfold is_byte. lia.
  - reflexivity.
  - fits.
  - exact sample_rename_answers.
  - exact sample_renamed_run.
Defined.
Lemma password_follows_user_witness :
  (exists s'', ipmiUserGetPassword cat sample_renamed = Ret (renamed_password bob cat sample_text cat) s'') /\
  (exists s'', ipmiUserGetPassword bob sample_renamed = Ret (renamed_password bob cat sample_text bob) s'').
Proof.
  split.
  all: apply (password_follows_user sample_system sample_users 3 cat sample_text sample_renamed).
  all: first [ exact sample_directory
    | exact sample_bus_lists
    | exact sample_ready
    | exact sample_renamed_run
    | reflexivity
    | discriminate
    | solve [fits]
    | solve [unfold is_byte; lia]
    | solve [vm_compute; reflexivity]
    | (intros _; apply (bool_decide_unpack _); vm_compute; exact I) ].
Defined.

(** A process that starts with the file: nothing loaded yet. *)
Definition sample_restarted : UserState :=
  sample_users <| usersTbl := zero_table |> <| fileUpdated := 0 |> <| userFile := Some (9, table_json sample_table) |>.
Lemma users_survive_restart_witness : exists s3, getUsersTblPtr sample_restarted = Ret (usersTbl s3) s3 /\ settled s3 /\
  forall i, i ∈ user_indices -> usersTbl s3 !! i = kept <$> sample_table !! i.
Proof.
  destruct (users_survive_restart sample_users sample_restarted sample_table_ok eq_refl ltac:(discriminate)) as (s1 & E & H).
  apply H; [|discriminate]. rewrite writeUserData_cases in E by exact sample_table_ok. by injection E as <-.
Defined.
