(* ===== verification/UserSyncSpec.v ===== *)
(** * Properties of the synchronisation of the users

    After the start of the service the table is exactly the system's users of
    the group, as far as there is room. *)
From Stdlib Require Import ZArith Lia String.
From stdpp Require Import base list gmap strings.
From S2P Require Import Prelude CxxStd RmcpMessage RmcpCrypto RmcpSample Json IpmiMessage IpmiDispatch PasswdMgr PasswdMgrSpec UserMgmt UserMgmtSpec UserSync.
Local Open Scope Z_scope.

(** ** Privileges by name *)
Definition known_priv (l : list Z) (p : Z) : Prop := convertToIPMIPrivilege l tt = Ret p tt.
Lemma known_priv_any {S} l p (s : S) : known_priv l p -> convertToIPMIPrivilege l s = Ret p s.
Proof.
  unfold known_priv, convertToIPMIPrivilege. destruct (list_find _ _) as [[i x]|]; [by intros [= <-]|].
  destruct l; [by intros [= <-]|done].
Qed.
Lemma known_priv_valid l p : known_priv l p -> valid_privilege p.
Proof.
  unfold known_priv, convertToIPMIPrivilege. destruct (list_find _ _) as [[i x]|] eqn:E.
  - intros [= <-]. apply list_find_Some in E as (Hx & _ & _). apply lookup_lt_Some in Hx.
    change (length ipmiPrivIndex) with 6%nat in Hx. left. lia.
  - destruct l; [|done]. intros [= <-]. by right.
Qed.
Lemma valid_privilege_mask p : valid_privilege p -> Z.land (u8 p) privMask = p /\ Z.land p privMask = p.
Proof.
  intros H. assert (u8 p = p) as -> by (apply u8_small; unfold is_byte; destruct H as [| ->]; [lia|unfold privNoAccess; lia]).
  destruct H as [H| ->]; [|done]. unfold privMask. change 15 with (2 ^ 4 - 1). rewrite land_mask, Z.mod_small by lia. done.
Qed.

(** ** Objects and entries *)
Definition obj_vars (o : option UserProps) : SignalVars := default no_vars (getUserObjProperties o no_vars).
Definition member (o : option UserProps) : bool := in_groups (v_groups (obj_vars o)).
(** What the user manager may list. *)
Record objects_ok (objs : ManagedObjs) : Prop := {
  oo_distinct : NoDup (map fst objs);
  oo_members : forall n o, (n, o) ∈ objs -> member o = true ->
    n <> [] /\ name_fits n /\ exists p, known_priv (v_priv (obj_vars o)) p }.
(** An entry that is one of the objects, with its state and its privilege on the
    channel [k]. *)
Definition follows (k : nat) (objs : ManagedObjs) (u : UserInfo) : Prop :=
  exists o, (userName u, o) ∈ objs /\ member o = true /\ userEnabled u = v_enabled (obj_vars o) /\
    known_priv (v_priv (obj_vars o)) (privilege (default zero_access (userPrivAccess u !! k))).
Definition flagged (u : UserInfo) : Prop := userInSystem u = negb (bool_decide (userName u = [])).
Definition entry (t : UsersTbl) (i : nat) : UserInfo := default zero_user (t !! i).

Lemma entry_insert t i j u : i ∈ user_indices -> length t = S ipmiMaxUsers ->
  entry (<[i := u]> t) j = if decide (j = i) then u else entry t j.
Proof.
  intros Hi Hl. apply in_user_indices in Hi. unfold entry. case_decide as E; [subst j|].
  - by rewrite list_lookup_insert_eq by lia.
  - by rewrite list_lookup_insert_ne by congruence.
Qed.
Lemma entry_lookup t i : table_ok t -> i ∈ user_indices -> t !! i = Some (entry t i) /\ user_ok (entry t i).
Proof.
  intros Ht Hi. apply in_user_indices in Hi. destruct (table_lookup t i Ht) as (u & Hu & Ho); [lia|].
  unfold entry. by rewrite Hu.
Qed.
Lemma entry_name t i : name_at t i = userName (entry t i).
Proof. done. Qed.

Lemma take_object_Some name objs o rest : NoDup (map fst objs) -> take_object name objs = Some (o, rest) ->
  (name, o) ∈ objs /\ NoDup (map fst rest) /\ forall x, x ∈ rest <-> x ∈ objs /\ fst x <> name.
Proof.
  unfold take_object. intros Hd. destruct (list_find _ _) as [[i [n o']]|] eqn:E; [|done]. intros [= <- <-].
  apply list_find_Some in E as (Hx & Hn & _). cbn [fst snd] in *. subst n.
  assert (forall x, x ∈ List.filter (fun o => negb (bool_decide (fst o = name))) objs <-> x ∈ objs /\ fst x <> name) as F.
  { intros x. rewrite !list_elem_of_In, filter_In, negb_true_iff, bool_decide_eq_false. done. }
  split; [by eapply list_elem_of_lookup_2|]. split; [|exact F].
  clear -Hd. induction objs as [|x objs IH]; [constructor|]. cbn [map] in Hd. apply NoDup_cons in Hd as [Hn Hd].
  cbn [List.filter]. destruct (negb _); [|by apply IH]. cbn [map]. apply NoDup_cons. split; [|by apply IH].
  intros Hin. apply Hn. apply list_elem_of_fmap in Hin as (y & -> & Hy).
  apply list_elem_of_In, filter_In in Hy as [Hy _]. apply list_elem_of_fmap. exists y.
  split; [done|]. by apply list_elem_of_In.
Qed.
Lemma take_object_None name objs : take_object name objs = None -> forall o, (name, o) ∉ objs.
Proof.
  unfold take_object. destruct (list_find _ _) as [[i [n o']]|] eqn:E; [done|]. intros _ o Hin.
  apply list_find_None in E. by apply (proj1 (Forall_forall _ _) E _ Hin).
Qed.

Section Sync.
Context {J : JsonLib} {JL : JsonLaws J} {C : Crypto} {P : PaddedCrypto} {Ready : PasswdState -> Prop} {PS : PasswordService Ready}.
Variable objs : ManagedObjs.
Hypothesis Hobjs : objects_ok objs.

(** The synchronisation touches the table and the passwords only. *)
Definition frame (s s' : UserState) : Prop :=
  s' = s <| usersTbl := usersTbl s' |> <| passwdMgr := passwdMgr s' |>.
Lemma frame_refl s : frame s s.
Proof. by destruct s. Qed.
Lemma frame_trans s1 s2 s3 : frame s1 s2 -> frame s2 s3 -> frame s1 s3.
Proof. unfold frame. intros -> ->. done. Qed.
Lemma frame_settled s s' : frame s s' -> settled s -> settled s'.
Proof. unfold frame. intros ->. done. Qed.
Lemma frame_sync s s' : frame s s' -> syncIndex s' = syncIndex s.
Proof. unfold frame. intros ->. done. Qed.

(** With the entries [todo] still to come and the objects [rest] not seen. *)
Record SyncInv (rest : ManagedObjs) (todo : list nat) (s : UserState) : Prop := {
  si_table : table_ok (usersTbl s);
  si_settled : settled s;
  si_distinct : distinct_names (usersTbl s);
  si_flagged : forall i, i ∈ user_indices -> flagged (entry (usersTbl s) i);
  si_ready : Ready (passwdMgr s);
  si_sync : (syncIndex s < ipmiMaxChannels)%nat;
  si_rest : NoDup (map fst rest) /\ forall x, x ∈ rest -> x ∈ objs;
  si_done : forall i, i ∈ user_indices -> i ∉ todo -> name_at (usersTbl s) i <> [] ->
    follows (syncIndex s) objs (entry (usersTbl s) i) /\ name_at (usersTbl s) i ∉ map fst rest;
  si_todo : forall i o, i ∈ user_indices -> i ∈ todo -> name_at (usersTbl s) i <> [] ->
    (name_at (usersTbl s) i, o) ∈ objs -> (name_at (usersTbl s) i, o) ∈ rest;
  si_seen : forall n o, (n, o) ∈ objs -> member o = true ->
    (n, o) ∈ rest \/ exists i, i ∈ user_indices /\ i ∉ todo /\ name_at (usersTbl s) i = n }.

(** One entry has been settled: nothing else changes. *)
Lemma SyncInv_step rest rest' i todo s s' u' :
  i ∈ user_indices -> i ∉ todo -> SyncInv rest (i :: todo) s -> frame s s' -> Ready (passwdMgr s') ->
  usersTbl s' = <[i := u']> (usersTbl s) -> user_ok u' -> flagged u' ->
  (userName u' = [] \/ userName u' = name_at (usersTbl s) i /\ follows (syncIndex s) objs u') ->
  NoDup (map fst rest') ->
  (forall x, x ∈ rest' <-> x ∈ rest /\ (name_at (usersTbl s) i = [] \/ fst x <> name_at (usersTbl s) i)) ->
  (forall n o, name_at (usersTbl s) i = n -> n <> [] -> userName u' = [] -> (n, o) ∈ objs -> member o = false) ->
  SyncInv rest' todo s'.
Proof.
  intros Hi Hnt [Ht Hs Hd Hf Hr Hk [Hn Hsub] Hdone Htodo Hseen] Fr Hr' Et Hu Hfl Hname Hn' Hrest Hgone.
  assert (forall j, entry (usersTbl s') j = if decide (j = i) then u' else entry (usersTbl s) j) as Ee
    by (intros j; rewrite Et; by apply entry_insert, Ht).
  assert (forall j, name_at (usersTbl s') j = if decide (j = i) then userName u' else name_at (usersTbl s) j) as En
    by (intros j; rewrite entry_name, Ee; by case_decide).
  constructor; [rewrite Et; by apply table_insert|by eapply frame_settled| | |done|by rewrite (frame_sync s)| | | |].
  - intros j k Hj Hk' E Hne. rewrite !En in E. rewrite En in Hne. apply Hd; [done|done| |].
    all: repeat case_decide; subst; try done; destruct Hname as [E0|[E0 _]]; congruence.
  - intros j Hj. rewrite Ee. case_decide; [done|by apply Hf].
  - split; [done|]. intros x Hx. apply Hsub. by apply Hrest.
  - intros j Hj Hnj. rewrite (frame_sync s s' Fr), En, Ee. intros Hne. case_decide as E.
    + destruct Hname as [|[E0 Hfo]]; [done|]. split; [done|]. rewrite E0. intros Hin.
      apply list_elem_of_fmap in Hin as (x & Ex & Hx). apply Hrest in Hx as [_ [Hx|Hx]]; congruence.
    + destruct (Hdone j Hj ltac:(set_solver) Hne) as [Hfo Hnin]. split; [done|]. intros Hin. apply Hnin.
      apply list_elem_of_fmap in Hin as (x & Ex & Hx). apply list_elem_of_fmap. exists x. split; [done|]. by apply Hrest.
  - intros j o Hj Hjt. rewrite En. case_decide as E; [subst; done|]. intros Hne Hin. apply Hrest.
    split; [by apply Htodo; [|right| |]|]. cbn [fst].
    destruct (decide (name_at (usersTbl s) i = [])); [by left|right]. intros E2. by apply E, Hd.
  - intros n o Hin Hm. destruct (Hseen n o Hin Hm) as [Hin'|(j & Hj & Hjn & Ej)].
    + destruct (decide (name_at (usersTbl s) i = n)) as [E|Hne]; [|left; apply Hrest; split; [done|by right]].
      destruct (decide (n = [])) as [En0|Hnn]; [left; apply Hrest; split; [done|left; congruence]|].
      right. exists i. split; [done|]. split; [done|]. rewrite En, decide_True by done.
      destruct Hname as [E0|[E0 _]]; [|congruence]. pose proof (Hgone n o E Hnn E0 Hin). congruence.
    + right. exists j. split; [done|]. split; [set_solver|]. rewrite En. case_decide; [set_solver|done].
Qed.

Lemma user_entry_id i s u : usersTbl s !! i = Some u -> user_entry i u s = s.
Proof. intros H. unfold user_entry. rewrite list_insert_id by done. by destruct s. Qed.
Lemma modify_when (b : bool) i f s u v : usersTbl s !! i = Some v ->
  (if b then modify_user i f else ret tt) (user_entry i u s) = Ret tt (user_entry i (if b then f u else u) s).
Proof. intros H. destruct b; [by apply (modify_entry i f s u v)|done]. Qed.
Lemma frame_entry i u s p : frame s (user_entry i u (s <| passwdMgr := p |>)).
Proof. done. Qed.
Lemma same_object n o o' (rest : ManagedObjs) : NoDup (map fst rest) -> (n, o) ∈ rest -> (n, o') ∈ rest -> o = o'.
Proof.
  intros Hd H1 H2. assert (((n, o) : list Z * option UserProps) = (n, o')) as E; [|congruence].
  by apply (NoDup_map_inj fst rest).
Qed.

(** What the group member [o] makes of the entry. *)
Definition synced (k : nat) (o : option UserProps) (p : Z) (u : UserInfo) : UserInfo :=
  let u1 := if negb (privilege (default zero_access (userPrivAccess u !! k)) =? p) then all_privileges p u else u in
  if negb (Bool.eqb (userEnabled u) (v_enabled (obj_vars o))) then u1 <| userEnabled := v_enabled (obj_vars o) |> else u1.
Lemma synced_ok k o p u : user_ok u -> valid_privilege p -> user_ok (synced k o p u).
Proof.
  intros Hu Hp. unfold synced. assert (user_ok (all_privileges p u)) as H1 by by apply user_ok_privileges.
  repeat match goal with |- context [if ?b then _ else _] => destruct b end; try done; [destruct H1|destruct Hu]; by constructor.
Qed.
Lemma synced_name k o p u : userName (synced k o p u) = userName u /\ userInSystem (synced k o p u) = userInSystem u.
Proof. unfold synced. by repeat match goal with |- context [if ?b then _ else _] => destruct b end. Qed.
Lemma synced_follows k o p u : user_ok u -> (k < ipmiMaxChannels)%nat -> (userName u, o) ∈ objs -> member o = true ->
  known_priv (v_priv (obj_vars o)) p -> follows k objs (synced k o p u).
Proof.
  intros [_ Ha _ _] Hk Hin Hm Hp. exists o. destruct (synced_name k o p u) as [-> _]. split; [done|]. split; [done|].
  assert (userEnabled (synced k o p u) = v_enabled (obj_vars o) /\
    privilege (default zero_access (userPrivAccess (synced k o p u) !! k)) = p) as [-> ->]; [|done].
  destruct (lookup_lt_is_Some_2 (userPrivAccess u) k ltac:(lia)) as [a Hl].
  unfold synced. rewrite Hl. cbn [default from_option id].
  destruct (Z.eqb_spec (privilege a) p) as [Ep|Ep]; cbn [negb].
  - destruct (Bool.eqb_spec (userEnabled u) (v_enabled (obj_vars o))); cbn [negb]; cbn; by rewrite Hl.
  - destruct (Bool.eqb_spec (userEnabled u) (v_enabled (obj_vars o))); cbn [negb]; cbn; by rewrite lookup_map, Hl.
Qed.

Lemma delete_step rest rest' i todo s : i ∈ user_indices -> i ∉ todo -> SyncInv rest (i :: todo) s ->
  NoDup (map fst rest') ->
  (forall x, x ∈ rest' <-> x ∈ rest /\ (name_at (usersTbl s) i = [] \/ fst x <> name_at (usersTbl s) i)) ->
  (forall o, (name_at (usersTbl s) i, o) ∈ objs -> member o = false) ->
  exists s', deleteUserIndex i s = Ret tt s' /\ SyncInv rest' todo s' /\ frame s s'.
Proof.
  intros Hi Hnt Inv Hn Hr Hgone. pose proof Inv as [Ht Hs _ _ Hp _ _ _ _ _].
  destruct (entry_lookup _ i Ht Hi) as [Hu Hok].
  destruct (clear_answers (userName (entry (usersTbl s) i)) _ Hp) as (p' & Ha & Hp').
  rewrite (deleteUserIndex_Ret i s _ p' Hs Hu Ha). eexists. split; [reflexivity|]. split; [|done].
  eapply (SyncInv_step rest rest' i todo s _ (clear_user _)); try done.
  - by apply user_ok_clear.
  - by left.
  - intros n o <- _ _. by apply Hgone.
Qed.

Lemma sync_entry_step rest i todo s : i ∈ user_indices -> i ∉ todo -> SyncInv rest (i :: todo) s ->
  exists ch rest' s', sync_entry i rest s = Ret (ch, rest') s' /\ SyncInv rest' todo s' /\ frame s s'.
Proof.
  intros Hi Hnt Inv. pose proof Inv as [Ht Hs Hd Hf Hp Hk [Hn Hsub] _ Htodo _].
  destruct (entry_lookup _ i Ht Hi) as [Hu Hok]. set (u := entry (usersTbl s) i) in *.
  assert (name_at (usersTbl s) i = userName u) as En by done.
  unfold sync_entry. rewrite (bind_Ret _ _ _ _ _ (user_at_Ret _ _ _ Hu)).
  assert (userInSystem u = negb (bool_decide (userName u = []))) as -> by exact (Hf i Hi). destruct (bool_decide_reflect (userName u = [])) as [E|Hne]; cbn [negb andb].
  - eexists false, rest, s. split; [done|]. split; [|by destruct s].
    apply (SyncInv_step rest rest i todo s s u); try done.
    + by destruct s.
    + by rewrite list_insert_id.
    + by apply Hf.
    + by left.
    + intros x. rewrite En. naive_solver.
    + intros n o. rewrite En. congruence.
  - destruct (take_object (userName u) rest) as [[o rest']|] eqn:Et.
    + destruct (take_object_Some _ _ _ _ Hn Et) as (Ho & Hn' & Hr).
      assert (forall x, x ∈ rest' <-> x ∈ rest /\ (name_at (usersTbl s) i = [] \/ fst x <> name_at (usersTbl s) i)) as Hr'
        by (intros x; rewrite Hr, En; naive_solver).
      fold (obj_vars o). fold (member o). destruct (member o) eqn:Hm; cbn [negb].
      * destruct (oo_members objs Hobjs (userName u) o (Hsub _ Ho) Hm) as (_ & _ & p & Hpv).
        destruct (valid_privilege_mask p (known_priv_valid _ _ Hpv)) as [_ Ep].
        rewrite (bind_Ret _ _ _ _ _ (known_priv_any _ _ s Hpv)), (bind_Ret get _ s s s), Ep by done.
        cbv zeta. set (b1 := negb _). set (b2 := negb (Bool.eqb _ _)).
        pose proof (modify_when b1 i (all_privileges p) s u u Hu) as E1. rewrite (user_entry_id i s u Hu) in E1.
        rewrite (bind_Ret _ _ _ _ _ E1).
        rewrite (bind_Ret _ _ _ _ _ (modify_when b2 i (fun u => u <| userEnabled := _ |>) s _ u Hu)).
        fold (synced (syncIndex s) o p u). eexists _, rest', _. split; [reflexivity|]. split; [|done].
        destruct (synced_name (syncIndex s) o p u) as [E2 E3].
        eapply (SyncInv_step rest rest' i todo s _ (synced (syncIndex s) o p u)); try done.
        -- by apply synced_ok; [|eapply known_priv_valid].
        -- unfold flagged. rewrite E2, E3. by apply Hf.
        -- right. split; [by rewrite E2|]. apply synced_follows; [done|done|by apply Hsub|done|done].
        -- rewrite E2. congruence.
      * destruct (delete_step rest rest' i todo s) as (s' & E & I' & F); [done..| |].
        { intros o' Ho'. rewrite (same_object _ _ _ _ Hn (Htodo i o' Hi ltac:(by left) ltac:(by rewrite En) Ho') Ho). done. }
        rewrite (bind_Ret _ _ _ _ _ E). eexists true, rest', s'. by split.
    + destruct (delete_step rest rest i todo s) as (s' & E & I' & F); [done..| | |].
      { intros x. rewrite En. split; [|naive_solver]. intros Hx. split; [done|]. right. intros E2.
        destruct x as [n o]. cbn [fst] in E2. subst n. by apply (take_object_None _ _ Et o). }
      { intros o Ho. destruct (take_object_None _ _ Et o). by apply Htodo; [|left|rewrite En|]. }
      rewrite (bind_Ret _ _ _ _ _ E). eexists true, rest, s'. by split.
Qed.
Lemma sync_entries_all todo : forall rest s b, NoDup todo -> (forall i, i ∈ todo -> i ∈ user_indices) -> SyncInv rest todo s ->
  exists ch rest' s', sync_entries todo b rest s = Ret (ch, rest') s' /\ SyncInv rest' [] s' /\ frame s s'.
Proof.
  induction todo as [|i todo IH]; intros rest s b Hnd Hin Inv; cbn [sync_entries].
  - exists b, rest, s. split; [done|]. split; [done|apply frame_refl].
  - apply NoDup_cons in Hnd as [Hi Hnd].
    destruct (sync_entry_step rest i todo s) as (ch & rest1 & s1 & E1 & I1 & F1); [apply Hin; by left|done|done|].
    destruct (IH rest1 s1 (b || ch)) as (ch2 & rest2 & s2 & E2 & I2 & F2); [done|intros; apply Hin; by right|done|].
    exists ch2, rest2, s2. rewrite (bind_Ret _ _ _ _ _ E1). split; [exact E2|]. split; [done|by eapply frame_trans].
Qed.

(** ** The objects not seen *)
Definition full (t : UsersTbl) : Prop := forall i, i ∈ user_indices -> name_at t i <> [].
Lemma free_slot_name u : flagged u -> Is_true (free_slot u) <-> userName u = [].
Proof.
  unfold flagged, free_slot. intros ->. destruct (bool_decide_reflect (userName u = [])); cbn; naive_solver.
Qed.
Definition added (name : list Z) (b : bool) (p : Z) (u : UserInfo) : UserInfo :=
  u <| userName := name |>
    <| userPrivAccess := map (fun _ => {| privilege := p; ipmiEnabled := true; linkAuthEnabled := true;
                                         accessCallback := true |}) (userPrivAccess u) |>
    <| userInSystem := true |> <| userEnabled := b |>.
Lemma addUserEntry_cases name priv b p s : name_fits name -> known_priv priv p -> settled s -> table_ok (usersTbl s) ->
  (forall i, i ∈ user_indices -> flagged (entry (usersTbl s) i)) ->
  (forall i, i ∈ user_indices -> name_at (usersTbl s) i <> name) ->
  (exists i, i ∈ user_indices /\ name_at (usersTbl s) i = [] /\
     addUserEntry name priv b s = Ret true (user_entry i (added name b p (entry (usersTbl s) i)) s)) \/
  (full (usersTbl s) /\ addUserEntry name priv b s = Ret false s).
Proof.
  intros (Hb & Hl & Hz) Hp Hs Ht Hf Hnew. unfold addUserEntry.
  rewrite (bind_Ret _ _ _ _ _ (getUsersTblPtr_Ret s Hs)), (proj2 (find_user_None _ _) Hnew).
  destruct (list_find (fun i => Is_true (free_slot (default zero_user (usersTbl s !! i)))) user_indices) as [[k i]|] eqn:E.
  - left. apply list_find_Some in E as (Hk & Hfree & _). assert (i ∈ user_indices) as Hi by by eapply list_elem_of_lookup_2.
    exists i. split; [done|]. split; [by apply (free_slot_name _ (Hf i Hi))|].
    destruct (entry_lookup _ i Ht Hi) as [Hu _]. rewrite (bind_Ret _ _ _ _ _ (modify_user_Ret i _ s _ Hu)).
    fold (user_entry i ((entry (usersTbl s) i) <| userName := take ipmiMaxUserName (c_str name) |>) s).
    rewrite (PasswdMgrSpec.c_str_id _ Hz), take_ge by exact Hl.
    rewrite (bind_Ret _ _ _ _ _ (known_priv_any _ _ _ Hp)).
    destruct (valid_privilege_mask p (known_priv_valid _ _ Hp)) as [-> _]. cbv zeta.
    rewrite (bind_Ret _ _ _ _ _ (modify_entry i _ s _ _ Hu)). done.
  - right. split; [|done]. intros i Hi E0. apply list_find_None in E.
    apply (proj1 (Forall_forall _ _) E i Hi). by apply (free_slot_name _ (Hf i Hi)).
Qed.

Lemma added_step name o rest i p s : i ∈ user_indices -> name_at (usersTbl s) i = [] -> SyncInv ((name, o) :: rest) [] s ->
  (name, o) ∈ objs -> member o = true -> known_priv (v_priv (obj_vars o)) p ->
  SyncInv rest [] (user_entry i (added name (v_enabled (obj_vars o)) p (entry (usersTbl s) i)) s).
Proof.
  intros Hi Ei Inv Ho Hm Hp. destruct (oo_members objs Hobjs name o Ho Hm) as (Hne & Hfit & _).
  pose proof Inv as [Ht Hs Hd Hf Hr Hk [Hn Hsub] Hdone _ Hseen]. destruct (entry_lookup _ i Ht Hi) as [_ [Hn0 Ha Hpr Hpl]].
  cbn [map fst] in Hn. apply NoDup_cons in Hn as [Hnin Hn].
  set (u' := added _ _ _ _). set (s' := user_entry i u' s).
  assert (forall j, entry (usersTbl s') j = if decide (j = i) then u' else entry (usersTbl s) j) as Ee
    by (intros j; by apply entry_insert, Ht).
  assert (forall j, name_at (usersTbl s') j = if decide (j = i) then name else name_at (usersTbl s) j) as En
    by (intros j; rewrite entry_name, Ee; by case_decide).
  assert (forall j, j ∈ user_indices -> name_at (usersTbl s) j <> [] -> name_at (usersTbl s) j <> name) as Hnew.
  { intros j Hj Hjn E. destruct (Hdone j Hj (not_elem_of_nil _) Hjn) as [_ Hnin2]. apply Hnin2. rewrite E. by left. }
  assert (valid_privilege p) as Hvp by by eapply known_priv_valid.
  assert (user_ok u') as Hok.
  { constructor; [done|cbn; by rewrite length_map| |done]. apply Forall_map, Forall_forall. by intros. }
  constructor; [by apply table_insert|done| | |done|done| | | |].
  - intros j k Hj Hk'. rewrite !En. intros E Hjn. case_decide as E1; case_decide as E2; subst; [done| | |by apply Hd].
    + destruct (Hnew k Hk'); congruence.
    + by destruct (Hnew j Hj Hjn).
  - intros j Hj. rewrite Ee. case_decide; [|by apply Hf]. unfold flagged. cbn. by rewrite bool_decide_eq_false_2.
  - split; [done|]. intros x Hx. apply Hsub. by right.
  - intros j Hj _. rewrite En, Ee. intros Hjn. case_decide as E.
    + split; [|done]. exists o. split; [done|]. split; [done|]. split; [done|]. cbn.
      destruct (lookup_lt_is_Some_2 (userPrivAccess (entry (usersTbl s) i)) (syncIndex s) ltac:(rewrite Ha; exact Hk)) as [a Ea].
      by rewrite lookup_map, Ea.
    + destruct (Hdone j Hj (not_elem_of_nil _) Hjn) as [Hfo Hnin2]. split; [done|]. intros Hin. apply Hnin2. by right.
  - intros j o' _ Hj. by apply elem_of_nil in Hj.
  - intros n o' Hin' Hm'. destruct (Hseen n o' Hin' Hm') as [Hr'|(j & Hj & _ & Ej)].
    + apply elem_of_cons in Hr' as [E|?]; [|by left]. right. exists i. split; [done|]. split; [apply not_elem_of_nil|].
      rewrite En, decide_True by done. congruence.
    + right. exists j. split; [done|]. split; [apply not_elem_of_nil|]. rewrite En. case_decide; [|done]. subst j.
      destruct (oo_members objs Hobjs n o' Hin' Hm') as [? _]. congruence.
Qed.

Lemma drop_outsider x rest s : SyncInv (x :: rest) [] s -> member (snd x) = false -> SyncInv rest [] s.
Proof.
  intros [Ht Hs Hd Hf Hr Hk [Hn Hsub] Hdone _ Hseen] Hm. cbn [map] in Hn. apply NoDup_cons in Hn as [_ Hn].
  constructor; [done..| | | |].
  - split; [done|]. intros y Hy. apply Hsub. by right.
  - intros i Hi Hnt Hne. destruct (Hdone i Hi Hnt Hne) as [Hfo Hnin]. split; [done|]. intros H. apply Hnin. by right.
  - intros i o _ H. by apply elem_of_nil in H.
  - intros n o Hin Hmo. destruct (Hseen n o Hin Hmo) as [H|H]; [|by right]. left.
    apply elem_of_cons in H as [E|H]; [|done]. subst x. cbn in Hm. congruence.
Qed.
Lemma add_objects_all rest : forall s b, SyncInv rest [] s ->
  exists b' rest' s', add_objects rest b s = Ret b' s' /\ SyncInv rest' [] s' /\ frame s s' /\
    (rest' = [] \/ full (usersTbl s')).
Proof.
  induction rest as [|[name o] rest IH]; intros s b Inv; cbn [add_objects].
  - exists b, [], s. split; [done|]. split; [done|]. split; [apply frame_refl|by left].
  - fold (obj_vars o). fold (member o). destruct (member o) eqn:Hm.
    + pose proof Inv as [Ht Hs _ Hf _ _ [Hn Hsub] Hdone _ _]. pose proof (Hsub (name, o) ltac:(by left)) as Ho.
      destruct (oo_members objs Hobjs name o Ho Hm) as (Hne & Hfit & p & Hp).
      destruct (addUserEntry_cases name (v_priv (obj_vars o)) (v_enabled (obj_vars o)) p s Hfit Hp Hs Ht Hf)
        as [(i & Hi & Ei & E)|[Hfull E]].
      { intros i Hi E. destruct (Hdone i Hi (not_elem_of_nil _) ltac:(by rewrite E)) as [_ Hnin]. apply Hnin. rewrite E. by left. }
      * rewrite (bind_Ret _ _ _ _ _ E). destruct (IH _ true (added_step name o rest i p s Hi Ei Inv Ho Hm Hp))
          as (b' & rest' & s' & E' & I' & F' & D'). exists b', rest', s'. split_and!; [done|done| |done].
        eapply frame_trans; [|exact F']. done.
      * rewrite (bind_Ret _ _ _ _ _ E). exists true, ((name, o) :: rest), s.
        split_and!; [done|done|apply frame_refl|by right].
    + apply IH. by eapply drop_outsider.
Qed.

(** A table as the service starts with. *)
Record starting (s : UserState) : Prop := {
  st_table : table_ok (usersTbl s);
  st_settled : settled s;
  st_distinct : distinct_names (usersTbl s);
  st_flagged : forall i, i ∈ user_indices -> flagged (entry (usersTbl s) i);
  st_ready : Ready (passwdMgr s);
  st_sync : (syncIndex s < ipmiMaxChannels)%nat }.
Lemma starting_SyncInv s : starting s -> SyncInv objs user_indices s.
Proof.
  intros [Ht Hs Hd Hf Hr Hk]. constructor; try done.
  - split; [apply Hobjs|done].
  - intros n o Hin _. by left.
Qed.

(** The synchronisation itself, from a table read or newly made. *)
Definition sync_with : M UserState unit :=
  let! (updateRequired, objs) := sync_entries user_indices false objs in
  let! updateRequired := add_objects objs updateRequired in
  if updateRequired then writeUserData else ret tt.
Lemma sync_with_spec s : starting s -> writeOk s = true -> now s <> 0 ->
  exists rest s', sync_with s = Ret tt s' /\ SyncInv rest [] s' /\ syncIndex s' = syncIndex s /\
    (rest = [] \/ full (usersTbl s')).
Proof.
  intros Hst Hw Hn. unfold sync_with.
  destruct (sync_entries_all user_indices objs s false) as (ch & rest1 & s1 & E1 & I1 & F1);
    [apply NoDup_seq|done|by apply starting_SyncInv|].
  rewrite (bind_Ret _ _ _ _ _ E1). destruct (add_objects_all rest1 s1 ch I1) as (b & rest2 & s2 & E2 & I2 & F2 & D).
  rewrite (bind_Ret _ _ _ _ _ E2). pose proof (frame_trans _ _ _ F1 F2) as F. destruct b.
  - exists rest2, (written s2). rewrite writeUserData_cases by apply I2.
    assert (writeOk s2 = true) as -> by by rewrite F. split; [done|]. split; [|by split; [exact (frame_sync _ _ F)|]].
    assert (settled (written s2)) by (apply settled_written; by rewrite F). destruct I2. by constructor.
  - exists rest2, s2. split; [done|]. split; [done|]. split; [by apply frame_sync|done].
Qed.

(** ** The start of the service *)
Inductive Startable (s : UserState) : Prop :=
  | Startable_new : userFile s = None -> Startable s
  | Startable_file time t : userFile s = Some (time, table_json t) -> time <> 0 -> table_ok t -> distinct_names t ->
      (forall i, i ∈ user_indices -> flagged (entry t i)) -> Startable s.

Lemma initial_table_ok : table_ok initial_table /\ forall i, i ∈ user_indices -> entry initial_table i = initial_user.
Proof.
  split.
  - split; [done|]. constructor; [apply zero_user_ok|]. apply Forall_replicate. constructor; [apply name_fits_nil|done| |done].
    apply Forall_replicate. by right.
  - intros [|i] Hi; apply in_user_indices in Hi; [lia|].
    assert (initial_table !! S i = Some initial_user) as E; [|unfold entry; by rewrite E].
    change (replicate ipmiMaxUsers initial_user !! i = Some initial_user). apply lookup_replicate_2. lia.
Qed.
Lemma user_ok_kept u : user_ok u -> user_ok (kept u).
Proof. intros [Hn Ha Hp Hl]. constructor; cbn; try done. by rewrite length_map. Qed.
Lemma table_ok_restored t0 t : table_ok t0 -> table_ok t -> table_ok (restored t0 t).
Proof.
  intros [Hl0 H0] [Hl Ht]. split; [by apply length_restored|]. apply Forall_app. split; [by apply Forall_take|].
  apply Forall_map. eapply Forall_impl; [by apply Forall_drop|]. apply user_ok_kept.
Qed.
Lemma entry_restored t0 t i : table_ok t0 -> table_ok t -> i ∈ user_indices -> entry (restored t0 t) i = kept (entry t i).
Proof.
  intros H0 Ht Hi. pose proof (table_ok_restored _ _ H0 Ht) as Hr. destruct (entry_lookup _ i Hr Hi) as [E _].
  apply in_user_indices in Hi. destruct (restored_lookup t0 t i _ (proj1 H0) ltac:(lia) E) as (v & Ev & ->).
  change (entry t i) with (default zero_user (t !! i)). by rewrite Ev.
Qed.

Lemma start_read s : table_ok (usersTbl s) -> Ready (passwdMgr s) -> (syncIndex s < ipmiMaxChannels)%nat ->
  writeOk s = true -> now s <> 0 -> Startable s ->
  exists s1, try readUserData (fun e => if is_ios_failure e then init_file else throw e) s = Ret tt s1 /\
    starting s1 /\ userBus s1 = userBus s /\ writeOk s1 = true /\ now s1 = now s /\ syncIndex s1 = syncIndex s.
Proof.
  intros Ht Hr Hk Hw Hn [Hf|time t Hf Htime Htt Hd Hfl].
  - set (s0 := s <| usersTbl := initial_table |>). exists (written s0). destruct initial_table_ok as [Hi Hu]. split.
    + unfold try. assert (readUserData s = Throw IosFailure s) as ->
        by (unfold readUserData; rewrite (bind_Ret get _ s s s), Hf by done; done).
      change (is_ios_failure IosFailure) with true. cbv iota.
      unfold init_file. rewrite (bind_Ret (modify _) _ s tt s0) by done. rewrite writeUserData_cases by done.
      by assert (writeOk s0 = true) as -> by done.
    + split; [|done]. constructor; [done|by apply settled_written| | |done|done].
      * intros i j Hi' Hj _ Hne. exfalso. apply Hne. rewrite entry_name.
        change (usersTbl (written s0)) with initial_table. by rewrite Hu.
      * intros i Hi'. change (usersTbl (written s0)) with initial_table. by rewrite Hu.
  - set (s1 := s <| usersTbl := restored (usersTbl s) t |> <| fileUpdated := time |>). exists s1. split.
    + unfold try. rewrite (readUserData_Ret s t time Htt); [done|apply Ht| |done].
      eapply Forall_drop, Forall_impl; [apply Ht|]. by intros u [_ ? _ _].
    + split; [|done]. constructor; [by apply table_ok_restored|by eexists| | |done|done].
      * intros i j Hi Hj. rewrite !entry_name. change (usersTbl s1) with (restored (usersTbl s) t). rewrite !entry_restored by done. by apply Hd.
      * intros i Hi. change (usersTbl s1) with (restored (usersTbl s) t). rewrite entry_restored by done. by apply Hfl.
Qed.

(** C8. After the start of the service, whether it finds
    a users file or makes one: the names are distinct and each one is a user of
    the system; every named entry is a member of the group, with the system's
    enabled state and, on the channel that is synchronised, the system's
    privilege; and every member of the group is in the table, unless the table
    is full.  Users that left the system or the group are gone. *)
Theorem startup_follows_system s : table_ok (usersTbl s) -> Ready (passwdMgr s) -> (syncIndex s < ipmiMaxChannels)%nat ->
  writeOk s = true -> now s <> 0 -> Startable s -> managedObjects (userBus s) = Some objs ->
  exists s', cacheUserDataFile s = Ret tt s' /\ directory (list_to_set (map fst objs)) s' /\
    (forall i, i ∈ user_indices -> name_at (usersTbl s') i <> [] -> follows (syncIndex s) objs (entry (usersTbl s') i)) /\
    ((forall n o, (n, o) ∈ objs -> member o = true -> exists i, i ∈ user_indices /\ name_at (usersTbl s') i = n) \/
     full (usersTbl s')).
Proof.
  intros Ht Hr Hk Hw Hn Hst Hb. destruct (start_read s Ht Hr Hk Hw Hn Hst) as (s1 & E1 & St & Eb & Ew & En & Es).
  destruct (sync_with_spec s1 St Ew ltac:(by rewrite En)) as (rest & s2 & E2 & I2 & Es2 & D).
  exists s2. split; [|split; [|split]].
  - unfold cacheUserDataFile. rewrite (bind_Ret _ _ _ _ _ E1), (bind_Ret get _ s1 s1 s1), Eb, Hb by done. exact E2.
  - destruct I2 as [Ht2 Hs2 Hd2 _ _ _ _ Hdone _ _]. constructor; [done..|]. intros i Hi Hne.
    destruct (Hdone i Hi (not_elem_of_nil _) Hne) as [(o & Ho & _) _]. rewrite elem_of_list_to_set, list_elem_of_fmap.
    by exists (name_at (usersTbl s2) i, o).
  - intros i Hi Hne. rewrite <- Es, <- Es2. by apply I2; [|apply not_elem_of_nil|].
  - destruct D as [->|?]; [left|by right]. intros n o Hin Hm.
    destruct (si_seen _ _ _ I2 n o Hin Hm) as [H|(i & ? & _ & ?)]; [by apply elem_of_nil in H|by exists i].
Qed.
End Sync.

(** ** A sample: ann is gone, bob is an operator now, eve is new *)
#[local] Existing Instances sample_json sample_json_laws.
Definition sample_objs : ManagedObjs :=
  [(root_name, None); (bob, group_member (bytes_of_string "priv-operator") true);
   (bytes_of_string "eve", group_member priv_admin false)].
Definition sample_start : UserState :=
  sample_users <| userBus := {| managedObjects := Some sample_objs; deleteOk := true; createOk := true; renameOk := true;
                               setPropertyOk := true; managerGroups := None; userProperties := None;
                               pam := fun _ _ => 0 |} |>
               <| passwdMgr := empty_state |>.
Lemma sample_objects_ok : objects_ok sample_objs.
Proof.
  constructor; [apply (bool_decide_unpack _); vm_compute; exact I|].
  intros n o Hin Hm. unfold sample_objs in Hin. repeat (apply elem_of_cons in Hin as [E|Hin]; [injection E as -> ->|]).
  - done.
  - split; [discriminate|]. split; [fits|]. by exists 3.
  - split; [discriminate|]. split; [fits|]. by exists 4.
  - by apply elem_of_nil in Hin.
Qed.
Lemma sample_startable : Startable sample_start.
Proof.
  eapply (Startable_file sample_start 7 sample_table); [done|done|apply sample_table_ok|apply sample_directory|].
  intros i Hi. unfold flagged, entry, sample_table.
  apply in_user_indices in Hi. destruct (decide (i = 3%nat)) as [->|]; [done|].
  rewrite list_lookup_insert_ne by congruence. destruct (decide (i = 1%nat)) as [->|]; [done|].
  rewrite list_lookup_insert_ne by congruence. unfold zero_table. rewrite lookup_replicate_2 by (unfold ipmiMaxUsers in *; lia). done.
Qed.
Lemma startup_follows_system_witness : exists s', cacheUserDataFile sample_start = Ret tt s' /\
  directory (list_to_set (map fst sample_objs)) s' /\
  (forall i, i ∈ user_indices -> name_at (usersTbl s') i <> [] -> follows 1 sample_objs (entry (usersTbl s') i)) /\
  ((forall n o, (n, o) ∈ sample_objs -> member o = true -> exists i, i ∈ user_indices /\ name_at (usersTbl s') i = n) \/
   full (usersTbl s')).
Proof.
  apply (startup_follows_system (Ready := no_file) sample_objs sample_objects_ok sample_start).
  - exact sample_table_ok.
  - reflexivity.
  - unfold ipmiMaxChannels. cbn. lia.
  - reflexivity.
  - discriminate.
  - exact sample_startable.
  - reflexivity.
Defined.
Example sample_start_names :
  (match cacheUserDataFile sample_start with Ret _ s => map (name_at (usersTbl s)) [1; 2; 3; 4]%nat | _ => [] end)
  = [bytes_of_string "eve"; []; bob; []].
Proof. vm_compute. reflexivity. Qed.

(** ** What the code lets through *)
Definition after_signals (sigs : list UserSignal) (s : UserState) : UserState :=
  match mfor sigs (fun sig => try (userUpdatedSignalHandler sig) (fun _ => ret tt)) s with Ret _ s' => s' | _ => s end.
(** The first range of the regular expression runs from A to a small z. *)
Example bracket_name : isValidUserName (bytes_of_string "[x") sample_users = Ret true sample_users.
Proof. vm_compute. reflexivity. Qed.
(** Longer names from the system are cut: two users can share a name, and the
    removal of such a user is not noticed. *)
Definition long_name (c : string) : list Z := bytes_of_string ("sixteen_letters_" ++ c).
Example long_names_collide :
  map (name_at (usersTbl (after_signals
    [InterfacesAdded (long_name "a") (group_member priv_admin true);
     InterfacesAdded (long_name "b") (group_member priv_admin true);
     InterfacesRemoved (long_name "a")] sample_users))) [2; 4]%nat =
  [bytes_of_string "sixteen_letters_"; bytes_of_string "sixteen_letters_"].
Proof. vm_compute. reflexivity. Qed.
(** A user whose privilege has no IPMI number leaves its name in the entry: it
    is found, but not in the system, and the entry is not used again. *)
Example unknown_privilege_keeps_the_name :
  let s := after_signals [InterfacesAdded (bytes_of_string "eve") (group_member (bytes_of_string "priv-noaccess") true)]
             sample_users in
  name_at (usersTbl s) 2 = bytes_of_string "eve" /\ userInSystem (entry (usersTbl s) 2) = false /\
  free_slot (entry (usersTbl s) 2) = false.
Proof. vm_compute. auto. Qed.
(** The payload access of a removed user is not cleared: the next user of the
    entry inherits it. *)
Example payload_access_is_inherited :
  let s := after_signals [InterfacesRemoved ann; InterfacesAdded (bytes_of_string "eve") (group_member priv_admin true)]
             sample_users in
  name_at (usersTbl s) 1 = bytes_of_string "eve" /\
  payloadAccess (entry (usersTbl s) 1) = payloadAccess (sample_user ann).
Proof. vm_compute. auto. Qed.
