(* ===== verification/UserInvariant.v ===== *)
(** * The shape of the users' table

    Whatever the file, the system's user manager and the callers give, and
    whether an operation returns or throws: the table keeps 16 entries of 16
    channels, with names that fit their arrays and privileges the system has. *)
From Stdlib Require Import ZArith Lia String.
From stdpp Require Import base list gmap strings.
From S2P Require Import Prelude CxxStd RmcpMessage RmcpCrypto RmcpSample Json IpmiMessage IpmiDispatch PasswdMgr PasswdMgrSpec UserMgmt UserMgmtSpec UserSync UserSyncSpec.
Local Open Scope Z_scope.

Definition name_shape (l : list Z) : Prop := (length l <= ipmiMaxUserName)%nat /\ Forall (fun c => c <> 0) l.
Record user_shape (u : UserInfo) : Prop := {
  us_name : name_shape (userName u);
  us_access : length (userPrivAccess u) = ipmiMaxChannels;
  us_privs : Forall (fun a => valid_privilege (privilege a)) (userPrivAccess u);
  us_payloads : length (payloadAccess u) = ipmiMaxChannels }.
Definition table_shape (t : UsersTbl) : Prop := length t = S ipmiMaxUsers /\ Forall user_shape t.
Definition shaped (s s' : UserState) : Prop := table_shape (usersTbl s) -> table_shape (usersTbl s').
#[export] Instance shaped_preorder : PreOrder shaped.
Proof. split; unfold shaped; [by intros ?|auto]. Qed.

Lemma name_shape_take l : name_shape (take ipmiMaxUserName (c_str l)).
Proof. split; [rewrite length_take; lia|]. apply Forall_take, c_str_no_nul. Qed.
Lemma user_ok_shape u : user_ok u -> user_shape u.
Proof. intros [(? & ? & ?) ? ? ?]. by constructor. Qed.
Lemma table_ok_shape t : table_ok t -> table_shape t.
Proof. intros [Hl Ht]. split; [done|]. eapply Forall_impl; [exact Ht|]. apply user_ok_shape. Qed.

(** ** Rules *)
Lemma shaped_put_same (f : UserState -> UserState) : (forall s, usersTbl (f s) = usersTbl s) -> preserves shaped (modify f).
Proof. intros H. apply preserves_modify. intros s Hs. by rewrite H. Qed.
Lemma shaped_modify_user i f : (forall u, user_shape u -> user_shape (f u)) -> preserves shaped (modify_user i f).
Proof.
  intros Hf s. unfold modify_user, bind, get, put. destruct (usersTbl s !! i) as [u|] eqn:E; [|done].
  intros [Hl Ht]. change (table_shape (<[i := f u]> (usersTbl s))). split; [by rewrite length_insert|]. apply Forall_insert; [done|]. apply Hf. by eapply Forall_lookup_1.
Qed.
Lemma shaped_zoom {A} (m : M PasswdState A) : preserves shaped (passwd_do m).
Proof. intros s. unfold passwd_do, zoom. cbv beta. destruct (m (passwdMgr s)); [by intros H|by intros H|done]. Qed.
Lemma to_ipmi_valid {S} l (s : S) p s' : convertToIPMIPrivilege l s = Ret p s' -> valid_privilege p.
Proof.
  intros H. apply (known_priv_valid l). revert H. unfold known_priv, convertToIPMIPrivilege.
  destruct (list_find _ _) as [[i x]|]; [by intros [= <- _]|]. destruct l; [by intros [= <- _]|done].
Qed.
Lemma to_system_valid {S} v (s : S) p s' : convertToSystemPrivilege v s = Ret p s' -> valid_privilege v.
Proof.
  unfold convertToSystemPrivilege. destruct (Z.eqb_spec v privNoAccess) as [->|]; [by right|].
  destruct (Z.ltb_spec v 0); [done|]. destruct (ipmiPrivIndex !! Z.to_nat v) as [x|] eqn:E; [|done].
  intros _. apply lookup_lt_Some in E. change (length ipmiPrivIndex) with 6%nat in E. left. lia.
Qed.

(** ** What only reads *)
Section Reading.
Context {J : JsonLib} (R : UserState -> UserState -> Prop) `{!PreOrder R}.
Lemma reads_to_ipmi l : preserves R (convertToIPMIPrivilege l).
Proof. apply preserves_pure; [exact _|]. intros s. unfold convertToIPMIPrivilege. destruct (list_find _ _) as [[? ?]|]; [done|]. by destruct l. Qed.
Lemma reads_to_system v : preserves R (convertToSystemPrivilege v).
Proof.
  apply preserves_pure; [exact _|]. intros s. unfold convertToSystemPrivilege. destruct (_ =? _); [done|].
  by destruct (if v <? 0 then None else _).
Qed.
Lemma reads_user_at i : preserves R (user_at i).
Proof. unfold user_at. preserve_with idtac. Qed.
Lemma reads_user_json u : preserves R (user_json u).
Proof. unfold user_json. preserve_with ltac:(apply preserves_mmap; [exact _|intros; apply reads_to_system]). Qed.
Lemma channel_bools_spec n : forall l, preserves R (channel_bools n l) /\
  forall s r s', channel_bools n l s = Ret r s' -> forall bs, r = Some bs -> length bs = n.
Proof.
  induction n as [|n IH]; intros js; cbn [channel_bools].
  - split; [preserve_with idtac|]. by intros s r s' [= <- <-] l [= <-].
  - destruct js as [|j js]; [split; [preserve_with idtac|by intros s r s' [= <- <-]]|]. destruct (IH js) as [IH1 IH2]. split.
    + preserve_with ltac:(exact IH1).
    + intros s r s' E l ->. apply bind_inv in E as (b & s1 & _ & E). apply bind_inv in E as (r & s2 & E1 & E).
      injection E as E _. destruct r as [l'|]; [|done]. injection E as <-. cbn [length]. by rewrite (IH2 _ _ _ E1 l').
Qed.
Lemma json_channel_bools_spec j : preserves R (json_channel_bools j) /\
  forall s r s', json_channel_bools j s = Ret r s' -> forall l, r = Some l -> length l = ipmiMaxChannels.
Proof.
  unfold json_channel_bools. split.
  - preserve_with ltac:(apply channel_bools_spec).
  - intros s r s' E. apply bind_inv in E as (l & s1 & _ & E). by eapply (proj2 (channel_bools_spec _ _)).
Qed.
Lemma read_payloads_spec j n : forall k sol, preserves R (read_payloads n k j sol) /\
  (length sol = ipmiMaxChannels -> forall s r s', read_payloads n k j sol s = Ret r s' ->
   forall l, r = Some l -> length l = ipmiMaxChannels).
Proof.
  assert (forall k, preserves R (const_key j k)) as Hkey by (intros k; unfold const_key; preserve_with idtac).
  induction n as [|n IH]; intros k sol; cbn [read_payloads].
  - split; [preserve_with idtac|]. by intros Hs s r s' [= <- <-] l [= <-].
  - split.
    + preserve_with ltac:(first [apply Hkey|apply json_channel_bools_spec|apply IH]).
    + intros Hs s r s' E l ->. apply bind_inv in E as (sj & s1 & _ & E). apply bind_inv in E as (std & s2 & E1 & E).
      destruct std as [std|]; [|done]. apply bind_inv in E as (oj & s3 & _ & E). apply bind_inv in E as (oem & s4 & _ & E).
      destruct oem; [|done]. refine (proj2 (IH (S k) _) _ _ _ _ E l eq_refl).
      destruct (_ =? _)%nat; [|done]. by eapply (proj2 (json_channel_bools_spec sj)).
Qed.
Lemma read_sol_spec j : preserves R (read_sol j) /\
  forall s l s', read_sol j s = Ret l s' -> length l = ipmiMaxChannels.
Proof.
  unfold read_sol. split.
  - preserve_with ltac:(apply read_payloads_spec).
  - intros s l s' E. apply bind_inv in E as (v & s0 & _ & E). destruct v as [j'|]; [|by injection E as <- _].
    destruct (read_payloads_spec j' payloadsPerByte 0 (replicate ipmiMaxChannels false)) as [_ H2].
    apply bind_inv in E as (r & s1 & E1 & E). injection E as <- _.
    destruct r as [l|]; [|done]. by apply (H2 ltac:(done) _ _ _ E1 l).
Qed.
End Reading.

(** ** The file *)
Lemma shaped_write : preserves shaped writeUserData.
Proof.
  unfold writeUserData, getUpdatedFileTime.
  preserve_with ltac:(idtac; first
    [ apply shaped_put_same; done
    | apply preserves_mmap; [exact _|]; intros; apply preserves_bind; [exact _|apply reads_user_at; exact _|intros; apply reads_user_json; exact _] ]).
Qed.

(** ** The changes of an entry *)
Lemma shape_name u l : user_shape u -> name_shape l -> user_shape (u <| userName := l |>).
Proof. intros [? ? ? ?] ?. by constructor. Qed.
Lemma shape_access u l : user_shape u -> length l = ipmiMaxChannels -> Forall (fun a => valid_privilege (privilege a)) l ->
  user_shape (u <| userPrivAccess := l |>).
Proof. intros [? ? ? ?] ? ?. by constructor. Qed.
Lemma shape_payload u l : user_shape u -> length l = ipmiMaxChannels -> user_shape (u <| payloadAccess := l |>).
Proof. intros [? ? ? ?] ?. by constructor. Qed.
Lemma shape_enabled u b : user_shape u -> user_shape (u <| userEnabled := b |>).
Proof. intros [? ? ? ?]. by constructor. Qed.
Lemma shape_in_system u b : user_shape u -> user_shape (u <| userInSystem := b |>).
Proof. intros [? ? ? ?]. by constructor. Qed.
Lemma shape_fixed u b : user_shape u -> user_shape (u <| fixedUserName := b |>).
Proof. intros [? ? ? ?]. by constructor. Qed.
Lemma shape_all_access u f : user_shape u -> (forall a, valid_privilege (privilege (f a))) ->
  user_shape (u <| userPrivAccess := map f (userPrivAccess u) |>).
Proof.
  intros Hu Hf. apply shape_access; [done|by rewrite length_map; apply Hu|]. by apply Forall_map, Forall_forall.
Qed.
Lemma shape_one_access u ch a : user_shape u -> valid_privilege (privilege a) ->
  user_shape (u <| userPrivAccess := <[ch := a]> (userPrivAccess u) |>).
Proof.
  intros Hu Ha. apply shape_access; [done|by rewrite length_insert; apply Hu|]. by apply Forall_insert; [apply Hu|].
Qed.
Lemma shape_alter_access u ch f : user_shape u -> (forall a, valid_privilege (privilege (f a))) ->
  user_shape (u <| userPrivAccess := alter f ch (userPrivAccess u) |>).
Proof.
  intros Hu Hf. apply shape_access; [done|by rewrite length_alter; apply Hu|]. apply Forall_alter; [apply Hu|by intros].
Qed.
Lemma shape_alter_payload u ch f : user_shape u -> user_shape (u <| payloadAccess := alter f ch (payloadAccess u) |>).
Proof. intros Hu. apply shape_payload; [done|]. by rewrite length_alter; apply Hu. Qed.
Lemma shape_sol u l : user_shape u -> length l = ipmiMaxChannels -> user_shape (updatePayloadAccessInUserInfo l u).
Proof. intros Hu Hl. apply shape_payload; [done|]. by rewrite length_map. Qed.
Lemma shape_clear u : user_shape u -> user_shape (clear_user u).
Proof.
  intros Hu. unfold clear_user. apply shape_enabled, shape_in_system.
  apply shape_access; [|by rewrite length_map; apply Hu|by apply Forall_map, Forall_forall; intros; right].
  apply shape_name; [done|]. split; [cbn; lia|constructor].
Qed.
Lemma no_access_valid : valid_privilege (privilege no_access).
Proof. by right. Qed.
Lemma priv_user_valid : valid_privilege PRIVILEGE_USER.
Proof. left. unfold PRIVILEGE_USER. lia. Qed.

Create HintDb shape.
#[export] Hint Resolve shape_enabled shape_in_system shape_fixed shape_sol shape_clear shape_alter_payload shape_name
  name_shape_take priv_user_valid : shape.
#[export] Hint Resolve reads_to_ipmi reads_to_system reads_user_at shaped_write
  shaped_zoom : preserves.
(** [preserves shaped] of a body, with what its conversions give. *)
Ltac shaped_with leaf :=
  repeat first
    [ match goal with
      | |- preserves _ (bind (convertToIPMIPrivilege _) _) =>
          apply (preserves_bind_val shaped valid_privilege); [intros ? ? ? ?; eapply to_ipmi_valid; eassumption|apply reads_to_ipmi|intros ? ?]
      | |- preserves _ (bind (convertToSystemPrivilege ?v) _) =>
          apply (preserves_bind_val shaped (fun _ => valid_privilege v));
            [intros ? ? ? ?; eapply to_system_valid; eassumption|apply reads_to_system|intros ? ?]
      | |- preserves _ (bind (read_sol _) _) =>
          apply (preserves_bind_val shaped (fun l => length l = ipmiMaxChannels)); [apply (read_sol_spec shaped)|apply (read_sol_spec shaped)|intros ? ?]
      | |- preserves _ (bind _ _) => apply preserves_bind; [exact _| |intros ?]
      | |- preserves _ (try _ _) => apply preserves_try; [exact _| |intros ?]
      | |- preserves _ (mfor _ _) => apply preserves_mfor; [exact _|intros ?]
      | |- preserves _ (modify_user _ _) => apply shaped_modify_user; intros ? ?
      | |- preserves _ (modify _) => apply shaped_put_same; done
      end
    | solve [eauto with preserves shape typeclass_instances]
    | solve [leaf]
    | match goal with |- preserves _ (if ?b then _ else _) => destruct b end
    | match goal with |- preserves _ (match ?b with _ => _ end) => destruct b end ].
Lemma shaped_read_user {J : JsonLib} i j : preserves shaped (read_user i j).
Proof.
  unfold read_user. shaped_with ltac:(idtac; first
    [ apply preserves_json_vector; [exact _|intros; auto with preserves typeclass_instances] | by apply shape_one_access ]).
Qed.
Lemma shaped_reload {J : JsonLib} : preserves shaped checkAndReloadUserData.
Proof.
  unfold checkAndReloadUserData, readUserData, getUpdatedFileTime.
  shaped_with ltac:(idtac; first
    [ apply shaped_read_user
    | apply preserves_modify; intros s _; apply table_ok_shape, zero_table_ok ]).
Qed.

Section Operations.
Context {J : JsonLib} {C : Crypto} {P : PaddedCrypto}.

Lemma shaped_getUserInfo id : preserves shaped (getUserInfo id).
Proof. unfold getUserInfo. shaped_with ltac:(apply shaped_reload). Qed.
Lemma shaped_getUserName id : preserves shaped (getUserName id).
Proof. unfold getUserName. shaped_with ltac:(apply shaped_getUserInfo). Qed.
Lemma shaped_getUsersTblPtr : preserves shaped getUsersTblPtr.
Proof. unfold getUsersTblPtr. shaped_with ltac:(apply shaped_reload). Qed.
Lemma shaped_getUserId name : preserves shaped (getUserId name).
Proof. unfold getUserId. shaped_with ltac:(apply shaped_getUsersTblPtr). Qed.
Lemma shaped_write_cc : preserves shaped write_cc.
Proof. unfold write_cc. shaped_with idtac. Qed.
Lemma shaped_call c ok : preserves shaped (call c ok).
Proof. unfold call. shaped_with idtac. Qed.
Lemma shaped_groups : preserves shaped getSystemPrivAndGroups.
Proof. apply shaped_put_same. intros s. by destruct (managerGroups _). Qed.
#[local] Hint Resolve shaped_getUserInfo shaped_getUserName shaped_getUsersTblPtr shaped_reload shaped_write_cc shaped_call
  shaped_groups : preserves.
Lemma shaped_clear_password n : preserves shaped (ipmiClearUserEntryPassword n).
Proof. unfold ipmiClearUserEntryPassword. shaped_with idtac. Qed.
Lemma shaped_rename_password o n : preserves shaped (ipmiRenameUserEntryPassword o n).
Proof. unfold ipmiRenameUserEntryPassword. shaped_with idtac. Qed.
Lemma shaped_delete i : preserves shaped (deleteUserIndex i).
Proof. unfold deleteUserIndex. shaped_with ltac:(apply shaped_clear_password). Qed.
Lemma shaped_copy_name i name : preserves shaped (copy_name i name).
Proof.
  unfold copy_name. destruct (Nat.ltb_spec ipmiMaxUserName (length name)); [auto with preserves typeclass_instances|].
  apply shaped_modify_user. intros u Hu. apply shape_name; [done|]. split; [pose proof (length_c_str name); lia|].
  apply c_str_no_nul.
Qed.
Lemma shaped_add name priv b : preserves shaped (addUserEntry name priv b).
Proof.
  unfold addUserEntry. shaped_with idtac. apply shape_enabled, shape_in_system, shape_all_access; [done|].
  intros _. cbn. by rewrite (proj1 (valid_privilege_mask _ ltac:(eassumption))).
Qed.
Lemma shape_all_privileges u p : user_shape u -> valid_privilege p -> user_shape (all_privileges p u).
Proof. intros Hu Hp. by apply shape_all_access. Qed.
#[local] Hint Resolve shaped_delete shaped_copy_name shaped_add shaped_rename_password shape_all_privileges : preserves shape.

Lemma shaped_isValidUserName n : preserves shaped (isValidUserName n).
Proof. unfold isValidUserName. shaped_with idtac. Qed.
Lemma shaped_available : preserves shaped isIpmiInAvailableGroupList.
Proof. unfold isIpmiInAvailableGroupList. shaped_with idtac. Qed.
Lemma shaped_setUserName id name : preserves shaped (setUserName id name).
Proof. unfold setUserName. shaped_with ltac:(idtac; first [apply shaped_isValidUserName|apply shaped_available]). Qed.
Lemma shaped_setDbusProperty c : preserves shaped (setDbusProperty c).
Proof. unfold setDbusProperty. shaped_with idtac. Qed.
#[local] Hint Resolve shaped_setDbusProperty shaped_setUserName : preserves.
Lemma shaped_setUserEnabledState id b : preserves shaped (setUserEnabledState id b).
Proof. unfold setUserEnabledState. shaped_with idtac. Qed.
Lemma shaped_setUserPayloadAccess ch op id p : preserves shaped (setUserPayloadAccess ch op id p).
Proof. unfold setUserPayloadAccess. shaped_with idtac. Qed.
Lemma shaped_setUserPrivilegeAccess id ch a o : preserves shaped (setUserPrivilegeAccess id ch a o).
Proof.
  unfold setUserPrivilegeAccess. shaped_with idtac. apply shape_alter_access; [done|]. intros old. by destruct o.
Qed.
Lemma shaped_setUserPassword id p : preserves shaped (setUserPassword id p).
Proof. unfold setUserPassword. shaped_with idtac. Qed.

Lemma shaped_update_entry e i name priv b new : preserves shaped (update_entry e i name priv b new).
Proof.
  unfold update_entry. shaped_with idtac. rewrite (proj1 (valid_privilege_mask _ ltac:(eassumption))).
  destruct (_ =? _); [done|]. by apply shape_all_privileges.
Qed.
Lemma shaped_helper e name priv b new : preserves shaped (userUpdateHelper e name priv b new).
Proof. unfold userUpdateHelper. shaped_with ltac:(apply shaped_update_entry). Qed.
Lemma shaped_changed name props : forall v, preserves shaped (changed_properties name props v).
Proof.
  induction props as [|p props IH]; intros v; cbn [changed_properties].
  all: shaped_with ltac:(idtac; first [apply shaped_helper|apply IH]).
Qed.
Lemma shaped_signal sig : preserves shaped (userUpdatedSignalHandler sig).
Proof. unfold userUpdatedSignalHandler. shaped_with ltac:(idtac; first [apply shaped_helper|apply shaped_changed]). Qed.

Lemma shaped_sync_entry i objs : preserves shaped (sync_entry i objs).
Proof.
  unfold sync_entry. shaped_with idtac. apply shape_all_privileges; [done|].
  by rewrite (proj2 (valid_privilege_mask _ ltac:(eassumption))).
Qed.
Lemma shaped_sync_entries l : forall b objs, preserves shaped (sync_entries l b objs).
Proof.
  induction l as [|i l IH]; intros b objs; cbn [sync_entries].
  all: shaped_with ltac:(idtac; first [apply shaped_sync_entry|apply IH]).
Qed.
Lemma shaped_add_objects objs : forall b, preserves shaped (add_objects objs b).
Proof. induction objs as [|[n o] objs IH]; intros b; cbn [add_objects]; shaped_with ltac:(apply IH). Qed.
Lemma shaped_start : preserves shaped new_UserAccess.
Proof.
  unfold new_UserAccess, cacheUserDataFile, init_file, readUserData, getUpdatedFileTime.
  shaped_with ltac:(idtac; first
    [ apply shaped_sync_entries | apply shaped_add_objects | apply shaped_read_user
    | apply preserves_modify; intros s _; apply table_ok_shape, initial_table_ok ]).
Qed.
End Operations.

(** ** The service *)

(** What reaches the table: calls of the command layer, signals, a restart. *)
Inductive UserRequest :=
  | ReqSetName (id : Z) (name : list Z) | ReqSetEnabled (id : Z) (b : bool)
  | ReqSetPayload (ch op id : Z) (p : PayloadAccess) | ReqSetPrivilege (id ch : Z) (a : UserPrivAccess) (other : bool)
  | ReqSetPassword (id : Z) (password : list Z) | ReqFind (name : list Z) | ReqName (id : Z)
  | ReqSignal (sig : UserSignal) | ReqRestart.
Section Service.
Context {J : JsonLib} {C : Crypto} {P : PaddedCrypto}.
Definition request (r : UserRequest) : M UserState unit :=
  match r with
  | ReqSetName id name => ipmiUserSetUserName id name ;;; ret tt
  | ReqSetEnabled id b => setUserEnabledState id b ;;; ret tt
  | ReqSetPayload ch op id p => setUserPayloadAccess ch op id p ;;; ret tt
  | ReqSetPrivilege id ch a other => setUserPrivilegeAccess id ch a other ;;; ret tt
  | ReqSetPassword id password => setUserPassword id password ;;; ret tt
  | ReqFind name => getUserId name ;;; ret tt
  | ReqName id => getUserName id ;;; ret tt
  | ReqSignal sig => userUpdatedSignalHandler sig
  | ReqRestart => new_UserAccess
  end.
(** An exception ends the request, not the service. *)
Definition service (rs : list UserRequest) : M UserState unit :=
  mfor rs (fun r => try (request r) (fun _ => ret tt)).

(** C24. Any sequence of calls of the command layer, signals of
    the user manager and restarts, with any users file, any answers of the user
    manager and any failure of a call or of the file: the table keeps 16 entries
    of 16 channels each, with names that fit their arrays and privileges the
    system has a name for. *)
Theorem table_keeps_shape rs s s' : table_shape (usersTbl s) -> service rs s = Ret tt s' -> table_shape (usersTbl s').
Proof.
  intros Hs E. refine (preserves_Ret shaped (service rs) tt s s' _ E Hs). unfold service.
  apply preserves_mfor; [exact _|]. intros [] ; cbn [request].
  all: shaped_with ltac:(idtac; first
    [ apply shaped_setUserName | apply shaped_setUserEnabledState | apply shaped_setUserPayloadAccess
    | apply shaped_setUserPrivilegeAccess | apply shaped_setUserPassword | apply shaped_getUserName
    | apply shaped_getUserId | apply shaped_signal | apply shaped_start ]).
Qed.
End Service.

#[local] Existing Instances sample_json sample_json_laws.
(** A signal for a new user, a removal and a restart. *)
Definition sample_requests : list UserRequest :=
  [ReqSignal (InterfacesAdded (bytes_of_string "eve") (group_member priv_admin true)); ReqSetName 3 []; ReqRestart].
Definition sample_served : UserState :=
  match service sample_requests sample_users with Ret _ s => s | _ => sample_users end.
Lemma table_keeps_shape_witness : table_shape (usersTbl sample_served).
Proof.
  apply (table_keeps_shape sample_requests sample_users).
  - apply table_ok_shape, sample_table_ok.
  - assert (match service sample_requests sample_users with Ret _ _ => true | _ => false end = true) as H by (vm_compute; reflexivity).
    unfold sample_served. destruct (service sample_requests sample_users) as [[] s| |]; [reflexivity|discriminate H|discriminate H].
Defined.
Example sample_served_names : map (name_at (usersTbl sample_served)) [1; 2; 3]%nat = [ann; bob; []].
Proof. vm_compute. reflexivity. Qed.
