(* ===== verification/ChannelMgmt.v ===== *)
(** * IPMI channels

    [user_channel/channel_mgmt.cpp] and [channel_layer.cpp]: the table of the 16
    channels, read from the configuration; the access data of the channels with
    sessions, kept twice, in a file that survives and in one that does not; and
    the privilege limit that is shared with the network service on D-Bus.

    The source has each function on access data twice, for the non-volatile and
    for the volatile data; here they are one definition over [Store]. *)
From Stdlib Require Import ZArith Lia String.
From stdpp Require Import base list gmap strings pretty.
From S2P Require Import Prelude CxxStd Json IpmiMessage IpmiDispatch.
Local Open Scope Z_scope.

Definition maxIpmiChannels : nat := 16.
Definition currentChNum : Z := 0xE.
Definition ccActionNotSupportedForChannel : Z := 0x82.
Definition ccAccessModeNotSupportedForChannel : Z := 0x83.
Definition ccInvalidFieldRequest : Z := 0xCC.
Definition EIO : Z := 5.
Definition EBADMSG : Z := 74.
Definition EINVAL : Z := 22.
Definition setAccessMode : nat := 0.
Definition setUserAuthEnabled : nat := 1.
Definition setMsgAuthEnabled : nat := 2.
Definition setAlertingEnabled : nat := 3.
Definition setPrivLimit : nat := 4.
Definition PRIVILEGE_CALLBACK : Z := 1.
Definition PRIVILEGE_OEM : Z := 5.
Definition chanLan1 : Z := 1.
Definition smallChannelSize : Z := 64.

(** ** The table *)
Record ChannelAccess := {
  accessMode : Z; userAuthDisabled : bool; perMsgAuthDisabled : bool; alertingDisabled : bool; privLimit : Z }.
#[export] Instance ChannelAccess_fields : Fields ChannelAccess := fun a =>
  {| accessMode := accessMode a; userAuthDisabled := userAuthDisabled a; perMsgAuthDisabled := perMsgAuthDisabled a;
     alertingDisabled := alertingDisabled a; privLimit := privLimit a |}.
Record ChannelInfo := {
  mediumType : Z; protocolType : Z; sessionSupported : Z; isIpmi : bool; authTypeSupported : Z }.
#[export] Instance ChannelInfo_fields : Fields ChannelInfo := fun i =>
  {| mediumType := mediumType i; protocolType := protocolType i; sessionSupported := sessionSupported i;
     isIpmi := isIpmi i; authTypeSupported := authTypeSupported i |}.
Record ChannelProperties := {
  chName : list Z; chID : Z; isChValid : bool; activeSessCount : Z; chInfo : ChannelInfo;
  chNonVolatileData : ChannelAccess; chVolatileData : ChannelAccess; maxTransferSize : Z; isManagementNIC : bool }.
#[export] Instance ChannelProperties_fields : Fields ChannelProperties := fun c =>
  {| chName := chName c; chID := chID c; isChValid := isChValid c; activeSessCount := activeSessCount c;
     chInfo := chInfo c; chNonVolatileData := chNonVolatileData c; chVolatileData := chVolatileData c;
     maxTransferSize := maxTransferSize c; isManagementNIC := isManagementNIC c |}.
Definition zero_channel_access : ChannelAccess :=
  {| accessMode := 0; userAuthDisabled := false; perMsgAuthDisabled := false; alertingDisabled := false; privLimit := 0 |}.
Definition zero_info : ChannelInfo :=
  {| mediumType := 0; protocolType := 0; sessionSupported := 0; isIpmi := false; authTypeSupported := 0 |}.
Definition zero_channel : ChannelProperties :=
  {| chName := []; chID := 0; isChValid := false; activeSessCount := 0; chInfo := zero_info;
     chNonVolatileData := zero_channel_access; chVolatileData := zero_channel_access; maxTransferSize := 0;
     isManagementNIC := false |}.

Inductive Store := NonVolatile | Volatile.
Definition access (st : Store) (c : ChannelProperties) : ChannelAccess :=
  match st with NonVolatile => chNonVolatileData c | Volatile => chVolatileData c end.
Definition with_access (st : Store) (a : ChannelAccess) (c : ChannelProperties) : ChannelProperties :=
  match st with NonVolatile => c <| chNonVolatileData := a |> | Volatile => c <| chVolatileData := a |> end.

(** ** State *)

(** A value of the network service: a string, or another type. *)
Inductive NetValue := NetString (s : list Z) | NetOther.
Record NetService := { net_get : list Z -> option NetValue; net_set : list Z -> list Z -> bool }.
(** The files: modification time, contents.  [interfaces]: what [getifaddrs]
    lists.  [netCalls]: the privileges set, newest first. *)
Record ChannelState := {
  channelData : list ChannelProperties; signalFlag : Z;
  nvFileLastUpdatedTime : Z; voltFileLastUpdatedTime : Z; managementNIC : option Z;
  nvFile : option (Z * Json); voltFile : option (Z * Json); configFile : option Json; defaultFile : option Json;
  nvWriteOk : bool; voltWriteOk : bool; chNow : Z; interfaces : option (list (list Z));
  network : NetService; netCalls : list (list Z * list Z) }.
#[export] Instance ChannelState_fields : Fields ChannelState := fun s =>
  {| channelData := channelData s; signalFlag := signalFlag s; nvFileLastUpdatedTime := nvFileLastUpdatedTime s;
     voltFileLastUpdatedTime := voltFileLastUpdatedTime s; managementNIC := managementNIC s; nvFile := nvFile s;
     voltFile := voltFile s; configFile := configFile s; defaultFile := defaultFile s; nvWriteOk := nvWriteOk s;
     voltWriteOk := voltWriteOk s; chNow := chNow s; interfaces := interfaces s; network := network s;
     netCalls := netCalls s |}.

Definition store_file (st : Store) (s : ChannelState) : option (Z * Json) :=
  match st with NonVolatile => nvFile s | Volatile => voltFile s end.
Definition put_file (st : Store) (f : Z * Json) (s : ChannelState) : ChannelState :=
  match st with NonVolatile => s <| nvFile := Some f |> | Volatile => s <| voltFile := Some f |> end.
Definition write_ok (st : Store) (s : ChannelState) : bool :=
  match st with NonVolatile => nvWriteOk s | Volatile => voltWriteOk s end.
Definition last_time (st : Store) (s : ChannelState) : Z :=
  match st with NonVolatile => nvFileLastUpdatedTime s | Volatile => voltFileLastUpdatedTime s end.
Definition put_time (st : Store) (t : Z) (s : ChannelState) : ChannelState :=
  match st with
  | NonVolatile => s <| nvFileLastUpdatedTime := t |> | Volatile => s <| voltFileLastUpdatedTime := t |>
  end.

Definition channel_at (n : nat) : M ChannelState ChannelProperties :=
  let! s := get in of_option OutOfBounds (channelData s !! n).
Definition modify_channel (n : nat) (f : ChannelProperties -> ChannelProperties) : M ChannelState unit :=
  let! s := get in
  match channelData s !! n with
  | Some c => put (s <| channelData := <[n := f c]> (channelData s) |>)
  | None => undef OutOfBounds
  end.

(** ** Conversions *)
Definition names_of (l : list string) : list (list Z) := map bytes_of_string l.
Definition accessModeList : list (list Z) := names_of ["disabled"; "pre-boot"; "always_available"; "shared"]%string.
Definition sessionSupportList : list (list Z) :=
  names_of ["session-less"; "single-session"; "multi-session"; "session-based"]%string.
Definition privList : list (list Z) :=
  names_of ["priv-reserved"; "priv-callback"; "priv-user"; "priv-operator"; "priv-admin"; "priv-oem"]%string.
Definition mediumTypeMap : list (list Z * Z) :=
  map (fun p => (bytes_of_string (fst p), snd p))
    [("reserved", 0); ("ipmb", 1); ("icmb-v1.0", 2); ("icmb-v0.9", 3); ("lan-802.3", 4); ("serial", 5);
     ("other-lan", 6); ("pci-smbus", 7); ("smbus-v1.0", 8); ("smbus-v2.0", 9); ("usb-1x", 0xA); ("usb-2x", 0xB);
     ("system-interface", 0xC); ("oem", 0x60); ("unknown", 0x82)]%string.
Definition protocolTypeMap : list (list Z * Z) :=
  map (fun p => (bytes_of_string (fst p), snd p))
    [("na", 0); ("ipmb-1.0", 1); ("icmb-2.0", 2); ("reserved", 3); ("ipmi-smbus", 4); ("kcs", 5); ("smic", 6);
     ("bt-10", 7); ("bt-15", 8); ("tmode", 9); ("oem", 0x1C)]%string.
Definition index_in {S} (l : list (list Z)) (v : list Z) : M S Z :=
  match list_find (fun x => x = v) l with Some (i, _) => ret (Z.of_nat i) | None => throw InvalidArgument end.
Definition name_in {S} (l : list (list Z)) (v : Z) : M S (list Z) :=
  match l !! Z.to_nat v with Some n => ret n | None => throw InvalidArgument end.
Definition lookup_in {S} (l : list (list Z * Z)) (v : list Z) : M S Z :=
  match list_find (fun p => fst p = v) l with Some (_, p) => ret (snd p) | None => throw InvalidArgument end.
Definition convertToAccessModeIndex {S} : list Z -> M S Z := index_in accessModeList.
Definition convertToAccessModeString {S} : Z -> M S (list Z) := name_in accessModeList.
Definition convertToPrivLimitIndex {S} : list Z -> M S Z := index_in privList.
Definition convertToPrivLimitString {S} : Z -> M S (list Z) := name_in privList.
Definition convertToSessionSupportIndex {S} : list Z -> M S Z := index_in sessionSupportList.
Definition convertToMediumTypeIndex {S} : list Z -> M S Z := lookup_in mediumTypeMap.
Definition convertToProtocolTypeIndex {S} : list Z -> M S Z := lookup_in protocolTypeMap.

(** ** Queries *)
Definition isValidPrivLimit (p : Z) : bool := (PRIVILEGE_CALLBACK <? p) && (p <? PRIVILEGE_OEM).
Definition isValidAccessMode (m : Z) : bool := (0 <=? m) && (m <=? 3).
Definition convertCurrentChannelNum (chNum devChannel : Z) : Z := if chNum =? currentChNum then devChannel else chNum.

Definition isValidChannel (chNum : Z) : M ChannelState bool :=
  if Z.of_nat maxIpmiChannels <=? chNum then ret false
  else let! c := channel_at (Z.to_nat chNum) in ret (isChValid c).
Definition getChannelSessionSupport (chNum : Z) : M ChannelState Z :=
  let! c := channel_at (Z.to_nat chNum) in ret (sessionSupported (chInfo c)).
(** The types are bits already, and shifted once more: the last one by the
    width of the [int]. *)
Definition EAuthType_none : Z := 0x01.
Definition EAuthType_md2 : Z := 0x02.
Definition EAuthType_oem : Z := 0x20.
Definition isValidAuthType (chNum authType : Z) : M ChannelState bool :=
  if (authType <? EAuthType_md2) || (EAuthType_oem <? authType) then ret false
  else
    let! c := channel_at (Z.to_nat chNum) in
    if 32 <=? authType then undef SignedOverflow
    else ret (negb (Z.land (authTypeSupported (chInfo c)) (Z.shiftl 1 authType) =? 0)).
Definition getChannelActiveSessions (chNum : Z) : M ChannelState Z :=
  let! c := channel_at (Z.to_nat chNum) in ret (activeSessCount c).
Definition getChannelMaxTransferSize (chNum : Z) : M ChannelState Z :=
  let! c := channel_at (Z.to_nat chNum) in ret (maxTransferSize c).
Definition getChannelInfo (chNum : Z) : M ChannelState (Z * ChannelInfo) :=
  let! valid := isValidChannel chNum in
  if negb valid then ret (ccInvalidFieldRequest, zero_info)
  else let! c := channel_at (Z.to_nat chNum) in ret (ccSuccess, chInfo c).
Definition getChannelAuthTypeSupported (chNum : Z) : M ChannelState (Z * Z) :=
  let! valid := isValidChannel chNum in
  if negb valid then ret (ccInvalidFieldRequest, 0)
  else let! c := channel_at (Z.to_nat chNum) in ret (ccSuccess, authTypeSupported (chInfo c)).
Definition getChannelEnabledAuthType (chNum priv : Z) : M ChannelState (Z * Z) :=
  let! valid := isValidChannel chNum in
  if negb valid then ret (ccInvalidFieldRequest, 0)
  else
    let! sess := getChannelSessionSupport chNum in
    if sess =? EChannelSessSupported_none then ret (ccInvalidFieldRequest, 0)
    else if negb (isValidPrivLimit priv) then ret (ccInvalidFieldRequest, 0)
    else ret (ccSuccess, EAuthType_none).
Definition getChannelName (chNum : Z) : M ChannelState (list Z) :=
  let! valid := isValidChannel chNum in
  if negb valid then throw InvalidArgument
  else let! c := channel_at (Z.to_nat chNum) in ret (chName c).
Definition convertToChannelNumberFromChannelName (name : list Z) : M ChannelState Z :=
  let! s := get in
  match list_find (fun c => chName c = name) (channelData s) with
  | Some (_, c) => ret (chID c)
  | None => throw InvalidArgument
  end.
Definition find_index {A} (f : A -> bool) (l : list A) : option nat := fst <$> list_find (fun x => Is_true (f x)) l.
(** The answer is kept from the first call on. *)
Definition getManagementNICID : M ChannelState Z :=
  let! s := get in
  match managementNIC s with
  | Some id => ret id
  | None =>
      let id := match find_index isManagementNIC (channelData s) with Some i => Z.of_nat i | None => chanLan1 end in
      modify (fun s => s <| managementNIC := Some id |>) ;;; ret id
  end.

(** ** Files *)
Definition readJsonFile (f : option Json) : Json := default JNull f.
Definition getUpdatedFileTime (st : Store) : M ChannelState Z :=
  let! s := get in ret (match store_file st s with Some (t, _) => t | None => - EIO end).

Section Library.
Context {J : JsonLib}.

(** One member of the file.  The number is cut to a byte before it is checked. *)
Definition read_access (st : Store) (key : string) (jsonChData : Json) : M ChannelState unit :=
  let! n := stoi (bytes_of_string key) in
  let chNum := u8 n in
  if Z.of_nat maxIpmiChannels <=? chNum then throw StdOutOfRange
  else if is_null jsonChData then throw (RuntimeError "Corrupted channel access file")
  else
    let set f := modify_channel (Z.to_nat chNum) (fun c => with_access st (f (access st c)) c) in
    let! j := json_key jsonChData "access_mode" in
    let! s := json_string j in let! v := convertToAccessModeIndex s in
    set (fun a => a <| accessMode := v |>) ;;;
    let! j := json_key jsonChData "user_auth_disabled" in let! b := json_bool j in
    set (fun a => a <| userAuthDisabled := b |>) ;;;
    let! j := json_key jsonChData "per_msg_auth_disabled" in let! b := json_bool j in
    set (fun a => a <| perMsgAuthDisabled := b |>) ;;;
    let! j := json_key jsonChData "alerting_disabled" in let! b := json_bool j in
    set (fun a => a <| alertingDisabled := b |>) ;;;
    let! j := json_key jsonChData "priv_limit" in
    let! s := json_string j in let! v := convertToPrivLimitIndex s in
    set (fun a => a <| privLimit := v |>).
(** [readChannelPersistData], [readChannelVolatileData]. *)
Definition readChannelData (st : Store) : M ChannelState Z :=
  let! s := get in
  let data := readJsonFile (snd <$> store_file st s) in
  if is_null data then ret (- EIO)
  else
    try (let! l := json_members data in mfor l (fun kv => read_access st (fst kv) (snd kv)))
      (fun e => match e with
                | StdOutOfRange => throw e
                | _ => throw (RuntimeError "Corrupted channel access file")
                end) ;;;
    let! t := getUpdatedFileTime st in
    modify (put_time st t) ;;;
    ret 0.

(** The channels in the order of their keys as strings. *)
Definition key_order : list nat := [0; 1; 10; 11; 12; 13; 14; 15; 2; 3; 4; 5; 6; 7; 8; 9]%nat.
Definition access_json (a : ChannelAccess) : M ChannelState Json :=
  let! m := convertToAccessModeString (accessMode a) in
  let! p := convertToPrivLimitString (privLimit a) in
  ret (JObject [("access_mode", JString m); ("alerting_disabled", JBool (alertingDisabled a));
                ("per_msg_auth_disabled", JBool (perMsgAuthDisabled a)); ("priv_limit", JString p);
                ("user_auth_disabled", JBool (userAuthDisabled a))]%string).
Definition member_json (st : Store) (n : nat) : M ChannelState (list (string * Json)) :=
  let! c := channel_at n in
  if sessionSupported (chInfo c) =? EChannelSessSupported_none then ret []
  else let! j := access_json (access st c) in ret [(pretty n, j)].
(** [writeChannelPersistData], [writeChannelVolatileData]. *)
Definition writeChannelData (st : Store) : M ChannelState Z :=
  let! r := try (let! l := mmap (member_json st) key_order in ret (Some (mjoin l))) (fun _ => ret None) in
  match r with
  | None => ret (- EINVAL)
  | Some l =>
      let! s := get in
      if negb (write_ok st s) then ret (- EIO)
      else
        modify (put_file st (chNow s, match l with [] => JNull | _ => JObject l end)) ;;;
        let! t := getUpdatedFileTime st in
        modify (put_time st t) ;;;
        ret 0
  end.

(** [checkAndReloadNVData], [checkAndReloadVolatileData]. *)
Definition checkAndReloadData (st : Store) : M ChannelState Z :=
  let! updateTime := getUpdatedFileTime st in
  let! s := get in
  if negb (updateTime =? last_time st s) || (updateTime =? - EIO)
  then try (readChannelData st) (fun _ => ret (- EIO))
  else ret 0.

(** ** Access data *)

(** [getChannelAccessData], [getChannelAccessPersistData]. *)
Definition getAccessData (st : Store) (chNum : Z) : M ChannelState (Z * ChannelAccess) :=
  let! valid := isValidChannel chNum in
  if negb valid then ret (ccInvalidFieldRequest, zero_channel_access)
  else
    let! sess := getChannelSessionSupport chNum in
    if sess =? EChannelSessSupported_none then ret (ccActionNotSupportedForChannel, zero_channel_access)
    else
      let! r := checkAndReloadData st in
      if negb (r =? 0) then ret (ccUnspecifiedError, zero_channel_access)
      else let! c := channel_at (Z.to_nat chNum) in ret (ccSuccess, access st c).

(** [setFlag] as the set of the fields to change. *)
Definition flag (setFlag : Z) (b : nat) : bool := Z.testbit setFlag (Z.of_nat b).
Definition new_fields (setFlag : Z) (a old : ChannelAccess) : ChannelAccess :=
  {| accessMode := if flag setFlag setAccessMode then accessMode a else accessMode old;
     userAuthDisabled := if flag setFlag setUserAuthEnabled then userAuthDisabled a else userAuthDisabled old;
     perMsgAuthDisabled := if flag setFlag setMsgAuthEnabled then perMsgAuthDisabled a else perMsgAuthDisabled old;
     alertingDisabled := if flag setFlag setAlertingEnabled then alertingDisabled a else alertingDisabled old;
     privLimit := privLimit old |}.
Definition set_privLimit (st : Store) (p : Z) (c : ChannelProperties) : ChannelProperties :=
  with_access st ((access st c) <| privLimit := p |>) c.

(** The privilege limit of the network interface; [true]: it was set. *)
Definition setDbusProperty (name priv : list Z) : M ChannelState bool :=
  modify (fun s => s <| netCalls := (name, priv) :: netCalls s |>) ;;;
  let! s := get in ret (net_set (network s) name priv).

(** What [setFlag] and the data must satisfy, and the state of the channel. *)
Definition set_guard (chNum : Z) (a : ChannelAccess) (setFlag : Z) : M ChannelState Z :=
  let! valid := isValidChannel chNum in
  if negb valid then ret ccInvalidFieldRequest
  else
    let! sess := getChannelSessionSupport chNum in
    if sess =? EChannelSessSupported_none then ret ccActionNotSupportedForChannel
    else if flag setFlag setAccessMode && negb (isValidAccessMode (accessMode a)) then ret ccAccessModeNotSupportedForChannel
    else if flag setFlag setPrivLimit && negb (isValidPrivLimit (privLimit a)) then ret ccInvalidFieldRequest
    else ret ccSuccess.
Definition write_or_error (st : Store) : M ChannelState Z :=
  let! r := writeChannelData st in ret (if r =? 0 then ccSuccess else ccUnspecifiedError).

Definition setChannelAccessData (chNum : Z) (a : ChannelAccess) (setFlag : Z) : M ChannelState Z :=
  let! cc := set_guard chNum a setFlag in
  if negb (cc =? ccSuccess) then ret cc
  else
    let! r := checkAndReloadData Volatile in
    if negb (r =? 0) then ret ccUnspecifiedError
    else
      let n := Z.to_nat chNum in
      modify_channel n (fun c => with_access Volatile (new_fields setFlag a (access Volatile c)) c) ;;;
      (if flag setFlag setPrivLimit then modify_channel n (set_privLimit Volatile (privLimit a)) else ret tt) ;;;
      write_or_error Volatile.

Definition setChannelAccessPersistData (chNum : Z) (a : ChannelAccess) (setFlag : Z) : M ChannelState Z :=
  let! cc := set_guard chNum a setFlag in
  if negb (cc =? ccSuccess) then ret cc
  else
    let! r := checkAndReloadData NonVolatile in
    if negb (r =? 0) then ret ccUnspecifiedError
    else
      let n := Z.to_nat chNum in
      modify_channel n (fun c => with_access NonVolatile (new_fields setFlag a (access NonVolatile c)) c) ;;;
      if flag setFlag setPrivLimit then
        let! privStr := convertToPrivLimitString (privLimit a) in
        let! c := channel_at n in
        let! ok := setDbusProperty (chName c) privStr in
        if negb ok then ret ccUnspecifiedError
        else
          modify (fun s => s <| signalFlag := Z.lor (signalFlag s) (Z.shiftl 1 chNum) |>) ;;;
          modify_channel n (set_privLimit NonVolatile (privLimit a)) ;;;
          write_or_error NonVolatile
      else write_or_error NonVolatile.

(** ** The signal of the network service *)
Definition networkIntfObjectBasePath : list Z := bytes_of_string "/xyz/openbmc_project/network".
Definition getChannelNameFromPath (path : list Z) : option (list Z) :=
  let len := length networkIntfObjectBasePath in
  if (length path <=? len + 1)%nat || negb (bool_decide (take len path = networkIntfObjectBasePath)) then None
  else Some (drop (len + 1) path).
Definition privilegePropertyString : list Z := bytes_of_string "MaxPrivilege".

Definition processChAccessPropChange (path : list Z) (chProperties : list (list Z * NetValue)) : M ChannelState unit :=
  match getChannelNameFromPath path with
  | None => ret tt
  | Some name =>
      match list_find (fun p => fst p = privilegePropertyString) chProperties with
      | None => ret tt
      | Some (_, (_, NetOther)) => throw (RuntimeError "bad_variant_access")
      | Some (_, (_, NetString [])) => ret tt
      | Some (_, (_, NetString intfPrivStr)) =>
          let! r := try (let! intfPriv := convertToPrivLimitIndex intfPrivStr in
                         let! chNum := convertToChannelNumberFromChannelName name in
                         ret (Some (intfPriv, chNum)))
                      (fun _ => ret None) in
          match r with
          | None => ret tt
          | Some (intfPriv, chNum) =>
              let! s := get in
              if Z.testbit (signalFlag s) chNum
              then put (s <| signalFlag := Z.land (signalFlag s) (Z.lnot (Z.shiftl 1 chNum)) |>)
              else
                let n := Z.to_nat chNum in
                checkAndReloadData Volatile ;;;
                checkAndReloadData NonVolatile ;;;
                let! c := channel_at n in
                if privLimit (access NonVolatile c) =? intfPriv then ret tt
                else
                  modify_channel n (set_privLimit NonVolatile intfPriv) ;;;
                  let! w := writeChannelData NonVolatile in
                  if negb (w =? 0) then ret tt
                  else
                    let! c := channel_at n in
                    if privLimit (access Volatile c) =? intfPriv then ret tt
                    else modify_channel n (set_privLimit Volatile intfPriv) ;;; writeChannelData Volatile ;;; ret tt
          end
      end
  end.

(** ** The start *)
Definition defaultChannelName : list Z := bytes_of_string "RESERVED".
Definition setDefaultChannelConfig (n : nat) : M ChannelState unit :=
  modify_channel n (fun c =>
    c <| chName := defaultChannelName |> <| chID := Z.of_nat n |> <| isChValid := false |> <| activeSessCount := 0 |>
      <| isManagementNIC := false |>
      <| chInfo := {| mediumType := 0; protocolType := 3; sessionSupported := 0; isIpmi := false;
                     authTypeSupported := EAuthType_none |} |>).
Definition lan_802_3 : list Z := bytes_of_string "lan-802.3".
(** One channel of the configuration.  The result is [false] where the function
    returns [-EBADMSG]. *)
Definition load_channel (data : Json) (ifaddrs : list (list Z)) (n : nat) : M ChannelState bool :=
  let! jsonChData := json_key data (pretty n) in
  if is_null jsonChData then setDefaultChannelConfig n ;;; ret true
  else
    let! jsonChInfo := json_key jsonChData "channel_info" in
    if is_null jsonChInfo then ret false
    else
      let str (j : Json) (k : string) := let! v := json_key j k in json_string v in
      let bool_of (j : Json) (k : string) := let! v := json_key j k in json_bool v in
      let set f := modify_channel n f in
      let set_info f := modify_channel n (fun c => c <| chInfo := f (chInfo c) |>) in
      let! medium := str jsonChInfo "medium_type" in
      let! channelFound :=
        if bool_decide (medium = lan_802_3) then
          match ifaddrs with
          | [] => ret false
          | _ => let! name := str jsonChData "name" in ret (existsb (fun i => bool_decide (name = i)) ifaddrs)
          end
        else ret true in
      set (fun c => c <| chID := Z.of_nat n |>) ;;;
      let! name := str jsonChData "name" in
      set (fun c => c <| chName := name |>) ;;;
      let! valid := if channelFound then bool_of jsonChData "is_valid" else ret false in
      set (fun c => c <| isChValid := valid |>) ;;;
      let! active := json_value json_int jsonChData "active_sessions" 0 in
      set (fun c => c <| activeSessCount := u8 active |>) ;;;
      let! size := json_value json_size_t jsonChData "max_transfer_size" smallChannelSize in
      set (fun c => c <| maxTransferSize := size |>) ;;;
      (if lib_count jsonChData "is_management_nic"
       then let! b := bool_of jsonChData "is_management_nic" in set (fun c => c <| isManagementNIC := b |>)
       else ret tt) ;;;
      let! m := convertToMediumTypeIndex medium in
      set_info (fun i => i <| mediumType := m |>) ;;;
      let! proto := str jsonChInfo "protocol_type" in
      let! p := convertToProtocolTypeIndex proto in
      set_info (fun i => i <| protocolType := p |>) ;;;
      let! sess := str jsonChInfo "session_supported" in
      let! x := convertToSessionSupportIndex sess in
      set_info (fun i => i <| sessionSupported := x |>) ;;;
      let! ipmi := bool_of jsonChInfo "is_ipmi" in
      set_info (fun i => i <| isIpmi := ipmi |> <| authTypeSupported := EAuthType_none |>) ;;;
      ret true.
Fixpoint load_channels (data : Json) (ifaddrs : list (list Z)) (l : list nat) : M ChannelState Z :=
  match l with
  | [] => ret 0
  | n :: l =>
      let! ok := try (load_channel data ifaddrs n) (fun _ => ret false) in
      if ok then load_channels data ifaddrs l else ret (- EBADMSG)
  end.
Definition loadChannelConfig : M ChannelState Z :=
  let! s := get in
  let data := readJsonFile (configFile s) in
  if lib_empty data then ret (- EIO)
  else
    modify (fun s => s <| channelData := replicate maxIpmiChannels zero_channel |>) ;;;
    match interfaces s with
    | None => ret (- EIO)
    | Some ifaddrs => load_channels data ifaddrs (seq 0 maxIpmiChannels)
    end.

(** The privilege limits of the network interfaces are taken over. *)
Definition sync_channel (n : nat) : M ChannelState bool :=
  let! c := channel_at n in
  if sessionSupported (chInfo c) =? EChannelSessSupported_none then ret false
  else
    let! s := get in
    match net_get (network s) (chName c) with
    | None | Some NetOther => ret false
    | Some (NetString intfPrivStr) =>
        let! r := try (let! p := convertToPrivLimitIndex intfPrivStr in ret (Some p)) (fun _ => ret None) in
        match r with
        | None => ret false
        | Some intfPriv =>
            if privLimit (access NonVolatile c) =? intfPriv then ret false
            else modify_channel n (fun c => set_privLimit Volatile intfPriv (set_privLimit NonVolatile intfPriv c)) ;;; ret true
        end
    end.
Definition syncNetworkChannelConfig : M ChannelState Z :=
  let! updated := mmap sync_channel (seq 0 maxIpmiChannels) in
  if negb (existsb id updated) then ret 0
  else
    let! r := writeChannelData NonVolatile in
    if negb (r =? 0) then ret (- EIO)
    else let! r := writeChannelData Volatile in ret (if r =? 0 then 0 else - EIO).

(** [std::filesystem::copy_file] of a source to a place that must be free. *)
Definition copy_file (src : option Json) (st : Store) : M ChannelState unit :=
  let! s := get in
  match src, store_file st s with
  | Some j, None => put (put_file st (chNow s, j) s)
  | _, _ => throw (RuntimeError "filesystem_error")
  end.
Definition ios_failure : exn := RuntimeError "ios_base::failure".
(** The data of a store is read, after it has been made from [src] if need be. *)
Definition read_or_copy (src : ChannelState -> option Json) (st : Store) : M ChannelState unit :=
  let! r := readChannelData st in
  if r =? 0 then ret tt
  else
    let! s := get in
    copy_file (src s) st ;;;
    let! r := readChannelData st in
    if r =? 0 then ret tt else throw ios_failure.
Definition initChannelPersistData : M ChannelState unit :=
  let! r := loadChannelConfig in
  if negb (r =? 0) then throw ios_failure
  else
    read_or_copy defaultFile NonVolatile ;;;
    read_or_copy (fun s => snd <$> nvFile s) Volatile ;;;
    let! r := syncNetworkChannelConfig in
    if negb (r =? 0) then throw ios_failure else ret tt.
End Library.
