(* ===== verification/HostCommands.v ===== *)
(** * The user and channel commands of the IPMI host service

    [user_channel/usercommands.cpp] and [channelcommands.cpp]: each handler with
    the types of its arguments and of its result, and their registration.  The
    state of the service joins the tables of [UserMgmt] and [ChannelMgmt]. *)
From Stdlib Require Import ZArith Lia String.
From stdpp Require Import base list gmap strings.
From S2P Require Import Prelude CxxStd RmcpCrypto Json IpmiMessage IpmiDispatch PasswdMgr UserMgmt ChannelMgmt.
Local Open Scope Z_scope.

Definition netFnApp : Z := 0x06.
Definition ccActionNotSupported : Z := ccActionNotSupportedForChannel.
Definition maxIpmi15PasswordSize : nat := 16.
Definition userIdEnabledViaSetPassword : Z := 1.
Definition userIdDisabledViaSetPassword : Z := 2.
Definition ipmiCCPasswdFailMismatch : Z := 0x80.
Definition payloadTypeNotSupported : Z := 0x80.

(** [netDevices]: the entries of /sys/class/net. *)
Record HostState := { users : UserState; channels : ChannelState; netDevices : list Z -> bool }.
#[export] Instance HostState_fields : Fields HostState := fun h =>
  {| users := users h; channels := channels h; netDevices := netDevices h |}.
Definition on_users {A} (m : M UserState A) : M HostState A := zoom users (fun u h => h <| users := u |>) m.
Definition on_channels {A} (m : M ChannelState A) : M HostState A := zoom channels (fun c h => h <| channels := c |>) m.

Fixpoint types (l : list ty) : tys := match l with [] => TNil | t :: l => TCons t (types l) end.
Definition Handler (args res : tys) : Type := Request -> interps args -> M HostState (callback_result (Z * option (interps res))).
Definition response {R : Type} (cc : Z) : M HostState (callback_result (Z * option R)) := ret (Returned (cc, None)).
Definition responseSuccess {R : Type} (r : R) : M HostState (callback_result (Z * option R)) :=
  ret (Returned (ccSuccess, Some r)).
Definition nonzero (z : Z) : bool := negb (z =? 0).
Definition the_channel (r : Request) (ch : Z) : Z := convertCurrentChannelNum ch (channel (ctx r)).

Section Commands.
Context {J : JsonLib} {C : Crypto} {P : PaddedCrypto}.

(** ** usercommands.cpp *)
Definition set_user_access_args : tys :=
  types [TFixed 4; TFixed 1; TFixed 1; TFixed 1; TFixed 1; TFixed 6; TFixed 2; TFixed 4; TFixed 4; TOpt (TUInt 1)].
Definition ipmiSetUserAccess : Handler set_user_access_args TNil :=
  fun r '(ch, (enabled, (link, (callback, (bitsUpdate, (user, (reserved1, (priv, (reserved2, (limit, _)))))))))) =>
  if nonzero reserved1 || nonzero reserved2 || nonzero (default 0 limit) || negb (isValidPrivLimit priv)
  then response ccInvalidFieldRequest
  else
    let chNum := the_channel r ch in
    let! valid := on_channels (isValidChannel chNum) in
    if negb valid then response invalidChannel
    else
      let! sess := on_channels (getChannelSessionSupport chNum) in
      if sess =? EChannelSessSupported_none then response ccActionNotSupported
      else if negb (isValidUserId user) then response ccParmOutOfRange
      else
        let update := nonzero bitsUpdate in
        let a := {| privilege := priv; ipmiEnabled := update && nonzero enabled;
                    linkAuthEnabled := update && nonzero link; accessCallback := update && nonzero callback |} in
        let! cc := on_users (setUserPrivilegeAccess user chNum a update) in response cc.

Definition get_user_access_args : tys := types [TFixed 4; TFixed 4; TFixed 6; TFixed 2].
Definition get_user_access_res : tys :=
  types [TFixed 6; TFixed 2; TFixed 6; TFixed 2; TFixed 6; TFixed 2; TFixed 4; TFixed 1; TFixed 1; TFixed 1; TFixed 1].
Definition ipmiGetUserAccess : Handler get_user_access_args get_user_access_res :=
  fun r '(ch, (reserved1, (user, (reserved2, _)))) =>
  let chNum := the_channel r ch in
  let! valid := if nonzero reserved1 || nonzero reserved2 then ret false else on_channels (isValidChannel chNum) in
  if negb valid then response ccInvalidFieldRequest
  else
    let! sess := on_channels (getChannelSessionSupport chNum) in
    if sess =? EChannelSessSupported_none then response ccActionNotSupported
    else if negb (isValidUserId user) then response ccParmOutOfRange
    else
      let! (counts, fixedUsers) := on_users ipmiUserGetAllCounts in
      let '(maxChUsers, enabledUsers) := counts in
      let! (cc, state) := on_users (ipmiUserCheckEnabled user) in
      if negb (cc =? ccSuccess) then response cc
      else
        let! (cc, a) := on_users (ipmiUserGetPrivilegeAccess user chNum) in
        if negb (cc =? ccSuccess) then response cc
        else
          responseSuccess (maxChUsers mod 64, (0, (enabledUsers mod 64,
            ((if state : bool then userIdEnabledViaSetPassword else userIdDisabledViaSetPassword),
             (fixedUsers mod 64, (0, (privilege a mod 16, (Z.b2z (ipmiEnabled a), (Z.b2z (linkAuthEnabled a),
             (Z.b2z (accessCallback a), (0, tt))))))))))).

Definition set_user_name_args : tys := types [TFixed 6; TFixed 2; TBytes 16].
Definition ipmiSetUserName : Handler set_user_name_args TNil :=
  fun r '(id, (reserved, (name, _))) =>
  if nonzero reserved then response ccInvalidFieldRequest
  else if negb (isValidUserId id) then response ccParmOutOfRange
  else let! cc := on_users (ipmiUserSetUserName id (c_str name)) in response cc.

Definition get_user_name_args : tys := types [TFixed 6; TFixed 2].
Definition get_user_name_res : tys := types [TBytes 16].
Definition ipmiGetUserName : Handler get_user_name_args get_user_name_res :=
  fun r '(id, (reserved, _)) =>
  if nonzero reserved then response ccInvalidFieldRequest
  else
    let! (cc, name) := on_users (getUserName id) in
    if negb (cc =? ccSuccess) then response ccParmOutOfRange
    else if (ipmiMaxUserName <? length name)%nat then response ccUnspecifiedError
    else responseSuccess (name ++ replicate (ipmiMaxUserName - length name) 0, tt).

Definition opDisableUser : Z := 0.
Definition opEnableUser : Z := 1.
Definition opSetPassword : Z := 2.
Definition opTestPassword : Z := 3.
Definition set_user_password_args : tys := types [TFixed 6; TBool; TBool; TFixed 2; TFixed 6; TByteVec].
(** The stored password is padded with zeros to the length of the other one. *)
Definition test_password (stored given : list Z) : bool :=
  bool_decide (stored ++ replicate (length given - length stored) 0 = given).
Definition ipmiSetUserPassword : Handler set_user_password_args TNil :=
  fun r '(id, (reserved1, (pwLen20, (operation, (reserved2, (userPassword, _)))))) =>
  if (reserved1 : bool) || nonzero reserved2 then response ccInvalidFieldRequest
  else if ((operation =? opSetPassword) || (operation =? opTestPassword)) &&
          negb (length userPassword =? if pwLen20 : bool then maxIpmi20PasswordSize else maxIpmi15PasswordSize)%nat
  then response ccReqDataLenInvalid
  else
    let! (cc, name) := on_users (getUserName id) in
    if negb (cc =? ccSuccess) then response ccParmOutOfRange
    else if operation =? opSetPassword
    then let! cc := on_users (setUserPassword id userPassword) in response cc
    else if (operation =? opEnableUser) || (operation =? opDisableUser)
    then let! cc := on_users (setUserEnabledState id (nonzero operation)) in response cc
    else if operation =? opTestPassword
    then
      let! password := on_users (ipmiUserGetPassword name) in
      response (if test_password password userPassword then ccSuccess else ipmiCCPasswdFailMismatch)
    else response ccInvalidFieldRequest.

Definition auth_caps_args : tys := types [TFixed 4; TFixed 3; TBool; TFixed 4; TFixed 4].
Definition auth_caps_res : tys :=
  types [TUInt 1; TFixed 6; TBool; TBool; TBool; TBool; TBool; TBool; TBool; TBool; TFixed 2; TBool; TBool; TFixed 6;
         TFixed 24; TUInt 1].
Definition ipmiGetChannelAuthenticationCapabilities : Handler auth_caps_args auth_caps_res :=
  fun r '(ch, (reserved1, (_, (privLevel, (reserved2, _))))) =>
  let chNum := the_channel r ch in
  let! valid := if nonzero reserved1 || nonzero reserved2 then ret false else on_channels (isValidChannel chNum) in
  if negb valid || negb (isValidPrivLimit privLevel) then response ccInvalidFieldRequest
  else
    let! sess := on_channels (getChannelSessionSupport chNum) in
    if sess =? EChannelSessSupported_none then response ccActionNotSupported
    else
      let! (counts, fixedUsers) := on_users ipmiUserGetAllCounts in
      let nonNullUsers := 0 <? snd counts in
      responseSuccess (chNum, (0, (false, (true, (false, (false, (nonNullUsers, (false, (false, (false, (0,
        (false, (true, (0, (0, (0, tt)))))))))))))))).

Definition set_payload_args : tys :=
  types [TFixed 4; TFixed 4; TFixed 6; TFixed 2;
         TBool; TBool; TBool; TBool; TBool; TBool; TBool; TBool; TUInt 1;
         TBool; TBool; TBool; TBool; TBool; TBool; TBool; TBool; TUInt 1].
Definition ipmiSetUserPayloadAccess : Handler set_payload_args TNil :=
  fun r '(ch, (reserved, (user, (operation,
    (std0, (std1, (std2, (std3, (std4, (std5, (std6, (std7, (std_reserved,
    (oem0, (oem1, (oem2, (oem3, (oem4, (oem5, (oem6, (oem7, (oem_reserved, _)))))))))))))))))))))) =>
  let chNum := the_channel r ch in
  let! valid :=
    if nonzero reserved || std0 || std2 || std3 || std4 || std5 || std6 || std7 || oem0 || oem1 || oem2 || oem3 ||
       oem4 || oem5 || oem6 || oem7 || nonzero std_reserved || nonzero oem_reserved
    then ret false else on_channels (isValidChannel chNum) in
  if negb valid then response ccInvalidFieldRequest
  else if negb (operation =? 0) && negb (operation =? 1) then response ccInvalidFieldRequest
  else
    let! sess := on_channels (getChannelSessionSupport chNum) in
    if sess =? EChannelSessSupported_none then response ccActionNotSupported
    else if negb (isValidUserId user) then response ccParmOutOfRange
    else
      let a := {| stdPayloadEnables1 := if std1 : bool then 2 else 0; oemPayloadEnables1 := 0 |} in
      let! cc := on_users (setUserPayloadAccess chNum operation user a) in response cc.

Definition get_payload_args : tys := types [TFixed 4; TFixed 4; TFixed 6; TFixed 2].
Definition get_payload_res : tys :=
  types [TBool; TBool; TBool; TBool; TBool; TBool; TBool; TBool; TUInt 1;
         TBool; TBool; TBool; TBool; TBool; TBool; TBool; TBool; TUInt 1].
Definition ipmiGetUserPayloadAccess : Handler get_payload_args get_payload_res :=
  fun r '(ch, (reserved1, (user, (reserved2, _)))) =>
  let chNum := the_channel r ch in
  let! valid := if nonzero reserved1 || nonzero reserved2 then ret false else on_channels (isValidChannel chNum) in
  if negb valid then response ccInvalidFieldRequest
  else
    let! sess := on_channels (getChannelSessionSupport chNum) in
    if sess =? EChannelSessSupported_none then response ccActionNotSupported
    else if negb (isValidUserId user) then response ccParmOutOfRange
    else
      let! (cc, a) := on_users (ipmiUserGetUserPayloadAccess chNum user) in
      if negb (cc =? ccSuccess) then response cc
      else
        let std k := Z.testbit (stdPayloadEnables1 a) k in
        let oem k := Z.testbit (oemPayloadEnables1 a) k in
        responseSuccess (std 0, (std 1, (std 2, (std 3, (std 4, (std 5, (std 6, (std 7, (0,
          (oem 0, (oem 1, (oem 2, (oem 3, (oem 4, (oem 5, (oem 6, (oem 7, (0, tt)))))))))))))))))).

(** ** channelcommands.cpp *)
Definition doNotSet : Z := 0.
Definition nvData : Z := 1.
Definition activeData : Z := 2.
Definition allAccessFlags : Z := 0xF.
Definition privFlag : Z := 0x10.
Definition set_channel_access_args : tys :=
  types [TFixed 4; TFixed 4; TFixed 3; TBool; TBool; TBool; TFixed 2; TFixed 4; TFixed 2; TFixed 2].
Definition access_of (mode : Z) (usrAuth msgAuth alert : bool) (limit : Z) : ChannelAccess :=
  {| accessMode := mode; userAuthDisabled := usrAuth; perMsgAuthDisabled := msgAuth; alertingDisabled := alert;
     privLimit := limit |}.
(** The flags of a store, from the two actions of the request. *)
Definition set_flags (what chanAccess privMode : Z) : Z :=
  Z.lor (if chanAccess =? what then allAccessFlags else 0) (if privMode =? what then privFlag else 0).
Definition ipmiSetChannelAccess : Handler set_channel_access_args TNil :=
  fun r '(ch, (reserved1, (mode, (usrAuth, (msgAuth, (alert, (chanAccess, (limit, (reserved2, (privMode, _)))))))))) =>
  if nonzero reserved1 || nonzero reserved2 || negb (isValidPrivLimit limit) then response ccInvalidFieldRequest
  else
    let chNum := the_channel r ch in
    let! sess := on_channels (getChannelSessionSupport chNum) in
    let! valid := if sess =? EChannelSessSupported_none then ret false else on_channels (isValidChannel chNum) in
    if negb valid then response ccActionNotSupported
    else if (activeData <? chanAccess) || (activeData <? privMode) then response ccAccessModeNotSupportedForChannel
    else
      let a := access_of mode usrAuth msgAuth alert limit in
      let nv := set_flags nvData chanAccess privMode in
      let act := set_flags activeData chanAccess privMode in
      let! cc := if nonzero nv then on_channels (setChannelAccessPersistData chNum a nv) else ret ccSuccess in
      if negb (cc =? ccSuccess) then response cc
      else
        let! cc := if nonzero act then on_channels (setChannelAccessData chNum a act) else ret ccSuccess in
        response cc.

Definition get_channel_access_args : tys := types [TFixed 4; TFixed 4; TFixed 6; TFixed 2].
Definition get_channel_access_res : tys := types [TFixed 3; TBool; TBool; TBool; TFixed 2; TFixed 4; TFixed 4].
Definition ipmiGetChannelAccess : Handler get_channel_access_args get_channel_access_res :=
  fun r '(ch, (reserved1, (reserved2, (what, _)))) =>
  if nonzero reserved1 || nonzero reserved2 then response ccInvalidFieldRequest
  else if (what =? doNotSet) || (activeData <? what) then response ccInvalidFieldRequest
  else
    let chNum := the_channel r ch in
    let! sess := on_channels (getChannelSessionSupport chNum) in
    let! valid := if sess =? EChannelSessSupported_none then ret false else on_channels (isValidChannel chNum) in
    if negb valid then response ccActionNotSupported
    else
      let! (cc, a) := on_channels (getAccessData (if what =? nvData then NonVolatile else Volatile) chNum) in
      if negb (cc =? ccSuccess) then response cc
      else responseSuccess (accessMode a mod 8, (userAuthDisabled a, (perMsgAuthDisabled a, (alertingDisabled a,
             (0, (privLimit a mod 16, (0, tt))))))).

Definition channel_args : tys := types [TFixed 4; TFixed 4].
Definition channel_info_res : tys :=
  types [TFixed 4; TFixed 4; TFixed 7; TBool; TFixed 5; TFixed 3; TFixed 6; TFixed 2; TFixed 24; TUInt 2].
Definition ipmiGetChannelInfo : Handler channel_args channel_info_res :=
  fun r '(ch, (reserved, _)) =>
  if nonzero reserved then response ccInvalidFieldRequest
  else
    let chNum := the_channel r ch in
    let! valid := on_channels (isValidChannel chNum) in
    if negb valid then response ccInvalidFieldRequest
    else
      let! (cc, info) := on_channels (getChannelInfo chNum) in
      if negb (cc =? ccSuccess) then response cc
      else
        let! active := on_channels (getChannelActiveSessions chNum) in
        responseSuccess (chNum mod 16, (0, (mediumType info mod 128, (false, (protocolType info mod 32, (0,
          (active mod 64, (sessionSupported info mod 4, (7154, (0, tt)))))))))).

Definition standardPayloadBit (p : Z) : Z := Z.shiftl 1 p.
Definition sessionPayloadBit (p : Z) : Z := Z.shiftr (Z.shiftl 1 p) 0x10.
Definition payload_support_res : tys := types [TUInt 2; TUInt 2; TUInt 2; TUInt 2].
(** [doesDeviceExist]: the name of an invalid channel throws. *)
Definition doesDeviceExist (chNum : Z) : M HostState bool :=
  let! name := on_channels (getChannelName chNum) in
  let! h := get in ret (netDevices h name).
Definition ipmiGetChannelPayloadSupport : Handler channel_args payload_support_res :=
  fun r '(ch, (reserved, _)) =>
  let chNum := the_channel r ch in
  let! exists_ := doesDeviceExist chNum in
  let! valid := if exists_ then on_channels (isValidChannel chNum) else ret false in
  if negb valid || nonzero reserved then response ccInvalidFieldRequest
  else
    let! sess := on_channels (getChannelSessionSupport chNum) in
    if sess =? EChannelSessSupported_none then response ccActionNotSupported
    else
      responseSuccess (Z.lor (standardPayloadBit 0) (standardPayloadBit 1),
        (foldr Z.lor 0 (map sessionPayloadBit [0x10; 0x11; 0x12; 0x13; 0x14; 0x15]), (0, (0, tt)))).

Definition isValidPayloadType (p : Z) : bool := (p =? 0) || (p =? 1) || in_range 0x10 0x15 p.
Definition payload_version_args : tys := types [TFixed 4; TFixed 4; TUInt 1].
Definition payload_version_res : tys := types [TUInt 1].
Definition ipmiGetChannelPayloadVersion : Handler payload_version_args payload_version_res :=
  fun r '(ch, (reserved, (payloadTypeNum, _))) =>
  let chNum := the_channel r ch in
  let! valid := if nonzero reserved then ret false else on_channels (isValidChannel chNum) in
  if negb valid then response ccInvalidFieldRequest
  else
    let! sess := on_channels (getChannelSessionSupport chNum) in
    if sess =? EChannelSessSupported_none then response payloadTypeNotSupported
    else if negb (isValidPayloadType payloadTypeNum) then response payloadTypeNotSupported
    else responseSuccess (0x10, tt).

(** ** Registration *)
Definition register (cmd priv : Z) {args res : tys} (h : Handler args res) (t : Tables HostState) : Tables HostState :=
  snd (registerHandler prioOpenBmcBase netFnApp cmd priv (executeCallback args res h) t).
Definition registerUserIpmiFunctions (t : Tables HostState) : Tables HostState :=
  let t := register 0x43 Privilege_Admin ipmiSetUserAccess t in
  let t := register 0x44 Privilege_Admin ipmiGetUserAccess t in
  let t := register 0x46 Privilege_Admin ipmiGetUserName t in
  let t := register 0x45 Privilege_Admin ipmiSetUserName t in
  let t := register 0x47 Privilege_Admin ipmiSetUserPassword t in
  let t := register 0x38 Privilege_Callback ipmiGetChannelAuthenticationCapabilities t in
  let t := register 0x4C Privilege_Admin ipmiSetUserPayloadAccess t in
  register 0x4D Privilege_Operator ipmiGetUserPayloadAccess t.
Definition registerChannelFunctions (t : Tables HostState) : Tables HostState :=
  let t := register 0x40 Privilege_Admin ipmiSetChannelAccess t in
  let t := register 0x41 Privilege_User ipmiGetChannelAccess t in
  let t := register 0x42 Privilege_User ipmiGetChannelInfo t in
  let t := register 0x4E Privilege_User ipmiGetChannelPayloadSupport t in
  register 0x4F Privilege_User ipmiGetChannelPayloadVersion t.
Definition host_tables : Tables HostState := registerChannelFunctions (registerUserIpmiFunctions no_tables).
End Commands.

(** What the command queue asks the channel layer. *)
Definition channel_queries (s : ChannelState) : ChannelQueries :=
  {| getChannelByName name :=
       match convertToChannelNumberFromChannelName (bytes_of_string name) s with Ret c _ => Some c | _ => None end;
     IpmiDispatch.getChannelSessionSupport n :=
       match getChannelSessionSupport n s with Ret v _ => v | _ => EChannelSessSupported_none end;
     IpmiDispatch.mediumType n := match getChannelInfo n s with Ret (_, i) _ => mediumType i | _ => 0 end |}.
