(* ===== verification/ChannelMgmtSpec.v ===== *)
(** * Properties of the IPMI channels

    What is set is what is got, in the one store and not in the other, also
    after a restart; the privilege limit follows the network service. *)
From Stdlib Require Import ZArith Lia String.
From stdpp Require Import base list gmap strings pretty.
From S2P Require Import Prelude CxxStd Json IpmiMessage IpmiDispatch ChannelMgmt.
Local Open Scope Z_scope.

(** ** Well-formed channels *)
Definition access_ok (a : ChannelAccess) : Prop := 0 <= accessMode a < 4 /\ 0 <= privLimit a < 6.
Definition channel_ok (c : ChannelProperties) : Prop := access_ok (chNonVolatileData c) /\ access_ok (chVolatileData c).
Definition channels_ok (t : list ChannelProperties) : Prop := length t = maxIpmiChannels /\ Forall channel_ok t.
Lemma channel_ok_access st c : channel_ok c -> access_ok (access st c).
Proof. intros [? ?]. by destruct st. Qed.
Lemma channel_ok_with st a c : channel_ok c -> access_ok a -> channel_ok (with_access st a c).
Proof. intros [? ?] ?. by destruct st. Qed.
Lemma access_with st a c : access st (with_access st a c) = a.
Proof. by destruct st. Qed.
Definition other (st : Store) : Store := match st with NonVolatile => Volatile | Volatile => NonVolatile end.
Lemma access_other st a c : access (other st) (with_access st a c) = access (other st) c.
Proof. by destruct st. Qed.
(** Everything but the data of one store. *)
Definition same_but (st : Store) (c c' : ChannelProperties) : Prop := exists a, c' = with_access st a c.
Lemma same_but_refl st c : same_but st c c.
Proof. exists (access st c). by destruct st, c. Qed.
Lemma with_access_twice st a b c : with_access st a (with_access st b c) = with_access st a c.
Proof. by destruct st. Qed.
Lemma with_access_id st c : with_access st (access st c) c = c.
Proof. by destruct st, c. Qed.

Definition session_channel (c : ChannelProperties) : Prop := sessionSupported (chInfo c) <> EChannelSessSupported_none.
#[export] Instance session_channel_dec c : Decision (session_channel c).
Proof. unfold session_channel. apply _. Defined.
Lemma session_with st a c : session_channel (with_access st a c) <-> session_channel c.
Proof. by destruct st. Qed.

(** ** Steps *)
Lemma channel_at_Ret n s c : channelData s !! n = Some c -> channel_at n s = Ret c s.
Proof. intros H. unfold channel_at. rewrite (bind_Ret get _ s s s) by done. unfold of_option. by rewrite H. Qed.
Definition put_channel (n : nat) (c : ChannelProperties) (s : ChannelState) : ChannelState :=
  s <| channelData := <[n := c]> (channelData s) |>.
Lemma modify_channel_Ret n f s c : channelData s !! n = Some c -> modify_channel n f s = Ret tt (put_channel n (f c) s).
Proof. intros H. unfold modify_channel. rewrite (bind_Ret get _ s s s) by done. by rewrite H. Qed.
Lemma put_channel_lookup n c s c0 : channelData s !! n = Some c0 -> channelData (put_channel n c s) !! n = Some c.
Proof. intros H. apply list_lookup_insert_eq. by eapply lookup_lt_Some. Qed.
Lemma put_channel_twice n c d s : put_channel n c (put_channel n d s) = put_channel n c s.
Proof. unfold put_channel. cbn. by rewrite list_insert_insert_eq. Qed.
Lemma put_channel_id n c s : channelData s !! n = Some c -> put_channel n c s = s.
Proof. intros H. unfold put_channel. rewrite list_insert_id by done. by destruct s. Qed.
Lemma modify_put n f s c d : channelData s !! n = Some d ->
  modify_channel n f (put_channel n c s) = Ret tt (put_channel n (f c) s).
Proof.
  intros H. rewrite (modify_channel_Ret n f _ c) by (by eapply put_channel_lookup). by rewrite put_channel_twice.
Qed.
Lemma channels_ok_insert t n c : channels_ok t -> channel_ok c -> channels_ok (<[n := c]> t).
Proof. intros [Hl Ht] Hc. split; [by rewrite length_insert|by apply Forall_insert]. Qed.
Lemma channel_lookup t n : channels_ok t -> (n < maxIpmiChannels)%nat -> exists c, t !! n = Some c /\ channel_ok c.
Proof.
  intros [Hl Ht] Hn. destruct (lookup_lt_is_Some_2 t n ltac:(lia)) as [c Hc]. exists c. split; [done|].
  by eapply Forall_lookup_1.
Qed.

(** ** Names of modes and privileges *)
Lemma index_of_name {S} (l : list (list Z)) v n (s : S) : NoDup l -> l !! n = Some v -> index_in l v s = Ret (Z.of_nat n) s.
Proof.
  intros Hd Hl. unfold index_in. destruct (list_find (fun x => x = v) l) as [[i x]|] eqn:E.
  - apply list_find_Some in E as (Hx & -> & _). by rewrite (NoDup_lookup l i n v Hd Hx Hl).
  - apply list_find_None in E. by destruct (proj1 (Forall_forall _ _) E v (list_elem_of_lookup_2 _ _ _ Hl)).
Qed.
Lemma distinct_modes : NoDup accessModeList /\ NoDup privList.
Proof. split; apply (bool_decide_unpack _); vm_compute; exact I. Qed.
Definition nth_name (l : list (list Z)) (v : Z) : list Z := default [] (l !! Z.to_nat v).
Lemma name_and_back {S} (l : list (list Z)) v (s : S) : NoDup l -> 0 <= v < Z.of_nat (length l) ->
  name_in l v s = Ret (nth_name l v) s /\ index_in l (nth_name l v) s = Ret v s.
Proof.
  intros Hd Hv. destruct (lookup_lt_is_Some_2 l (Z.to_nat v) ltac:(lia)) as [x Hx]. unfold name_in, nth_name. rewrite Hx.
  cbn [default from_option id]. split; [done|]. rewrite (index_of_name l x (Z.to_nat v) s Hd Hx). by rewrite Z2Nat.id by lia.
Qed.
Lemma mode_names {S} a (s : S) : access_ok a ->
  convertToAccessModeString (accessMode a) s = Ret (nth_name accessModeList (accessMode a)) s /\
  convertToAccessModeIndex (nth_name accessModeList (accessMode a)) s = Ret (accessMode a) s /\
  convertToPrivLimitString (privLimit a) s = Ret (nth_name privList (privLimit a)) s /\
  convertToPrivLimitIndex (nth_name privList (privLimit a)) s = Ret (privLimit a) s.
Proof.
  intros [Hm Hp]. destruct distinct_modes as [D1 D2].
  destruct (name_and_back accessModeList (accessMode a) s D1 Hm). destruct (name_and_back privList (privLimit a) s D2 Hp). done.
Qed.

(** ** The file *)
Definition json_of_access (a : ChannelAccess) : Json :=
  JObject [("access_mode", JString (nth_name accessModeList (accessMode a)));
           ("alerting_disabled", JBool (alertingDisabled a));
           ("per_msg_auth_disabled", JBool (perMsgAuthDisabled a));
           ("priv_limit", JString (nth_name privList (privLimit a)));
           ("user_auth_disabled", JBool (userAuthDisabled a))]%string.
Lemma access_json_Ret a s : access_ok a -> access_json a s = Ret (json_of_access a) s.
Proof.
  intros Ha. destruct (mode_names a s Ha) as (E1 & _ & E2 & _). unfold access_json.
  by rewrite (bind_Ret _ _ _ _ _ E1), (bind_Ret _ _ _ _ _ E2).
Qed.
Definition member_of (st : Store) (t : list ChannelProperties) (n : nat) : list (string * Json) :=
  match t !! n with
  | Some c => if sessionSupported (chInfo c) =? EChannelSessSupported_none then [] else [(pretty n, json_of_access (access st c))]
  | None => []
  end.
Definition store_json (st : Store) (t : list ChannelProperties) : Json :=
  let l := mjoin (map (member_of st t) key_order) in match l with [] => JNull | _ => JObject l end.
Definition saved (st : Store) (s : ChannelState) : ChannelState :=
  put_time st (chNow s) (put_file st (chNow s, store_json st (channelData s)) s).
Lemma in_key_order n : n ∈ key_order -> (n < maxIpmiChannels)%nat.
Proof.
  intros H. unfold maxIpmiChannels.
  assert (Forall (fun n => n < 16)%nat key_order) as F by (apply (bool_decide_unpack _); vm_compute; exact I).
  exact (proj1 (Forall_forall _ _) F n H).
Qed.
Lemma writeChannelData_cases st s : channels_ok (channelData s) ->
  writeChannelData st s = if write_ok st s then Ret 0 (saved st s) else Ret (- EIO) s.
Proof.
  intros Ht. unfold writeChannelData.
  assert (mmap (member_json st) key_order s = Ret (map (member_of st (channelData s)) key_order) s) as E.
  { apply mmap_Ret. intros n Hn%list_elem_of_In. destruct (channel_lookup _ n Ht (in_key_order n Hn)) as (c & Hc & Ho).
    unfold member_json, member_of. rewrite (bind_Ret _ _ _ _ _ (channel_at_Ret _ _ _ Hc)), Hc.
    destruct (_ =? _); [done|]. by rewrite (bind_Ret _ _ _ _ _ (access_json_Ret _ s (channel_ok_access st c Ho))). }
  rewrite (bind_Ret _ _ s (Some (mjoin (map (member_of st (channelData s)) key_order))) s)
    by (unfold try; by rewrite (bind_Ret _ _ _ _ _ E)).
  rewrite (bind_Ret get _ s s s) by done. destruct (write_ok st s); [|done]. cbn [negb].
  unfold saved, store_json. by destruct st.
Qed.

(** Reading back. *)
Lemma key_number {S} n (s : S) : (n < maxIpmiChannels)%nat -> stoi (bytes_of_string (pretty n)) s = Ret (Z.of_nat n) s.
Proof. unfold maxIpmiChannels. intros H. do 16 (destruct n as [|n]; [reflexivity|]). lia. Qed.
Section Library.
Context {J : JsonLib} {JL : JsonLaws J}.
Lemma set_access st n f s c a : channelData s !! n = Some c ->
  modify_channel n (fun c => with_access st (f (access st c)) c) (put_channel n (with_access st a c) s) =
  Ret tt (put_channel n (with_access st (f a) c) s).
Proof. intros H. rewrite (modify_put n _ s _ c H), access_with, with_access_twice. done. Qed.
Lemma read_access_Ret st n a s c : (n < maxIpmiChannels)%nat -> access_ok a -> channelData s !! n = Some c ->
  read_access st (pretty n) (json_of_access a) s = Ret tt (put_channel n (with_access st a c) s).
Proof.
  intros Hn Ha Hc. destruct (mode_names a s Ha) as (_ & E1 & _ & E2). unfold read_access.
  rewrite (bind_Ret _ _ _ _ _ (key_number n s Hn)).
  assert (u8 (Z.of_nat n) = Z.of_nat n) as -> by (apply u8_small; unfold is_byte, maxIpmiChannels in *; lia).
  cbv zeta. rewrite (proj2 (Z.leb_gt _ _)) by lia. cbn [is_null json_of_access]. rewrite Nat2Z.id.
  rewrite <- (put_channel_id n c s Hc) at 1. rewrite <- (with_access_id st c) at 1.
  set (a0 := access st c). fold (json_of_access a). unfold json_of_access.
  erewrite bind_Ret; [|by apply json_key_Ret]. erewrite bind_Ret; [|apply json_string_Ret].
  erewrite bind_Ret; [|apply (mode_names a _ Ha)]. erewrite bind_Ret; [|by apply set_access].
  do 3 (erewrite bind_Ret; [|by apply json_key_Ret]; erewrite bind_Ret; [|apply json_bool_Ret]; erewrite bind_Ret; [|by apply set_access]).
  erewrite bind_Ret; [|by apply json_key_Ret]. erewrite bind_Ret; [|apply json_string_Ret].
  erewrite bind_Ret; [|apply (mode_names a _ Ha)]. erewrite set_access by done. by destruct a.
Qed.

(** What reading the file of the table [t] makes of a table. *)
Definition restore (st : Store) (t tb : list ChannelProperties) (n : nat) : list ChannelProperties :=
  match t !! n with
  | Some c => if sessionSupported (chInfo c) =? EChannelSessSupported_none then tb
              else alter (with_access st (access st c)) n tb
  | None => tb
  end.
Lemma restore_length st t ks : forall tb, length (foldl (restore st t) tb ks) = length tb.
Proof.
  induction ks as [|k ks IH]; intros tb; cbn [foldl]; [done|]. rewrite IH. unfold restore.
  destruct (t !! k); [|done]. destruct (_ =? _); [done|]. apply length_alter.
Qed.
Lemma restore_lookup st t ks m : forall tb, foldl (restore st t) tb ks !! m =
  match t !! m with
  | Some c => if decide (m ∈ ks /\ session_channel c) then with_access st (access st c) <$> tb !! m else tb !! m
  | None => tb !! m
  end.
Proof.
  induction ks as [|k ks IH]; intros tb; cbn [foldl].
  { destruct (t !! m); [|done]. rewrite decide_False; [done|]. intros [H _]. by apply elem_of_nil in H. }
  rewrite IH. unfold restore. destruct (decide (k = m)) as [->|Hne].
  - destruct (t !! m) as [c|]; [|done]. unfold session_channel. destruct (Z.eqb_spec (sessionSupported (chInfo c)) EChannelSessSupported_none) as [E|E].
    + rewrite !decide_False by naive_solver. done.
    + rewrite list_lookup_alter_eq. rewrite (decide_True (P := m ∈ m :: ks /\ _)) by (split; [by left|done]).
      destruct (tb !! m); cbn [fmap option_fmap option_map]; [rewrite with_access_twice|]; by destruct (decide _).
  - assert (match t !! k with
            | Some c => if sessionSupported (chInfo c) =? EChannelSessSupported_none then tb
                        else alter (with_access st (access st c)) k tb
            | None => tb end !! m = tb !! m) as E.
    { destruct (t !! k); [|done]. destruct (_ =? _); [done|]. by apply list_lookup_alter_ne. }
    rewrite E. destruct (t !! m) as [c|]; [|done]. destruct (decide (m ∈ ks /\ session_channel c)) as [H|H].
    + rewrite decide_True; [done|]. destruct H. by split; [right|].
    + rewrite decide_False; [done|]. intros [H1 H2]. apply H. split; [|done]. apply elem_of_cons in H1 as [|]; [congruence|done].
Qed.
Definition with_table (t : list ChannelProperties) (s : ChannelState) : ChannelState := s <| channelData := t |>.
Lemma read_members st t ks : channels_ok t -> (forall n, n ∈ ks -> (n < maxIpmiChannels)%nat) ->
  forall s, length (channelData s) = maxIpmiChannels ->
  mfor (mjoin (map (member_of st t) ks)) (fun kv => read_access st (fst kv) (snd kv)) s =
  Ret tt (with_table (foldl (restore st t) (channelData s) ks) s).
Proof.
  intros Ht. induction ks as [|k ks IH]; intros Hks s Hl; [by destruct s|].
  destruct (channel_lookup t k Ht (Hks k ltac:(by left))) as (c & Hc & Ho).
  assert (forall n, n ∈ ks -> (n < maxIpmiChannels)%nat) as Hks' by (intros n Hn; apply Hks; by right).
  specialize (IH Hks'). change (mjoin (map (member_of st t) (k :: ks))) with (member_of st t k ++ mjoin (map (member_of st t) ks)).
  cbn [foldl]. assert (member_of st t k = if sessionSupported (chInfo c) =? EChannelSessSupported_none then []
    else [(pretty k, json_of_access (access st c))]) as -> by (unfold member_of; by rewrite Hc).
  assert (restore st t (channelData s) k = if sessionSupported (chInfo c) =? EChannelSessSupported_none then channelData s
    else alter (with_access st (access st c)) k (channelData s)) as -> by (unfold restore; by rewrite Hc).
  destruct (_ =? _); [by apply IH|]. cbn [app mfor fst snd].
  destruct (lookup_lt_is_Some_2 (channelData s) k) as [d Hd]; [rewrite Hl; apply Hks; by left|].
  rewrite (bind_Ret _ _ _ _ _ (read_access_Ret st k _ s d (Hks k ltac:(by left)) (channel_ok_access st c Ho) Hd)).
  rewrite IH by (cbn; by rewrite length_insert).
  assert (channelData (put_channel k (with_access st (access st c) d) s) = alter (with_access st (access st c)) k (channelData s)) as ->; [|done].
  apply list_eq. intros m. cbn. destruct (decide (m = k)) as [->|Hne].
  - rewrite list_lookup_alter_eq, list_lookup_insert_eq, Hd; [done|]. by eapply lookup_lt_Some.
  - by rewrite list_lookup_alter_ne, list_lookup_insert_ne by congruence.
Qed.

Definition has_session (t : list ChannelProperties) : Prop := exists n c, t !! n = Some c /\ session_channel c.
Lemma store_json_object st t : channels_ok t -> has_session t ->
  store_json st t = JObject (mjoin (map (member_of st t) key_order)).
Proof.
  intros [Hl _] (n & c & Hc & Hs). unfold store_json. cbv zeta.
  destruct (mjoin (map (member_of st t) key_order)) eqn:E; [exfalso|done].
  assert ((pretty n, json_of_access (access st c)) ∈ mjoin (map (member_of st t) key_order)) as Hin;
    [|rewrite E in Hin; by apply elem_of_nil in Hin].
  apply list_elem_of_join. exists (member_of st t n). split.
  - unfold member_of. rewrite Hc, (proj2 (Z.eqb_neq _ _) Hs). by left.
  - apply list_elem_of_fmap. exists n. split; [done|]. pose proof (lookup_lt_Some _ _ _ Hc) as Hn. rewrite Hl in Hn.
    unfold maxIpmiChannels in Hn. clear -Hn. do 16 (destruct n as [|n]; [unfold key_order; set_solver|]). lia.
Qed.
Lemma getUpdatedFileTime_Ret st s : getUpdatedFileTime st s = Ret (match store_file st s with Some (t, _) => t | None => - EIO end) s.
Proof. reflexivity. Qed.
Lemma readChannelData_Ret st t s time : channels_ok t -> has_session t -> length (channelData s) = maxIpmiChannels ->
  store_file st s = Some (time, store_json st t) ->
  readChannelData st s = Ret 0 (put_time st time (with_table (foldl (restore st t) (channelData s) key_order) s)).
Proof.
  intros Ht Hs Hl Hf. unfold readChannelData. rewrite (bind_Ret get _ s s s), Hf by done.
  cbn [fmap option_fmap option_map snd readJsonFile default from_option id]. rewrite store_json_object by done.
  cbn [is_null]. cbv iota.
  pose proof (read_members st t key_order Ht in_key_order s Hl) as R. set (s1 := with_table _ s) in *.
  rewrite (bind_Ret _ _ s tt s1) by (unfold try; rewrite (bind_Ret _ _ _ _ _ (json_members_Ret _ s)); by rewrite R).
  rewrite (bind_Ret _ _ _ _ _ (getUpdatedFileTime_Ret st s1)).
  assert (store_file st s1 = Some (time, store_json st t)) as -> by (rewrite <- Hf; by destruct st). done.
Qed.

(** The access data of every channel with sessions
    is what the next reader of the file gets: whatever its table held, each such
    channel has the mode, the three flags and the privilege limit written, and
    nothing else of the table changes. *)
Theorem access_survives_restart st s s2 : channels_ok (channelData s) -> has_session (channelData s) -> write_ok st s = true ->
  length (channelData s2) = maxIpmiChannels ->
  exists s1, writeChannelData st s = Ret 0 s1 /\
    (store_file st s2 = store_file st s1 -> exists s3, readChannelData st s2 = Ret 0 s3 /\
      length (channelData s3) = maxIpmiChannels /\
      forall n c d, channelData s !! n = Some c -> channelData s2 !! n = Some d ->
        channelData s3 !! n = Some (if decide (session_channel c) then with_access st (access st c) d else d)).
Proof.
  intros Ht Hs Hw Hl. exists (saved st s). split; [by rewrite writeChannelData_cases, Hw|]. intros Hf.
  eexists. split; [apply (readChannelData_Ret st (channelData s) s2 (chNow s) Ht Hs Hl)|].
  { rewrite Hf. by destruct st. }
  assert (channelData (put_time st (chNow s) (with_table (foldl (restore st (channelData s)) (channelData s2) key_order) s2))
    = foldl (restore st (channelData s)) (channelData s2) key_order) as -> by by destruct st.
  split; [by rewrite restore_length|]. intros n c d Hc Hd. rewrite restore_lookup, Hc, Hd.
  assert (n ∈ key_order) as Hn.
  { pose proof (lookup_lt_Some _ _ _ Hc) as Hn. rewrite (proj1 Ht) in Hn. unfold maxIpmiChannels in Hn. clear -Hn.
    do 16 (destruct n as [|n]; [unfold key_order; set_solver|]). lia. }
  destruct (decide (session_channel c)); [rewrite decide_True|rewrite decide_False]; [done|done|done|naive_solver].
Qed.

(** ** Set and get *)
Definition settled (st : Store) (s : ChannelState) : Prop :=
  exists j, store_file st s = Some (last_time st s, j) /\ last_time st s <> - EIO.
Lemma reload_settled st s : settled st s -> checkAndReloadData st s = Ret 0 s.
Proof.
  intros (j & Hf & Ht). unfold checkAndReloadData. rewrite (bind_Ret _ _ _ _ _ (getUpdatedFileTime_Ret st s)), Hf.
  rewrite (bind_Ret get _ s s s) by done. by rewrite Z.eqb_refl, (proj2 (Z.eqb_neq _ _) Ht).
Qed.
Lemma settled_saved st s : chNow s <> - EIO -> settled st (saved st s).
Proof. intros H. exists (store_json st (channelData s)). by destruct st. Qed.
Definition merged (setFlag : Z) (a old : ChannelAccess) : ChannelAccess :=
  {| accessMode := if Z.testbit setFlag 0 then accessMode a else accessMode old;
     userAuthDisabled := if Z.testbit setFlag 1 then userAuthDisabled a else userAuthDisabled old;
     perMsgAuthDisabled := if Z.testbit setFlag 2 then perMsgAuthDisabled a else perMsgAuthDisabled old;
     alertingDisabled := if Z.testbit setFlag 3 then alertingDisabled a else alertingDisabled old;
     privLimit := if Z.testbit setFlag 4 then privLimit a else privLimit old |}.
Lemma merged_fields setFlag a old : merged setFlag a old =
  (new_fields setFlag a old) <| privLimit := if flag setFlag setPrivLimit then privLimit a else privLimit old |>.
Proof. reflexivity. Qed.
Definition setAccessData (st : Store) : Z -> ChannelAccess -> Z -> M ChannelState Z :=
  match st with NonVolatile => setChannelAccessPersistData | Volatile => setChannelAccessData end.
(** The fields a request changes are valid. *)
Definition fields_valid (setFlag : Z) (a : ChannelAccess) : Prop :=
  (flag setFlag setAccessMode = true -> 0 <= accessMode a <= 3) /\
  (flag setFlag setPrivLimit = true -> PRIVILEGE_CALLBACK < privLimit a < PRIVILEGE_OEM).
Definition usable (s : ChannelState) (chNum : Z) (c : ChannelProperties) : Prop :=
  0 <= chNum < 16 /\ channelData s !! Z.to_nat chNum = Some c /\ isChValid c = true /\ session_channel c.

Lemma isValidChannel_Ret s chNum c : usable s chNum c -> isValidChannel chNum s = Ret true s.
Proof.
  intros (Hn & Hc & Hv & _). unfold isValidChannel. rewrite (proj2 (Z.leb_gt _ _)) by (unfold maxIpmiChannels; lia).
  by rewrite (bind_Ret _ _ _ _ _ (channel_at_Ret _ _ _ Hc)), Hv.
Qed.
Lemma session_Ret s chNum c : usable s chNum c ->
  getChannelSessionSupport chNum s = Ret (sessionSupported (chInfo c)) s /\
  (sessionSupported (chInfo c) =? EChannelSessSupported_none) = false.
Proof.
  intros (_ & Hc & _ & Hs). unfold getChannelSessionSupport. rewrite (bind_Ret _ _ _ _ _ (channel_at_Ret _ _ _ Hc)).
  split; [done|]. by apply Z.eqb_neq.
Qed.
Lemma set_guard_Ret s chNum c a setFlag : usable s chNum c -> fields_valid setFlag a ->
  set_guard chNum a setFlag s = Ret ccSuccess s.
Proof.
  intros Hu [Hm Hp]. unfold set_guard. rewrite (bind_Ret _ _ _ _ _ (isValidChannel_Ret _ _ _ Hu)). cbn [negb].
  destruct (session_Ret _ _ _ Hu) as [E E2]. rewrite (bind_Ret _ _ _ _ _ E), E2.
  assert (flag setFlag setAccessMode && negb (isValidAccessMode (accessMode a)) = false) as ->.
  { destruct (flag setFlag setAccessMode); cbn [andb]; [|reflexivity]. specialize (Hm eq_refl). unfold isValidAccessMode. cbn [andb].
    rewrite (proj2 (Z.leb_le _ _)), (proj2 (Z.leb_le _ _)) by lia. done. }
  assert (flag setFlag setPrivLimit && negb (isValidPrivLimit (privLimit a)) = false) as ->; [|done].
  destruct (flag setFlag setPrivLimit); cbn [andb]; [|reflexivity]. specialize (Hp eq_refl). unfold isValidPrivLimit. cbn [andb].
  by rewrite (proj2 (Z.ltb_lt _ _)), (proj2 (Z.ltb_lt _ _)) by lia.
Qed.
Lemma merged_ok setFlag a old : access_ok old -> fields_valid setFlag a -> access_ok (merged setFlag a old).
Proof.
  intros [Ho1 Ho2] [Hm Hp]. rewrite merged_fields. unfold PRIVILEGE_CALLBACK, PRIVILEGE_OEM in Hp. split; cbn.
  - destruct (flag setFlag setAccessMode); [specialize (Hm eq_refl); lia|done].
  - destruct (flag setFlag setPrivLimit); [specialize (Hp eq_refl); lia|done].
Qed.
Lemma getAccessData_Ret st s chNum c : usable s chNum c -> settled st s ->
  getAccessData st chNum s = Ret (ccSuccess, access st c) s.
Proof.
  intros Hu Hs. unfold getAccessData. rewrite (bind_Ret _ _ _ _ _ (isValidChannel_Ret _ _ _ Hu)). cbn [negb].
  destruct (session_Ret _ _ _ Hu) as [E E2]. rewrite (bind_Ret _ _ _ _ _ E), E2, (bind_Ret _ _ _ _ _ (reload_settled st s Hs)).
  cbn [negb Z.eqb]. destruct Hu as (_ & Hc & _). by rewrite (bind_Ret _ _ _ _ _ (channel_at_Ret _ _ _ Hc)).
Qed.

Lemma write_or_error_Ret st s : channels_ok (channelData s) -> write_ok st s = true ->
  write_or_error st s = Ret ccSuccess (saved st s).
Proof.
  intros Ht Hw. unfold write_or_error. pose proof (writeChannelData_cases st s Ht) as E. rewrite Hw in E.
  by rewrite (bind_Ret _ _ _ _ _ E).
Qed.
Lemma channels_ok_put st n a c s : channels_ok (channelData s) -> channelData s !! n = Some c -> access_ok a ->
  channels_ok (channelData (put_channel n (with_access st a c) s)).
Proof.
  intros Ht Hc Ha. apply channels_ok_insert; [done|]. apply channel_ok_with; [|done].
  eapply Forall_lookup_1; [apply Ht|exact Hc].
Qed.
(** The state after the fields are set and, for the privilege limit in the
    non-volatile store, the network service has been told. *)
Definition told (st : Store) (chNum : Z) (c : ChannelProperties) (a : ChannelAccess) (setFlag : Z) (s : ChannelState) : ChannelState :=
  match st with
  | NonVolatile =>
      if flag setFlag setPrivLimit
      then s <| netCalls := (chName c, nth_name privList (privLimit a)) :: netCalls s |>
             <| signalFlag := Z.lor (signalFlag s) (Z.shiftl 1 chNum) |>
      else s
  | Volatile => s
  end.
Definition net_accepts (st : Store) (c : ChannelProperties) (a : ChannelAccess) (setFlag : Z) (s : ChannelState) : Prop :=
  st = NonVolatile -> flag setFlag setPrivLimit = true -> net_set (network s) (chName c) (nth_name privList (privLimit a)) = true.

Lemma setAccessData_Ret st s chNum c a setFlag :
  channels_ok (channelData s) -> usable s chNum c -> settled st s -> write_ok st s = true -> fields_valid setFlag a ->
  net_accepts st c a setFlag s ->
  setAccessData st chNum a setFlag s =
    Ret ccSuccess (saved st (put_channel (Z.to_nat chNum) (with_access st (merged setFlag a (access st c)) c)
                               (told st chNum c a setFlag s))).
Proof.
  intros Ht Hu Hs Hw Hv Hnet. pose proof Hu as (Hn & Hc & _). set (n := Z.to_nat chNum) in *.
  assert (access_ok (access st c)) as Ho by (apply channel_ok_access; eapply Forall_lookup_1; [apply Ht|exact Hc]).
  pose proof (merged_ok setFlag a _ Ho Hv) as Hm.
  pose proof (set_guard_Ret s chNum c a setFlag Hu Hv) as G.
  destruct st; cbn [setAccessData access] in *; unfold setChannelAccessPersistData, setChannelAccessData.
  all: rewrite (bind_Ret _ _ _ _ _ G); cbn [negb Z.eqb ccSuccess]; rewrite (bind_Ret _ _ _ _ _ (reload_settled _ s Hs));
    cbn [negb Z.eqb].
  all: fold n; rewrite (bind_Ret _ _ _ _ _ (modify_channel_Ret n _ s c Hc)).
  - set (s1 := put_channel n _ s). unfold told. destruct (flag setFlag setPrivLimit) eqn:Hf.
    + assert (privLimit a = privLimit (merged setFlag a (chNonVolatileData c))) as Ep by (rewrite merged_fields; cbn; by rewrite Hf).
      assert (convertToPrivLimitString (privLimit a) s1 = Ret (nth_name privList (privLimit a)) s1) as E1
        by (rewrite Ep; apply (mode_names _ s1 Hm)).
      rewrite (bind_Ret _ _ _ _ _ E1).
      set (c1 := with_access NonVolatile (new_fields setFlag a (chNonVolatileData c)) c).
      assert (channelData s1 !! n = Some c1) as Hc1 by (by eapply put_channel_lookup).
      rewrite (bind_Ret _ _ _ _ _ (channel_at_Ret n s1 c1 Hc1)).
      set (s2 := s1 <| netCalls := (chName c, nth_name privList (privLimit a)) :: netCalls s |>).
      assert (setDbusProperty (chName c1) (nth_name privList (privLimit a)) s1 = Ret true s2) as E2.
      { unfold setDbusProperty. rewrite (bind_Ret (modify _) _ s1 tt s2) by done. rewrite (bind_Ret get _ s2 s2 s2) by done.
        unfold ret. f_equal. by apply Hnet. }
      rewrite (bind_Ret _ _ _ _ _ E2). cbn [negb].
      set (s3 := s2 <| signalFlag := Z.lor (signalFlag s) (Z.shiftl 1 chNum) |>).
      rewrite (bind_Ret (modify _) _ s2 tt s3) by done.
      assert (channelData s3 !! n = Some c1) as Hc3 by exact Hc1.
      rewrite (bind_Ret _ _ _ _ _ (modify_channel_Ret n _ s3 c1 Hc3)). set (s4 := put_channel n _ s3).
      assert (s4 = put_channel n (with_access NonVolatile (merged setFlag a (chNonVolatileData c)) c)
        (s <| netCalls := (chName c, nth_name privList (privLimit a)) :: netCalls s |>
           <| signalFlag := Z.lor (signalFlag s) (Z.shiftl 1 chNum) |>)) as ->.
      { rewrite merged_fields. unfold s4, s3, s2, s1, put_channel. cbn. rewrite Hf, list_insert_insert_eq. done. }
      apply write_or_error_Ret; [|done]. by apply (channels_ok_put NonVolatile).
    + assert (s1 = put_channel n (with_access NonVolatile (merged setFlag a (chNonVolatileData c)) c) s) as ->
        by (rewrite merged_fields; unfold s1; by rewrite Hf).
      apply write_or_error_Ret; [|done]. by apply (channels_ok_put NonVolatile).
  - set (s1 := put_channel n _ s). unfold told.
    set (s2 := put_channel n (with_access Volatile (merged setFlag a (chVolatileData c)) c) s).
    rewrite (bind_Ret _ _ s1 tt s2).
    + apply write_or_error_Ret; [|done]. by apply (channels_ok_put Volatile).
    + unfold s1, s2. rewrite merged_fields. destruct (flag setFlag setPrivLimit); [|done].
      by rewrite (modify_put n _ s _ c Hc).
Qed.

(** C25. Setting a channel's access data, in the store that
    survives or in the active one, and getting it from there gives the fields
    that were set and the old values of the others; the other store and the other
    channels keep theirs, and what is got is what the file holds.  A new
    privilege limit in the store that survives has been given to the network
    service before. *)
Theorem access_set_get st s chNum c a setFlag :
  channels_ok (channelData s) -> usable s chNum c -> settled st s -> write_ok st s = true -> chNow s <> - EIO ->
  fields_valid setFlag a -> net_accepts st c a setFlag s ->
  exists s', setAccessData st chNum a setFlag s = Ret ccSuccess s' /\
    getAccessData st chNum s' = Ret (ccSuccess, merged setFlag a (access st c)) s' /\
    channelData s' = <[Z.to_nat chNum := with_access st (merged setFlag a (access st c)) c]> (channelData s) /\
    channels_ok (channelData s') /\ settled st s' /\ store_file st s' = Some (chNow s, store_json st (channelData s')).
Proof.
  intros Ht Hu Hs Hw Hn Hv Hnet. rewrite (setAccessData_Ret st s chNum c a setFlag) by done.
  set (n := Z.to_nat chNum). set (c' := with_access st _ c). set (s1 := told st chNum c a setFlag s).
  set (s' := saved st (put_channel n c' s1)). exists s'. split; [done|].
  assert (channelData s1 = channelData s /\ chNow s1 = chNow s) as [E1 E2]
    by (unfold s1, told; destruct st; [by destruct (flag _ _)|done]).
  assert (channelData s' = <[n := c']> (channelData s)) as Ed by (rewrite <- E1; by destruct st).
  assert (settled st s') as Hs' by (apply settled_saved; change (chNow s1 <> - EIO); by rewrite E2).
  pose proof Hu as (Hr & Hc & Hvd & Hsess).
  assert (access_ok (merged setFlag a (access st c))) as Hm.
  { apply merged_ok; [|done]. apply channel_ok_access. eapply Forall_lookup_1; [apply Ht|exact Hc]. }
  split; [|split_and!].
  - rewrite (getAccessData_Ret st s' chNum c'); [unfold c'; by rewrite access_with| |done].
    split; [done|]. split; [|split; [unfold c'; by destruct st|by apply session_with]].
    rewrite Ed. apply list_lookup_insert_eq. by eapply lookup_lt_Some.
  - done.
  - rewrite Ed. apply channels_ok_insert; [done|]. apply channel_ok_with; [|done]. eapply Forall_lookup_1; [apply Ht|exact Hc].
  - done.
  - rewrite Ed, <- E1, <- E2. by destruct st.
Qed.

(** ** The privilege limit on the network *)
Definition distinct_channels (t : list ChannelProperties) : Prop :=
  NoDup (map chName t) /\ forall n c, t !! n = Some c -> chID c = Z.of_nat n.
Lemma channel_number s n c : distinct_channels (channelData s) -> channelData s !! n = Some c ->
  convertToChannelNumberFromChannelName (chName c) s = Ret (Z.of_nat n) s.
Proof.
  intros [Hd Hid] Hc. unfold convertToChannelNumberFromChannelName. rewrite (bind_Ret get _ s s s) by done.
  destruct (list_find (fun c' => chName c' = chName c) (channelData s)) as [[i c']|] eqn:E.
  - apply list_find_Some in E as (Hc' & En & _). rewrite (Hid i c' Hc').
    assert (i = n) as ->; [|done]. apply (NoDup_lookup _ _ _ (chName c) Hd); rewrite list_lookup_fmap.
    + rewrite Hc'. cbn. by rewrite En.
    + by rewrite Hc.
  - apply list_find_None in E. by destruct (proj1 (Forall_forall _ _) E c (list_elem_of_lookup_2 _ _ _ Hc)).
Qed.
Definition path_of (name : list Z) : list Z := networkIntfObjectBasePath ++ 47 :: name.
Lemma name_of_path name : name <> [] -> getChannelNameFromPath (path_of name) = Some name.
Proof.
  intros Hn. unfold getChannelNameFromPath, path_of. rewrite length_app. cbn [length].
  destruct (Nat.leb_spec (length networkIntfObjectBasePath + S (length name)) (length networkIntfObjectBasePath + 1)) as [Hl|_].
  { destruct name; [done|cbn [length] in Hl; lia]. }
  rewrite take_app_length, bool_decide_eq_true_2 by done. cbn [negb orb].
  rewrite drop_app_ge by lia. by replace (length networkIntfObjectBasePath + 1 - length networkIntfObjectBasePath)%nat with 1%nat by lia.
Qed.
Definition limit_changed (name : list Z) (p : Z) : M ChannelState unit :=
  processChAccessPropChange (path_of name) [(privilegePropertyString, NetString (nth_name privList p))].
(** What the handler does once it knows the channel and the privilege. *)
Definition take_limit (n : nat) (p : Z) : M ChannelState unit :=
  checkAndReloadData Volatile ;;;
  checkAndReloadData NonVolatile ;;;
  let! c := channel_at n in
  if privLimit (access NonVolatile c) =? p then ret tt
  else
    modify_channel n (set_privLimit NonVolatile p) ;;;
    let! w := writeChannelData NonVolatile in
    if negb (w =? 0) then ret tt
    else
      let! c := channel_at n in
      if privLimit (access Volatile c) =? p then ret tt
      else modify_channel n (set_privLimit Volatile p) ;;; writeChannelData Volatile ;;; ret tt.
Lemma limit_changed_is n c p s : distinct_channels (channelData s) -> channelData s !! n = Some c -> chName c <> [] ->
  0 <= p < 6 ->
  limit_changed (chName c) p s =
    if Z.testbit (signalFlag s) (Z.of_nat n)
    then Ret tt (s <| signalFlag := Z.land (signalFlag s) (Z.lnot (Z.shiftl 1 (Z.of_nat n))) |>)
    else take_limit n p s.
Proof.
  intros Hd Hc Hn Hp. unfold limit_changed, processChAccessPropChange. rewrite name_of_path by done.
  assert (list_find (fun q : list Z * NetValue => fst q = privilegePropertyString)
    [(privilegePropertyString, NetString (nth_name privList p))] = Some (0%nat, (privilegePropertyString, NetString (nth_name privList p)))) as -> by done.
  assert (exists x l, nth_name privList p = x :: l) as (x & l & El).
  { assert (p = 0 \/ p = 1 \/ p = 2 \/ p = 3 \/ p = 4 \/ p = 5) as H by lia.
    destruct H as [->|[->|[->|[->|[->| ->]]]]]; by eexists _, _. }
  assert (convertToPrivLimitIndex (nth_name privList p) s = Ret p s) as E1 by (apply name_and_back; [apply distinct_modes|done]).
  rewrite El in E1 |- *.
  rewrite (bind_Ret _ _ s (Some (p, Z.of_nat n)) s).
  - rewrite (bind_Ret get _ s s s) by done. destruct (Z.testbit _ _); [done|]. rewrite Nat2Z.id. done.
  - unfold try. rewrite (bind_Ret _ _ _ _ _ E1), (bind_Ret _ _ _ _ _ (channel_number s n c Hd Hc)). done.
Qed.

(** Ready to be written. *)
Record writable (s : ChannelState) : Prop := {
  w_ok : channels_ok (channelData s);
  w_settled : forall st, settled st s;
  w_files : forall st, write_ok st s = true;
  w_now : chNow s <> - EIO }.
Definition both (p : Z) (c : ChannelProperties) : ChannelProperties :=
  set_privLimit Volatile p (set_privLimit NonVolatile p c).
Lemma set_limit_same st c p : privLimit (access st c) = p -> set_privLimit st p c = c.
Proof. intros <-. unfold set_privLimit. destruct st, c as [? ? ? ? ? [] [] ? ?]; done. Qed.
Lemma channel_ok_limit st p c : channel_ok c -> 0 <= p < 6 -> channel_ok (set_privLimit st p c).
Proof. intros Hc Hp. apply channel_ok_with; [done|]. destruct (channel_ok_access st c Hc). by split. Qed.
Lemma put_writable n c c' s : writable s -> channelData s !! n = Some c -> channel_ok c' -> writable (put_channel n c' s).
Proof. intros [H1 H2 H3 H4] Hc Hok. constructor; [by apply channels_ok_insert|exact H2|exact H3|exact H4]. Qed.
Lemma saved_writable st s : writable s -> writable (saved st s).
Proof.
  intros [H1 H2 H3 H4]. constructor; [by destruct st| |by destruct st|by destruct st].
  intros st'. destruct (settled_saved st s H4) as (j & Hj). destruct (H2 st') as (j' & Hj').
  destruct st, st'; by eexists.
Qed.
Lemma saved_table st s : channelData (saved st s) = channelData s /\ signalFlag (saved st s) = signalFlag s.
Proof. by destruct st. Qed.
Lemma take_limit_spec n p c s : writable s -> channelData s !! n = Some c -> 0 <= p < 6 ->
  exists s', take_limit n p s = Ret tt s' /\ writable s' /\ signalFlag s' = signalFlag s /\
    channelData s' = if privLimit (access NonVolatile c) =? p then channelData s else <[n := both p c]> (channelData s).
Proof.
  intros W Hc Hp. pose proof W as [Ht Hs Hw Hn]. unfold take_limit.
  rewrite (bind_Ret _ _ _ _ _ (reload_settled Volatile s (Hs _))), (bind_Ret _ _ _ _ _ (reload_settled NonVolatile s (Hs _))).
  rewrite (bind_Ret _ _ _ _ _ (channel_at_Ret n s c Hc)).
  destruct (Z.eqb_spec (privLimit (access NonVolatile c)) p) as [E|E]; [by exists s|].
  rewrite (bind_Ret _ _ _ _ _ (modify_channel_Ret n _ s c Hc)). set (c1 := set_privLimit NonVolatile p c).
  assert (channel_ok c1) as Hc1 by (apply channel_ok_limit; [eapply Forall_lookup_1; [apply Ht|exact Hc]|done]).
  set (s1 := put_channel n c1 s). pose proof (put_writable n c c1 s W Hc Hc1 : writable s1) as W1.
  pose proof (writeChannelData_cases NonVolatile s1 (w_ok _ W1)) as E1. rewrite (w_files _ W1) in E1.
  rewrite (bind_Ret _ _ _ _ _ E1). cbn [negb Z.eqb]. set (s2 := saved NonVolatile s1).
  pose proof (saved_writable NonVolatile s1 W1 : writable s2) as W2.
  assert (channelData s2 !! n = Some c1) as Hc2 by (change (channelData s1 !! n = Some c1); by eapply put_channel_lookup).
  rewrite (bind_Ret _ _ _ _ _ (channel_at_Ret n s2 c1 Hc2)).
  destruct (Z.eqb_spec (privLimit (access Volatile c1)) p) as [Ev|Ev].
  - exists s2. split; [done|]. split; [done|]. split; [done|]. unfold both. fold c1. by rewrite (set_limit_same Volatile c1 p Ev).
  - rewrite (bind_Ret _ _ _ _ _ (modify_channel_Ret n _ s2 c1 Hc2)). fold (both p c). set (s3 := put_channel n (both p c) s2).
    pose proof (put_writable n c1 (both p c) s2 W2 Hc2 (channel_ok_limit Volatile p c1 Hc1 Hp) : writable s3) as W3.
    pose proof (writeChannelData_cases Volatile s3 (w_ok _ W3)) as E3. rewrite (w_files _ W3) in E3.
    rewrite (bind_Ret _ _ _ _ _ E3). exists (saved Volatile s3). split; [done|]. split; [by apply saved_writable|]. split; [done|].
    change (channelData (saved Volatile s3)) with (<[n := both p c]> (<[n := c1]> (channelData s))).
    by rewrite list_insert_insert_eq.
Qed.

(** When a command changes the privilege limit of a
    channel, the network service's signal for this change is recognised: it
    changes no table, and the next change made by someone else on the network is
    taken over in the store that survives, and in the active one if it differs
    from the limit the command set; no other channel changes. *)
Theorem limit_follows_network s chNum c a setFlag q :
  writable s -> distinct_channels (channelData s) -> usable s chNum c -> chName c <> [] -> fields_valid setFlag a ->
  flag setFlag setPrivLimit = true -> net_accepts NonVolatile c a setFlag s -> 0 <= q < 6 ->
  exists s1 s2 s3, setChannelAccessPersistData chNum a setFlag s = Ret ccSuccess s1 /\
    limit_changed (chName c) (privLimit a) s1 = Ret tt s2 /\ channelData s2 = channelData s1 /\
    limit_changed (chName c) q s2 = Ret tt s3 /\
    exists c3, channelData s3 = <[Z.to_nat chNum := c3]> (channelData s2) /\
      privLimit (chNonVolatileData c3) = q /\ (q <> privLimit a -> privLimit (chVolatileData c3) = q).
Proof.
  intros W Hd Hu Hne Hv Hf Hnet Hq. pose proof Hu as (Hr & Hc & _). set (n := Z.to_nat chNum) in *.
  pose proof (setAccessData_Ret NonVolatile s chNum c a setFlag (w_ok _ W) Hu (w_settled _ W _) (w_files _ W _) Hv Hnet) as E1.
  cbn [setAccessData access] in E1. fold n in E1. set (m := merged setFlag a (chNonVolatileData c)) in *.
  set (c1 := with_access NonVolatile m c) in *. set (s1 := saved NonVolatile _) in E1.
  assert (channelData s1 = <[n := c1]> (channelData s)) as Et by (unfold s1, told; by rewrite Hf).
  assert (signalFlag s1 = Z.lor (signalFlag s) (Z.shiftl 1 chNum)) as Eflag by (unfold s1, told; by rewrite Hf).
  assert (access_ok m) as Hm.
  { apply merged_ok; [|done]. apply (channel_ok_access NonVolatile). eapply Forall_lookup_1; [apply W|exact Hc]. }
  assert (channel_ok c1) as Hok by (apply channel_ok_with; [eapply Forall_lookup_1; [apply W|exact Hc]|done]).
  assert (channelData s1 !! n = Some c1) as Hc1 by (rewrite Et; apply list_lookup_insert_eq; by eapply lookup_lt_Some).
  assert (writable s1) as W1.
  { apply saved_writable. destruct W as [H1 H2 H3 H4]. unfold told. rewrite Hf.
    constructor; [by apply channels_ok_insert|exact H2|exact H3|exact H4]. }
  assert (distinct_channels (channelData s1)) as Hd1.
  { rewrite Et. destruct Hd as [Hnd Hid]. split.
    - assert (map chName (<[n := c1]> (channelData s)) = map chName (channelData s)) as ->; [|done].
      rewrite list_fmap_insert. change (chName c1) with (chName c). apply list_insert_id. by rewrite list_lookup_fmap, Hc.
    - intros k d Hk. apply list_lookup_insert_Some in Hk as [(Ek & Ec & _)|[_ Hk]]; [|by apply Hid].
      rewrite <- Ec, <- Ek. exact (Hid n c Hc). }
  assert (privLimit (chNonVolatileData c1) = privLimit a) as Elim by (unfold c1, m; rewrite merged_fields; cbn; by rewrite Hf).
  assert (0 <= privLimit a < 6) as Hpa by (destruct Hv as [_ Hv]; specialize (Hv Hf); unfold PRIVILEGE_CALLBACK, PRIVILEGE_OEM in Hv; lia).
  set (s2 := s1 <| signalFlag := Z.land (signalFlag s1) (Z.lnot (Z.shiftl 1 (Z.of_nat n))) |>).
  assert (Z.of_nat n = chNum) as Hnum by (unfold n; lia).
  assert (limit_changed (chName c1) (privLimit a) s1 = Ret tt s2) as E2.
  { rewrite (limit_changed_is n c1) by done. assert (Z.testbit (signalFlag s1) (Z.of_nat n) = true) as ->; [|done].
    rewrite Eflag, Hnum, Z.lor_spec, Z.shiftl_spec, Z.sub_diag by lia. apply orb_true_r. }
  assert (writable s2) as W2 by (destruct W1 as [H1 H2 H3 H4]; constructor; [exact H1|exact H2|exact H3|exact H4]).
  destruct (take_limit_spec n q c1 s2 W2 Hc1 Hq) as (s3 & E3 & _ & _ & Et3).
  exists s1, s2, s3. split; [exact E1|]. split; [exact E2|]. split; [done|]. split.
  - change (chName c) with (chName c1). rewrite (limit_changed_is n c1) by done.
    assert (Z.testbit (signalFlag s2) (Z.of_nat n) = false) as ->; [|exact E3].
    change (signalFlag s2) with (Z.land (signalFlag s1) (Z.lnot (Z.shiftl 1 (Z.of_nat n)))).
    rewrite Z.land_spec, Z.lnot_spec, Z.shiftl_spec, Z.sub_diag by lia. apply andb_false_r.
  - destruct (Z.eqb_spec (privLimit (access NonVolatile c1)) q) as [E|E].
    + exists c1. split; [by rewrite Et3, list_insert_id|]. split; [done|]. cbn [access] in E. congruence.
    + exists (both q c1). by split.
Qed.

End Library.

(** ** A sample *)
#[local] Existing Instances sample_json sample_json_laws.
Definition sample_channel (n : nat) : ChannelProperties :=
  zero_channel <| chID := Z.of_nat n |> <| chName := bytes_of_string (if (n =? 1)%nat then "eth0" else "RESERVED" +:+ pretty n) |>
    <| isChValid := true |>
    <| chInfo := zero_info <| sessionSupported := if (n =? 1)%nat then 2 else 0 |> |>
    <| chNonVolatileData := zero_channel_access <| accessMode := 2 |> <| privLimit := 4 |> |>
    <| chVolatileData := zero_channel_access <| accessMode := 2 |> <| privLimit := 4 |> |>.
Definition sample_channel_table : list ChannelProperties := map sample_channel (seq 0 maxIpmiChannels).
(** The network service takes every privilege; the files were written at 5. *)
Definition sample_channels : ChannelState :=
  {| channelData := sample_channel_table; signalFlag := 0; nvFileLastUpdatedTime := 5; voltFileLastUpdatedTime := 5;
     managementNIC := None; nvFile := Some (5, store_json NonVolatile sample_channel_table);
     voltFile := Some (5, store_json Volatile sample_channel_table);
     configFile := None; defaultFile := None; nvWriteOk := true; voltWriteOk := true; chNow := 9;
     interfaces := Some [bytes_of_string "eth0"];
     network := {| net_get := fun _ => None; net_set := fun _ _ => true |}; netCalls := [] |}.
Lemma sample_channels_ok : channels_ok (channelData sample_channels).
Proof.
  split; [reflexivity|]. apply Forall_fmap, Forall_forall. intros n _. unfold compose, channel_ok, access_ok. cbn. lia.
Qed.
Lemma sample_writable : writable sample_channels.
Proof.
  constructor; [exact sample_channels_ok| |by intros []|done].
  intros [|]; (eexists; split; [reflexivity|done]).
Qed.
Lemma sample_distinct : distinct_channels (channelData sample_channels).
Proof.
  split; [apply (bool_decide_unpack _); vm_compute; exact I|]. intros n c Hc.
  apply list_lookup_fmap_Some in Hc as (k & -> & Hk). apply lookup_seq in Hk as [-> _]. done.
Qed.
Lemma sample_usable : usable sample_channels 1 (sample_channel 1).
Proof. split; [lia|]. split; [reflexivity|]. by split. Qed.

Lemma access_survives_restart_witness : exists s1 s3,
  writeChannelData NonVolatile sample_channels = Ret 0 s1 /\
  readChannelData NonVolatile (sample_channels <| channelData := replicate maxIpmiChannels zero_channel |> <| nvFile := nvFile s1 |>) =
    Ret 0 s3 /\ length (channelData s3) = maxIpmiChannels.
Proof.
  destruct (access_survives_restart NonVolatile sample_channels
    (sample_channels <| channelData := replicate maxIpmiChannels zero_channel |>
                     <| nvFile := Some (9, store_json NonVolatile sample_channel_table) |>))
    as (s1 & E1 & H).
  - exact sample_channels_ok.
  - exists 1%nat, (sample_channel 1). by split.
  - reflexivity.
  - reflexivity.
  - assert (s1 = saved NonVolatile sample_channels) as ->.
    { rewrite (writeChannelData_cases NonVolatile sample_channels sample_channels_ok) in E1. cbn [write_ok sample_channels nvWriteOk] in E1.
      congruence. }
    destruct (H eq_refl) as (s3 & E3 & Hl & _). exists (saved NonVolatile sample_channels), s3. by repeat split.
Defined.

(** Mode 1 and limit 3 are set in the store that survives. *)
Definition sample_new_access : ChannelAccess := zero_channel_access <| accessMode := 1 |> <| privLimit := 3 |>.
Definition sample_flags : Z := 0x1F.
Lemma sample_fields : fields_valid sample_flags sample_new_access.
Proof. split; intros _; vm_compute; by split. Qed.
Lemma access_set_get_witness : exists s',
  setAccessData NonVolatile 1 sample_new_access sample_flags sample_channels = Ret ccSuccess s' /\
  getAccessData NonVolatile 1 s' = Ret (ccSuccess, sample_new_access) s'.
Proof.
  destruct (access_set_get NonVolatile sample_channels 1 (sample_channel 1) sample_new_access sample_flags) as (s' & E1 & E2 & _).
  - exact sample_channels_ok.
  - exact sample_usable.
  - apply sample_writable.
  - reflexivity.
  - discriminate.
  - exact sample_fields.
  - intros _ _. reflexivity.
  - exists s'. by split.
Defined.
Lemma limit_follows_network_witness : exists s1 s2 s3,
  setChannelAccessPersistData 1 sample_new_access sample_flags sample_channels = Ret ccSuccess s1 /\
  limit_changed (bytes_of_string "eth0") 3 s1 = Ret tt s2 /\ limit_changed (bytes_of_string "eth0") 2 s2 = Ret tt s3.
Proof.
  destruct (limit_follows_network sample_channels 1 (sample_channel 1) sample_new_access sample_flags 2)
    as (s1 & s2 & s3 & E1 & E2 & _ & E3 & _).
  - exact sample_writable.
  - exact sample_distinct.
  - exact sample_usable.
  - discriminate.
  - exact sample_fields.
  - reflexivity.
  - intros _ _. reflexivity.
  - lia.
  - exists s1, s2, s3. by repeat split.
Defined.

(** ** Surprises *)

(** The flag of a command's own signal is left when nothing changed on the
    network, which signals nothing: the next change made there is lost. *)
Example next_change_is_lost : exists s1 s2,
  setChannelAccessPersistData 1 (zero_channel_access <| privLimit := 4 |>) 0x10 sample_channels = Ret ccSuccess s1 /\
  channelData s1 = channelData sample_channels /\
  limit_changed (bytes_of_string "eth0") 2 s1 = Ret tt s2 /\ channelData s2 = channelData sample_channels.
Proof. do 2 eexists. split; [vm_compute; reflexivity|]. split; [vm_compute; reflexivity|]. split; vm_compute; reflexivity. Qed.
(** A network service that refuses the privilege: the command fails, and the
    other fields of the request are set all the same, in memory only. *)
Definition refusing : ChannelState := sample_channels <| network := {| net_get := fun _ => None; net_set := fun _ _ => false |} |>.
Example refused_command_is_half_done : exists s1,
  setChannelAccessPersistData 1 sample_new_access sample_flags refusing = Ret ccUnspecifiedError s1 /\
  accessMode <$> (chNonVolatileData <$> channelData s1 !! 1%nat) = Some 1 /\ nvFile s1 = nvFile refusing.
Proof. eexists. split; [vm_compute; reflexivity|]. repeat split; vm_compute; reflexivity. Qed.
(** A member of the file is for the channel its number is modulo 256. *)
Example member_257_is_channel_1 : exists s1,
  read_access NonVolatile "257" (json_of_access sample_new_access) sample_channels = Ret tt s1 /\
  chNonVolatileData <$> channelData s1 !! 1%nat = Some sample_new_access.
Proof. eexists. split; [vm_compute; reflexivity|]. repeat split; vm_compute; reflexivity. Qed.
(** The types of authentication are bits and are shifted again. *)
Example oem_auth_type_overflows : isValidAuthType 1 EAuthType_oem sample_channels = Undef SignedOverflow.
Proof. reflexivity. Qed.
Example md5_is_asked_as_bit_4 : exists s,
  isValidAuthType 1 4 (s : ChannelState) = Ret true s /\ (authTypeSupported ∘ chInfo) <$> channelData s !! 1%nat = Some 16.
Proof.
  exists (sample_channels <| channelData := alter (fun c => c <| chInfo := zero_info <| authTypeSupported := 16 |> |>) 1%nat sample_channel_table |>).
  by split; vm_compute.
Qed.
