(* ===== verification/HostCommandsSpec.v ===== *)
(** * Properties of the user and channel commands

    From the D-Bus method to the tables and files: a name set by one command is
    read by another; callers below the administrator change nothing that lasts;
    what the password test answers. *)
From Stdlib Require Import ZArith Lia String.
From stdpp Require Import base list gmap strings.
From S2P Require Import Prelude CxxStd RmcpMessage RmcpCrypto RmcpSample Json IpmiMessage IpmiMessageSpec IpmiDispatch IpmiDispatchSpec PasswdMgr PasswdMgrSpec UserMgmt UserMgmtSpec UserSync UserSyncSpec UserInvariant ChannelMgmt ChannelMgmtSpec HostCommands.
Local Open Scope Z_scope.

(** A name as the commands carry it. *)
Definition padded (name : list Z) : list Z := name ++ replicate (ipmiMaxUserName - length name) 0.
Lemma padded_fits name : name_fits name -> bytes (padded name) /\ length (padded name) = ipmiMaxUserName.
Proof.
  intros (Hb & Hl & _). unfold padded. split; [|rewrite length_app, length_replicate; lia].
  apply Forall_app. split; [exact Hb|]. apply Forall_replicate. unfold is_byte. lia.
Qed.
Lemma c_str_app_zero name n : Forall (fun c => c <> 0) name -> c_str (name ++ replicate n 0) = name.
Proof.
  induction 1 as [|c l Hc _ IH]; cbn [app c_str]; [by destruct n|]. destruct (Z.eqb_spec c 0); [done|]. by rewrite IH.
Qed.
Lemma on_users_Ret {A} (m : M UserState A) h a u : m (users h) = Ret a u -> on_users m h = Ret a (h <| users := u |>).
Proof. intros E. unfold on_users, zoom. by rewrite E. Qed.
Lemma on_channels_Ret {A} (m : M ChannelState A) h a c : m (channels h) = Ret a c -> on_channels m h = Ret a (h <| channels := c |>).
Proof. intros E. unfold on_channels, zoom. by rewrite E. Qed.

(** ** What lasts *)

(** The files, the calls of the user manager and of the network service, and
    the password file. *)
Definition lasting_users (s : UserState) := (userFile s, userCalls s, passwdMgr s).
Definition lasting_channels (s : ChannelState) := (nvFile s, voltFile s, netCalls s).
Definition quiet_users (s s' : UserState) : Prop := lasting_users s' = lasting_users s.
Definition quiet_channels (s s' : ChannelState) : Prop := lasting_channels s' = lasting_channels s.
Definition quiet (h h' : HostState) : Prop := quiet_users (users h) (users h') /\ quiet_channels (channels h) (channels h').
#[export] Instance quiet_users_preorder : PreOrder quiet_users.
Proof. split; unfold quiet_users; [by intros ?|by intros ? ? ? -> ->]. Qed.
#[export] Instance quiet_channels_preorder : PreOrder quiet_channels.
Proof. split; unfold quiet_channels; [by intros ?|by intros ? ? ? -> ->]. Qed.
#[export] Instance quiet_preorder : PreOrder quiet.
Proof. split; [by intros ?|]. intros ? ? ? [? ?] [? ?]. split; by etransitivity. Qed.

Lemma quiet_on_users {A} (m : M UserState A) : preserves quiet_users m -> preserves quiet (on_users m).
Proof. intros H h. specialize (H (users h)). unfold on_users, zoom. destruct (m (users h)); [by split|by split|done]. Qed.
Lemma quiet_on_channels {A} (m : M ChannelState A) : preserves quiet_channels m -> preserves quiet (on_channels m).
Proof. intros H h. specialize (H (channels h)). unfold on_channels, zoom. destruct (m (channels h)); [by split|by split|done]. Qed.
#[local] Hint Resolve quiet_on_users quiet_on_channels : preserves.

Lemma quiet_modify_user i f : preserves quiet_users (modify_user i f).
Proof. intros s. unfold modify_user, bind, get, put. by destruct (usersTbl s !! i). Qed.
Lemma quiet_modify_channel n f : preserves quiet_channels (modify_channel n f).
Proof. intros s. unfold modify_channel, bind, get, put. by destruct (channelData s !! n). Qed.
Lemma quiet_channel_at n : preserves quiet_channels (channel_at n).
Proof. unfold channel_at. preserve_with idtac. Qed.
Lemma quiet_index_in {S} (R : S -> S -> Prop) `{!PreOrder R} l v : preserves R (index_in l v).
Proof. unfold index_in. preserve_with idtac. Qed.
#[local] Hint Resolve quiet_modify_user quiet_modify_channel quiet_channel_at quiet_index_in : preserves.

Section Reading.
Context {J : JsonLib}.
Lemma quiet_read_user i j : preserves quiet_users (read_user i j).
Proof.
  unfold read_user. destruct j.
  all: preserve_with ltac:(idtac; first
    [ apply read_sol_spec; exact _ | apply preserves_json_vector; [exact _|intros; auto with preserves typeclass_instances]
    | apply preserves_mfor; [exact _|intros ?]; preserve_with ltac:(apply reads_to_ipmi; exact _)
    | apply reads_to_ipmi; exact _ ]).
Qed.
Lemma quiet_reload_users : preserves quiet_users checkAndReloadUserData.
Proof.
  unfold checkAndReloadUserData, readUserData, UserMgmt.getUpdatedFileTime.
  preserve_with ltac:(idtac; first
    [ by apply preserves_modify | apply preserves_mfor; [exact _|]; intros ?; preserve_with ltac:(apply quiet_read_user) ]).
Qed.
Lemma quiet_read_access st k j : preserves quiet_channels (read_access st k j).
Proof.
  unfold read_access, convertToAccessModeIndex, convertToPrivLimitIndex.
  preserve_with ltac:(apply preserves_pure; [exact _|intros s; destruct (stoi_pure (bytes_of_string k) s) as [[n ->]|[-> | ->]]; done]).
Qed.
Lemma quiet_reload_channels st : preserves quiet_channels (checkAndReloadData st).
Proof.
  unfold checkAndReloadData, readChannelData, ChannelMgmt.getUpdatedFileTime.
  preserve_with ltac:(idtac; first
    [ apply preserves_modify; by destruct st | apply preserves_mfor; [exact _|]; intros ?; apply quiet_read_access ]).
Qed.
End Reading.
#[local] Hint Resolve quiet_reload_users quiet_reload_channels : preserves.

Section Commands.
Context {J : JsonLib} {C : Crypto} {P : PaddedCrypto}.

(** ** Names *)
Section Names.
Context {JL : JsonLaws J} (q : ChannelQueries) (owners : Owners) (sender : string) (lun : Z) (options : gmap string Value) (cr : Credentials).
Hypothesis Hchannel : channelFromMessage q owners sender <> invalidChannel.
Hypothesis Hcredentials : credentials q (channelFromMessage q owners sender) options = Some cr.
Hypothesis Hadmin : Privilege_Admin <= c_priv cr.
Let run := executionEntry host_tables q owners sender netFnApp lun.

Lemma set_name_runs id name data h cc u : isValidUserId id = true -> 0 <= id < 64 -> name_fits name ->
  pack set_user_name_args (id, (0, (padded name, tt))) (new_Payload []) = (true, data) ->
  setUserName id name (users h) = Ret cc u ->
  run 0x45 (raw data) options h = Ret (0x07, lun, 0x45, cc, []) (h <| users := u |>).
Proof.
  intros Hv Hid Hn Hd E. destruct (padded_fits name Hn) as [Hb Hl]. pose proof Hn as (_ & Hlen & Hz).
  refine (command_runs host_tables q owners sender netFnApp lun 0x45 options set_user_name_args TNil ipmiSetUserName cr
    prioOpenBmcBase Privilege_Admin (id, (0, (padded name, tt))) None cc data h h _ Hchannel Hcredentials _ _ _ Hadmin _ _ Hd _ _).
  1-4: first [discriminate|reflexivity].
  - by repeat split; cbn; try lia.
  - reflexivity.
  - intros p. unfold ipmiSetUserName. cbn [nonzero negb Z.eqb]. rewrite Hv. cbn [negb].
    unfold padded. rewrite c_str_app_zero by done. unfold ipmiUserSetUserName. rewrite take_ge by done.
    by rewrite (bind_Ret _ _ _ _ _ (on_users_Ret _ h _ _ E)).
Qed.
Lemma get_name_runs id data h name : 0 <= id < 64 ->
  pack get_user_name_args (id, (0, tt)) (new_Payload []) = (true, data) -> (length name <= ipmiMaxUserName)%nat ->
  getUserName id (users h) = Ret (ccSuccess, name) (users h) ->
  run 0x46 (raw data) options h =
    Ret (0x07, lun, 0x46, ccSuccess,
         raw (snd (pack (TCons (TTuple get_user_name_res) TNil) ((padded name, tt), tt) (new_Payload [])))) h.
Proof.
  intros Hid Hd Hl E.
  refine (command_runs host_tables q owners sender netFnApp lun 0x46 options get_user_name_args get_user_name_res ipmiGetUserName cr
    prioOpenBmcBase Privilege_Admin (id, (0, tt)) (Some (padded name, tt)) ccSuccess data h h _ Hchannel Hcredentials _ _ _ Hadmin _ _ Hd _ _).
  1-4: first [discriminate|reflexivity].
  - by repeat split; cbn; try lia.
  - reflexivity.
  - intros p. unfold ipmiGetUserName. cbn [nonzero negb Z.eqb]. rewrite (bind_Ret _ _ _ _ _ (on_users_Ret _ h _ _ E)).
    cbn [negb Z.eqb ccSuccess]. rewrite (proj2 (Nat.ltb_ge _ _)) by done. by destruct h.
Qed.

(** C5. An administrator's Set User Name command returns,
    with no data; after a success Get User Name for the same user returns
    exactly the 16 bytes that were set, and exactly this entry of the table has
    another name than before. *)
Theorem name_command_roundtrip sys id name p' set_data get_data h :
  directory sys (users h) -> now (users h) <> 0 -> bus_lists (users h) sys -> isValidUserId id = true -> 0 <= id < 64 ->
  name_fits name -> answers (name_at (usersTbl (users h)) (Z.to_nat id)) name (passwdMgr (users h)) p' ->
  pack set_user_name_args (id, (0, (padded name, tt))) (new_Payload []) = (true, set_data) ->
  pack get_user_name_args (id, (0, tt)) (new_Payload []) = (true, get_data) ->
  exists cc h', run 0x45 (raw set_data) options h = Ret (0x07, lun, 0x45, cc, []) h' /\
    (cc = ccSuccess ->
     (forall j, name_at (usersTbl (users h')) j =
        if decide (j = Z.to_nat id) then name else name_at (usersTbl (users h)) j) /\
     exists reply rest, run 0x46 (raw get_data) options h' = Ret (0x07, lun, 0x46, ccSuccess, reply) h' /\
       Request_unpack get_user_name_res ((new_Payload reply) <| trailingOk := false |>) = Ret (inr (padded name, tt)) rest).
Proof.
  intros Hd Hn Hb Hv Hid Hname Ha Hset Hget.
  destruct (valid_index id ltac:(unfold is_byte; lia) Hv) as [Hi _]. pose proof Hd as [Ht Hs _ _].
  destruct (table_lookup _ _ Ht (proj2 Hi)) as (u & Hu & _). pose proof (name_at_lookup _ _ _ Hu) as Ho. rewrite Ho in Ha.
  destruct (setUserName_cases (users h) sys id name u p' Ht Hs Hn Hb Hv Hu Hname Ha) as (cc & s' & E & H).
  exists cc, (h <| users := s' |>). split; [by apply (set_name_runs id name set_data h cc s')|]. intros ->.
  apply in_user_indices in Hi.
  destruct (SetName_directory _ _ _ _ _ _ _ Hd Hi Ho H) as (calls & _ & [Ht' Hs' _ _]).
  destruct (SetName_names _ _ _ _ _ _ Ht Hi Ho H Hs) as [_ Hnames]. split; [exact Hnames|].
  destruct (table_lookup (usersTbl s') (Z.to_nat id) Ht') as (v & Hv' & _); [by apply in_user_indices in Hi; lia|].
  pose proof (Hnames (Z.to_nat id)) as Hnm. rewrite (name_at_lookup _ _ _ Hv'), decide_True in Hnm by done.
  pose proof (getUserName_Ret s' id v Hs' Hv Hv') as G. rewrite Hnm in G.
  destruct (padded_fits name Hname) as [Hpb Hpl].
  destruct (reply_read get_user_name_res (padded name, tt)) as [rest Hr]; [reflexivity|done|].
  eexists _, rest. split; [|exact Hr]. apply (get_name_runs id); [done|done|by apply Hname|exact G].
Qed.
End Names.

(** ** Callers below the administrator *)
Lemma quiet_isValidChannel n : preserves quiet_channels (isValidChannel n).
Proof. unfold isValidChannel. preserve_with idtac. Qed.
Lemma quiet_session n : preserves quiet_channels (getChannelSessionSupport n).
Proof. unfold getChannelSessionSupport. preserve_with idtac. Qed.
Lemma quiet_counts : preserves quiet_users ipmiUserGetAllCounts.
Proof. unfold ipmiUserGetAllCounts, getUsersTblPtr. preserve_with idtac. Qed.
Lemma quiet_payload ch id : preserves quiet_users (ipmiUserGetUserPayloadAccess ch id).
Proof. unfold ipmiUserGetUserPayloadAccess, getUserInfo. preserve_with ltac:(apply reads_user_at; exact _). Qed.
#[local] Hint Resolve quiet_isValidChannel quiet_session quiet_counts quiet_payload : preserves.
Lemma quiet_access st n : preserves quiet_channels (getAccessData st n).
Proof. unfold getAccessData. preserve_with idtac. Qed.
Lemma quiet_info n : preserves quiet_channels (getChannelInfo n).
Proof. unfold getChannelInfo. preserve_with idtac. Qed.
Lemma quiet_active n : preserves quiet_channels (getChannelActiveSessions n).
Proof. unfold getChannelActiveSessions. preserve_with idtac. Qed.
Lemma quiet_name n : preserves quiet_channels (getChannelName n).
Proof. unfold getChannelName. preserve_with idtac. Qed.
#[local] Hint Resolve quiet_access quiet_info quiet_active quiet_name : preserves.

Lemma quiet_callback args res (h : Handler args res) : (forall r v, preserves quiet (h r v)) ->
  forall r, preserves quiet (executeCallback args res h r).
Proof.
  intros Hh r. unfold executeCallback, guarded. apply preserves_bind; [exact _| |intros [o r']].
  { apply preserves_pure; [exact _|]. intros w. unfold on_payload. by destruct (Request_unpack _ _). }
  destruct o as [|v]; [auto with preserves typeclass_instances|]. preserve_with ltac:(apply Hh).
Qed.
(** A handler that writes needs an administrator. *)
Definition guarded_entry (t : HandlerTuple HostState) : Prop :=
  Privilege_Admin <= ht_priv t \/ forall r, preserves quiet (ht_handler t r).
Lemma register_guarded cmd priv {args res : tys} (h : Handler args res) t :
  map_Forall (fun _ => guarded_entry) (handlerMap t) ->
  Privilege_Admin <= priv \/ (forall r v, preserves quiet (h r v)) ->
  map_Forall (fun _ => guarded_entry) (handlerMap (register cmd priv h t)).
Proof.
  intros Ht Hh. unfold register, registerHandler, put_handler. destruct (negb _); [done|]. cbn [snd fst handlerMap].
  destruct (replaces _ _); [|done]. apply map_Forall_insert_2; [|done].
  destruct Hh as [?|?]; [by left|right]. by apply quiet_callback.
Qed.
Lemma host_tables_guarded : map_Forall (fun _ => guarded_entry) (handlerMap host_tables).
Proof.
  unfold host_tables, registerChannelFunctions, registerUserIpmiFunctions.
  repeat (apply register_guarded; [|first [left; unfold Privilege_Admin; lia|right; intros r v]]).
  { apply map_Forall_empty. }
  - destruct v as (ch & r1 & ? & lvl & r2 & ?). unfold ipmiGetChannelAuthenticationCapabilities, response, responseSuccess.
    preserve_with idtac.
  - destruct v as (ch & r1 & u & r2 & ?). unfold ipmiGetUserPayloadAccess, response, responseSuccess. preserve_with idtac.
  - destruct v as (ch & r1 & r2 & w & ?). unfold ipmiGetChannelAccess, response, responseSuccess. preserve_with idtac.
  - destruct v as (ch & r1 & ?). unfold ipmiGetChannelInfo, response, responseSuccess. preserve_with idtac.
  - destruct v as (ch & r1 & ?). unfold ipmiGetChannelPayloadSupport, doesDeviceExist, response, responseSuccess. preserve_with idtac.
  - destruct v as (ch & r1 & p & ?). unfold ipmiGetChannelPayloadVersion, response, responseSuccess. preserve_with idtac.
Qed.

Lemma quiet_run_chosen t o r : guarded_entry t -> priv (ctx r) < Privilege_Admin -> preserves quiet (run_chosen t o r).
Proof.
  intros Ht Hr. unfold run_chosen. destruct o; [auto with preserves typeclass_instances|].
  destruct (Z.ltb_spec (priv (ctx r)) (ht_priv t)); [auto with preserves typeclass_instances|].
  destruct Ht as [Ht|Ht]; [lia|apply Ht].
Qed.
Lemma quiet_common k m r : map_Forall (fun _ => guarded_entry) m -> priv (ctx r) < Privilege_Admin ->
  preserves quiet (executeIpmiCommandCommon host_tables m k r).
Proof.
  intros Hm Hr. unfold executeIpmiCommandCommon, filterIpmiCommand.
  apply preserves_bind; [exact _|apply preserves_ret; exact _|]. intros o.
  destruct (m !! _) as [x|] eqn:E; [apply quiet_run_chosen; [exact (Hm _ _ E)|done]|].
  destruct (m !! makeCmdKey k cmdWildcard) as [x|] eqn:E'; [apply quiet_run_chosen; [exact (Hm _ _ E')|done]|].
  auto with preserves typeclass_instances.
Qed.
Lemma quiet_prefixed t1 key m r : map_Forall (fun _ => guarded_entry) m -> priv (ctx r) < Privilege_Admin ->
  preserves quiet (executePrefixed host_tables t1 key m r).
Proof.
  intros Hm Hr. unfold executePrefixed.
  apply (preserves_bind_val quiet (fun a => ctx (snd a) = ctx r)).
  - intros h [o r'] h'. unfold on_payload. by destruct (unpack _ _); intros [= <- <- _].
  - apply preserves_pure; [exact _|]. intros h. unfold on_payload. by destruct (unpack _ _).
  - intros [[b|] r'] Ec; [|auto with preserves typeclass_instances]. cbn [snd] in Ec.
    apply preserves_bind; [exact _|apply quiet_common; [done|by rewrite Ec]|auto with preserves typeclass_instances].
Qed.
Lemma host_tables_empty : groupHandlerMap host_tables = ∅ /\ oemHandlerMap host_tables = ∅.
Proof. by split. Qed.

(** C26. A caller whose credentials stay below the
    administrator changes nothing that lasts, whatever it sends and whatever
    comes of it: neither the users' file, the channels' two files and the
    password file, nor the users and the privilege limits of the system. *)
Theorem only_admin_writes q owners sender f l c data options cr :
  credentials q (channelFromMessage q owners sender) options = Some cr -> c_priv cr < Privilege_Admin ->
  forall h, match executionEntry host_tables q owners sender f l c data options h with
            | Ret _ h' | Throw _ h' =>
                lasting_users (users h') = lasting_users (users h) /\ lasting_channels (channels h') = lasting_channels (channels h)
            | Undef _ => True
            end.
Proof.
  intros Hcr Hp. change (preserves quiet (executionEntry host_tables q owners sender f l c data options)).
  unfold executionEntry. rewrite Hcr. destruct (_ =? _); [auto with preserves typeclass_instances|].
  apply preserves_bind; [exact _| |auto with preserves typeclass_instances].
  set (request := {| req_payload := new_Payload data; ctx := _ |}). change (c_priv cr) with (priv (ctx request)) in Hp.
  generalize dependent request. intros request Hp.
  unfold executeIpmiCommand, executeIpmiGroupCommand, executeIpmiOemCommand. destruct host_tables_empty as [-> ->].
  repeat destruct (_ =? _); [apply quiet_prefixed; [apply map_Forall_empty|done]..|].
  apply quiet_common; [exact host_tables_guarded|done].
Qed.
End Commands.

(** ** A sample *)
#[local] Existing Instances sample_json sample_json_laws.
Definition sample_host : HostState := {| users := sample_users; channels := sample_channels; netDevices := fun _ => true |}.
Definition sample_host_owners : Owners := {[ "net"%string := 1; "kcs"%string := 0 ]}.
(** A caller on the channel of the network interface. *)
Definition session_options (p : Z) : gmap string Value :=
  {[ "privilege"%string := IntValue p; "userId"%string := IntValue 1; "currentSessionId"%string := UintValue 7 ]}.
Definition set_name_data : list Z := 3 :: padded cat.

Section Sample.
Existing Instances sample_crypto sample_padded.
Lemma name_command_roundtrip_witness : exists cc h',
  executionEntry host_tables (channel_queries sample_channels) sample_host_owners "net" netFnApp 0 0x45 set_name_data
    (session_options Privilege_Admin) sample_host = Ret (0x07, 0, 0x45, cc, []) h' /\
  (cc = ccSuccess -> exists reply,
     executionEntry host_tables (channel_queries sample_channels) sample_host_owners "net" netFnApp 0 0x46 [3]
       (session_options Privilege_Admin) h' = Ret (0x07, 0, 0x46, ccSuccess, reply) h').
Proof.
  destruct (name_command_roundtrip (channel_queries sample_channels) sample_host_owners "net" 0 (session_options Privilege_Admin)
    {| c_priv := Privilege_Admin; c_user := 1; c_session := 7; c_rqSA := 0; c_host := 0 |}
    ltac:(vm_compute; discriminate) ltac:(vm_compute; reflexivity) ltac:(vm_compute; discriminate)
    sample_system 3 cat (passwd_after bob cat) (new_Payload set_name_data) (new_Payload [3]) sample_host) as (cc & h' & E & H).
  - exact sample_directory.
  - discriminate.
  - exact sample_bus_lists.
  - reflexivity.
  - lia.
  - fits.
  - exact sample_rename_answers.
  - vm_compute. reflexivity.
  - vm_compute. reflexivity.
  - exists cc, h'. split; [exact E|]. intros Ecc. destruct (H Ecc) as (_ & reply & rest & G & _). by exists reply.
Defined.

(** An operator's attempt to rename a user. *)
Lemma only_admin_writes_witness :
  match executionEntry host_tables (channel_queries sample_channels) sample_host_owners "net" netFnApp 0 0x45 set_name_data
          (session_options Privilege_Operator) sample_host with
  | Ret r h' => r = (0x07, 0, 0x45, ccInsufficientPrivilege, []) /\ lasting_users (users h') = lasting_users sample_users
  | _ => False
  end.
Proof.
  pose proof (only_admin_writes (channel_queries sample_channels) sample_host_owners "net" netFnApp 0 0x45 set_name_data
    (session_options Privilege_Operator) {| c_priv := Privilege_Operator; c_user := 1; c_session := 7; c_rqSA := 0; c_host := 0 |}
    ltac:(vm_compute; reflexivity) ltac:(vm_compute; reflexivity) sample_host) as H.
  assert (match executionEntry host_tables (channel_queries sample_channels) sample_host_owners "net" netFnApp 0 0x45 set_name_data
          (session_options Privilege_Operator) sample_host with
          | Ret r _ => r = (0x07, 0, 0x45, ccInsufficientPrivilege, []) | _ => False end) as E by (vm_compute; reflexivity).
  destruct (executionEntry _ _ _ _ _ _ _ _ _ sample_host); [|exact E..]. split; [exact E|apply H].
Defined.

(** ** Surprises *)

(** A user without a password passes the test with zeros. *)
Lemma zeros_pass n : test_password [] (replicate n 0) = true.
Proof. unfold test_password. cbn [app length]. rewrite length_replicate, Nat.sub_0_r. by apply bool_decide_eq_true_2. Qed.
(** A password of at least the stored length passes exactly if it is the stored
    one followed by zeros. *)
Lemma test_password_spec stored given : Forall (fun c => c <> 0) stored -> (length stored <= length given)%nat ->
  test_password stored given = true <-> c_str given = stored /\ given = stored ++ replicate (length given - length stored) 0.
Proof.
  intros Hz Hl. unfold test_password. rewrite bool_decide_eq_true. split.
  - intros E. split; [|done]. rewrite <- E. by apply c_str_app_zero.
  - by intros [_ E].
Qed.
(** A channel that is not valid: this command alone answers an unspecified error. *)
Example payload_support_of_invalid_channel :
  match executionEntry host_tables (channel_queries sample_channels) sample_host_owners "net" netFnApp 0 0x4E [2]
          (session_options Privilege_Admin)
          (sample_host <| channels := sample_channels <| channelData := replicate maxIpmiChannels zero_channel |> |>) with
  | Ret r _ => r = (0x07, 0, 0x4E, ccUnspecifiedError, []) | _ => False end /\
  match executionEntry host_tables (channel_queries sample_channels) sample_host_owners "net" netFnApp 0 0x4F [2; 0]
          (session_options Privilege_Admin)
          (sample_host <| channels := sample_channels <| channelData := replicate maxIpmiChannels zero_channel |> |>) with
  | Ret r _ => r = (0x07, 0, 0x4F, ccInvalidFieldRequest, []) | _ => False end.
Proof. split; vm_compute; reflexivity. Qed.
(** The privilege "no access" cannot be given to a user by command. *)
Example no_access_cannot_be_set :
  match executionEntry host_tables (channel_queries sample_channels) sample_host_owners "net" netFnApp 0 0x43 [0x91; 1; 0xF]
          (session_options Privilege_Admin) sample_host with
  | Ret r _ => r = (0x07, 0, 0x43, ccInvalidFieldRequest, []) | _ => False end.
Proof. vm_compute. reflexivity. Qed.
End Sample.
