(* ===== verification/NetUsers.v ===== *)
(** * The users of the network daemon

    The network daemon links the user and channel libraries of the host service
    and works on its own copy of their tables, kept in step through the files.
    [net_users] gives the functions of [RmcpState.UserLayer] from such a copy;
    the theorem follows a user's name and password from the host service's
    command to the login on the network. *)
From Stdlib Require Import ZArith Lia String.
From stdpp Require Import base list gmap strings.
From S2P Require Import Prelude CxxStd RmcpMessage RmcpCrypto Json IpmiMessage IpmiDispatch PasswdMgr PasswdMgrSpec UserMgmt UserMgmtSpec ChannelMgmt ChannelMgmtSpec HostCommands RmcpState RmcpParser RmcpParserSpec Sol RmcpSession RmcpSetup RmcpSessionSpec RmcpSample RmcpSetupSpec.
Local Open Scope Z_scope.

Definition ask {S A} (d : A) (m : M S A) (s : S) : A := match m s with Ret a _ => a | _ => d end.
Definition net_priv (a : UserPrivAccess) : PrivAccess :=
  {| privilege := UserMgmt.privilege a; ipmiEnabled := UserMgmt.ipmiEnabled a |}.
Definition net_access (a : ChannelMgmt.ChannelAccess) : ChannelAccess :=
  {| accessMode := ChannelMgmt.accessMode a; privLimit := ChannelMgmt.privLimit a |}.

Section NetUsers.
Context {J : JsonLib} {C : Crypto} {P : PaddedCrypto}.

(** [pam]: the system's authentication; [dev]: the entries of /sys/class/net.
    A question to a table that is not in step with its file loads it again; the
    answer does not depend on how often that is done. *)
Definition net_users (us : UserState) (cs : ChannelState) (pam : list Z -> list Z -> bool) (dev : list Z -> bool) : UserLayer :=
  {| ipmiUserGetUserId name := ask UserMgmt.invalidUserId (getUserId name) us;
     ipmiUserCheckEnabled id := snd (ask (ccUnspecifiedError, false) (UserMgmt.ipmiUserCheckEnabled id) us);
     ipmiUserGetPassword name := ask [] (UserMgmt.ipmiUserGetPassword name) us;
     ipmiUserPamAuthenticate := pam;
     ipmiUserGetPrivilegeAccess id ch old :=
       let '(cc, a) := ask (ccUnspecifiedError, zero_access) (UserMgmt.ipmiUserGetPrivilegeAccess id ch) us in
       (cc, if cc =? ccSuccess then net_priv a else old);
     getChannelAccessData ch old :=
       let '(cc, a) := ask (ccUnspecifiedError, zero_channel_access) (getAccessData Volatile ch) cs in
       (cc, if cc =? ccSuccess then net_access a else old);
     ipmiUserGetUserPayloadAccess ch id :=
       let '(cc, a) := ask (ccUnspecifiedError, zero_payload) (UserMgmt.ipmiUserGetUserPayloadAccess ch id) us in
       (cc, Z.testbit (stdPayloadEnables1 a) 1);
     ipmiUserGetAllCounts := snd (fst (ask (0, 0, 0) UserMgmt.ipmiUserGetAllCounts us));
     isValidChannel ch := ask false (ChannelMgmt.isValidChannel ch) cs;
     getChannelSessionSupport ch := ask 0 (ChannelMgmt.getChannelSessionSupport ch) cs;
     isValidPrivLimit := ChannelMgmt.isValidPrivLimit;
     isValidPayloadType := HostCommands.isValidPayloadType;
     doesDeviceExist ch := dev (ask [] (getChannelName ch) cs);
     channelMediumType ch := mediumType (snd (ask (ccUnspecifiedError, zero_info) (getChannelInfo ch) cs)) |}.
End NetUsers.

(** ** A copy that follows the host service *)

(** The files are the host's; the users' file was not loaded since it was
    written, and a password file that was loaded was loaded right. *)
Record follows {C : Crypto} {P : PaddedCrypto} (un us : UserState) : Prop := {
  fo_file : userFile un = userFile us;
  fo_stale : forall t j, userFile us = Some (t, j) -> fileUpdated un <> t;
  fo_key : keyFile (passwdMgr un) = keyFile (passwdMgr us);
  fo_passwords : passwdFile (passwdMgr un) = passwdFile (passwdMgr us);
  fo_loaded : forall data, file_good (passwdMgr us) data -> loaded (passwdMgr un) data }.

Section Login.
Context {J : JsonLib} {C : Crypto} {P : PaddedCrypto}.

Section Copy.
Context (un s3 : UserState) (cs : ChannelState) (pam : list Z -> list Z -> bool) (dev : list Z -> bool).
Hypothesis Hreload : checkAndReloadUserData un = Ret tt s3.
Let u := net_users un cs pam dev.
Lemma net_id name : ipmiUserGetUserId u name =
  match find_user name (usersTbl s3) with Some i => Z.of_nat i | None => UserMgmt.invalidUserId end.
Proof. cbn. unfold ask, getUserId, getUsersTblPtr, bind. by rewrite Hreload. Qed.
Lemma net_entry id v : isValidUserId id = true -> usersTbl s3 !! Z.to_nat id = Some v ->
  ipmiUserCheckEnabled u id = userEnabled v /\
  forall ch a old, UserMgmt.isValidChannel ch = true -> userPrivAccess v !! Z.to_nat ch = Some a ->
    ipmiUserGetPrivilegeAccess u id ch old = (Sol.IPMI_CC_OK, net_priv a).
Proof.
  intros Hv He. assert (getUserInfo id un = Ret v s3) as G.
  { unfold getUserInfo. rewrite (bind_Ret _ _ _ _ _ Hreload). by apply user_at_Ret. }
  split.
  - cbn. unfold ask, UserMgmt.ipmiUserCheckEnabled. rewrite Hv. cbn [negb]. by rewrite (bind_Ret _ _ _ _ _ G).
  - intros ch a old Hch Ha. cbn. unfold ask, UserMgmt.ipmiUserGetPrivilegeAccess. rewrite Hv, Hch. cbn [negb].
    by rewrite (bind_Ret _ _ _ _ _ G), Ha.
Qed.
End Copy.
Lemma net_channel un cs pam dev ch c old : usable cs ch c -> ChannelMgmtSpec.settled Volatile cs ->
  getChannelAccessData (net_users un cs pam dev) ch old = (Sol.IPMI_CC_OK, net_access (chVolatileData c)).
Proof. intros Hu Hs. cbn. unfold ask. by rewrite (getAccessData_Ret Volatile cs ch c Hu Hs). Qed.

(** The password in a copy's view of the file. *)
Lemma net_password un us cs pam dev data name : follows un us -> file_good (passwdMgr us) data ->
  (exists t f, passwdFile (passwdMgr us) = Some (t, f) /\ t <> -1) ->
  ipmiUserGetPassword (net_users un cs pam dev) name = default [] (passwords data !! name).
Proof.
  intros [_ _ Hk Hp Hl] Hg (t & f & Ef & Ht). cbn. unfold ask, UserMgmt.ipmiUserGetPassword, passwd_do, zoom.
  assert (exists p, getPasswdByUserName name (passwdMgr un) = Ret (default [] (passwords data !! name)) p) as [p ->]; [|done].
  rewrite <- Hp in Ef. destruct (Z.eq_dec (fileLastUpdatedTime (passwdMgr un)) t) as [E|Hne].
  - exists (passwdMgr un). unfold getPasswdByUserName, checkAndReload. rewrite (bind_Ret _ _ (passwdMgr un) tt (passwdMgr un)).
    + rewrite (bind_Ret get _ _ _ _ eq_refl). by rewrite (Hl data Hg t f Ef E).
    + rewrite (bind_Ret _ _ _ _ _ (file_time _ t f Ef)), (bind_Ret get _ _ _ _ eq_refl). by rewrite E, Z.eqb_refl.
  - destruct (reloads_password (passwdMgr un) data t f name) as (p & G & _); [|done|done|done|by exists p].
    intros s2 E1 E2. apply Hg; congruence.
Qed.

(** The host service renames a user, or removes it; the network daemon follows,
    and a session that is being set up asks. *)
Context {JL : JsonLaws J} {CL : CryptoLaws C} {PL : PaddedLaws P} {ST : Settings}.
Section Renamed.
Variables (sys : gset (list Z)) (s s' un : UserState) (id : Z) (name data : list Z).
Hypothesis Hdirectory : directory sys s.
Hypothesis Hnow : UserMgmt.now s <> 0.
Hypothesis Hbus : bus_lists s sys.
Hypothesis Hid : is_byte id.
Hypothesis Hvalid : isValidUserId id = true.
Hypothesis Hname : name_fits name.
Hypothesis Hclean : clean_name name.
Hypothesis Hpasswords : passwords_ready (passwdMgr s) data.
Hypothesis Hsize : Z.of_nat (length data + length name) + 32 < 2 ^ 32.
Hypothesis Hfresh : name <> [] -> name ∉ map fst (entries data).
Hypothesis Hold : name_at (usersTbl s) (Z.to_nat id) <> [].
Hypothesis Hother : name_at (usersTbl s) (Z.to_nat id) <> name.
Hypothesis Hrun : setUserName id name s = Ret ccSuccess s'.
Hypothesis Hfollows : follows un s'.
Let old := name_at (usersTbl s) (Z.to_nat id).

(** What the copy holds after its next look. *)
Lemma copy_after_rename : exists u s3 data',
  usersTbl s !! Z.to_nat id = Some u /\ checkAndReloadUserData un = Ret tt s3 /\
  find_user old (usersTbl s3) = None /\
  file_good (passwdMgr s') data' /\ (exists t f, passwdFile (passwdMgr s') = Some (t, f) /\ t <> -1) /\
  (forall user, default [] (passwords data' !! user) = renamed_password old name data user) /\
  (name <> [] -> find_user name (usersTbl s3) = Some (Z.to_nat id) /\
     exists v, usersTbl s3 !! Z.to_nat id = Some v /\ userEnabled v = userEnabled u /\ userPrivAccess v = userPrivAccess u).
Proof.
  pose proof Hold as Hold1. pose proof Hother as Hother1. fold old in Hold1, Hother1.
  destruct (valid_index id Hid Hvalid) as [Hi _]. pose proof Hdirectory as [Ht Hs _ _].
  destruct (table_lookup _ _ Ht (proj2 Hi)) as (u & Hu & _). pose proof (name_at_lookup _ _ _ Hu) as Ho. fold old in Ho.
  apply in_user_indices in Hi.
  destruct (passwords_renamed (passwdMgr s) data old name Hpasswords Hsize Hclean Hfresh) as (p' & U & (data' & Hg & He) & Hthere & _).
  assert (PasswdMgrSpec.answers (UserMgmt.userName u) name (passwdMgr s) p') as Ha by (exists 0; by rewrite <- Ho).
  destruct (setUserName_cases s sys id name u p' Ht Hs Hnow Hbus Hvalid Hu Hname Ha) as (cc & s1 & E1 & H).
  rewrite Hrun in E1. injection E1 as <- <-.
  destruct (SetName_directory _ _ _ _ _ _ _ Hdirectory Hi Ho H) as (calls & _ & [Ht' Hs' Hdist' _]).
  destruct (SetName_names _ _ _ _ _ _ Ht Hi Ho H Hs) as [_ Hnames].
  inversion H as [|? ? ? Hcc|u' c s2 Hu' En Et ? ? ? ? Hans Hk Hf Ecc]; subst; [congruence|done|].
  destruct (Hans ltac:(congruence)) as [r Hr]. rewrite <- Ho, U in Hr. injection Hr as _ Ep.
  assert (writeOk s = true) as Hw by (by destruct (writeOk s)). specialize (Hf Hw).
  destruct (reader_reloads (usersTbl s') (UserMgmt.now s) un Ht') as (s3 & R & _ & _ & Hk3);
    [by rewrite (fo_file _ _ Hfollows)|by eapply (fo_stale _ _ Hfollows)|done|].
  assert (forall j, j ∈ user_indices -> name_at (usersTbl s3) j = name_at (usersTbl s') j) as Hn3.
  { intros j Hj. unfold name_at. rewrite (Hk3 j Hj). apply in_user_indices in Hj.
    destruct (table_lookup (usersTbl s') j Ht' (proj2 Hj)) as (w & -> & _). done. }
  exists u, s3, data'. split; [done|]. split; [done|]. split; [|split; [by rewrite <- Ep|split; [by rewrite <- Ep|split]]].
  - apply find_user_None. intros j Hj. rewrite Hn3, Hnames by done. case_decide; [congruence|].
    intros Ej. assert (j = Z.to_nat id); [|done]. destruct Hdirectory as [_ _ Hdist _]. by apply Hdist; [| |rewrite Ej|rewrite Ej].
  - intros user. apply renamed_lookup; [apply Hpasswords|done|done].
  - intros Hne. split.
    + apply find_user_Some; [|done|].
      * intros j k Hj Hk'. rewrite !Hn3 by done. by apply Hdist'.
      * split; [done|]. by rewrite Hn3, Hnames, decide_True by done.
    + exists (UserMgmtSpec.kept u'). rewrite (Hk3 _ Hi), Et, list_lookup_insert_eq by (rewrite (proj1 Ht); apply in_user_indices in Hi; lia).
      split; [done|]. rewrite (Hk ltac:(congruence) Hne u Hu). done.
Qed.

Let ch := u8 getInterfaceIndex.
(** C1. After the host service renamed or removed a user, a
    console that names the old user in RAKP message 1 is told that there is no
    such name, and its session gets no key; and one that names the new user, who
    is enabled and may use the channel, gets the challenge authenticated with
    exactly the password the user had under its old name. *)
Theorem login_follows_name n p sess a tag rcRand bmcRand role cs pam dev :
  users n = net_users un cs pam dev -> enrolled n p sess -> u32_range (s_bmcSessionID sess) ->
  authAlgoInterface sess = Some a -> length rcRand = 16%nat -> Privilege.CALLBACK < Z.land role reqMaxPrivMask ->
  RAND_bytes (rng n) BMC_RANDOM_NUMBER_LEN = Some bmcRand ->
  (exists n' sess', RAKP12 (rakp1_request tag (s_bmcSessionID sess) rcRand role old) n =
       Ret (rakp2_error RAKP_ReturnCode.UNAUTH_NAME) n' /\
     heap n' !! p = Some sess' /\ authAlgoInterface sess' = Some (a <| rcRandomNum := Some rcRand |>)) /\
  (name <> [] -> forall u acc c pw, usersTbl s !! Z.to_nat id = Some u -> userEnabled u = true ->
     userPrivAccess u !! Z.to_nat ch = Some acc -> UserMgmt.privilege acc <= Privilege.OEM ->
     (Z.land role userNameOnlyLookupMask = userNamePrivLookup -> Z.land role reqMaxPrivMask = UserMgmt.privilege acc) ->
     passwords data !! old = Some pw -> (0 < length pw <= USER_KEY_MAX_LENGTH)%nat -> pam name pw = true ->
     usable cs ch c -> ChannelMgmtSpec.settled Volatile cs -> ChannelMgmt.accessMode (chVolatileData c) <> 0 ->
     exists n', RAKP12 (rakp1_request tag (s_bmcSessionID sess) rcRand role name) n =
       Ret (rakp2_response tag sess (a <| userKey := resize USER_KEY_MAX_LENGTH pw |>) (guid n)
              rcRand bmcRand role name) n').
Proof.
  intros Hu He Hsid Ha Hrc Hrole Hrand. destruct copy_after_rename as (u & s3 & data' & Eu & R & Fo & Hg & Ht & Hpw & Hnew).
  destruct (valid_index id Hid Hvalid) as [Hi Hz]. split.
  - apply (RAKP12_refuses p sess a n tag rcRand role old bmcRand); try done.
    + destruct (table_lookup (usersTbl s) _ (dir_table _ _ Hdirectory) (proj2 Hi)) as (w & Ew & [(_ & Hl & _) _ _ _]).
      unfold old in *. rewrite (name_at_lookup _ _ _ Ew) in *. split; [by destruct (UserMgmt.userName w); [|cbn; lia]|exact Hl].
    + rewrite Hu, (net_id un s3 cs pam dev R), Fo. done.
  - intros Hne u' acc c pw Eu' Hen Hacc Hlev Hlook Epw Hlen Hpam Huse Hset Hmode.
    assert (u' = u) as -> by congruence. destruct (Hnew Hne) as (Fn & v & Ev & Een & Eacc).
    assert (ipmiUserGetUserId (users n) name = id) as Eid by (rewrite Hu, (net_id un s3 cs pam dev R), Fn; exact Hz).
    destruct (net_entry un s3 cs pam dev R id v Hvalid Ev) as [Henabled Hpriv].
    assert (ipmiUserGetPassword (users n) name = pw) as Epass.
    { rewrite Hu, (net_password un s' cs pam dev data' name Hfollows Hg Ht), Hpw. unfold renamed_password.
      rewrite bool_decide_eq_true_2 by done. by rewrite Epw. }
    eexists. apply (RAKP12_grants p sess a n tag rcRand role name pw (net_priv acc) (net_access (chVolatileData c)) bmcRand);
      [done..| | |done].
    + destruct Hname as (_ & Hl & _). split; [by destruct name; [|cbn; lia]|exact Hl].
    + constructor; rewrite ?Eid; try done.
      * intros E. rewrite E in Hvalid. discriminate.
      * by rewrite Hu, Henabled, Een.
      * rewrite Hu. exact Hpam.
      * intros old'. rewrite Hu. apply Hpriv; [|by rewrite Eacc].
        unfold UserMgmt.isValidChannel. apply Z.ltb_lt. destruct Huse as [? _]. unfold ipmiMaxChannels. lia.
      * intros old'. rewrite Hu. by apply net_channel.
Qed.
End Renamed.
End Login.

(** ** A sample: bob becomes cat *)
#[local] Existing Instances sample_json sample_json_laws.

(** The network daemon's copy, not loaded since. *)
Definition sample_copy : UserState :=
  sample_renamed <| usersTbl := zero_table |> <| fileUpdated := 0 |>
                 <| passwdMgr := (passwdMgr sample_renamed) <| passwdMapList := ∅ |> <| fileLastUpdatedTime := 0 |> |>.
Lemma sample_follows : follows sample_copy sample_renamed.
Proof.
  constructor; [reflexivity| |reflexivity|reflexivity|].
  - intros t j E. assert (fst <$> userFile sample_renamed = Some 9) as H by (vm_compute; reflexivity).
    rewrite E in H. apply (inj Some) in H. cbn in H. cbn. lia.
  - intros data _ t f E Et. exfalso.
    assert (fst <$> passwdFile (passwdMgr sample_renamed) = Some 100) as H by (vm_compute; reflexivity).
    change (passwdFile (passwdMgr sample_copy)) with (passwdFile (passwdMgr sample_renamed)) in E.
    rewrite E in H. apply (inj Some) in H. cbn in H, Et. lia.
Qed.
Definition sample_net : Net :=
  opened <| RmcpState.users := net_users sample_copy sample_channels (fun _ _ => true) (fun _ => true) |>.
Lemma enrolled_users n u p sess : enrolled n p sess -> enrolled (n <| RmcpState.users := u |>) p sess.
Proof. done. Qed.
Definition opened_session : Session := sample_session opened.
Definition opened_auth : AuthAlgo := default (new_AuthAlgo SHA1 0 0) (authAlgoInterface opened_session).
Lemma login_follows_name_witness :
  (exists n' sess', RAKP12 (rakp1_request 9 (s_bmcSessionID opened_session) console_rand 0x13 bob) sample_net =
     Ret (rakp2_error RAKP_ReturnCode.UNAUTH_NAME) n' /\ heap n' !! 1%nat = Some sess') /\
  (exists n', RAKP12 (rakp1_request 9 (s_bmcSessionID opened_session) console_rand 0x13 cat) sample_net =
     Ret (rakp2_response 9 opened_session
            (opened_auth <| userKey := resize USER_KEY_MAX_LENGTH (bytes_of_string "secret") |>) (guid sample_net)
            console_rand bmc_rand 0x13 cat) n').
Proof.
  destruct (login_follows_name sample_system UserMgmtSpec.sample_users sample_renamed sample_copy 3 cat sample_text
    sample_directory ltac:(discriminate) sample_bus_lists ltac:(unfold is_byte; lia) eq_refl ltac:(fits) ltac:(fits)
    sample_ready ltac:(vm_compute; reflexivity) ltac:(intros _; apply (bool_decide_unpack _); vm_compute; exact I)
    ltac:(discriminate) ltac:(discriminate) sample_renamed_run sample_follows
    sample_net 1 opened_session opened_auth 9 console_rand bmc_rand 0x13 sample_channels (fun _ _ => true) (fun _ => true))
    as [(n' & sess' & E1 & E2 & _) H].
  - reflexivity.
  - exact (enrolled_users opened _ 1 opened_session opened_enrolled).
  - split; vm_compute; [discriminate|reflexivity].
  - vm_compute. reflexivity.
  - reflexivity.
  - vm_compute. reflexivity.
  - vm_compute. reflexivity.
  - assert (name_at (usersTbl UserMgmtSpec.sample_users) (Z.to_nat 3) = bob) as Eold by (vm_compute; reflexivity).
    rewrite Eold in E1. split; [exists n', sess'; split; [exact E1|exact E2]|].
    apply (H ltac:(discriminate) (sample_user bob)
      {| UserMgmt.privilege := 4; UserMgmt.ipmiEnabled := true; linkAuthEnabled := true; accessCallback := false |}
      (ChannelMgmtSpec.sample_channel 1) (bytes_of_string "secret")).
    + reflexivity.
    + reflexivity.
    + reflexivity.
    + vm_compute. discriminate.
    + discriminate.
    + vm_compute. reflexivity.
    + split; apply Nat.leb_le; reflexivity.
    + reflexivity.
    + exact sample_usable.
    + apply sample_writable.
    + discriminate.
Defined.
