(* ===== verification/FruArea.v ===== *)
(** * FRU images of the IPMI host service

    [ipmi_fru_info_area.cpp]: from the properties of an inventory item to the
    bytes of a FRU device: a header with the places of the areas, and the
    chassis, board and product areas with their checksums. *)
From Stdlib Require Import ZArith Lia String.
From stdpp Require Import base list gmap strings.
From S2P Require Import Prelude CxxStd.
Local Open Scope Z_scope.

Notation Value := (list Z).
Notation PropertyMap := (gmap string Value).
Notation FruInventoryData := (gmap string PropertyMap).
Notation FruAreaData := (list Z).

Definition specVersion : Z := 0x1.
Definition recordUnitOfMeasurement : nat := 8.
Definition checksumSize : nat := 1.
Definition recordNotPresent : Z := 0x0.
Definition englishLanguageCode : Z := 0x0.
Definition typeLengthByteNull : Z := 0x0.
Definition endOfCustomFields : Z := 0xC1.
Definition commonHeaderFormatSize : Z := 0x8.
Definition areaSizeOffset : nat := 1.
Definition typeASCII : Z := 0xC0.
Definition maxRecordAttributeValue : nat := 0x3F.
Definition secs_from_1970_1996 : Z := 820454400.
Definition maxMfgDateValue : Z := 0xFFFFFF.
Definition secs_per_min : Z := 60.
Definition secsToMaxMfgdate : Z := secs_from_1970_1996 + secs_per_min * maxMfgDateValue.
Definition fruMinSize : nat := Z.to_nat 0x27E0.
Definition fruPadValue : Z := 0xff.

(** ** Parts of an area *)
Definition preFormatProcessing (langCode : bool) (data : FruAreaData) : FruAreaData :=
  let data := data ++ [specVersion] in
  let data := data ++ [typeLengthByteNull] in
  if langCode then data ++ [englishLanguageCode] else data.
Definition appendDataChecksum (data : FruAreaData) : FruAreaData :=
  let checksumVal := u8 (sum data) in
  data ++ [u8 (- checksumVal)].
(** [resize] of a vector: new elements are [v]. *)
Definition vector_resize (n : nat) (v : Z) (data : FruAreaData) : FruAreaData :=
  take n data ++ replicate (n - length data) v.
Definition padData (data : FruAreaData) : FruAreaData :=
  let pad := ((length data + checksumSize) mod recordUnitOfMeasurement)%nat in
  if (0 <? pad)%nat then vector_resize (length data + recordUnitOfMeasurement - pad) 0 data else data.
(** [data.at(1)]: every area has begun with its version and its size. *)
Definition postFormatProcessing (data : FruAreaData) : FruAreaData :=
  let data := padData data in
  let data := <[areaSizeOffset := u8 (Z.of_nat ((length data + checksumSize) / recordUnitOfMeasurement))]> data in
  appendDataChecksum data.

Definition chassis_type (value : Value) : Z :=
  match stoi value tt with Ret n _ => u8 n | _ => 0 end.
Definition appendChassisType (propMap : PropertyMap) (data : FruAreaData) : FruAreaData :=
  data ++ [match propMap !! "Type"%string with Some value => chassis_type value | None => 0 end].

(** A hexadecimal prefix is removed; what is left is cut to 63 bytes. *)
Definition strip_hex (value : Value) : Value :=
  if bool_decide (take 2 value = bytes_of_string "0x") || bool_decide (take 2 value = bytes_of_string "0X")
  then drop 2 value else value.
Definition appendData (key : string) (propMap : PropertyMap) (data : FruAreaData) : FruAreaData :=
  match propMap !! key with
  | Some value =>
      let value := strip_hex value in
      let valueLength := if (maxRecordAttributeValue <? length value)%nat then maxRecordAttributeValue else length value in
      let typeLength := u8 (Z.lor (Z.of_nat valueLength) typeASCII) in
      (data ++ [typeLength]) ++ take valueLength value
  | None => data ++ [typeLengthByteNull]
  end.

(** The calendar of the C library: [std::get_time] with a pattern, on a [tm]
    that an earlier pattern may have filled in part, and [mktime], which uses
    the time zone of the process. *)
Class Calendar := {
  tm : Type; zero_tm : tm;
  get_time : string -> Value -> tm -> bool * tm;
  mktime : tm -> Z }.

Section Fru.
Context {L : Calendar}.

Definition patterns : list string := ["%Y-%m-%d - %H:%M:%S"; "%a %b %d %H:%M:%S %Y"]%string.
Fixpoint try_patterns (l : list string) (input : Value) (time : tm) : tm :=
  match l with
  | [] => time
  | p :: l =>
      let '(good, time) := get_time p input time in
      if good then time else try_patterns l input time
  end.
Definition timeStringToRaw (input : Value) : Z := mktime (try_patterns patterns input zero_tm).

Definition mfg_bytes (raw : Z) : list Z :=
  [Z.land raw 0xFF; Z.land (Z.shiftr raw 8) 0xFF; Z.land (Z.shiftr raw 16) 0xFF].
Definition appendMfgDate (propMap : PropertyMap) (data : FruAreaData) : FruAreaData :=
  match propMap !! "Mfg Date"%string with
  | Some (c :: value) =>
      let raw := timeStringToRaw (c :: value) in
      if (secs_from_1970_1996 <=? raw) && (raw <=? secsToMaxMfgdate)
      then data ++ mfg_bytes (Z.quot (raw - secs_from_1970_1996) secs_per_min)
      else ((data ++ [0]) ++ [0]) ++ [0]
  | _ => ((data ++ [0]) ++ [0]) ++ [0]
  end.

(** ** The header *)

(** The offset is a [uint16_t]. *)
Definition buildCommonHeaderSection (infoAreaSize offset : Z) (data : FruAreaData) : Z * FruAreaData :=
  if infoAreaSize =? 0 then (offset, data ++ [recordNotPresent])
  else
    let remainder := offset mod Z.of_nat recordUnitOfMeasurement in
    let offset := u16 (offset + (if 0 <? remainder then Z.of_nat recordUnitOfMeasurement - remainder else 0)) in
    let data := data ++ [u8 (offset / Z.of_nat recordUnitOfMeasurement)] in
    (u16 (offset + infoAreaSize), data).

(** ** The areas *)
Definition buildChassisInfoArea (propMap : PropertyMap) : FruAreaData :=
  if bool_decide (propMap = ∅) then []
  else
    let data := preFormatProcessing false [] in
    let data := appendChassisType propMap data in
    let data := appendData "Model Number" propMap data in
    let data := appendData "Serial Number" propMap data in
    let data := data ++ [endOfCustomFields] in
    postFormatProcessing data.
Definition buildBoardInfoArea (propMap : PropertyMap) : FruAreaData :=
  if bool_decide (propMap = ∅) then []
  else
    let data := preFormatProcessing true [] in
    let data := appendMfgDate propMap data in
    let data := appendData "Manufacturer" propMap data in
    let data := appendData "Name" propMap data in
    let data := appendData "Serial Number" propMap data in
    let data := appendData "Part Number" propMap data in
    let data := data ++ [typeLengthByteNull] in
    let data := data ++ [recordNotPresent] in
    let data := data ++ [endOfCustomFields] in
    postFormatProcessing data.
Definition buildProductInfoArea (propMap : PropertyMap) : FruAreaData :=
  if bool_decide (propMap = ∅) then []
  else
    let data := preFormatProcessing true [] in
    let data := appendData "Manufacturer" propMap data in
    let data := appendData "Name" propMap data in
    let data := appendData "Model Number" propMap data in
    let data := appendData "Version" propMap data in
    let data := appendData "Serial Number" propMap data in
    let data := data ++ [recordNotPresent] in
    let data := data ++ [typeLengthByteNull] in
    let data := data ++ [recordNotPresent] in
    let data := data ++ [endOfCustomFields] in
    postFormatProcessing data.

Definition section_area (inventory : FruInventoryData) (name : string) (build : PropertyMap -> FruAreaData) : FruAreaData :=
  match inventory !! name with Some propMap => build propMap | None => [] end.
Definition buildFruAreaData (inventory : FruInventoryData) : FruAreaData :=
  let combFruArea := ([] ++ [specVersion]) ++ [recordNotPresent] in
  let chassisArea := section_area inventory "Chassis" buildChassisInfoArea in
  let '(curDataOffset, combFruArea) := buildCommonHeaderSection (Z.of_nat (length chassisArea)) commonHeaderFormatSize combFruArea in
  let boardArea := section_area inventory "Board" buildBoardInfoArea in
  let '(curDataOffset, combFruArea) := buildCommonHeaderSection (Z.of_nat (length boardArea)) curDataOffset combFruArea in
  let prodArea := section_area inventory "Product" buildProductInfoArea in
  let '(_, combFruArea) := buildCommonHeaderSection (Z.of_nat (length prodArea)) curDataOffset combFruArea in
  let combFruArea := (combFruArea ++ [recordNotPresent]) ++ [recordNotPresent] in
  let combFruArea := appendDataChecksum combFruArea in
  let combFruArea := ((combFruArea ++ chassisArea) ++ boardArea) ++ prodArea in
  if (length combFruArea <? fruMinSize)%nat then vector_resize fruMinSize fruPadValue combFruArea else combFruArea.
End Fru.
