(* ===== verification/FruAreaSpec.v ===== *)
(** * FRU images: properties

    A reader of FRU images, written from the layout of the FRU specification,
    finds in the image what the inventory says. *)
From Stdlib Require Import ZArith Lia String.
From stdpp Require Import base list gmap strings.
From S2P Require Import Prelude CxxStd FruArea.
Local Open Scope Z_scope.

(** ** A reader *)

(** An area begins at 8 times the offset in byte [k] of the header; its second
    byte is its size in units of 8 bytes, and its bytes add up to 0. *)
Definition read_area (k : nat) (img : list Z) : option (list Z) :=
  o ← img !! k;
  if o =? 0 then None
  else
    n ← img !! (Z.to_nat (8 * o) + 1)%nat;
    let a := slice img (Z.to_nat (8 * o)) (Z.to_nat (8 * n)) in
    if bool_decide (u8 (sum a) = 0) && bool_decide (a !! 0%nat = Some 1) then Some a else None.
(** Fields up to the end mark: a byte with the length in its low 6 bits, the
    bytes of the value. *)
Fixpoint read_fields (fuel : nat) (l : list Z) : option (list (list Z)) :=
  match fuel, l with
  | S fuel, t :: l =>
      if t =? 0xC1 then Some []
      else
        let n := Z.to_nat (t mod 64) in
        if (length l <? n)%nat then None else cons (take n l) <$> read_fields fuel (drop n l)
  | _, _ => None
  end.
Definition read_chassis (img : list Z) : option (Z * list (list Z)) :=
  a ← read_area 2 img; t ← a !! 2%nat; fs ← read_fields (length a) (drop 3 a); Some (t, fs).
Definition read_board (img : list Z) : option (Z * list (list Z)) :=
  a ← read_area 3 img;
  let minutes := nth 3 a 0 + 2 ^ 8 * nth 4 a 0 + 2 ^ 16 * nth 5 a 0 in
  fs ← read_fields (length a) (drop 6 a); Some (minutes, fs).
Definition read_product (img : list Z) : option (list (list Z)) :=
  a ← read_area 4 img; read_fields (length a) (drop 3 a).

(** ** What it should find *)
(** What is left of a value: a prefix 0x or 0X is lost, and at most 63 bytes
    fit in a field. *)
Definition shown (v : list Z) : list Z :=
  take 63 match v with
          | 48 :: (120 | 88) :: digits => digits
          | _ => v
          end.
Definition value_of (p : PropertyMap) (k : string) : list Z :=
  match p !! k with Some v => shown v | None => [] end.
(** A field of one byte has the type and length byte that marks the end of an
    area: a reader finds the fields before the first one, and no other. *)
Fixpoint up_to_mark (vs : list (list Z)) : list (list Z) :=
  match vs with
  | [] => []
  | v :: vs => if (length v =? 1)%nat then [] else v :: up_to_mark vs
  end.
Definition chassis_view (p : PropertyMap) : Z * list (list Z) :=
  (match p !! "Type"%string with Some v => chassis_type v | None => 0 end,
   up_to_mark (map (value_of p) ["Model Number"; "Serial Number"]%string)).
Definition minutes_since_1996 {L : Calendar} (p : PropertyMap) : Z :=
  match p !! "Mfg Date"%string with
  | Some (c :: v) =>
      let t := timeStringToRaw (c :: v) - 820454400 in
      if (0 <=? t) && (t <=? 60 * 0xFFFFFF) then t / 60 else 0
  | _ => 0
  end.
Definition board_view {L : Calendar} (p : PropertyMap) : Z * list (list Z) :=
  (minutes_since_1996 p,
   up_to_mark (map (value_of p) ["Manufacturer"; "Name"; "Serial Number"; "Part Number"]%string ++ [[]; []])).
Definition product_view (p : PropertyMap) : list (list Z) :=
  up_to_mark (map (value_of p) ["Manufacturer"; "Name"; "Model Number"; "Version"; "Serial Number"]%string
              ++ [[]; []; []]).
Definition view_of {A} (view : PropertyMap -> A) (name : string) (inventory : FruInventoryData) : option A :=
  match inventory !! name with
  | Some p => if decide (p = ∅) then None else Some (view p)
  | None => None
  end.

(** ** Fields *)
Definition is_field (enc v : list Z) : Prop :=
  forall fuel rest, read_fields (S fuel) (enc ++ rest) = cons v <$> read_fields fuel rest.
Definition field (p : PropertyMap) (k : string) : list Z :=
  match p !! k with
  | Some _ => (192 + Z.of_nat (length (value_of p k))) :: value_of p k
  | None => [0]
  end.
Lemma take_prefix_eq (c0 c1 : Z) v :
  bool_decide (take 2 v = [c0; c1]) =
  match v with a :: b :: _ => (a =? c0) && (b =? c1) | _ => false end.
Proof.
  destruct v as [|a [|b v]]; cbn [take]; [by rewrite bool_decide_eq_false_2..|].
  destruct (Z.eqb_spec a c0) as [->|Ha], (Z.eqb_spec b c1) as [->|Hb]; cbn [andb];
    [by rewrite bool_decide_eq_true_2|rewrite bool_decide_eq_false_2; [done|congruence]..].
Qed.
Lemma strip_shown v : take 63 (strip_hex v) = shown v.
Proof.
  unfold strip_hex, shown. f_equal. change (bytes_of_string "0x") with [48; 120].
  change (bytes_of_string "0X") with [48; 88]. rewrite !take_prefix_eq.
  destruct v as [|a [|b v]]; [done| |].
  { cbn [orb]. by repeat case_match. }
  cbn [drop]. destruct (Z.eqb_spec a 48) as [->|Ha]; cbn [andb orb].
  - destruct (Z.eqb_spec b 120) as [->|Hb]; [done|]. destruct (Z.eqb_spec b 88) as [->|Hb2]; [done|].
    cbn [orb]. by repeat case_match.
  - by repeat case_match.
Qed.
Lemma value_of_length p k : (length (value_of p k) <= 63)%nat.
Proof. unfold value_of, shown. destruct (p !! k); [rewrite length_take; lia|cbn; lia]. Qed.
Lemma appendData_field k p d : appendData k p d = d ++ field p k.
Proof.
  unfold appendData, field, value_of, maxRecordAttributeValue. destruct (p !! k) as [v|]; [|done].
  rewrite <- strip_shown. set (x := strip_hex v). rewrite <- app_assoc. f_equal. cbn [app].
  assert ((if (63 <? length x)%nat then 63%nat else length x) = length (take 63 x)) as ->.
  { rewrite length_take. destruct (Nat.ltb_spec 63 (length x)); lia. }
  assert (length (take 63 x) <= 63)%nat as Hl by (rewrite length_take; lia).
  f_equal.
  - unfold typeASCII. rewrite Z.lor_comm. change 0xC0 with (Z.shiftl 3 6). rewrite lor_shiftl_add by lia.
    change (Z.shiftl 3 6) with 192. change (3 * 2 ^ 6) with 192. unfold u8. rewrite Z.mod_small; lia.
  - rewrite length_take. destruct (Nat.le_gt_cases (length x) 63); [by rewrite Nat.min_r, !take_ge by lia|by rewrite Nat.min_l by lia].
Qed.
Lemma field_length p k : (1 <= length (field p k) <= 64)%nat.
Proof. unfold field. pose proof (value_of_length p k). destruct (p !! k); cbn [length]; lia. Qed.
Lemma empty_field : is_field [0] [].
Proof. by intros fuel rest. Qed.
(** A field a reader gets past, and one that ends the area. *)
Definition field_or_mark (enc v : list Z) : Prop :=
  if (length v =? 1)%nat then exists rest, enc = 0xC1 :: rest else is_field enc v.
Lemma field_reads p k : field_or_mark (field p k) (value_of p k).
Proof.
  unfold field_or_mark, field. pose proof (value_of_length p k) as Hl.
  destruct (p !! k) as [v|] eqn:Ek; [|unfold value_of; rewrite Ek; exact empty_field].
  destruct (Nat.eqb_spec (length (value_of p k)) 1) as [->|H1]; [by eexists|].
  intros fuel rest. cbn [app read_fields]. rewrite (proj2 (Z.eqb_neq _ _)) by lia.
  replace ((192 + Z.of_nat (length (value_of p k))) mod 64) with (Z.of_nat (length (value_of p k))).
  2: { rewrite Z.add_mod by lia. change (192 mod 64) with 0. rewrite Z.add_0_l, Z.mod_mod, Z.mod_small; lia. }
  rewrite Nat2Z.id, length_app, (proj2 (Nat.ltb_ge _ _)) by lia. by rewrite take_app_length, drop_app_length.
Qed.
Lemma fields_read encs vs rest : Forall2 field_or_mark encs vs -> forall fuel, (length encs < fuel)%nat ->
  read_fields fuel (concat encs ++ 0xC1 :: rest) = Some (up_to_mark vs).
Proof.
  induction 1 as [|e v encs vs He _ IH]; intros [|fuel] Hf; cbn [length] in Hf; try lia; [done|].
  cbn [concat up_to_mark]. rewrite <- app_assoc. unfold field_or_mark in He.
  destruct (length v =? 1)%nat; [by destruct He as [r ->]|]. rewrite He, IH by lia. done.
Qed.

(** ** Areas *)
Definition sound_area (a body : list Z) : Prop :=
  exists n rest, a = 1 :: n :: body ++ rest /\ Z.of_nat (length a) = 8 * n /\ 0 < n <= 52 /\ u8 (sum a) = 0.
Lemma checksum_zero d : u8 (sum (appendDataChecksum d)) = 0.
Proof.
  unfold appendDataChecksum. rewrite sum_app. cbn [sum]. rewrite Z.add_0_r, u8_add_r.
  unfold u8. rewrite <- Zplus_mod_idemp_l, Z.add_opp_diag_r. done.
Qed.
Lemma padData_spec d : exists z, padData d = d ++ z /\ (length z < 8)%nat /\ ((length (d ++ z) + 1) mod 8 = 0)%nat.
Proof.
  unfold padData, vector_resize, checksumSize, recordUnitOfMeasurement.
  pose proof (Nat.div_mod (length d + 1) 8 ltac:(lia)) as E. pose proof (Nat.mod_upper_bound (length d + 1) 8 ltac:(lia)) as Hb.
  set (r := ((length d + 1) mod 8)%nat) in *. destruct (Nat.ltb_spec 0 r) as [H|H].
  - exists (replicate (8 - r) 0). rewrite take_ge by lia. replace (length d + 8 - r - length d)%nat with (8 - r)%nat by lia.
    split; [done|]. rewrite length_app, length_replicate. split; [lia|].
    replace (length d + (8 - r) + 1)%nat with (((length d + 1) / 8 + 1) * 8)%nat by lia. apply Nat.Div0.mod_mul.
  - exists []. rewrite app_nil_r. split; [done|]. split; [cbn [length]; lia|]. fold r. lia.
Qed.
Lemma post_area body : (length body <= 400)%nat -> sound_area (postFormatProcessing (1 :: 0 :: body)) body.
Proof.
  intros Hb. unfold postFormatProcessing. destruct (padData_spec (1 :: 0 :: body)) as (z & -> & Hz & Hm).
  pose proof (Nat.div_mod (length ((1 :: 0 :: body) ++ z) + 1) 8 ltac:(lia)) as E. rewrite Hm in E.
  unfold checksumSize, recordUnitOfMeasurement. set (l := (1 :: 0 :: body) ++ z) in *. set (q := ((length l + 1) / 8)%nat) in *.
  assert (length l = (2 + length body + length z)%nat) as Hl by (unfold l; rewrite length_app; done).
  assert (u8 (Z.of_nat q) = Z.of_nat q) as -> by (apply Z.mod_small; lia).
  set (n := Z.of_nat q). assert (0 < n <= 52) as Hn by lia.
  exists n, (z ++ [u8 (- u8 (sum (1 :: n :: body ++ z)))]). split; [|split; [|split; [done|apply checksum_zero]]].
  - unfold appendDataChecksum, l. cbn [app insert list_insert areaSizeOffset]. by rewrite <- app_assoc.
  - unfold appendDataChecksum. rewrite length_app, length_insert. cbn [length]. lia.
Qed.

Ltac field_lengths :=
  repeat match goal with |- context [length (field ?p ?k)] =>
    let H := fresh in pose proof (field_length p k) as H; revert H; generalize (length (field p k)); intros ? H end.
Definition board_keys : list string := ["Manufacturer"; "Name"; "Serial Number"; "Part Number"]%string.
Definition product_keys : list string := ["Manufacturer"; "Name"; "Model Number"; "Version"; "Serial Number"]%string.
Definition area_fields (p : PropertyMap) (ks : list string) (empties : nat) : list Z :=
  concat (map (field p) ks ++ replicate empties [0]) ++ [0xC1].
Lemma area_fields_read p ks empties rest fuel : (length ks + empties < fuel)%nat ->
  read_fields fuel (area_fields p ks empties ++ rest) =
    Some (up_to_mark (map (value_of p) ks ++ replicate empties [])).
Proof.
  intros Hf. unfold area_fields. rewrite <- app_assoc. apply fields_read.
  - apply Forall2_app; [|apply Forall2_replicate; exact empty_field].
    clear Hf. induction ks; constructor; [apply field_reads|done].
  - by rewrite length_app, length_map, length_replicate.
Qed.
Lemma area_fields_length p ks empties : (length ks + empties < length (area_fields p ks empties))%nat.
Proof.
  unfold area_fields. rewrite concat_app, !length_app. cbn [length].
  assert (length ks <= length (concat (map (field p) ks)))%nat as H.
  { induction ks as [|k ks IH]; cbn [map concat length]; [lia|]. rewrite length_app. pose proof (field_length p k). lia. }
  assert (length (concat (replicate empties [0])) = empties) as ->; [|lia].
  induction empties as [|n IH]; [done|]. cbn [replicate concat app length]. by rewrite IH.
Qed.

Definition date_bytes {L : Calendar} (p : PropertyMap) : list Z := mfg_bytes (minutes_since_1996 p).
Lemma appendMfgDate_bytes {L : Calendar} p d : appendMfgDate p d = d ++ date_bytes p.
Proof.
  unfold appendMfgDate, date_bytes, minutes_since_1996. destruct (p !! "Mfg Date"%string) as [[|c v]|].
  1, 3: by rewrite <- !app_assoc.
  set (t := timeStringToRaw (c :: v)). unfold secsToMaxMfgdate, secs_from_1970_1996, secs_per_min, maxMfgDateValue.
  assert ((820454400 <=? t) = (0 <=? t - 820454400)) as -> by lia.
  assert ((t <=? 820454400 + 60 * 0xFFFFFF) = (t - 820454400 <=? 60 * 0xFFFFFF)) as -> by lia.
  destruct (0 <=? t - 820454400) eqn:E1; cbn [andb]; [destruct (t - 820454400 <=? 60 * 0xFFFFFF) eqn:E2|]; cbn [andb].
  - rewrite Z.quot_div_nonneg by lia. done.
  - by rewrite <- !app_assoc.
  - by rewrite <- !app_assoc.
Qed.
Lemma mfg_bytes_read m : 0 <= m < 2 ^ 24 -> match mfg_bytes m with [a; b; c] => a + 2 ^ 8 * b + 2 ^ 16 * c = m | _ => False end.
Proof.
  intros Hm. unfold mfg_bytes. change 0xFF with (2 ^ 8 - 1). rewrite !land_mask, !shiftr_div by lia.
  change (2 ^ 8) with 256. change (2 ^ 16) with 65536. change (2 ^ 24) with 16777216 in Hm.
  pose proof (Z.div_mod m 256 ltac:(lia)). pose proof (Z.div_mod (m / 256) 256 ltac:(lia)) as E.
  rewrite Z.div_div in E by lia. change (256 * 256) with 65536 in E.
  rewrite (Z.mod_small (m / 65536)); [lia|]. split; [apply Z.div_pos; lia|apply Z.div_lt_upper_bound; lia].
Qed.
Lemma minutes_range {L : Calendar} p : 0 <= minutes_since_1996 p < 2 ^ 24.
Proof.
  unfold minutes_since_1996. destruct (p !! "Mfg Date"%string) as [[|c v]|]; [lia| |lia].
  destruct (_ && _) eqn:E; [|lia]. apply andb_prop in E as [E1 E2]. apply Z.leb_le in E1, E2.
  split; [apply Z.div_pos; lia|apply Z.div_lt_upper_bound; lia].
Qed.

Definition chassis_body (p : PropertyMap) : list Z :=
  fst (chassis_view p) :: area_fields p ["Model Number"; "Serial Number"]%string 0.
Definition board_body {L : Calendar} (p : PropertyMap) : list Z := 0 :: date_bytes p ++ area_fields p board_keys 2.
Definition product_body (p : PropertyMap) : list Z := 0 :: area_fields p product_keys 3.
(** The appended parts as one list. *)
Ltac area_list := unfold chassis_body, board_body, product_body, board_keys, product_keys, area_fields; cbn [map app concat replicate]; rewrite ?app_nil_r, <- ?app_assoc; reflexivity.
Ltac area_length := unfold chassis_body, board_body, product_body, board_keys, product_keys, date_bytes, mfg_bytes, area_fields; cbn [length map app concat replicate];
  rewrite ?length_app; cbn [length]; field_lengths; lia.
Lemma chassis_area p : p <> ∅ -> sound_area (buildChassisInfoArea p) (chassis_body p).
Proof.
  intros Hp. unfold buildChassisInfoArea. rewrite bool_decide_eq_false_2 by done. cbv zeta.
  unfold preFormatProcessing, appendChassisType. rewrite !appendData_field.
  match goal with |- sound_area (postFormatProcessing ?d) _ => assert (d = 1 :: 0 :: chassis_body p) as -> by area_list end.
  apply post_area. area_length.
Qed.
Lemma board_area {L : Calendar} p : p <> ∅ -> sound_area (buildBoardInfoArea p) (board_body p).
Proof.
  intros Hp. unfold buildBoardInfoArea. rewrite bool_decide_eq_false_2 by done. cbv zeta.
  unfold preFormatProcessing. rewrite !appendData_field, appendMfgDate_bytes.
  match goal with |- sound_area (postFormatProcessing ?d) _ => assert (d = 1 :: 0 :: board_body p) as -> by area_list end.
  apply post_area. area_length.
Qed.
Lemma product_area p : p <> ∅ -> sound_area (buildProductInfoArea p) (product_body p).
Proof.
  intros Hp. unfold buildProductInfoArea. rewrite bool_decide_eq_false_2 by done. cbv zeta.
  unfold preFormatProcessing. rewrite !appendData_field.
  match goal with |- sound_area (postFormatProcessing ?d) _ => assert (d = 1 :: 0 :: product_body p) as -> by area_list end.
  apply post_area. area_length.
Qed.

(** ** The image *)
Lemma read_area_at img pre a post body k o : img = pre ++ a ++ post -> img !! k = Some o -> 0 < o ->
  Z.of_nat (length pre) = 8 * o -> sound_area a body -> read_area k img = Some a.
Proof.
  intros -> Hk Ho Hpre (n & rest & Ea & Hl & Hn & Hs). unfold read_area. rewrite Hk. cbn [mbind option_bind].
  rewrite (proj2 (Z.eqb_neq _ _)) by lia.
  replace (Z.to_nat (8 * o)) with (length pre) by lia.
  rewrite lookup_app_r, Nat.add_comm, Nat.add_sub by lia.
  assert ((a ++ post) !! 1%nat = Some n) as -> by (by rewrite Ea). cbn [mbind option_bind].
  replace (Z.to_nat (8 * n)) with (length a) by lia. rewrite slice_app_exact.
  rewrite !bool_decide_eq_true_2; [done| |done]. by rewrite Ea.
Qed.
Lemma read_area_absent k img : img !! k = Some 0 -> read_area k img = None.
Proof. intros E. unfold read_area. by rewrite E. Qed.

Lemma header_section k n d : 0 <= k <= 200 -> 0 <= n <= 52 ->
  buildCommonHeaderSection (8 * n) (8 * k) d = (8 * (k + n), d ++ [if n =? 0 then 0 else k]).
Proof.
  intros Hk Hn. unfold buildCommonHeaderSection, recordUnitOfMeasurement. destruct (Z.eqb_spec n 0) as [->|H].
  - change (8 * 0 =? 0) with true. cbv iota. by rewrite Z.add_0_r.
  - rewrite (proj2 (Z.eqb_neq _ _)) by lia. change (Z.of_nat 8) with 8.
    rewrite (Z.mul_comm 8 k), Z.mod_mul by lia. change (0 <? 0) with false. cbv iota zeta. rewrite Z.add_0_r.
    unfold u16, u8. rewrite (Z.mod_small (k * 8)) by lia. rewrite Z.div_mul, !Z.mod_small by lia. f_equal. lia.
Qed.

(** A section that is absent or empty has no area. *)
Definition units (a : list Z) : Z := Z.of_nat (length a) / 8.
Lemma section_cases {A} inventory name build body (view : PropertyMap -> A) :
  (forall p, p <> ∅ -> sound_area (build p) (body p)) -> build ∅ = [] ->
  let a := section_area inventory name build in
  (a = [] /\ view_of view name inventory = None) \/
  exists p, inventory !! name = Some p /\ a = build p /\ sound_area a (body p) /\ view_of view name inventory = Some (view p).
Proof.
  intros Hb H0 a. unfold a, section_area, view_of. destruct (inventory !! name) as [p|]; [|by left].
  destruct (decide (p = ∅)) as [->|Hp]; [by left|]. right. exists p. repeat split; auto.
Qed.
Lemma sound_units a body : sound_area a body -> Z.of_nat (length a) = 8 * units a /\ 0 < units a <= 52.
Proof.
  intros (n & rest & _ & Hl & Hn & _). unfold units. rewrite Hl, Z.mul_comm, Z.div_mul by lia. lia.
Qed.
Definition fits (a : list Z) : Prop := Z.of_nat (length a) = 8 * units a /\ 0 <= units a <= 52.
Lemma nil_fits : fits [].
Proof. done. Qed.

Lemma section_fits {A} a (v : option A) (Q : PropertyMap -> Prop) (body : PropertyMap -> list Z) (w : PropertyMap -> A) (E : PropertyMap -> Prop) :
  (a = [] /\ v = None) \/ (exists p, Q p /\ E p /\ sound_area a (body p) /\ v = Some (w p)) -> fits a.
Proof.
  intros [[-> _]|(p & _ & _ & Hs & _)]; [done|]. apply sound_units in Hs. unfold fits. lia.
Qed.

Definition image (c b p : list Z) : list Z :=
  let place (a : list Z) (o : Z) := if units a =? 0 then 0 else o in
  let img := appendDataChecksum [1; 0; place c 1; place b (1 + units c); place p (1 + units c + units b); 0; 0] ++ c ++ b ++ p in
  img ++ replicate (fruMinSize - length img) fruPadValue.
Lemma build_image {L : Calendar} inventory c b p :
  c = section_area inventory "Chassis" buildChassisInfoArea -> b = section_area inventory "Board" buildBoardInfoArea ->
  p = section_area inventory "Product" buildProductInfoArea -> fits c -> fits b -> fits p ->
  buildFruAreaData inventory = image c b p.
Proof.
  intros -> -> -> [Lc Hc] [Lb Hb] [Lp Hp]. unfold buildFruAreaData, image.
  set (c := section_area inventory "Chassis" _) in *. set (b := section_area inventory "Board" _) in *.
  set (p := section_area inventory "Product" _) in *.
  rewrite Lc, Lb, Lp. change commonHeaderFormatSize with (8 * 1). rewrite !header_section by lia. cbv zeta beta iota.
  rewrite <- !app_assoc. cbn [app].
  set (img := appendDataChecksum _ ++ _ ++ _ ++ _).
  assert (length img < fruMinSize)%nat as Hl.
  { unfold img, appendDataChecksum. rewrite !length_app. cbn [length]. unfold fruMinSize. lia. }
  rewrite (proj2 (Nat.ltb_lt _ _)) by done. unfold vector_resize. rewrite take_ge by lia.
  unfold img. by rewrite <- !app_assoc.
Qed.

Lemma image_reads (c b p : list Z) : fits c -> fits b -> fits p ->
  let img := image c b p in
  length img = fruMinSize /\ u8 (sum (take 8 img)) = 0 /\ img !! 0%nat = Some 1 /\
  (c = [] -> read_area 2 img = None) /\ (b = [] -> read_area 3 img = None) /\ (p = [] -> read_area 4 img = None) /\
  (forall body, sound_area c body -> read_area 2 img = Some c) /\
  (forall body, sound_area b body -> read_area 3 img = Some b) /\
  (forall body, sound_area p body -> read_area 4 img = Some p).
Proof.
  intros [Lc Hc] [Lb Hb] [Lp Hp] img. unfold img, image.
  set (hdr := appendDataChecksum _). set (pad := replicate _ _).
  assert (length hdr = 8%nat) as Hh by done.
  assert (length (hdr ++ c ++ b ++ p) <= fruMinSize)%nat as Hl by (rewrite !length_app, Hh; unfold fruMinSize; lia).
  split; [unfold pad; rewrite length_app, length_replicate; lia|].
  split; [rewrite <- app_assoc, <- Hh, take_app_length; apply checksum_zero|]. split; [done|].
  split; [intros ->; by apply read_area_absent|]. split; [intros ->; by apply read_area_absent|].
  split; [intros ->; by apply read_area_absent|].
  split; [|split]; intros body Hs; pose proof (sound_units _ _ Hs) as [_ Hu].
  - apply (read_area_at _ hdr c (b ++ p ++ pad) body 2 1); [by rewrite <- !app_assoc| |done|by rewrite Hh|done].
    unfold hdr, appendDataChecksum. cbn [app lookup list_lookup]. by rewrite (proj2 (Z.eqb_neq (units c) 0)) by lia.
  - apply (read_area_at _ (hdr ++ c) b (p ++ pad) body 3 (1 + units c)); [by rewrite <- !app_assoc| |lia|rewrite length_app; lia|done].
    unfold hdr, appendDataChecksum. cbn [app lookup list_lookup]. by rewrite (proj2 (Z.eqb_neq (units b) 0)) by lia.
  - apply (read_area_at _ (hdr ++ c ++ b) p pad body 4 (1 + units c + units b)); [by rewrite <- !app_assoc| |lia|rewrite !length_app; lia|done].
    unfold hdr, appendDataChecksum. cbn [app lookup list_lookup]. by rewrite (proj2 (Z.eqb_neq (units p) 0)) by lia.
Qed.

Section Images.
Context {L : Calendar}.

Lemma chassis_read p a rest : sound_area a (chassis_body p) ->
  read_area 2 rest = Some a -> read_chassis rest = Some (chassis_view p).
Proof.
  intros (n & z & -> & Hl & _) E. unfold read_chassis. rewrite E. cbn [mbind option_bind].
  unfold chassis_body. cbn [app drop lookup list_lookup mbind option_bind].
  rewrite drop_0, area_fields_read; [done|cbn [length]; lia].
Qed.
Lemma board_read p a img : sound_area a (board_body p) ->
  read_area 3 img = Some a -> read_board img = Some (board_view p).
Proof.
  intros (n & z & -> & Hl & _) E. unfold read_board. rewrite E. cbn [mbind option_bind].
  unfold board_body. pose proof (mfg_bytes_read _ (minutes_range p)) as Hm. unfold date_bytes in *.
  destruct (mfg_bytes (minutes_since_1996 p)) as [|b0 [|b1 [|b2 [|]]]] eqn:Eb; try done.
  cbn [app drop nth]. rewrite drop_0, Hm, area_fields_read; [done|]. pose proof (area_fields_length p board_keys 2). cbn [length]. rewrite length_app. lia.
Qed.
Lemma product_read p a img : sound_area a (product_body p) ->
  read_area 4 img = Some a -> read_product img = Some (product_view p).
Proof.
  intros (n & z & -> & Hl & _) E. unfold read_product. rewrite E. cbn [mbind option_bind].
  unfold product_body. cbn [app drop].
  rewrite drop_0, area_fields_read; [done|]. pose proof (area_fields_length p product_keys 3). cbn [length]. rewrite length_app. lia.
Qed.

(** C9. For every inventory the image has its fixed size and a
    sound header, and a reader of FRU images finds in it exactly the sections
    of the inventory, each in an area with a sound checksum: the chassis type,
    the date of manufacture in minutes since 1996 and the values of the
    fields, in the order of the specification, each without a prefix 0x or 0X
    and cut to 63 bytes.  In an area that has a value of one byte, after its
    prefix, the reader finds the fields before it only: it marks the end. *)
Theorem fru_reads_back inventory :
  let img := buildFruAreaData inventory in
  length img = fruMinSize /\ u8 (sum (take 8 img)) = 0 /\ img !! 0%nat = Some 1 /\
  read_chassis img = view_of chassis_view "Chassis" inventory /\
  read_board img = view_of board_view "Board" inventory /\
  read_product img = view_of product_view "Product" inventory.
Proof.
  pose proof (section_cases inventory "Chassis" buildChassisInfoArea chassis_body chassis_view chassis_area eq_refl) as Cc.
  pose proof (section_cases inventory "Board" buildBoardInfoArea board_body board_view board_area eq_refl) as Cb.
  pose proof (section_cases inventory "Product" buildProductInfoArea product_body product_view product_area eq_refl) as Cp.
  cbv zeta in Cc, Cb, Cp.
  rewrite (build_image inventory _ _ _ eq_refl eq_refl eq_refl (section_fits _ _ _ _ _ _ Cc) (section_fits _ _ _ _ _ _ Cb) (section_fits _ _ _ _ _ _ Cp)).
  destruct (image_reads _ _ _ (section_fits _ _ _ _ _ _ Cc) (section_fits _ _ _ _ _ _ Cb) (section_fits _ _ _ _ _ _ Cp))
    as (G1 & G2 & G3 & C0 & B0 & P0 & C1 & B1 & P1).
  do 3 (split; [done|]). split; [|split].
  - destruct Cc as [[E ->]|(p & Ip & _ & Hs & ->)]; [unfold read_chassis; by rewrite (C0 E)|].
    eapply chassis_read; [exact Hs|by eapply C1].
  - destruct Cb as [[E ->]|(p & Ip & _ & Hs & ->)]; [unfold read_board; by rewrite (B0 E)|].
    eapply board_read; [exact Hs|by eapply B1].
  - destruct Cp as [[E ->]|(p & Ip & _ & Hs & ->)]; [unfold read_product; by rewrite (P0 E)|].
    eapply product_read; [exact Hs|by eapply P1].
Qed.
End Images.

(** ** Samples *)
Definition sample_calendar : Calendar :=
  {| tm := Z; zero_tm := 0; get_time p _ t := (true, t + Z.of_nat (String.length p)); mktime t := 820454400 + 3600 * t |}.
Definition sample_inventory : FruInventoryData :=
  {[ "Chassis" := {[ "Type" := bytes_of_string "23"; "Model Number" := bytes_of_string "0x123a" ]};
     "Board" := {[ "Mfg Date" := bytes_of_string "today"; "Name" := bytes_of_string "chassis manager" ]};
     "Product" := ∅ ]}%string.
Lemma fru_reads_back_witness :
  let img := @buildFruAreaData sample_calendar sample_inventory in
  length img = fruMinSize /\ u8 (sum (take 8 img)) = 0 /\ img !! 0%nat = Some 1 /\
  read_chassis img = view_of chassis_view "Chassis" sample_inventory /\
  read_board img = view_of (@board_view sample_calendar) "Board" sample_inventory /\
  read_product img = view_of product_view "Product" sample_inventory.
Proof.
  exact (@fru_reads_back sample_calendar sample_inventory).
Defined.
Example sample_chassis : read_chassis (@buildFruAreaData sample_calendar sample_inventory) = Some (23, [bytes_of_string "123a"; []]).
Proof. vm_compute. reflexivity. Qed.

(** A value of one character, after its prefix, is the end mark: the fields
    after it are lost. *)
Example single_character_ends_the_area :
  read_product (@buildFruAreaData sample_calendar {[ "Product" := {[ "Manufacturer" := bytes_of_string "A"; "Name" := bytes_of_string "BC" ]} ]}%string)
  = Some [] /\
  read_chassis (@buildFruAreaData sample_calendar {[ "Chassis" := {[ "Model Number" := bytes_of_string "0xA"; "Serial Number" := bytes_of_string "BC" ]} ]}%string)
  = Some (0, []).
Proof. split; vm_compute; reflexivity. Qed.
