(* ===== verification/HostQueue.v ===== *)
(** * The commands to the host

    [host-cmd-manager.cpp], [host-interface.cpp] and the handler of Read Event
    Message Buffer ([systemintfcmds.cpp]): commands for the host wait in a
    queue, the host is alerted, reads one after the other, and whoever asked for
    a command is told whether it was read.  Timers and signals are events. *)
From Stdlib Require Import ZArith Lia String.
From stdpp Require Import base list gmap strings.
From S2P Require Import Prelude.
Local Open Scope Z_scope.

Definition SEL_OEM_ID_0 : Z := 0x55.
Definition SEL_RECORD_TYPE_OEM : Z := 0xC0.
Definition SOFT_OFF : Z := 0x00.
Definition CMD_POWER : Z := 0x04.
Definition CMD_HEARTBEAT : Z := 0xFF.

(** [IpmiCmdData]: command and data. *)
Notation IpmiCmdData := (Z * Z)%type.
Inductive HostCommand := Heartbeat | SoftOff.
Inductive FirmwareCondition := Running | Off.
(** The two functions that are given as callbacks: the handler of the object,
    and the one of a question for the condition, by the number of the question. *)
Inductive CallBack := commandStatusHandler | hostAckCallback (question : nat).
Notation CommandHandler := (IpmiCmdData * CallBack)%type.

(** [timerRunning]: the timer of the manager.  [timerStarts]: whether its next
    starts succeed; when none is left they do.  [alerts]: the calls of
    [setAttention].  [signals]: the [CommandComplete] signals, oldest first.
    [hostConditions]: the value each question waits for, [ackTimers] its timer. *)
Record HostQueue := {
  workQueue : list CommandHandler; timerRunning : bool; timerStarts : list bool; alerts : nat;
  signals : list (HostCommand * bool); questions : nat;
  hostConditions : gmap nat FirmwareCondition; ackTimers : gset nat }.
#[export] Instance HostQueue_fields : Fields HostQueue := fun s =>
  {| workQueue := workQueue s; timerRunning := timerRunning s; timerStarts := timerStarts s; alerts := alerts s;
     signals := signals s; questions := questions s; hostConditions := hostConditions s; ackTimers := ackTimers s |}.
Definition new_Manager (starts : list bool) : HostQueue :=
  {| workQueue := []; timerRunning := false; timerStarts := starts; alerts := 0; signals := []; questions := 0;
     hostConditions := ∅; ackTimers := ∅ |}.

(** ** The host object *)
Definition intfCommand (cmd : Z) : option HostCommand :=
  if cmd =? CMD_HEARTBEAT then Some Heartbeat else if cmd =? CMD_POWER then Some SoftOff else None.
Definition ipmiCommand (c : HostCommand) : IpmiCmdData :=
  match c with Heartbeat => (CMD_HEARTBEAT, 0x00) | SoftOff => (CMD_POWER, SOFT_OFF) end.
Definition run_callback (f : CallBack) (cmd : IpmiCmdData) (status : bool) : M HostQueue unit :=
  match f with
  | commandStatusHandler =>
      match intfCommand (fst cmd) with
      | Some c => modify (fun s => s <| signals := signals s ++ [(c, status)] |>)
      | None => throw StdOutOfRange
      end
  | hostAckCallback k =>
      modify (fun s => s <| hostConditions := <[k := if status then Running else Off]> (hostConditions s) |>)
  end.

(** ** The manager *)
Definition timer_stop : M HostQueue unit := modify (fun s => s <| timerRunning := false |>).
Definition timer_start : M HostQueue bool :=
  let! s := get in
  match timerStarts s with
  | false :: l => put (s <| timerStarts := l |>) ;;; ret false
  | true :: l => put (s <| timerStarts := l |> <| timerRunning := true |>) ;;; ret true
  | [] => put (s <| timerRunning := true |>) ;;; ret true
  end.
Definition checkQueueAndAlertHost : M HostQueue unit :=
  let! s := get in
  match workQueue s with
  | [] => ret tt
  | _ :: _ =>
      let! ok := timer_start in
      if ok then modify (fun s => s <| alerts := S (alerts s) |>) else ret tt
  end.
Definition getNextCommand : M HostQueue IpmiCmdData :=
  timer_stop ;;;
  let! s := get in
  match workQueue s with
  | [] => ret (CMD_HEARTBEAT, 0x00)
  | (ipmiCmdData, f) :: l =>
      put (s <| workQueue := l |>) ;;;
      run_callback f ipmiCmdData true ;;;
      checkQueueAndAlertHost ;;;
      ret ipmiCmdData
  end.
(** The loop pops an entry before its callback; the callbacks push nothing. *)
Fixpoint clear_loop (fuel : nat) : M HostQueue unit :=
  let! s := get in
  match workQueue s with
  | [] => ret tt
  | (ipmiCmdData, f) :: l =>
      match fuel with
      | O => undef OutOfFuel
      | S fuel => put (s <| workQueue := l |>) ;;; run_callback f ipmiCmdData false ;;; clear_loop fuel
      end
  end.
Definition clearQueue : M HostQueue unit := let! s := get in clear_loop (length (workQueue s)).
(** The timer has expired and runs no more. *)
Definition hostTimeout : M HostQueue unit := timer_stop ;;; clearQueue.
Definition execute (command : CommandHandler) : M HostQueue unit :=
  modify (fun s => s <| workQueue := workQueue s ++ [command] |>) ;;;
  let! s := get in
  if (length (workQueue s) =? 1)%nat then checkQueueAndAlertHost else ret tt.

(** The transitions of the generated class: [None] for a string that is none. *)
Class Transitions := { is_transition_on : string -> option bool }.
Section Events.
Context {T : Transitions}.

Definition clearQueueOnPowerOn (transition : option string) : M HostQueue unit :=
  match transition with
  | None => ret tt
  | Some t =>
      match is_transition_on t with
      | None => throw InvalidArgument
      | Some true => clearQueue
      | Some false => ret tt
      end
  end.

(** ** Requests *)
Definition Host_execute (c : HostCommand) : M HostQueue unit := execute (ipmiCommand c, commandStatusHandler).
(** [currentFirmwareCondition] waits in a loop that runs the events; it is cut
    there. *)
Definition ask_condition : M HostQueue unit :=
  let! s := get in
  put (s <| questions := S (questions s) |>) ;;;
  execute (ipmiCommand Heartbeat, hostAckCallback (questions s)) ;;;
  modify (fun s' => s' <| ackTimers := {[questions s]} ∪ ackTimers s' |>).
Definition ack_expired (k : nat) : M HostQueue unit :=
  modify (fun s => s <| hostConditions := <[k := Off]> (hostConditions s) |> <| ackTimers := ackTimers s ∖ {[k]} |>).
Definition condition_ready (k : nat) : M HostQueue (option FirmwareCondition) :=
  let! s := get in
  match hostConditions s !! k with
  | Some v => put (s <| ackTimers := ackTimers s ∖ {[k]} |>) ;;; ret (Some v)
  | None => ret None
  end.
(** The record the host reads: an OEM entry of the event log with the command. *)
Definition ipmi_app_read_event : M HostQueue (list Z) :=
  let! hostCmd := getNextCommand in
  ret ([SEL_OEM_ID_0; SEL_OEM_ID_0; SEL_RECORD_TYPE_OEM; 0x41; 0xA7; 0x00; 0; 0; 0; 0; 0x3A;
        fst hostCmd; snd hostCmd; 0xFF; 0xFF; 0xFF]).

(** ** Events *)
Inductive Event :=
  | Execute (c : HostCommand) | Question | ReadEvent | HostTimeout | HostTransition (t : option string)
  | AckExpired (k : nat) | ConditionReady (k : nat).
(** An event that a timer or the loop can bring. *)
Definition enabled (e : Event) (s : HostQueue) : bool :=
  match e with
  | HostTimeout => timerRunning s
  | AckExpired k => bool_decide (k ∈ ackTimers s)
  | _ => true
  end.
Inductive Output := Nothing | Record16 (l : list Z) | Condition (c : option FirmwareCondition).
Definition step (e : Event) : M HostQueue Output :=
  match e with
  | Execute c => Host_execute c ;;; ret Nothing
  | Question => ask_condition ;;; ret Nothing
  | ReadEvent => let! l := ipmi_app_read_event in ret (Record16 l)
  | HostTimeout => hostTimeout ;;; ret Nothing
  | HostTransition t => clearQueueOnPowerOn t ;;; ret Nothing
  | AckExpired k => ack_expired k ;;; ret Nothing
  | ConditionReady k => let! c := condition_ready k in ret (Condition c)
  end.
End Events.
