(* ===== verification/HostQueueSpec.v ===== *)
(** * The commands to the host: properties

    Whoever asks for a command is told exactly once how it ended, in the order
    of the requests, and a host that does not read is given up. *)
From Stdlib Require Import ZArith Lia String.
From stdpp Require Import base list gmap strings.
From S2P Require Import Prelude HostQueue.
Local Open Scope Z_scope.

(** ** Callbacks *)
Definition good (h : CommandHandler) : Prop := exists c, fst h = ipmiCommand c.
(** The commands of the host object among the handlers of a queue. *)
Definition object_command (h : CommandHandler) : option HostCommand :=
  match snd h with commandStatusHandler => intfCommand (fst (fst h)) | hostAckCallback _ => None end.
Definition pending (q : list CommandHandler) : list HostCommand := omap object_command q.
Definition told (status : bool) (s : HostQueue) (h : CommandHandler) : HostQueue :=
  match snd h with
  | commandStatusHandler =>
      match intfCommand (fst (fst h)) with Some c => s <| signals := signals s ++ [(c, status)] |> | None => s end
  | hostAckCallback k => s <| hostConditions := <[k := if status then Running else Off]> (hostConditions s) |>
  end.
Lemma intfCommand_ipmiCommand c : intfCommand (fst (ipmiCommand c)) = Some c.
Proof. by destruct c. Qed.
Lemma callback_tells h status s : good h -> run_callback (snd h) (fst h) status s = Ret tt (told status s h).
Proof.
  destruct h as [cmd f]. intros [c Hc]. cbn [fst snd] in *. subst cmd. unfold told, run_callback. cbn [fst snd].
  rewrite intfCommand_ipmiCommand. by destruct f.
Qed.
Lemma told_parts status s h :
  workQueue (told status s h) = workQueue s /\ timerRunning (told status s h) = timerRunning s /\
  timerStarts (told status s h) = timerStarts s /\ questions (told status s h) = questions s /\
  signals (told status s h) = signals s ++ map (fun c => (c, status)) (pending [h]) /\
  (forall k, is_Some (hostConditions s !! k) -> is_Some (hostConditions (told status s h) !! k)) /\
  (forall k, snd h = hostAckCallback k -> is_Some (hostConditions (told status s h) !! k)).
Proof.
  destruct h as [cmd [|k]]; unfold told, pending; cbn [fst snd omap list_omap object_command].
  - destruct (intfCommand (fst cmd)); cbn; rewrite ?app_nil_r; repeat split; auto; by intros.
  - cbn. rewrite app_nil_r. repeat split; auto.
    + intros i Hi. destruct (decide (i = k)) as [->|Hne]; [rewrite lookup_insert_eq; eauto|by rewrite lookup_insert_ne].
    + intros i [= ->]. rewrite lookup_insert_eq. eauto.
Qed.

Lemma clear_loop_runs q s : Forall good q ->
  clear_loop (length q) (s <| workQueue := q |>) = Ret tt (foldl (told false) (s <| workQueue := [] |>) q).
Proof.
  intros Hq. revert s. induction Hq as [|[cmd f] q Hg Hq IH]; intros s; [done|].
  cbn [clear_loop length]. rewrite (bind_Ret get _ _ (s <| workQueue := (cmd, f) :: q |>) _) by done.
  change (workQueue (s <| workQueue := (cmd, f) :: q |>)) with ((cmd, f) :: q). cbv beta iota.
  rewrite (bind_Ret _ _ _ tt (s <| workQueue := q |>)) by done.
  rewrite (bind_Ret _ _ _ _ _ (callback_tells (cmd, f) false _ Hg)).
  cbn [foldl].
  assert (forall r, told false (s <| workQueue := r |>) (cmd, f) = (told false s (cmd, f)) <| workQueue := r |>) as E.
  { intros r. unfold told. cbn [fst snd]. destruct f; [|done]. by destruct (intfCommand (fst cmd)). }
  rewrite !E. apply IH.
Qed.
Lemma tell_all_parts status q s :
  let s' := foldl (told status) s q in
  workQueue s' = workQueue s /\ timerRunning s' = timerRunning s /\ timerStarts s' = timerStarts s /\ questions s' = questions s /\
  signals s' = signals s ++ map (fun c => (c, status)) (pending q) /\
  (forall k, is_Some (hostConditions s !! k) -> is_Some (hostConditions s' !! k)) /\
  (forall h k, h ∈ q -> snd h = hostAckCallback k -> is_Some (hostConditions s' !! k)).
Proof.
  revert s. induction q as [|h q IH]; intros s; cbn [foldl].
  - cbn. rewrite app_nil_r. repeat split; auto. intros h k Hh. by apply elem_of_nil in Hh.
  - destruct (told_parts status s h) as (A1 & A2 & A3 & A4 & A5 & A6 & A7).
    destruct (IH (told status s h)) as (B1 & B2 & B3 & B4 & B5 & B6 & B7). cbv zeta.
    rewrite B1, B2, B3, B4, B5, A5. repeat split; auto.
    + change (h :: q) with ([h] ++ q). unfold pending. by rewrite omap_app, map_app, app_assoc.
    + intros g k Hg Hk. apply elem_of_cons in Hg as [->|Hg]; [by apply B6, A7|by eapply B7].
Qed.

(** ** What an operation does *)

(** The handlers [d] at the front of the queue are told [status] and leave it,
    [added] joins it. *)
Record effect (s s' : HostQueue) (d added : list CommandHandler) (status : bool) : Prop := {
  eff_queue : exists r, workQueue s = d ++ r /\ workQueue s' = r ++ added;
  eff_signals : signals s' = signals s ++ map (fun c => (c, status)) (pending d);
  eff_kept : forall k, is_Some (hostConditions s !! k) -> is_Some (hostConditions s' !! k);
  eff_told : forall h k, h ∈ d -> snd h = hostAckCallback k -> is_Some (hostConditions s' !! k) }.
Definition starts_well (s : HostQueue) : Prop := Forall (fun b => b = true) (timerStarts s).
Definition watched (s : HostQueue) : Prop := starts_well s /\ (workQueue s <> [] -> timerRunning s = true).

Lemma alert_runs s : exists s', checkQueueAndAlertHost s = Ret tt s' /\ effect s s' [] [] true /\ questions s' = questions s /\
  (starts_well s -> watched s') /\ (workQueue s = [] -> s' = s).
Proof.
  assert (forall s', workQueue s' = workQueue s -> signals s' = signals s -> hostConditions s' = hostConditions s -> effect s s' [] [] true) as Same.
  { intros s' E1 E2 E3. split; [exists (workQueue s); by rewrite E1, app_nil_r|by rewrite E2, app_nil_r|by rewrite E3|].
    intros h k Hh. by apply elem_of_nil in Hh. }
  unfold checkQueueAndAlertHost. rewrite (bind_Ret get _ s s s) by done. destruct (workQueue s) as [|h q] eqn:Eq.
  - exists s. split; [done|]. split; [by apply Same|]. split; [done|]. split; [|done]. intros Hs. split; [done|congruence].
  - unfold timer_start, starts_well. destruct (timerStarts s) as [|[] l] eqn:El; cbn; unfold bind, get; rewrite El.
    all: eexists; split; [reflexivity|]; split; [by apply Same|]; split; [done|]; split; [|congruence].
    + intros _. split; [by unfold starts_well; cbn; rewrite El|done].
    + intros Hf. split; [by apply Forall_cons in Hf as [_ Hf]|done].
    + intros Hf. by apply Forall_cons in Hf as [Hf _].
Qed.
Lemma execute_runs h s : good h -> exists s', execute h s = Ret tt s' /\ effect s s' [] [h] true /\ questions s' = questions s /\
  (watched s -> watched s').
Proof.
  intros Hg. unfold execute. set (s1 := s <| workQueue := workQueue s ++ [h] |>).
  rewrite (bind_Ret _ _ s tt s1), (bind_Ret get _ s1 s1 s1) by done.
  assert (effect s s1 [] [h] true) as E1.
  { split; [by exists (workQueue s)|by rewrite app_nil_r|done|]. intros g k Hk. by apply elem_of_nil in Hk. }
  assert (length (workQueue s1) = S (length (workQueue s))) as El by (unfold s1; cbn; rewrite length_app; cbn; lia).
  destruct (Nat.eqb_spec (length (workQueue s1)) 1) as [H|H].
  - destruct (alert_runs s1) as (s' & E & [(r & A1 & A2) A3 A4 A5] & Hq & Hw & _). exists s'. split; [done|].
    cbn in A1, A2. rewrite app_nil_r in A2. split; [|split; [by rewrite Hq|intros [Hs _]; by apply Hw]].
    destruct E1 as [(r1 & B1 & B2) B3 B4 B5]. split; [exists r1; by rewrite A2, <- A1| |auto|auto].
    rewrite A3, B3. cbn. by rewrite !app_nil_r.
  - exists s1. split; [done|]. split; [done|]. split; [done|]. intros [Hs Hw]. split; [done|]. intros _. apply Hw.
    intros E0. apply H. by rewrite El, E0.
Qed.
Lemma next_runs s : Forall good (workQueue s) -> exists s', getNextCommand s =
    Ret (match workQueue s with [] => (CMD_HEARTBEAT, 0x00) | h :: _ => fst h end) s' /\
  effect s s' (take 1 (workQueue s)) [] true /\ questions s' = questions s /\ (starts_well s -> watched s') /\
  (workQueue s' = [] -> timerRunning s' = false).
Proof.
  intros Hg. unfold getNextCommand. set (s1 := s <| timerRunning := false |>).
  rewrite (bind_Ret timer_stop _ s tt s1), (bind_Ret get _ s1 s1 s1) by done.
  change (workQueue s1) with (workQueue s). destruct (workQueue s) as [|[cmd f] q] eqn:Eq.
  - exists s1. split; [done|]. split; [|by repeat split].
    split; [exists []; cbn; by rewrite Eq|by rewrite app_nil_r|done|]. intros h k Hh. by apply elem_of_nil in Hh.
  - apply Forall_cons in Hg as [Hg _]. set (s2 := s1 <| workQueue := q |>).
    rewrite (bind_Ret _ _ s1 tt s2) by done. rewrite (bind_Ret _ _ _ _ _ (callback_tells (cmd, f) true s2 Hg)).
    destruct (told_parts true s2 (cmd, f)) as (A1 & A2 & A3 & A4 & A5 & A6 & A7). set (s3 := told true s2 (cmd, f)) in *.
    destruct (alert_runs s3) as (s' & E & [(r & B1 & B2) B3 B4 B5] & Hq & Hw & H0). exists s'.
    rewrite (bind_Ret _ _ _ _ _ E). split; [done|]. cbn in B1, B2. rewrite app_nil_r in B2.
    split; [|split; [by rewrite Hq, A4|]].
    + split; [exists q; by rewrite Eq, app_nil_r, B2, <- B1, A1| |auto|].
      * rewrite B3. cbn [pending omap list_omap map]. by rewrite app_nil_r, A5.
      * intros h k Hh Hk. cbn in Hh. apply list_elem_of_singleton in Hh as ->. by apply B4, A7.
    + split; [intros Hs; apply Hw; unfold starts_well; by rewrite A3|].
      intros H. rewrite H0; [by rewrite A2|]. by rewrite B1, <- B2.
Qed.
Lemma clear_runs s : Forall good (workQueue s) -> exists s', clearQueue s = Ret tt s' /\ effect s s' (workQueue s) [] false /\
  questions s' = questions s /\ workQueue s' = [] /\ timerStarts s' = timerStarts s.
Proof.
  intros Hg. unfold clearQueue. rewrite (bind_Ret get _ s s s) by done.
  assert (clear_loop (length (workQueue s)) s = Ret tt (foldl (told false) (s <| workQueue := [] |>) (workQueue s))) as ->.
  { rewrite <- (clear_loop_runs _ _ Hg). f_equal. by destruct s. }
  eexists. split; [reflexivity|].
  destruct (tell_all_parts false (workQueue s) (s <| workQueue := [] |>)) as (A1 & A2 & A3 & A4 & A5 & A6 & A7).
  split; [|by rewrite A1, A3, A4]. split; [exists []; by rewrite A1, app_nil_r|done|done|done].
Qed.

(** ** Runs *)
Section Runs.
Context {T : Transitions}.

Definition requested (es : list Event) : list HostCommand :=
  omap (fun e => match e with Execute c => Some c | _ => None end) es.
(** The states after the events [es]; an event can end with an exception. *)
Inductive reachable (starts : list bool) : list Event -> HostQueue -> Prop :=
  | at_start : reachable starts [] (new_Manager starts)
  | after_event es e s o s' : reachable starts es s -> enabled e s = true -> step e s = Ret o s' -> reachable starts (es ++ [e]) s'
  | after_exception es e s x s' : reachable starts es s -> enabled e s = true -> step e s = Throw x s' ->
      reachable starts (es ++ [e]) s'.

Definition waits (s : HostQueue) (k : nat) : Prop := exists h, h ∈ workQueue s /\ snd h = hostAckCallback k.
Record Inv (es : list Event) (s : HostQueue) : Prop := {
  inv_good : Forall good (workQueue s);
  inv_told : map fst (signals s) ++ pending (workQueue s) = requested es;
  inv_asked : forall k, (k < questions s)%nat -> is_Some (hostConditions s !! k) \/ waits s k }.

Lemma map_fst_pair (l : list HostCommand) status : map (@fst HostCommand bool) (map (fun c => (c, status)) l) = l.
Proof. induction l; cbn; by f_equal. Qed.
Lemma effect_inv es es' s s' d added status : Inv es s -> effect s s' d added status -> Forall good added ->
  requested es' = requested es ++ pending added ->
  (forall k, (k < questions s')%nat -> (k < questions s)%nat \/ exists h, h ∈ added /\ snd h = hostAckCallback k) -> Inv es' s'.
Proof.
  intros [I1 I2 I3] [(r & E1 & E2) E3 E4 E5] Ha He Hq. split.
  - rewrite E2. rewrite E1 in I1. apply Forall_app in I1 as [_ I1]. by apply Forall_app.
  - rewrite He, <- I2, E3, E2, E1, map_app, map_fst_pair. unfold pending. rewrite !omap_app. by rewrite <- !app_assoc.
  - intros k Hk. destruct (Hq k Hk) as [Hk'|(h & Hh & Ek)].
    + destruct (I3 k Hk') as [H|(h & Hh & Ek)]; [left; auto|]. rewrite E1 in Hh. apply elem_of_app in Hh as [Hh|Hh].
      * left. by eapply E5.
      * right. exists h. rewrite E2, elem_of_app. auto.
    + right. exists h. rewrite E2, elem_of_app. auto.
Qed.
Lemma requested_other es e : (forall c, e <> Execute c) -> requested (es ++ [e]) = requested es ++ pending [].
Proof. intros H. unfold requested. rewrite omap_app. cbn. destruct e; try done. by destruct (H c). Qed.
(** A step other than a request. *)
Lemma other_inv es e s s' d status : Inv es s -> (forall c, e <> Execute c) -> effect s s' d [] status ->
  questions s' = questions s -> Inv (es ++ [e]) s'.
Proof.
  intros HI He Heff Hq. eapply effect_inv; [exact HI|exact Heff|constructor|by apply requested_other|]. rewrite Hq. auto.
Qed.
Lemma conditions_effect s s' : workQueue s' = workQueue s -> signals s' = signals s ->
  (forall k, is_Some (hostConditions s !! k) -> is_Some (hostConditions s' !! k)) -> effect s s' [] [] true.
Proof.
  intros E1 E2 H. split; [exists (workQueue s); by rewrite E1, app_nil_r|by rewrite E2, app_nil_r|done|].
  intros h k Hh. by apply elem_of_nil in Hh.
Qed.

Lemma cleared_inv es e s s1 : Inv es s -> (forall c, e <> Execute c) ->
  workQueue s1 = workQueue s -> signals s1 = signals s -> hostConditions s1 = hostConditions s -> questions s1 = questions s ->
  timerStarts s1 = timerStarts s ->
  exists s', clearQueue s1 = Ret tt s' /\ Inv (es ++ [e]) s' /\ (watched s -> watched s').
Proof.
  intros HI He E1 E2 E3 E4 E5. assert (Forall good (workQueue s1)) as Hg by (rewrite E1; apply HI).
  destruct (clear_runs s1 Hg) as (s' & E & [(r & A1 & A1') A2 A3 A4] & Hq & Hn & Hs). exists s'. split; [done|]. split.
  - eapply other_inv; [exact HI|done| |by rewrite Hq].
    split; [exists r; by rewrite <- E1|by rewrite A2, E2|by rewrite <- E3|exact A4].
  - intros [Hw _]. split; [unfold starts_well in *; by rewrite Hs, E5|by rewrite Hn].
Qed.
Lemma request_inv es c s : Inv es s -> exists s', Host_execute c s = Ret tt s' /\ Inv (es ++ [Execute c]) s' /\ (watched s -> watched s').
Proof.
  intros HI. destruct (execute_runs (ipmiCommand c, commandStatusHandler) s) as (s' & E & He & Hq & Hw); [by exists c|].
  exists s'. split; [done|]. split; [|done]. eapply effect_inv; [exact HI|exact He|constructor; [by exists c|done]| |by rewrite Hq; auto].
  unfold requested, pending. rewrite omap_app. cbn [omap list_omap object_command snd fst]. by rewrite intfCommand_ipmiCommand.
Qed.
Lemma question_inv es s : Inv es s -> exists s', ask_condition s = Ret tt s' /\ Inv (es ++ [Question]) s' /\ (watched s -> watched s').
Proof.
  intros HI. unfold ask_condition. set (s1 := s <| questions := S (questions s) |>).
  destruct (execute_runs (ipmiCommand Heartbeat, hostAckCallback (questions s)) s1) as (s' & E & [A1 A2 A3 A4] & Hq & Hw); [by exists Heartbeat|].
  exists (s' <| ackTimers := {[questions s]} ∪ ackTimers s' |>).
  split; [unfold bind at 1; unfold get; unfold bind at 1; unfold put; fold s1; by rewrite (bind_Ret _ _ _ _ _ E)|]. split; [|done].
  eapply effect_inv; [exact HI|split; [exact A1|exact A2|exact A3|exact A4]|constructor; [by exists Heartbeat|done]| |].
  - by rewrite requested_other by done.
  - intros k Hk. change (questions (s' <| ackTimers := _ |>)) with (questions s') in Hk. rewrite Hq in Hk. cbn in Hk.
    destruct (decide (k = questions s)) as [->|]; [right; eexists; split; [by apply list_elem_of_singleton|done]|left; lia].
Qed.

(** Every event runs; only a transition that is none ends with an exception. *)
Definition bad_transition (e : Event) : Prop := exists t, e = HostTransition (Some t) /\ is_transition_on t = None.
Lemma step_inv es s e : Inv es s ->
  (exists o s', step e s = Ret o s' /\ Inv (es ++ [e]) s' /\ (watched s -> watched s')) \/
  (bad_transition e /\ step e s = Throw InvalidArgument s).
Proof.
  intros HI. pose proof (inv_good _ _ HI) as Hg.
  assert (forall s', workQueue s' = workQueue s -> signals s' = signals s -> questions s' = questions s ->
    (forall k, is_Some (hostConditions s !! k) -> is_Some (hostConditions s' !! k)) -> (forall c, e <> Execute c) -> Inv (es ++ [e]) s') as Quiet.
  { intros s' E1 E2 E3 E4 He. by eapply other_inv; [exact HI|done|apply (conditions_effect s s')|]. }
  destruct e as [c| | | |t|k|k]; cbn [step].
  - left. destruct (request_inv es c s HI) as (s' & E & HI' & Hw). exists Nothing, s'. by rewrite (bind_Ret _ _ _ _ _ E).
  - left. destruct (question_inv es s HI) as (s' & E & HI' & Hw). exists Nothing, s'. by rewrite (bind_Ret _ _ _ _ _ E).
  - left. destruct (next_runs s Hg) as (s' & E & He & Hq & Hw & _). unfold ipmi_app_read_event.
    eexists _, s'. rewrite (bind_Ret _ _ _ _ s') by (by rewrite (bind_Ret _ _ _ _ _ E)). split; [reflexivity|].
    split; [|by intros [Hs _]; apply Hw]. by eapply other_inv.
  - left. unfold hostTimeout.
    destruct (cleared_inv es HostTimeout s (s <| timerRunning := false |>) HI ltac:(done) eq_refl eq_refl eq_refl eq_refl eq_refl) as (s' & E & H).
    exists Nothing, s'. by rewrite (bind_Ret _ _ s tt s').
  - unfold clearQueueOnPowerOn. destruct t as [t|]; [|left; exists Nothing, s; split; [done|]; split; [by apply Quiet|done]].
    destruct (is_transition_on t) as [[]|] eqn:Et; [| |right; split; [by exists t|done]].
    + left. destruct (cleared_inv es (HostTransition (Some t)) s s HI ltac:(done) eq_refl eq_refl eq_refl eq_refl eq_refl) as (s' & E & H).
      exists Nothing, s'. by rewrite (bind_Ret _ _ _ _ _ E).
    + left. exists Nothing, s. split; [done|]. split; [by apply Quiet|done].
  - left. exists Nothing. eexists. split; [reflexivity|]. split; [|done]. apply Quiet; try done.
    intros i Hi. cbn. destruct (decide (i = k)) as [->|]; [rewrite lookup_insert_eq; eauto|by rewrite lookup_insert_ne].
  - left. unfold condition_ready, bind, get. destruct (hostConditions s !! k) eqn:Ek; rewrite ?Ek.
    all: eexists; eexists; split; [reflexivity|]; split; [by apply Quiet|done].
Qed.
Lemma reachable_inv starts es s : reachable starts es s -> Inv es s.
Proof.
  induction 1 as [|es e s o s' _ IH _ E|es e s x s' _ IH _ E].
  - split; [constructor|done|cbn; lia].
  - destruct (step_inv es s e IH) as [(o' & s'' & E' & HI & _)|[_ E']]; rewrite E in E'; [by injection E' as _ ->|done].
  - destruct (step_inv es s e IH) as [(o' & s'' & E' & HI & _)|[(t & -> & _) E']]; rewrite E in E'; [done|]. injection E' as _ ->.
    eapply other_inv; [exact IH|done|by apply conditions_effect|done].
Qed.
Lemma reachable_watched starts es s : Forall (fun b => b = true) starts -> reachable starts es s -> watched s.
Proof.
  intros Hs. induction 1 as [|es e s o s' Hr IH _ E|es e s x s' Hr IH _ E]; [by split| |].
  all: destruct (step_inv es s e (reachable_inv _ _ _ Hr)) as [(o' & s'' & E' & _ & Hw)|[_ E']]; rewrite E in E'; try done.
  - injection E' as _ ->. auto.
  - by injection E' as _ ->.
Qed.

(** C19. Over every sequence of requests, reads of the
    host, expired timers and changes of the host's state: the signals that a
    command is complete, followed by the commands still queued, are exactly the
    commands requested, in their order; every question for the host's condition
    is answered or its heartbeat is still queued; and every event runs, except
    that a transition the interface does not know ends with an exception and
    changes nothing. *)
Theorem commands_complete_once starts es s : reachable starts es s ->
  map fst (signals s) ++ pending (workQueue s) = requested es /\
  (forall k, (k < questions s)%nat -> is_Some (hostConditions s !! k) \/ waits s k) /\
  (forall e, (exists o s', step e s = Ret o s') \/ (bad_transition e /\ step e s = Throw InvalidArgument s)).
Proof.
  intros Hr. pose proof (reachable_inv _ _ _ Hr) as HI. split; [apply HI|]. split; [apply HI|]. intros e.
  destruct (step_inv es s e HI) as [(o & s' & E & _)|H]; eauto.
Qed.

Definition record (h : CommandHandler) : Output :=
  Record16 [0x55; 0x55; 0xC0; 0x41; 0xA7; 0; 0; 0; 0; 0; 0x3A; fst (fst h); snd (fst h); 0xFF; 0xFF; 0xFF].
Lemma reads_drain q : forall s, workQueue s = q -> Forall good q -> watched s -> q <> [] ->
  exists s', mmap (fun _ => step ReadEvent) q s = Ret (map record q) s' /\ workQueue s' = [] /\ timerRunning s' = false /\
    signals s' = signals s ++ map (fun c => (c, true)) (pending q).
Proof.
  induction q as [|h q IH]; intros s Hq Hg Hw Hne; [done|]. cbn [mmap].
  assert (Forall good (workQueue s)) as Hg' by (by rewrite Hq).
  destruct (next_runs s Hg') as (s1 & E & [(r & A1 & A2) A3 _ _] & _ & Hw1 & Ht). rewrite Hq in E, A1, A3. change (take 1 (h :: q)) with [h] in A1, A3.
  rewrite (bind_Ret _ _ s (record h) s1).
  2: { cbn [step]. unfold ipmi_app_read_event. rewrite (bind_Ret _ _ _ _ s1) by (by rewrite (bind_Ret _ _ _ _ _ E)). done. }
  injection A1 as A1. rewrite app_nil_r, <- A1 in A2. apply Forall_cons in Hg as [_ Hg].
  assert (pending (h :: q) = pending [h] ++ pending q) as -> by (unfold pending; by rewrite <- omap_app).
  rewrite (map_app _ (pending [h])), app_assoc, <- A3.
  destruct q as [|g q].
  - exists s1. cbn [mmap]. rewrite (bind_Ret (ret []) _ s1 [] s1) by done. cbn. rewrite app_nil_r. auto.
  - destruct (IH s1 A2 Hg (Hw1 (proj1 Hw)) ltac:(done)) as (s' & E' & H). exists s'. by rewrite (bind_Ret _ _ _ _ _ E').
Qed.

(** C20. As long as timers can be started, whenever a
    command waits, the timer runs.  If it expires, every waiting command is
    completed as a failure; and if the host reads as often as commands wait, it
    gets exactly these commands, in their order, each as an OEM record of 16
    bytes, every one is completed as a success, and the timer is stopped. *)
Theorem pending_commands_answered starts es s : Forall (fun b => b = true) starts -> reachable starts es s -> workQueue s <> [] ->
  enabled HostTimeout s = true /\
  (exists s', step HostTimeout s = Ret Nothing s' /\ workQueue s' = [] /\
     signals s' = signals s ++ map (fun c => (c, false)) (pending (workQueue s))) /\
  (exists s', mmap (fun _ => step ReadEvent) (workQueue s) s = Ret (map record (workQueue s)) s' /\
     workQueue s' = [] /\ timerRunning s' = false /\
     signals s' = signals s ++ map (fun c => (c, true)) (pending (workQueue s))).
Proof.
  intros Hs Hr Hne. pose proof (reachable_inv _ _ _ Hr) as HI. pose proof (reachable_watched _ _ _ Hs Hr) as Hw.
  split; [by apply Hw|]. split.
  - set (s1 := s <| timerRunning := false |>).
    destruct (clear_runs s1 (inv_good _ _ HI)) as (s' & E & He & _ & Hn & _). exists s'. cbn [step].
    rewrite (bind_Ret hostTimeout _ s tt s'); [|unfold hostTimeout; by rewrite (bind_Ret timer_stop _ s tt s1)].
    split; [done|]. split; [done|]. apply He.
  - by apply reads_drain; [|apply HI|..].
Qed.
End Runs.

(** ** Samples *)
Definition sample_transitions : Transitions :=
  {| is_transition_on t := if String.eqb t "On" then Some true else if String.eqb t "Off" then Some false else None |}.
Definition sample_events : list Event := [Execute SoftOff; Question; Execute Heartbeat; ReadEvent].
Definition sample_queue : HostQueue :=
  match mmap (@step sample_transitions) sample_events (new_Manager []) with Ret _ s => s | _ => new_Manager [] end.
Lemma sample_reachable : @reachable sample_transitions [] sample_events sample_queue.
Proof.
  apply (after_event [] [Execute SoftOff; Question; Execute Heartbeat] ReadEvent
    (match mmap (@step sample_transitions) [Execute SoftOff; Question; Execute Heartbeat] (new_Manager []) with Ret _ s => s | _ => new_Manager [] end)
    (record (ipmiCommand SoftOff, commandStatusHandler))); [|reflexivity|vm_compute; reflexivity].
  apply (after_event [] [Execute SoftOff; Question] (Execute Heartbeat)
    (match mmap (@step sample_transitions) [Execute SoftOff; Question] (new_Manager []) with Ret _ s => s | _ => new_Manager [] end) Nothing);
    [|reflexivity|vm_compute; reflexivity].
  apply (after_event [] [Execute SoftOff] Question
    (match mmap (@step sample_transitions) [Execute SoftOff] (new_Manager []) with Ret _ s => s | _ => new_Manager [] end) Nothing);
    [|reflexivity|vm_compute; reflexivity].
  apply (after_event [] [] (Execute SoftOff) (new_Manager []) Nothing); [constructor|reflexivity|vm_compute; reflexivity].
Qed.
Lemma commands_complete_once_witness :
  map fst (signals sample_queue) ++ pending (workQueue sample_queue) = [SoftOff; Heartbeat] /\
  (forall k, (k < questions sample_queue)%nat -> is_Some (hostConditions sample_queue !! k) \/ waits sample_queue k) /\
  (forall e, (exists o s', @step sample_transitions e sample_queue = Ret o s') \/
     (@bad_transition sample_transitions e /\ @step sample_transitions e sample_queue = Throw InvalidArgument sample_queue)).
Proof. exact (@commands_complete_once sample_transitions [] sample_events sample_queue sample_reachable). Defined.
Lemma pending_commands_answered_witness :
  enabled HostTimeout sample_queue = true /\
  (exists s', @step sample_transitions HostTimeout sample_queue = Ret Nothing s' /\ workQueue s' = [] /\
     signals s' = signals sample_queue ++ map (fun c => (c, false)) (pending (workQueue sample_queue))) /\
  (exists s', mmap (fun _ => @step sample_transitions ReadEvent) (workQueue sample_queue) sample_queue =
       Ret (map record (workQueue sample_queue)) s' /\ workQueue s' = [] /\ timerRunning s' = false /\
     signals s' = signals sample_queue ++ map (fun c => (c, true)) (pending (workQueue sample_queue))).
Proof.
  apply (@pending_commands_answered sample_transitions [] sample_events sample_queue); [constructor|exact sample_reachable|].
  vm_compute. discriminate.
Defined.

(** If a timer cannot be started the host is not alerted, no timer runs, and the
    next command does not alert the host either: both stay queued. *)
Example failed_start_blocks_the_queue : exists s,
  mmap (@step sample_transitions) [Execute SoftOff; Execute SoftOff] (new_Manager [false]) = Ret [Nothing; Nothing] s /\
  length (workQueue s) = 2%nat /\ timerRunning s = false /\ alerts s = 0%nat.
Proof. eexists. split; [reflexivity|by vm_compute]. Qed.
(** A question whose own timer expires says that the host is off, although the
    host has just read the heartbeat, when both happen before the loop looks. *)
Example running_host_is_off : exists s,
  mmap (@step sample_transitions) [Question; ReadEvent; AckExpired 0; ConditionReady 0] (new_Manager []) =
  Ret [Nothing; record (ipmiCommand Heartbeat, hostAckCallback 0); Nothing; Condition (Some Off)] s.
Proof. eexists. vm_compute. reflexivity. Qed.
