(* ===== verification/Watchdog.v ===== *)
(** * The watchdog commands of the IPMI host service

    [app/watchdog.cpp] and [app/watchdog_service.cpp]: Set, Get and Reset
    Watchdog Timer over the D-Bus object of the watchdog daemon, with the cache
    of its service name and the single retry of a call to a stale name. *)
From Stdlib Require Import ZArith Lia String.
From stdpp Require Import base list gmap strings.
From S2P Require Import Prelude IpmiMessage IpmiDispatch.
Local Open Scope Z_scope.

(** The enumerations of the interface of the daemon. *)
Inductive Action := ActionNone | HardReset | PowerOff | PowerCycle.
Inductive TimerUse := Reserved | BIOSFRB2 | BIOSPOST | OSLoad | SMSOS | OEM.
#[export] Instance Action_eq_dec : EqDecision Action.
Proof. solve_decision. Defined.
#[export] Instance TimerUse_eq_dec : EqDecision TimerUse.
Proof. solve_decision. Defined.
Record Properties := {
  initialized : bool; enabled : bool; expireAction : Action; timerUse : TimerUse; expiredTimerUse : TimerUse;
  interval : Z; timeRemaining : Z }.
Inductive PropertyValue :=
  | Initialized (b : bool) | Enabled (b : bool) | ExpireAction (a : Action) | CurrentTimerUse (u : TimerUse)
  | ExpiredTimerUse (u : TimerUse) | Interval (ms : Z).

(** The daemon is another program: its properties, what setting one does, and
    [ResetTimeRemaining]. *)
Class Daemon := {
  daemon : Type;
  wd_properties : daemon -> Properties;
  wd_set : PropertyValue -> daemon -> daemon;
  wd_reset : bool -> daemon -> daemon }.

(** How a call ends: a reply, an error reply, an exception of the bus, or a
    reply that cannot be decoded. *)
Inductive Answer := Replied | MethodError | CallThrows | BadReply.
Definition InternalFailure : exn := RuntimeError "InternalFailure".

(** [answers], [lookups]: how the next calls of the daemon and of the mapper
    end; when none is left they succeed.  [commits]: the errors reported. *)
Record WatchdogState {D : Daemon} := {
  wd : daemon; answers : list Answer; lookups : list bool; cachedService : bool; commits : nat;
  lastCallSuccessful : bool; timerNotLogFlags : bool; timerUseExpirationFlags : Z; timerPreTimeoutInterrupt : Z }.
#[export] Instance WatchdogState_fields {D : Daemon} : Fields WatchdogState := fun s =>
  {| wd := wd s; answers := answers s; lookups := lookups s; cachedService := cachedService s; commits := commits s;
     lastCallSuccessful := lastCallSuccessful s; timerNotLogFlags := timerNotLogFlags s;
     timerUseExpirationFlags := timerUseExpirationFlags s; timerPreTimeoutInterrupt := timerPreTimeoutInterrupt s |}.

Section Watchdog.
Context {D : Daemon}.

(** ** watchdog_service.cpp *)

(** [newMethodCall] of the cache asks the mapper when the cache is not valid. *)
Definition getService : M WatchdogState unit :=
  let! s := get in
  if cachedService s then ret tt
  else
    put (s <| lookups := tail (lookups s) |>) ;;;
    if default true (head (lookups s)) then modify (fun s => s <| cachedService := true |>)
    else throw (RuntimeError "ERROR in mapper call").
Definition next_answer : M WatchdogState Answer :=
  let! s := get in
  put (s <| answers := tail (answers s) |>) ;;; ret (default Replied (head (answers s))).
(** A call, once more when the cached name was stale: then the cache is not valid
    any more, and there is no third call. *)
Fixpoint call_service {A} (fuel : nat) (reply : Answer -> M WatchdogState A) : M WatchdogState A :=
  match fuel with
  | O => undef OutOfFuel
  | S fuel =>
      let! s := get in
      let wasValid := cachedService s in
      getService ;;;
      let! a := next_answer in
      match a with
      | CallThrows => throw DBusError
      | MethodError =>
          modify (fun s => s <| cachedService := false |>) ;;;
          if wasValid then call_service fuel reply else throw InternalFailure
      | _ => reply a
      end
  end.
Definition decoded {A} (read : Properties -> A) (a : Answer) : M WatchdogState A :=
  match a with
  | BadReply => throw InternalFailure
  | _ => let! s := get in ret (read (wd_properties (wd s)))
  end.
Definition resetTimeRemaining (enableWatchdog : bool) : M WatchdogState unit :=
  call_service 2 (fun _ => modify (fun s => s <| wd := wd_reset enableWatchdog (wd s) |>)).
Definition getProperties : M WatchdogState Properties := call_service 2 (decoded (fun p => p)).
Definition getInitialized : M WatchdogState bool := call_service 2 (decoded initialized).
Definition setProperty (v : PropertyValue) : M WatchdogState unit :=
  call_service 2 (fun _ => modify (fun s => s <| wd := wd_set v (wd s) |>)).

(** ** watchdog.cpp *)
Definition reportError : M WatchdogState unit :=
  let! s := get in
  if negb (lastCallSuccessful s) then ret tt
  else put (s <| lastCallSuccessful := false |> <| commits := S (commits s) |>).
Definition success : M WatchdogState unit := modify (fun s => s <| lastCallSuccessful := true |>).
Definition WatchdogHandler (args res : tys) : Type :=
  Request -> interps args -> M WatchdogState (callback_result (Z * option (interps res))).
Definition respond {R : Type} (cc : Z) : M WatchdogState (callback_result (Z * option R)) := ret (Returned (cc, None)).
(** The handlers of the exceptions: an [InternalFailure] is reported, all are
    answered with an unspecified error. *)
Definition catching {R : Type} (m : M WatchdogState (callback_result (Z * option R))) : M WatchdogState (callback_result (Z * option R)) :=
  try m (fun e =>
    match e with
    | RuntimeError "InternalFailure" => reportError ;;; respond ccUnspecifiedError
    | _ => respond ccUnspecifiedError
    end).

Definition ccInvalidFieldRequest : Z := 0xCC.
Definition ccWatchdogNotInit : Z := 0x80.
Definition ipmiAppResetWatchdogTimer : WatchdogHandler TNil TNil := fun _ _ =>
  catching (
    let! init := getInitialized in
    if negb init then success ;;; respond ccWatchdogNotInit
    else resetTimeRemaining true ;;; success ;;; respond ccSuccess).

Definition wd_timeout_action_mask : Z := 0x3.
Definition wdTimerUseResTimer1 : Z := 0x0.
Definition wdTimerUseResTimer2 : Z := 0x6.
Definition wdTimerUseResTimer3 : Z := 0x7.
Definition wdTimeoutActionMax : Z := 3.
Definition wdTimeoutInterruptTimer : Z := 0x04.
Definition ipmiActionToWdAction (a : Z) : option Action :=
  if a =? 0 then Some ActionNone else if a =? 1 then Some HardReset else if a =? 2 then Some PowerOff
  else if a =? 3 then Some PowerCycle else None.
Definition ipmiTimerUseToWdTimerUse (u : Z) : TimerUse :=
  if u =? 1 then BIOSFRB2 else if u =? 2 then BIOSPOST else if u =? 3 then OSLoad else if u =? 4 then SMSOS
  else if u =? 5 then OEM else Reserved.
Definition wdActionToIpmiAction (a : Action) : Z :=
  match a with ActionNone => 0 | HardReset => 1 | PowerOff => 2 | PowerCycle => 3 end.
Definition wdTimerUseToIpmiTimerUse (u : TimerUse) : Z :=
  match u with Reserved => 0 | BIOSFRB2 => 1 | BIOSPOST => 2 | OSLoad => 3 | SMSOS => 4 | OEM => 5 end.

Definition set_watchdog_args : tys :=
  TCons (TFixed 3) (TCons (TFixed 3) (TCons TBool (TCons TBool (TCons (TFixed 3) (TCons (TFixed 1) (TCons (TFixed 3)
  (TCons (TFixed 1) (TCons (TUInt 1) (TCons (TBitset 8) (TCons (TUInt 2) TNil)))))))))).
Definition invalid_request (use reserved action reserved1 interrupt reserved2 expFlags : Z) : bool :=
  (use =? wdTimerUseResTimer1) || (use =? wdTimerUseResTimer2) || (use =? wdTimerUseResTimer3) ||
  (wdTimeoutActionMax <? action) || (interrupt =? wdTimeoutInterruptTimer) ||
  (negb (Z.lor reserved (Z.lor reserved1 reserved2) =? 0) || Z.testbit expFlags 0 || Z.testbit expFlags 6 || Z.testbit expFlags 7).
Definition ipmiSetWatchdogTimer : WatchdogHandler set_watchdog_args TNil :=
  fun _ '(use, (reserved, (dontStopTimer, (dontLog, (timeoutAction, (reserved1, (preTimeoutInterrupt, (reserved2,
          (preTimeoutInterval, (expFlagValue, (initialCountdown, _))))))))))) =>
  if invalid_request use reserved timeoutAction reserved1 preTimeoutInterrupt reserved2 expFlagValue
  then respond ccInvalidFieldRequest
  else if initialCountdown / 10 <? preTimeoutInterval then respond ccInvalidFieldRequest
  else
    modify (fun s => s <| timerNotLogFlags := dontLog |> <| timerPreTimeoutInterrupt := preTimeoutInterrupt |>) ;;;
    catching (
      (if dontStopTimer then ret tt else setProperty (Enabled false)) ;;;
      match ipmiActionToWdAction (Z.land timeoutAction wd_timeout_action_mask) with
      | None => respond ccInvalidFieldRequest
      | Some action =>
          setProperty (ExpireAction action) ;;;
          setProperty (CurrentTimerUse (ipmiTimerUseToWdTimerUse use)) ;;;
          setProperty (ExpiredTimerUse Reserved) ;;;
          modify (fun s => s <| timerUseExpirationFlags := Z.land (timerUseExpirationFlags s) (255 - expFlagValue) |>) ;;;
          setProperty (Interval (initialCountdown * 100)) ;;;
          resetTimeRemaining false ;;;
          setProperty (Initialized true) ;;;
          success ;;; respond ccSuccess
      end).

Definition get_watchdog_res : tys :=
  TCons (TFixed 3) (TCons (TFixed 3) (TCons TBool (TCons TBool (TCons (TFixed 3) (TCons (TFixed 1) (TCons (TFixed 3)
  (TCons (TFixed 1) (TCons (TUInt 1) (TCons (TBitset 8) (TCons (TUInt 2) (TCons (TUInt 2) TNil))))))))))).
(** [htole16] is the identity on the processor of the chassis manager. *)
Definition ipmiGetWatchdogTimer : WatchdogHandler TNil get_watchdog_res := fun _ _ =>
  catching (
    let! wd_prop := getProperties in
    let initialCountdown := u16 (interval wd_prop / 100) in
    let expired := negb (bool_decide (expiredTimerUse wd_prop = Reserved)) in
    (if expired
     then modify (fun s => s <| timerUseExpirationFlags :=
            Z.lor (timerUseExpirationFlags s) (Z.shiftl 1 (wdTimerUseToIpmiTimerUse (expiredTimerUse wd_prop))) |>)
     else ret tt) ;;;
    let! presentCountdown :=
      (if enabled wd_prop then ret (u16 (timeRemaining wd_prop / 100))
       else if negb expired then ret initialCountdown
       else modify (fun s => s <| timerNotLogFlags := false |>) ;;; ret 0) in
    success ;;;
    let! s := get in
    ret (Returned (ccSuccess, Some (wdTimerUseToIpmiTimerUse (timerUse wd_prop), (0, (enabled wd_prop, (timerNotLogFlags s,
      (wdActionToIpmiAction (expireAction wd_prop), (0, (timerPreTimeoutInterrupt s, (0, (0,
      (timerUseExpirationFlags s, (initialCountdown, (presentCountdown, tt))))))))))))))).

(** ** Registration ([apphandler.cpp]) *)
Definition register_watchdog (t : Tables WatchdogState) : Tables WatchdogState :=
  let reg cmd priv args res (h : WatchdogHandler args res) t :=
    snd (registerHandler prioOpenBmcBase 0x06 cmd priv (executeCallback args res h) t) in
  let t := reg 0x22 Privilege_Operator TNil TNil ipmiAppResetWatchdogTimer t in
  let t := reg 0x24 Privilege_Operator set_watchdog_args TNil ipmiSetWatchdogTimer t in
  reg 0x25 Privilege_User TNil get_watchdog_res ipmiGetWatchdogTimer t.
End Watchdog.
