(* ===== verification/WatchdogSpec.v ===== *)
(** * The watchdog commands: properties

    What Set Watchdog Timer sets, Get Watchdog Timer reads, from request bytes
    to response bytes; an access to the daemon makes at most two calls; errors
    are reported once between two successes. *)
From Stdlib Require Import ZArith Lia String.
From stdpp Require Import base list gmap strings.
From S2P Require Import Prelude IpmiMessage IpmiMessageSpec IpmiDispatch IpmiDispatchSpec Watchdog.
Local Open Scope Z_scope.

#[export] Instance Properties_fields : Fields Properties := fun p =>
  {| initialized := initialized p; enabled := enabled p; expireAction := expireAction p; timerUse := timerUse p;
     expiredTimerUse := expiredTimerUse p; interval := interval p; timeRemaining := timeRemaining p |}.

(** ** The daemon *)

(** The interface of the daemon: setting a property sets it and no other, except
    that an interval is not below the daemon's smallest; a reset starts the
    countdown again, if it runs or is asked to run. *)
Definition with_property (smallest : Z) (v : PropertyValue) (p : Properties) : Properties :=
  match v with
  | Initialized b => p <| initialized := b |>
  | Enabled b => p <| enabled := b |>
  | ExpireAction a => p <| expireAction := a |>
  | CurrentTimerUse u => p <| timerUse := u |>
  | ExpiredTimerUse u => p <| expiredTimerUse := u |>
  | Interval ms => p <| interval := Z.max smallest ms |>
  end.
(** All but the countdown. *)
Definition same_settings (p p' : Properties) : Prop := p' <| timeRemaining := 0 |> = p <| timeRemaining := 0 |>.
(** Reset, with the request to run or without. *)
Definition restarted (run : bool) (p : Properties) : Properties := p <| enabled := run || enabled p |>.
Class DaemonLaws (D : Daemon) := {
  smallest_interval : Z;
  set_law v d : same_settings (with_property smallest_interval v (wd_properties d)) (wd_properties (wd_set v d));
  set_initialized_law b d : timeRemaining (wd_properties (wd_set (Initialized b) d)) = timeRemaining (wd_properties d);
  reset_law b d : same_settings (restarted b (wd_properties d)) (wd_properties (wd_reset b d));
  reset_countdown b d : enabled (wd_properties (wd_reset b d)) = true ->
    timeRemaining (wd_properties (wd_reset b d)) = interval (wd_properties d) }.
#[export] Instance same_settings_equiv : Equivalence same_settings.
Proof. split; [by intros ?|by intros ? ? ?|]. intros ? ? ? H1 H2. unfold same_settings in *. by rewrite H2. Qed.
#[export] Instance with_property_proper k v : Proper (same_settings ==> same_settings) (with_property k v).
Proof. intros [] [] [=]. subst. by destruct v. Qed.
#[export] Instance restarted_proper b : Proper (same_settings ==> same_settings) (restarted b).
Proof. intros [] [] [=]. by subst. Qed.

Section Spec.
Context {D : Daemon} {DL : DaemonLaws D}.

(** ** Calls that succeed *)
Definition healthy (s : WatchdogState) : Prop := answers s = [] /\ lookups s = [].
Definition served (s : WatchdogState) (d : daemon) : WatchdogState := s <| cachedService := true |> <| wd := d |>.
Lemma served_served s d d' : served (served s d) d' = served s d'.
Proof. reflexivity. Qed.
Lemma access_Ret {A} n (reply : Answer -> M WatchdogState A) s : healthy s -> call_service (S n) reply s = reply Replied (served s (wd s)).
Proof.
  intros [Ha Hl]. destruct s as [w a l c k b1 b2 f i]. cbn in Ha, Hl. subst. cbn [call_service].
  unfold getService, next_answer, bind, get, put, modify, ret. by destruct c.
Qed.
Lemma setProperty_Ret v s : healthy s -> setProperty v s = Ret tt (served s (wd_set v (wd s))).
Proof. intros H. unfold setProperty. by rewrite access_Ret. Qed.
Lemma reset_Ret b s : healthy s -> resetTimeRemaining b s = Ret tt (served s (wd_reset b (wd s))).
Proof. intros H. unfold resetTimeRemaining. by rewrite access_Ret. Qed.
Lemma set_then {A} v (k : M WatchdogState A) s : healthy s -> (setProperty v ;;; k) s = k (served s (wd_set v (wd s))).
Proof. intros H. by rewrite (bind_Ret _ _ _ _ _ (setProperty_Ret v s H)). Qed.
Lemma reset_then {A} b (k : M WatchdogState A) s : healthy s -> (resetTimeRemaining b ;;; k) s = k (served s (wd_reset b (wd s))).
Proof. intros H. by rewrite (bind_Ret _ _ _ _ _ (reset_Ret b s H)). Qed.
Lemma modify_then {A} f (k : M WatchdogState A) s : (modify f ;;; k) s = k (f s).
Proof. reflexivity. Qed.
Lemma getProperties_Ret s : healthy s -> getProperties s = Ret (wd_properties (wd s)) (served s (wd s)).
Proof. intros H. unfold getProperties. by rewrite access_Ret. Qed.
Lemma catching_Ret {R : Type} (m : M WatchdogState (callback_result (Z * option R))) s r s' : m s = Ret r s' -> catching m s = Ret r s'.
Proof. intros E. unfold catching, try. by rewrite E. Qed.

(** ** Set, then get *)
Record valid_set (use action interrupt pre flags initial : Z) : Prop := {
  vs_use : 1 <= use <= 5; vs_action : 0 <= action <= 3; vs_interrupt : 0 <= interrupt < 8 /\ interrupt <> 4;
  vs_pre : 0 <= pre < 256 /\ pre <= initial / 10;
  vs_flags : 0 <= flags < 64 /\ Z.even flags = true; vs_initial : 0 <= initial < 65536 }.
Definition after_set (s : WatchdogState) (dontStop dontLog : bool) (use action interrupt flags initial : Z) : WatchdogState :=
  let a := default ActionNone (ipmiActionToWdAction action) in
  let d := if dontStop then wd s else wd_set (Enabled false) (wd s) in
  let d := wd_set (ExpiredTimerUse Reserved) (wd_set (CurrentTimerUse (ipmiTimerUseToWdTimerUse use)) (wd_set (ExpireAction a) d)) in
  let d := wd_set (Initialized true) (wd_reset false (wd_set (Interval (initial * 100)) d)) in
  (served s d) <| timerNotLogFlags := dontLog |> <| timerPreTimeoutInterrupt := interrupt |>
    <| timerUseExpirationFlags := Z.land (timerUseExpirationFlags s) (255 - flags) |> <| lastCallSuccessful := true |>.
Lemma valid_not_invalid use action interrupt pre flags initial : valid_set use action interrupt pre flags initial ->
  invalid_request use 0 action 0 interrupt 0 flags = false /\ (initial / 10 <? pre) = false /\
  Z.land action wd_timeout_action_mask = action /\ is_Some (ipmiActionToWdAction action).
Proof.
  intros [Hu Ha [Hi Hi4] [_ Hp] [Hf He] _]. split; [|split; [by apply Z.ltb_ge|split]].
  - unfold invalid_request, wdTimerUseResTimer1, wdTimerUseResTimer2, wdTimerUseResTimer3, wdTimeoutActionMax, wdTimeoutInterruptTimer.
    rewrite (proj2 (Z.eqb_neq use 0)), (proj2 (Z.eqb_neq use 6)), (proj2 (Z.eqb_neq use 7)), (proj2 (Z.ltb_ge 3 action)), (proj2 (Z.eqb_neq interrupt 4)) by lia.
    cbn [orb Z.lor Z.eqb negb]. rewrite Z.bit0_odd, <- Z.negb_even, He. cbn [negb orb].
    assert (forall k, 6 <= k -> Z.testbit flags k = false) as Hk.
    { intros k Hk. rewrite Z.testbit_false by lia. rewrite Z.div_small; [done|]. split; [lia|].
      apply Z.lt_le_trans with (2 ^ 6); [change (2 ^ 6) with 64; lia|apply Z.pow_le_mono_r; lia]. }
    by rewrite !Hk by lia.
  - change wd_timeout_action_mask with (2 ^ 2 - 1). rewrite land_mask by lia. apply Z.mod_small. lia.
  - unfold ipmiActionToWdAction. destruct (Z.eqb_spec action 0); [eauto|]. destruct (Z.eqb_spec action 1); [eauto|].
    destruct (Z.eqb_spec action 2); [eauto|]. destruct (Z.eqb_spec action 3); [eauto|lia].
Qed.
Lemma set_handler_runs request s use dontStop dontLog action interrupt pre flags initial :
  healthy s -> valid_set use action interrupt pre flags initial ->
  ipmiSetWatchdogTimer request (use, (0, (dontStop, (dontLog, (action, (0, (interrupt, (0, (pre, (flags, (initial, tt))))))))))) s =
  Ret (Returned (ccSuccess, None)) (after_set s dontStop dontLog use action interrupt flags initial).
Proof.
  intros Hh Hv. destruct (valid_not_invalid _ _ _ _ _ _ Hv) as (E1 & E2 & E3 & [a Ea]).
  unfold ipmiSetWatchdogTimer. rewrite E1, E2, E3, Ea.
  rewrite modify_then. apply catching_Ret. unfold after_set. rewrite Ea. cbn [default].
  set (s1 := s <| timerNotLogFlags := _ |> <| timerPreTimeoutInterrupt := _ |>).
  rewrite (bind_Ret _ _ s1 tt (if dontStop then s1 else served s1 (wd_set (Enabled false) (wd s1)))).
  2: { destruct dontStop; [done|]. by apply setProperty_Ret. }
  destruct dontStop; do 3 rewrite set_then by exact Hh; rewrite modify_then, set_then, reset_then, set_then by exact Hh; reflexivity.
Qed.

Lemma after_set_properties s dontStop dontLog use action interrupt pre flags initial :
  valid_set use action interrupt pre flags initial ->
  let p := wd_properties (wd (after_set s dontStop dontLog use action interrupt flags initial)) in
  wdActionToIpmiAction (expireAction p) = action /\ wdTimerUseToIpmiTimerUse (timerUse p) = use /\
  expiredTimerUse p = Reserved /\ initialized p = true /\ interval p = Z.max smallest_interval (initial * 100) /\
  enabled p = dontStop && enabled (wd_properties (wd s)) /\ (enabled p = true -> timeRemaining p = interval p).
Proof.
  intros Hv p. unfold p, after_set. cbn [wd served update].
  set (a := default ActionNone (ipmiActionToWdAction action)). set (u := ipmiTimerUseToWdTimerUse use).
  change (wd (_ <| lastCallSuccessful := true |>)) with
    (wd_set (Initialized true) (wd_reset false (wd_set (Interval (initial * 100)) (wd_set (ExpiredTimerUse Reserved)
      (wd_set (CurrentTimerUse u) (wd_set (ExpireAction a) (if dontStop then wd s else wd_set (Enabled false) (wd s)))))))).
  set (d := wd_set (Interval (initial * 100)) _).
  assert (same_settings ((if dontStop then wd_properties (wd s) else (wd_properties (wd s)) <| enabled := false |>)
    <| expireAction := a |> <| timerUse := u |> <| expiredTimerUse := Reserved |> <| interval := Z.max smallest_interval (initial * 100) |>)
    (wd_properties d)) as Hd.
  { unfold d. rewrite <- !set_law. by destruct dontStop; rewrite <- ?set_law. }
  assert (same_settings (with_property smallest_interval (Initialized true) (restarted false (wd_properties d)))
    (wd_properties (wd_set (Initialized true) (wd_reset false d)))) as Hp by (by rewrite <- set_law, <- reset_law).
  pose proof (set_initialized_law true (wd_reset false d)) as Ht. pose proof (reset_countdown false d) as Hr.
  pose proof (reset_law false d) as Hs.
  destruct (wd_properties (wd_set (Initialized true) (wd_reset false d))) as [pi pe pa pu px pv pt].
  destruct (wd_properties (wd_reset false d)) as [ri re ra ru rx rv rt]. destruct (wd_properties d) as [di de da du dx dv dt].
  cbn in Hp, Hs, Hd, Ht, Hr |- *. injection Hp as -> -> -> -> -> ->. injection Hs as -> -> -> -> -> ->.
  assert (da = a /\ du = u /\ dx = Reserved /\ dv = Z.max smallest_interval (initial * 100) /\
    de = dontStop && enabled (wd_properties (wd s))) as (-> & -> & -> & -> & ->) by (destruct dontStop; by injection Hd).
  destruct Hv as [Hu Ha _ _ _ _]. subst a u.
  assert (action = 0 \/ action = 1 \/ action = 2 \/ action = 3) as Hac by lia.
  assert (use = 1 \/ use = 2 \/ use = 3 \/ use = 4 \/ use = 5) as Huc by lia.
  split; [by destruct Hac as [->|[->|[->| ->]]]|]. split; [by destruct Huc as [->|[->|[->|[->| ->]]]]|].
  repeat split; try done. intros He. by rewrite Ht, Hr.
Qed.

Lemma get_handler_runs request s dontStop dontLog use action interrupt pre flags initial :
  healthy s -> valid_set use action interrupt pre flags initial -> smallest_interval <= 6553500 ->
  let s1 := after_set s dontStop dontLog use action interrupt flags initial in
  let count := Z.max smallest_interval (initial * 100) / 100 in
  ipmiGetWatchdogTimer request tt s1 =
  Ret (Returned (ccSuccess, Some (use, (0, (dontStop && enabled (wd_properties (wd s)), (dontLog, (action, (0, (interrupt, (0, (0,
    (Z.land (timerUseExpirationFlags s) (255 - flags), (count, (count, tt)))))))))))))) s1.
Proof.
  intros Hh Hv Hk s1 count.
  destruct (after_set_properties s dontStop dontLog use action interrupt pre flags initial Hv) as (Ea & Eu & Ex & _ & Ei & Ee & Et).
  fold s1 in Ea, Eu, Ex, Ei, Ee, Et. assert (healthy s1) as Hh1 by exact Hh.
  assert (u16 (interval (wd_properties (wd s1)) / 100) = count) as Ec.
  { rewrite Ei. unfold u16. apply Z.mod_small. destruct (vs_initial _ _ _ _ _ _ Hv). split; [apply Z.div_pos; lia|].
    apply Z.le_lt_trans with (6553500 / 100); [apply Z.div_le_mono; lia|reflexivity]. }
  unfold ipmiGetWatchdogTimer. apply catching_Ret. rewrite (bind_Ret _ _ _ _ _ (getProperties_Ret s1 Hh1)).
  rewrite Ex, bool_decide_eq_true_2 by done. cbn [negb]. rewrite Ec, Ea, Eu.
  destruct (enabled (wd_properties (wd s1))) eqn:En; [rewrite (Et eq_refl), Ec|]; rewrite <- Ee; reflexivity.
Qed.

(** ** From request bytes to response bytes *)
Section Bytes.
Context (q : ChannelQueries) (owners : Owners) (sender : string) (lun : Z) (options : gmap string Value) (cr : Credentials).
Hypothesis Hchannel : channelFromMessage q owners sender <> invalidChannel.
Hypothesis Hcredentials : credentials q (channelFromMessage q owners sender) options = Some cr.
Hypothesis Hoperator : Privilege_Operator <= c_priv cr.
Let run := executionEntry (register_watchdog no_tables) q owners sender 0x06 lun.

Lemma registered_set : handlerMap (register_watchdog no_tables) !! makeCmdKey 0x06 0x24 =
  Some {| ht_prio := prioOpenBmcBase; ht_priv := Privilege_Operator; ht_handler := executeCallback set_watchdog_args TNil ipmiSetWatchdogTimer |}.
Proof. reflexivity. Qed.
Lemma registered_get : handlerMap (register_watchdog no_tables) !! makeCmdKey 0x06 0x25 =
  Some {| ht_prio := prioOpenBmcBase; ht_priv := Privilege_User; ht_handler := executeCallback TNil get_watchdog_res ipmiGetWatchdogTimer |}.
Proof. reflexivity. Qed.

(** C18. When the daemon answers and keeps to its interface, a Set Watchdog
    Timer command with valid fields, by a caller of at least operator
    privilege, succeeds, and Get Watchdog Timer then returns the use, the
    action, the pretimeout interrupt and the "do not log" bit that were set;
    says that the timer runs exactly if it ran and was not to be stopped;
    returns the expiration flags less the ones that were cleared; as both
    countdowns the larger of the one that was set and the smallest interval of
    the daemon; and 0 as the pretimeout interval, whatever was set. *)
Theorem watchdog_set_get s dontStop dontLog use action interrupt pre flags initial set_data get_data :
  healthy s -> valid_set use action interrupt pre flags initial -> 0 <= timerUseExpirationFlags s < 256 -> smallest_interval <= 6553500 ->
  pack set_watchdog_args (use, (0, (dontStop, (dontLog, (action, (0, (interrupt, (0, (pre, (flags, (initial, tt))))))))))) (new_Payload []) =
    (true, set_data) ->
  pack TNil tt (new_Payload []) = (true, get_data) ->
  let count := Z.max smallest_interval (initial * 100) / 100 in
  exists s', run 0x24 (raw set_data) options s = Ret (0x07, lun, 0x24, ccSuccess, []) s' /\
    exists reply rest, run 0x25 (raw get_data) options s' = Ret (0x07, lun, 0x25, ccSuccess, reply) s' /\
      Request_unpack get_watchdog_res ((new_Payload reply) <| trailingOk := false |>) =
        Ret (inr (use, (0, (dontStop && enabled (wd_properties (wd s)), (dontLog, (action, (0, (interrupt, (0, (0,
          (Z.land (timerUseExpirationFlags s) (255 - flags), (count, (count, tt))))))))))))) rest.
Proof.
  intros Hh Hv Hf Hk Hset Hget count. pose proof Hv as [Hu Ha [Hi Hi4] [Hp _] [Hfl He] Hin].
  exists (after_set s dontStop dontLog use action interrupt flags initial). split.
  - refine (command_runs (register_watchdog no_tables) q owners sender 0x06 lun 0x24 options set_watchdog_args TNil ipmiSetWatchdogTimer cr
      prioOpenBmcBase Privilege_Operator _ None ccSuccess set_data s s _ Hchannel Hcredentials _ _ _ Hoperator _ _ Hset _ _).
    1-2: discriminate.
    + exact registered_set.
    + reflexivity.
    + by repeat split; cbn; lia.
    + reflexivity.
    + intros p. by apply set_handler_runs.
  - set (r := (use, (0, (dontStop && enabled (wd_properties (wd s)), _)))).
    assert (0 <= Z.land (timerUseExpirationFlags s) (255 - flags) < 256) as Hl.
    { rewrite <- (Z.mod_small (timerUseExpirationFlags s) (2 ^ 8)) by exact Hf.
      rewrite <- land_mask, <- Z.land_assoc, (Z.land_comm (2 ^ 8 - 1)), Z.land_assoc, land_mask by lia. by apply Z.mod_pos_bound. }
    assert (0 <= count < 65536) as Hc.
    { split; [apply Z.div_pos; lia|]. apply Z.le_lt_trans with (6553500 / 100); [apply Z.div_le_mono; lia|reflexivity]. }
    destruct (reply_read get_watchdog_res r) as [rest Hr]; [reflexivity|by repeat split; cbn; lia|].
    eexists _, rest. split; [|exact Hr].
    refine (command_runs (register_watchdog no_tables) q owners sender 0x06 lun 0x25 options TNil get_watchdog_res ipmiGetWatchdogTimer cr
      prioOpenBmcBase Privilege_User tt (Some r) ccSuccess get_data _ _ _ Hchannel Hcredentials _ _ _ _ _ _ Hget _ _).
    1-2: discriminate.
    + exact registered_get.
    + unfold Privilege_Operator, Privilege_User in *. lia.
    + reflexivity.
    + done.
    + reflexivity.
    + intros p. by apply get_handler_runs with pre.
Qed.
End Bytes.

(** ** Failures *)

(** A computation that returns or throws, and reports nothing. *)
Definition silent {A} (m : M WatchdogState A) : Prop :=
  forall s, match m s with
            | Ret _ s' | Throw _ s' => commits s' = commits s /\ lastCallSuccessful s' = lastCallSuccessful s
            | Undef _ => False
            end.
Lemma silent_bind {A B} (m : M WatchdogState A) (k : A -> M WatchdogState B) :
  silent m -> (forall a, silent (k a)) -> silent (bind m k).
Proof.
  intros Hm Hk s. specialize (Hm s). unfold bind. destruct (m s) as [a s1|e s1|f]; [|done..].
  specialize (Hk a s1). destruct (k a s1); [| |done]; destruct Hm, Hk; split; congruence.
Qed.
Lemma silent_modify f : (forall s, commits (f s) = commits s /\ lastCallSuccessful (f s) = lastCallSuccessful s) -> silent (modify f).
Proof. intros H s. apply H. Qed.
Lemma silent_ret {A} (a : A) : silent (ret a).
Proof. done. Qed.
Lemma silent_decoded {A} (read : Properties -> A) a : silent (decoded read a).
Proof. by destruct a. Qed.
(** An access makes at most two calls, the second one only when the name came
    from the cache. *)
Lemma silent_call {A} (reply : Answer -> M WatchdogState A) : (forall a, silent (reply a)) -> silent (call_service 2 reply).
Proof.
  intros Hr [w a l c k b1 b2 f i].
  assert (forall x st, commits st = k -> lastCallSuccessful st = b1 ->
    match reply x st with Ret _ s' | Throw _ s' => commits s' = k /\ lastCallSuccessful s' = b1 | Undef _ => False end) as H
    by (intros x st <- <-; apply Hr).
  destruct c, a as [|[] [|[] a]], l as [|[] l]; cbn; first [done|by apply H].
Qed.
Lemma silent_setProperty v : silent (setProperty v).
Proof. apply silent_call. intros a. by apply silent_modify. Qed.
Lemma silent_reset b : silent (resetTimeRemaining b).
Proof. apply silent_call. intros a. by apply silent_modify. Qed.
Lemma silent_getProperties : silent getProperties.
Proof. apply silent_call, silent_decoded. Qed.
Lemma silent_getInitialized : silent getInitialized.
Proof. apply silent_call, silent_decoded. Qed.

(** The commands, and what is left of an answer: the completion code. *)
Inductive command := ResetTimer | SetTimer (v : interps set_watchdog_args) | GetTimer.
Definition code {R : Type} (m : M WatchdogState (callback_result (Z * option R))) : M WatchdogState (callback_result Z) :=
  let! r := m in ret (match r with Returned (cc, _) => Returned cc | Raised t => Raised t end).
Definition run_command (request : Request) (c : command) : M WatchdogState (callback_result Z) :=
  match c with
  | ResetTimer => code (ipmiAppResetWatchdogTimer request tt)
  | SetTimer v => code (ipmiSetWatchdogTimer request v)
  | GetTimer => code (ipmiGetWatchdogTimer request tt)
  end.
(** The daemon answered: success, or "not initialised". *)
Definition served_code (cc : Z) : bool := (cc =? ccSuccess) || (cc =? ccWatchdogNotInit).
(** The errors reported, and the one that may still be. *)
Definition reports (s : WatchdogState) : nat := commits s + Nat.b2n (lastCallSuccessful s).
Definition counted (s : WatchdogState) (o : outcome WatchdogState (callback_result Z)) : Prop :=
  exists cc s', o = Ret (Returned cc) s' /\ (reports s' <= reports s + Nat.b2n (served_code cc))%nat /\ (commits s <= commits s')%nat.
(** What a handler does to the reports; [throws] tells whether it may throw. *)
Definition settles (throws : bool) {R : Type} (m : M WatchdogState (callback_result (Z * option R))) : Prop :=
  forall s, match m s with
            | Ret (Returned (cc, _)) s' => (reports s' <= reports s + Nat.b2n (served_code cc))%nat /\ (commits s <= commits s')%nat
            | Ret (Raised _) _ => False
            | Throw _ s' => throws = true /\ commits s' = commits s /\ lastCallSuccessful s' = lastCallSuccessful s
            | Undef _ => False
            end.
Lemma settles_bind {A} {R : Type} (m : M WatchdogState A) (k : A -> M WatchdogState (callback_result (Z * option R))) :
  silent m -> (forall a, settles true (k a)) -> settles true (bind m k).
Proof.
  intros Hm Hk s. specialize (Hm s). unfold bind. destruct (m s) as [a s1|e s1|f]; [|done..].
  specialize (Hk a s1). destruct Hm as [Hc Hl]. unfold reports in *. rewrite <- Hc, <- Hl. exact Hk.
Qed.
Lemma settles_respond t {R : Type} cc : settles t (R := R) (respond cc).
Proof. intros s. cbn. lia. Qed.
Lemma settles_served t {R : Type} cc (f : WatchdogState -> option R) : served_code cc = true ->
  settles t (success ;;; let! s := get in ret (Returned (cc, f s))).
Proof. intros E s. cbn. rewrite E. unfold reports. cbn. destruct (lastCallSuccessful s); cbn; lia. Qed.
Lemma settles_success t {R : Type} cc : served_code cc = true -> settles t (R := R) (success ;;; respond cc).
Proof. exact (settles_served t cc (fun _ => None)). Qed.
Lemma settles_report t {R : Type} : settles t (R := R) (reportError ;;; respond ccUnspecifiedError).
Proof.
  intros s. cbn. unfold reportError, reports, bind, get, put, ret. destruct (lastCallSuccessful s) eqn:E; cbn; rewrite ?E; cbn; lia.
Qed.
Lemma settles_catching {R : Type} (m : M WatchdogState (callback_result (Z * option R))) : settles true m -> settles false (catching m).
Proof.
  intros H s. specialize (H s). unfold catching, try. destruct (m s) as [a s1|e s1|f]; [done| |done]. destruct H as (_ & Hc & Hl).
  rewrite <- Hc, <- Hl. replace (reports s) with (reports s1) by (unfold reports; congruence). clear. revert s1.
  match goal with |- forall s1, match ?h s1 with _ => _ end => change (settles false h) end.
  repeat first [apply settles_respond | apply settles_report | case_match].
Qed.
Lemma settles_code {R : Type} (m : M WatchdogState (callback_result (Z * option R))) s : settles false m -> counted s (code m s).
Proof.
  intros H. specialize (H s). unfold code, counted, bind. destruct (m s) as [[[cc o]|] s1|e s1|f]; [by exists cc, s1|done|by destruct H|done].
Qed.
Create HintDb watchdog.
#[local] Hint Resolve silent_setProperty silent_reset silent_getProperties silent_getInitialized silent_ret settles_respond
  settles_catching : watchdog.
#[local] Hint Extern 2 (silent (modify _)) => (by apply silent_modify) : watchdog.
#[local] Hint Extern 2 (settles _ (success ;;; _)) => (by first [apply settles_success|apply settles_served]) : watchdog.
(** Follows a handler, branch by branch. *)
Ltac settle := repeat first
  [ progress (intros; auto 1 with watchdog)
  | apply settles_bind | apply silent_bind
  | match goal with
    | |- settles _ (if ?b then _ else _) => destruct b
    | |- silent (if ?b then _ else _) => destruct b
    | |- settles _ (match ?x with _ => _ end) => destruct x
    end ].
Lemma reset_settles request : settles false (ipmiAppResetWatchdogTimer request tt).
Proof. apply settles_catching. settle. Qed.
Lemma get_settles request : settles false (ipmiGetWatchdogTimer request tt).
Proof. apply settles_catching. settle. Qed.
Lemma set_settles request v : settles false (ipmiSetWatchdogTimer request v).
Proof.
  destruct v as (use & reserved & dontStop & dontLog & action & r1 & interrupt & r2 & pre & flags & initial & []).
  unfold ipmiSetWatchdogTimer. destruct (invalid_request _ _ _ _ _ _ _); [apply settles_respond|].
  destruct (_ <? _); [apply settles_respond|]. intros s. rewrite modify_then.
  match goal with |- context [catching ?m] => assert (settles false (catching m)) as H by (apply settles_catching; settle) end.
  exact (H _).
Qed.
Lemma run_command_counted request c s : counted s (run_command request c s).
Proof. destruct c; apply settles_code; [apply reset_settles|apply set_settles|apply get_settles]. Qed.

(** Whatever commands come, and however the calls of the
    daemon and of the mapper end, every command is answered with a completion
    code, and no more errors are reported than commands were served, and one more if the last
    command before was served: between two served commands an error is
    reported at most once. *)
Theorem watchdog_reports_once request cs s : exists ccs s',
  mmap (run_command request) cs s = Ret (map Returned ccs) s' /\ length ccs = length cs /\
  (commits s <= commits s' <= commits s + Nat.b2n (lastCallSuccessful s) + length (List.filter served_code ccs))%nat.
Proof.
  cut (exists ccs s', mmap (run_command request) cs s = Ret (map Returned ccs) s' /\ length ccs = length cs /\
    (commits s <= commits s')%nat /\ (reports s' <= reports s + length (List.filter served_code ccs))%nat).
  { intros (ccs & s' & E & El & Hc & Hr). exists ccs, s'. unfold reports in Hr. repeat split; [done|done|lia..]. }
  revert s. induction cs as [|c cs IH]; intros s; [by exists [], s; repeat split; cbn; lia|].
  destruct (run_command_counted request c s) as (cc & s1 & E1 & Hr1 & Hc1). destruct (IH s1) as (ccs & s2 & E2 & El & Hc2 & Hr2).
  exists (cc :: ccs), s2. cbn [mmap]. rewrite (bind_Ret _ _ _ _ _ E1), (bind_Ret _ _ _ _ _ E2). cbn [List.filter map length].
  repeat split; [by rewrite El|lia|]. destruct (served_code cc); cbn in *; lia.
Qed.
End Spec.

(** ** A sample *)
Definition sample_daemon : Daemon := {|
  daemon := Properties; wd_properties p := p; wd_set := with_property 1000;
  wd_reset b p := if b || enabled p then p <| enabled := true |> <| timeRemaining := interval p |> else p |}.
Definition sample_daemon_laws : DaemonLaws sample_daemon.
Proof.
  refine {| smallest_interval := 1000 : Z |}; [by intros|by intros|..]; intros b p; cbn; destruct (b || enabled p) eqn:E; try done.
  - by rewrite <- E.
  - unfold restarted. rewrite E. apply orb_false_elim in E as [_ E]. destruct p; cbn in *. by subst.
  - intros H. rewrite H, orb_true_r in E. done.
Defined.
Section Sample.
#[local] Existing Instances sample_daemon sample_daemon_laws.
(** A timer of five seconds that runs and has expired. *)
Definition sample_watchdog : WatchdogState :=
  {| wd := ({| initialized := true; enabled := true; expireAction := PowerOff; timerUse := OSLoad; expiredTimerUse := BIOSPOST;
               interval := 5000; timeRemaining := 100 |} : daemon);
     answers := []; lookups := []; cachedService := false; commits := 0; lastCallSuccessful := false;
     timerNotLogFlags := true; timerUseExpirationFlags := 4; timerPreTimeoutInterrupt := 0 |}.
Definition sample_wd_queries : ChannelQueries :=
  {| getChannelByName s := if String.eqb s "IPMB" then Some 0 else None; getChannelSessionSupport _ := 0; mediumType _ := 1 |}.
Definition sample_wd_owners : Owners := {[ "one"%string := 0 ]}.
Definition sample_set : list Z := [0x44; 0x01; 0x05; 0x04; 0x64; 0x00].

(** Set for the operating system's use, without stopping, hard reset, ten
    seconds; the flag of the expiration is cleared. *)
Lemma watchdog_set_get_witness : exists s',
  executionEntry (register_watchdog no_tables) sample_wd_queries sample_wd_owners "one" 0x06 0 0x24 sample_set ∅ sample_watchdog =
    Ret (0x07, 0, 0x24, ccSuccess, []) s' /\
  exists reply rest,
    executionEntry (register_watchdog no_tables) sample_wd_queries sample_wd_owners "one" 0x06 0 0x25 [] ∅ s' =
      Ret (0x07, 0, 0x25, ccSuccess, reply) s' /\
    Request_unpack get_watchdog_res ((new_Payload reply) <| trailingOk := false |>) =
      Ret (inr (4, (0, (true, (false, (1, (0, (0, (0, (0, (0, (100, (100, tt))))))))))))) rest.
Proof.
  apply (watchdog_set_get sample_wd_queries sample_wd_owners "one" 0 (∅ : gmap string Value)
    {| c_priv := Privilege_Admin; c_user := 0; c_session := 0; c_rqSA := 0; c_host := 0 |}
    ltac:(vm_compute; discriminate) ltac:(vm_compute; reflexivity) ltac:(vm_compute; discriminate)
    sample_watchdog true false 4 1 0 5 4 100 (new_Payload sample_set) (new_Payload [])).
  - done.
  - split; vm_compute; intuition congruence.
  - vm_compute. intuition congruence.
  - vm_compute. congruence.
  - vm_compute. reflexivity.
  - reflexivity.
Defined.

(** What a Set command that fails leaves behind: the "do not log" bit and the
    interrupt are the new ones, though nothing else was set. *)
Example failed_set_leaves_flags :
  let s := sample_watchdog <| answers := [MethodError; MethodError] |> <| cachedService := true |> in
  match executionEntry (register_watchdog no_tables) sample_wd_queries sample_wd_owners "one" 0x06 0 0x24
          [0x84; 0x11; 0x01; 0x04; 0x64; 0x00] ∅ s with
  | Ret r s' => r = (0x07, 0, 0x24, ccUnspecifiedError, []) /\ wd s' = wd s /\ timerPreTimeoutInterrupt s' = 1
  | _ => False
  end.
Proof. vm_compute. repeat split. Qed.
(** A pretimeout is accepted, and read as zero. *)
Example pretimeout_is_dropped :
  match executionEntry (register_watchdog no_tables) sample_wd_queries sample_wd_owners "one" 0x06 0 0x24
          [0x44; 0x11; 0x05; 0x04; 0x64; 0x00] ∅ sample_watchdog with
  | Ret _ s' =>
      match executionEntry (register_watchdog no_tables) sample_wd_queries sample_wd_owners "one" 0x06 0 0x25 [] ∅ s' with
      | Ret (_, reply) _ => nth_error reply 2 = Some 0
      | _ => False
      end
  | _ => False
  end.
Proof. vm_compute. reflexivity. Qed.
End Sample.
