(* ===== verification/SystemInfo.v ===== *)
(** * The system information parameters of the IPMI host service

    [sys_info_param.cpp] and Get and Set System Info Parameters in
    [apphandler.cpp]: strings that are written and read in blocks, in a store of
    callbacks. *)
From Stdlib Require Import ZArith Lia String.
From stdpp Require Import base list gmap strings.
From S2P Require Import Prelude IpmiMessage IpmiDispatch.
Local Open Scope Z_scope.

Definition oemCmdStart : Z := 192.
Definition oemCmdEnd : Z := 255.
Definition invalidParamSelectorStart : Z := 8.
Definition invalidParamSelectorEnd : Z := 191.
Definition IPMI_SYSINFO_SYSTEM_NAME : Z := 0x02.
Definition HOST_NAME_MAX : nat := 64.
Definition paramRevision : Z := 0x11.
Definition configParameterLength : nat := 16.
Definition smallChunkSize : nat := 14.
Definition fullChunkSize : nat := 16.
Definition progressMask : Z := 0x3.
Definition setComplete : Z := 0x0.
Definition setInProgress : Z := 0x1.
Definition configDataOverhead : nat := 2.
Definition ccParmNotSupported : Z := 0x80.
Definition ccSetInProgressActive : Z := 0x81.
Definition ccParmOutOfRange : Z := 0xC9.
Definition ccSensorInvalid : Z := 0xCB.
Definition ccInvalidFieldRequest : Z := 0xCC.

(** The callbacks that are stored: one that returns a copy of a string, and the
    one that asks for the host name. *)
Inductive Callback := Fixed (s : list Z) | SysInfoReadSystemName.
(** [hostname]: what [gethostname] writes, whether it succeeds or not. *)
Record SystemInfo := { params : option (gmap Z Callback); transferStatus : Z; hostname : list Z }.
#[export] Instance SystemInfo_fields : Fields SystemInfo := fun s =>
  {| params := params s; transferStatus := transferStatus s; hostname := hostname s |}.

(** ** The store *)
Fixpoint until_zero (l : list Z) : list Z :=
  match l with [] => [] | c :: l => if c =? 0 then [] else c :: until_zero l end.
Definition sysInfoReadSystemName (s : SystemInfo) : list Z := until_zero (take HOST_NAME_MAX (hostname s)).
Definition callback (s : SystemInfo) (c : Callback) : list Z :=
  match c with Fixed l => l | SysInfoReadSystemName => sysInfoReadSystemName s end.
(** The store is made by the first command that needs it. *)
Definition sysInfoParamStore (s : SystemInfo) : gmap Z Callback :=
  default {[ IPMI_SYSINFO_SYSTEM_NAME := SysInfoReadSystemName ]} (params s).
Definition open_store : M SystemInfo unit := modify (fun s => s <| params := Some (sysInfoParamStore s) |>).
Definition lookup (paramSelector : Z) (s : SystemInfo) : option (list Z) := callback s <$> sysInfoParamStore s !! paramSelector.
Definition update (paramSelector : Z) (l : list Z) (s : SystemInfo) : SystemInfo :=
  s <| params := Some (<[paramSelector := Fixed l]> (sysInfoParamStore s)) |>.

(** ** Get System Info Parameters *)
Definition InfoHandler (args res : tys) : Type :=
  Request -> interps args -> M SystemInfo (callback_result (Z * option (interps res))).
Definition info_response {R : Type} (cc : Z) : M SystemInfo (callback_result (Z * option R)) := ret (Returned (cc, None)).
Definition info_success {R : Type} (r : R) : M SystemInfo (callback_result (Z * option R)) := ret (Returned (ccSuccess, Some r)).

Definition get_info_args : tys := TCons (TFixed 7) (TCons TBool (TCons (TUInt 1) (TCons (TUInt 1) (TCons (TUInt 1) TNil)))).
Definition get_info_res : tys := TCons (TUInt 1) (TCons (TOpt (TUInt 1)) (TCons (TOpt TByteVec) TNil)).
Definition invalid_parameter (paramSelector : Z) : bool :=
  (invalidParamSelectorStart <=? paramSelector) && (paramSelector <=? invalidParamSelectorEnd).
Definition oem_parameter (paramSelector : Z) : bool := (oemCmdStart <=? paramSelector) && (paramSelector <=? oemCmdEnd).
(** The first block: the encoding, the length and 14 characters. *)
Definition first_block (paramString : list Z) : list Z :=
  let count := Nat.min (length paramString) smallChunkSize in
  resize configParameterLength ([0; u8 (Z.of_nat (length paramString))] ++ take count paramString).
Definition block_offset (setSelector : Z) : nat := (Z.to_nat setSelector * fullChunkSize - configDataOverhead)%nat.
Definition ipmiAppGetSystemInfo : InfoHandler get_info_args get_info_res :=
  fun _ '(reserved, (getRevision, (paramSelector, (setSelector, (BlockSelector, _))))) =>
  if negb (reserved =? 0) || invalid_parameter paramSelector then info_response ccInvalidFieldRequest
  else if oem_parameter paramSelector then info_response ccParmNotSupported
  else if (getRevision : bool) then info_success (paramRevision, (None, (None, tt)))
  else if paramSelector =? 0 then let! s := get in info_success (paramRevision, (Some (transferStatus s), (None, tt)))
  else if negb (BlockSelector =? 0) then info_response ccParmNotSupported
  else
    open_store ;;;
    let! s := get in
    match lookup paramSelector s with
    | None => info_response ccSensorInvalid
    | Some paramString =>
        if setSelector =? 0
        then info_success (paramRevision, (Some setSelector, (Some (first_block paramString), tt)))
        else
          let offset := block_offset setSelector in
          if (length paramString <=? offset)%nat then info_response ccParmOutOfRange
          else
            let count := Nat.min (length paramString - offset) fullChunkSize in
            info_success (paramRevision, (Some setSelector, (Some (slice paramString offset count), tt)))
    end.

(** ** Set System Info Parameters *)
Definition set_info_args : tys := TCons (TUInt 1) (TCons (TUInt 1) (TCons TByteVec TNil)).
Definition set_progress (data1 : Z) : M SystemInfo (callback_result (Z * option unit)) :=
  let! s := get in
  if negb (transferStatus s =? setComplete) && (data1 =? setInProgress) then info_response ccSetInProgressActive
  else if setInProgress <? data1 then info_response ccInvalidFieldRequest
  else put (s <| transferStatus := Z.land data1 progressMask |>) ;;; info_response ccSuccess.
(** [std::copy_n] of [count] bytes over those of the string from an offset on. *)
Definition write_block (offset count : nat) (data paramString : list Z) : list Z :=
  list_inserts offset (take count data) paramString.
Definition ipmiAppSetSystemInfo : InfoHandler set_info_args TNil :=
  fun _ '(paramSelector, (data1, (configData, _))) =>
  if invalid_parameter paramSelector then info_response ccInvalidFieldRequest
  else if oem_parameter paramSelector then info_response ccParmNotSupported
  else if paramSelector =? 0 then set_progress data1
  else if (configParameterLength <? length configData)%nat then info_response ccInvalidFieldRequest
  else
    let configData := resize configParameterLength configData in
    open_store ;;;
    let! s := get in
    let paramString := default [] (lookup paramSelector s) in
    let setSelector := data1 in
    if setSelector =? 0
    then
      let stringLen := Z.to_nat (nth 1 configData 0) in
      let count := Nat.min (Nat.min stringLen smallChunkSize) (length configData) in
      modify (update paramSelector (write_block 0 count (drop configDataOverhead configData) (resize stringLen paramString))) ;;;
      info_response ccSuccess
    else
      let offset := block_offset setSelector in
      if (length paramString <=? offset)%nat then info_response ccParmOutOfRange
      else
        let count := Nat.min (length paramString - offset) (length configData) in
        modify (update paramSelector (write_block offset count configData paramString)) ;;;
        info_response ccSuccess.

(** ** Registration *)
Definition register_system_info (t : Tables SystemInfo) : Tables SystemInfo :=
  let reg cmd priv args res (h : InfoHandler args res) t :=
    snd (registerHandler prioOpenBmcBase 0x06 cmd priv (executeCallback args res h) t) in
  let t := reg 0x59 Privilege_User get_info_args get_info_res ipmiAppGetSystemInfo t in
  reg 0x58 Privilege_Admin set_info_args TNil ipmiAppSetSystemInfo t.
