(* ===== verification/SystemInfoSpec.v ===== *)
(** * The system information parameters: properties

    A string that is written block by block is read back block by block; a
    block behind the end of the string is refused and changes nothing. *)
From Stdlib Require Import ZArith Lia String.
From stdpp Require Import base list gmap strings.
From S2P Require Import Prelude CxxStd IpmiMessage IpmiMessageSpec IpmiDispatch IpmiDispatchSpec SystemInfo.
Local Open Scope Z_scope.

(** ** Blocks of a string *)

(** The number of the last block, the block of a place, and the blocks as a
    client writes them. *)
Definition last_block (s : list Z) : nat := (length s + 1) / 16.
Definition block_of (i : nat) : nat := (i + 2) / 16.
Definition chunk (s : list Z) (k : nat) : list Z :=
  match k with
  | O => [0; Z.of_nat (length s)] ++ take 14 s
  | _ => slice s (16 * k - 2) 16
  end.
(** The text a client makes of the blocks it has read. *)
Definition client_text (blocks : list (list Z)) : list Z :=
  let all := concat blocks in take (Z.to_nat (nth 1 all 0)) (drop 2 all).
(** As the service answers. *)
Definition answer (s : list Z) (k : nat) : list Z :=
  match k with
  | O => first_block s
  | _ => slice s (16 * k - 2) (Nat.min (length s - (16 * k - 2)) 16)
  end.
Definition fits (s : list Z) : Prop := bytes s /\ (length s <= 255)%nat.

Lemma slice_min {A} (l : list A) i n : slice l i (Nat.min (length l - i) n) = slice l i n.
Proof.
  unfold slice. destruct (Nat.min_spec (length l - i) n) as [[? ->]|[? ->]]; [|done].
  rewrite !take_ge; [done|rewrite length_drop; lia..].
Qed.
Lemma blocks_up_to s n : fits s ->
  concat (map (answer s) (seq 0 (S n))) = [0; Z.of_nat (length s)] ++ take (14 + 16 * n) s ++ replicate (14 - length s) 0.
Proof.
  intros [_ Hl]. induction n as [|n IH].
  - cbn [seq map concat]. rewrite app_nil_r. unfold answer, first_block, resize, configParameterLength, smallChunkSize.
    rewrite take_ge by (rewrite length_app, length_take; cbn; lia). rewrite <- app_assoc. f_equal.
    { unfold u8. by rewrite Z.mod_small by lia. }
    rewrite length_app, length_take. cbn [length]. change (14 + 16 * 0)%nat with 14%nat. f_equal; [|f_equal; lia].
    destruct (Nat.min_spec (length s) 14) as [[? ->]|[? ->]]; [by rewrite !take_ge by lia|done].
  - rewrite seq_S, map_app, concat_app, IH. cbn [plus map concat]. rewrite app_nil_r. cbn [answer].
    rewrite slice_min. unfold slice. replace (16 * S n - 2)%nat with (14 + 16 * n)%nat by lia.
    rewrite <- !app_assoc. f_equal. 
    destruct (decide (length s <= 14 + 16 * n)%nat) as [H|H].
    + rewrite !(take_ge s), drop_ge by lia. by rewrite take_nil, app_nil_r.
    + replace (14 - length s)%nat with 0%nat by lia. cbn [replicate app]. rewrite !app_nil_r.
      etransitivity; [apply take_take_drop|]. f_equal. lia.
Qed.
Lemma answers_join s : fits s -> client_text (map (answer s) (seq 0 (S (last_block s)))) = s.
Proof.
  intros Hs. unfold client_text. rewrite blocks_up_to by done. cbn [app nth drop]. rewrite Nat2Z.id, drop_0.
  rewrite (take_ge s); [by rewrite take_app_length|]. unfold last_block. pose proof (Nat.div_mod_eq (length s + 1) 16).
  pose proof (Nat.mod_upper_bound (length s + 1) 16). lia.
Qed.

(** ** Writing *)

(** [t] has the length of [s] and its characters in the blocks of [W]. *)
Definition agrees (s t : list Z) (W : list nat) : Prop :=
  length t = length s /\ forall i, (i < length s)%nat -> block_of i ∈ W -> t !! i = s !! i.
Lemma agrees_all s t W : agrees s t W -> (forall k, (k <= last_block s)%nat -> k ∈ W) -> t = s.
Proof.
  intros [Hl Ht] HW. apply list_eq. intros i. destruct (decide (i < length s)%nat) as [H|H].
  - apply Ht; [done|]. apply HW. unfold block_of, last_block. apply Nat.Div0.div_le_mono. lia.
  - rewrite !lookup_ge_None_2 by lia. done.
Qed.
Lemma write_block_lookup off d t i : (off + length d <= length t)%nat ->
  write_block off (length d) d t !! i = if decide (off <= i < off + length d)%nat then d !! (i - off)%nat else t !! i.
Proof.
  intros H. unfold write_block. rewrite take_ge by done. case_decide as Hi.
  - rewrite list_lookup_inserts by lia. done.
  - destruct (decide (i < off)%nat); [by rewrite list_lookup_inserts_lt|]. by rewrite list_lookup_inserts_ge by lia.
Qed.
Lemma write_agrees s t W k : agrees s t W -> (1 <= k <= last_block s)%nat ->
  let off := (16 * k - 2)%nat in
  (off < length t)%nat /\ agrees s (write_block off (Nat.min (length t - off) 16) (resize 16 (slice s off 16)) t) (k :: W).
Proof.
  intros [Hl Ht] Hk off.
  assert (off < length s)%nat as Ho.
  { unfold off, last_block in *. pose proof (Nat.div_mod_eq (length s + 1) 16). lia. }
  split; [lia|]. set (n := Nat.min (length t - off) 16).
  assert (write_block off n (resize 16 (slice s off 16)) t = write_block off (length (slice s off n)) (slice s off n) t) as ->.
  { unfold write_block. f_equal. rewrite (take_ge (slice s off n)) by done. unfold resize, slice, n.
    rewrite take_app_le by (rewrite !length_take, length_drop; lia). rewrite !take_take. f_equal. lia. }
  assert (length (slice s off n) = n) as Hn by (apply slice_length; lia).
  split.
  - unfold write_block. by rewrite length_inserts.
  - intros i Hi Hin. rewrite write_block_lookup by lia. case_decide as Hr.
    + unfold slice. rewrite lookup_take_lt by lia. rewrite lookup_drop. f_equal. lia.
    + apply elem_of_cons in Hin as [<-|Hin]; [|by apply Ht]. exfalso. apply Hr. unfold off, block_of in *.
      pose proof (Nat.div_mod_eq (i + 2) 16). pose proof (Nat.mod_upper_bound (i + 2) 16). lia.
Qed.
Lemma first_agrees s t : fits s ->
  agrees s (write_block 0 (Nat.min (Nat.min (length s) 14) 16) (drop 2 (resize 16 (chunk s 0))) (resize (length s) t)) [0%nat].
Proof.
  intros [_ Hs]. cbn [chunk]. set (n := Nat.min _ 16). set (r := resize (length s) t).
  assert (length r = length s) as Hr by (unfold r, resize; rewrite length_app, length_take, length_replicate; lia).
  assert (write_block 0 n (drop 2 (resize 16 ([0; Z.of_nat (length s)] ++ take 14 s))) r = write_block 0 (length (take n s)) (take n s) r) as ->.
  { unfold write_block. f_equal. rewrite (take_ge (take n s)) by done. unfold resize. cbn [app length].
    rewrite (take_ge (_ :: _ :: _)) by (cbn [length]; rewrite length_take; lia). cbn [app drop]. rewrite drop_0, take_app_le by (rewrite length_take; lia).
    rewrite take_take. f_equal. lia. }
  split; [unfold write_block; by rewrite length_inserts|]. intros i Hi Hin. apply list_elem_of_singleton in Hin.
  assert (i < 14)%nat by (unfold block_of in Hin; pose proof (Nat.div_mod_eq (i + 2) 16); pose proof (Nat.mod_upper_bound (i + 2) 16); lia).
  rewrite write_block_lookup by (rewrite length_take; lia). rewrite length_take.
  rewrite decide_True by lia. rewrite lookup_take_lt by lia. f_equal. lia.
Qed.

(** ** The store *)
Definition value (p : Z) (st : SystemInfo) : list Z := default [] (lookup p st).
(** All but one parameter stands. *)
Record only (p : Z) (st st' : SystemInfo) : Prop := {
  only_params q : q <> p -> lookup q st' = lookup q st;
  only_progress : transferStatus st' = transferStatus st; only_host : hostname st' = hostname st }.
#[export] Instance only_preorder p : PreOrder (only p).
Proof. split; [by intros ?|]. intros ? ? ? [H1 H2 H3] [G1 G2 G3]. split; [intros q Hq; by rewrite G1, H1|congruence..]. Qed.
Definition opened (st : SystemInfo) : SystemInfo := st <| params := Some (sysInfoParamStore st) |>.
Lemma lookup_opened p st : lookup p (opened st) = lookup p st.
Proof. reflexivity. Qed.
Lemma lookup_update p l st : lookup p (update p l st) = Some l.
Proof. unfold lookup, update, sysInfoParamStore. cbn. by rewrite lookup_insert_eq. Qed.
Lemma update_only p l st : only p st (update p l (opened st)).
Proof. split; [|done..]. intros q Hq. unfold lookup, update, sysInfoParamStore. cbn. by rewrite lookup_insert_ne. Qed.
(** The store is made and has the parameter. *)
Definition stored (p : Z) (st : SystemInfo) : Prop := is_Some (params st) /\ is_Some (lookup p st).
Lemma update_stored p l st : stored p (update p l st).
Proof. split; [by eexists|]. rewrite lookup_update. by eexists. Qed.
(** A parameter with a string: one to seven. *)
Definition parameter (p : Z) : Prop := 1 <= p <= 7.
Lemma parameter_guards p : parameter p -> invalid_parameter p = false /\ oem_parameter p = false /\ (p =? 0) = false.
Proof.
  unfold parameter, invalid_parameter, oem_parameter, invalidParamSelectorStart, oemCmdStart. intros Hp.
  rewrite (proj2 (Z.leb_gt 8 p)), (proj2 (Z.leb_gt 192 p)), (proj2 (Z.eqb_neq p 0)) by lia. done.
Qed.
Definition set_value (p : Z) (s : list Z) (k : nat) : interps set_info_args := (p, (Z.of_nat k, (chunk s k, tt))).

Lemma chunk_length s k : (length (chunk s k) <= 16)%nat.
Proof. destruct k; unfold chunk, slice; [rewrite length_app|]; rewrite length_take; cbn [length]; lia. Qed.
Lemma set_first p s st : parameter p -> fits s -> exists st',
  (forall request, ipmiAppSetSystemInfo request (set_value p s 0) st = Ret (Returned (ccSuccess, None)) st') /\
  agrees s (value p st') [0%nat] /\ stored p st' /\ only p st st'.
Proof.
  intros Hp Hs. destruct (parameter_guards p Hp) as (E1 & E2 & E3).
  set (l := write_block 0 (Nat.min (Nat.min (length s) 14) 16) (drop 2 (resize 16 (chunk s 0))) (resize (length s) (value p st))).
  exists (update p l (opened st)). split.
  - intros request. unfold ipmiAppSetSystemInfo, set_value. rewrite E1, E2, E3. rewrite (proj2 (Nat.ltb_ge _ _)) by apply chunk_length.
    unfold configParameterLength. set (d := resize 16 (chunk s 0)).
    assert (nth 1 d 0 = Z.of_nat (length s)) as En by reflexivity.
    assert (length d = 16%nat) as Ed by (unfold d, resize; rewrite length_app, length_take, length_replicate; lia).
    rewrite En, Ed, Nat2Z.id. reflexivity.
  - unfold value. rewrite lookup_update. split; [by apply first_agrees|]. split; [apply update_stored|apply update_only].
Qed.
Lemma set_next p s st W k : parameter p -> fits s -> agrees s (value p st) W -> (1 <= k <= last_block s)%nat -> exists st',
  (forall request, ipmiAppSetSystemInfo request (set_value p s k) st = Ret (Returned (ccSuccess, None)) st') /\
  agrees s (value p st') (k :: W) /\ stored p st' /\ only p st st'.
Proof.
  intros Hp Hs Ha Hk. destruct (parameter_guards p Hp) as (E1 & E2 & E3).
  destruct (write_agrees s (value p st) W k Ha Hk) as [Ho Hw]. set (off := (16 * k - 2)%nat) in *.
  set (l := write_block off _ _ _) in Hw. exists (update p l (opened st)). split.
  - intros request. unfold ipmiAppSetSystemInfo, set_value. rewrite E1, E2, E3. rewrite (proj2 (Nat.ltb_ge _ _)) by apply chunk_length.
    unfold configParameterLength. set (d := resize 16 (chunk s k)).
    assert (length d = 16%nat) as Ed by (unfold d, resize; rewrite length_app, length_take, length_replicate; lia).
    rewrite Ed, (proj2 (Z.eqb_neq _ _)) by lia. unfold block_offset. rewrite Nat2Z.id.
    replace (k * fullChunkSize - configDataOverhead)%nat with off by (unfold off, fullChunkSize, configDataOverhead; lia).
    unfold bind at 1, open_store, modify. fold (opened st). unfold bind at 1, get. cbv beta iota. rewrite lookup_opened. fold (value p st).
    rewrite (proj2 (Nat.leb_gt _ _)) by exact Ho. unfold l, d. destruct k as [|k]; [lia|]. reflexivity.
  - unfold value. rewrite lookup_update. split; [exact Hw|]. split; [apply update_stored|apply update_only].
Qed.
Lemma get_runs request p s st k : parameter p -> fits s -> lookup p st = Some s -> is_Some (params st) -> (k <= last_block s)%nat ->
  ipmiAppGetSystemInfo request (0, (false, (p, (Z.of_nat k, (0, tt))))) st =
  Ret (Returned (ccSuccess, Some (paramRevision, (Some (Z.of_nat k), (Some (answer s k), tt))))) st.
Proof.
  intros Hp Hs Hl [m Hm] Hk. destruct (parameter_guards p Hp) as (E1 & E2 & E3).
  unfold ipmiAppGetSystemInfo. rewrite E1, E2, E3. cbn [Z.eqb negb orb].
  unfold bind at 1, open_store, modify. assert (st <| params := Some (sysInfoParamStore st) |> = st) as ->.
  { destruct st. cbn in Hm. by subst. }
  unfold bind at 1, get. cbv beta iota. rewrite Hl. destruct k as [|k]; [done|].
  rewrite (proj2 (Z.eqb_neq _ _)) by lia. unfold block_offset, fullChunkSize, configDataOverhead. rewrite Nat2Z.id, Nat.mul_comm.
  assert (16 * S k - 2 < length s)%nat by (unfold last_block in Hk; pose proof (Nat.div_mod_eq (length s + 1) 16); lia).
  rewrite (proj2 (Nat.leb_gt _ _)) by done. reflexivity.
Qed.

(** ** From request bytes to response bytes *)

(** What a client sends: the packed arguments. *)
Definition set_request (p : Z) (s : list Z) (k : nat) : list Z := raw (snd (pack set_info_args (set_value p s k) (new_Payload []))).
Definition get_value (p : Z) (k : nat) : interps get_info_args := (0, (false, (p, (Z.of_nat k, (0, tt))))).
Definition get_request (p : Z) (k : nat) : list Z := raw (snd (pack get_info_args (get_value p k) (new_Payload []))).
Lemma packs args v : layouts true args 0 = Some 0%nat -> valids args v -> exists d, pack args v (new_Payload []) = (true, d).
Proof.
  intros L V. destruct (pack_encoded args v true (new_Payload [])) as (d & E & _); [apply new_payload_ok; constructor|done|done|eauto].
Qed.
Lemma last_block_bound s k : fits s -> (k <= last_block s)%nat -> (k <= 16)%nat.
Proof. intros [_ Hs] Hk. unfold last_block in Hk. pose proof (Nat.div_mod_eq (length s + 1) 16). lia. Qed.
Lemma bytes_take n l : bytes l -> bytes (take n l).
Proof. apply Forall_take. Qed.
Lemma bytes_slice s i n : bytes s -> bytes (slice s i n).
Proof. intros H. by apply bytes_take, Forall_drop. Qed.
Lemma chunk_bytes s k : fits s -> bytes (chunk s k).
Proof.
  intros [Hb Hl]. destruct k as [|k]; [|by apply bytes_slice]. apply Forall_app. split; [|by apply bytes_take].
  repeat constructor; unfold is_byte; lia.
Qed.
Lemma answer_bytes s k : fits s -> bytes (answer s k).
Proof.
  intros [Hb Hl]. destruct k as [|k]; [|by apply bytes_slice]. unfold answer, first_block, resize.
  apply Forall_app. split; [|apply Forall_replicate; unfold is_byte; lia]. apply bytes_take, Forall_app.
  split; [|by apply bytes_take]. constructor; [unfold is_byte; lia|]. constructor; [apply u8_is_byte|constructor].
Qed.

Section Bytes.
Context (q : ChannelQueries) (owners : Owners) (sender : string) (lun : Z) (options : gmap string Value) (cr : Credentials).
Hypothesis Hchannel : channelFromMessage q owners sender <> invalidChannel.
Hypothesis Hcredentials : credentials q (channelFromMessage q owners sender) options = Some cr.
Hypothesis Hadmin : Privilege_Admin <= c_priv cr.
Let run := executionEntry (register_system_info no_tables) q owners sender 0x06 lun.
Definition done_reply (lun : Z) : Z * Z * Z * Z * list Z := (0x07, lun, 0x58, ccSuccess, []).

Lemma registered_set_info : handlerMap (register_system_info no_tables) !! makeCmdKey 0x06 0x58 =
  Some {| ht_prio := prioOpenBmcBase; ht_priv := Privilege_Admin; ht_handler := executeCallback set_info_args TNil ipmiAppSetSystemInfo |}.
Proof. reflexivity. Qed.
Lemma registered_get_info : handlerMap (register_system_info no_tables) !! makeCmdKey 0x06 0x59 =
  Some {| ht_prio := prioOpenBmcBase; ht_priv := Privilege_User; ht_handler := executeCallback get_info_args get_info_res ipmiAppGetSystemInfo |}.
Proof. reflexivity. Qed.
Lemma run_set p s k st st' : parameter p -> fits s -> (k <= last_block s)%nat ->
  (forall request, ipmiAppSetSystemInfo request (set_value p s k) st = Ret (Returned (ccSuccess, None)) st') ->
  run 0x58 (set_request p s k) options st = Ret (done_reply lun) st'.
Proof.
  intros Hp Hs Hk E. pose proof (last_block_bound s k Hs Hk). pose proof (chunk_bytes s k Hs). unfold parameter in Hp.
  assert (valids set_info_args (set_value p s k)) as V
    by (unfold set_value; cbn -[chunk Z.pow]; change (2 ^ 8) with 256; repeat split; first [assumption|lia]).
  destruct (packs set_info_args (set_value p s k) eq_refl V) as [d Hd]. unfold set_request. rewrite Hd.
  refine (command_runs (register_system_info no_tables) q owners sender 0x06 lun 0x58 options set_info_args TNil ipmiAppSetSystemInfo cr
    prioOpenBmcBase Privilege_Admin _ None ccSuccess d st st st' Hchannel Hcredentials _ _ registered_set_info Hadmin _ V Hd _ _);
    [discriminate..|reflexivity|reflexivity|intros ?; apply E].
Qed.
Lemma run_get p s k st : parameter p -> fits s -> (k <= last_block s)%nat -> lookup p st = Some s -> is_Some (params st) ->
  exists reply rest, run 0x59 (get_request p k) options st = Ret (0x07, lun, 0x59, ccSuccess, reply) st /\
    Request_unpack get_info_res ((new_Payload reply) <| trailingOk := false |>) =
      Ret (inr (paramRevision, (Some (Z.of_nat k), (Some (answer s k), tt)))) rest.
Proof.
  intros Hp Hs Hk Hl Hm. pose proof (last_block_bound s k Hs Hk). pose proof (answer_bytes s k Hs).
  assert (valids get_info_args (get_value p k)) as V
    by (unfold parameter in Hp; unfold get_value; cbn -[chunk Z.pow]; change (2 ^ 8) with 256; repeat split; lia).
  destruct (packs get_info_args (get_value p k) eq_refl V) as [d Hd]. unfold get_request. rewrite Hd.
  set (r := (paramRevision, (Some (Z.of_nat k), (Some (answer s k), tt))) : interps get_info_res).
  destruct (reply_read get_info_res r eq_refl) as [rest Hr].
  { unfold r, paramRevision. cbn -[answer Z.pow]. change (2 ^ 8) with 256. repeat split; first [assumption|lia]. }
  eexists _, rest. split; [|exact Hr].
  refine (command_runs (register_system_info no_tables) q owners sender 0x06 lun 0x59 options get_info_args get_info_res ipmiAppGetSystemInfo cr
    prioOpenBmcBase Privilege_User (get_value p k) (Some r) ccSuccess d st st st Hchannel Hcredentials _ _ registered_get_info _ _ V Hd _ _);
    [discriminate..|unfold Privilege_User, Privilege_Admin in *; lia|reflexivity|reflexivity|intros ?; by apply get_runs].
Qed.
Lemma run_next p s ks : parameter p -> fits s -> Forall (fun k => (1 <= k <= last_block s)%nat) ks -> forall st W, agrees s (value p st) W -> stored p st ->
  exists st', mmap (fun k => run 0x58 (set_request p s k) options) ks st = Ret (map (fun _ => done_reply lun) ks) st' /\
    agrees s (value p st') (rev ks ++ W) /\ stored p st' /\ only p st st'.
Proof.
  intros Hp Hs. induction 1 as [|k ks Hk _ IH]; intros st W Ha Hm; [by exists st|].
  destruct (set_next p s st W k Hp Hs Ha Hk) as (st1 & E1 & A1 & M1 & O1).
  assert (run 0x58 (set_request p s k) options st = Ret (done_reply lun) st1) as R1 by (by apply run_set; [| |lia|]).
  destruct (IH st1 (k :: W) A1 M1) as (st2 & R2 & A2 & M2 & O2). exists st2. cbn [mmap map rev].
  rewrite (bind_Ret _ _ _ _ _ R1), (bind_Ret _ _ _ _ _ R2), <- app_assoc. split; [done|]. split; [done|]. split; [done|]. by etransitivity.
Qed.

(** C17. An administrator who writes a string of at most 255
    bytes to a parameter, its first block and then the others in any order and
    as often as he likes, succeeds with every block, whatever the parameter held
    before; no other parameter, nor the state of the transfer, has changed; and
    reading the blocks gives back the string. *)
Theorem system_info_roundtrip p s order st :
  parameter p -> fits s -> (forall k, k ∈ order <-> (1 <= k <= last_block s)%nat) ->
  exists st', mmap (fun k => run 0x58 (set_request p s k) options) (0%nat :: order) st =
      Ret (map (fun _ => done_reply lun) (0%nat :: order)) st' /\
    (forall p', p' <> p -> lookup p' st' = lookup p' st) /\ transferStatus st' = transferStatus st /\
    exists blocks, length blocks = S (last_block s) /\ client_text blocks = s /\
      forall k b, blocks !! k = Some b ->
        exists reply rest, run 0x59 (get_request p k) options st' = Ret (0x07, lun, 0x59, ccSuccess, reply) st' /\
          Request_unpack get_info_res ((new_Payload reply) <| trailingOk := false |>) =
            Ret (inr (paramRevision, (Some (Z.of_nat k), (Some b, tt)))) rest.
Proof.
  intros Hp Hs Ho. destruct (set_first p s st Hp Hs) as (st1 & E1 & A1 & M1 & O1).
  assert (run 0x58 (set_request p s 0) options st = Ret (done_reply lun) st1) as R1 by (by apply run_set; [| |lia|]).
  destruct (run_next p s order Hp Hs ltac:(by apply Forall_forall; intros k Hk; apply Ho) st1 _ A1 M1) as (st2 & R2 & A2 & M2 & O2).
  exists st2. cbn [mmap map]. rewrite (bind_Ret _ _ _ _ _ R1), (bind_Ret _ _ _ _ _ R2).
  destruct (transitivity O1 O2) as [Hq Ht _]. split; [done|]. split; [exact Hq|]. split; [exact Ht|].
  assert (value p st2 = s) as Hv.
  { apply (agrees_all s _ _ A2). intros k Hk. apply elem_of_app. destruct k as [|k]; [right; by apply list_elem_of_singleton|left].
    rewrite list_elem_of_In, <- in_rev, <- list_elem_of_In. apply Ho. lia. }
  exists (map (answer s) (seq 0 (S (last_block s)))). split; [by rewrite length_map, length_seq|]. split; [by apply answers_join|].
  intros k b Hb. rewrite list_lookup_fmap in Hb. apply fmap_Some in Hb as (j & Hj & ->). apply lookup_seq in Hj as [-> Hk].
  apply run_get; [done|done|lia| |apply M2]. destruct M2 as [_ [t Ht']]. unfold value in Hv. rewrite Ht' in *. by f_equal.
Qed.
End Bytes.

(** ** Samples *)
Definition sample_info : SystemInfo := {| params := None; transferStatus := setComplete; hostname := bytes_of_string "chassis" |}.
Definition sample_info_queries : ChannelQueries :=
  {| getChannelByName s := if String.eqb s "IPMB" then Some 0 else None; getChannelSessionSupport _ := 0; mediumType _ := 1 |}.
Definition sample_info_owners : Owners := {[ "one"%string := 0 ]}.
Definition sample_text : list Z := bytes_of_string "chassis manager of the second rack".
Abbreviation sample_run := (executionEntry (register_system_info no_tables) sample_info_queries sample_info_owners "one" 0x06 0).
(** The blocks behind the first one are written backwards and the last one twice. *)
Lemma system_info_roundtrip_witness : exists st',
  mmap (fun k => sample_run 0x58 (set_request 3 sample_text k) ∅) [0; 2; 1; 2]%nat sample_info =
    Ret (map (fun _ => done_reply 0) [0; 2; 1; 2]%nat) st' /\
  (forall p', p' <> 3 -> lookup p' st' = lookup p' sample_info) /\ transferStatus st' = transferStatus sample_info /\
  exists blocks, length blocks = 3%nat /\ client_text blocks = sample_text /\
    forall k b, blocks !! k = Some b ->
      exists reply rest, sample_run 0x59 (get_request 3 k) ∅ st' = Ret (0x07, 0, 0x59, ccSuccess, reply) st' /\
        Request_unpack get_info_res ((new_Payload reply) <| trailingOk := false |>) =
          Ret (inr (paramRevision, (Some (Z.of_nat k), (Some b, tt)))) rest.
Proof.
  apply (system_info_roundtrip sample_info_queries sample_info_owners "one" 0 (∅ : gmap string IpmiDispatch.Value)
    {| c_priv := Privilege_Admin; c_user := 0; c_session := 0; c_rqSA := 0; c_host := 0 |}
    ltac:(vm_compute; discriminate) ltac:(vm_compute; reflexivity) ltac:(vm_compute; discriminate)
    3 sample_text [2; 1; 2]%nat sample_info).
  - unfold parameter. lia.
  - split; [apply (bool_decide_unpack _); vm_compute; exact I|vm_compute; lia].
  - intros k. change (last_block sample_text) with 2%nat. rewrite list_elem_of_In. cbn. lia.
Defined.

(** A block that is shorter than 16 bytes is filled with zeros, which overwrite
    the characters behind it. *)
Example short_block_clears_the_rest :
  let st := sample_info <| params := Some {[ 3 := Fixed sample_text ]} |> in
  match sample_run 0x58 [3; 1; 88] ∅ st with
  | Ret r st' => r = done_reply 0 /\ value 3 st' = take 14 sample_text ++ [88] ++ replicate 15 0 ++ drop 30 sample_text
  | _ => False
  end.
Proof. vm_compute. split; reflexivity. Qed.
(** Once the system name was written it does not follow the name of the host. *)
Example written_name_stays :
  value 2 sample_info = bytes_of_string "chassis" /\
  match sample_run 0x58 (set_request 2 sample_text 0) ∅ sample_info with
  | Ret r st' => r = done_reply 0 /\
      value 2 (st' <| hostname := bytes_of_string "other" |>) = take 14 sample_text ++ replicate 20 0
  | _ => False
  end.
Proof. vm_compute. repeat split. Qed.
(** While a transfer is in progress anyone may still write, and only a second
    announcement is refused. *)
Example progress_does_not_lock :
  match mmap (fun d => sample_run 0x58 d ∅) [[0; 1]; [0; 1]; [3; 0; 0; 1; 88]; [0; 0]] sample_info with
  | Ret l _ => map (fun r : Z * Z * Z * Z * list Z => snd (fst r)) l = [ccSuccess; ccSetInProgressActive; ccSuccess; ccSuccess]
  | _ => False
  end.
Proof. vm_compute. reflexivity. Qed.
(** A block behind the end is refused and changes no parameter. *)
Example block_behind_the_end :
  let st := sample_info <| params := Some {[ 3 := Fixed sample_text ]} |> in
  match sample_run 0x58 [3; 3; 88] ∅ st with
  | Ret r st' => snd (fst r) = ccParmOutOfRange /\ st' = st
  | _ => False
  end.
Proof. vm_compute. split; reflexivity. Qed.
