(* ===== verification/CipherSuites.v ===== *)
(** * Cipher suites of the IPMI host service

    [user_channel/cipher_mgmt.cpp]: the highest privilege of each channel and
    cipher suite, from a default file and a file of changes; and
    [app/channel.cpp]: the records of the suites, read in pages of 16 bytes.  The
    channel layer is the class [Channels]. *)
From Stdlib Require Import ZArith Lia String.
From stdpp Require Import base list gmap strings pretty.
From S2P Require Import Prelude CxxStd Json IpmiMessage IpmiDispatch ChannelMgmt HostCommands.
Local Open Scope Z_scope.

Definition maxCSRecords : nat := 16.
(** What the service asks the channel layer. *)
Class Channels := { channel_valid : Z -> bool; channel_sessions : Z -> Z; channel_device : Z -> bool }.
(** Writing to and iterating over a JSON value: [lib_assign] is [j[key] = v],
    [lib_range] what a range-[for] visits. *)
Class JsonMore := { lib_assign : Json -> string -> Json -> exn + Json; lib_range : Json -> list Json }.

(** [writes]: whether the next writes of the file succeed; when none is left they
    do. *)
Record CipherConfig := {
  csPrivilegeMap : gmap (Z * Z) Z; csDefaultFile : option Json; csFile : option Json; writes : list bool }.
#[export] Instance CipherConfig_fields : Fields CipherConfig := fun s =>
  {| csPrivilegeMap := csPrivilegeMap s; csDefaultFile := csDefaultFile s; csFile := csFile s; writes := writes s |}.

Section Privileges.
Context {J : JsonLib} {JM : JsonMore} {Ch : Channels}.

Definition chKey (chNum : nat) : string := "Channel" ++ pretty (Z.of_nat chNum).
Definition csKey (csNum : nat) : string := "CipherID" ++ pretty (Z.of_nat csNum).
Definition const_key {S} (j : Json) (k : string) : M S Json :=
  let! v := answer (lib_index_const j k) in of_option NullDeref v.
(** An unknown privilege is [ccUnspecifiedError], cut to four bits. *)
Definition convertToPrivLimitIndex (value : list Z) : Z :=
  match list_find (fun x => x = value) privList with
  | None => Z.land ccUnspecifiedError 0xF
  | Some (i, _) => Z.of_nat i
  end.
Definition convertToPrivLimitString {S} (value : Z) : M S (list Z) :=
  match privList !! Z.to_nat value with Some n => ret n | None => throw StdOutOfRange end.

Definition updateCSPrivilegesMap (jsonData : Json) : M CipherConfig unit :=
  mfor (seq 0 maxIpmiChannels) (fun chNum =>
    mfor (seq 0 maxCSRecords) (fun csNum =>
      if lib_count jsonData (chKey chNum)
      then
        let! c := const_key jsonData (chKey chNum) in
        let! v := const_key c (csKey csNum) in
        let! p := json_string v in
        modify (fun s => s <| csPrivilegeMap := <[(Z.of_nat chNum, Z.of_nat csNum) := convertToPrivLimitIndex p]> (csPrivilegeMap s) |>)
      else ret tt)).
Definition readCSPrivilegeLevels (csFile : option Json) : Json := default JNull csFile.
Definition loadCSPrivilegesToMap : M CipherConfig unit :=
  let! s := get in
  match csDefaultFile s with
  | None => ret tt
  | Some _ =>
      updateCSPrivilegesMap (readCSPrivilegeLevels (csDefaultFile s)) ;;;
      match csFile s with
      | None => ret tt
      | Some _ =>
          let data := readCSPrivilegeLevels (csFile s) in
          if is_null data then ret tt else updateCSPrivilegesMap data
      end
  end.
(** A start of the service. *)
Definition new_CipherConfig : M CipherConfig unit :=
  modify (fun s => s <| csPrivilegeMap := ∅ |>) ;;; loadCSPrivilegesToMap.

Definition writeCSPrivilegeLevels (jsonData : Json) : M CipherConfig Z :=
  let! s := get in
  put (s <| writes := tail (writes s) |>) ;;;
  if default true (head (writes s)) then modify (fun s => s <| csFile := Some jsonData |>) ;;; ret 0 else ret (- EIO).

(** A level the map does not have is made, with the value zero. *)
Definition level_at (chNum : Z) (csNum : nat) : M CipherConfig Z :=
  let! s := get in
  let v := default 0 (csPrivilegeMap s !! (chNum, Z.of_nat csNum)) in
  put (s <| csPrivilegeMap := <[(chNum, Z.of_nat csNum) := v]> (csPrivilegeMap s) |>) ;;; ret v.
Definition getCSPrivilegeLevels (chNum : Z) : M CipherConfig (Z * list Z) :=
  if negb (channel_valid chNum) then ret (ccInvalidFieldRequest, [])
  else let! l := mmap (level_at chNum) (seq 0 maxCSRecords) in ret (ccSuccess, l).

(** The object of one channel; [None]: a level is not a privilege. *)
Fixpoint priv_data (csNum : nat) (requestData : list Z) (privData : Json) : M CipherConfig (option Json) :=
  match requestData with
  | [] => ret (Some privData)
  | priv :: requestData =>
      if Privilege_Oem <? priv then ret None
      else
        let! name := convertToPrivLimitString priv in
        let! privData := answer (lib_assign privData (csKey csNum) (JString name)) in
        priv_data (S csNum) requestData privData
  end.
Definition setCSPrivilegeLevels (chNum : Z) (requestData : list Z) : M CipherConfig Z :=
  if negb (channel_valid chNum) then ret ccInvalidFieldRequest
  else
    let! s := get in
    let jsonData := readCSPrivilegeLevels (csFile s) in
    if (match csFile s with Some _ => is_null jsonData | None => false end) then ret ccUnspecifiedError
    else
      let! privData := priv_data 0 requestData JNull in
      match privData with
      | None => ret ccInvalidFieldRequest
      | Some privData =>
          let! jsonData := answer (lib_assign jsonData (chKey (Z.to_nat chNum)) privData) in
          let! r := writeCSPrivilegeLevels jsonData in
          if negb (r =? 0) then ret ccUnspecifiedError
          else updateCSPrivilegesMap jsonData ;;; ret ccSuccess
      end.
End Privileges.

(** ** The records *)

(** [cipherList]: the file with the suites. *)
Record CipherRecords := {
  cipherList : option Json; cipherRecords : list Z; supportedAlgorithms : list Z; recordInit : bool }.
#[export] Instance CipherRecords_fields : Fields CipherRecords := fun s =>
  {| cipherList := cipherList s; cipherRecords := cipherRecords s; supportedAlgorithms := supportedAlgorithms s;
     recordInit := recordInit s |}.
Definition stdCipherSuite : Z := 0xC0.
Definition oemCipherSuite : Z := 0xC1.
Definition integrityTag : Z := 0x40.
Definition confTag : Z := 0x80.
Definition ccPayloadTypeNotSupported : Z := 0x80.
Definition respSize : nat := 16.

(** A [std::set] of bytes, as its elements in order. *)
Fixpoint set_insert (x : Z) (l : list Z) : list Z :=
  match l with
  | [] => [x]
  | y :: l' => if x <? y then x :: l else if x =? y then l else y :: set_insert x l'
  end.

Section Records.
Context {J : JsonLib} {JM : JsonMore} {Ch : Channels}.

(** [record.value(key, 0)] *)
Definition number {S} (record : Json) (key : string) : M S Z := json_value json_int record key 0.
Definition record_head (record : Json) : M CipherRecords (list Z) :=
  if lib_count record "oemiana"
  then
    let! c := number record "cipher" in
    let! o := number record "oemiana" in
    ret [oemCipherSuite; u8 c; u8 o; u8 (Z.shiftr o 8); u8 (Z.shiftr o 16)]
  else let! c := number record "cipher" in ret [stdCipherSuite; u8 c].
Fixpoint cipher_records (l : list Json) (records algorithms : list Z) : M CipherRecords (list Z * list Z) :=
  match l with
  | [] => ret (records, algorithms)
  | record :: l =>
      let! h := record_head record in
      let! a := number record "authentication" in
      let! i := number record "integrity" in
      let! c := number record "confidentiality" in
      let tags := [u8 a; u8 (Z.lor i integrityTag); u8 (Z.lor c confTag)] in
      cipher_records l (records ++ h ++ tags) (foldl (fun s x => set_insert x s) algorithms tags)
  end.
Definition getCipherRecords : M CipherRecords (list Z * list Z) :=
  let! s := get in
  match cipherList s with
  | None | Some JDiscarded => throw (RuntimeError "InternalFailure")
  | Some data => cipher_records (lib_range data) [] []
  end.

Definition cipher_suites_args : tys := types [TFixed 4; TFixed 4; TUInt 1; TFixed 6; TFixed 1; TFixed 1].
Definition cipher_suites_res : tys := types [TUInt 1; TByteVec].
Definition cipher_response {R : Type} (cc : Z) : M CipherRecords (callback_result (Z * option R)) := ret (Returned (cc, None)).
(** The records are read by the first command that needs them. *)
Definition init_records : M CipherRecords bool :=
  let! s := get in
  if recordInit s then ret true
  else
    try (let! r := getCipherRecords in
         modify (fun s => s <| cipherRecords := fst r |> <| supportedAlgorithms := snd r |> <| recordInit := true |>) ;;; ret true)
      (fun _ => ret false).
(** Page [listIndex] of the records. *)
Definition page (records : list Z) (listIndex : Z) : list Z :=
  let start := Nat.min (Z.to_nat listIndex * respSize) (length records) in
  let stop := Nat.min (Z.to_nat listIndex * respSize + respSize) (length records) in
  slice records start (stop - start).
Definition getChannelCipherSuites (r : Request) (v : interps cipher_suites_args) :
    M CipherRecords (callback_result (Z * option (interps cipher_suites_res))) :=
  let '(channelNumber, (reserved1, (payloadType, (listIndex, (reserved2, (algoSelectBit, _)))))) := v in
  let rspChannel := the_channel r channelNumber in
  if negb (channel_valid rspChannel) || nonzero reserved1 || nonzero reserved2 then cipher_response ccInvalidFieldRequest
  else if negb (isValidPayloadType payloadType) then cipher_response ccPayloadTypeNotSupported
  else
    let! ok := init_records in
    if negb ok then cipher_response ccUnspecifiedError
    else
      let! s := get in
      let records := if nonzero algoSelectBit then cipherRecords s else supportedAlgorithms s in
      if (channel_sessions rspChannel =? EChannelSessSupported_none) || negb (channel_device rspChannel)
      then cipher_response ccInvalidFieldRequest
      else ret (Returned (ccSuccess, Some (rspChannel, (page records listIndex, tt)))).
Definition register_cipher_suites (t : Tables CipherRecords) : Tables CipherRecords :=
  snd (registerHandler prioOpenBmcBase netFnApp 0x54 Privilege_None (executeCallback cipher_suites_args cipher_suites_res getChannelCipherSuites) t).
End Records.
