(* ===== verification/CipherSuitesSpec.v ===== *)
(** * Cipher suites: properties

    The privilege levels behave like a table with one row per channel, whose
    rows survive a restart; and the records of the suites, read page by page,
    decode to the suites of the file. *)
From Stdlib Require Import ZArith Lia String.
From stdpp Require Import base list gmap strings pretty.
From S2P Require Import Prelude CxxStd Json IpmiMessage IpmiMessageSpec IpmiDispatch IpmiDispatchSpec ChannelMgmt HostCommands CipherSuites.
Local Open Scope Z_scope.

(** Documented behaviour of the JSON library. *)
Class JsonMoreLaws (J : JsonLib) (JM : JsonMore) : Prop := {
  law_assign : forall j l k v, j = JObject l \/ (j = JNull /\ l = []) -> exists l',
    lib_assign j k v = inr (JObject l') /\
    forall k', json_find k' l' = if String.eqb k k' then Some v else json_find k' l;
  law_count : forall l k, lib_count (JObject l) k = match json_find k l with Some _ => true | None => false end;
  law_range : forall l, lib_range (JArray l) = l;
  law_value : forall l k, lib_value (JObject l) k = inr (json_find k l);
  law_int : forall z, - 2 ^ 31 <= z < 2 ^ 31 -> lib_int (JNumber z) = inr z }.
(** The channel layer knows sixteen channels. *)
Class ChannelsLaws (Ch : Channels) : Prop := channel_range : forall ch, channel_valid ch = true -> 0 <= ch < 16.

(** ** Levels in a file *)
Lemma chKey_inj c c' : chKey c = chKey c' -> c = c'.
Proof. unfold chKey. intros H. apply (inj (String.append _)), (inj pretty) in H. lia. Qed.
Lemma csKey_inj c c' : csKey c = csKey c' -> c = c'.
Proof. unfold csKey. intros H. apply (inj (String.append _)), (inj pretty) in H. lia. Qed.
Definition member (j : Json) (k : string) : option Json := match j with JObject l => json_find k l | _ => None end.
Definition level (j : Json) (c x : nat) : option Z :=
  match member j (chKey c) ≫= (fun o => member o (csKey x)) with
  | Some (JString s) => Some (convertToPrivLimitIndex s)
  | _ => None
  end.
(** An object with an object of sixteen strings for each channel it has. *)
Definition channel_object (c : Json) : Prop :=
  exists m, c = JObject m /\ forall x, (x < 16)%nat -> exists s, json_find (csKey x) m = Some (JString s).
Definition levels_file (j : Json) : Prop :=
  exists l, j = JObject l /\ forall c o, (c < 16)%nat -> json_find (chKey c) l = Some o -> channel_object o.

Section Levels.
Context {J : JsonLib} {JM : JsonMore} {Ch : Channels} {JL : JsonLaws J} {JML : JsonMoreLaws J JM} {CL : ChannelsLaws Ch}.

Lemma mfor_foldl {S A} (l : list A) (body : A -> M S unit) f s :
  (forall x s, x ∈ l -> body x s = Ret tt (f s x)) -> mfor l body s = Ret tt (foldl f s l).
Proof.
  revert s. induction l as [|x l IH]; intros s H; [done|]. cbn [mfor foldl].
  rewrite (bind_Ret _ _ _ _ _ (H x s ltac:(left))). apply IH. intros y t Hy. apply H. by right.
Qed.
Lemma foldl_concat_map {A B C} (f : A -> C -> A) (g : B -> list C) l a :
  foldl (fun a x => foldl f a (g x)) a l = foldl f a (concat (map g l)).
Proof. revert a. induction l as [|x l IH]; intros a; [done|]. cbn. by rewrite foldl_app, IH. Qed.

Definition key_of (p : nat * nat) : Z * Z := (Z.of_nat (fst p), Z.of_nat (snd p)).
Definition put_level (j : Json) (m : gmap (Z * Z) Z) (p : nat * nat) : gmap (Z * Z) Z :=
  match level j (fst p) (snd p) with Some v => <[key_of p := v]> m | None => m end.
Definition all_keys : list (nat * nat) := concat (map (fun c => map (pair c) (seq 0 16)) (seq 0 16)).
Definition merged (j : Json) (m : gmap (Z * Z) Z) : gmap (Z * Z) Z := foldl (put_level j) m all_keys.
Lemma in_all_keys c x : (c < 16)%nat -> (x < 16)%nat -> (c, x) ∈ all_keys.
Proof.
  intros Hc Hx. unfold all_keys. apply list_elem_of_In, in_concat. exists (map (pair c) (seq 0 16)). split.
  - apply in_map_iff. exists c. split; [done|]. apply in_seq. lia.
  - apply in_map, in_seq. lia.
Qed.
Lemma foldl_put_lookup j l : forall m c x, foldl (put_level j) m l !! key_of (c, x) =
  match (if decide ((c, x) ∈ l) then level j c x else None) with Some v => Some v | None => m !! key_of (c, x) end.
Proof.
  induction l as [|p l IH]; intros m c x; [done|]. cbn [foldl]. rewrite IH.
  assert (put_level j m p !! key_of (c, x) =
    match (if decide ((c, x) = p) then level j c x else None) with Some v => Some v | None => m !! key_of (c, x) end) as E.
  { unfold put_level. destruct (decide ((c, x) = p)) as [<-|Hne]; cbn [fst snd].
    - destruct (level j c x); [by rewrite lookup_insert_eq|done].
    - destruct (level j p.1 p.2); [|done]. apply lookup_insert_ne. intros Hk. apply Hne. destruct p as [c' x'].
      unfold key_of in Hk. cbn in Hk. injection Hk as H1 H2. f_equal; lia. }
  rewrite E. clear E IH. pose proof (elem_of_cons l (c, x) p) as Hin.
  destruct (decide ((c, x) ∈ p :: l)), (decide ((c, x) ∈ l)), (decide ((c, x) = p)); destruct (level j c x); tauto.
Qed.
Lemma merged_lookup j m c x : (c < 16)%nat -> (x < 16)%nat ->
  merged j m !! key_of (c, x) = match level j c x with Some v => Some v | None => m !! key_of (c, x) end.
Proof. intros Hc Hx. unfold merged. rewrite foldl_put_lookup, decide_True by (by apply in_all_keys). done. Qed.

Definition put_state (j : Json) (s : CipherConfig) (p : nat * nat) : CipherConfig :=
  s <| csPrivilegeMap := put_level j (csPrivilegeMap s) p |>.
Lemma foldl_state j k s : foldl (put_state j) s k = s <| csPrivilegeMap := foldl (put_level j) (csPrivilegeMap s) k |>.
Proof. revert s. induction k as [|p k IH]; intros s; [by destruct s|]. cbn [foldl]. rewrite IH. by destruct s. Qed.
Lemma foldl_map {A B C} (f : A -> C -> A) (g : B -> C) l a : foldl (fun a x => f a (g x)) a l = foldl f a (map g l).
Proof. revert a. induction l as [|x l IH]; intros a; [done|]. apply IH. Qed.
Lemma update_runs j s : levels_file j -> updateCSPrivilegesMap j s = Ret tt (s <| csPrivilegeMap := merged j (csPrivilegeMap s) |>).
Proof.
  intros (l & -> & Hl). unfold updateCSPrivilegesMap, merged. rewrite <- foldl_state. unfold all_keys. rewrite <- foldl_concat_map.
  apply mfor_foldl.
  intros c t Hc. apply list_elem_of_In, in_seq in Hc. rewrite <- foldl_map. apply mfor_foldl.
  intros x u Hx. apply list_elem_of_In, in_seq in Hx. rewrite law_count. unfold put_state, put_level, level. cbn [fst snd].
  change (member (JObject l) (chKey c)) with (json_find (chKey c) l).
  destruct (json_find (chKey c) l) as [o|] eqn:Eo; [|by destruct u].
  destruct (Hl c o ltac:(lia) Eo) as (m & -> & Hm). destruct (Hm x ltac:(lia)) as [n En].
  assert (const_key (JObject l) (chKey c) u = Ret (JObject m) u) as E1 by (unfold const_key; by rewrite (law_index_const _ _ _ Eo)).
  assert (const_key (JObject m) (csKey x) u = Ret (JString n) u) as E2 by (unfold const_key; by rewrite (law_index_const _ _ _ En)).
  rewrite (bind_Ret _ _ _ _ _ E1), (bind_Ret _ _ _ _ _ E2), (bind_Ret _ _ _ _ _ (json_string_Ret n u)).
  cbn [mbind option_bind member]. by rewrite En.
Qed.

(** ** The table of levels *)

(** What the files say, the file of changes before the default file; and the
    state in which the service answers that. *)
Definition configured (s : CipherConfig) (c x : nat) : Z :=
  default 0 (match csFile s ≫= (fun j => level j c x) with Some v => Some v | None => csDefaultFile s ≫= (fun j => level j c x) end).
Record consistent (s : CipherConfig) : Prop := {
  con_default : exists d, csDefaultFile s = Some d /\ levels_file d;
  con_file : forall j, csFile s = Some j -> levels_file j;
  con_map : forall c x, (c < 16)%nat -> (x < 16)%nat -> default 0 (csPrivilegeMap s !! key_of (c, x)) = configured s c x }.
Definition row (s : CipherConfig) (ch : Z) : list Z := map (configured s (Z.to_nat ch)) (seq 0 16).

Lemma start_consistent s : (exists d, csDefaultFile s = Some d /\ levels_file d) -> (forall j, csFile s = Some j -> levels_file j) ->
  exists s', new_CipherConfig s = Ret tt s' /\ consistent s' /\ csDefaultFile s' = csDefaultFile s /\ csFile s' = csFile s /\
    writes s' = writes s.
Proof.
  intros (d & Ed & Hd) Hf. unfold new_CipherConfig, loadCSPrivilegesToMap, bind at 1, modify. set (s0 := s <| csPrivilegeMap := ∅ |>).
  unfold bind at 1, get. cbv beta iota. change (csDefaultFile s0) with (csDefaultFile s). rewrite Ed. cbn [readCSPrivilegeLevels default].
  set (s1 := s0 <| csPrivilegeMap := merged d (csPrivilegeMap s0) |>). pose proof (update_runs d s0 Hd : _ = Ret tt s1) as E1.
  rewrite (bind_Ret _ _ _ _ _ E1). change (csFile s0) with (csFile s). destruct (csFile s) as [j|] eqn:Ej.
  - destruct (Hf j eq_refl) as (l & Ejl & Hl). change (readCSPrivilegeLevels (Some j)) with j. assert (is_null j = false) as -> by (by subst).
    exists (s1 <| csPrivilegeMap := merged j (csPrivilegeMap s1) |>). rewrite update_runs by (by eapply Hf). split; [done|].
    split; [|by subst s1 s0; cbn; rewrite Ej]. split.
    + by exists d.
    + intros j' E. apply Hf. cbn in E. by rewrite <- E.
    + intros c x Hc Hx. unfold configured. cbn -[merged key_of level]. rewrite Ej, Ed, !merged_lookup by done. rewrite lookup_empty. cbn -[level].
      destruct (level j c x); [done|]. by destruct (level d c x).
  - exists s1. split; [done|]. split; [|done]. split; [by exists d|cbn; by rewrite Ej|].
    intros c x Hc Hx. unfold configured. cbn -[merged key_of level]. rewrite Ej, Ed, merged_lookup by done. rewrite lookup_empty. cbn -[level]. by destruct (level d c x).
Qed.

(** Reading a row makes the levels it lacks. *)
Lemma read_row s ch l : consistent s -> 0 <= ch < 16 -> (forall x, x ∈ l -> (x < 16)%nat) -> exists m,
  mmap (level_at ch) l s = Ret (map (configured s (Z.to_nat ch)) l) (s <| csPrivilegeMap := m |>) /\ consistent (s <| csPrivilegeMap := m |>).
Proof.
  intros Hs Hch. revert s Hs. induction l as [|x l IH]; intros s Hs Hl; [exists (csPrivilegeMap s); by destruct s|].
  set (v := default 0 (csPrivilegeMap s !! (ch, Z.of_nat x))).
  set (s1 := s <| csPrivilegeMap := <[(ch, Z.of_nat x) := v]> (csPrivilegeMap s) |>).
  assert ((ch, Z.of_nat x) = key_of (Z.to_nat ch, x)) as Ek by (unfold key_of; cbn; f_equal; lia).
  assert (x < 16)%nat as Hx by (apply Hl; left).
  assert (v = configured s (Z.to_nat ch) x) as Ev by (unfold v; rewrite Ek; apply Hs; lia).
  assert (consistent s1) as H1.
  { destruct Hs as [A B Cm]. split; [exact A|exact B|]. intros c y Hc Hy. change (configured s1 c y) with (configured s c y).
    cbn. rewrite Ek. destruct (decide (key_of (Z.to_nat ch, x) = key_of (c, y))) as [E|E].
    - rewrite <- E, lookup_insert_eq. cbn. rewrite Ev. unfold key_of in E. cbn in E. injection E as E1 E2. by f_equal; lia.
    - rewrite lookup_insert_ne by done. by apply Cm. }
  destruct (IH s1 H1) as (m & E & Hm); [intros y Hy; apply Hl; by right|]. exists m. cbn [mmap map].
  assert (level_at ch x s = Ret v s1) as E0 by reflexivity.
  rewrite (bind_Ret _ _ _ _ _ E0), (bind_Ret _ _ _ _ _ E). split; [|by destruct s]. rewrite <- Ev. by destruct s.
Qed.
Lemma get_row s ch : consistent s -> channel_valid ch = true -> exists m,
  getCSPrivilegeLevels ch s = Ret (ccSuccess, row s ch) (s <| csPrivilegeMap := m |>) /\ consistent (s <| csPrivilegeMap := m |>).
Proof.
  intros Hs Hv. destruct (read_row s ch (seq 0 16) Hs (channel_range ch Hv)) as (m & E & Hm).
  { intros x Hx. apply list_elem_of_In, in_seq in Hx. lia. }
  exists m. split; [|done]. unfold getCSPrivilegeLevels. rewrite Hv. cbn [negb]. change maxCSRecords with 16%nat. by rewrite (bind_Ret _ _ _ _ _ E).
Qed.

(** ** Setting a row *)
Definition privilege_name (z : Z) : list Z := default [] (privList !! Z.to_nat z).
Lemma names_of_levels z : 0 <= z <= 5 -> privList !! Z.to_nat z = Some (privilege_name z) /\ convertToPrivLimitIndex (privilege_name z) = z.
Proof.
  intros Hz. assert (z = 0 \/ z = 1 \/ z = 2 \/ z = 3 \/ z = 4 \/ z = 5) as H by lia.
  destruct H as [->|[->|[->|[->|[->| ->]]]]]; split; vm_compute; reflexivity.
Qed.
Lemma priv_data_runs l n j ml s : (j = JObject ml \/ (j = JNull /\ ml = [])) -> Forall (fun z => 0 <= z <= 5) l -> l <> [] -> exists m,
  priv_data n l j s = Ret (Some (JObject m)) s /\
  forall x, json_find (csKey x) m =
    if decide (n <= x < n + length l)%nat then JString <$> (privilege_name <$> l !! (x - n)%nat) else json_find (csKey x) ml.
Proof.
  intros Hj Hl. revert n j ml Hj. induction Hl as [|z l Hz Hl IH]; intros n j ml Hj Hne; [done|].
  cbn [priv_data]. unfold Privilege_Oem. rewrite (proj2 (Z.ltb_ge _ _)) by lia. destruct (names_of_levels z Hz) as [En _].
  unfold convertToPrivLimitString. rewrite En.
  destruct (law_assign j ml (csKey n) (JString (privilege_name z)) Hj) as (m1 & E1 & F1).
  unfold bind, ret, answer at 1. rewrite E1.
  assert (forall x, json_find (csKey x) m1 = if decide (x = n) then Some (JString (privilege_name z)) else json_find (csKey x) ml) as F.
  { intros x. rewrite F1. destruct (String.eqb_spec (csKey n) (csKey x)) as [E|E].
    - apply csKey_inj in E. by rewrite decide_True.
    - rewrite decide_False; [done|]. intros ->. done. }
  destruct l as [|z' l].
  - exists m1. split; [done|]. intros x. rewrite F. destruct (decide (x = n)) as [->|Hx].
    + rewrite decide_True by (cbn; lia). by rewrite Nat.sub_diag.
    + rewrite decide_False; [done|]. cbn. lia.
  - destruct (IH (S n) (JObject m1) m1 (or_introl eq_refl) ltac:(done)) as (m & E & Fm). exists m. split; [exact E|]. intros x. rewrite Fm, F.
    destruct (decide (x = n)) as [->|Hx].
    + rewrite decide_False by lia. rewrite decide_True by (cbn; lia). by rewrite Nat.sub_diag.
    + cbn [length]. destruct (decide (S n <= x < S n + S (length l))%nat).
      * rewrite decide_True by lia. replace (x - n)%nat with (S (x - S n)) by lia. done.
      * rewrite decide_False by lia. done.
Qed.
Lemma priv_data_refused l n j ml s : (j = JObject ml \/ (j = JNull /\ ml = [])) -> Forall (fun z => 0 <= z) l -> Exists (fun z => 5 < z) l ->
  priv_data n l j s = Ret None s.
Proof.
  intros Hj Hl He. revert n j ml Hj. induction Hl as [|z l Hz Hl IH]; intros n j ml Hj; [by apply Exists_nil in He|].
  cbn [priv_data]. unfold Privilege_Oem. destruct (Z.ltb_spec 5 z) as [H|H]; [done|]. destruct (names_of_levels z ltac:(lia)) as [En _].
  unfold convertToPrivLimitString. rewrite En.
  destruct (law_assign j ml (csKey n) (JString (privilege_name z)) Hj) as (m1 & E1 & _).
  unfold bind, ret, answer at 1. rewrite E1. apply (IH ltac:(by inversion He; [lia|]) (S n) (JObject m1) m1). by left.
Qed.

(** What is in the file of changes, and what is there after a row was set. *)
Definition content (s : CipherConfig) (l : list (string * Json)) : Prop :=
  readCSPrivilegeLevels (csFile s) = JObject l \/ (readCSPrivilegeLevels (csFile s) = JNull /\ l = []).
Definition no_null (s : CipherConfig) : Prop :=
  (match csFile s with Some _ => is_null (readCSPrivilegeLevels (csFile s)) | None => false end) = false.
Lemma consistent_content s : consistent s -> no_null s /\ exists l, content s l /\
  (forall c o, (c < 16)%nat -> json_find (chKey c) l = Some o -> channel_object o) /\
  forall c x, csFile s ≫= (fun j => level j c x) = level (JObject l) c x.
Proof.
  intros Hs. unfold content, no_null. pose proof (con_file s Hs) as Hf. destruct (csFile s) as [j|].
  - destruct (Hf j eq_refl) as (l & -> & Hl). split; [done|]. exists l. by split; [left|].
  - split; [done|]. exists []. by split; [right|].
Qed.
Definition new_level (s : CipherConfig) (ch : Z) (l : list Z) (c x : nat) : Z :=
  if decide (c = Z.to_nat ch) then nth x l 0 else configured s c x.
Lemma row_content s ch l : consistent s -> channel_valid ch = true -> Forall (fun z => 0 <= z <= 5) l -> length l = 16%nat ->
  exists l', setCSPrivilegeLevels ch l s =
      (let! r := writeCSPrivilegeLevels (JObject l') in
       if negb (r =? 0) then ret ccUnspecifiedError else updateCSPrivilegesMap (JObject l') ;;; ret ccSuccess) s /\
    levels_file (JObject l') /\
    forall c x, (x < 16)%nat -> level (JObject l') c x =
      if decide (c = Z.to_nat ch) then Some (nth x l 0) else csFile s ≫= (fun j => level j c x).
Proof.
  intros Hs Hv Hl Hlen. destruct (consistent_content s Hs) as (Hn & lf & Hc & Hobj & Hlev).
  destruct (priv_data_runs l 0 JNull [] s) as (m & Em & Fm); [by right|done|by intros ->|].
  destruct (law_assign _ lf (chKey (Z.to_nat ch)) (JObject m) Hc) as (l' & E' & F').
  assert (forall x, (x < 16)%nat -> json_find (csKey x) m = Some (JString (privilege_name (nth x l 0)))) as Fm'.
  { intros x Hx. rewrite Fm, decide_True by lia. rewrite Nat.sub_0_r. destruct (lookup_lt_is_Some_2 l x ltac:(lia)) as [z Ez].
    rewrite Ez. by rewrite (nth_lookup_Some _ _ _ _ Ez). }
  exists l'. split; [|split].
  - unfold setCSPrivilegeLevels. rewrite Hv. cbn [negb]. unfold bind at 1, get. cbv beta iota zeta. rewrite Hn.
    rewrite (bind_Ret _ _ _ _ _ Em). unfold answer. rewrite E'. reflexivity.
  - exists l'. split; [done|]. intros c o Hc' Ho. rewrite F' in Ho. destruct (String.eqb_spec (chKey (Z.to_nat ch)) (chKey c)).
    + injection Ho as <-. exists m. split; [done|]. intros x Hx. eexists. by apply Fm'.
    + by eapply Hobj.
  - intros c x Hx. rewrite Hlev. unfold level. change (member (JObject l') (chKey c)) with (json_find (chKey c) l').
    change (member (JObject lf) (chKey c)) with (json_find (chKey c) lf).
    rewrite F'. destruct (String.eqb_spec (chKey (Z.to_nat ch)) (chKey c)) as [E|E].
    + apply chKey_inj in E. rewrite decide_True by done. cbn [mbind option_bind member]. rewrite Fm' by done. f_equal.
      apply names_of_levels. rewrite Forall_forall in Hl. apply Hl, list_elem_of_In, nth_In. lia.
    + rewrite decide_False; [done|]. intros ->. done.
Qed.
Lemma set_row s ch l : consistent s -> channel_valid ch = true -> Forall (fun z => 0 <= z <= 5) l -> length l = 16%nat ->
  if default true (head (writes s))
  then exists s', setCSPrivilegeLevels ch l s = Ret ccSuccess s' /\ consistent s' /\ writes s' = tail (writes s) /\
    forall c x, (c < 16)%nat -> (x < 16)%nat -> configured s' c x = new_level s ch l c x
  else setCSPrivilegeLevels ch l s = Ret ccUnspecifiedError (s <| writes := tail (writes s) |>).
Proof.
  intros Hs Hv Hl Hlen. destruct (row_content s ch l Hs Hv Hl Hlen) as (l' & -> & Hl' & Hlev').
  unfold writeCSPrivilegeLevels. destruct (default true (head (writes s))) eqn:Ew.
  2: { unfold bind, get, put, ret, modify. cbv beta iota. rewrite Ew. reflexivity. }
  set (s1 := s <| writes := tail (writes s) |> <| csFile := Some (JObject l') |>).
  set (s2 := s1 <| csPrivilegeMap := merged (JObject l') (csPrivilegeMap s1) |>). exists s2.
  assert (forall c x, (c < 16)%nat -> (x < 16)%nat -> configured s2 c x = new_level s ch l c x) as Hconf.
  { intros c x Hc' Hx. unfold configured, new_level. change (csFile s2) with (Some (JObject l')). change (csDefaultFile s2) with (csDefaultFile s).
    cbn [mbind option_bind]. rewrite Hlev' by done. by destruct (decide (c = Z.to_nat ch)). }
  split; [|split; [split|split; [done|exact Hconf]]].
  - rewrite (bind_Ret _ _ _ 0 s1).
    + cbn [negb Z.eqb]. pose proof (update_runs (JObject l') s1 Hl' : _ = Ret tt s2) as Eu. by rewrite (bind_Ret _ _ _ _ _ Eu).
    + unfold bind, get, put, ret, modify. cbv beta iota. by rewrite Ew.
  - apply Hs.
  - intros j [= <-]. exact Hl'.
  - intros c x Hc' Hx. rewrite Hconf by done. change (csPrivilegeMap s2) with (merged (JObject l') (csPrivilegeMap s)).
    rewrite merged_lookup, Hlev' by done. unfold new_level. destruct (decide (c = Z.to_nat ch)); [done|].
    destruct (csFile s ≫= _) eqn:El; [|by apply Hs]. unfold configured. by rewrite El.
Qed.
Lemma set_row_refused s ch l : consistent s -> channel_valid ch = true -> Forall (fun z => 0 <= z) l -> Exists (fun z => 5 < z) l ->
  setCSPrivilegeLevels ch l s = Ret ccInvalidFieldRequest s.
Proof.
  intros Hs Hv Hl He. destruct (consistent_content s Hs) as (Hn & _). unfold setCSPrivilegeLevels. rewrite Hv. cbn [negb].
  unfold bind at 1, get. cbv beta iota zeta. rewrite Hn.
  by rewrite (bind_Ret _ _ _ _ _ (priv_data_refused l 0 JNull [] s ltac:(by right) Hl He)).
Qed.

(** ** The specification: a table of rows *)
Inductive CsRequest := SetLevels (ch : Z) (l : list Z) | GetLevels (ch : Z) | RestartService.
Definition run_request (r : CsRequest) : M CipherConfig (Z * list Z) :=
  match r with
  | SetLevels ch l => let! cc := setCSPrivilegeLevels ch l in ret (cc, [])
  | GetLevels ch => getCSPrivilegeLevels ch
  | RestartService => new_CipherConfig ;;; ret (ccSuccess, [])
  end.
(** The writes to come, and the rows. *)
Definition table : Type := list bool * (Z -> list Z).
Definition spec_request (r : CsRequest) (t : table) : (Z * list Z) * table :=
  let '(w, rows) := t in
  match r with
  | SetLevels ch l =>
      if negb (channel_valid ch) || existsb (fun z => 5 <? z) l then ((ccInvalidFieldRequest, []), t)
      else if default true (head w) then ((ccSuccess, []), (tail w, fun c => if c =? ch then l else rows c))
      else ((ccUnspecifiedError, []), (tail w, rows))
  | GetLevels ch => if channel_valid ch then ((ccSuccess, rows ch), t) else ((ccInvalidFieldRequest, []), t)
  | RestartService => ((ccSuccess, []), t)
  end.
Fixpoint spec_requests (l : list CsRequest) (t : table) : list (Z * list Z) :=
  match l with [] => [] | r :: l => let '(a, t) := spec_request r t in a :: spec_requests l t end.
(** A request of the sixteen four-bit levels. *)
Definition well_typed (r : CsRequest) : Prop :=
  match r with SetLevels _ l => length l = 16%nat /\ Forall (fun z => 0 <= z < 16) l | _ => True end.
Definition shows (s : CipherConfig) (t : table) : Prop :=
  consistent s /\ writes s = fst t /\ forall ch, channel_valid ch = true -> snd t ch = row s ch.

Lemma map_nth_all (l : list Z) : map (fun x => nth x l 0) (seq 0 (length l)) = l.
Proof. induction l as [|z l IH]; [done|]. cbn [length seq map nth]. f_equal. by rewrite <- seq_shift, map_map. Qed.
Lemma row_after_set s s' ch l c : channel_valid ch = true -> channel_valid c = true -> length l = 16%nat ->
  (forall c x, (c < 16)%nat -> (x < 16)%nat -> configured s' c x = new_level s ch l c x) ->
  row s' c = if c =? ch then l else row s c.
Proof.
  intros Hv Hvc Hlen Hc. pose proof (channel_range c Hvc). pose proof (channel_range ch Hv).
  transitivity (map (new_level s ch l (Z.to_nat c)) (seq 0 16)).
  - apply map_ext_in. intros x Hx. apply in_seq in Hx. apply Hc; lia.
  - unfold new_level. destruct (Z.eqb_spec c ch) as [->|Hne].
    + rewrite (map_ext _ (fun x => nth x l 0)) by (intros x; by rewrite decide_True). rewrite <- Hlen. apply map_nth_all.
    + apply map_ext. intros x. rewrite decide_False; [done|]. lia.
Qed.
Lemma set_refines s w rows ch l : shows s (w, rows) -> length l = 16%nat -> Forall (fun z => 0 <= z < 16) l -> exists s',
  run_request (SetLevels ch l) s = Ret (fst (spec_request (SetLevels ch l) (w, rows))) s' /\
  shows s' (snd (spec_request (SetLevels ch l) (w, rows))).
Proof.
  intros (Hs & Hw & Hrows) Hlen Hl. cbn [fst snd] in Hw, Hrows. cbn [run_request spec_request].
  destruct (channel_valid ch) eqn:Hv; cbn [negb orb].
  2: { exists s. split; [|done]. unfold setCSPrivilegeLevels. by rewrite Hv. }
  destruct (existsb (fun z => 5 <? z) l) eqn:He.
  - apply existsb_exists in He as (z & Hz & Hlt). exists s. split; [|done].
    assert (Exists (fun z => 5 < z) l) as Hex by (apply Exists_exists; exists z; split; [by apply list_elem_of_In|lia]).
    assert (Forall (fun z => 0 <= z) l) as Hpos by (eapply Forall_impl; [exact Hl|]; cbn; lia).
    by rewrite (bind_Ret _ _ _ _ _ (set_row_refused s ch l Hs Hv Hpos Hex)).
  - assert (Forall (fun z => 0 <= z <= 5) l) as Hl'.
    { apply Forall_forall. intros z Hz. rewrite Forall_forall in Hl. specialize (Hl z Hz).
      destruct (Z.ltb_spec 5 z) as [H|H]; [|lia]. enough (existsb (fun z => 5 <? z) l = true) by congruence.
      apply existsb_exists. exists z. split; [by apply list_elem_of_In|lia]. }
    pose proof (set_row s ch l Hs Hv Hl' Hlen) as H. rewrite Hw in H. destruct (default true (head w)).
    + destruct H as (s' & E & Hs' & Hw' & Hc). exists s'. rewrite (bind_Ret _ _ _ _ _ E). split; [done|]. split; [done|]. split; [done|].
      intros c Hvc. cbn [snd]. rewrite (row_after_set s s' ch l c) by done. by destruct (c =? ch); [|apply Hrows].
    + exists (s <| writes := tail w |>). rewrite (bind_Ret _ _ _ _ _ H). split; [done|]. split; [|done]. by destruct Hs.
Qed.
Lemma request_refines r s t : shows s t -> well_typed r -> exists s',
  run_request r s = Ret (fst (spec_request r t)) s' /\ shows s' (snd (spec_request r t)).
Proof.
  destruct t as [w rows], r as [ch l|ch|]; [by intros H []; apply set_refines|intros (Hs & Hw & Hrows) _..]; cbn [run_request spec_request].
  - destruct (channel_valid ch) eqn:Hv.
    + destruct (get_row s ch Hs Hv) as (m & E & Hm). exists (s <| csPrivilegeMap := m |>). cbn [fst snd]. rewrite E, <- Hrows by done.
      split; [done|]. split; [done|]. split; [done|]. exact Hrows.
    + exists s. split; [|done]. unfold getCSPrivilegeLevels. by rewrite Hv.
  - destruct (start_consistent s (con_default s Hs) (con_file s Hs)) as (s' & E & Hs' & Ed & Ef & Ew). exists s'.
    rewrite (bind_Ret _ _ _ _ _ E). split; [done|]. split; [done|]. split; [by rewrite Ew|]. intros ch Hv. rewrite Hrows by done.
    unfold row. apply map_ext. intros x. unfold configured. by rewrite Ed, Ef.
Qed.

(** C15. Once started from well-formed files the service
    answers every sequence of requests as a table with a row of sixteen levels
    per channel does: a row that was set is read back until it is set again,
    also after restarts; a request for a channel that is not valid, or with a
    level that is no privilege, is refused and changes nothing, and neither does
    one whose write fails. *)
Theorem cipher_levels_refine s requests :
  (exists d, csDefaultFile s = Some d /\ levels_file d) -> (forall j, csFile s = Some j -> levels_file j) -> Forall well_typed requests ->
  exists started s', new_CipherConfig s = Ret tt started /\
    mmap run_request requests started = Ret (spec_requests requests (writes s, row s)) s'.
Proof.
  intros Hd Hf Hr. destruct (start_consistent s Hd Hf) as (s0 & E0 & Hs0 & Ed & Ef & Ew). exists s0.
  assert (shows s0 (writes s, row s)) as H0.
  { split; [done|]. split; [done|]. intros ch _. cbn [snd]. unfold row. apply map_ext. intros x. unfold configured. by rewrite Ed, Ef. }
  enough (exists s', mmap run_request requests s0 = Ret (spec_requests requests (writes s, row s)) s') as (s' & E) by (by exists s').
  clear E0 Hs0 Ed Ef Ew. revert s0 H0. generalize (writes s, row s). induction Hr as [|r l Hr _ IH]; intros t s0 H0; [by exists s0|].
  destruct (request_refines r s0 t H0 Hr) as (s1 & E1 & H1). cbn [mmap spec_requests].
  destruct (spec_request r t) as [a t1]. destruct (IH t1 s1 H1) as (s2 & E2). exists s2.
  by rewrite (bind_Ret _ _ _ _ _ E1), (bind_Ret _ _ _ _ _ E2).
Qed.
End Levels.

(** ** The records *)

(** A suite, how the file describes it, its record and how a client reads
    records. *)
Record Suite := { su_id : Z; su_oem : option Z; su_auth : Z; su_integrity : Z; su_conf : Z }.
Definition suite_ok (u : Suite) : Prop :=
  is_byte (su_id u) /\ (match su_oem u with Some o => 0 <= o < 2 ^ 24 | None => True end) /\
  0 <= su_auth u < 64 /\ 0 <= su_integrity u < 64 /\ 0 <= su_conf u < 64.
Definition member_is (m : list (string * Json)) (k : string) (z : Z) : Prop :=
  match json_find k m with Some v => v = JNumber z | None => z = 0 end.
Definition describes (j : Json) (u : Suite) : Prop :=
  exists m, j = JObject m /\ member_is m "cipher" (su_id u) /\ member_is m "authentication" (su_auth u) /\
    member_is m "integrity" (su_integrity u) /\ member_is m "confidentiality" (su_conf u) /\
    json_find "oemiana" m = JNumber <$> su_oem u.
Definition suite_record (u : Suite) : list Z :=
  match su_oem u with
  | Some o => [oemCipherSuite; su_id u; u8 o; u8 (Z.shiftr o 8); u8 (Z.shiftr o 16)]
  | None => [stdCipherSuite; su_id u]
  end ++ [su_auth u; Z.lor (su_integrity u) integrityTag; Z.lor (su_conf u) confTag].
Fixpoint decode_records (l : list Z) : option (list Suite) :=
  match l with
  | [] => Some []
  | h :: i :: l =>
      if h =? stdCipherSuite
      then match l with
           | a :: n :: c :: l =>
               cons {| su_id := i; su_oem := None; su_auth := a; su_integrity := Z.land n 0x3F; su_conf := Z.land c 0x3F |} <$> decode_records l
           | _ => None
           end
      else match l with
           | o0 :: o1 :: o2 :: a :: n :: c :: l =>
               cons {| su_id := i; su_oem := Some (o0 + 256 * o1 + 65536 * o2); su_auth := a; su_integrity := Z.land n 0x3F;
                       su_conf := Z.land c 0x3F |} <$> decode_records l
           | _ => None
           end
  | _ => None
  end.
Lemma tagged z tag : 0 <= z < 64 -> tag = integrityTag \/ tag = confTag -> Z.land (Z.lor z tag) 0x3F = z /\ 0 <= Z.lor z tag < 256.
Proof.
  intros Hz Ht. assert (forall n, (n < 64)%nat -> forall t, t = integrityTag \/ t = confTag ->
    Z.land (Z.lor (Z.of_nat n) t) 0x3F = Z.of_nat n /\ 0 <= Z.lor (Z.of_nat n) t < 256) as H.
  { intros n Hn t Ht'. do 64 (destruct n as [|n]; [destruct Ht' as [-> | ->]; vm_compute; intuition congruence|]). lia. }
  specialize (H (Z.to_nat z) ltac:(lia) tag Ht). by rewrite Z2Nat.id in H by lia.
Qed.
Lemma oem_bytes o : 0 <= o < 2 ^ 24 -> u8 o + 256 * u8 (Z.shiftr o 8) + 65536 * u8 (Z.shiftr o 16) = o.
Proof.
  intros Ho. unfold u8. rewrite !Z.shiftr_div_pow2 by lia. change (2 ^ 8) with 256. change (2 ^ 16) with (256 * 256).
  rewrite <- Z.div_div by lia. rewrite (Z.mod_small (o / 256 / 256)); [|split; [apply Z.div_pos; [apply Z.div_pos|]; lia|]].
  - pose proof (Z.div_mod o 256). pose proof (Z.div_mod (o / 256) 256). lia.
  - rewrite Z.div_div by lia. apply Z.div_lt_upper_bound; lia.
Qed.
Lemma decode_encoded l : Forall suite_ok l -> decode_records (concat (map suite_record l)) = Some l.
Proof.
  induction 1 as [|u l (Hi & Ho & Ha & Hn & Hc) _ IH]; [done|]. cbn [map concat]. unfold suite_record at 1.
  destruct (tagged (su_integrity u) integrityTag Hn ltac:(by left)) as [En _]. destruct (tagged (su_conf u) confTag Hc ltac:(by right)) as [Ec _].
  destruct u as [i [o|] a n c]; cbn [su_id su_oem su_auth su_integrity su_conf] in *; cbn -[Z.land Z.lor u8 integrityTag confTag Z.mul Z.add];
    rewrite IH; cbn -[Z.land Z.lor u8 integrityTag confTag Z.mul Z.add]; rewrite En, Ec; [|done].
  by rewrite oem_bytes.
Qed.

(** All pages together are the records. *)
Lemma pages_join records n : concat (map (fun k => page records (Z.of_nat k)) (seq 0 n)) = take (16 * n) records.
Proof.
  induction n as [|n IH]; [done|]. rewrite seq_S, map_app, concat_app, IH. cbn [plus map concat]. rewrite app_nil_r.
  unfold page, respSize. rewrite Nat2Z.id, (Nat.mul_comm n 16). replace (16 * S n)%nat with (16 * n + 16)%nat by lia. unfold slice.
  destruct (decide (length records <= 16 * n)%nat) as [H|H].
  - rewrite !(take_ge records) by lia. rewrite drop_ge by lia. by rewrite take_nil, app_nil_r.
  - rewrite (Nat.min_l (16 * n)) by lia. rewrite <- take_take_drop. f_equal.
    destruct (Nat.min_spec (16 * n + 16) (length records)) as [[H1 ->]|[H1 ->]]; [f_equal; lia|].
    rewrite !take_ge; [done|rewrite length_drop; lia..].
Qed.

Section Listing.
Context {J : JsonLib} {JM : JsonMore} {Ch : Channels} {JL : JsonLaws J} {JML : JsonMoreLaws J JM}.

Lemma number_Ret {S} m k z (s : S) : member_is m k z -> - 2 ^ 31 <= z < 2 ^ 31 -> number (JObject m) k s = Ret z s.
Proof.
  intros Hm Hz. unfold number, json_value. rewrite law_value. unfold member_is in Hm. unfold bind, Json.answer, ret.
  destruct (json_find k m) as [v|]; [|by subst]. subst v. unfold json_int. by rewrite law_int.
Qed.
Lemma small_int z : 0 <= z < 16777216 -> - 2 ^ 31 <= z < 2 ^ 31.
Proof. change (2 ^ 31) with 2147483648. lia. Qed.
Lemma record_head_Ret j u s : describes j u -> suite_ok u -> record_head j s =
  Ret (match su_oem u with
       | Some o => [oemCipherSuite; su_id u; u8 o; u8 (Z.shiftr o 8); u8 (Z.shiftr o 16)]
       | None => [stdCipherSuite; su_id u]
       end) s.
Proof.
  intros (m & -> & Hi & _ & _ & _ & Ho) (Hb & Hoem & _). unfold is_byte in Hb. unfold record_head. rewrite law_count, Ho.
  assert (u8 (su_id u) = su_id u) as Eu by (apply Z.mod_small; lia).
  pose proof (number_Ret m "cipher" (su_id u) s Hi (small_int (su_id u) ltac:(lia))) as E1.
  destruct (su_oem u) as [o|]; cbn [fmap option_fmap option_map] in *; rewrite (bind_Ret _ _ _ _ _ E1), Eu; [|done].
  by rewrite (bind_Ret _ _ _ _ _ (number_Ret m "oemiana" o s ltac:(unfold member_is; by rewrite Ho) (small_int o Hoem))).
Qed.
Lemma cipher_records_Ret js us : Forall2 describes js us -> Forall suite_ok us -> forall recs algs s, exists algs',
  cipher_records js recs algs s = Ret (recs ++ concat (map suite_record us), algs') s.
Proof.
  induction 1 as [|j u js us Hd _ IH]; intros Hok recs algs s; [exists algs; cbn; by rewrite app_nil_r|].
  apply Forall_cons in Hok as [Hu Hok]. cbn [cipher_records]. rewrite (bind_Ret _ _ _ _ _ (record_head_Ret j u s Hd Hu)).
  destruct Hd as (m & -> & _ & Ha & Hn & Hc & _). destruct Hu as (_ & _ & Ba & Bn & Bc).
  rewrite (bind_Ret _ _ _ _ _ (number_Ret m _ (su_auth u) s Ha (small_int (su_auth u) ltac:(lia)))).
  rewrite (bind_Ret _ _ _ _ _ (number_Ret m _ (su_integrity u) s Hn (small_int (su_integrity u) ltac:(lia)))).
  rewrite (bind_Ret _ _ _ _ _ (number_Ret m _ (su_conf u) s Hc (small_int (su_conf u) ltac:(lia)))).
  destruct (tagged (su_integrity u) integrityTag Bn ltac:(by left)) as [_ Rn]. destruct (tagged (su_conf u) confTag Bc ltac:(by right)) as [_ Rc].
  cbv zeta. assert (u8 (su_auth u) = su_auth u) as -> by (apply Z.mod_small; lia).
  assert (u8 (Z.lor (su_integrity u) integrityTag) = Z.lor (su_integrity u) integrityTag) as -> by (apply Z.mod_small; lia).
  assert (u8 (Z.lor (su_conf u) confTag) = Z.lor (su_conf u) confTag) as -> by (apply Z.mod_small; lia).
  edestruct (IH Hok) as [algs' E]. exists algs'. rewrite E. unfold suite_record. cbn [map concat]. by rewrite <- !app_assoc.
Qed.

(** ** From request bytes to the suites *)
Definition ready (records : list Z) (s : CipherRecords) : Prop := recordInit s = true /\ cipherRecords s = records.
Lemma init_runs js us s : cipherList s = Some (JArray js) -> Forall2 describes js us -> Forall suite_ok us -> recordInit s = false ->
  exists s', init_records s = Ret true s' /\ ready (concat (map suite_record us)) s'.
Proof.
  intros Hl Hd Hok Hi. destruct (cipher_records_Ret js us Hd Hok [] [] s) as [algs E].
  exists (s <| cipherRecords := concat (map suite_record us) |> <| supportedAlgorithms := algs |> <| recordInit := true |>).
  split; [|done]. unfold init_records, bind at 1, get. cbv beta iota. rewrite Hi. unfold try.
  assert (getCipherRecords s = Ret (concat (map suite_record us), algs) s) as Eg.
  { unfold getCipherRecords, bind at 1, get. cbv beta iota. rewrite Hl, law_range. exact E. }
  by rewrite (bind_Ret _ _ _ _ _ Eg).
Qed.
(** A channel with sessions and a device. *)
Definition usable (ch : Z) : Prop :=
  0 <= ch < 16 /\ ch <> currentChNum /\ channel_valid ch = true /\ channel_sessions ch <> EChannelSessSupported_none /\ channel_device ch = true.
Definition page_value (ch : Z) (k : nat) : interps cipher_suites_args := (ch, (0, (0, (Z.of_nat k, (0, (1, tt)))))).
Lemma handler_runs ch k r records s s' : usable ch -> init_records s = Ret true s' -> cipherRecords s' = records ->
  getChannelCipherSuites r (page_value ch k) s = Ret (Returned (ccSuccess, Some (ch, (page records (Z.of_nat k), tt)))) s'.
Proof.
  intros (Hch & Hne & Hv & Hs & Hd) E Er. unfold getChannelCipherSuites, page_value.
  assert (the_channel r ch = ch) as -> by (unfold the_channel, convertCurrentChannelNum; by rewrite (proj2 (Z.eqb_neq _ _))).
  rewrite Hv. cbn [nonzero negb orb Z.eqb]. change (isValidPayloadType 0) with true. cbn [negb].
  rewrite (bind_Ret _ _ _ _ _ E). cbn [negb]. unfold bind, get. cbv beta iota. change (nonzero 1) with true. cbv iota zeta.
  rewrite (proj2 (Z.eqb_neq _ _)), Hd by done. cbn [orb negb]. by rewrite Er.
Qed.
Lemma ready_init records s : ready records s -> init_records s = Ret true s.
Proof. intros [Hi _]. unfold init_records, bind, get. by rewrite Hi. Qed.

Definition page_request (ch : Z) (k : nat) : list Z := raw (snd (pack cipher_suites_args (page_value ch k) (new_Payload []))).
Definition cipher_tables : Tables CipherRecords := register_cipher_suites no_tables.
Lemma registered_cipher_suites : handlerMap cipher_tables !! makeCmdKey netFnApp 0x54 =
  Some {| ht_prio := prioOpenBmcBase; ht_priv := Privilege_None;
          ht_handler := executeCallback cipher_suites_args cipher_suites_res getChannelCipherSuites |}.
Proof. reflexivity. Qed.

Section Bytes.
Context (q : ChannelQueries) (owners : Owners) (sender : string) (lun : Z) (options : gmap string Value) (cr : Credentials) (ch : Z).
Hypothesis Hchannel : channelFromMessage q owners sender <> invalidChannel.
Hypothesis Hcredentials : credentials q (channelFromMessage q owners sender) options = Some cr.
Hypothesis Hpriv : Privilege_None <= c_priv cr.
Hypothesis Hch : usable ch.
Let run := executionEntry cipher_tables q owners sender netFnApp lun 0x54.

Lemma run_page k records s s' : (k < 64)%nat -> bytes records -> init_records s = Ret true s' -> ready records s' ->
  exists reply rest, run (page_request ch k) options s = Ret (0x07, lun, 0x54, ccSuccess, reply) s' /\
    Request_unpack cipher_suites_res ((new_Payload reply) <| trailingOk := false |>) = Ret (inr (ch, (page records (Z.of_nat k), tt))) rest.
Proof.
  intros Hk Hb E [_ Er]. pose proof (proj1 Hch) as Hr.
  assert (valids cipher_suites_args (page_value ch k)) as V.
  { unfold page_value. cbn -[Z.pow]. change (2 ^ 4) with 16. change (2 ^ 8) with 256. change (2 ^ 6) with 64. change (2 ^ 1) with 2. repeat split; lia. }
  destruct (pack_encoded cipher_suites_args (page_value ch k) true (new_Payload []) ltac:(apply new_payload_ok; constructor) eq_refl V) as (d & Hd & _).
  unfold page_request. rewrite Hd. set (r := (ch, (page records (Z.of_nat k), tt)) : interps cipher_suites_res).
  destruct (reply_read cipher_suites_res r eq_refl) as [rest Hrest].
  { unfold r. cbn -[Z.pow page]. change (2 ^ 8) with 256. repeat split; [lia..|]. by apply Forall_take, Forall_drop. }
  eexists _, rest. split; [|exact Hrest].
  refine (command_runs cipher_tables q owners sender netFnApp lun 0x54 options cipher_suites_args cipher_suites_res getChannelCipherSuites cr
    prioOpenBmcBase Privilege_None (page_value ch k) (Some r) ccSuccess d s s s' Hchannel Hcredentials _ _ registered_cipher_suites Hpriv _ V Hd _ _);
    [discriminate..|reflexivity|reflexivity|intros ?; by apply handler_runs].
Qed.
Lemma suite_bytes us : Forall suite_ok us -> bytes (concat (map suite_record us)).
Proof.
  induction 1 as [|u us (Hi & Ho & Ha & Hn & Hc) _ IH]; [constructor|]. cbn [map concat]. apply Forall_app. split; [|exact IH].
  destruct (tagged (su_integrity u) integrityTag Hn ltac:(by left)) as [_ Rn]. destruct (tagged (su_conf u) confTag Hc ltac:(by right)) as [_ Rc].
  unfold suite_record. apply Forall_app. split.
  - destruct (su_oem u); repeat (constructor; [first [apply u8_is_byte|exact Hi|unfold is_byte, oemCipherSuite, stdCipherSuite; lia]|]); constructor.
  - repeat (constructor; [unfold is_byte; lia|]). constructor.
Qed.

Definition reply_is (reply p : list Z) : Prop := exists rest,
  Request_unpack cipher_suites_res ((new_Payload reply) <| trailingOk := false |>) = Ret (inr (ch, (p, tt))) rest.
Definition answered (reply : list Z) : DbusResponse := (0x07, lun, 0x54, ccSuccess, reply).
Lemma run_pages records s ks : Forall (fun k => (k < 64)%nat) ks -> bytes records -> ready records s -> exists replies,
  mmap (fun k => run (page_request ch k) options) ks s = Ret (map answered replies) s /\
  Forall2 reply_is replies (map (fun k => page records (Z.of_nat k)) ks).
Proof.
  intros Hks Hb Hr. induction Hks as [|k ks Hk _ (replies & E & HF)]; [by exists []|].
  destruct (run_page k records s s Hk Hb (ready_init records s Hr) Hr) as (reply & rest & E1 & E2).
  exists (reply :: replies). cbn [mmap map]. rewrite (bind_Ret _ _ _ _ _ E1), (bind_Ret _ _ _ _ _ E). split; [done|].
  constructor; [by exists rest|exact HF].
Qed.

(** C16. A client that asks a channel with sessions for all 64
    pages of the cipher suites gets an answer to every request, from the first
    one on, which reads the file; and the pages, put together, decode to exactly
    the suites of the file, in their order, if their records have at most 1024
    bytes. *)
Theorem cipher_suites_listed js us s :
  cipherList s = Some (JArray js) -> recordInit s = false -> Forall2 describes js us -> Forall suite_ok us ->
  (length (concat (map suite_record us)) <= 1024)%nat ->
  exists s' replies pages, mmap (fun k => run (page_request ch k) options) (seq 0 64) s = Ret (map answered replies) s' /\
    Forall2 reply_is replies pages /\ decode_records (concat pages) = Some us.
Proof.
  intros Hl Hi Hd Hok Hlen. set (records := concat (map suite_record us)). destruct (init_runs js us s Hl Hd Hok Hi) as (s' & E & Hr).
  pose proof (suite_bytes us Hok) as Hb.
  destruct (run_page 0 records s s' ltac:(lia) Hb E Hr) as (reply & rest & E1 & E2).
  destruct (run_pages records s' (seq 1 63)) as (replies & E3 & HF); [|done|done|].
  { apply Forall_forall. intros k Hk. apply list_elem_of_In, in_seq in Hk. lia. }
  exists s', (reply :: replies), (map (fun k => page records (Z.of_nat k)) (seq 0 64)). split; [|split].
  - change (seq 0 64) with (0%nat :: seq 1 63). cbn [mmap map]. by rewrite (bind_Ret _ _ _ _ _ E1), (bind_Ret _ _ _ _ _ E3).
  - change (seq 0 64) with (0%nat :: seq 1 63). constructor; [by exists rest|exact HF].
  - rewrite pages_join, take_ge by (unfold records; lia). by apply decode_encoded.
Qed.
End Bytes.
End Listing.

(** ** Samples *)
Fixpoint json_put (k : string) (v : Json) (l : list (string * Json)) : list (string * Json) :=
  match l with [] => [(k, v)] | (k', v') :: l => if String.eqb k' k then (k, v) :: l else (k', v') :: json_put k v l end.
Definition sample_more : JsonMore := {|
  lib_assign j k v := match j with JObject l => inr (JObject (json_put k v l)) | JNull => inr (JObject [(k, v)]) | _ => inl type_error end;
  lib_range j := match j with JArray l => l | JObject l => map snd l | JNull => [] | _ => [j] end |}.
Lemma json_find_put k v l k' : json_find k' (json_put k v l) = if String.eqb k k' then Some v else json_find k' l.
Proof.
  induction l as [|[k1 v1] l IH]; cbn; [done|]. destruct (String.eqb_spec k1 k) as [->|Hk]; cbn.
  - by destruct (String.eqb k k').
  - rewrite IH. destruct (String.eqb_spec k1 k') as [->|]; [|done]. by destruct (String.eqb_spec k k').
Qed.
Lemma sample_more_laws : JsonMoreLaws sample_json sample_more.
Proof.
  constructor.
  - intros j l k v [->|[-> ->]]; [exists (json_put k v l)|exists [(k, v)]]; (split; [done|]); intros k'; [apply json_find_put|done].
  - done.
  - done.
  - done.
  - intros z Hz. cbn [lib_int sample_json]. f_equal. rewrite <- (sext_mod 32 z) at 2 by (cbn; lia). unfold sext. by rewrite Z.mod_mod.
Qed.
Definition sample_channels_1 : Channels :=
  {| channel_valid ch := ch =? 1; channel_sessions _ := 2; channel_device ch := ch =? 1 |}.
Lemma sample_channels_1_laws : ChannelsLaws sample_channels_1.
Proof. intros ch H. cbn in H. lia. Qed.

Section Samples.
#[local] Existing Instances sample_json sample_json_laws sample_more sample_more_laws sample_channels_1 sample_channels_1_laws.
Definition sample_levels (name : string) : Json :=
  JObject [(chKey 1, JObject (map (fun x => (csKey x, JString (bytes_of_string name))) (seq 0 16)))].
Lemma sample_levels_file name : levels_file (sample_levels name).
Proof.
  eexists. split; [reflexivity|]. intros c o Hc Ho. cbn -[chKey csKey] in Ho. destruct (String.eqb (chKey 1) (chKey c)); [|done].
  injection Ho as <-. eexists. split; [reflexivity|]. intros x Hx. exists (bytes_of_string name).
  do 16 (destruct x as [|x]; [by vm_compute|]). lia.
Qed.
Definition sample_config : CipherConfig :=
  {| csPrivilegeMap := ∅; csDefaultFile := Some (sample_levels "priv-admin"); csFile := None; writes := [false] |}.
(** The first write fails, the second one succeeds; a level seven is refused, and
    so is the second channel. *)
Definition sample_requests : list CsRequest :=
  [SetLevels 1 (replicate 16 2); SetLevels 1 (replicate 16 3); RestartService; GetLevels 1; SetLevels 1 (replicate 16 7); GetLevels 2].
Definition sample_answers : list (Z * list Z) :=
  [(ccUnspecifiedError, []); (ccSuccess, []); (ccSuccess, []); (ccSuccess, replicate 16 3); (ccInvalidFieldRequest, []); (ccInvalidFieldRequest, [])].
Lemma cipher_levels_refine_witness : exists started s',
  new_CipherConfig sample_config = Ret tt started /\ mmap run_request sample_requests started = Ret sample_answers s'.
Proof.
  assert (sample_answers = spec_requests sample_requests (writes sample_config, row sample_config)) as -> by (vm_compute; reflexivity).
  apply (cipher_levels_refine sample_config sample_requests).
  - eexists. split; [reflexivity|apply sample_levels_file].
  - discriminate.
  - repeat constructor; cbn; lia.
Defined.

Definition sample_suites : list Suite :=
  [ {| su_id := 3; su_oem := None; su_auth := 1; su_integrity := 1; su_conf := 1 |};
    {| su_id := 128; su_oem := Some 42817; su_auth := 3; su_integrity := 4; su_conf := 1 |} ].
Definition sample_suite_json (u : Suite) : Json :=
  JObject (app [("cipher", JNumber (su_id u)); ("authentication", JNumber (su_auth u)); ("integrity", JNumber (su_integrity u));
    ("confidentiality", JNumber (su_conf u))] match su_oem u with Some o => [("oemiana", JNumber o)] | None => [] end)%string.
Definition sample_records : CipherRecords :=
  {| cipherList := Some (JArray (map sample_suite_json sample_suites)); cipherRecords := []; supportedAlgorithms := []; recordInit := false |}.
Definition sample_cs_queries : ChannelQueries :=
  {| getChannelByName s := if String.eqb s "IPMB" then Some 0 else None; IpmiDispatch.getChannelSessionSupport _ := 0; IpmiDispatch.mediumType _ := 1 |}.
Definition sample_cs_owners : Owners := {[ "one"%string := 0 ]}.
Lemma cipher_suites_listed_witness : exists s' replies pages,
  mmap (fun k => executionEntry cipher_tables sample_cs_queries sample_cs_owners "one" netFnApp 0 0x54 (page_request 1 k) ∅) (seq 0 64) sample_records =
    Ret (map (answered 0) replies) s' /\
  Forall2 (reply_is 1) replies pages /\ decode_records (concat pages) = Some sample_suites.
Proof.
  apply (cipher_suites_listed sample_cs_queries sample_cs_owners "one" 0 (∅ : gmap string IpmiDispatch.Value)
    {| c_priv := Privilege_Admin; c_user := 0; c_session := 0; c_rqSA := 0; c_host := 0 |} 1
    ltac:(vm_compute; discriminate) ltac:(vm_compute; reflexivity) ltac:(vm_compute; discriminate)
    ltac:(repeat split; cbn; first [lia|discriminate]) (map sample_suite_json sample_suites)).
  - reflexivity.
  - reflexivity.
  - repeat constructor; (eexists; repeat split).
  - repeat constructor; cbn; lia.
  - cbn. lia.
Defined.

(** ** Surprises *)

(** A file of changes that lacks a suite of a channel: the start reads a member
    that is not there, which is undefined. *)
Example missing_suite_is_undefined :
  new_CipherConfig (sample_config <| csFile := Some (JObject [(chKey 1, JObject [])]) |>) = Undef NullDeref.
Proof. vm_compute. reflexivity. Qed.
(** Without the default file the changes are not read either, and all levels are
    zero. *)
Example changes_need_the_default : exists s',
  (new_CipherConfig ;;; getCSPrivilegeLevels 1) (sample_config <| csDefaultFile := None |> <| csFile := Some (sample_levels "priv-user") |>) =
  Ret (ccSuccess, replicate 16 0) s'.
Proof. eexists. vm_compute. reflexivity. Qed.
(** A privilege that has no number is read as fifteen, which no request may set. *)
Example unknown_level_is_fifteen : convertToPrivLimitIndex (bytes_of_string "no-access") = 15.
Proof. reflexivity. Qed.
End Samples.
